(* ===== verification/_CoqProject ===== *)
-Q . S2P
Prelude.v
CInt.v
Machine.v
KString.v
KStringThm.v
Sched.v
Spinlock.v
Sleeplock.v
Kalloc.v
Vm.v
VmSpec.v
VmThm.v
VmCopy.v
Proc.v
Bio.v
BioRing.v
BioThm.v
Virtio.v
VirtioThm.v
Log.v
LogThm.v
Fs.v
FsData.v
FsThm.v
FsAlloc.v
FsWrite.v
FsDir.v
Pipe.v
ProcThm.v
File.v
Exec.v
Sysfile.v
Ulib.v
Printf.v
Uart.v
Console.v
ConsoleThm.v
Sysproc.v
SyscallThm.v
Grep.v
Sh.v
ShThm.v
ShPrint.v
ShRun.v
ShRunThm.v
ShMain.v
Umalloc.v
UmallocThm.v
Ust.v
UstThm.v
Mkfs.v
MkfsThm.v
Riscv.v
Trap.v
TrapThm.v
Boot.v
BootThm.v
Pthread.v
PthreadThm.v
Condvar.v
CondvarThm.v
CondvarRuns.v
