(* ===== verification/Prelude.v ===== *)
(** * A verified model of the kernel in src/xv6-riscv

    The repository holds a teaching copy of the xv6-riscv kernel, extended with
    kernel threads, its user programs, and the laboratory and exam programs of
    an operating systems course.  This development models the kernel's own
    logic (C sources under src/xv6-riscv/kernel, called kernel/ below), its user
    programs that are more than a loop of system calls, and the course programs
    over condition variables, as executable functions, and proves what their
    callers rely on.

    ** How the program is modelled

    - [CInt]: C integers are [Z] with the wrap-around of their type written
      where the C expression has that type ([u8] .. [u64], [s32]); memory
      words are little-endian byte lists ([le_split], [le_combine]).
    - [Machine]: a kernel routine is a function from a state to an outcome:
      it returns ([Ok]), calls [panic] ([Panic]), performs an undefined access
      ([Fault]), leaves the CPU in [sched] ([Switched], which carries the rest
      of the routine as a function of the state it is resumed in), or exhausts
      the bound of a loop ([Spins]).  Theorems about routines that return are
      stated with [wp] (total correctness: [Panic], [Fault] and [Spins] are
      excluded); routines that sleep are specified with [swp], which relates the
      state at every switch, and at the end, to the one in which the routine last
      got the CPU, and whose rely bounds what other threads do.
    - The state is layered by type parameters: [Kst] ([Sched]: held locks,
      running process, process table) over [KMem] ([Kalloc]: physical memory,
      free list) over [BioSt] ([Bio]: buffer cache) over [LogSt] ([Log]) over
      the inode table and open files ([Fs], [File]).  An operation of a lower
      layer is used unchanged by the higher ones.
    - Code outside the modelled sources is an interface: [KernelImage] (where
      the linker puts the kernel), [DiskDriver] (the disk, as the buffer cache
      sees it; [Virtio] models the driver below), [FileLayer]
      (what kernel/proc.c calls in the file system, implemented in [File]),
      [Devices] (the device switch).  [Patience] bounds how often a sleeper is woken in
      vain; a theorem about a loop that sleeps holds for every value of it.

    - Two parts have a step relation of their own: the processes of the shell
      ([ShRun]) and the threads of the course programs ([Pthread]), with a list
      of choices for what the scheduler and the environment decide.  A theorem
      about them holds for every list of choices.
    - What is [stuck] in [Pthread] is a state in which no thread can go on by
      itself; threads may also wake up for no reason, as POSIX allows.

    ** The files

    - [Prelude], [CInt], [Machine]: shared notation, record update, list and
      integer lemmas, the monad and its rules.
    - [KString], [KStringThm]: kernel/string.c and the string routines of
      user/ulib.c over byte memory.
    - [Sched], [Spinlock], [Sleeplock]: kernel/spinlock.c at the level of
      single memory accesses on several CPUs, the held-lock view used by
      everything else with the refinement between the two; [sched], [sleep],
      [wakeup], [yield], [kill], [scheduler] of kernel/proc.c;
      kernel/sleeplock.c.
    - [Kalloc], [Vm], [VmSpec], [VmThm], [VmCopy]: kernel/kalloc.c and kernel/vm.c on
      the bytes of physical memory; page tables are read back by the Sv39
      lookup [pt_lookup].
    - [Proc]: the rest of kernel/proc.c, with kernel threads.
    - [Bio], [BioRing], [BioThm]: kernel/bio.c.  [Log], [LogThm]: kernel/log.c.
    - [Fs], [FsData]: kernel/fs.c.  [FsThm] ([readi]), [FsAlloc] ([balloc],
      [bmap]), [FsWrite] ([writei]) and [FsDir] ([iget], [dirlookup], [dirlink])
      prove it over the cache and the log: [fbytes] is the contents of a file in
      the view [V] of the disk, [dir_get] the table a directory represents.
    - [File], [Pipe]: kernel/file.c and kernel/pipe.c.
    - [Exec], [Sysfile], [Sysproc]: kernel/exec.c, kernel/syscall.c,
      kernel/sysfile.c, kernel/sysproc.c.
    - [SyscallThm]: argument registers, refused calls and reference counts of
      the open-file table.  [ProcThm]: runs of the thread extension.
    - [Virtio], [VirtioThm]: kernel/virtio_disk.c over a device given by its
      registers ([VirtioHw]).
    - [Uart], [Console], [ConsoleThm]: kernel/uart.c over a 16550 ([UartHw],
      and [UartHwOk] for its documented behaviour), kernel/console.c,
      kernel/printf.c, [procdump].  The driver's state is reached through
      [Layer] ([Machine]), so the files do not depend on the layers between;
      the console implements the interface [Devices] of [File].
    - [Ulib], [Printf], [Grep]: user/ulib.c, user/printf.c and user/grep.c as
      routines of a user process ([UState]) over the system calls it makes
      ([UserOs], with [StreamOs] for what it relies on about its streams).
    - [Sh], [ShThm], [ShPrint]: the parser of user/sh.c over the rest of the
      line; [ShPrint] prints commands as lines.  [ShRun], [ShRunThm]: [runcmd]
      as a program over system calls ([prog]) and the processes and descriptor
      tables it runs among; [ShMain]: [getcmd] and [main].
    - [Umalloc], [UmallocThm]: user/umalloc.c on the process's memory.
    - [Ust], [UstThm]: src/ust/basic_threads.c, user-level threads over host
      contexts.
    - [Mkfs], [MkfsThm]: mkfs/mkfs.c, which builds the first image on the host:
      the sectors written so far and the two counters.
    - [Riscv], [Trap], [TrapThm]: the registers of a hart and their access
      routines (kernel/riscv.h), kernel/plic.c and kernel/trap.c, with [forkret].
    - [Boot], [BootThm]: kernel/start.c and kernel/main.c.
    - [Pthread], [PthreadThm]: programs over one mutex and condition variables,
      and a rule for them.  [Condvar], [CondvarThm], [CondvarRuns]: the condition
      variable programs of the course, a Module per file.
    ** What the theorems show

    - Crash safety: wherever a crash cuts the disk writes of [commit], the
      next boot recovers all of the transaction or none of it
      ([LogThm.commit_crash_atomic]); a transaction never outgrows the log.
    - Files: [readi] returns the bytes of the file, [writei] stores the bytes it
      is given in blocks of the file or free ones and changes no other file,
      [dirlookup] and [dirlink] are lookup and insertion in the table of names;
      all three leave the file system well formed ([fs_ok], [good_inode]).
      A write logs only the blocks of its range, bitmap blocks, the indirect
      block and the inode; the theorem asks for that much room in the log.  For
      the pieces [filewrite] writes, with one bitmap block, it is less than the
      ten blocks [begin_op] reserves.
    - Memory: [mappages], [uvmunmap], [copyout], [copyin] change and read
      exactly the mappings and bytes they should; [kalloc], [kfree] and
      [freerange] keep the list of free pages a list of distinct whole pages.
    - Concurrency: mutual exclusion of spinlocks on any number of CPUs, no
      lost wakeups, sleep locks held by one process.
    - Buffer cache: at most one buffer per block, recycled in
      least-recently-used order, and a reader sees the last data written.
    - Pipes refine a bounded byte queue; on-disk formats, path names and
      string routines do what their callers expect.
    - The image builder: on files that fit, mkfs lays out exactly these files,
      with disjoint blocks and the right bitmap.
    - System calls: what the dispatcher refuses leaves no trace but -1 and,
      for an unknown number, a message on the console; the reference count of a file is the number of descriptors open on it
      through [dup] and [close].
    - Devices: the serial port is a FIFO whose writers sleep exactly when it is full; the
      console interrupt handler implements a line editor, echo included; a
      disk request owns its three descriptors from submission to release.
    - User programs: decimal output is bounded and read back by [atoi];
      [grep] terminates, decides its patterns and prints the matching lines
      whatever way [read] cuts the input; the shell parses every printed
      command back, and every line to an end, runs what the command says in
      every interleaving of its processes, and takes its input line by line;
      [malloc], asked for at most 2^31 - 64 bytes, returns disjoint blocks
      and [free] keeps the free list sorted and coalesced; the user-level
      scheduler terminates and refines a round robin ([UstThm.rr_runs]).
    - Traps: a timer interrupt preempts user code, which later resumes
      unchanged; kernel code is preempted only on behalf of a running process;
      a system call returns behind its ecall; a hart leaves [start] ready for
      [main].
    - The condition variable programs: one kind of job at a time, readers and
      writers apart, the animals fed; in every interleaving, with spurious
      wakeups, and with nobody left waiting.
    - The examples of [ProcThm] and [CondvarRuns], and [Grep.grep_stops_on_long_line], exhibit
      defects of the code: they compute a run in which the code does what it
      should not.
    ** Assumptions and bounds

    - A C loop whose bound is known recurses on it; the others ([while]) have
      fuel, [Spins] when it runs out, and theorems that exclude [Spins].
      The fuel given is the largest iteration count the loop can reach: pages
      of the range in [mappages] and [uvmalloc], bytes in [copyout], [copyin]
      and [copyinstr], three levels in [freewalk], ring size in [bget], the
      queue length in [uartstart], the line length in [kill_line], the number
      of descriptors in [free_chain].
    - [SyncDisk] (in [BioThm]): the disk answers a request before another
      thread runs, reads return the last write, and a block write is atomic.
      The crash theorem keeps any prefix of the recorded block writes.
    - The buffer cache, log and file theorems are about runs in which the locks
      wanted are free; the concurrent part is in [Spinlock] and [Sleeplock].
    - [readi_reads] is for destinations in the kernel and [writei_writes] for a
      source in the kernel; the rules [wp_readi] and [wp_writei_round] they rest
      on are for any destination or source that can be copied piece by piece
      ([sinks], [supplies]); [copyout] and [copyin] have theorems of their own.
    - That a lock holder runs with interrupts off is modelled in [Spinlock]; a
      kernel routine is otherwise interrupted only where it switches, and
      [Trap] takes the registers of a hart as they are at the trap.

    ** Not modelled

    - The assembly files (entry.S, swtch.S, trampoline.S, kernelvec.S) and
      kernel/ramdisk.c, which is not built.
    - The text that [thread_exit], [balloc] and [ialloc] print on the console:
      they are below the console in the layers of the state.
    - [panicked] (a kernel that has panicked does not run on), and the check of
      [sched] that interrupts are off, with its copy of [intena]: they are off
      while a lock is held, which [Spinlock] shows.
    - In the constructors of user/sh.c, [malloc] failing.
    - The other user programs, the utilities ([ls], [cat], [wc], ...): loops
      around system calls.
    - src/ext2 and src/simpleshell: laboratory programs of the host.
    - user/usertests.c, user/grind.c and the other test programs of
      src/xv6-riscv/user: tests of the kernel.
    - The rest of the course material (thread, signal, pipe and shell exercises,
      exams, debugging and stack smashing labs, test frameworks): programs
      written to be filled in or to fail, driven by fork, signals and printf of
      the host. *)

From stdpp Require Export base tactics numbers option list list_numbers gmap strings fin_maps.
From Stdlib Require Export ZArith Lia.

#[global] Open Scope Z_scope.

(** ** Functional record update *)

(** [Eta R] exposes a record as its constructor applied to its projections;
    [derive_updater] abstracts one projection out of that term, so that
    [r.[proj := v]] needs one [Eta] instance per record and no setters. *)
Class Eta (R : Type) := eta : R -> R.

Class Updater {R T : Type} (proj : R -> T) := upd_field : (T -> T) -> R -> R.
#[global] Arguments upd_field {R T} proj {_} _ _ : simpl never.

Ltac derive_updater :=
  lazymatch goal with
  | |- @Updater ?R ?T ?proj =>
      let e := eval hnf in (_ : Eta R) in
      let t := constr:(fun (upd_f : T -> T) (upd_r : R) =>
        ltac:(let b := eval cbv beta in (e upd_r) in
              let p := eval pattern (proj upd_r) in b in
              lazymatch p with ?g _ => exact (g (upd_f (proj upd_r))) end)) in
      let t := eval cbv beta in t in
      exact t
  end.

#[global] Hint Extern 1 (Updater _) => derive_updater : typeclass_instances.

Notation "r .[ proj := v ]" := (upd_field proj (fun _ => v) r)
  (at level 1, left associativity, format "r .[ proj  :=  v ]") : stdpp_scope.

(** Expose the projections of updated records. *)
Ltac rsimpl := unfold upd_field in *; simpl in *.
Ltac rsimpl_goal := unfold upd_field; simpl.

(** ** Integer helpers *)

(** [lia] with division and remainder by constants. *)
Ltac dlia := Z.to_euclidean_division_equations; lia.

(** [zseq a n] is [a; a+1; ...; a+n-1]. *)
Definition zseq (a : Z) (n : nat) : list Z := (fun i => a + Z.of_nat i) <$> seq 0 n.

Lemma zseq_length a n : length (zseq a n) = n.
Proof. unfold zseq. by rewrite length_fmap, length_seq. Qed.

Lemma zseq_lookup a n i : (i < n)%nat -> zseq a n !! i = Some (a + Z.of_nat i).
Proof.
  intros Hi. unfold zseq. rewrite list_lookup_fmap, lookup_seq_lt by done.
  done.
Qed.

Lemma elem_of_zseq a n x : x ∈ zseq a n <-> a <= x < a + Z.of_nat n.
Proof.
  unfold zseq. rewrite list_elem_of_fmap. split.
  - intros (i & -> & Hi%elem_of_seq). lia.
  - intros Hx. exists (Z.to_nat (x - a)). rewrite elem_of_seq. lia.
Qed.

Lemma zseq_S a n : zseq a (S n) = a :: zseq (a + 1) n.
Proof.
  unfold zseq. simpl. f_equal; [lia|].
  rewrite <- (fmap_S_seq 0), <- list_fmap_compose.
  apply list_fmap_ext. intros i x _. simpl. lia.
Qed.

(** The low [n] bits of an integer cleared with a mask of C's form
    [x & ~(2^n - 1)]. *)
Lemma land_lnot_ones x n : 0 <= n -> Z.land x (Z.lnot (Z.ones n)) = x - x mod 2 ^ n.
Proof.
  intros Hn. rewrite <- Z.ldiff_land, Z.ldiff_ones_r by lia.
  rewrite Z.shiftl_mul_pow2, Z.shiftr_div_pow2 by lia.
  pose proof (Z.div_mod x (2 ^ n)). nia.
Qed.

Lemma land_ones_mod x n : 0 <= n -> Z.land x (Z.ones n) = x mod 2 ^ n.
Proof. intros. by apply Z.land_ones. Qed.

(** ** Options and lists *)

Lemma list_insert_lookup_same {A} (l : list A) i x y :
  l !! i = Some y -> <[i:=x]> l !! i = Some x.
Proof. intros H. apply list_lookup_insert_eq. by apply lookup_lt_Some in H. Qed.

Lemma list_insert_id' {A} (l : list A) i x : l !! i = Some x -> <[i:=x]> l = l.
Proof. apply list_insert_id. Qed.

(** First index (from [i]) whose element satisfies [p]: C's table scans
    [for (x = tab; x < &tab[N]; x++) if (p(x)) ...]. *)
Fixpoint find_from {A} (p : A -> bool) (l : list A) (i : nat) : option (nat * A) :=
  match l with
  | [] => None
  | x :: l => if p x then Some (i, x) else find_from p l (S i)
  end.

Definition find_idx {A} (p : A -> bool) (l : list A) : option (nat * A) := find_from p l 0.

Lemma find_from_Some {A} (p : A -> bool) l i j x :
  find_from p l i = Some (j, x) ->
  (i <= j)%nat /\ l !! (j - i)%nat = Some x /\ p x = true /\
  (forall k y, l !! k = Some y -> (k < j - i)%nat -> p y = false).
Proof.
  revert i. induction l as [|a l IH]; intros i H; simpl in H; [done|].
  destruct (p a) eqn:Ha.
  - simplify_eq. rewrite Nat.sub_diag. repeat split; [lia|done|].
    intros; lia.
  - apply IH in H as (Hle & Hl & Hp & Hmin).
    replace (j - i)%nat with (S (j - S i)) by lia.
    repeat split; [lia|done|done|].
    intros [|k] y Hk Hlt; simpl in Hk; [by simplify_eq|]. apply (Hmin k); [done|lia].
Qed.

Lemma find_idx_Some {A} (p : A -> bool) l j x :
  find_idx p l = Some (j, x) ->
  l !! j = Some x /\ p x = true /\
  (forall k y, l !! k = Some y -> (k < j)%nat -> p y = false).
Proof.
  intros H. apply find_from_Some in H as (_ & H1 & H2 & H3).
  by rewrite Nat.sub_0_r in H1, H3.
Qed.

Lemma find_from_None {A} (p : A -> bool) l i :
  find_from p l i = None <-> Forall (fun x => p x = false) l.
Proof.
  revert i. induction l as [|a l IH]; intros i; simpl; [by split|].
  rewrite Forall_cons. destruct (p a); [naive_solver|]. rewrite IH. naive_solver.
Qed.

Lemma find_idx_None {A} (p : A -> bool) l :
  find_idx p l = None <-> Forall (fun x => p x = false) l.
Proof. apply find_from_None. Qed.

(** [replicate]-style constant folds over a table. *)
Lemma list_fmap_lookup_Some {A B} (f : A -> B) (l : list A) i y :
  (f <$> l) !! i = Some y -> exists x, l !! i = Some x /\ y = f x.
Proof. rewrite list_lookup_fmap. destruct (l !! i); simpl; naive_solver. Qed.

(** [bs] stored over the elements of [d] from position [off] on. *)
Definition splice {A} (d : list A) (off : nat) (bs : list A) : list A :=
  take off d ++ bs ++ drop (off + length bs) d.

Lemma splice_length {A} (d : list A) off bs :
  (off + length bs <= length d)%nat -> length (splice d off bs) = length d.
Proof. intros H. unfold splice. rewrite !length_app, length_take, length_drop. lia. Qed.

Lemma splice_lookup_in {A} (d : list A) off bs i :
  (off <= length d)%nat -> (i < length bs)%nat -> splice d off bs !! (off + i)%nat = bs !! i.
Proof.
  intros Hd Hi. unfold splice. rewrite lookup_app_r by (rewrite length_take; lia).
  rewrite length_take, Nat.min_l by lia. replace (off + i - off)%nat with i by lia.
  by rewrite lookup_app_l.
Qed.

Lemma splice_lookup_out {A} (d : list A) off bs i :
  (off + length bs <= length d)%nat -> (i < off \/ off + length bs <= i)%nat ->
  splice d off bs !! i = d !! i.
Proof.
  intros Hd Hi. unfold splice. destruct (decide (i < off)%nat) as [Hlt|Hge].
  - rewrite lookup_app_l by (rewrite length_take; lia). by rewrite lookup_take_lt.
  - rewrite lookup_app_r by (rewrite length_take; lia). rewrite length_take, Nat.min_l by lia.
    rewrite lookup_app_r by lia. rewrite lookup_drop. f_equal. lia.
Qed.

Lemma splice_read {A} (d : list A) off bs :
  (off + length bs <= length d)%nat -> take (length bs) (drop off (splice d off bs)) = bs.
Proof.
  intros H. unfold splice. rewrite drop_app_length' by (rewrite length_take; lia).
  by rewrite take_app_length.
Qed.

Lemma splice_read_other {A} (d : list A) off bs o n :
  (off + length bs <= length d)%nat -> (o + n <= off \/ off + length bs <= o)%nat ->
  take n (drop o (splice d off bs)) = take n (drop o d).
Proof.
  intros Hd Ho. apply list_eq. intros i. destruct (decide (i < n)%nat) as [Hi|Hi].
  - rewrite !lookup_take_lt, !lookup_drop by done. apply splice_lookup_out; [done|lia].
  - rewrite !lookup_take_ge by lia. done.
Qed.
