(* ===== verification/CInt.v ===== *)
(** Machine integers of the C sources: truncation to the fixed widths of
    kernel/types.h, little-endian encoding, and the page arithmetic macros of
    kernel/riscv.h and kernel/memlayout.h. *)

From S2P Require Import Prelude.

(** ** Truncation to C's fixed widths *)

Abbreviation W8 := 0x100 (only parsing).
Abbreviation W16 := 0x10000 (only parsing).
Abbreviation W32 := 0x100000000 (only parsing).
Abbreviation W64 := 0x10000000000000000 (only parsing).
Abbreviation W15 := 0x8000 (only parsing).
Abbreviation W31 := 0x80000000 (only parsing).

Definition u8 (z : Z) : Z := z mod W8.
Definition u16 (z : Z) : Z := z mod W16.
Definition u32 (z : Z) : Z := z mod W32.
Definition u64 (z : Z) : Z := z mod W64.
Definition s16 (z : Z) : Z := (z + W15) mod W16 - W15.
Definition s32 (z : Z) : Z := (z + W31) mod W32 - W31.

Ltac cint_unfold := unfold u8, u16, u32, u64, s16, s32 in *.

Lemma u8_range z : 0 <= u8 z < 256. Proof. cint_unfold; dlia. Qed.
Lemma u16_range z : 0 <= u16 z < W16. Proof. cint_unfold; dlia. Qed.
Lemma u32_range z : 0 <= u32 z < W32. Proof. cint_unfold; dlia. Qed.
Lemma u64_range z : 0 <= u64 z < W64. Proof. cint_unfold; dlia. Qed.
Lemma s32_range z : - W31 <= s32 z < W31. Proof. cint_unfold; dlia. Qed.

Lemma u8_small z : 0 <= z < 256 -> u8 z = z. Proof. cint_unfold; dlia. Qed.
Lemma u16_small z : 0 <= z < W16 -> u16 z = z. Proof. cint_unfold; dlia. Qed.
Lemma u32_small z : 0 <= z < W32 -> u32 z = z. Proof. cint_unfold; dlia. Qed.
Lemma u64_small z : 0 <= z < W64 -> u64 z = z. Proof. cint_unfold; dlia. Qed.
Lemma s32_small z : - W31 <= z < W31 -> s32 z = z. Proof. cint_unfold; dlia. Qed.

Lemma u8_idem z : u8 (u8 z) = u8 z.
Proof. apply u8_small, u8_range. Qed.

Create Rewrite HintDb cint.

#[export] Hint Rewrite u8_small u16_small u32_small u64_small s32_small
  using lia : cint.

(** ** Little-endian encoding *)

Fixpoint le_combine (bs : list Z) : Z :=
  match bs with
  | [] => 0
  | b :: bs => b + 256 * le_combine bs
  end.

Fixpoint le_split (n : nat) (z : Z) : list Z :=
  match n with
  | O => []
  | S n => z mod 256 :: le_split n (z / 256)
  end.

Lemma le_split_length n z : length (le_split n z) = n.
Proof. revert z. induction n; intros; [done|]. cbn [le_split length]. by rewrite IHn. Qed.

Lemma le_combine_split n z : le_combine (le_split n z) = z mod 256 ^ Z.of_nat n.
Proof.
  revert z. induction n as [|n IH]; intros z.
  - cbn. by rewrite Z.mod_1_r.
  - cbn [le_split le_combine]. rewrite IH.
    rewrite Nat2Z.inj_succ, Z.pow_succ_r by lia.
    rewrite Z.rem_mul_r by lia. done.
Qed.

Definition byte_ok (b : Z) : Prop := 0 <= b < 256.

Lemma le_split_bytes n z : Forall byte_ok (le_split n z).
Proof. revert z. induction n; intros z; cbn [le_split]; constructor; [|done]. unfold byte_ok. dlia. Qed.

Lemma le_combine_range bs :
  Forall byte_ok bs -> 0 <= le_combine bs < 256 ^ Z.of_nat (length bs).
Proof.
  unfold byte_ok. induction 1 as [|b bs Hb _ IH]; cbn [le_combine length]; [lia|].
  rewrite Nat2Z.inj_succ, Z.pow_succ_r by lia. lia.
Qed.

Lemma le_split_combine bs : Forall byte_ok bs -> le_split (length bs) (le_combine bs) = bs.
Proof.
  unfold byte_ok. induction 1 as [|b bs Hb _ IH]; cbn [le_combine length le_split]; [done|].
  f_equal; [dlia|].
  replace ((b + 256 * le_combine bs) / 256) with (le_combine bs) by dlia. done.
Qed.

Lemma le_combine_zeros n : le_combine (replicate n 0) = 0.
Proof. induction n; cbn [replicate le_combine]; lia. Qed.

#[global] Arguments le_split : simpl never.
#[global] Arguments le_combine : simpl never.

(** ** Constants of kernel/riscv.h, kernel/memlayout.h and kernel/param.h *)

Definition PGSIZE : Z := 4096.
Definition PGSHIFT : Z := 12.
Definition MAXVA : Z := 2 ^ 38.
Definition KERNBASE : Z := 0x80000000.
Definition PHYSTOP : Z := KERNBASE + 128 * 1024 * 1024.
Definition UART0 : Z := 0x10000000.
Definition VIRTIO0 : Z := 0x10001000.
Definition PLIC : Z := 0x0c000000.
Definition TRAMPOLINE : Z := MAXVA - PGSIZE.
Definition TRAPFRAME : Z := TRAMPOLINE - PGSIZE.
Definition KSTACK (p : Z) : Z := TRAMPOLINE - (p + 1) * 2 * PGSIZE.

Definition NPROC : nat := 64.
Definition NCPU : nat := 8.
Definition NOFILE : nat := 16.
Definition NFILE : nat := 100.
Definition NINODE : nat := 50.
Definition NDEV : Z := 10.
Definition ROOTDEV : Z := 1.
Definition MAXARG : nat := 32.
Definition MAXOPBLOCKS : Z := 10.
Definition LOGSIZE : Z := MAXOPBLOCKS * 3.
Definition NBUF : nat := 30.
Definition FSSIZE : Z := 2000.
Definition MAXPATH : Z := 128.

(** [#define PGROUNDUP(sz)  (((sz)+PGSIZE-1) & ~(PGSIZE-1))], on a uint64. *)
Definition PGROUNDUP (sz : Z) : Z := Z.land (u64 (sz + PGSIZE - 1)) (Z.lnot (PGSIZE - 1)).
(** [#define PGROUNDDOWN(a) (((a)) & ~(PGSIZE-1))] *)
Definition PGROUNDDOWN (a : Z) : Z := Z.land a (Z.lnot (PGSIZE - 1)).

Lemma PGROUNDDOWN_eq a : PGROUNDDOWN a = a - a mod PGSIZE.
Proof. apply (land_lnot_ones a 12). lia. Qed.

Lemma PGROUNDUP_eq a :
  0 <= a -> a + PGSIZE - 1 < W64 ->
  PGROUNDUP a = (a + PGSIZE - 1) - (a + PGSIZE - 1) mod PGSIZE.
Proof.
  intros. unfold PGROUNDUP. rewrite u64_small by (unfold PGSIZE in *; lia).
  apply (land_lnot_ones _ 12). lia.
Qed.

Lemma PGROUNDUP_bounds a :
  0 <= a -> a + PGSIZE - 1 < W64 ->
  a <= PGROUNDUP a < a + PGSIZE /\ PGROUNDUP a mod PGSIZE = 0.
Proof. intros. rewrite PGROUNDUP_eq by done. unfold PGSIZE in *. dlia. Qed.

Lemma PGROUNDDOWN_bounds a :
  0 <= a -> PGROUNDDOWN a <= a < PGROUNDDOWN a + PGSIZE /\ PGROUNDDOWN a mod PGSIZE = 0
            /\ 0 <= PGROUNDDOWN a.
Proof. intros. rewrite PGROUNDDOWN_eq. unfold PGSIZE in *. dlia. Qed.

Lemma PGROUNDDOWN_aligned a : a mod PGSIZE = 0 -> PGROUNDDOWN a = a.
Proof. intros H. rewrite PGROUNDDOWN_eq, H. lia. Qed.

Lemma PGROUNDUP_aligned a :
  0 <= a -> a + PGSIZE - 1 < W64 -> a mod PGSIZE = 0 -> PGROUNDUP a = a.
Proof. intros. rewrite PGROUNDUP_eq by done. unfold PGSIZE in *. dlia. Qed.

#[global] Opaque le_split le_combine.
