(* ===== verification/Machine.v ===== *)
(** The execution monad of the kernel model.

    A kernel routine runs on one CPU on behalf of one kernel thread.  It ends
    in one of the [outcome]s below: it returns, it calls [panic], it performs
    an access whose effect C or the hardware does not define (a null
    dereference), it reaches [swtch] in [sched] and leaves the CPU to the
    scheduler (in [sleep], [yield] and [exit]) with the rest of the routine to
    run when it is switched back to, or it spins for ever. *)

From S2P Require Import Prelude.

(** ** Kernel addresses used as lock identities and wait channels *)

(** [KSym s i] is the address of a statically allocated object (element [i]
    of the table [s]); [KPhys a] is an address inside an allocated page. *)
Inductive kptr :=
| KSym (sym : string) (i : Z)
| KPhys (a : Z).

#[export] Instance kptr_eq_dec : EqDecision kptr.
Proof. solve_decision. Defined.

(** ** Outcomes and the monad *)

Inductive outcome (S A : Type) :=
| Ok (a : A) (s : S)
| Panic (msg : string)
| Fault
| Switched (s : S) (resume : S -> outcome S A)
| Spins.
Arguments Ok {S A}. Arguments Panic {S A}. Arguments Fault {S A}.
Arguments Switched {S A}. Arguments Spins {S A}.

Definition M (S A : Type) : Type := S -> outcome S A.

(** Sequencing: the rest of a routine that leaves the CPU is run when the
    scheduler switches back, on the state it then finds. *)
Fixpoint bindO {S A B} (o : outcome S A) (k : A -> M S B) : outcome S B :=
  match o with
  | Ok a s => k a s
  | Panic msg => Panic msg
  | Fault => Fault
  | Switched s resume => Switched s (fun s' => bindO (resume s') k)
  | Spins => Spins
  end.

Definition ret {S A} (a : A) : M S A := fun s => Ok a s.
Definition bind {S A B} (m : M S A) (k : A -> M S B) : M S B := fun s => bindO (m s) k.
Definition panic {S A} (msg : string) : M S A := fun _ => Panic msg.
Definition fault {S A} : M S A := fun _ => Fault.
Definition spin {S A} : M S A := fun _ => Spins.
Definition get {S} : M S S := fun s => Ok s s.
Definition gets {S A} (f : S -> A) : M S A := fun s => Ok (f s) s.
Definition modify {S} (f : S -> S) : M S unit := fun s => Ok tt (f s).

Declare Scope kernel_scope.
Delimit Scope kernel_scope with kernel.
#[global] Open Scope kernel_scope.

Notation "'let*' x ':=' m 'in' k" := (bind m (fun x => k))
  (at level 10, x name, m at level 100, k at level 200,
   format "'[v' 'let*'  x  ':='  m  'in' '/' k ']'") : kernel_scope.
Notation "'let*' ' x ':=' m 'in' k" := (bind m (fun x => k))
  (at level 10, x pattern, m at level 100, k at level 200,
   format "'[v' 'let*'  ' x  ':='  m  'in' '/' k ']'") : kernel_scope.
Notation "m1 ;;; m2" := (bind m1 (fun _ => m2))
  (at level 199, right associativity, format "'[v' m1 ;;; '/' m2 ']'") : kernel_scope.

(** Control structures. *)

Definition when {S} (b : bool) (m : M S unit) : M S unit := if b then m else ret tt.

(** [for (x in l) body]. *)
Fixpoint mfor {S A} (l : list A) (f : A -> M S unit) : M S unit :=
  match l with
  | [] => ret tt
  | x :: l => f x;;; mfor l f
  end.

(** A loop whose body may leave it with a result ([break], [return], [goto]). *)
Fixpoint mloop {S A B} (l : list A) (f : A -> M S (option B)) : M S (option B) :=
  match l with
  | [] => ret None
  | x :: l => let* r := f x in
              match r with
              | Some b => ret (Some b)
              | None => mloop l f
              end
  end.

(** A loop with no bound in the source: [body] returns [inl] to go on with the
    next loop state and [inr] to leave.  Out of fuel counts as spinning, so a
    theorem that such a loop returns also proves that the fuel was enough. *)
Fixpoint while {S A B} (fuel : nat) (body : A -> M S (A + B)) (a : A) : M S B :=
  match fuel with
  | O => spin
  | S fuel => let* r := body a in
              match r with
              | inl a => while fuel body a
              | inr b => ret b
              end
  end.

(** A value that must be present (a pointer that is dereferenced). *)
Definition deref {S A} (o : option A) : M S A :=
  match o with Some a => ret a | None => fault end.

(** ** Components of a layered state *)

(** A state of type [R] with a component of type [A]. *)
Class Layer (A R : Type) := {
  layer_get : R -> A;
  layer_set : A -> R -> R;
  layer_get_set a r : layer_get (layer_set a r) = a;
  layer_set_set a b r : layer_set a (layer_set b r) = layer_set a r;
  layer_set_get r : layer_set (layer_get r) r = r;
}.

#[export] Instance layer_id A : Layer A A :=
  {| layer_get a := a; layer_set a _ := a; layer_get_set _ _ := eq_refl;
     layer_set_set _ _ _ := eq_refl; layer_set_get _ := eq_refl |}.

(** ** Total-correctness assertions *)

Definition wp {S A} (m : M S A) (Q : A -> S -> Prop) (s : S) : Prop :=
  match m s with
  | Ok a s' => Q a s'
  | _ => False
  end.

Section wp.
Context {S : Type}.
Implicit Types s : S.

Lemma wp_ret {A} (a : A) (Q : A -> S -> Prop) s : Q a s -> wp (ret a) Q s.
Proof. done. Qed.

Lemma wp_bind {A B} (m : M S A) (k : A -> M S B) Q s :
  wp m (fun a s' => wp (k a) Q s') s <-> wp (bind m k) Q s.
Proof. unfold wp, bind. destruct (m s); done. Qed.

Lemma wp_seq {A B} (m : M S A) (k : A -> M S B) Q s :
  wp m (fun a s' => wp (k a) Q s') s -> wp (bind m k) Q s.
Proof. apply wp_bind. Qed.

Lemma wp_exec {A} (m : M S A) (Q : A -> S -> Prop) s a s' : m s = Ok a s' -> Q a s' -> wp m Q s.
Proof. unfold wp. by intros ->. Qed.

Lemma wp_mono {A} (m : M S A) (Q Q' : A -> S -> Prop) s :
  wp m Q s -> (forall a s', Q a s' -> Q' a s') -> wp m Q' s.
Proof. unfold wp. destruct (m s); auto. Qed.

Lemma wp_Ok {A} (m : M S A) (Q : A -> S -> Prop) s :
  wp m Q s <-> exists a s', m s = Ok a s' /\ Q a s'.
Proof.
  unfold wp. split; [destruct (m s) as [a s'| | | |]; eauto; done|].
  by intros (a & s' & -> & ?).
Qed.

Lemma bind_Ok {A B} (m : M S A) (k : A -> M S B) s a s' :
  m s = Ok a s' -> bind m k s = k a s'.
Proof. intros H. unfold bind. by rewrite H. Qed.

Lemma bind_Ok_inv {A B} (m : M S A) (k : A -> M S B) s b s'' :
  bind m k s = Ok b s'' -> exists a s', m s = Ok a s' /\ k a s' = Ok b s''.
Proof. unfold bind. destruct (m s); simpl; eauto; discriminate. Qed.

Lemma bind_Panic {A B} (m : M S A) (k : A -> M S B) s msg :
  m s = Panic msg -> bind m k s = Panic msg.
Proof. intros H. unfold bind. by rewrite H. Qed.

Lemma bind_Switched {A B} (m : M S A) (k : A -> M S B) s s1 resume :
  m s = Switched s1 resume -> bind m k s = Switched s1 (fun s' => bindO (resume s') k).
Proof. intros H. unfold bind. by rewrite H. Qed.

Lemma while_Switched {A B} (body : A -> M S (A + B)) f a s s1 resume :
  body a s = Switched s1 resume ->
  while (Datatypes.S f) body a s = Switched s1 (fun s' => bindO (resume s') (fun r =>
    match r with inl a => while f body a | inr b => ret b end)).
Proof. apply bind_Switched. Qed.

Lemma while_inl {A B} (body : A -> M S (A + B)) f a a' s s' :
  body a s = Ok (inl a') s' -> while (Datatypes.S f) body a s = while f body a' s'.
Proof. intros H. simpl. unfold bind. by rewrite H. Qed.

Lemma while_inr {A B} (body : A -> M S (A + B)) f a b s s' :
  body a s = Ok (inr b) s' -> while (Datatypes.S f) body a s = Ok b s'.
Proof. intros H. simpl. unfold bind. by rewrite H. Qed.

(** Rule of iteration: an invariant indexed by the elements already done. *)
Lemma wp_mfor_aux {A} (I : list A -> S -> Prop) (f : A -> M S unit) (l pre : list A) s :
  I pre s ->
  (forall d x r s', l = d ++ x :: r -> I (pre ++ d) s' ->
    wp (f x) (fun _ s'' => I (pre ++ d ++ [x]) s'') s') ->
  wp (mfor l f) (fun _ s' => I (pre ++ l) s') s.
Proof.
  revert pre s. induction l as [|x l IH]; intros pre s HI Hstep; simpl.
  - apply wp_ret. by rewrite app_nil_r.
  - apply wp_bind. eapply wp_mono.
    + apply (Hstep [] x l); [done|]. by rewrite app_nil_r.
    + intros [] s' HI'. cbn in HI'.
      eapply wp_mono; [apply (IH (pre ++ [x])); [exact HI'|]|].
      * intros d y r s'' Hl HI''. rewrite <- app_assoc in HI'' |- *.
        apply (Hstep (x :: d) y r); [by rewrite Hl|done].
      * intros [] s'' H. cbn beta in H. by rewrite <- app_assoc in H.
Qed.

Lemma wp_mfor {A} (I : list A -> S -> Prop) (f : A -> M S unit) (l : list A) s :
  I [] s ->
  (forall d x r s', l = d ++ x :: r -> I d s' -> wp (f x) (fun _ s'' => I (d ++ [x]) s'') s') ->
  wp (mfor l f) (fun _ s' => I l s') s.
Proof. intros. by apply (wp_mfor_aux I f l []). Qed.

(** The same with the number of elements done. *)
Lemma wp_mfor_idx {A} (I : nat -> S -> Prop) (f : A -> M S unit) (l : list A) s :
  I 0%nat s ->
  (forall i x s', l !! i = Some x -> I i s' -> wp (f x) (fun _ s'' => I (Datatypes.S i) s'') s') ->
  wp (mfor l f) (fun _ s' => I (length l) s') s.
Proof.
  intros H0 Hstep. apply (wp_mfor (fun d s => I (length d) s)); [done|].
  intros d x r s' -> HI. rewrite length_app. simpl. rewrite Nat.add_1_r.
  apply Hstep; [by apply list_lookup_middle|done].
Qed.
(** A scan of a table for the first entry that satisfies [p]. *)
Lemma mloop_scan_from {A B} (p : A -> bool) (body : nat -> M S (option B)) (res : nat -> B)
    (st : nat -> S) s l k :
  (forall i x, l !! i = Some x -> body (k + i)%nat s =
     if p x then Ok (Some (res (k + i)%nat)) (st (k + i)%nat) else Ok None s) ->
  mloop (seq k (length l)) body s =
    match find_from p l k with
    | Some (i, _) => Ok (Some (res i)) (st i)
    | None => Ok None s
    end.
Proof.
  revert k. induction l as [|x l IH]; intros k Hb; simpl; [done|].
  pose proof (Hb 0%nat x eq_refl) as H0. rewrite Nat.add_0_r in H0.
  destruct (p x); [by rewrite (bind_Ok _ _ _ _ _ H0)|]. rewrite (bind_Ok _ _ _ _ _ H0).
  apply IH. intros i y Hy. rewrite Nat.add_succ_comm. by apply (Hb (Datatypes.S i)).
Qed.

Lemma mloop_scan {A B} (l : list A) (p : A -> bool) (body : nat -> M S (option B)) (res : nat -> B)
    (st : nat -> S) s :
  (forall i x, l !! i = Some x -> body i s = if p x then Ok (Some (res i)) (st i) else Ok None s) ->
  mloop (seq 0 (length l)) body s =
    match find_idx p l with
    | Some (i, _) => Ok (Some (res i)) (st i)
    | None => Ok None s
    end.
Proof. intros Hb. by apply mloop_scan_from. Qed.
End wp.

(** ** Assertions on routines that leave the CPU *)

(** A run of a routine that may sleep is a sequence of segments: [s0] is the
    state in which it last got the CPU, and in between no other thread runs.
    Every run that returns ends in [Q], every segment that ends in a switch
    satisfies [G], both seen from [s0]; other threads then change the state as
    [Rel] allows; it never panics or faults.  At most [n] switches are made,
    and only a run that has made all of them may end in [Spins], the bound on
    wakeups in vain. *)
Fixpoint swp {S A} (G Rel : S -> S -> Prop) (Q : nat -> S -> A -> S -> Prop) (n : nat) (s0 : S)
    (o : outcome S A) {struct o} : Prop :=
  match o with
  | Ok a s => Q n s0 a s
  | Switched s k =>
      match n with
      | O => False
      | Datatypes.S n => G s0 s /\ forall s', Rel s s' -> swp G Rel Q n s' (k s')
      end
  | Spins => n = O
  | Panic _ | Fault => False
  end.

Section swp.
Context {S : Type} (G Rel : S -> S -> Prop).

Lemma swp_mono {A} (Q Q' : nat -> S -> A -> S -> Prop) n s0 o :
  (forall n s0 a s, Q n s0 a s -> Q' n s0 a s) -> swp G Rel Q n s0 o -> swp G Rel Q' n s0 o.
Proof.
  intros H. revert n s0. induction o as [a s| | |s k IH|]; intros n s0; simpl; [apply H|done|done| |done].
  destruct n as [|n]; [done|]. intros [HG Hk]. split; [done|]. intros s' Hs'. by apply IH, Hk.
Qed.

Lemma swp_bindO {A B} (o : outcome S A) (k : A -> M S B) Q n s0 :
  swp G Rel (fun n s0 a s => swp G Rel Q n s0 (k a s)) n s0 o -> swp G Rel Q n s0 (bindO o k).
Proof.
  revert n s0. induction o as [| | |s r IH|]; intros n s0; simpl; try done.
  destruct n as [|n]; [done|]. intros [HG Hr]. split; [done|]. intros s' Hs'. by apply IH, Hr.
Qed.

Lemma swp_bind {A B} (m : M S A) (k : A -> M S B) Q n s0 s :
  swp G Rel (fun n s0 a s' => swp G Rel Q n s0 (k a s')) n s0 (m s) -> swp G Rel Q n s0 (bind m k s).
Proof. apply swp_bindO. Qed.

Lemma swp_Ok {A} (Q : nat -> S -> A -> S -> Prop) n s0 o a s : o = Ok a s -> Q n s0 a s -> swp G Rel Q n s0 o.
Proof. by intros ->. Qed.

(** A loop that makes one switch in each iteration but the last. *)
Lemma swp_while {A B} (I : A -> S -> S -> Prop) (body : A -> M S (A + B))
    (Q : nat -> S -> B -> S -> Prop) f a s0 s :
  I a s0 s ->
  (forall n a s0 s, I a s0 s -> swp G Rel (fun n' s0' r s' =>
     match r with inl a' => n' = n /\ I a' s0' s' | inr b => Q n' s0' b s' end)
     (Datatypes.S n) s0 (body a s)) ->
  swp G Rel Q f s0 (while f body a s).
Proof.
  intros HI Hb. revert a s0 s HI. induction f as [|f IH]; intros a s0 s HI; simpl; [done|].
  apply swp_bind. eapply swp_mono; [|by apply Hb].
  intros n s0' [a'|b] s'; [intros [-> HI']; by apply IH|done].
Qed.
End swp.

(** Symbolic execution: peel a [bind] whose head is known to return. *)
Ltac step_with H := rewrite (bind_Ok _ _ _ _ _ H).
Ltac mred := unfold bind, ret, gets, modify, get, when, deref, bindO; simpl.

Create HintDb wp.
#[export] Hint Resolve wp_ret : wp.
