(* ===== verification/KString.v ===== *)
(** kernel/string.c over a byte-addressed memory, and the library routines of
    user/ulib.c that share its specifications.

    Memory is a finite map from addresses to bytes; a cell never written reads
    0.  [mget] and [mset] are the [char] load and store.  Loops bounded by a
    [uint n] recurse on [n]; [strlen] and its like, bounded only by a
    terminator, take fuel and return [None] when it runs out. *)

From S2P Require Import Prelude CInt.

(** ** Bytes in memory *)

Definition mget (m : gmap Z Z) (a : Z) : Z := u8 (default 0 (m !! a)).
Definition mset (m : gmap Z Z) (a v : Z) : gmap Z Z := <[a := u8 v]> m.

Lemma mget_mset m a v b : mget (mset m a v) b = if decide (a = b) then u8 v else mget m b.
Proof.
  unfold mget, mset. rewrite lookup_insert. case_decide; simpl; [apply u8_idem|done].
Qed.

Lemma mget_range m a : 0 <= mget m a < 256.
Proof. apply u8_range. Qed.

Lemma u8_mget m a : u8 (mget m a) = mget m a.
Proof. apply u8_small, mget_range. Qed.

Lemma mget_mset_eq m a v : mget (mset m a v) a = u8 v.
Proof. by rewrite mget_mset, decide_True. Qed.

Lemma mget_mset_ne m a v b : a <> b -> mget (mset m a v) b = mget m b.
Proof. intros. by rewrite mget_mset, decide_False. Qed.

(** [n] bytes from [a] on. *)
Definition mread (m : gmap Z Z) (a : Z) (n : nat) : list Z := mget m <$> zseq a n.

#[global] Arguments mread : simpl never.
#[global] Arguments mget : simpl never.
#[global] Arguments mset : simpl never.

Fixpoint mwrite (m : gmap Z Z) (a : Z) (bs : list Z) : gmap Z Z :=
  match bs with
  | [] => m
  | b :: bs => mwrite (mset m a b) (a + 1) bs
  end.
#[global] Arguments mwrite : simpl nomatch.

(** ** kernel/string.c *)

Fixpoint memset_loop (m : gmap Z Z) (cdst c : Z) (n : nat) : gmap Z Z :=
  match n with
  | O => m
  | S n => memset_loop (mset m cdst c) (cdst + 1) c n
  end.

Definition memset (m : gmap Z Z) (dst c n : Z) : gmap Z Z :=
  memset_loop m dst c (Z.to_nat (u32 n)).

Fixpoint memcmp_loop (m : gmap Z Z) (s1 s2 : Z) (n : nat) : Z :=
  match n with
  | O => 0
  | S n => if negb (mget m s1 =? mget m s2) then mget m s1 - mget m s2
           else memcmp_loop m (s1 + 1) (s2 + 1) n
  end.

Definition memcmp (m : gmap Z Z) (v1 v2 n : Z) : Z := memcmp_loop m v1 v2 (Z.to_nat (u32 n)).

(** [while(n-- > 0) *--d = *--s;] *)
Fixpoint copy_down (m : gmap Z Z) (d s : Z) (n : nat) : gmap Z Z :=
  match n with
  | O => m
  | S n => copy_down (mset m (d - 1) (mget m (s - 1))) (d - 1) (s - 1) n
  end.

(** [while(n-- > 0) *d++ = *s++;] *)
Fixpoint copy_up (m : gmap Z Z) (d s : Z) (n : nat) : gmap Z Z :=
  match n with
  | O => m
  | S n => copy_up (mset m d (mget m s)) (d + 1) (s + 1) n
  end.

Definition memmove (m : gmap Z Z) (dst src n : Z) : gmap Z Z :=
  let n := u32 n in
  if n =? 0 then m else
  if (src <? dst) && (dst <? src + n)
  then copy_down m (dst + n) (src + n) (Z.to_nat n)
  else copy_up m dst src (Z.to_nat n).

Definition memcpy (m : gmap Z Z) (dst src n : Z) : gmap Z Z := memmove m dst src n.

Fixpoint strncmp_loop (m : gmap Z Z) (p q : Z) (n : nat) : Z :=
  match n with
  | O => 0
  | S n' => if negb (mget m p =? 0) && (mget m p =? mget m q)
            then strncmp_loop m (p + 1) (q + 1) n'
            else mget m p - mget m q
  end.

Definition strncmp (m : gmap Z Z) (p q n : Z) : Z := strncmp_loop m p q (Z.to_nat (u32 n)).

(** [while(n-- > 0) *s++ = 0;] *)
Fixpoint zero_fill (m : gmap Z Z) (s : Z) (n : nat) : gmap Z Z :=
  match n with
  | O => m
  | S n => zero_fill (mset m s 0) (s + 1) n
  end.

Fixpoint strncpy_loop (m : gmap Z Z) (s t : Z) (n : nat) : gmap Z Z :=
  match n with
  | O => m
  | S n =>
      let m := mset m s (mget m t) in
      if negb (mget m s =? 0) then strncpy_loop m (s + 1) (t + 1) n
      else zero_fill m (s + 1) n
  end.

Definition strncpy (m : gmap Z Z) (s t n : Z) : gmap Z Z := strncpy_loop m s t (Z.to_nat n).

(** [n] counts the bytes that may still be copied: [--n] in the source. *)
Fixpoint safestrcpy_loop (m : gmap Z Z) (s t : Z) (n : nat) : gmap Z Z :=
  match n with
  | O => mset m s 0
  | S n =>
      let m := mset m s (mget m t) in
      if negb (mget m s =? 0) then safestrcpy_loop m (s + 1) (t + 1) n
      else mset m (s + 1) 0
  end.

Definition safestrcpy (m : gmap Z Z) (s t n : Z) : gmap Z Z :=
  if n <=? 0 then m else safestrcpy_loop m s t (Z.to_nat (n - 1)).

Fixpoint strlen_loop (fuel : nat) (m : gmap Z Z) (s n : Z) : option Z :=
  match fuel with
  | O => None
  | S fuel => if mget m (s + n) =? 0 then Some n else strlen_loop fuel m s (n + 1)
  end.

Definition strlen (fuel : nat) (m : gmap Z Z) (s : Z) : option Z := strlen_loop fuel m s 0.

(** ** user/ulib.c *)

(** ulib's [memmove] compares the pointers instead of testing for overlap. *)
Definition ulib_memmove (m : gmap Z Z) (vdst vsrc n : Z) : gmap Z Z :=
  if vdst <? vsrc then copy_up m vdst vsrc (Z.to_nat n)
  else copy_down m (vdst + n) (vsrc + n) (Z.to_nat n).

(** ** Specifications *)

(** The bytes [p], [q] agree up to the first NUL of [p] or [n] bytes. *)
Definition agree_upto (m : gmap Z Z) (p q n : Z) : Prop :=
  forall i, 0 <= i < n -> (forall j, 0 <= j < i -> mget m (p + j) <> 0) ->
    mget m (p + i) = mget m (q + i).

(** The NUL-terminated prefix of a byte list. *)
Fixpoint cstr (bs : list Z) : list Z :=
  match bs with
  | [] => []
  | b :: bs => if b =? 0 then [] else b :: cstr bs
  end.

(** [safestrcpy] between kernel arrays that are not in allocated pages:
    [safestrcpy_loop_list] relates it to the loop over memory.  After a NUL
    that comes from [src] a second one is stored. *)
Definition safestrcpy_list (dst src : list Z) (n : nat) : list Z :=
  match n with
  | O => dst
  | S n =>
      let c := take n (cstr src) in
      let nuls := if (length c <? n)%nat then [0; 0] else [0] in
      c ++ nuls ++ drop (length c + length nuls) dst
  end.

Definition strncpy_list (n : nat) (src : list Z) : list Z :=
  let s := cstr (take n src) in s ++ replicate (n - length s) 0.

Ltac mget_tac :=
  repeat (rewrite u8_mget || rewrite mget_mset || case_decide || case_bool_decide);
  try first [lia | congruence | (f_equal; lia)].

Section specs.
Implicit Types m : gmap Z Z.

Lemma mread_length m a n : length (mread m a n) = n.
Proof. unfold mread. by rewrite length_fmap, zseq_length. Qed.

Lemma mread_S m a n : mread m a (S n) = mget m a :: mread m (a + 1) n.
Proof. unfold mread. by rewrite zseq_S. Qed.

Lemma mread_lookup m a n i : (i < n)%nat -> mread m a n !! i = Some (mget m (a + Z.of_nat i)).
Proof. intros. unfold mread. by rewrite list_lookup_fmap, zseq_lookup. Qed.

Lemma mread_bytes m a n : Forall byte_ok (mread m a n).
Proof. apply Forall_fmap, Forall_true. intros. apply mget_range. Qed.

(** Reading depends only on the bytes read. *)
Lemma mread_ext m m' a n :
  (forall b, a <= b < a + Z.of_nat n -> mget m b = mget m' b) -> mread m a n = mread m' a n.
Proof.
  intros H. unfold mread. apply list_fmap_ext. intros i x Hx.
  apply H, elem_of_zseq, list_elem_of_lookup. eauto.
Qed.

Lemma memset_loop_spec m d c n a :
  mget (memset_loop m d c n) a =
    if decide (d <= a < d + Z.of_nat n) then u8 c else mget m a.
Proof.
  revert m d. induction n as [|n IH]; intros m d; simpl; [mget_tac|].
  rewrite IH. mget_tac.
Qed.

Lemma memset_mget m d c n a :
  mget (memset m d c n) a = if decide (d <= a < d + u32 n) then u8 c else mget m a.
Proof.
  unfold memset. rewrite memset_loop_spec. pose proof (u32_range n).
  rewrite Z2Nat.id by lia. done.
Qed.

Lemma copy_up_spec m d s n a :
  d <= s \/ s + Z.of_nat n <= d ->
  mget (copy_up m d s n) a =
    if decide (d <= a < d + Z.of_nat n) then mget m (s + (a - d)) else mget m a.
Proof.
  revert m d s. induction n as [|n IH]; intros m d s H; cbn [copy_up]; [mget_tac|].
  rewrite IH by lia. repeat case_decide; rewrite ?mget_mset; mget_tac.
Qed.

Lemma copy_down_spec m d s n a :
  s <= d \/ d <= s - Z.of_nat n ->
  mget (copy_down m d s n) a =
    if decide (d - Z.of_nat n <= a < d) then mget m (s + (a - d)) else mget m a.
Proof.
  revert m d s. induction n as [|n IH]; intros m d s H; cbn [copy_down]; [mget_tac|].
  rewrite IH by lia. repeat case_decide; rewrite ?mget_mset; mget_tac.
Qed.

Lemma memmove_mget m dst src n a :
  mget (memmove m dst src n) a =
    if decide (dst <= a < dst + u32 n) then mget m (src + (a - dst)) else mget m a.
Proof.
  unfold memmove. pose proof (u32_range n) as Hn. set (k := u32 n) in *.
  destruct (Z.eqb_spec k 0) as [->|Hk]; [mget_tac|].
  destruct ((src <? dst) && (dst <? src + k)) eqn:Hov.
  - rewrite copy_down_spec by lia. rewrite Z2Nat.id by lia. mget_tac.
  - rewrite copy_up_spec by (rewrite Z2Nat.id by lia; lia).
    rewrite Z2Nat.id by lia. done.
Qed.

Lemma ulib_memmove_mget m dst src n a :
  0 <= n ->
  mget (ulib_memmove m dst src n) a =
    if decide (dst <= a < dst + n) then mget m (src + (a - dst)) else mget m a.
Proof.
  intros Hn. unfold ulib_memmove. destruct (dst <? src) eqn:H.
  - rewrite copy_up_spec by lia. by rewrite Z2Nat.id by lia.
  - rewrite copy_down_spec by lia. rewrite Z2Nat.id by lia. mget_tac.
Qed.

Lemma memcmp_loop_zero m p q n :
  memcmp_loop m p q n = 0 <-> mread m p n = mread m q n.
Proof.
  revert p q. induction n as [|n IH]; intros p q; [done|].
  rewrite !mread_S. cbn [memcmp_loop].
  destruct (Z.eqb_spec (mget m p) (mget m q)) as [->|Hne]; simpl.
  - rewrite IH. split; [by intros ->|by intros [=]].
  - split; [lia|intros [=]; lia].
Qed.

Lemma strncmp_loop_zero m p q n :
  strncmp_loop m p q n = 0 <-> agree_upto m p q (Z.of_nat n).
Proof.
  revert p q. induction n as [|n IH]; intros p q; cbn [strncmp_loop].
  { split; [intros _ i; lia|done]. }
  destruct (negb (mget m p =? 0) && (mget m p =? mget m q)) eqn:Hc.
  - rewrite IH. unfold agree_upto. split; intros H i Hi Hnz.
    + destruct (decide (i = 0)) as [->|]; [rewrite !Z.add_0_r; lia|].
      replace (p + i) with (p + 1 + (i - 1)) by lia.
      replace (q + i) with (q + 1 + (i - 1)) by lia.
      apply H; [lia|]. intros j Hj. replace (p + 1 + j) with (p + (j + 1)) by lia.
      apply Hnz. lia.
    + replace (p + 1 + i) with (p + (i + 1)) by lia.
      replace (q + 1 + i) with (q + (i + 1)) by lia.
      apply H; [lia|]. intros j Hj. destruct (decide (j = 0)) as [->|].
      * rewrite Z.add_0_r. lia.
      * replace (p + j) with (p + 1 + (j - 1)) by lia. apply Hnz. lia.
  - split.
    + intros H i Hi Hnz. assert (mget m p = mget m q) as Heq by lia.
      rewrite Heq in Hc. destruct (decide (i = 0)) as [->|].
      * by rewrite !Z.add_0_r.
      * exfalso. apply (Hnz 0); [lia|]. rewrite Z.add_0_r. lia.
    + intros H. specialize (H 0 ltac:(lia)). rewrite !Z.add_0_r in H.
      rewrite H; [lia|]. intros; lia.
Qed.

Lemma zero_fill_spec m s n a :
  mget (zero_fill m s n) a =
    if decide (s <= a < s + Z.of_nat n) then 0 else mget m a.
Proof.
  revert m s. induction n as [|n IH]; intros m s; simpl; [mget_tac|].
  rewrite IH. mget_tac.
Qed.

Lemma cstr_length bs : (length (cstr bs) <= length bs)%nat.
Proof. induction bs as [|b bs IH]; simpl; [done|]. destruct (b =? 0); simpl; lia. Qed.

Lemma cstr_nonzero bs : Forall (fun b => b <> 0) (cstr bs).
Proof.
  induction bs as [|b bs IH]; simpl; [constructor|].
  destruct (Z.eqb_spec b 0); constructor; done.
Qed.

Lemma strncpy_list_length n src : length (strncpy_list n src) = n.
Proof.
  unfold strncpy_list. rewrite length_app, length_replicate.
  pose proof (cstr_length (take n src)). rewrite length_take in *. lia.
Qed.

(** Writes outside a range do not change what is read from it. *)
Lemma mread_mset_ne m a v b n :
  ~ (b <= a < b + Z.of_nat n) -> mread (mset m a v) b n = mread m b n.
Proof. intros H. apply mread_ext. intros c Hc. rewrite mget_mset. case_decide; lia || done. Qed.

Lemma zero_fill_read m s n : mread (zero_fill m s n) s n = replicate n 0.
Proof.
  revert m s. induction n as [|n IH]; intros m s; [done|]. rewrite mread_S.
  cbn [zero_fill replicate]. rewrite zero_fill_spec, IH.
  rewrite decide_False by lia. rewrite mget_mset, decide_True by done. done.
Qed.

Lemma strncpy_loop_frame m s t n a :
  ~ (s <= a < s + Z.of_nat n) -> mget (strncpy_loop m s t n) a = mget m a.
Proof.
  revert m s t. induction n as [|n IH]; intros m s t H; cbn [strncpy_loop]; [done|].
  destruct (negb _).
  - rewrite IH by lia. mget_tac.
  - rewrite zero_fill_spec. mget_tac.
Qed.

Lemma strncpy_loop_read m s t n :
  s + Z.of_nat n <= t \/ t + Z.of_nat n <= s ->
  mread (strncpy_loop m s t n) s n = strncpy_list n (mread m t n).
Proof.
  revert m s t. induction n as [|n IH]; intros m s t H; [done|].
  unfold strncpy_list. rewrite !mread_S. cbn [strncpy_loop take cstr].
  rewrite mget_mset, decide_True by done. rewrite u8_mget.
  destruct (Z.eqb_spec (mget m t) 0) as [Hz|Hz]; cbn [negb].
  - rewrite zero_fill_read. rewrite zero_fill_spec, decide_False by lia.
    rewrite mget_mset, decide_True by done. rewrite Hz. done.
  - rewrite strncpy_loop_frame by lia. rewrite mget_mset, decide_True by done.
    rewrite u8_mget. cbn [length app]. f_equal.
    rewrite IH by lia. rewrite mread_mset_ne by lia. done.
Qed.

Lemma strncpy_read m s t n :
  s + n <= t \/ t + n <= s ->
  mread (strncpy m s t n) s (Z.to_nat n) = strncpy_list (Z.to_nat n) (mread m t (Z.to_nat n)).
Proof.
  intros H. unfold strncpy. destruct (Z.le_gt_cases 0 n).
  - apply strncpy_loop_read. rewrite Z2Nat.id by lia. done.
  - by replace (Z.to_nat n) with 0%nat by lia.
Qed.

(** [safestrcpy] leaves a terminated copy of the first [n-1] bytes. *)
Lemma safestrcpy_loop_cstr m s t n :
  s + Z.of_nat (S n) <= t \/ t + Z.of_nat (S n) <= s ->
  cstr (mread (safestrcpy_loop m s t n) s (S n)) = cstr (mread m t n) /\
  (exists i, (i <= n)%nat /\ mget (safestrcpy_loop m s t n) (s + Z.of_nat i) = 0) /\
  (forall a, ~ (s <= a < s + Z.of_nat (S n)) -> mget (safestrcpy_loop m s t n) a = mget m a).
Proof.
  revert m s t. induction n as [|n IH]; intros m s t H.
  - cbn [safestrcpy_loop]. (split; [|split]).
    + rewrite mread_S. simpl. by rewrite mget_mset, decide_True.
    + exists 0%nat. split; [done|]. rewrite mget_mset, decide_True by lia. done.
    + intros a Ha. mget_tac.
  - cbn [safestrcpy_loop]. rewrite (mread_S _ s). rewrite (mread_S m t n).
    rewrite mget_mset, decide_True by done.
    rewrite u8_mget. cbn [cstr].
    destruct (Z.eqb_spec (mget m t) 0) as [Hz|Hz]; cbn [negb].
    + (split; [|split]).
      * rewrite !mget_mset. rewrite decide_False, decide_True by lia.
        by rewrite u8_mget, Hz.
      * exists 0%nat. split; [lia|]. rewrite !mget_mset, decide_False, decide_True by lia.
        by rewrite u8_mget.
      * intros a Ha. mget_tac.
    + destruct (IH (mset m s (mget m t)) (s + 1) (t + 1) ltac:(lia)) as (H1 & (i & Hi & H2) & H3).
      (split; [|split]).
      * rewrite H3, mget_mset, decide_True by lia.
        rewrite u8_mget.
        destruct (Z.eqb_spec (mget m t) 0); [done|]. f_equal.
        rewrite H1. by rewrite mread_mset_ne by lia.
      * exists (S i). split; [lia|]. by replace (s + Z.of_nat (S i)) with (s + 1 + Z.of_nat i) by lia.
      * intros a Ha. rewrite H3 by lia. mget_tac.
Qed.

(** What it leaves in the whole array. *)
Lemma safestrcpy_loop_list m s t n :
  s + Z.of_nat (S n) <= t \/ t + Z.of_nat (S n) <= s ->
  mread (safestrcpy_loop m s t n) s (S n) = safestrcpy_list (mread m s (S n)) (mread m t n) (S n).
Proof.
  unfold safestrcpy_list. revert m s t. induction n as [|n IH]; intros m s t H.
  - cbn [safestrcpy_loop]. rewrite !mread_S. simpl. by rewrite mget_mset, decide_True.
  - cbn [safestrcpy_loop]. rewrite (mread_S m t n), (mread_S _ s (S n)), (mread_S m s (S n)). cbn [cstr].
    rewrite mget_mset, decide_True, u8_mget by done. destruct (Z.eqb_spec (mget m t) 0) as [Hz|Hz]; cbn [negb].
    + rewrite !(mread_S _ (s + 1) n), !mget_mset, decide_False, !decide_True by lia.
      rewrite u8_mget, Hz, !mread_mset_ne by lia. done.
    + rewrite IH by lia. destruct (safestrcpy_loop_cstr (mset m s (mget m t)) (s + 1) (t + 1) n ltac:(lia)) as (_ & _ & H3).
      rewrite H3, mget_mset, decide_True, u8_mget by lia. rewrite !mread_mset_ne by lia. done.
Qed.

Lemma strlen_loop_spec fuel m s n k :
  0 <= n -> mget m (s + n + Z.of_nat k) = 0 ->
  (forall j, (j < k)%nat -> mget m (s + n + Z.of_nat j) <> 0) ->
  (k < fuel)%nat -> strlen_loop fuel m s n = Some (n + Z.of_nat k).
Proof.
  revert n k. induction fuel as [|fuel IH]; intros n k Hn Hk Hj Hf; [lia|].
  cbn [strlen_loop]. destruct k as [|k].
  - rewrite Z.add_0_r in Hk. rewrite Hk. simpl. f_equal. lia.
  - specialize (Hj 0%nat ltac:(lia)) as H0. rewrite Z.add_0_r in H0.
    destruct (Z.eqb_spec (mget m (s + n)) 0); [lia|].
    rewrite (IH (n + 1) k); [f_equal; lia|lia| | |lia].
    + rewrite <- Hk. f_equal. lia.
    + intros j Hlt. specialize (Hj (S j) ltac:(lia)).
      intros Heq. apply Hj. rewrite <- Heq. f_equal. lia.
Qed.
End specs.

(** ** Block reads and writes *)

Section blocks.
Implicit Types m : gmap Z Z.

Lemma mwrite_frame m a bs b :
  ~ (a <= b < a + Z.of_nat (length bs)) -> mget (mwrite m a bs) b = mget m b.
Proof.
  revert m a. induction bs as [|x bs IH]; intros m a H; simpl in *; [done|].
  rewrite IH by lia. mget_tac.
Qed.

Lemma mwrite_read m a bs :
  Forall byte_ok bs -> mread (mwrite m a bs) a (length bs) = bs.
Proof.
  intros Hbs. revert m a. induction Hbs as [|x bs Hx _ IH]; intros m a; [done|].
  cbn [length mwrite]. rewrite mread_S, IH, mwrite_frame by lia.
  by rewrite mget_mset_eq, u8_small.
Qed.

Lemma mread_mwrite_ne m a bs b n :
  b + Z.of_nat n <= a \/ a + Z.of_nat (length bs) <= b ->
  mread (mwrite m a bs) b n = mread m b n.
Proof. intros H. apply mread_ext. intros c Hc. apply mwrite_frame. lia. Qed.

Lemma mread_memset m d c n a k :
  d <= a -> a + Z.of_nat k <= d + u32 n -> mread (memset m d c n) a k = replicate k (u8 c).
Proof.
  revert a. induction k as [|k IH]; intros a H1 H2; [done|].
  rewrite mread_S. simpl. rewrite IH by lia. rewrite memset_mget, decide_True by lia. done.
Qed.

Lemma mread_memset_ne m d c n a k :
  a + Z.of_nat k <= d \/ d + u32 n <= a -> mread (memset m d c n) a k = mread m a k.
Proof.
  intros H. apply mread_ext. intros b Hb. rewrite memset_mget. case_decide; [lia|done].
Qed.
End blocks.

(** Later files use the specifications, not the loops. *)
#[global] Opaque memset memmove memcmp mwrite mread mget mset strncmp strncpy safestrcpy strlen.
