(* ===== verification/KStringThm.v ===== *)
(** What kernel/string.c and the copying routine of user/ulib.c promise, as
    block-level theorems over [KString]'s byte memory. *)

From S2P Require Import Prelude CInt KString.

#[local] Transparent memset memmove memcmp mwrite mread mget mset strncmp strncpy safestrcpy strlen.

(** ** Reference definitions *)

(** All [n] bytes are read before any is written. *)
Definition copy_block (m : gmap Z Z) (dst src : Z) (n : nat) : gmap Z Z :=
  mwrite m dst (mread m src n).

(** Two byte memories that no load tells apart. *)
Definition mem_equiv (m m' : gmap Z Z) : Prop := forall a, mget m a = mget m' a.

#[export] Instance mem_equiv_equivalence : Equivalence mem_equiv.
Proof.
  split; [by intros m a|by intros m m' H a|].
  intros m1 m2 m3 H1 H2 a. by rewrite H1, H2.
Qed.

#[export] Instance mread_proper : Proper (mem_equiv ==> eq ==> eq ==> eq) mread.
Proof. intros m m' H ? a -> ? n ->. apply mread_ext. intros b _. apply H. Qed.

(** [s] is a NUL-terminated string of [k] characters at [a]. *)
Definition is_cstr (m : gmap Z Z) (a : Z) (k : nat) : Prop :=
  mget m (a + Z.of_nat k) = 0 /\ forall j, (j < k)%nat -> mget m (a + Z.of_nat j) <> 0.

(** ** Blocks *)

Lemma mwrite_mget_in m a bs b :
  Forall byte_ok bs -> a <= b < a + Z.of_nat (length bs) ->
  mget (mwrite m a bs) b = nth (Z.to_nat (b - a)) bs 0.
Proof.
  intros Hbs Hb. pose proof (mwrite_read m a bs Hbs) as Hr.
  assert (Hl : mread (mwrite m a bs) a (length bs) !! Z.to_nat (b - a) =
               Some (mget (mwrite m a bs) b)).
  { rewrite mread_lookup by lia. do 2 f_equal. lia. }
  rewrite Hr in Hl. by erewrite nth_lookup_Some.
Qed.

Lemma copy_block_mget m dst src n a :
  mget (copy_block m dst src n) a =
    if decide (dst <= a < dst + Z.of_nat n) then mget m (src + (a - dst)) else mget m a.
Proof.
  unfold copy_block. case_decide as Ha.
  - rewrite mwrite_mget_in; [|apply mread_bytes|rewrite mread_length; lia].
    erewrite nth_lookup_Some by (apply mread_lookup; lia). f_equal. lia.
  - apply mwrite_frame. by rewrite mread_length.
Qed.

Lemma cstr_all_nonzero bs : Forall (fun b => b <> 0) bs -> cstr bs = bs.
Proof.
  induction 1 as [|b bs Hb _ IH]; simpl; [done|].
  destruct (Z.eqb_spec b 0); [done|]. by rewrite IH.
Qed.

(** The string at [a] in a block that reaches past its NUL. *)
Lemma cstr_mread m a k n :
  is_cstr m a k -> (k < n)%nat -> cstr (mread m a n) = mread m a k.
Proof.
  revert a n. induction k as [|k IH]; intros a n [Hz Hnz] Hn; (destruct n as [|n]; [lia|]).
  - rewrite mread_S. simpl. by rewrite Z.add_0_r in Hz; rewrite Hz.
  - rewrite !mread_S. simpl. specialize (Hnz 0%nat ltac:(lia)) as H0. rewrite Z.add_0_r in H0.
    destruct (Z.eqb_spec (mget m a) 0); [done|]. f_equal. apply IH; [|lia].
    split; [rewrite <- Hz; f_equal; lia|]. intros j Hj.
    specialize (Hnz (S j) ltac:(lia)). intros Heq. apply Hnz. rewrite <- Heq. f_equal. lia.
Qed.

(** A block with a NUL at [i] holds a string of at most [i] characters. *)
Lemma cstr_short bs i : bs !! i = Some 0 -> (length (cstr bs) <= i)%nat.
Proof.
  revert i. induction bs as [|b bs IH]; intros [|i] H; simpl in *; try done.
  - simplify_eq. done.
  - destruct (b =? 0); simpl; [lia|]. specialize (IH i H). lia.
Qed.

(** ** Theorems *)

(** [memmove] (string.c) and ulib's [memmove] choose a direction so that
    overlapping blocks are copied correctly: for every placement of the two
    blocks both leave the memory in which the [n] bytes of [src], as they were
    before the call, stand at [dst], and nothing else changed. *)
Theorem memmove_copies_block m dst src n :
  0 <= n < W31 ->
  mem_equiv (memmove m dst src n) (copy_block m dst src (Z.to_nat n)) /\
  mem_equiv (ulib_memmove m dst src n) (memmove m dst src n).
Proof.
  intros Hn. split; intros a.
  - rewrite memmove_mget, copy_block_mget, u32_small by lia. by rewrite Z2Nat.id by lia.
  - rewrite ulib_memmove_mget by lia. rewrite memmove_mget, u32_small by lia. done.
Qed.

(** [safestrcpy(s, t, n)] never writes outside [s[0..n-1]], always leaves a
    NUL-terminated string there, and that string is the longest prefix of the
    string [t] that fits into [n - 1] characters. *)
Theorem safestrcpy_truncates m s t n k :
  0 < n -> s + n <= t \/ t + n <= s -> is_cstr m t k ->
  cstr (mread (safestrcpy m s t n) s (Z.to_nat n)) =
    mread m t (Nat.min k (Z.to_nat (n - 1))) /\
  (exists i, 0 <= i < n /\ mget (safestrcpy m s t n) (s + i) = 0) /\
  (forall a, ~ (s <= a < s + n) -> mget (safestrcpy m s t n) a = mget m a).
Proof.
  intros Hn Hd Hk. unfold safestrcpy. destruct (Z.leb_spec n 0); [lia|].
  set (c := Z.to_nat (n - 1)). replace (Z.to_nat n) with (S c) by lia.
  destruct (safestrcpy_loop_cstr m s t c ltac:(lia)) as (H1 & (i & Hi & H2) & H3).
  split; [|split].
  - rewrite H1. destruct (decide (k < c)%nat).
    + rewrite Nat.min_l by lia. by apply cstr_mread.
    + rewrite Nat.min_r by lia. apply cstr_all_nonzero, Forall_lookup_2.
      intros j x Hx. pose proof (lookup_lt_Some _ _ _ Hx) as Hj. rewrite mread_length in Hj.
      rewrite mread_lookup in Hx by done. simplify_eq. apply Hk. lia.
  - exists (Z.of_nat i). split; [lia|done].
  - intros a Ha. apply H3. lia.
Qed.

(** Both blocks of a string comparison. *)
Lemma strncmp_loop_antisym m p q n : strncmp_loop m q p n = - strncmp_loop m p q n.
Proof.
  revert p q. induction n as [|n IH]; intros p q; cbn [strncmp_loop]; [done|].
  destruct (Z.eqb_spec (mget m p) (mget m q)) as [Heq|Hne].
  - rewrite Heq, Z.eqb_refl. destruct (mget m q =? 0); cbn [negb andb]; [lia|apply IH].
  - destruct (Z.eqb_spec (mget m q) (mget m p)); [lia|].
    rewrite !andb_false_r. lia.
Qed.

Lemma is_cstr_tail m a k : is_cstr m a (S k) -> mget m a <> 0 /\ is_cstr m (a + 1) k.
Proof.
  intros [Hz Hnz]. split; [|split].
  - specialize (Hnz 0%nat ltac:(lia)). by rewrite Z.add_0_r in Hnz.
  - rewrite <- Hz. f_equal. lia.
  - intros j Hj. specialize (Hnz (S j) ltac:(lia)). intros Heq. apply Hnz.
    rewrite <- Heq. f_equal. lia.
Qed.

Lemma is_cstr_nil m a : is_cstr m a 0 -> mget m a = 0.
Proof. intros [Hz _]. by rewrite Z.add_0_r in Hz. Qed.

Lemma strncmp_loop_strings m p q kp kq n :
  is_cstr m p kp -> is_cstr m q kq ->
  strncmp_loop m p q n = 0 <-> take n (mread m p kp) = take n (mread m q kq).
Proof.
  revert p q kp kq. induction n as [|n IH]; intros p q kp kq Hp Hq; [done|].
  cbn [strncmp_loop].
  destruct kp as [|kp], kq as [|kq].
  - rewrite (is_cstr_nil _ _ Hp), (is_cstr_nil _ _ Hq). done.
  - rewrite (is_cstr_nil _ _ Hp). apply is_cstr_tail in Hq as [Hq _].
    rewrite mread_S. cbn. split; [lia|done].
  - rewrite (is_cstr_nil _ _ Hq). apply is_cstr_tail in Hp as [Hp _].
    rewrite mread_S. destruct (Z.eqb_spec (mget m p) 0); [done|]. cbn. split; [lia|done].
  - apply is_cstr_tail in Hp as [Hp1 Hp], Hq as [Hq1 Hq]. rewrite !mread_S. cbn [take].
    destruct (Z.eqb_spec (mget m p) 0); [done|]. cbn [negb andb].
    destruct (Z.eqb_spec (mget m p) (mget m q)) as [Heq|Hne].
    + rewrite (IH _ _ kp kq) by done. rewrite Heq. split; [by intros ->|by intros [=]].
    + split; [lia|by intros [=]].
Qed.

(** on NUL-terminated strings [strncmp(p, q, n)] is 0 exactly when their
    first [n] characters are the same, and swapping the arguments negates the
    result. *)
Theorem strncmp_compares m p q n kp kq :
  0 <= n < W32 -> is_cstr m p kp -> is_cstr m q kq ->
  (strncmp m p q n = 0 <->
     take (Z.to_nat n) (mread m p kp) = take (Z.to_nat n) (mread m q kq)) /\
  strncmp m q p n = - strncmp m p q n.
Proof.
  intros Hn Hp Hq. unfold strncmp. rewrite u32_small by lia.
  split; [by apply strncmp_loop_strings|apply strncmp_loop_antisym].
Qed.

(** ** Witnesses *)

(** "abcdef" at 10. *)
Definition demo_str : gmap Z Z := mwrite ∅ 10 [97; 98; 99; 100; 101; 102; 0].

Lemma is_cstr_demo (m : gmap Z Z) a k :
  (mget m (a + Z.of_nat k) =? 0) &&
  forallb (fun j => negb (mget m (a + Z.of_nat j) =? 0)) (seq 0 k) = true -> is_cstr m a k.
Proof.
  intros [H1 H2]%andb_prop. split; [lia|]. intros j Hj Hz.
  rewrite forallb_forall in H2. specialize (H2 j ltac:(apply in_seq; lia)). lia.
Qed.

Lemma memmove_copies_block_witness :
  mem_equiv (memmove demo_str 12 10 4) (copy_block demo_str 12 10 4) /\
  mem_equiv (ulib_memmove demo_str 12 10 4) (memmove demo_str 12 10 4).
Proof. apply (memmove_copies_block demo_str 12 10 4). lia. Defined.

Lemma safestrcpy_truncates_witness :
  cstr (mread (safestrcpy demo_str 20 10 4) 20 4) = mread demo_str 10 3 /\
  (exists i, 0 <= i < 4 /\ mget (safestrcpy demo_str 20 10 4) (20 + i) = 0) /\
  (forall a, ~ (20 <= a < 20 + 4) -> mget (safestrcpy demo_str 20 10 4) a = mget demo_str a).
Proof.
  apply (safestrcpy_truncates demo_str 20 10 4 6); [lia|lia|].
  apply is_cstr_demo. vm_compute. reflexivity.
Defined.

Lemma strncmp_compares_witness :
  (strncmp demo_str 10 13 2 = 0 <-> take 2 (mread demo_str 10 6) = take 2 (mread demo_str 13 3)) /\
  strncmp demo_str 13 10 2 = - strncmp demo_str 10 13 2.
Proof.
  apply (strncmp_compares demo_str 10 13 2 6 3); [lia| |]; apply is_cstr_demo; vm_compute; reflexivity.
Defined.
