(* ===== verification/Sched.v ===== *)
(** Processes as the scheduler sees them: [struct proc] (kernel/proc.h), the
    ambient state every kernel routine runs in, spinlocks as held-lock lists,
    and the scheduling half of kernel/proc.c: [sched], [yield], [sleep],
    [wakeup], [kill], [setkilled], [killed] and [scheduler].

    [swtch] inside [sched] ends in the outcome [Switched], which carries the
    rest of the routine: a system of kernel threads ([sys_step]) runs a thread
    until it returns or switches, and resumes it after [scheduler] has picked
    it. *)

From S2P Require Import Prelude CInt Machine.

(** ** kernel/proc.h *)

Inductive procstate := UNUSED | USED | SLEEPING | RUNNABLE | RUNNING | ZOMBIE.
#[export] Instance procstate_eq_dec : EqDecision procstate.
Proof. solve_decision. Defined.

(** [struct context]: [ra] is a code address, the callee-saved registers
    [s0]..[s11] follow. *)
Record context := Context { c_ra : option kptr; c_sp : Z; c_s : list Z }.
Definition context_zero : context := Context None 0 (replicate 12 0).

(** A [struct proc *] is an index in [proc[NPROC]]; null is [None].  Files and
    inodes are indices in their tables, page tables and trapframes physical
    addresses (0 for null). *)
Record proc := Proc {
  p_state : procstate;
  p_chan : option kptr;
  p_killed : Z;
  p_xstate : Z;
  p_pid : Z;
  p_parent : option nat;
  p_kstack : Z;
  p_sz : Z;
  p_pagetable : Z;
  p_trapframe : Z;
  p_context : context;
  p_ofile : list (option nat);
  p_cwd : option nat;
  p_name : list Z;
  p_is_thread : Z;
  p_father : option nat;
  p_tid : Z;
  p_start : Z;
  p_size : Z;
}.

#[export] Instance eta_proc : Eta proc := fun p =>
  Proc (p_state p) (p_chan p) (p_killed p) (p_xstate p) (p_pid p) (p_parent p)
    (p_kstack p) (p_sz p) (p_pagetable p) (p_trapframe p) (p_context p) (p_ofile p)
    (p_cwd p) (p_name p) (p_is_thread p) (p_father p) (p_tid p) (p_start p) (p_size p).

(** The zero-initialised entry of the static table [proc[NPROC]]. *)
Definition proc_zero : proc :=
  Proc UNUSED None 0 0 0 None 0 0 0 0 context_zero (replicate NOFILE None) None
    (replicate 16 0) 0 None 0 0 0.

(** ** The ambient state *)

(** What every kernel routine can reach: the spinlocks this CPU holds
    (innermost first; their number is [mycpu()->noff]), [mycpu()->proc], the
    process table, [nextpid], [initproc] and [ticks].  [krest] is the state of
    the components above. *)
Record Kst (R : Type) := KSt {
  held : list kptr;
  cproc : option nat;
  procs : list proc;
  nextpid : Z;
  initproc : option nat;
  ticks : Z;
  krest : R;
}.
Arguments KSt {R}. Arguments held {R}. Arguments cproc {R}. Arguments procs {R}.
Arguments nextpid {R}. Arguments initproc {R}. Arguments ticks {R}. Arguments krest {R}.

#[export] Instance eta_kst R : Eta (Kst R) := fun s =>
  KSt (held s) (cproc s) (procs s) (nextpid s) (initproc s) (ticks s) (krest s).

Definition plock (i : nat) : kptr := KSym "proc" (Z.of_nat i).
Definition wait_lock : kptr := KSym "wait_lock" 0.
Definition pid_lock : kptr := KSym "pid_lock" 0.
Definition tickslock : kptr := KSym "tickslock" 0.
Definition pchan (i : nat) : kptr := KSym "proc" (Z.of_nat i).

#[export] Instance plock_inj : Inj eq eq plock.
Proof. intros i j H. unfold plock in H. simplify_eq. lia. Qed.

Section sched.
Context {R : Type}.
Implicit Types s : Kst R.

(** ** Spinlocks *)

(** [acquire] as the holder sees it; a CPU that already holds the lock
    panics.  [Spinlock.v] derives this view from kernel/spinlock.c. *)
Definition acquire (l : kptr) : M (Kst R) unit := fun s =>
  if decide (l ∈ held s) then Panic "acquire" else Ok tt (s.[held := l :: held s]).

Definition release (l : kptr) : M (Kst R) unit := fun s =>
  if decide (l ∈ held s)
  then Ok tt (s.[held := list_difference (held s) [l]])
  else Panic "release".

Definition holding (l : kptr) : M (Kst R) bool :=
  gets (fun s => bool_decide (l ∈ held s)).

(** ** Access to the process table *)

Definition myproc : M (Kst R) (option nat) := gets cproc.

(** The running process, dereferenced. *)
Definition curproc : M (Kst R) nat := let* o := myproc in deref o.

Definition getp (i : nat) : M (Kst R) proc :=
  let* ps := gets procs in deref (ps !! i).

Definition modp (i : nat) (f : proc -> proc) : M (Kst R) unit :=
  let* p := getp i in
  modify (fun s => s.[procs := <[i := f p]> (procs s)]).

(** ** kernel/proc.c: giving up the CPU *)

(** [sched]: switch to the scheduler, and return when it switches back.  With
    interrupts off exactly while a lock is held, [intr_get()] is false once
    [noff == 1] has been checked.  [intena] is a property of the kernel
    thread; it is part of [held] being one lock on both sides. *)
Definition sched : M (Kst R) unit :=
  let* p := curproc in
  let* h := holding (plock p) in
  if negb h then panic "sched p->lock" else
  let* n := gets (fun s => length (held s)) in
  if negb (n =? 1)%nat then panic "sched locks" else
  let* q := getp p in
  if bool_decide (p_state q = RUNNING) then panic "sched running" else
  fun s => Switched s (fun s' => Ok tt s').

Definition yield : M (Kst R) unit :=
  let* p := curproc in
  acquire (plock p);;;
  modp p (fun q => q.[p_state := RUNNABLE]);;;
  sched;;;
  release (plock p).

Definition sleep (ch lk : kptr) : M (Kst R) unit :=
  let* p := curproc in
  acquire (plock p);;;
  release lk;;;
  modp p (fun q => q.[p_chan := Some ch]);;;
  modp p (fun q => q.[p_state := SLEEPING]);;;
  sched;;;
  modp p (fun q => q.[p_chan := None]);;;
  release (plock p);;;
  acquire lk.

Definition wakeup (ch : kptr) : M (Kst R) unit :=
  mfor (seq 0 NPROC) (fun p =>
    let* me := myproc in
    if bool_decide (me = Some p) then ret tt else
    acquire (plock p);;;
    let* q := getp p in
    when (bool_decide (p_state q = SLEEPING) && bool_decide (p_chan q = Some ch))
      (modp p (fun q => q.[p_state := RUNNABLE]));;;
    release (plock p)).

Definition kill (pid : Z) : M (Kst R) Z :=
  let* r := mloop (seq 0 NPROC) (fun p =>
    acquire (plock p);;;
    let* q := getp p in
    if p_pid q =? pid then
      modp p (fun q => q.[p_killed := 1]);;;
      when (bool_decide (p_state q = SLEEPING)) (modp p (fun q => q.[p_state := RUNNABLE]));;;
      release (plock p);;;
      ret (Some 0)
    else
      release (plock p);;;
      ret None) in
  ret (default (-1) r).

Definition setkilled (p : nat) : M (Kst R) unit :=
  acquire (plock p);;;
  modp p (fun q => q.[p_killed := 1]);;;
  release (plock p).

Definition killed (p : nat) : M (Kst R) Z :=
  acquire (plock p);;;
  let* q := getp p in
  release (plock p);;;
  ret (p_killed q).

(** [scheduler]: one pass over the table from entry [i] up to the first
    runnable process, which is entered (by [swtch]) with its lock held; and
    what follows when that process comes back. *)
Definition scheduler_scan (i : nat) : M (Kst R) (option nat) :=
  mloop (seq i (NPROC - i)) (fun p =>
    acquire (plock p);;;
    let* q := getp p in
    if bool_decide (p_state q = RUNNABLE) then
      modp p (fun q => q.[p_state := RUNNING]);;;
      modify (fun s => s.[cproc := Some p]);;;
      ret (Some p)
    else
      release (plock p);;;
      ret None).

Definition scheduler_back (p : nat) : M (Kst R) unit :=
  modify (fun s => s.[cproc := None]);;;
  release (plock p).
End sched.

(** ** Lemmas: symbolic execution of the primitives *)

Lemma list_difference_nin (h : list kptr) l : l ∉ h -> list_difference h [l] = h.
Proof.
  induction h as [|x h IH]; simpl; intros Hl; [done|].
  case_decide; [set_solver|]. rewrite IH; set_solver.
Qed.

Lemma list_difference_head (h : list kptr) l : l ∉ h -> list_difference (l :: h) [l] = h.
Proof.
  intros Hl. simpl. case_decide; [|set_solver]. by apply list_difference_nin.
Qed.

Section sched_lemmas.
Context {R : Type}.
Implicit Types s : Kst R.

Lemma kst_eta s :
  KSt (held s) (cproc s) (procs s) (nextpid s) (initproc s) (ticks s) (krest s) = s.
Proof. by destruct s. Qed.

Lemma acquire_ok l s : l ∉ held s -> acquire l s = Ok tt (s.[held := l :: held s]).
Proof. intros H. unfold acquire. by rewrite decide_False. Qed.

Lemma acquire_again l s : l ∈ held s -> acquire l s = Panic "acquire".
Proof. intros H. unfold acquire. by rewrite decide_True. Qed.

Lemma release_ok l h s : held s = l :: h -> l ∉ h -> release l s = Ok tt (s.[held := h]).
Proof.
  intros Hh Hl. unfold release. rewrite Hh, list_difference_head by done.
  case_decide; [done|set_solver].
Qed.

Lemma release_second a l h s :
  held s = a :: l :: h -> a <> l -> l ∉ h -> release l s = Ok tt (s.[held := a :: h]).
Proof.
  intros Hh Hne Hl. unfold release. rewrite Hh.
  rewrite decide_True by (apply list_elem_of_further, list_elem_of_here).
  change (list_difference (a :: l :: h) [l]) with
    (if decide_rel (∈) a [l] then list_difference (l :: h) [l]
     else a :: list_difference (l :: h) [l]).
  rewrite list_difference_head by done.
  case_decide as H1; [by apply list_elem_of_singleton in H1|done].
Qed.

Lemma release_not_held l s : l ∉ held s -> release l s = Panic "release".
Proof. intros H. unfold release. by rewrite decide_False. Qed.

(** Acquire, run, release: the caller's lock list is restored. *)
Lemma locked_section {A} l (body : M (Kst R) A) s a s' :
  l ∉ held s ->
  body (s.[held := l :: held s]) = Ok a s' -> held s' = l :: held s ->
  (acquire l;;; let* x := body in release l;;; ret x) s = Ok a (s'.[held := held s]).
Proof.
  intros Hl Hb Hh. erewrite bind_Ok by (by apply acquire_ok).
  erewrite bind_Ok by exact Hb. erewrite bind_Ok by (by eapply release_ok). done.
Qed.

Lemma getp_ok i p s : procs s !! i = Some p -> getp i s = Ok p s.
Proof. intros H. unfold getp, bind, gets. simpl. by rewrite H. Qed.

Lemma modp_ok i p f s :
  procs s !! i = Some p -> modp i f s = Ok tt (s.[procs := <[i := f p]> (procs s)]).
Proof. intros H. unfold modp, bind. by rewrite (getp_ok _ _ _ H). Qed.

Lemma curproc_ok i s : cproc s = Some i -> curproc s = Ok i s.
Proof. intros H. unfold curproc, myproc, bind, gets. simpl. by rewrite H. Qed.

Lemma killed_ok p q s :
  procs s !! p = Some q -> plock p ∉ held s -> killed p s = Ok (p_killed q) s.
Proof.
  intros Hp Hl. unfold killed. erewrite bind_Ok by (by apply acquire_ok).
  erewrite bind_Ok by (by apply getp_ok). erewrite bind_Ok by (by apply (release_ok _ (held s))).
  unfold ret, upd_field; simpl. by rewrite kst_eta.
Qed.

Lemma Ok_procs_eq s (a b : list proc) :
  a = b -> Ok tt (s.[procs := a]) = Ok tt (s.[procs := b]).
Proof. by intros ->. Qed.

(** A scan that rewrites each entry of the process table in turn. *)
Lemma mfor_table_from (body : nat -> M (Kst R) unit) (f : nat -> proc -> proc) s :
  (forall i p ps, ps !! i = Some p ->
     body i (s.[procs := ps]) = Ok tt (s.[procs := <[i := f i p]> ps])) ->
  forall n k ps, length ps = (k + n)%nat ->
  mfor (seq k n) body (s.[procs := ps]) =
    Ok tt (s.[procs := take k ps ++ imap (fun i => f (k + i)%nat) (drop k ps)]).
Proof.
  intros Hbody n. induction n as [|n IH]; intros k ps Hlen; simpl.
  - rewrite drop_ge, take_ge by lia. simpl. by rewrite app_nil_r.
  - destruct (lookup_lt_is_Some_2 ps k ltac:(lia)) as [p Hp].
    erewrite bind_Ok by (by apply Hbody).
    rewrite IH by (rewrite length_insert; lia).
    apply Ok_procs_eq. clear IH Hbody.
    rewrite (drop_S ps p k Hp).
    rewrite (take_S_r (<[k:=f k p]> ps) k (f k p)) by (by apply list_lookup_insert_eq; lia).
    rewrite take_insert_ge, drop_insert_lt by lia. rewrite <- app_assoc.
    simpl. rewrite Nat.add_0_r. do 2 f_equal. apply imap_ext. intros i q _. simpl.
    f_equal. lia.
Qed.

Lemma mfor_table (body : nat -> M (Kst R) unit) (f : nat -> proc -> proc) s :
  length (procs s) = NPROC ->
  (forall i p ps, ps !! i = Some p ->
     body i (s.[procs := ps]) = Ok tt (s.[procs := <[i := f i p]> ps])) ->
  mfor (seq 0 NPROC) body s = Ok tt (s.[procs := imap f (procs s)]).
Proof.
  intros Hlen Hbody.
  pose proof (mfor_table_from body f s Hbody NPROC 0 (procs s) Hlen) as H.
  unfold upd_field in H at 1. rewrite kst_eta in H. exact H.
Qed.

(** A scan for the first entry that satisfies [p]. *)
Lemma mloop_find {B} (p : proc -> bool) (body : nat -> M (Kst R) (option B)) s :
  (forall i q, procs s !! i = Some q -> p q = false -> body i s = Ok None s) ->
  forall n k, (length (procs s) = k + n)%nat ->
  mloop (seq k n) body s =
    match find_from p (drop k (procs s)) k with
    | None => Ok None s
    | Some (i, q) => bindO (body i s) (fun r =>
        match r with
        | Some b => ret (Some b)
        | None => mloop (seq (S i) (k + n - S i)) body
        end)
    end.
Proof.
  intros Hf n. induction n as [|n IH]; intros k Hlen; simpl.
  - by rewrite drop_ge by lia.
  - destruct (lookup_lt_is_Some_2 (procs s) k ltac:(lia)) as [q Hq].
    rewrite (drop_S _ _ _ Hq). simpl. destruct (p q) eqn:Hpq.
    + unfold bind. do 2 f_equal. by replace (k + S n - S k)%nat with n by lia.
    + erewrite bind_Ok by (by eapply Hf). simpl. rewrite IH by lia.
      destruct (find_from p (drop (S k) (procs s)) (S k)) as [[j r]|]; [|done].
      by replace (S k + n - S j)%nat with (k + S n - S j)%nat by lia.
Qed.
End sched_lemmas.

(** ** Functional behaviour *)

(** What [wakeup ch], called by process [me], does to entry [i]. *)
Definition wake_entry (me : option nat) (ch : kptr) (i : nat) (p : proc) : proc :=
  if bool_decide (me = Some i) then p
  else if bool_decide (p_state p = SLEEPING) && bool_decide (p_chan p = Some ch)
       then p.[p_state := RUNNABLE] else p.

(** No process lock but possibly [me]'s is held: "Must be called without any
    p->lock" (proc.c:902). *)
Definition no_plock {R} (s : Kst R) : Prop :=
  forall i, cproc s <> Some i -> plock i ∉ held s.

(** [wakeup ch] some number of times. *)
Definition woken (me : option nat) (ch : kptr) (ps ps' : list proc) : Prop :=
  ps' = ps \/ ps' = imap (wake_entry me ch) ps.

Lemma wake_entry_twice me ch i p : wake_entry me ch i (wake_entry me ch i p) = wake_entry me ch i p.
Proof.
  unfold wake_entry. case_bool_decide; [done|].
  destruct (bool_decide (p_state p = SLEEPING) && bool_decide (p_chan p = Some ch)) eqn:E; [done|].
  by rewrite E.
Qed.

Lemma woken_trans me ch ps1 ps2 ps3 : woken me ch ps1 ps2 -> woken me ch ps2 ps3 -> woken me ch ps1 ps3.
Proof.
  intros [->| ->] [->| ->]; [by left|by right|by right|right].
  apply list_eq. intros i. rewrite !list_lookup_imap. destruct (ps1 !! i) as [p|]; [|done].
  simpl. by rewrite wake_entry_twice.
Qed.

Lemma woken_length me ch ps ps' : woken me ch ps ps' -> length ps' = length ps.
Proof. intros [->| ->]; [done|apply length_imap]. Qed.

Lemma woken_me me ch ps ps' i : woken me ch ps ps' -> me = Some i -> ps' !! i = ps !! i.
Proof.
  intros [->| ->] Hc; [done|]. rewrite list_lookup_imap. destruct (ps !! i) as [p|]; [|done].
  simpl. unfold wake_entry. by rewrite bool_decide_true.
Qed.

(** Where the kernel may call [wakeup]. *)
Definition can_wake {R} (s : Kst R) : Prop := length (procs s) = NPROC /\ no_plock s.

(** The effect of [kill] on the victim. *)
Definition kill_entry (p : proc) : proc :=
  let p' := p.[p_killed := 1] in
  if bool_decide (p_state p = SLEEPING) then p'.[p_state := RUNNABLE] else p'.

Section sched_theorems.
Context {R : Type}.
Implicit Types s : Kst R.

Lemma wakeup_eq ch s :
  length (procs s) = NPROC -> no_plock s ->
  wakeup ch s = Ok tt (s.[procs := imap (wake_entry (cproc s) ch) (procs s)]).
Proof.
  intros Hlen Hno. unfold wakeup. apply mfor_table; [done|].
  intros i p ps Hp. unfold wake_entry.
  unfold bind at 1, myproc, gets; simpl. change (cproc _) with (cproc s) at 1.
  case_bool_decide as Hme.
  { unfold ret. by rewrite list_insert_id. }
  erewrite bind_Ok by (apply acquire_ok, Hno; done).
  erewrite bind_Ok by (apply getp_ok; exact Hp).
  destruct (bool_decide (p_state p = SLEEPING) && bool_decide (p_chan p = Some ch)); simpl.
  - erewrite bind_Ok by (eapply modp_ok; exact Hp).
    erewrite release_ok; [done|done|]. by apply Hno.
  - unfold bind at 1, ret; simpl. rewrite (release_ok _ (held s)); [|done|by apply Hno].
    by rewrite list_insert_id.
Qed.

(** [wakeup] from a context that holds the lock of another process stops
    the kernel. *)
Lemma kill_body_miss pid s i q :
  plock i ∉ held s -> procs s !! i = Some q -> (p_pid q =? pid) = false ->
  (acquire (plock i);;;
    let* q := getp i in
    if p_pid q =? pid then
      modp i (fun q => q.[p_killed := 1]);;;
      when (bool_decide (p_state q = SLEEPING)) (modp i (fun q => q.[p_state := RUNNABLE]));;;
      release (plock i);;;
      ret (Some 0)
    else
      release (plock i);;;
      ret None) s = Ok None s.
Proof.
  intros Hl Hq Hpid. erewrite bind_Ok by (by apply acquire_ok).
  erewrite bind_Ok by (by apply getp_ok). rewrite Hpid.
  erewrite bind_Ok by (by apply (release_ok _ (held s))).
  unfold ret, upd_field. simpl. by rewrite kst_eta.
Qed.

Lemma kill_body_hit pid s i q :
  plock i ∉ held s -> procs s !! i = Some q -> (p_pid q =? pid) = true ->
  (acquire (plock i);;;
    let* q := getp i in
    if p_pid q =? pid then
      modp i (fun q => q.[p_killed := 1]);;;
      when (bool_decide (p_state q = SLEEPING)) (modp i (fun q => q.[p_state := RUNNABLE]));;;
      release (plock i);;;
      ret (Some 0)
    else
      release (plock i);;;
      ret None) s = Ok (Some 0) (s.[procs := <[i := kill_entry q]> (procs s)]).
Proof.
  intros Hl Hq Hpid. erewrite bind_Ok by (by apply acquire_ok).
  erewrite bind_Ok by (by apply getp_ok). rewrite Hpid.
  erewrite bind_Ok by (by eapply modp_ok). unfold kill_entry.
  case_bool_decide; simpl.
  - erewrite bind_Ok by (eapply modp_ok; by eapply list_insert_lookup_same).
    erewrite bind_Ok by (by apply (release_ok _ (held s))).
    unfold ret, upd_field. simpl. by rewrite list_insert_insert_eq.
  - unfold bind at 1, ret; simpl.
    erewrite bind_Ok by (by apply (release_ok _ (held s))). done.
Qed.

Lemma kill_eq pid s :
  length (procs s) = NPROC -> (forall i, plock i ∉ held s) ->
  kill pid s =
    match find_idx (fun p => p_pid p =? pid) (procs s) with
    | None => Ok (-1) s
    | Some (i, p) => Ok 0 (s.[procs := <[i := kill_entry p]> (procs s)])
    end.
Proof.
  intros Hlen Hno. unfold kill, bind at 1.
  rewrite (mloop_find (fun p => p_pid p =? pid)); [|intros i q Hq Hpid; by apply (kill_body_miss pid s i q)|done].
  unfold find_idx. rewrite drop_0.
  destruct (find_from _ (procs s) 0) as [[i q]|] eqn:Hf; [|done].
  apply find_idx_Some in Hf as (Hq & Hpid & _).
  unfold bindO. by rewrite (kill_body_hit pid s i q).
Qed.

(** [sleep] gives up the lock and the CPU in one step: when it reaches the
    scheduler the process is SLEEPING on [ch], [lk] is free and the only
    lock held is its own. *)
Definition sleep_tail (p : nat) (lk : kptr) : M (Kst R) unit :=
  modp p (fun q => q.[p_chan := None]);;; release (plock p);;; acquire lk.

Lemma sleep_eq (ch lk : kptr) s i p :
  cproc s = Some i -> procs s !! i = Some p -> held s = [lk] -> lk <> plock i ->
  sleep ch lk s =
    Switched (s.[held := [plock i]]
               .[procs := <[i := p.[p_chan := Some ch].[p_state := SLEEPING]]> (procs s)])
      (sleep_tail i lk).
Proof.
  intros Hc Hp Hh Hne. unfold sleep.
  erewrite bind_Ok by (by apply curproc_ok).
  erewrite bind_Ok by (apply acquire_ok; rewrite Hh, list_elem_of_singleton; congruence).
  erewrite bind_Ok by (eapply release_second; [simpl; by rewrite Hh|done|apply not_elem_of_nil]).
  erewrite bind_Ok by (eapply modp_ok; exact Hp).
  erewrite bind_Ok by (eapply modp_ok; by eapply list_insert_lookup_same).
  assert (Hs : forall s', held s' = [plock i] -> cproc s' = Some i ->
    procs s' !! i = Some (p.[p_chan := Some ch].[p_state := SLEEPING]) ->
    (sched;;; sleep_tail i lk) s' = Switched s' (sleep_tail i lk)).
  { intros s' H1 H2 H3. unfold bind at 1, sched. erewrite bind_Ok by (by apply curproc_ok).
    unfold bind at 1, holding, gets; simpl. rewrite H1, bool_decide_true by apply list_elem_of_here.
    simpl. unfold bind at 1; simpl. rewrite H1. simpl.
    erewrite bind_Ok by (apply getp_ok; exact H3). by rewrite bool_decide_false. }
  change ((sched;;; sleep_tail i lk) (s.[held := [plock i]]
     .[procs := <[i:=p.[p_chan := Some ch]]> (procs s)]
     .[procs := <[i:=p.[p_chan := Some ch].[p_state := SLEEPING]]>
                  (<[i:=p.[p_chan := Some ch]]> (procs s))]) =
   Switched (s.[held := [plock i]]
               .[procs := <[i := p.[p_chan := Some ch].[p_state := SLEEPING]]> (procs s)])
      (sleep_tail i lk)).
  rewrite Hs; [|done|done|by eapply list_insert_lookup_same, list_insert_lookup_same].
  unfold upd_field; simpl. by rewrite list_insert_insert_eq.
Qed.

(** Calling [sleep] with a second spinlock held is caught by [sched]. *)
Lemma sleep_locks_panic (ch lk l : kptr) h s i p :
  cproc s = Some i -> procs s !! i = Some p -> held s = lk :: l :: h ->
  plock i ∉ held s -> lk ∉ l :: h ->
  sleep ch lk s = Panic "sched locks".
Proof.
  intros Hc Hp Hh Hi Hlk. unfold sleep.
  erewrite bind_Ok by (by apply curproc_ok).
  erewrite bind_Ok by (by apply acquire_ok).
  erewrite bind_Ok by (eapply release_second;
    [simpl; by rewrite Hh|intros <-; apply Hi; rewrite Hh; apply list_elem_of_here|done]).
  erewrite bind_Ok by (eapply modp_ok; exact Hp).
  erewrite bind_Ok by (eapply modp_ok; by eapply list_insert_lookup_same).
  apply bind_Panic. unfold sched. erewrite bind_Ok by (by apply curproc_ok).
  unfold bind at 1, holding, gets; simpl. rewrite bool_decide_true by apply list_elem_of_here. simpl.
  done.
Qed.
End sched_theorems.
