(* ===== verification/Spinlock.v ===== *)
(** Spinlocks on a multiprocessor (kernel/spinlock.c).

    Every memory access of [acquire] and [release] that another CPU can see is
    a step of its own; the CPUs interleave freely.  A ghost list per CPU
    records the locks it has obtained by its atomic swap and not yet given
    back.  The theorems show that this list is what the rest of the
    development may use in place of the lock words ([held] of [Sched]). *)

From S2P Require Import Prelude CInt Machine Sched.

(** ** State *)

(** [struct spinlock]; [lk_cpu] is the index of the holding CPU. *)
Record spinlock := SpinLock { locked : Z; lk_name : string; lk_cpu : option nat }.
#[export] Instance eta_spinlock : Eta spinlock := fun l =>
  SpinLock (locked l) (lk_name l) (lk_cpu l).

(** Where a CPU is in [acquire] or [release]: [Run] is any other code. *)
Inductive pc :=
| Run
| AcqPush (l : kptr)      (* about to call push_off *)
| AcqHolding1 (l : kptr)  (* holding: about to load lk->locked *)
| AcqHolding2 (l : kptr)  (* holding: about to load lk->cpu *)
| AcqSwap (l : kptr)      (* about to swap 1 into lk->locked *)
| AcqOwn (l : kptr)       (* about to store lk->cpu = mycpu() *)
| RelHolding1 (l : kptr)
| RelHolding2 (l : kptr)
| RelDisown (l : kptr)    (* about to store lk->cpu = 0 *)
| RelSwap (l : kptr)      (* about to store lk->locked = 0 *)
| RelPop (l : kptr)       (* about to call pop_off *)
| Panicked (msg : string).

(** The fields of [struct cpu] that spinlocks use, the SIE bit of the hart's
    sstatus register, the program point and the ghost list of locks. *)
Record cpu := Cpu {
  noff : Z;
  intena : bool;
  sie : bool;
  at_pc : pc;
  owned : list kptr;
}.
#[export] Instance eta_cpu : Eta cpu := fun c =>
  Cpu (noff c) (intena c) (sie c) (at_pc c) (owned c).

Record mstate := MState { cpus : list cpu; lockmem : kptr -> spinlock }.
#[export] Instance eta_mstate : Eta mstate := fun s => MState (cpus s) (lockmem s).

Definition set_cpu (i : nat) (c : cpu) (s : mstate) : mstate :=
  s.[cpus := <[i := c]> (cpus s)].
Definition set_lock (l : kptr) (v : spinlock) (s : mstate) : mstate :=
  s.[lockmem := fun k => if decide (k = l) then v else lockmem s k].

(** ** kernel/spinlock.c *)

Definition initlock (l : kptr) (name : string) (s : mstate) : mstate :=
  set_lock l (SpinLock 0 name None) s.

Definition push_off (c : cpu) : cpu :=
  let old := sie c in
  let c := c.[sie := false] in
  let c := if noff c =? 0 then c.[intena := old] else c in
  c.[noff := noff c + 1].

Definition pop_off (c : cpu) : cpu :=
  if sie c then c.[at_pc := Panicked "pop_off - interruptible"] else
  if noff c <? 1 then c.[at_pc := Panicked "pop_off"] else
  let c := c.[noff := noff c - 1] in
  if (noff c =? 0) && intena c then c.[sie := true] else c.

(** [holding], when nothing else runs in between. *)
Definition holding (i : nat) (l : kptr) (s : mstate) : bool :=
  negb (locked (lockmem s l) =? 0) && bool_decide (lk_cpu (lockmem s l) = Some i).

(** The next step of a CPU inside [acquire] or [release]. *)
Definition lock_step (i : nat) (c : cpu) (s : mstate) : mstate :=
  match at_pc c with
  | AcqPush l => set_cpu i ((push_off c).[at_pc := AcqHolding1 l]) s
  | AcqHolding1 l =>
      set_cpu i (c.[at_pc := if locked (lockmem s l) =? 0 then AcqSwap l else AcqHolding2 l]) s
  | AcqHolding2 l =>
      set_cpu i (c.[at_pc := if bool_decide (lk_cpu (lockmem s l) = Some i)
                             then Panicked "acquire" else AcqSwap l]) s
  | AcqSwap l =>
      (* __sync_lock_test_and_set(&lk->locked, 1) *)
      let s' := set_lock l ((lockmem s l).[locked := 1]) s in
      if locked (lockmem s l) =? 0
      then set_cpu i (c.[at_pc := AcqOwn l].[owned := l :: owned c]) s'
      else s'
  | AcqOwn l =>
      set_cpu i (c.[at_pc := Run]) (set_lock l ((lockmem s l).[lk_cpu := Some i]) s)
  | RelHolding1 l =>
      set_cpu i (c.[at_pc := if locked (lockmem s l) =? 0
                             then Panicked "release" else RelHolding2 l]) s
  | RelHolding2 l =>
      set_cpu i (c.[at_pc := if bool_decide (lk_cpu (lockmem s l) = Some i)
                             then RelDisown l else Panicked "release"]) s
  | RelDisown l =>
      set_cpu i (c.[at_pc := RelSwap l]) (set_lock l ((lockmem s l).[lk_cpu := None]) s)
  | RelSwap l =>
      set_cpu i (c.[at_pc := RelPop l].[owned := list_difference (owned c) [l]])
        (set_lock l ((lockmem s l).[locked := 0]) s)
  | RelPop l => set_cpu i (pop_off (c.[at_pc := Run])) s
  | Run | Panicked _ => s
  end.

(** One step of the machine: CPU [i] goes on inside a lock routine, calls one,
    or (outside of every lock routine, with no push_off pending) sets SIE. *)
Inductive step : mstate -> mstate -> Prop :=
| step_lock i c s : cpus s !! i = Some c -> step s (lock_step i c s)
| step_acquire i c l s :
    cpus s !! i = Some c -> at_pc c = Run -> step s (set_cpu i (c.[at_pc := AcqPush l]) s)
| step_release i c l s :
    cpus s !! i = Some c -> at_pc c = Run -> step s (set_cpu i (c.[at_pc := RelHolding1 l]) s)
| step_intr i c b s :
    cpus s !! i = Some c -> at_pc c = Run -> noff c = 0 -> step s (set_cpu i (c.[sie := b]) s).

Definition cpu_init : cpu := Cpu 0 false false Run [].
Definition initial (s : mstate) : Prop :=
  (forall i c, cpus s !! i = Some c -> c = cpu_init) /\
  (forall l, locked (lockmem s l) = 0 /\ lk_cpu (lockmem s l) = None).

Definition reachable (s : mstate) : Prop := exists s0, initial s0 /\ rtc step s0 s.

(** ** The invariant *)

(** push_offs not accounted for by an owned lock. *)
Definition extra (p : pc) : Z :=
  match p with
  | AcqHolding1 _ | AcqHolding2 _ | AcqSwap _ | RelPop _ => 1
  | _ => 0
  end.

(** The CPU that [lk->cpu] must name. *)
Definition named (c : cpu) (l : kptr) : Prop :=
  l ∈ owned c /\ at_pc c <> AcqOwn l /\ at_pc c <> RelSwap l.

Definition panicking (p : pc) : Prop := match p with Panicked _ => True | _ => False end.
#[export] Instance panicking_dec p : Decision (panicking p).
Proof. destruct p; apply _. Defined.

Record cpu_ok (c : cpu) : Prop := {
  co_noff : ~ panicking (at_pc c) -> noff c = Z.of_nat (length (owned c)) + extra (at_pc c);
  co_sie : 0 < noff c -> sie c = false;
  co_nodup : NoDup (owned c);
  co_acq : forall l, at_pc c = AcqSwap l -> l ∉ owned c;
  co_own : forall l, at_pc c = AcqOwn l -> l ∈ owned c;
  co_rel : forall l, at_pc c = RelDisown l \/ at_pc c = RelSwap l -> l ∈ owned c;
}.

Record lock_ok (s : mstate) (l : kptr) : Prop := {
  lo_locked : locked (lockmem s l) = 0 <-> forall i c, cpus s !! i = Some c -> l ∉ owned c;
  lo_excl : forall i j c d, cpus s !! i = Some c -> cpus s !! j = Some d ->
    l ∈ owned c -> l ∈ owned d -> i = j;
  lo_cpu : forall i c, cpus s !! i = Some c -> (lk_cpu (lockmem s l) = Some i <-> named c l);
}.

Definition inv (s : mstate) : Prop :=
  (forall i c, cpus s !! i = Some c -> cpu_ok c) /\ (forall l, lock_ok s l).

(** ** Preservation *)

Lemma lookup_set_cpu i c s j d :
  cpus (set_cpu i c s) !! j = Some d <-> (j = i /\ d = c /\ is_Some (cpus s !! i)) \/ (j <> i /\ cpus s !! j = Some d).
Proof.
  unfold set_cpu, upd_field; simpl. rewrite list_lookup_insert.
  destruct (decide (i = j)) as [->|Hne].
  - destruct (decide (j < length (cpus s))%nat) as [Hlt|Hge].
    + rewrite decide_True by done. apply lookup_lt_is_Some in Hlt. naive_solver.
    + rewrite decide_False by naive_solver.
      rewrite (proj2 (lookup_ge_None _ _)) by lia. rewrite is_Some_alt. naive_solver.
  - rewrite decide_False by naive_solver. naive_solver.
Qed.

Lemma lockmem_set_lock l v s k :
  lockmem (set_lock l v s) k = if decide (k = l) then v else lockmem s k.
Proof. done. Qed.

Lemma lockmem_set_cpu i c s : lockmem (set_cpu i c s) = lockmem s.
Proof. done. Qed.

Lemma cpus_set_lock l v s : cpus (set_lock l v s) = cpus s.
Proof. done. Qed.

Section preserve.
Context (s : mstate) (i : nat) (c : cpu) (Hinv : inv s) (Hc : cpus s !! i = Some c).

Lemma inv_update c' s' :
  cpus s' = cpus s -> cpu_ok c' -> (forall l, lock_ok (set_cpu i c' s') l) -> inv (set_cpu i c' s').
Proof.
  intros Hs Hok Hl. split; [|done]. intros j d. rewrite lookup_set_cpu, Hs.
  intros [(-> & -> & _)|(_ & Hj)]; [done|]. by apply (proj1 Hinv j).
Qed.

(** The lock word of [k], the ownership of [k] and its name do not change. *)
Lemma lock_ok_same c' s' k :
  cpus s' = cpus s -> lockmem s' k = lockmem s k ->
  (k ∈ owned c' <-> k ∈ owned c) -> (named c' k <-> named c k) ->
  lock_ok (set_cpu i c' s') k.
Proof.
  intros Hs Hm Ho Hn. destruct (proj2 Hinv k) as [H1 H2 H3].
  assert (Hlk : forall j d, cpus (set_cpu i c' s') !! j = Some d ->
            exists d0, cpus s !! j = Some d0 /\ (k ∈ owned d <-> k ∈ owned d0) /\
                       (named d k <-> named d0 k)).
  { intros j d. rewrite lookup_set_cpu, Hs. intros [(-> & -> & _)|(_ & Hj)]; [by exists c|by exists d]. }
  assert (Hlk' : forall j d0, cpus s !! j = Some d0 -> exists d, cpus (set_cpu i c' s') !! j = Some d /\
            (k ∈ owned d <-> k ∈ owned d0)).
  { intros j d0 Hj. destruct (decide (j = i)) as [->|].
    - exists c'. rewrite lookup_set_cpu, Hs. simplify_eq. split; [left; eauto|done].
    - exists d0. rewrite lookup_set_cpu, Hs. split; [by right|done]. }
  change (lockmem (set_cpu i c' s')) with (lockmem s'). split; rewrite ?Hm.
  - change (lockmem (set_cpu i c' s')) with (lockmem s'). rewrite Hm, H1. split.
    + intros Hno j d Hj. destruct (Hlk j d Hj) as (d0 & Hj0 & -> & _). by apply (Hno j).
    + intros Hno j d0 Hj. destruct (Hlk' j d0 Hj) as (d & Hj' & <-). by apply (Hno j).
  - intros j j' d d' Hj Hj' Hd Hd'.
    destruct (Hlk j d Hj) as (d0 & Hj0 & E & _). destruct (Hlk j' d' Hj') as (d0' & Hj0' & E' & _).
    apply (H2 j j' d0 d0'); naive_solver.
  - intros j d Hj. change (lockmem (set_cpu i c' s')) with (lockmem s'). rewrite Hm.
    destruct (Hlk j d Hj) as (d0 & Hj0 & _ & ->). by apply H3.
Qed.

(** Steps that only move this CPU's program point, push_off depth or SIE. *)
Lemma inv_local c' :
  cpu_ok c' -> owned c' = owned c -> (forall l, named c' l <-> named c l) -> inv (set_cpu i c' s).
Proof.
  intros Hok Ho Hn. apply inv_update; [done|done|]. intros k. apply lock_ok_same; auto. by rewrite Ho.
Qed.

Lemma free_not_owned l : locked (lockmem s l) = 0 -> l ∉ owned c.
Proof. intros H. destruct (proj2 Hinv l) as [H1 _ _]. by eapply H1. Qed.

Lemma named_iff l : lk_cpu (lockmem s l) = Some i <-> named c l.
Proof. destruct (proj2 Hinv l) as [_ _ H]. by apply H. Qed.

(** The successful swap of [acquire]. *)
Lemma inv_swap l :
  at_pc c = AcqSwap l -> locked (lockmem s l) = 0 ->
  inv (set_cpu i (c.[at_pc := AcqOwn l].[owned := l :: owned c])
        (set_lock l ((lockmem s l).[locked := 1]) s)).
Proof.
  intros Hpc Hz. destruct (proj1 Hinv i c Hc) as [Hn Hs Hd _ _ _].
  pose proof (free_not_owned l Hz) as Hfree. rewrite Hpc in Hn. specialize (Hn (fun f => f)).
  apply inv_update; [done| |].
  - split; simpl; rsimpl_goal; try naive_solver.
    + intros _. rewrite Hn. simpl. lia.
    + by constructor.
    + intros k [= <-]. apply list_elem_of_here.
  - intros k. destruct (decide (k = l)) as [->|Hkl].
    + destruct (proj2 Hinv l) as [H1 H2 H3].
      assert (Hnone : forall j d, cpus s !! j = Some d -> l ∉ owned d) by by apply H1.
      split.
      * split; [|intros Hno; exfalso].
        -- rewrite lockmem_set_cpu, lockmem_set_lock, decide_True by done. done.
        -- apply (Hno i (c.[at_pc := AcqOwn l].[owned := l :: owned c]));
             [|apply list_elem_of_here]. apply lookup_set_cpu. left. rewrite cpus_set_lock. eauto.
      * intros j j' d d'. rewrite !lookup_set_cpu, cpus_set_lock.
        intros [(-> & -> & _)|(_ & Hj)] [(-> & -> & _)|(_ & Hj')] Hd1 Hd2; try done; exfalso;
          naive_solver.
      * intros j d. rewrite lookup_set_cpu, cpus_set_lock.
        rewrite lockmem_set_cpu, lockmem_set_lock, decide_True by done. rsimpl_goal.
        intros [(-> & -> & _)|(_ & Hj)].
        -- rewrite named_iff. unfold named. simpl. naive_solver.
        -- by apply H3.
    + apply lock_ok_same; try done.
      * rewrite lockmem_set_lock. by rewrite decide_False.
      * rsimpl_goal. rewrite elem_of_cons. naive_solver.
      * unfold named. rsimpl_goal. rewrite elem_of_cons, Hpc. naive_solver.
Qed.

Lemma inv_own l :
  at_pc c = AcqOwn l ->
  inv (set_cpu i (c.[at_pc := Run]) (set_lock l ((lockmem s l).[lk_cpu := Some i]) s)).
Proof.
  intros Hpc. destruct (proj1 Hinv i c Hc) as [Hn Hs Hd _ Hown _].
  specialize (Hown l Hpc). rewrite Hpc in Hn. specialize (Hn (fun f => f)).
  apply inv_update; [done| |].
  - split; simpl; rsimpl_goal; naive_solver.
  - intros k. destruct (decide (k = l)) as [->|Hkl].
    + destruct (proj2 Hinv l) as [H1 H2 H3].
      set (c' := c.[at_pc := Run]).
      assert (Hset : forall j d, cpus (set_cpu i c' (set_lock l ((lockmem s l).[lk_cpu := Some i]) s)) !! j = Some d ->
                exists d0, cpus s !! j = Some d0 /\ owned d0 = owned d /\ (j = i -> d = c') /\ (j <> i -> d = d0)).
      { intros j d. rewrite lookup_set_cpu, cpus_set_lock. intros [(-> & -> & _)|(? & Hj)]; [by exists c|by exists d]. }
      split.
      * rewrite lockmem_set_cpu, lockmem_set_lock, decide_True by done. rsimpl_goal. rewrite H1. split.
        -- intros Hno j d Hj. destruct (Hset j d Hj) as (d0 & Hj0 & <- & _). by apply (Hno j).
        -- intros Hno. exfalso. apply (Hno i c'); [|done]. apply lookup_set_cpu. left. eauto.
      * intros j j' d d' Hj Hj' Hd1 Hd2. destruct (Hset j d Hj) as (d0 & Hj0 & E & _).
        destruct (Hset j' d' Hj') as (d0' & Hj0' & E' & _). rewrite <- E in Hd1. rewrite <- E' in Hd2.
        by apply (H2 j j' d0 d0').
      * intros j d Hj. rewrite lockmem_set_cpu, lockmem_set_lock, decide_True by done. rsimpl_goal.
        destruct (Hset j d Hj) as (d0 & Hj0 & E & Hji & Hjn). split.
        -- intros [= <-]. rewrite Hji by done. unfold named, c'. rsimpl_goal. done.
        -- intros [Hin _]. rewrite <- E in Hin. f_equal. by apply (H2 i j c d0).
    + apply lock_ok_same; try done.
      * rewrite lockmem_set_lock. by rewrite decide_False.
      * unfold named. rsimpl_goal. rewrite Hpc. naive_solver.
Qed.

Lemma inv_disown l :
  at_pc c = RelDisown l ->
  inv (set_cpu i (c.[at_pc := RelSwap l]) (set_lock l ((lockmem s l).[lk_cpu := None]) s)).
Proof.
  intros Hpc. destruct (proj1 Hinv i c Hc) as [Hn Hs Hd _ _ Hrel].
  pose proof (Hrel l (or_introl Hpc)) as Hown. rewrite Hpc in Hn. specialize (Hn (fun f => f)).
  apply inv_update; [done| |].
  - split; simpl; rsimpl_goal; naive_solver.
  - intros k. destruct (decide (k = l)) as [->|Hkl].
    + destruct (proj2 Hinv l) as [H1 H2 H3].
      set (c' := c.[at_pc := RelSwap l]).
      assert (Hset : forall j d, cpus (set_cpu i c' (set_lock l ((lockmem s l).[lk_cpu := None]) s)) !! j = Some d ->
                exists d0, cpus s !! j = Some d0 /\ owned d0 = owned d /\ (j = i -> d = c')).
      { intros j d. rewrite lookup_set_cpu, cpus_set_lock. intros [(-> & -> & _)|(? & Hj)]; [by exists c|by exists d]. }
      split.
      * rewrite lockmem_set_cpu, lockmem_set_lock, decide_True by done. rsimpl_goal. rewrite H1. split.
        -- intros Hno j d Hj. destruct (Hset j d Hj) as (d0 & Hj0 & <- & _). by apply (Hno j).
        -- intros Hno. exfalso. apply (Hno i c'); [|done]. apply lookup_set_cpu. left. eauto.
      * intros j j' d d' Hj Hj' Hd1 Hd2. destruct (Hset j d Hj) as (d0 & Hj0 & E & _).
        destruct (Hset j' d' Hj') as (d0' & Hj0' & E' & _). rewrite <- E in Hd1. rewrite <- E' in Hd2.
        by apply (H2 j j' d0 d0').
      * intros j d Hj. rewrite lockmem_set_cpu, lockmem_set_lock, decide_True by done. rsimpl_goal.
        destruct (Hset j d Hj) as (d0 & Hj0 & E & Hji). split; [done|].
        intros (Hin & _ & Hpc'). rewrite <- E in Hin. exfalso. apply Hpc'.
        rewrite Hji; [done|]. symmetry. by apply (H2 i j c d0).
    + apply lock_ok_same; try done.
      * rewrite lockmem_set_lock. by rewrite decide_False.
      * unfold named. rsimpl_goal. rewrite Hpc. naive_solver.
Qed.

Lemma length_remove_one (h : list kptr) l :
  NoDup h -> l ∈ h -> length h = S (length (list_difference h [l])).
Proof.
  induction h as [|x h IH]; intros Hd Hl; [by apply elem_of_nil in Hl|].
  apply NoDup_cons in Hd as [Hx Hd]. simpl. case_decide as Hin; rewrite list_elem_of_singleton in Hin.
  - subst. by rewrite list_difference_nin.
  - simpl. f_equal. apply elem_of_cons in Hl as [->|Hl]; [done|]. by apply IH.
Qed.

Lemma inv_relswap l :
  at_pc c = RelSwap l ->
  inv (set_cpu i (c.[at_pc := RelPop l].[owned := list_difference (owned c) [l]])
        (set_lock l ((lockmem s l).[locked := 0]) s)).
Proof.
  intros Hpc. destruct (proj1 Hinv i c Hc) as [Hn Hs Hd _ _ Hrel].
  pose proof (Hrel l (or_intror Hpc)) as Hown. rewrite Hpc in Hn. specialize (Hn (fun f => f)).
  apply inv_update; [done| |].
  - split; simpl; rsimpl_goal; try naive_solver.
    + intros _. rewrite Hn, (length_remove_one (owned c) l) by done. simpl. lia.
    + by apply NoDup_list_difference.
  - intros k. destruct (decide (k = l)) as [->|Hkl].
    + destruct (proj2 Hinv l) as [H1 H2 H3].
      set (c' := c.[at_pc := RelPop l].[owned := list_difference (owned c) [l]]).
      assert (Hset : forall j d, cpus (set_cpu i c' (set_lock l ((lockmem s l).[locked := 0]) s)) !! j = Some d ->
                l ∉ owned d).
      { intros j d. rewrite lookup_set_cpu, cpus_set_lock. intros [(-> & -> & _)|(Hne & Hj)] Hin.
        - unfold c' in Hin. rsimpl. apply list_elem_of_difference in Hin. set_solver.
        - apply Hne. by apply (H2 j i d c). }
      split.
      * rewrite lockmem_set_cpu, lockmem_set_lock, decide_True by done. done.
      * intros j j' d d' Hj Hj' Hd1. by apply Hset in Hj.
      * intros j d Hj. rewrite lockmem_set_cpu, lockmem_set_lock, decide_True by done. rsimpl_goal.
        pose proof (Hset j d Hj) as Hno. split; [|by intros [? _]].
        intros Hcpu. exfalso. revert Hj. rewrite lookup_set_cpu, cpus_set_lock.
        intros [(-> & -> & _)|(Hne & Hj)].
        -- apply named_iff in Hcpu as (_ & _ & Hp). by apply Hp.
        -- apply (H3 j d Hj) in Hcpu as [? _]. done.
    + apply lock_ok_same; try done.
      * rewrite lockmem_set_lock. by rewrite decide_False.
      * rsimpl_goal. rewrite list_elem_of_difference. set_solver.
      * unfold named. rsimpl_goal. rewrite list_elem_of_difference, Hpc. set_solver.
Qed.

(** A failed swap stores the 1 that is already there. *)
Lemma inv_failed_swap l :
  locked (lockmem s l) <> 0 -> inv (set_lock l ((lockmem s l).[locked := 1]) s).
Proof.
  intros Hz. split; [exact (proj1 Hinv)|]. intros k. destruct (proj2 Hinv k) as [H1 H2 H3].
  split; [|done|].
  - rewrite lockmem_set_lock, cpus_set_lock. case_decide as Hk; [|done]. subst. rsimpl_goal.
    rewrite <- H1. lia.
  - intros j d Hj. rewrite lockmem_set_lock, cpus_set_lock in *. case_decide as Hk; [|by apply H3].
    subst. by apply H3.
Qed.

Lemma named_pc p l :
  at_pc c <> AcqOwn l -> at_pc c <> RelSwap l -> p <> AcqOwn l -> p <> RelSwap l ->
  named (c.[at_pc := p]) l <-> named c l.
Proof. unfold named. rsimpl_goal. naive_solver. Qed.

(** Moving to a program point with the same push_off account. *)
Lemma inv_goto p :
  ~ panicking (at_pc c) -> (panicking p \/ extra p = extra (at_pc c)) ->
  (forall l, at_pc c <> AcqOwn l /\ at_pc c <> RelSwap l /\ p <> AcqOwn l /\ p <> RelSwap l) ->
  (forall l, p = AcqSwap l -> l ∉ owned c) -> (forall l, p = RelDisown l -> l ∈ owned c) ->
  inv (set_cpu i (c.[at_pc := p]) s).
Proof.
  intros Hnp He Hpc Ha Hr. destruct (proj1 Hinv i c Hc) as [Hn Hs Hd _ _ _].
  apply inv_local; [|done|intros l; destruct (Hpc l) as (?&?&?&?); by apply named_pc].
  split; rsimpl_goal; try done.
  - intros Hp. destruct He as [He|He]; [done|]. rewrite Hn, He by done. done.
  - intros l ->. by destruct (Hpc l) as (_&_&?&_).
  - intros l [->| ->]; [by apply Hr|]. by destruct (Hpc l) as (_&_&_&?).
Qed.

Lemma inv_push l : at_pc c = AcqPush l -> inv (set_cpu i ((push_off c).[at_pc := AcqHolding1 l]) s).
Proof.
  intros Hpc. destruct (proj1 Hinv i c Hc) as [Hn Hs Hd _ _ _]. rewrite Hpc in Hn.
  specialize (Hn (fun f => f)). simpl in Hn. unfold push_off. rsimpl_goal.
  apply inv_local.
  - split; rsimpl_goal; destruct (noff c =? 0); simpl; rewrite ?Hn; try done; try lia; naive_solver.
  - by destruct (noff c =? 0).
  - intros k. unfold named. destruct (noff c =? 0); rsimpl_goal; rewrite Hpc; naive_solver.
Qed.

Lemma inv_pop l : at_pc c = RelPop l -> inv (set_cpu i (pop_off (c.[at_pc := Run])) s).
Proof.
  intros Hpc. destruct (proj1 Hinv i c Hc) as [Hn Hs Hd _ _ _]. rewrite Hpc in Hn.
  specialize (Hn (fun f => f)). simpl in Hn. unfold pop_off. rsimpl_goal.
  rewrite Hs by lia. replace (noff c <? 1) with false by lia.
  apply inv_local.
  - destruct ((noff c - 1 =? 0) && intena c) eqn:Hb; split; rsimpl_goal;
      try (intros; lia); try (intros H; apply Hs; lia); naive_solver.
  - by destruct ((noff c - 1 =? 0) && intena c).
  - intros k. unfold named. destruct ((noff c - 1 =? 0) && intena c); rsimpl_goal; rewrite Hpc; naive_solver.
Qed.

Lemma inv_lock_step : inv (lock_step i c s).
Proof.
  unfold lock_step. destruct (at_pc c) as [|l|l|l|l|l|l|l|l|l|l|msg] eqn:Hpc; [done|..|done].
  - by apply inv_push.
  - apply inv_goto; rewrite ?Hpc; simpl; [tauto| |intros k; split_and!; repeat case_match; done| |].
    + right. by destruct (_ =? _).
    + intros k. case_match eqn:Hz; [|done]. intros [= <-]. apply free_not_owned. lia.
    + intros k. by case_match.
  - pose proof (named_iff l) as Hnm.
    apply inv_goto; rewrite ?Hpc; simpl; [tauto| |intros k; split_and!; repeat case_bool_decide; done| |].
    + case_bool_decide; [by left|by right].
    + intros k. case_bool_decide as Hz; [done|]. intros [= <-] Hin. apply Hz, Hnm. split; [done|].
      by rewrite Hpc.
    + intros k. by case_bool_decide.
  - destruct (_ =? _) eqn:Hz; [apply inv_swap; [done|lia]|apply inv_failed_swap; lia].
  - by apply inv_own.
  - apply inv_goto; rewrite ?Hpc; simpl; [tauto| |intros k; split_and!; repeat case_match; done| |].
    + destruct (_ =? _); [by left|by right].
    + intros k. by case_match.
    + intros k. by case_match.
  - pose proof (named_iff l) as Hnm.
    apply inv_goto; rewrite ?Hpc; simpl; [tauto| |intros k; split_and!; repeat case_bool_decide; done| |].
    + case_bool_decide; [by right|by left].
    + intros k. by case_bool_decide.
    + intros k. case_bool_decide as Hz; [|done]. intros [= <-]. by apply Hnm in Hz as [? _].
  - by apply inv_disown.
  - by apply inv_relswap.
  - by eapply inv_pop.
Qed.

Lemma inv_intr b : at_pc c = Run -> noff c = 0 -> inv (set_cpu i (c.[sie := b]) s).
Proof.
  intros Hpc Hz. destruct (proj1 Hinv i c Hc) as [Hn Hs Hd Ha Ho Hr]. apply inv_local; try done.
  split; rsimpl_goal; try done. lia.
Qed.
End preserve.

Lemma inv_step s s' : inv s -> step s s' -> inv s'.
Proof.
  intros Hinv Hst. destruct Hst as [i c s Hc|i c l s Hc Hpc|i c l s Hc Hpc|i c b s Hc Hpc Hz].
  - by apply inv_lock_step.
  - apply inv_goto; rewrite ?Hpc; auto; done.
  - apply inv_goto; rewrite ?Hpc; auto; done.
  - by apply inv_intr.
Qed.

Lemma inv_initial s : initial s -> inv s.
Proof.
  intros [Hc Hl]. split.
  - intros i c Hi. rewrite (Hc i c Hi). split; simpl; try done; [constructor|naive_solver].
  - intros l. destruct (Hl l) as [Hz Hn]. split.
    + rewrite Hz. split; [|done]. intros _ i c Hi. rewrite (Hc i c Hi). apply not_elem_of_nil.
    + intros i j c d Hi Hj. rewrite (Hc i c Hi). intros Hin. by apply elem_of_nil in Hin.
    + intros i c Hi. rewrite Hn, (Hc i c Hi). split; [done|]. intros [Hin _]. by apply elem_of_nil in Hin.
Qed.

Lemma inv_reachable s : reachable s -> inv s.
Proof.
  intros (s0 & H0 & Hst). apply inv_initial in H0. induction Hst as [|x y z Hxy _ IH]; [done|].
  apply IH. by eapply inv_step.
Qed.

(** ** Theorems *)

(** C10: no two CPUs are ever inside the critical section of the same lock,
    whatever the interleaving of their [acquire]s and [release]s; while a CPU
    is inside one its lock word is set and its interrupts are off, and
    outside of every lock routine [holding] answers exactly whether this CPU
    has the lock and [noff] counts the locks it has. *)
Theorem spinlock_mutual_exclusion s i j c d l :
  reachable s -> cpus s !! i = Some c -> cpus s !! j = Some d ->
  l ∈ owned c -> l ∈ owned d ->
  i = j /\ locked (lockmem s l) <> 0 /\
  (~ panicking (at_pc c) -> sie c = false) /\
  (at_pc c = Run -> noff c = Z.of_nat (length (owned c)) /\
                    forall k, holding i k s = bool_decide (k ∈ owned c)).
Proof.
  intros Hr Hc Hd Hlc Hld. apply inv_reachable in Hr as Hinv.
  destruct (proj2 Hinv l) as [H1 H2 _]. destruct (proj1 Hinv i c Hc) as [Hn Hs _ _ _ _].
  split; [by apply (H2 i j c d)|]. split; [intros Hz; by apply (proj1 H1 Hz i c)|].
  assert (Hlen : 0 < Z.of_nat (length (owned c))) by (destruct (owned c); [by apply elem_of_nil in Hlc|simpl; lia]).
  split.
  - intros Hp. apply Hs. rewrite Hn by done. destruct (at_pc c); simpl; lia.
  - intros Hp. split; [rewrite Hn, Hp by (rewrite Hp; exact (fun f => f)); simpl; lia|].
    intros k. unfold holding. pose proof (named_iff s i c Hinv Hc k) as Hnm. unfold named in Hnm.
    rewrite Hp in Hnm. destruct (decide (lk_cpu (lockmem s k) = Some i)) as [Hcpu|Hcpu];
      [rewrite (bool_decide_true _ Hcpu)|rewrite (bool_decide_false _ Hcpu)].
    + destruct (proj1 Hnm Hcpu) as [Hk _]. rewrite bool_decide_true by done.
      destruct (proj2 Hinv k) as [K1 _ _].
      destruct (locked (lockmem s k) =? 0) eqn:Hz; [|done].
      exfalso. by apply (proj1 K1 ltac:(lia) i c).
    + rewrite andb_false_r. symmetry. apply bool_decide_false. intros Hk. by apply Hcpu, Hnm.
Qed.

(** A kernel thread that holds the locks [h]. *)
Definition kst_of (h : list kptr) : Kst unit := KSt h None [] 0 None 0 tt.

(** C11: the interleaved implementation refines the sequential locks of
    [Sched]: the successful swap of [acquire] and the clearing store of
    [release] change the CPU's list of locks as the sequential operations do,
    [acquire] and [release] panic only where those panic, no other step
    changes the list or panics ([pop_off] in particular), and no step touches
    another CPU. *)
Theorem spinlock_refines_held s i c c' :
  reachable s -> cpus s !! i = Some c -> cpus (lock_step i c s) !! i = Some c' ->
  match at_pc c, at_pc c' with
  | AcqSwap l, AcqOwn _ => acquire l (kst_of (owned c)) = Ok tt (kst_of (owned c'))
  | RelSwap l, _ => release l (kst_of (owned c)) = Ok tt (kst_of (owned c'))
  | AcqHolding2 l, Panicked msg => acquire l (kst_of (owned c)) = Panic msg
  | RelHolding1 l, Panicked msg => release l (kst_of (owned c)) = Panic msg
  | RelHolding2 l, Panicked msg => release l (kst_of (owned c)) = Panic msg
  | p, p' => owned c' = owned c /\ (panicking p' -> panicking p)
  end /\
  forall j, j <> i -> cpus (lock_step i c s) !! j = cpus s !! j.
Proof.
  intros Hr Hc Hc'. apply inv_reachable in Hr as Hinv.
  destruct (proj1 Hinv i c Hc) as [Hn Hs Hd Ha Ho Hrl].
  assert (Hoth : forall j, j <> i -> cpus (lock_step i c s) !! j = cpus s !! j).
  { intros j Hj. unfold lock_step. destruct (at_pc c); try done;
      try (unfold set_cpu, upd_field; simpl; by rewrite list_lookup_insert_ne).
    destruct (_ =? 0); [|done]. unfold set_cpu, upd_field; simpl. by rewrite list_lookup_insert_ne. }
  split; [|exact Hoth]. clear Hoth.
  pose proof (named_iff s i c Hinv Hc) as Hnm. pose proof (free_not_owned s i c Hinv Hc) as Hfree.
  unfold lock_step in Hc'. destruct (at_pc c) as [|l|l|l|l|l|l|l|l|l|l|msg] eqn:Hpc.
  1: by simplify_eq; rewrite Hpc.
  all: try (apply lookup_set_cpu in Hc' as [(_ & -> & _)|[? _]]; [rsimpl_goal|done]).
  - by unfold push_off; destruct (noff c =? 0).
  - by destruct (_ =? 0).
  - case_bool_decide as Hcpu; [|done]. apply acquire_again. by apply Hnm in Hcpu as [? _].
  - destruct (locked (lockmem s l) =? 0) eqn:Hz.
    + apply lookup_set_cpu in Hc' as [(_ & -> & _)|[? _]]; [rsimpl_goal|done].
      apply acquire_ok. simpl. apply Hfree. lia.
    + rewrite cpus_set_lock in Hc'. simplify_eq. by rewrite Hpc.
  - done.
  - destruct (locked (lockmem s l) =? 0) eqn:Hz; [|done]. apply release_not_held. apply Hfree. lia.
  - case_bool_decide as Hcpu; [done|]. apply release_not_held. simpl. intros Hin. apply Hcpu, Hnm.
    unfold named. by rewrite Hpc.
  - done.
  - unfold release. by rewrite decide_True by (apply Hrl; by right).
  - simpl in Hn. unfold pop_off. rsimpl_goal. rewrite Hs by (rewrite Hn by tauto; lia).
    replace (noff c <? 1) with false by (rewrite Hn by tauto; lia).
    by destruct (_ && _).
  - simplify_eq. by rewrite Hpc.
Qed.

(** [push_off] and [pop_off] are matched: after [n] of one and [n] of the
    other, in any state with the invariant on SIE, the nesting depth, the SIE
    bit and the program point are what they were, so interrupts come back on
    exactly when they were on. *)
Theorem push_pop_off_matched n c :
  0 <= noff c -> (0 < noff c -> sie c = false) ->
  let c' := Nat.iter n pop_off (Nat.iter n push_off c) in
  noff c' = noff c /\ sie c' = sie c /\ at_pc c' = at_pc c.
Proof.
  intros Hpos Hs.
  assert (Hpush : forall m, let d := Nat.iter (S m) push_off c in
    noff d = noff c + Z.of_nat (S m) /\ sie d = false /\ at_pc d = at_pc c /\
    (noff c = 0 -> intena d = sie c)).
  { induction m as [|m IHm].
    - cbn. unfold push_off. rsimpl_goal. destruct (noff c =? 0) eqn:Hz; simpl; split_and!; try done; lia.
    - change (Nat.iter (S (S m)) push_off c) with (push_off (Nat.iter (S m) push_off c)).
      cbv zeta in IHm |- *. revert IHm. generalize (Nat.iter (S m) push_off c).
      intros d (H1 & H2 & H3 & H4). unfold push_off. rsimpl_goal.
      replace (noff d =? 0) with false by lia. simpl. split_and!; auto. lia. }
  assert (Hpop : forall m d, noff d = noff c + Z.of_nat m -> at_pc d = at_pc c ->
    (m = 0%nat -> sie d = sie c) -> ((0 < m)%nat -> sie d = false) ->
    (noff c = 0 -> (0 < m)%nat -> intena d = sie c) ->
    let c' := Nat.iter m pop_off d in noff c' = noff c /\ sie c' = sie c /\ at_pc c' = at_pc c).
  { induction m as [|m IH]; intros d H1 H2 H3 H4 H5.
    - simpl. split_and!; [lia|by apply H3|done].
    - rewrite Nat.iter_succ_r. apply IH; clear IH; unfold pop_off; rewrite H4 by lia; rsimpl_goal;
        replace (noff d <? 1) with false by lia.
      + destruct (_ && _); simpl; lia.
      + by destruct (_ && _).
      + intros ->. destruct (decide (noff c = 0)) as [Hz|Hz].
        * replace (noff d - 1 =? 0) with true by lia. rewrite H5 by (done || lia).
          destruct (sie c) eqn:E; simpl; [done|]. by apply H4; lia.
        * replace (noff d - 1 =? 0) with false by lia. simpl. rewrite H4, Hs by lia. done.
      + intros Hm. replace (noff d - 1 =? 0) with false by lia. simpl. apply H4. lia.
      + intros Hz Hm. replace (noff d - 1 =? 0) with false by lia. simpl. apply H5; lia. }
  destruct n as [|n]; [done|]. destruct (Hpush n) as (H1 & H2 & H3 & H4).
  apply Hpop; try done. intros Hz _. by apply H4.
Qed.

(** *** Witnesses: one of two CPUs takes a lock *)

Definition demo_lk : kptr := KSym "demo" 0.
Definition demo_ms0 : mstate := MState [cpu_init; cpu_init] (fun _ => SpinLock 0 "demo" None).
Definition demo_run (s : mstate) : mstate := lock_step 0 (default cpu_init (cpus s !! 0%nat)) s.
Definition demo_ms1 : mstate := set_cpu 0 (cpu_init.[at_pc := AcqPush demo_lk]) demo_ms0.
Definition demo_cpu : cpu := Cpu 1 false false Run [demo_lk].

Lemma demo_reach n : reachable (Nat.iter n demo_run demo_ms1).
Proof.
  exists demo_ms0. split.
  - split; [|done]. intros i c H. by repeat (destruct i as [|i]; simpl in H; [by simplify_eq|]).
  - induction n as [|n IH].
    + apply rtc_once. by apply (step_acquire 0 cpu_init).
    + simpl. eapply rtc_r; [exact IH|]. apply step_lock.
      assert (Hl : length (cpus (Nat.iter n demo_run demo_ms1)) = 2%nat).
      { clear IH. induction n as [|n IH]; [done|]. simpl. rewrite <- IH. clear IH.
        generalize (Nat.iter n demo_run demo_ms1). intros s. unfold demo_run, lock_step.
        destruct (at_pc _); try done; unfold set_cpu, upd_field; simpl; rewrite ?length_insert; try done.
        destruct (_ =? _); simpl; by rewrite ?length_insert. }
      destruct (cpus _) as [|c ?]; [done|]. done.
Qed.

Lemma spinlock_mutual_exclusion_witness :
  exists s, reachable s /\ locked (lockmem s demo_lk) <> 0 /\ holding 0 demo_lk s = true.
Proof.
  exists (Nat.iter 4 demo_run demo_ms1).
  destruct (spinlock_mutual_exclusion (Nat.iter 4 demo_run demo_ms1) 0 0 demo_cpu demo_cpu demo_lk
    (demo_reach 4) eq_refl eq_refl (list_elem_of_here _ _) (list_elem_of_here _ _))
    as (_ & H1 & _ & H2).
  split; [apply demo_reach|]. split; [exact H1|]. destruct (H2 eq_refl) as [_ H3].
  rewrite H3. reflexivity.
Defined.

Lemma spinlock_refines_held_witness :
  acquire demo_lk (kst_of []) = Ok tt (kst_of [demo_lk]).
Proof.
  exact (proj1 (spinlock_refines_held (Nat.iter 2 demo_run demo_ms1) 0
    (Cpu 1 false false (AcqSwap demo_lk) []) (Cpu 1 false false (AcqOwn demo_lk) [demo_lk])
    (demo_reach 2) eq_refl eq_refl)).
Defined.

Lemma push_pop_off_matched_witness :
  sie (Nat.iter 3 pop_off (Nat.iter 3 push_off (Cpu 0 false true Run []))) = true.
Proof.
  exact (proj1 (proj2 (push_pop_off_matched 3 (Cpu 0 false true Run []) ltac:(simpl; lia)
    ltac:(simpl; lia)))).
Defined.
