(* ===== verification/Sleeplock.v ===== *)
(** Sleeping: the scheduler's dispatch, the sleep/wakeup handshake, systems of
    kernel threads, and sleep locks (kernel/sleeplock.c). *)

From S2P Require Import Prelude CInt Machine Sched.

(** ** Dispatch *)

Section dispatch.
Context {R : Type}.
Implicit Types s : Kst R.

(** The state in which [scheduler] enters process [i]. *)
Definition dispatch (i : nat) (p : proc) s : Kst R :=
  s.[held := [plock i]].[procs := <[i := p.[p_state := RUNNING]]> (procs s)].[cproc := Some i].

Definition is_runnable (p : proc) : bool := bool_decide (p_state p = RUNNABLE).

Lemma scheduler_scan_eq k s :
  length (procs s) = NPROC -> held s = [] -> (k <= NPROC)%nat ->
  scheduler_scan k s =
    match find_from is_runnable (drop k (procs s)) k with
    | Some (i, p) => Ok (Some i) (dispatch i p s)
    | None => Ok None s
    end.
Proof.
  intros Hlen Hh Hk. unfold scheduler_scan.
  rewrite (mloop_find is_runnable); [| |lia].
  - destruct (find_from is_runnable (drop k (procs s)) k) as [[i p]|] eqn:Hf; [|done].
    apply find_from_Some in Hf as (Hik & Hp & Hr & _).
    rewrite lookup_drop in Hp. replace (k + (i - k))%nat with i in Hp by lia.
    unfold is_runnable in Hr.
    erewrite bind_Ok by (apply acquire_ok; rewrite Hh; apply not_elem_of_nil).
    erewrite bind_Ok by by apply getp_ok. rewrite Hr.
    erewrite bind_Ok by by eapply modp_ok. rewrite Hh. done.
  - intros i q Hq Hr. unfold is_runnable in Hr.
    erewrite bind_Ok by (apply acquire_ok; rewrite Hh; apply not_elem_of_nil).
    erewrite bind_Ok by by apply getp_ok. rewrite Hr.
    erewrite bind_Ok by (apply (release_ok _ []); [simpl; by rewrite Hh|apply not_elem_of_nil]).
    unfold ret, upd_field; simpl. by destruct s; simpl in *; subst.
Qed.

Lemma scheduler_back_eq i s :
  held s = [plock i] -> scheduler_back i s = Ok tt (s.[cproc := None].[held := []]).
Proof.
  intros Hh. unfold scheduler_back. unfold bind at 1, modify; simpl.
  by rewrite (release_ok (plock i) []) by (done || apply not_elem_of_nil).
Qed.

(** C13: a sleeper that gave up its lock is found by the next [wakeup] of its
    channel, whoever calls it, so no wakeup is lost; once [scheduler] picks
    it, its [sleep] returns with the lock it gave up held again, its own
    process lock released and its channel cleared. *)
Theorem sleep_wakeup_handshake ch lk s i p j h :
  length (procs s) = NPROC -> cproc s = Some i -> procs s !! i = Some p -> held s = [lk] ->
  (forall k, lk <> plock k) -> i <> j -> (forall k, plock k ∉ h) ->
  exists s1 resume s2 s3 p3,
    sleep ch lk s = Switched s1 resume /\
    scheduler_back i s1 = Ok tt s2 /\ held s2 = [] /\
    (* ... process [j] runs and calls [wakeup] holding [h] ... *)
    wakeup ch (s2.[cproc := Some j].[held := h]) = Ok tt s3 /\
    procs s3 !! i = Some p3 /\ p_state p3 = RUNNABLE /\
    (* ... and the scheduler comes back to [i] *)
    exists s4, resume (dispatch i p3 (s3.[cproc := None].[held := []])) = Ok tt s4 /\
      held s4 = [lk] /\ cproc s4 = Some i /\
      procs s4 !! i = Some (p.[p_chan := None].[p_state := RUNNING]) /\ krest s4 = krest s.
Proof.
  intros Hlen Hc Hp Hh Hlk Hij Hno.
  rewrite (sleep_eq ch lk s i p) by done.
  set (ps := <[i:=p.[p_chan := Some ch].[p_state := SLEEPING]]> (procs s)).
  eexists _, _, _, _, _. split; [reflexivity|].
  split; [by apply scheduler_back_eq|]. split; [done|].
  split.
  { apply wakeup_eq; [unfold ps; simpl; by rewrite length_insert|].
    intros k _. apply Hno. }
  assert (Hi : imap (wake_entry (Some j) ch) ps !! i =
               Some (p.[p_chan := Some ch].[p_state := RUNNABLE])).
  { rewrite list_lookup_imap. unfold ps. rewrite list_lookup_insert_eq by (by eapply lookup_lt_Some).
    simpl. f_equal. unfold wake_entry. rewrite bool_decide_false by congruence.
    by rewrite !bool_decide_true by done. }
  split; [exact Hi|]. split; [done|].
  eexists. split.
  { unfold sleep_tail.
    erewrite bind_Ok by (eapply modp_ok; simpl; by eapply list_insert_lookup_same).
    erewrite bind_Ok by (apply (release_ok _ []); [done|apply not_elem_of_nil]).
    apply acquire_ok, not_elem_of_nil. }
  simpl. split_and!; [done|done| |done].
  rewrite list_insert_insert_eq.
  erewrite list_insert_lookup_same by exact Hi. done.
Qed.
End dispatch.

(** ** Sleep locks *)

Record sleeplock := SleepLock { sl_locked : Z; sl_pid : Z }.
#[export] Instance eta_sleeplock : Eta sleeplock := fun l => SleepLock (sl_locked l) (sl_pid l).

(** Where a sleep lock lives in the state: its address (its channel), the
    spinlock inside it, and its fields. *)
Record sl_ref (R : Type) := SlRef {
  sl_addr : kptr;
  sl_lk : kptr;
  sl_get : R -> option sleeplock;
  sl_set : (sleeplock -> sleeplock) -> R -> R;
}.
Arguments SlRef {R}. Arguments sl_addr {R}. Arguments sl_lk {R}.
Arguments sl_get {R}. Arguments sl_set {R}.

Section sleeplock.
Context {R : Type}.
Implicit Types (s : Kst R) (r : sl_ref R).

Definition initsleeplock r : M (Kst R) unit :=
  modify (fun s => s.[krest := sl_set r (fun _ => SleepLock 0 0) (krest s)]).

Definition sl_read r : M (Kst R) sleeplock :=
  let* o := gets (fun s => sl_get r (krest s)) in deref o.
Definition sl_write r (f : sleeplock -> sleeplock) : M (Kst R) unit :=
  modify (fun s => s.[krest := sl_set r f (krest s)]).

(** [n] bounds how often the sleeper may be woken in vain. *)
Definition acquiresleep (n : nat) r : M (Kst R) unit :=
  acquire (sl_lk r);;;
  while (S n) (fun _ : unit =>
    let* l := sl_read r in
    if negb (sl_locked l =? 0)
    then sleep (sl_addr r) (sl_lk r);;; ret (inl tt)
    else ret (inr tt)) tt;;;
  sl_write r (fun l => l.[sl_locked := 1]);;;
  let* p := curproc in
  let* q := getp p in
  sl_write r (fun l => l.[sl_pid := p_pid q]);;;
  release (sl_lk r).

Definition releasesleep r : M (Kst R) unit :=
  acquire (sl_lk r);;;
  sl_write r (fun l => l.[sl_locked := 0]);;;
  sl_write r (fun l => l.[sl_pid := 0]);;;
  wakeup (sl_addr r);;;
  release (sl_lk r).

Definition holdingsleep r : M (Kst R) bool :=
  acquire (sl_lk r);;;
  let* l := sl_read r in
  let* p := curproc in
  let* q := getp p in
  release (sl_lk r);;;
  ret (negb (sl_locked l =? 0) && (sl_pid l =? p_pid q)).
End sleeplock.

(** A well-placed sleep lock. *)
Class SlOk {R} (r : sl_ref R) : Prop := {
  sl_get_set : forall f x, sl_get r (sl_set r f x) = f <$> sl_get r x;
  sl_lk_plock : forall i, sl_lk r <> plock i;
}.

Section sleeplock_thm.
Context {R : Type} (r : sl_ref R) {rok : SlOk r}.
Implicit Types s : Kst R.

(** Kernel thread [i], of process id [pid], runs holding [h]. *)
Definition running (i : nat) (pid : Z) (h : list kptr) s : Prop :=
  length (procs s) = NPROC /\ cproc s = Some i /\ held s = h /\
  exists p, procs s !! i = Some p /\ p_pid p = pid.

(** What other threads leave of the state of a sleeping thread. *)
Definition resumed (i : nat) (pid : Z) s s' : Prop :=
  running i pid [plock i] s' /\ is_Some (sl_get r (krest s')).

(** The thread has gone to sleep on the lock, which is taken. *)
Definition sleeping_on (i : nat) s : Prop :=
  held s = [plock i] /\
  (exists p, procs s !! i = Some p /\ p_state p = SLEEPING /\ p_chan p = Some (sl_addr r)) /\
  exists l, sl_get r (krest s) = Some l /\ sl_locked l <> 0.

(** From the state [s0] in which the caller last got the CPU it goes to sleep
    on the lock; it has changed nothing but its own entry of the process
    table. *)
Definition sl_waits (i : nat) s0 s : Prop :=
  sleeping_on i s /\ krest s = krest s0 /\ forall j, j <> i -> procs s !! j = procs s0 !! j.

(** The state in which the lock was found free, [s0], is the one the routine
    ends in but for the lock itself: nobody ran in between. *)
Definition lock_taken (i : nat) (pid : Z) s0 s' : Prop :=
  (exists l, sl_get r (krest s0) = Some l /\ sl_locked l = 0) /\
  sl_get r (krest s') = Some (SleepLock 1 pid) /\
  running i pid [] s' /\
  krest s' = sl_set r (fun l => l.[sl_pid := pid]) (sl_set r (fun l => l.[sl_locked := 1]) (krest s0)) /\
  procs s' = procs s0.

Lemma sl_read_ok l s : sl_get r (krest s) = Some l -> sl_read r s = Ok l s.
Proof. intros H. unfold sl_read, bind, gets. simpl. by rewrite H. Qed.

Lemma sleep_tail_frame i pid lk s :
  running i pid [plock i] s ->
  exists s', sleep_tail i lk s = Ok tt s' /\ running i pid [lk] s' /\ krest s' = krest s /\
    forall j, j <> i -> procs s' !! j = procs s !! j.
Proof.
  intros (Hlen & Hc & Hh & p & Hp & Hpid). eexists. split.
  { unfold sleep_tail. erewrite bind_Ok by by eapply modp_ok.
    erewrite bind_Ok by (apply (release_ok _ []); [done|apply not_elem_of_nil]).
    apply acquire_ok, not_elem_of_nil. }
  split; [|split; [done|]].
  - split_and!; simpl; [by rewrite length_insert|done|done|].
    eexists. split; [by eapply list_insert_lookup_same|done].
  - intros j Hj. simpl. by rewrite list_lookup_insert_ne.
Qed.

Lemma sleep_tail_ok i pid lk s :
  running i pid [plock i] s ->
  exists s', sleep_tail i lk s = Ok tt s' /\ running i pid [lk] s' /\ krest s' = krest s.
Proof.
  intros Hrun. destruct (sleep_tail_frame i pid lk s Hrun) as (s' & E & Hrun' & Hk & _). eauto.
Qed.

(** The end of [acquiresleep], once the lock has been found free. *)
Definition sl_take : M (Kst R) unit :=
  sl_write r (fun l => l.[sl_locked := 1]);;;
  let* p := curproc in
  let* q := getp p in
  sl_write r (fun l => l.[sl_pid := p_pid q]);;;
  release (sl_lk r).

Lemma sl_take_ok i pid s l :
  running i pid [sl_lk r] s -> sl_get r (krest s) = Some l -> sl_locked l = 0 ->
  exists s', sl_take s = Ok tt s' /\ lock_taken i pid s s'.
Proof.
  intros (Hlen & Hc & Hh & p & Hp & Hpid) Hl Hz. eexists. split.
  { unfold sl_take. unfold bind at 1, sl_write at 1, modify; simpl.
    erewrite bind_Ok by by apply curproc_ok. erewrite bind_Ok by by apply getp_ok.
    unfold bind at 1, sl_write, modify; simpl.
    apply (release_ok _ []); [done|apply not_elem_of_nil]. }
  split_and!; simpl; [by exists l| |split_and!; simpl; eauto|by rewrite Hpid|done].
  rewrite !sl_get_set, Hl, Hpid. simpl. unfold upd_field; simpl. done.
Qed.

Lemma acquire_running i pid l s :
  running i pid [] s -> acquire l s = Ok tt (s.[held := [l]]) /\ running i pid [l] (s.[held := [l]]).
Proof.
  intros (Hlen & Hc & Hh & p & Hp & Hpid).
  rewrite acquire_ok by (rewrite Hh; apply not_elem_of_nil). rewrite Hh.
  split; [done|]. split_and!; simpl; eauto.
Qed.

(** An uncontended lock. *)
Lemma acquiresleep_free n i pid s l :
  running i pid [] s -> sl_get r (krest s) = Some l -> sl_locked l = 0 ->
  exists s', acquiresleep n r s = Ok tt s' /\ lock_taken i pid s s'.
Proof.
  intros Hrun Hl Hz. destruct (acquire_running i pid (sl_lk r) s Hrun) as [Hacq Hrun1].
  destruct (sl_take_ok i pid _ l Hrun1 Hl Hz) as (s' & Hs' & Hlt). exists s'. split.
  - unfold acquiresleep. rewrite (bind_Ok _ _ _ _ _ Hacq). erewrite bind_Ok; [exact Hs'|].
    apply while_inr. erewrite bind_Ok by (by apply sl_read_ok). by rewrite Hz.
  - destruct Hlt as (H1 & H2 & H3 & H4 & H5). by split_and!.
Qed.

Lemma releasesleep_ok i pid s :
  running i pid [] s ->
  releasesleep r s = Ok tt
    (s.[krest := sl_set r (fun l => l.[sl_pid := 0]) (sl_set r (fun l => l.[sl_locked := 0]) (krest s))]
      .[procs := imap (wake_entry (Some i) (sl_addr r)) (procs s)].[held := []]).
Proof.
  intros (Hlen & Hc & Hh & _). unfold releasesleep.
  erewrite bind_Ok by (apply acquire_ok; rewrite Hh; apply not_elem_of_nil).
  unfold bind at 1, sl_write at 1, modify; simpl. unfold bind at 1, sl_write, modify; simpl.
  erewrite bind_Ok.
  2:{ apply wakeup_eq; [done|]. intros k _. simpl. rewrite Hh. intros ?%list_elem_of_singleton.
      by apply (sl_lk_plock k). }
  rewrite (release_ok _ []) by (simpl; rewrite ?Hh; done || apply not_elem_of_nil).
  unfold upd_field; simpl. by rewrite Hc.
Qed.

Lemma holdingsleep_ok i pid s l :
  running i pid [] s -> sl_get r (krest s) = Some l ->
  holdingsleep r s = Ok (negb (sl_locked l =? 0) && (sl_pid l =? pid)) s.
Proof.
  intros (Hlen & Hc & Hh & p & Hp & Hpid) Hl. unfold holdingsleep.
  erewrite bind_Ok by (apply acquire_ok; rewrite Hh; apply not_elem_of_nil).
  erewrite bind_Ok by (by apply sl_read_ok). erewrite bind_Ok by (by apply curproc_ok).
  erewrite bind_Ok by (by apply getp_ok).
  erewrite bind_Ok by (apply (release_ok _ []); [simpl; by rewrite Hh|apply not_elem_of_nil]).
  unfold ret. rewrite Hpid. destruct s; simpl in *; by subst.
Qed.

(** C14: [acquiresleep] returns only when, after getting the CPU for the last
    time in [s0], it has found the lock free and taken it for this process in
    one uninterrupted section; each time it finds the lock taken it goes to
    sleep on the lock with no spinlock but its own held and changes nothing
    else.  It gives up only after [n + 1] wakeups in vain.  If the lock is
    free at the call it returns at once. *)
Theorem acquiresleep_spec n i pid s :
  running i pid [] s -> is_Some (sl_get r (krest s)) ->
  swp (sl_waits i) (resumed i pid)
    (fun _ s0 _ s' => exists s1, lock_taken i pid s1 s' /\ krest s1 = krest s0 /\
       forall j, j <> i -> procs s1 !! j = procs s0 !! j)
    (S n) s (acquiresleep n r s) /\
  (forall l, sl_get r (krest s) = Some l -> sl_locked l = 0 ->
     exists s', acquiresleep n r s = Ok tt s' /\ lock_taken i pid s s').
Proof.
  intros Hrun Hsome. split; [|intros l Hl Hz; by eapply acquiresleep_free].
  destruct (acquire_running i pid (sl_lk r) s Hrun) as [Hacq Hrun1].
  unfold acquiresleep. apply swp_bind. eapply swp_Ok; [exact Hacq|]. apply swp_bind.
  eapply (swp_while _ _ (fun _ s0 s => running i pid [sl_lk r] s /\ is_Some (sl_get r (krest s)) /\
    krest s = krest s0 /\ forall j, j <> i -> procs s !! j = procs s0 !! j)); [done|].
  clear Hacq Hrun1 Hrun Hsome s. intros m [] s0 s1 (Hrun1 & [l Hl] & Hk & Hj).
  apply swp_bind. eapply swp_Ok; [by apply sl_read_ok|].
  destruct (negb (sl_locked l =? 0)) eqn:Hz.
  - apply swp_bind. destruct Hrun1 as (Hlen1 & Hc1 & Hh1 & p1 & Hp1 & Hpid1).
    rewrite (sleep_eq _ _ _ i p1) by (try done; apply sl_lk_plock). simpl. split.
    + split; [split; [done|]|split; [done|]].
      * split; [eexists; split; [by eapply list_insert_lookup_same|done]|]. exists l. split; [done|lia].
      * intros j Hne. simpl. rewrite list_lookup_insert_ne by done. by apply Hj.
    + intros s2 [Hrun2 Hsome2].
      destruct (sleep_tail_frame i pid (sl_lk r) s2 Hrun2) as (s3 & -> & Hrun3 & Hk3 & Hj3).
      simpl. split_and!; [done|done|by rewrite Hk3|done|done].
  - simpl. destruct (sl_take_ok i pid s1 l Hrun1 Hl ltac:(lia)) as (s' & Hs' & Hlt).
    eapply swp_Ok; [exact Hs'|]. by exists s1.
Qed.

(** [releasesleep] frees the lock and makes every process that sleeps on
    it runnable, and nothing else changes. *)
Theorem releasesleep_spec i pid l s :
  running i pid [] s -> sl_get r (krest s) = Some l ->
  exists s', releasesleep r s = Ok tt s' /\
    sl_get r (krest s') = Some (SleepLock 0 0) /\
    procs s' = imap (wake_entry (Some i) (sl_addr r)) (procs s) /\
    held s' = [] /\ cproc s' = Some i.
Proof.
  intros Hrun Hl. eexists. split; [by apply (releasesleep_ok i pid)|]. simpl.
  destruct Hrun as (_ & Hc & _). split_and!; [|done|done|done]. by rewrite !sl_get_set, Hl.
Qed.
End sleeplock_thm.

(** ** Witnesses *)

Definition demo_sl : sl_ref sleeplock :=
  SlRef (KSym "buf" 0) (KSym "sleep lock" 0) Some (fun f l => f l).
#[export] Instance demo_sl_ok : SlOk demo_sl.
Proof. split; [done|]. intros i. done. Qed.

Definition demo_sl_proc : proc := proc_zero.[p_state := RUNNING].[p_pid := 7].
Definition demo_sl_kst : Kst sleeplock :=
  KSt [] (Some 0%nat) (demo_sl_proc :: replicate 63 proc_zero) 8 None 0 (SleepLock 0 0).

Lemma demo_sl_running : running 0 7 [] demo_sl_kst.
Proof. split_and!; try done. by exists demo_sl_proc. Qed.

Lemma acquiresleep_spec_witness :
  exists s', acquiresleep 3 demo_sl demo_sl_kst = Ok tt s' /\
    krest s' = SleepLock 1 7.
Proof.
  destruct (proj2 (acquiresleep_spec demo_sl 3 0 7 demo_sl_kst demo_sl_running ltac:(by eexists))
    (SleepLock 0 0) eq_refl eq_refl) as (s' & H1 & _ & H2 & _).
  exists s'. split; [exact H1|]. by injection H2.
Defined.

Lemma releasesleep_spec_witness :
  exists s', releasesleep demo_sl demo_sl_kst = Ok tt s' /\ held s' = [].
Proof.
  destruct (releasesleep_spec demo_sl 0 7 (SleepLock 0 0) demo_sl_kst demo_sl_running eq_refl) as (s' & H1 & _ & _ & H2 & _).
  exists s'. by split.
Defined.

Lemma sleep_wakeup_handshake_witness :
  exists s1 resume, sleep (KSym "chan" 0) (KSym "lk" 0) (demo_sl_kst.[held := [KSym "lk" 0]]) =
    Switched s1 resume.
Proof.
  destruct (sleep_wakeup_handshake (KSym "chan" 0) (KSym "lk" 0)
    (demo_sl_kst.[held := [KSym "lk" 0]]) 0 demo_sl_proc 1 []
    ltac:(by vm_compute) ltac:(by vm_compute) ltac:(by vm_compute) ltac:(by vm_compute)
    (fun k => ltac:(done)) ltac:(done) (fun k => not_elem_of_nil _))
    as (s1 & resume & _ & _ & _ & H & _).
  exists s1, resume. exact H.
Defined.
