(* ===== verification/Kalloc.v ===== *)
(** Physical memory and its page allocator (kernel/kalloc.c).

    Physical memory is byte-addressed; kernel code reaches RAM through the
    direct map, so an access outside [KERNBASE, PHYSTOP) is a fault.  The free
    list is threaded through the first eight bytes of each free page, exactly
    as [struct run] does. *)

From S2P Require Import Prelude CInt Machine KString Sched.

(** ** The loaded kernel image *)

(** Symbols placed by kernel.ld and the assembler. *)
Class KernelImage := {
  kend : Z;          (** [end]: first address after the kernel *)
  etext : Z;         (** end of kernel code *)
  trampoline : Z;    (** the trampoline page *)
}.

Class KernelImageOk `{KernelImage} : Prop := {
  etext_page : etext mod PGSIZE = 0;
  kbase_etext : KERNBASE < etext;
  etext_kend : etext <= kend;
  kend_phystop : kend < PHYSTOP;
  trampoline_page : trampoline mod PGSIZE = 0;
  trampoline_text : KERNBASE <= trampoline < etext;
}.

(** ** State *)

Record KMem (R : Type) := KM {
  mem : gmap Z Z;
  freelist : Z;         (** [kmem.freelist] *)
  kernel_pagetable : Z; (** kernel/vm.c *)
  kmrest : R;
}.
Arguments KM {R}. Arguments mem {R}. Arguments freelist {R}.
Arguments kernel_pagetable {R}. Arguments kmrest {R}.
#[export] Instance eta_kmem R : Eta (KMem R) := fun k =>
  KM (mem k) (freelist k) (kernel_pagetable k) (kmrest k).

#[export] Program Instance kmem_layer {A R} {L : Layer A R} : Layer A (KMem R) := {|
  layer_get k := layer_get (kmrest k);
  layer_set a k := k.[kmrest := layer_set a (kmrest k)];
|}.
Next Obligation. intros. apply layer_get_set. Qed.
Next Obligation. intros. unfold upd_field; simpl. by rewrite layer_set_set. Qed.
Next Obligation. intros A R L []. unfold upd_field; simpl. by rewrite layer_set_get. Qed.

Definition kmem_lock : kptr := KSym "kmem" 0.

(** A page the allocator may own. *)
Definition page_ok `{KernelImage} (pa : Z) : Prop :=
  pa mod PGSIZE = 0 /\ kend <= pa < PHYSTOP.
#[export] Instance page_ok_dec `{KernelImage} pa : Decision (page_ok pa).
Proof. unfold page_ok. apply _. Defined.

Definition in_ram (a n : Z) : bool := (KERNBASE <=? a) && (a + n <=? PHYSTOP).

Section kalloc.
Context {img : KernelImage} {R : Type}.
Abbreviation St := (Kst (KMem R)).
Implicit Types s : St.

(** ** Loads and stores *)

Definition kmem s : gmap Z Z := mem (krest s).
Definition set_mem (m : gmap Z Z) s : St := s.[krest := (krest s).[mem := m]].
Definition set_freelist (p : Z) s : St := s.[krest := (krest s).[freelist := p]].

Definition pread (a : Z) (n : nat) : M St (list Z) := fun s =>
  if in_ram a (Z.of_nat n) then Ok (mread (kmem s) a n) s else Fault.
Definition pwrite (a : Z) (bs : list Z) : M St unit := fun s =>
  if in_ram a (Z.of_nat (length bs)) then Ok tt (set_mem (mwrite (kmem s) a bs) s) else Fault.

Definition ld64 (a : Z) : M St Z := let* bs := pread a 8 in ret (le_combine bs).
Definition st64 (a v : Z) : M St unit := pwrite a (le_split 8 v).

Definition kmemset (dst c n : Z) : M St unit := fun s =>
  if in_ram dst n then Ok tt (set_mem (memset (kmem s) dst c n) s) else Fault.
Definition kmemmove (dst src n : Z) : M St unit := fun s =>
  if in_ram dst n && in_ram src n
  then Ok tt (set_mem (memmove (kmem s) dst src n) s) else Fault.

(** ** kernel/kalloc.c *)

Definition kfree (pa : Z) : M St unit :=
  if negb (pa mod PGSIZE =? 0) || (pa <? kend) || (PHYSTOP <=? pa) then panic "kfree" else
  kmemset pa 1 PGSIZE;;;
  acquire kmem_lock;;;
  let* next := gets (fun s => freelist (krest s)) in
  st64 pa next;;;
  modify (set_freelist pa);;;
  release kmem_lock.

Definition kalloc : M St Z :=
  acquire kmem_lock;;;
  let* r := gets (fun s => freelist (krest s)) in
  (if negb (r =? 0) then
     let* next := ld64 r in
     modify (set_freelist next)
   else ret tt);;;
  release kmem_lock;;;
  (if negb (r =? 0) then kmemset r 5 PGSIZE else ret tt);;;
  ret r.

(** Each iteration frees one page, so [(pa_end - p) / PGSIZE] of them and
    the final test are all there is. *)
Definition freerange (pa_start pa_end : Z) : M St unit :=
  let p := PGROUNDUP pa_start in
  while (S (Z.to_nat ((pa_end - p) / PGSIZE)))
    (fun p => if p + PGSIZE <=? pa_end
              then kfree p;;; ret (inl (p + PGSIZE))
              else ret (inr tt)) p.

(** [initlock(&kmem.lock)] leaves the lock free, the initial condition. *)
Definition kinit : M St unit := freerange kend PHYSTOP.

(** ** The free list *)

(** [fl m p l]: following [next] from [p] visits exactly the pages [l]. *)
Fixpoint fl (m : gmap Z Z) (p : Z) (l : list Z) : Prop :=
  match l with
  | [] => p = 0
  | q :: l => p = q /\ page_ok q /\ fl m (le_combine (mread m q 8)) l
  end.

Definition kalloc_inv (l : list Z) s : Prop :=
  fl (kmem s) (freelist (krest s)) l /\ NoDup l.
End kalloc.

(** ** Algebra of the state updates *)

Section kmem_updates.
Context {R : Type}.
Abbreviation St := (Kst (KMem R)).
Implicit Types s : St.

Lemma kmem_set_mem m s : kmem (set_mem m s) = m.
Proof. reflexivity. Qed.
Lemma kmem_set_freelist p s : kmem (set_freelist p s) = kmem s.
Proof. reflexivity. Qed.
Lemma set_mem_set_mem m m' s : set_mem m (set_mem m' s) = set_mem m s.
Proof. reflexivity. Qed.
Lemma set_freelist_set_freelist p p' s : set_freelist p (set_freelist p' s) = set_freelist p s.
Proof. reflexivity. Qed.
Lemma set_freelist_set_mem p m s : set_freelist p (set_mem m s) = set_mem m (set_freelist p s).
Proof. reflexivity. Qed.
Lemma freelist_set_mem m s : freelist (krest (set_mem m s)) = freelist (krest s).
Proof. reflexivity. Qed.
Lemma freelist_set_freelist p s : freelist (krest (set_freelist p s)) = p.
Proof. reflexivity. Qed.
Lemma held_set_mem m s : held (set_mem m s) = held s.
Proof. reflexivity. Qed.
Lemma held_set_freelist p s : held (set_freelist p s) = held s.
Proof. reflexivity. Qed.
Lemma set_mem_id s : set_mem (kmem s) s = s.
Proof. by destruct s as [? ? ? ? ? ? []]. Qed.
Lemma set_id s : set_mem (kmem s) (set_freelist (freelist (krest s)) s) = s.
Proof. by destruct s as [? ? ? ? ? ? []]. Qed.
End kmem_updates.

Create Rewrite HintDb kmem.
#[export] Hint Rewrite @kmem_set_mem @kmem_set_freelist @set_mem_set_mem
  @set_freelist_set_freelist @set_freelist_set_mem @freelist_set_mem
  @freelist_set_freelist @held_set_mem @held_set_freelist : kmem.

(** Normalise the memory components of states. *)
Ltac kmem_simpl := autorewrite with kmem.

(** The bytes of page [p]. *)
Definition in_page (p a : Z) : Prop := p <= a < p + PGSIZE.
#[export] Instance in_page_dec p a : Decision (in_page p a).
Proof. unfold in_page. apply _. Defined.

Section kalloc_lemmas.
Context {img : KernelImage} {imgok : KernelImageOk} {R : Type}.
Abbreviation St := (Kst (KMem R)).
Implicit Types s : St.

Lemma page_ok_ram p : page_ok p -> in_ram p PGSIZE = true.
Proof.
  intros [Ha Hb]. pose proof etext_kend. pose proof kbase_etext.
  unfold in_ram, PHYSTOP, KERNBASE, PGSIZE in *.
  apply andb_true_intro. split; [lia|]. Z.to_euclidean_division_equations. lia.
Qed.

Lemma page_ok_pos p : page_ok p -> KERNBASE <= p.
Proof. intros [_ Hb]. pose proof etext_kend. pose proof kbase_etext. lia. Qed.

Lemma in_ram_sub a n b k :
  in_ram a n = true -> a <= b -> b + k <= a + n -> in_ram b k = true.
Proof. unfold in_ram. lia. Qed.

Lemma page_disjoint p q a : page_ok p -> page_ok q -> p <> q -> in_page p a -> ~ in_page q a.
Proof.
  intros [Hp _] [Hq _] Hne. unfold in_page, PGSIZE in *.
  Z.to_euclidean_division_equations. lia.
Qed.

(** The free list only depends on the free pages. *)
Lemma fl_frame m m' p l :
  (forall q a, q ∈ l -> in_page q a -> mget m' a = mget m a) ->
  fl m p l -> fl m' p l.
Proof.
  revert p. induction l as [|q l IH]; intros p Hm; simpl; [done|].
  intros (-> & Hq & Hl). split_and!; [done|done|].
  rewrite (mread_ext m' m) by (intros b Hb; apply (Hm q); [set_solver|unfold in_page, PGSIZE; lia]).
  apply IH; [|done]. intros r a Hr. apply Hm. set_solver.
Qed.

Lemma fl_page_ok m p l q : fl m p l -> q ∈ l -> page_ok q.
Proof.
  revert p. induction l as [|r l IH]; intros p; simpl; [set_solver|].
  intros (-> & Hr & Hl) [->|Hq]%elem_of_cons; [done|]. by eapply IH.
Qed.

Lemma kalloc_inv_page l s q : kalloc_inv l s -> q ∈ l -> page_ok q.
Proof. intros [Hf _]. by apply (fl_page_ok _ _ _ _ Hf). Qed.

Lemma kalloc_inv_frame l s s' :
  freelist (krest s') = freelist (krest s) ->
  (forall q a, q ∈ l -> in_page q a -> mget (kmem s') a = mget (kmem s) a) ->
  kalloc_inv l s -> kalloc_inv l s'.
Proof. intros Hf Hm [H1 H2]. split; [|done]. rewrite Hf. by apply (fl_frame (kmem s)). Qed.

(** ** Primitive steps *)

Lemma pread_ok a n s :
  in_ram a (Z.of_nat n) = true -> pread a n s = Ok (mread (kmem s) a n) s.
Proof. intros H. unfold pread. by rewrite H. Qed.

Lemma ld64_ok a s : in_ram a 8 = true -> ld64 a s = Ok (le_combine (mread (kmem s) a 8)) s.
Proof. intros H. unfold ld64. by erewrite bind_Ok by (by apply pread_ok). Qed.

Lemma st64_ok a v s :
  in_ram a 8 = true -> st64 a v s = Ok tt (set_mem (mwrite (kmem s) a (le_split 8 v)) s).
Proof. intros H. unfold st64, pwrite. rewrite le_split_length. change (Z.of_nat 8) with 8. by rewrite H. Qed.

Lemma kmemset_ok a c n s :
  in_ram a n = true -> kmemset a c n s = Ok tt (set_mem (memset (kmem s) a c n) s).
Proof. intros H. unfold kmemset. by rewrite H. Qed.

Lemma kmemmove_ok d a n s :
  in_ram d n = true -> in_ram a n = true ->
  kmemmove d a n s = Ok tt (set_mem (memmove (kmem s) d a n) s).
Proof. intros H1 H2. unfold kmemmove. by rewrite H1, H2. Qed.

Lemma le_combine_split64 v : le_combine (le_split 8 v) = u64 v.
Proof. apply (le_combine_split 8). Qed.
End kalloc_lemmas.

(** ** The allocator's contract *)

Section kalloc_spec.
Context {img : KernelImage} {imgok : KernelImageOk} {R : Type}.
Abbreviation St := (Kst (KMem R)).
Implicit Types s : St.

(** The memory after [kfree p] / [kalloc] returning [p]. *)
Definition mem_freed (m : gmap Z Z) (p next : Z) : gmap Z Z :=
  mwrite (memset m p 1 PGSIZE) p (le_split 8 next).
Definition mem_junked (m : gmap Z Z) (p : Z) : gmap Z Z := memset m p 5 PGSIZE.

Lemma mem_freed_frame m p next a : ~ in_page p a -> mget (mem_freed m p next) a = mget m a.
Proof.
  unfold in_page, mem_freed, PGSIZE. intros H.
  rewrite mwrite_frame by (rewrite le_split_length; lia).
  rewrite memset_mget, decide_False; [done|]. change (u32 4096) with 4096. lia.
Qed.

Lemma mem_junked_frame m p a : ~ in_page p a -> mget (mem_junked m p) a = mget m a.
Proof.
  unfold in_page, mem_junked, PGSIZE. intros H.
  rewrite memset_mget, decide_False; [done|]. change (u32 4096) with 4096. lia.
Qed.

Lemma kfree_panic p s : ~ page_ok p -> kfree p s = Panic "kfree".
Proof.
  intros H. unfold kfree, page_ok in *.
  destruct (negb (p mod PGSIZE =? 0) || (p <? kend) || (PHYSTOP <=? p)) eqn:Hc; [done|].
  exfalso. apply H. lia.
Qed.

Lemma kfree_eq p s :
  page_ok p -> kmem_lock ∉ held s ->
  kfree p s = Ok tt (set_freelist p (set_mem (mem_freed (kmem s) p (freelist (krest s))) s)).
Proof.
  intros Hp Hl. pose proof (page_ok_ram p Hp) as Hram.
  assert (Hram8 : in_ram p 8 = true)
    by (eapply in_ram_sub; [exact Hram|lia|unfold PGSIZE; lia]).
  unfold kfree. destruct Hp as [Hal Hb].
  replace (negb _ || _ || _) with false by lia.
  erewrite bind_Ok by (by apply kmemset_ok).
  erewrite bind_Ok by (by apply acquire_ok).
  unfold bind at 1, gets; simpl.
  erewrite bind_Ok by (by apply st64_ok).
  unfold bind at 1, modify; simpl.
  rewrite (release_ok _ (held s)); [|done|done]. done.
Qed.

Lemma kfree_inv p l s :
  page_ok p -> p ∉ l -> kalloc_inv l s ->
  kalloc_inv (p :: l) (set_freelist p (set_mem (mem_freed (kmem s) p (freelist (krest s))) s)).
Proof.
  intros Hp Hnin [Hf Hd]. split; [|by constructor].
  split_and!; [done|done|]. change (kmem _) with (mem_freed (kmem s) p (freelist (krest s))).
  unfold mem_freed at 2. rewrite <- (le_split_length 8 (freelist (krest s))) at 2.
  rewrite mwrite_read by apply le_split_bytes. rewrite le_combine_split64.
  assert (u64 (freelist (krest s)) = freelist (krest s)) as ->.
  { apply u64_small. destruct l as [|q l]; simpl in Hf.
    - rewrite Hf. lia.
    - destruct Hf as (-> & [_ Hb] & _). pose proof etext_kend. pose proof kbase_etext.
      unfold PHYSTOP, KERNBASE in *. lia. }
  apply (fl_frame (kmem s)); [|done]. intros q a Hq Ha. apply mem_freed_frame.
  eapply page_disjoint; [by eapply fl_page_ok|done|set_solver|done].
Qed.

Lemma kalloc_eq_nil s :
  kmem_lock ∉ held s -> kalloc_inv [] s -> kalloc s = Ok 0 s.
Proof.
  intros Hl [Hf _]. simpl in Hf. unfold kalloc.
  erewrite bind_Ok by (by apply acquire_ok).
  unfold bind at 1, gets; simpl. rewrite Hf. simpl.
  unfold bind at 1, ret; simpl.
  erewrite bind_Ok by (by apply (release_ok _ (held s))).
  unfold bind, upd_field; simpl. by rewrite kst_eta.
Qed.

Lemma kalloc_eq_cons p l s :
  kmem_lock ∉ held s -> kalloc_inv (p :: l) s ->
  kalloc s = Ok p (set_mem (mem_junked (kmem s) p)
                    (set_freelist (le_combine (mread (kmem s) p 8)) s)).
Proof.
  intros Hl [(Hf & Hp & Hr) _]. pose proof (page_ok_ram p Hp) as Hram.
  assert (Hram8 : in_ram p 8 = true)
    by (eapply in_ram_sub; [exact Hram|lia|unfold PGSIZE; lia]).
  unfold kalloc.
  erewrite bind_Ok by (by apply acquire_ok).
  unfold bind at 1, gets; simpl. rewrite Hf.
  assert ((p =? 0) = false) as ->.
  { pose proof (page_ok_pos p Hp). unfold KERNBASE in *. lia. }
  simpl. unfold bind at 1. erewrite bind_Ok by (by apply ld64_ok). simpl.
  erewrite bind_Ok by (by apply (release_ok _ (held s))).
  erewrite bind_Ok by (by apply kmemset_ok). done.
Qed.

Lemma kalloc_inv_alloc p l s :
  kalloc_inv (p :: l) s ->
  kalloc_inv l (set_mem (mem_junked (kmem s) p)
                 (set_freelist (le_combine (mread (kmem s) p 8)) s)).
Proof.
  intros [(Hf & Hp & Hr) Hd]. apply NoDup_cons in Hd as [Hnin Hd]. split; [|done].
  apply (fl_frame (kmem s)); [|done]. intros q a Hq Ha. apply mem_junked_frame.
  eapply page_disjoint; [by eapply fl_page_ok|done|set_solver|done].
Qed.
End kalloc_spec.

(** ** Properties of the allocator *)

(** The [n] page addresses from [p] on. *)
Definition pages_from (p : Z) (n : nat) : list Z := (fun i => p + i * PGSIZE) <$> zseq 0 n.

Lemma pages_from_S p n : pages_from p (S n) = p :: pages_from (p + PGSIZE) n.
Proof.
  unfold pages_from. rewrite zseq_S. simpl. f_equal; [lia|]. unfold zseq.
  rewrite <- !list_fmap_compose. apply list_fmap_ext. intros i x _. simpl. lia.
Qed.

Lemma elem_of_pages_from q p n :
  q ∈ pages_from p n -> exists i, 0 <= i < Z.of_nat n /\ q = p + i * PGSIZE.
Proof. unfold pages_from. intros (i & -> & Hi%elem_of_zseq)%list_elem_of_fmap. exists i. lia. Qed.

Section kalloc_theorems.
Context {img : KernelImage} {imgok : KernelImageOk} {R : Type}.
Abbreviation St := (Kst (KMem R)).
Implicit Types s : St.

Lemma freerange_loop p pa_end n l s :
  n = Z.to_nat ((pa_end - p) / PGSIZE) ->
  p mod PGSIZE = 0 -> kend <= p -> pa_end <= PHYSTOP ->
  kmem_lock ∉ held s -> kalloc_inv l s -> Forall (fun q => q < p) l ->
  exists s',
    while (S n) (fun p => if p + PGSIZE <=? pa_end
                          then kfree p;;; ret (inl (p + PGSIZE))
                          else ret (inr tt)) p s = Ok tt s' /\
    kalloc_inv (rev (pages_from p n) ++ l) s' /\
    s' = set_freelist (freelist (krest s')) (set_mem (kmem s') s).
Proof.
  revert p l s. induction n as [|n IH]; intros p l s Hn Hp Hlo Hhi Hl Hinv Hlt.
  - exists s. assert (He : (p + PGSIZE <=? pa_end) = false).
    { unfold PGSIZE in *. Z.to_euclidean_division_equations. lia. }
    split_and!; [|done|by destruct s as [? ? ? ? ? ? []]].
    apply while_inr. by rewrite He.
  - assert (p + PGSIZE <= pa_end) as Hle.
    { unfold PGSIZE in *. Z.to_euclidean_division_equations. lia. }
    assert (Hpo : page_ok p) by (split; [done|unfold PGSIZE in *; lia]).
    assert (Hnin : p ∉ l). { intros Hin. rewrite Forall_forall in Hlt. apply Hlt in Hin. lia. }
    set (s1 := set_freelist p (set_mem (mem_freed (kmem s) p (freelist (krest s))) s)).
    destruct (IH (p + PGSIZE) (p :: l) s1) as (s' & Hrun & Hinv' & Hs').
    + unfold PGSIZE in *. Z.to_euclidean_division_equations. lia.
    + unfold PGSIZE in *. Z.to_euclidean_division_equations. lia.
    + unfold PGSIZE. lia.
    + done.
    + done.
    + by apply kfree_inv.
    + constructor; [unfold PGSIZE; lia|]. eapply Forall_impl; [exact Hlt|].
      intros; unfold PGSIZE; simpl in *; lia.
    + exists s'. split_and!.
      * rewrite <- Hrun. apply while_inl. rewrite (proj2 (Z.leb_le _ _) Hle).
        by erewrite bind_Ok by (by apply kfree_eq).
      * rewrite pages_from_S. simpl. rewrite <- app_assoc. exact Hinv'.
      * rewrite Hs' at 1. done.
Qed.

(** [freerange] puts every whole page of the range on the free list, in
    descending address order, and touches nothing but physical memory and
    the list; so [kinit] (its call on [end], [PHYSTOP]) establishes the
    allocator invariant. *)
Theorem freerange_spec pa_start pa_end s :
  kend <= pa_start -> pa_start + PGSIZE <= W64 -> pa_end <= PHYSTOP ->
  kmem_lock ∉ held s -> kalloc_inv [] s ->
  exists s',
    freerange pa_start pa_end s = Ok tt s' /\
    kalloc_inv (rev (pages_from (PGROUNDUP pa_start)
                      (Z.to_nat ((pa_end - PGROUNDUP pa_start) / PGSIZE)))) s' /\
    s' = set_freelist (freelist (krest s')) (set_mem (kmem s') s).
Proof.
  intros Hlo Hw Hhi Hl Hinv. pose proof etext_kend. pose proof kbase_etext.
  destruct (PGROUNDUP_bounds pa_start) as [Hb Ha]; [unfold KERNBASE in *; lia|unfold PGSIZE in *; lia|].
  edestruct (freerange_loop (PGROUNDUP pa_start) pa_end) as (s' & Hrun & Hinv' & Hs');
    [done|done|lia|done|exact Hl|exact Hinv|constructor|].
  exists s'. rewrite app_nil_r in Hinv'. done.
Qed.

(** C19: under the invariant [kalloc] neither panics nor faults.  With an
    empty list it returns 0 and changes nothing; otherwise it returns the
    first free page, filled with the junk byte 5, removes exactly that page
    from the list and leaves all other memory alone. *)
Theorem kalloc_spec l s :
  kmem_lock ∉ held s -> kalloc_inv l s ->
  match l with
  | [] => kalloc s = Ok 0 s
  | p :: l' => exists s',
      kalloc s = Ok p s' /\ kalloc_inv l' s' /\ page_ok p /\ p ∉ l' /\
      (forall a, mget (kmem s') a = (if decide (in_page p a) then 5 else mget (kmem s) a)) /\
      s' = set_freelist (freelist (krest s')) (set_mem (kmem s') s)
  end.
Proof.
  intros Hl Hinv. destruct l as [|p l]; [by apply kalloc_eq_nil|].
  eexists. split; [by eapply kalloc_eq_cons|].
  split; [by apply kalloc_inv_alloc|]. destruct Hinv as [(_ & Hp & _) Hd].
  apply NoDup_cons in Hd as [Hnin _]. split_and!; [done|done| |done].
  intros a. transitivity (mget (mem_junked (kmem s) p) a); [done|].
  unfold mem_junked. rewrite memset_mget. done.
Qed.

(** C20: [kfree] panics exactly on addresses that are not whole pages of the
    allocator's range, and otherwise pushes the page: freeing a page that
    is not on the list preserves the invariant, and the next [kalloc]
    returns it. *)
Theorem kfree_spec p l s :
  kmem_lock ∉ held s -> kalloc_inv l s -> p ∉ l ->
  if decide (page_ok p)
  then exists s', kfree p s = Ok tt s' /\ kalloc_inv (p :: l) s' /\
         (forall a, ~ in_page p a -> mget (kmem s') a = mget (kmem s) a) /\
         exists s'', kalloc s' = Ok p s'' /\ kalloc_inv l s''
  else kfree p s = Panic "kfree".
Proof.
  intros Hl Hinv Hnin. case_decide as Hp; [|by apply kfree_panic].
  eexists. split; [by apply kfree_eq|]. split; [by apply kfree_inv|]. split.
  - intros a Ha. by apply mem_freed_frame.
  - eexists. split; [by eapply kalloc_eq_cons; [|apply kfree_inv]|].
    apply kalloc_inv_alloc. by apply kfree_inv.
Qed.
End kalloc_theorems.

(** ** A concrete image *)

Definition demo_image : KernelImage :=
  {| kend := 0x80022000; etext := 0x80008000; trampoline := 0x80007000 |}.
Lemma demo_image_ok : @KernelImageOk demo_image.
Proof. constructor; vm_compute; repeat split; congruence. Qed.

Definition demo_kst : Kst (KMem unit) :=
  KSt [] (Some 0%nat) (replicate NPROC proc_zero) 1 None 0 (KM ∅ 0 0 tt).

Lemma demo_inv : @kalloc_inv demo_image unit [] demo_kst.
Proof. split; [done|constructor]. Qed.

(** Two pages freed from an unaligned start. *)
Lemma freerange_spec_witness :
  exists s', @freerange demo_image unit 0x80022001 0x80025000 demo_kst = Ok tt s' /\
    @kalloc_inv demo_image unit [0x80024000; 0x80023000] s'.
Proof.
  destruct (@freerange_spec demo_image demo_image_ok unit 0x80022001 0x80025000 demo_kst)
    as (s' & H1 & H2 & _).
  - vm_compute; congruence.
  - vm_compute; congruence.
  - vm_compute; congruence.
  - apply not_elem_of_nil.
  - apply demo_inv.
  - exists s'. split; [exact H1|exact H2].
Defined.

Lemma kalloc_spec_witness :
  @kalloc unit demo_kst = Ok 0 demo_kst.
Proof.
  exact (@kalloc_spec demo_image demo_image_ok unit [] demo_kst
           (not_elem_of_nil _) demo_inv).
Defined.

Lemma kfree_spec_witness :
  exists s', @kfree demo_image unit 0x80023000 demo_kst = Ok tt s' /\
    exists s'', @kalloc unit s' = Ok 0x80023000 s''.
Proof.
  pose proof (@kfree_spec demo_image demo_image_ok unit 0x80023000 [] demo_kst
           (not_elem_of_nil _) demo_inv (not_elem_of_nil _)) as H.
  rewrite decide_True in H by (vm_compute; split; [reflexivity|split; [congruence|reflexivity]]).
  destruct H as (s' & H1 & _ & _ & s'' & H2 & _). eauto.
Defined.
