(* ===== verification/Vm.v ===== *)
(** Page tables and user memory (kernel/vm.c), and the Sv39 macros of
    kernel/riscv.h.

    [walk] and everything above it act on the bytes of page-table pages in
    physical memory.  Kernel buffers that are not in allocated pages (stack
    variables, disk blocks) are byte lists: [copyout] takes the bytes to copy,
    [copyin] and [copyinstr] return the bytes copied with the result code. *)

From S2P Require Import Prelude CInt Machine KString Sched Kalloc.

(** ** kernel/riscv.h *)

Definition PTE_V : Z := 1.
Definition PTE_R : Z := 2.
Definition PTE_W : Z := 4.
Definition PTE_X : Z := 8.
Definition PTE_U : Z := 16.

Definition PA2PTE (pa : Z) : Z := Z.shiftl (Z.shiftr (u64 pa) 12) 10.
Definition PTE2PA (pte : Z) : Z := u64 (Z.shiftl (Z.shiftr pte 10) 12).
Definition PTE_FLAGS (pte : Z) : Z := Z.land pte 0x3FF.
Definition PXMASK : Z := 0x1FF.
Definition PXSHIFT (level : Z) : Z := PGSHIFT + 9 * level.
Definition PX (level va : Z) : Z := Z.land (Z.shiftr (u64 va) (PXSHIFT level)) PXMASK.

Definition has (pte flag : Z) : bool := negb (Z.land pte flag =? 0).

Section vm.
Context {img : KernelImage} {R : Type}.
Abbreviation St := (Kst (KMem R)).
Implicit Types s : St.

(** ** Walking a page table *)

(** The loop of [walk] from [level] down; [&pagetable[i]] is 8 bytes per
    entry. *)
Fixpoint walk_from (level : nat) (pagetable va : Z) (alloc : bool) : M St Z :=
  match level with
  | O => ret (pagetable + 8 * PX 0 va)
  | S l =>
      let pte := pagetable + 8 * PX (Z.of_nat level) va in
      let* e := ld64 pte in
      if has e PTE_V then walk_from l (PTE2PA e) va alloc
      else if negb alloc then ret 0 else
        let* p := kalloc in
        if p =? 0 then ret 0 else
        kmemset p 0 PGSIZE;;;
        st64 pte (Z.lor (PA2PTE p) PTE_V);;;
        walk_from l p va alloc
  end.

Definition walk (pagetable va : Z) (alloc : bool) : M St Z :=
  if MAXVA <=? va then panic "walk" else walk_from 2 pagetable va alloc.

Definition walkaddr (pagetable va : Z) : M St Z :=
  if MAXVA <=? va then ret 0 else
  let* pte := walk pagetable va false in
  if pte =? 0 then ret 0 else
  let* e := ld64 pte in
  if negb (has e PTE_V) then ret 0 else
  if negb (has e PTE_U) then ret 0 else
  ret (PTE2PA e).

(** ** Adding and removing mappings *)

(** One iteration per page from [a] to [last], both included; a range that
    passes the end of the [uint64]s goes on at 0. *)
Definition mappages (pagetable va size pa perm : Z) : M St Z :=
  if size =? 0 then panic "mappages: size" else
  let a := PGROUNDDOWN va in
  let last := PGROUNDDOWN (u64 (va + size - 1)) in
  while (S (Z.to_nat (u64 (last - a) / PGSIZE)))
    (fun '(a, pa) =>
      let* pte := walk pagetable a true in
      if pte =? 0 then ret (inr (-1)) else
      let* e := ld64 pte in
      if has e PTE_V then panic "mappages: remap" else
      st64 pte (Z.lor (Z.lor (PA2PTE pa) perm) PTE_V);;;
      if a =? last then ret (inr 0) else
      ret (inl (u64 (a + PGSIZE), u64 (pa + PGSIZE)))) (a, pa).

Definition kvmmap (kpgtbl va pa sz perm : Z) : M St unit :=
  let* r := mappages kpgtbl va sz pa perm in
  if negb (r =? 0) then panic "kvmmap" else ret tt.

(** The bound of the loop is computed in [uint64]s; [va] and it are aligned, so
    [a] never passes it. *)
Definition uvmunmap (pagetable va npages : Z) (do_free : bool) : M St unit :=
  if negb (va mod PGSIZE =? 0) then panic "uvmunmap: not aligned" else
  let last := u64 (va + npages * PGSIZE) in
  mfor (pages_from va (Z.to_nat ((last - va) / PGSIZE))) (fun a =>
    let* pte := walk pagetable a false in
    if pte =? 0 then panic "uvmunmap: walk" else
    let* e := ld64 pte in
    if negb (has e PTE_V) then panic "uvmunmap: not mapped" else
    if PTE_FLAGS e =? PTE_V then panic "uvmunmap: not a leaf" else
    (if do_free then kfree (PTE2PA e) else ret tt);;;
    st64 pte 0).

Definition uvmcreate : M St Z :=
  let* pagetable := kalloc in
  if pagetable =? 0 then ret 0 else
  kmemset pagetable 0 PGSIZE;;;
  ret pagetable.

(** [mem = kalloc()] is not tested: [memset(0, ...)] faults. *)
Definition uvmfirst (pagetable : Z) (src : list Z) : M St unit :=
  let sz := Z.of_nat (length src) in
  if PGSIZE <=? sz then panic "uvmfirst: more than a page" else
  let* mem := kalloc in
  kmemset mem 0 PGSIZE;;;
  let* r := mappages pagetable 0 PGSIZE mem
              (Z.lor (Z.lor (Z.lor PTE_W PTE_R) PTE_X) PTE_U) in
  pwrite mem src.

Definition uvmdealloc (pagetable oldsz newsz : Z) : M St Z :=
  if oldsz <=? newsz then ret oldsz else
  (if PGROUNDUP newsz <? PGROUNDUP oldsz then
     let npages := s32 ((PGROUNDUP oldsz - PGROUNDUP newsz) / PGSIZE) in
     uvmunmap pagetable (PGROUNDUP newsz) npages true
   else ret tt);;;
  ret newsz.

Definition uvmalloc (pagetable oldsz newsz xperm : Z) : M St Z :=
  if newsz <? oldsz then ret oldsz else
  let oldsz := PGROUNDUP oldsz in
  while (S (Z.to_nat ((newsz - oldsz + PGSIZE - 1) / PGSIZE)))
    (fun a =>
      if negb (a <? newsz) then ret (inr newsz) else
      let* mem := kalloc in
      if mem =? 0 then
        let* r := uvmdealloc pagetable a oldsz in
        ret (inr 0)
      else
      kmemset mem 0 PGSIZE;;;
      let* r := mappages pagetable a PGSIZE mem (Z.lor (Z.lor PTE_R PTE_U) xperm) in
      if negb (r =? 0) then
        kfree mem;;;
        let* r := uvmdealloc pagetable a oldsz in
        ret (inr 0)
      else
      ret (inl (u64 (a + PGSIZE)))) oldsz.

(** [depth] bounds the recursion: page tables have three levels. *)
Fixpoint freewalk (depth : nat) (pagetable : Z) : M St unit :=
  match depth with
  | O => spin
  | S depth =>
      mfor (zseq 0 512) (fun i =>
        let* pte := ld64 (pagetable + 8 * i) in
        if has pte PTE_V && (Z.land pte (Z.lor (Z.lor PTE_R PTE_W) PTE_X) =? 0) then
          freewalk depth (PTE2PA pte);;;
          st64 (pagetable + 8 * i) 0
        else if has pte PTE_V then panic "freewalk: leaf"
        else ret tt);;;
      kfree pagetable
  end.

Definition uvmfree (pagetable sz : Z) : M St unit :=
  (if 0 <? sz then uvmunmap pagetable 0 (PGROUNDUP sz / PGSIZE) true else ret tt);;;
  freewalk 3 pagetable.

(** The loop leaves with [Some i] on [goto err]. *)
Definition uvmcopy (old new sz : Z) : M St Z :=
  let* r := mloop (pages_from 0 (Z.to_nat ((sz + PGSIZE - 1) / PGSIZE))) (fun i =>
    let* pte := walk old i false in
    if pte =? 0 then panic "uvmcopy: pte should exist" else
    let* e := ld64 pte in
    if negb (has e PTE_V) then panic "uvmcopy: page not present" else
    let pa := PTE2PA e in
    let flags := PTE_FLAGS e in
    let* mem := kalloc in
    if mem =? 0 then ret (Some i) else
    kmemmove mem pa PGSIZE;;;
    let* r := mappages new i PGSIZE mem flags in
    if negb (r =? 0) then
      kfree mem;;;
      ret (Some i)
    else ret None) in
  match r with
  | None => ret 0
  | Some i => uvmunmap new 0 (i / PGSIZE) true;;; ret (-1)
  end.

Definition uvmclear (pagetable va : Z) : M St unit :=
  let* pte := walk pagetable va false in
  if pte =? 0 then panic "uvmclear" else
  let* e := ld64 pte in
  st64 pte (Z.land e (Z.lnot PTE_U)).

(** ** Copying between kernel and user memory *)

(** Every iteration but the last copies at least one byte. *)
Definition copyout (pagetable dstva : Z) (src : list Z) : M St Z :=
  while (S (length src)) (fun '(dstva, src) =>
    let len := Z.of_nat (length src) in
    if len =? 0 then ret (inr 0) else
    let va0 := PGROUNDDOWN dstva in
    let* pa0 := walkaddr pagetable va0 in
    if pa0 =? 0 then ret (inr (-1)) else
    let n := PGSIZE - (dstva - va0) in
    let n := if len <? n then len else n in
    pwrite (pa0 + (dstva - va0)) (take (Z.to_nat n) src);;;
    ret (inl (u64 (va0 + PGSIZE), drop (Z.to_nat n) src))) (dstva, src).

(** The result code with the bytes written to [dst]. *)
Definition copyin (pagetable srcva : Z) (len : nat) : M St (Z * list Z) :=
  while (S len) (fun '(srcva, len, dst) =>
    if len =? 0 then ret (inr (0, dst)) else
    let va0 := PGROUNDDOWN srcva in
    let* pa0 := walkaddr pagetable va0 in
    if pa0 =? 0 then ret (inr (-1, dst)) else
    let n := PGSIZE - (srcva - va0) in
    let n := if len <? n then len else n in
    let* bs := pread (pa0 + (srcva - va0)) (Z.to_nat n) in
    ret (inl (u64 (va0 + PGSIZE), len - n, dst ++ bs))) (srcva, Z.of_nat len, []).

(** The inner loop of [copyinstr]: [n] bytes from [p]; whether a NUL was
    seen, and the bytes stored. *)
Fixpoint copyinstr_page (n : nat) (p : Z) : M St (bool * list Z) :=
  match n with
  | O => ret (false, [])
  | S n =>
      let* b := pread p 1 in
      match b with
      | [c] =>
          if c =? 0 then ret (true, [0]) else
          let* '(got_null, bs) := copyinstr_page n (p + 1) in
          ret (got_null, c :: bs)
      | _ => fault
      end
  end.

Definition copyinstr (pagetable srcva : Z) (max : nat) : M St (Z * list Z) :=
  while (S max) (fun '(srcva, max, dst) =>
    if max =? 0 then ret (inr (-1, dst)) else
    let va0 := PGROUNDDOWN srcva in
    let* pa0 := walkaddr pagetable va0 in
    if pa0 =? 0 then ret (inr (-1, dst)) else
    let n := PGSIZE - (srcva - va0) in
    let n := if max <? n then max else n in
    let* '(got_null, bs) := copyinstr_page (Z.to_nat n) (pa0 + (srcva - va0)) in
    if (got_null : bool) then ret (inr (0, dst ++ bs)) else
    ret (inl (u64 (va0 + PGSIZE), max - n, dst ++ bs))) (srcva, Z.of_nat max, []).

(** ** The kernel page table *)

(** kernel/proc.c *)
Definition proc_mapstacks (kpgtbl : Z) : M St unit :=
  mfor (zseq 0 NPROC) (fun p =>
    let* pa := kalloc in
    if pa =? 0 then panic "kalloc" else
    kvmmap kpgtbl (KSTACK p) pa PGSIZE (Z.lor PTE_R PTE_W)).

Definition kvmmake : M St Z :=
  let* kpgtbl := kalloc in
  kmemset kpgtbl 0 PGSIZE;;;
  kvmmap kpgtbl UART0 UART0 PGSIZE (Z.lor PTE_R PTE_W);;;
  kvmmap kpgtbl VIRTIO0 VIRTIO0 PGSIZE (Z.lor PTE_R PTE_W);;;
  kvmmap kpgtbl PLIC PLIC 0x400000 (Z.lor PTE_R PTE_W);;;
  kvmmap kpgtbl KERNBASE KERNBASE (etext - KERNBASE) (Z.lor PTE_R PTE_X);;;
  kvmmap kpgtbl etext etext (PHYSTOP - etext) (Z.lor PTE_R PTE_W);;;
  kvmmap kpgtbl TRAMPOLINE trampoline PGSIZE (Z.lor PTE_R PTE_X);;;
  proc_mapstacks kpgtbl;;;
  ret kpgtbl.

Definition kvminit : M St unit :=
  let* p := kvmmake in
  modify (fun s => s.[krest := (krest s).[kernel_pagetable := p]]).
End vm.
