(* ===== verification/VmSpec.v ===== *)
(** Specification of kernel/vm.c.

    A page table is described by the map [T] from its page-table pages to the
    level they serve and the virtual-address prefix they cover ([pt_ok]); what
    it means is the pure Sv39 lookup [pt_lookup].  The theorems relate [walk],
    [mappages], [uvmunmap], [walkaddr] and the copy routines to that lookup. *)

From S2P Require Import Prelude CInt Machine KString Sched Kalloc Vm.

(** ** Bit-level facts about PTEs *)

Lemma lor_shiftl_add a f n : 0 <= n -> 0 <= f < 2 ^ n -> Z.lor (Z.shiftl a n) f = Z.shiftl a n + f.
Proof.
  intros Hn Hf. symmetry. apply Z.add_nocarry_lor. apply Z.bits_inj'. intros i Hi.
  rewrite Z.land_spec, Z.bits_0. destruct (Z.lt_ge_cases i n) as [Hlt|Hge].
  - by rewrite Z.shiftl_spec_low.
  - rewrite (proj2 (Z.testbit_false f i Hi)); [by rewrite andb_false_r|].
    rewrite Z.div_small; [done|].
    split; [lia|]. eapply Z.lt_le_trans; [apply Hf|]. by apply Z.pow_le_mono_r.
Qed.

Lemma PA2PTE_eq pa : 0 <= pa < W64 -> PA2PTE pa = pa / 4096 * 1024.
Proof.
  intros H. unfold PA2PTE. rewrite u64_small by done.
  rewrite Z.shiftl_mul_pow2, Z.shiftr_div_pow2 by lia. done.
Qed.

Lemma PA2PTE_lor pa f : 0 <= pa < W64 -> 0 <= f < 1024 ->
  Z.lor (PA2PTE pa) f = pa / 4096 * 1024 + f.
Proof.
  intros H Hf. rewrite <- PA2PTE_eq by done. unfold PA2PTE at 1.
  by rewrite (lor_shiftl_add _ f 10) by lia.
Qed.

Lemma PTE2PA_eq pte : 0 <= pte < 0x4000000000000000 -> PTE2PA pte = pte / 1024 * 4096.
Proof.
  intros H. unfold PTE2PA. rewrite Z.shiftl_mul_pow2, Z.shiftr_div_pow2 by lia.
  change (2 ^ 10) with 1024. change (2 ^ 12) with 4096. apply u64_small. dlia.
Qed.

Lemma PTE_FLAGS_eq pte : PTE_FLAGS pte = pte mod 1024.
Proof. apply (land_ones_mod pte 10). lia. Qed.

(** An address a PTE can hold: page aligned, at most 56 bits. *)
Definition pte_pa (pa : Z) : Prop := pa mod PGSIZE = 0 /\ 0 <= pa < 2 ^ 56.

Lemma pte_pa_W64 pa : pte_pa pa -> 0 <= pa < W64.
Proof. intros [_ H]. assert (2 ^ 56 < W64) by done. lia. Qed.

Lemma pte_make pa f :
  pte_pa pa -> 0 <= f < 1024 ->
  0 <= Z.lor (PA2PTE pa) f < W64 /\
  PTE2PA (Z.lor (PA2PTE pa) f) = pa /\ PTE_FLAGS (Z.lor (PA2PTE pa) f) = f.
Proof.
  intros Hpa Hf. pose proof (pte_pa_W64 _ Hpa) as Hw. destruct Hpa as [Hal Hpa].
  rewrite PA2PTE_lor by done. change (2 ^ 56) with 0x100000000000000 in Hpa. unfold PGSIZE in *.
  assert (0 <= pa / 4096 * 1024 + f < 0x4000000000000000) by dlia.
  split; [lia|]. rewrite PTE2PA_eq, PTE_FLAGS_eq by done. split; dlia.
Qed.

(** Testing one flag bit of a PTE only looks at its flags. *)
Lemma has_flags e n : 0 <= n < 10 -> has e (2 ^ n) = has (PTE_FLAGS e) (2 ^ n).
Proof.
  intros Hn. unfold has, PTE_FLAGS. rewrite <- Z.land_assoc. do 3 f_equal.
  rewrite Z.land_comm. change 0x3FF with (Z.ones 10). rewrite Z.land_ones by lia.
  symmetry. apply Z.mod_small. split; [apply Z.pow_nonneg; lia|]. apply Z.pow_lt_mono_r; lia.
Qed.

Lemma has_zero f : has 0 f = false.
Proof. unfold has. by rewrite Z.land_0_l. Qed.

(** ** Virtual addresses *)

(** [vpre l va]: the bits of [va] above the index of level [l-1]. *)
Definition vpre (l : nat) (va : Z) : Z := va / 2 ^ (12 + 9 * Z.of_nat l).

Lemma PX_eq l va : 0 <= va < W64 -> PX (Z.of_nat l) va = vpre l va mod 512.
Proof.
  intros Hva. unfold PX, PXSHIFT, PXMASK, PGSHIFT, vpre. rewrite u64_small by done.
  rewrite Z.shiftr_div_pow2 by lia. change 0x1FF with (Z.ones 9).
  by rewrite Z.land_ones by lia.
Qed.

Lemma PX_range l va : 0 <= PX l va < 512.
Proof.
  unfold PX, PXMASK. change 0x1FF with (Z.ones 9). rewrite Z.land_ones by lia.
  change (2 ^ 9) with 512. dlia.
Qed.

Lemma vpre_S l va : 0 <= va < W64 -> vpre l va = vpre (S l) va * 512 + PX (Z.of_nat l) va.
Proof.
  intros Hva. rewrite PX_eq by done. unfold vpre.
  replace (12 + 9 * Z.of_nat (S l)) with ((12 + 9 * Z.of_nat l) + 9) by lia.
  set (k := 12 + 9 * Z.of_nat l). assert (0 <= k) by lia.
  rewrite Z.pow_add_r by lia. rewrite <- Z.div_div by lia.
  change (2 ^ 9) with 512. pose proof (Z.div_mod (va / 2 ^ k) 512 ltac:(lia)). lia.
Qed.

Lemma vpre_root va : 0 <= va < MAXVA -> vpre 3 va = 0.
Proof. intros H. unfold vpre. apply Z.div_small. unfold MAXVA in H. simpl. lia. Qed.

Lemma vpre_0_page va : 0 <= va -> vpre 0 va = va / PGSIZE.
Proof. done. Qed.

(** ** Entries of a page-table page *)

Definition ent (m : gmap Z Z) (p i : Z) : Z := le_combine (mread m (p + 8 * i) 8).

Definition aligned (p : Z) : Prop := p mod PGSIZE = 0.

Lemma ent_range m p i : 0 <= ent m p i < W64.
Proof.
  unfold ent. pose proof (le_combine_range _ (mread_bytes m (p + 8 * i) 8)) as H.
  rewrite mread_length in H. exact H.
Qed.

Lemma ent_ext m m' p i :
  0 <= i < 512 -> (forall a, in_page p a -> mget m a = mget m' a) -> ent m p i = ent m' p i.
Proof.
  intros Hi H. unfold ent. f_equal. apply mread_ext. intros a Ha. apply H.
  unfold in_page, PGSIZE. lia.
Qed.

Lemma ent_write_same m p i v : 0 <= v < W64 -> ent (mwrite m (p + 8 * i) (le_split 8 v)) p i = v.
Proof.
  intros Hv. unfold ent. rewrite <- (le_split_length 8 v) at 2.
  rewrite mwrite_read by apply le_split_bytes. rewrite (le_combine_split 8).
  apply u64_small. done.
Qed.

Lemma ent_write_other m p i v q j :
  aligned p -> aligned q -> 0 <= i < 512 -> 0 <= j < 512 -> (p, i) <> (q, j) ->
  ent (mwrite m (p + 8 * i) (le_split 8 v)) q j = ent m q j.
Proof.
  intros Hp Hq Hi Hj Hne. unfold ent, aligned, PGSIZE in *. f_equal.
  apply mread_mwrite_ne. rewrite le_split_length.
  destruct (decide (p = q)) as [->|]; [assert (i <> j) by congruence; lia|].
  clear Hne. Z.to_euclidean_division_equations. lia.
Qed.

Lemma ent_memset_same m p i : 0 <= i < 512 -> ent (memset m p 0 PGSIZE) p i = 0.
Proof.
  intros Hi. unfold ent. change (u32 PGSIZE) with 4096.
  rewrite mread_memset by (change (u32 PGSIZE) with 4096; lia). done.
Qed.

Lemma ent_frame_page m m' p q i :
  aligned p -> aligned q -> p <> q -> 0 <= i < 512 ->
  (forall a, ~ in_page p a -> mget m' a = mget m a) -> ent m' q i = ent m q i.
Proof.
  intros Hp Hq Hne Hi Hm. apply ent_ext; [done|]. intros a Ha. apply Hm.
  unfold in_page, aligned, PGSIZE in *. Z.to_euclidean_division_equations. lia.
Qed.

(** ** The meaning of a page table *)

(** The level-0 page reached for [va] from page [p] of level [l]. *)
Fixpoint pwalk (l : nat) (m : gmap Z Z) (p va : Z) : option Z :=
  match l with
  | O => Some p
  | S l' => let e := ent m p (PX (Z.of_nat l) va) in
            if has e PTE_V then pwalk l' m (PTE2PA e) va else None
  end.

(** The level-0 PTE of [va]; 0 when a table on the way is missing. *)
Definition plookup (l : nat) (m : gmap Z Z) (p va : Z) : Z :=
  match pwalk l m p va with Some q => ent m q (PX 0 va) | None => 0 end.
Definition pt_lookup (m : gmap Z Z) (root va : Z) : Z := plookup 2 m root va.

Definition same_page (va va' : Z) : Prop := va / PGSIZE = va' / PGSIZE.
#[export] Instance same_page_dec va va' : Decision (same_page va va').
Proof. unfold same_page. apply _. Defined.

Definition user_va (va : Z) : Prop := 0 <= va < MAXVA.
Lemma user_va_W64 va : user_va va -> 0 <= va < W64.
Proof. unfold user_va, MAXVA. assert (2 ^ 38 < W64) by done. lia. Qed.

Section pt.
Context {img : KernelImage} {imgok : KernelImageOk}.
Implicit Types (m : gmap Z Z) (T : gmap Z (nat * Z)).

(** [T] labels each page-table page with its level and the virtual prefix it
    serves; interior entries point to pages with the right label. *)
Definition pt_ok m (root : Z) T : Prop :=
  T !! root = Some (2%nat, 0) /\
  forall p l pre, T !! p = Some (l, pre) ->
    page_ok p /\
    forall l' i, l = S l' -> 0 <= i < 512 -> has (ent m p i) PTE_V = true ->
      T !! PTE2PA (ent m p i) = Some (l', pre * 512 + i).

Lemma pt_ok_page m root T p x : pt_ok m root T -> T !! p = Some x -> page_ok p.
Proof. intros [_ H] Hp. destruct x. by apply H in Hp as [? _]. Qed.

Lemma page_ok_aligned p : page_ok p -> aligned p.
Proof. by intros [? _]. Qed.

Lemma page_ok_pte p : page_ok p -> pte_pa p.
Proof.
  intros [H1 H2]. pose proof etext_kend. pose proof kbase_etext.
  split; [done|]. unfold PHYSTOP, KERNBASE in *. assert (0x88000000 < 2 ^ 56) by done. lia.
Qed.

Lemma pt_next m root T p l va :
  pt_ok m root T -> 0 <= va < W64 -> T !! p = Some (S l, vpre (S (S l)) va) ->
  has (ent m p (PX (Z.of_nat (S l)) va)) PTE_V = true ->
  T !! PTE2PA (ent m p (PX (Z.of_nat (S l)) va)) = Some (l, vpre (S l) va).
Proof.
  intros [_ Hok] Hva Hp Hv. apply Hok in Hp as [_ Hp].
  rewrite (vpre_S (S l) va) by done. apply Hp; [done|apply PX_range|done].
Qed.

Lemma pwalk_owned m root T l p va q :
  pt_ok m root T -> 0 <= va < W64 -> T !! p = Some (l, vpre (S l) va) ->
  pwalk l m p va = Some q -> T !! q = Some (0%nat, vpre 1 va).
Proof.
  intros Hok Hva. revert p. induction l as [|l IH]; intros p Hp Hw; simpl in Hw.
  - by simplify_eq.
  - destruct (has _ _) eqn:Hv; [|done]. eapply IH; [|exact Hw]. by apply (pt_next m root).
Qed.

Lemma pwalk_root m root T va q :
  pt_ok m root T -> user_va va -> pwalk 2 m root va = Some q -> T !! q = Some (0%nat, vpre 1 va).
Proof.
  intros Hok Hva. apply (pwalk_owned m root T 2 root va q Hok); [by apply user_va_W64|].
  rewrite vpre_root by done. apply Hok.
Qed.

Lemma root_label m root T va : pt_ok m root T -> user_va va -> T !! root = Some (2%nat, vpre 3 va).
Proof. intros [H _] Hva. by rewrite vpre_root. Qed.

(** The page table only depends on its own pages. *)
Lemma pwalk_frame m m' root T l p va :
  pt_ok m root T -> 0 <= va < W64 -> T !! p = Some (l, vpre (S l) va) ->
  (forall q a, q ∈ dom T -> in_page q a -> mget m' a = mget m a) ->
  pwalk l m' p va = pwalk l m p va.
Proof.
  intros Hok Hva. revert p. induction l as [|l IH]; intros p Hp Hm; [done|]. cbn [pwalk].
  rewrite (ent_ext m' m) by (try apply PX_range; intros a; apply Hm, elem_of_dom; eauto).
  destruct (has _ _) eqn:Hv; [|done]. apply IH; [|done]. by apply (pt_next m root).
Qed.

Lemma pt_ok_frame m m' root T :
  (forall q a, q ∈ dom T -> in_page q a -> mget m' a = mget m a) ->
  pt_ok m root T -> pt_ok m' root T.
Proof.
  intros Hm [Hr Hok]. split; [done|]. intros p l pre Hp. destruct (Hok p l pre Hp) as [Hpo Hn].
  split; [done|]. intros l' i -> Hi.
  rewrite (ent_ext m' m) by (try done; intros a; apply Hm, elem_of_dom; eauto). by apply Hn.
Qed.

Lemma pt_lookup_frame m m' root T va :
  (forall q a, q ∈ dom T -> in_page q a -> mget m' a = mget m a) ->
  pt_ok m root T -> user_va va -> pt_lookup m' root va = pt_lookup m root va.
Proof.
  intros Hm Hok Hva. unfold pt_lookup, plookup. erewrite pwalk_frame; try done.
  - destruct (pwalk 2 m root va) as [q|] eqn:Hq; [|done].
    apply ent_ext; [apply PX_range|]. intros a. apply Hm, elem_of_dom.
    eapply pwalk_root in Hq; eauto.
  - by apply user_va_W64.
  - by eapply root_label.
Qed.

(** ** Storing a level-0 PTE *)

Lemma leaf_index va va' :
  user_va va -> user_va va' ->
  (vpre 1 va = vpre 1 va' /\ PX 0 va = PX 0 va') <-> same_page va va'.
Proof.
  intros Hva Hva'. apply user_va_W64 in Hva, Hva'. unfold same_page.
  rewrite <- !vpre_0_page by lia. pose proof (vpre_S 0 va Hva). pose proof (vpre_S 0 va' Hva').
  pose proof (PX_range 0 va). pose proof (PX_range 0 va').
  change (Z.of_nat 0) with 0 in *. lia.
Qed.

Lemma same_page_PX l va va' :
  user_va va -> user_va va' -> same_page va va' -> PX (Z.of_nat l) va = PX (Z.of_nat l) va'.
Proof.
  intros Hva%user_va_W64 Hva'%user_va_W64 Hs. rewrite !PX_eq by done. unfold vpre, same_page in *.
  rewrite !Z.pow_add_r by lia. rewrite <- !Z.div_div by lia.
  change (2 ^ 12) with PGSIZE. by rewrite Hs.
Qed.

Lemma same_page_PX0 va va' :
  user_va va -> user_va va' -> same_page va va' -> PX 0 va = PX 0 va'.
Proof. apply (same_page_PX 0). Qed.

Lemma same_page_pwalk l m p va va' :
  user_va va -> user_va va' -> same_page va va' -> pwalk l m p va = pwalk l m p va'.
Proof.
  intros Hva Hva' Hs. revert p. induction l as [|l IH]; intros p; [done|]. cbn [pwalk].
  rewrite (same_page_PX (S l) va va') by done. destruct (has _ _); [apply IH|done].
Qed.

Lemma same_page_lookup m root va va' :
  user_va va -> user_va va' -> same_page va va' -> pt_lookup m root va = pt_lookup m root va'.
Proof.
  intros Hva Hva' Hs. unfold pt_lookup, plookup. rewrite (same_page_pwalk 2 m root va va') by done.
  by rewrite (same_page_PX0 va va').
Qed.

Lemma store_leaf_pwalk m root T p va v l q va' :
  pt_ok m root T -> T !! p = Some (0%nat, vpre 1 va) -> 0 <= va' < W64 ->
  T !! q = Some (l, vpre (S l) va') ->
  pwalk l (mwrite m (p + 8 * PX 0 va) (le_split 8 v)) q va' = pwalk l m q va'.
Proof.
  intros Hok Hp Hva'. revert q. induction l as [|l IH]; intros q Hq; [done|]. cbn [pwalk].
  rewrite ent_write_other; try apply PX_range;
    try (eapply page_ok_aligned, pt_ok_page; eauto; fail).
  - destruct (has _ _) eqn:Hv; [|done]. apply IH. by apply (pt_next m root).
  - intros [= -> _]. simplify_eq.
Qed.

Lemma store_leaf m root T va v p :
  pt_ok m root T -> user_va va -> pwalk 2 m root va = Some p -> 0 <= v < W64 ->
  let m' := mwrite m (p + 8 * PX 0 va) (le_split 8 v) in
  pt_ok m' root T /\
  (forall va', user_va va' -> pwalk 2 m' root va' = pwalk 2 m root va') /\
  (forall va', user_va va' ->
     pt_lookup m' root va' = if decide (same_page va va') then v else pt_lookup m root va').
Proof.
  intros Hok Hva Hw Hv m'. pose proof (pwalk_root _ _ _ _ _ Hok Hva Hw) as Hp.
  assert (Hpw : forall va', user_va va' -> pwalk 2 m' root va' = pwalk 2 m root va').
  { intros va' Hva'. eapply store_leaf_pwalk; eauto using user_va_W64, root_label. }
  pose proof (page_ok_aligned _ (pt_ok_page _ _ _ _ _ Hok Hp)) as Hal.
  split_and!; [|done|].
  - destruct Hok as [Hr Hok]. split; [done|]. intros q l pre Hq.
    destruct (Hok q l pre Hq) as [Hqo Hn]. split; [done|]. intros l' i -> Hi.
    unfold m'. rewrite ent_write_other; try done; [by apply Hn|apply Hqo|apply PX_range|].
    intros [= -> _]. simplify_eq.
  - intros va' Hva'. unfold pt_lookup, plookup. rewrite Hpw by done. case_decide as Hs.
    + rewrite <- (same_page_pwalk 2 m root va va') by done. rewrite Hw.
      rewrite <- (same_page_PX0 va va') by done. by apply ent_write_same.
    + destruct (pwalk 2 m root va') as [q|] eqn:Hq; [|done].
      pose proof (pwalk_root _ _ _ _ _ Hok Hva' Hq) as Hqo.
      apply ent_write_other; try apply PX_range; try done.
      { eapply page_ok_aligned, pt_ok_page; eauto. }
      intros [= -> Hi]. apply Hs, leaf_index; try done. split; [|done]. by simplify_eq.
Qed.

(** ** Adding a page-table page *)

(** Memory after [walk] has linked the zeroed page [n] into entry [i] of [p]. *)
Definition link_table m (p i n : Z) : gmap Z Z :=
  mwrite (memset (mem_junked m n) n 0 PGSIZE) (p + 8 * i) (le_split 8 (Z.lor (PA2PTE n) PTE_V)).

Lemma link_table_pte n : page_ok n ->
  0 <= Z.lor (PA2PTE n) PTE_V < W64 /\ PTE2PA (Z.lor (PA2PTE n) PTE_V) = n /\
  has (Z.lor (PA2PTE n) PTE_V) PTE_V = true.
Proof.
  intros Hn%page_ok_pte. destruct (pte_make n PTE_V Hn ltac:(done)) as (H1 & H2 & H3).
  split; [done|]. split; [done|]. change PTE_V with (2 ^ 0) at 2. rewrite has_flags by lia.
  by rewrite H3.
Qed.

Lemma link_table_frame m p i n a :
  aligned p -> 0 <= i < 512 -> ~ in_page p a -> ~ in_page n a ->
  mget (link_table m p i n) a = mget m a.
Proof.
  intros Hp Hi Ha Hn. unfold link_table.
  rewrite mwrite_frame by (rewrite le_split_length; unfold in_page, PGSIZE in *; lia).
  rewrite memset_mget, decide_False by (unfold in_page, PGSIZE in *; change (u32 4096) with 4096; lia).
  by apply mem_junked_frame.
Qed.

Lemma link_table_ent m p i n q j :
  aligned p -> aligned q -> aligned n -> 0 <= i < 512 -> 0 <= j < 512 -> p <> n ->
  ent (link_table m p i n) q j =
    if decide (q = p /\ j = i) then u64 (Z.lor (PA2PTE n) PTE_V)
    else if decide (q = n) then 0 else ent m q j.
Proof.
  intros Hp Hq Hn Hi Hj Hne. unfold link_table. case_decide as Hc.
  - destruct Hc as [-> ->]. rewrite <- le_combine_split64. unfold ent.
    rewrite <- (le_split_length 8 (Z.lor (PA2PTE n) PTE_V)) at 2.
    by rewrite mwrite_read by apply le_split_bytes.
  - rewrite ent_write_other by (done || naive_solver). case_decide as Hqn.
    + subst. by apply ent_memset_same.
    + apply (ent_frame_page _ _ n); try done. intros a Ha. rewrite memset_mget, decide_False.
      * by apply mem_junked_frame.
      * unfold in_page, PGSIZE in *. change (u32 4096) with 4096. lia.
Qed.

Section link.
Context m root T p i n l pre (Hok : pt_ok m root T) (Hp : T !! p = Some (S l, pre))
  (Hi : 0 <= i < 512) (Hnv : has (ent m p i) PTE_V = false) (Hn : T !! n = None) (Hpo : page_ok n).

Lemma link_entry q j : page_ok q -> 0 <= j < 512 ->
  ent (link_table m p i n) q j =
    if decide (q = p /\ j = i) then Z.lor (PA2PTE n) PTE_V
    else if decide (q = n) then 0 else ent m q j.
Proof.
  intros Hq Hj. destruct (link_table_pte n Hpo) as (Hw & _ & _).
  rewrite link_table_ent; try done; try by apply page_ok_aligned.
  - by rewrite u64_small.
  - eapply page_ok_aligned, pt_ok_page; eauto.
  - intros ->. congruence.
Qed.

Lemma link_pt_ok : pt_ok (link_table m p i n) root (<[n := (l, pre * 512 + i)]> T).
Proof.
  destruct (link_table_pte n Hpo) as (_ & H2 & H3). split.
  - rewrite lookup_insert_ne; [apply Hok|]. intros <-. destruct Hok. congruence.
  - intros q k pre' Hq. rewrite lookup_insert in Hq. case_decide as Hqn.
    + rewrite <- Hqn. split; [done|]. intros l' j _ Hj. rewrite link_entry by done.
      rewrite decide_False by (intros [? _]; congruence).
      rewrite decide_True by done. by rewrite has_zero.
    + destruct (proj2 Hok q k pre' Hq) as [Hqo Hnx]. split; [done|]. intros l' j -> Hj.
      rewrite link_entry by done. case_decide as Hc.
      * destruct Hc as [-> ->]. intros _. rewrite H2, lookup_insert_eq.
        rewrite Hp in Hq. by injection Hq as -> ->.
      * rewrite decide_False by congruence. intros Hv. specialize (Hnx l' j eq_refl Hj Hv).
        rewrite lookup_insert_ne; [done|]. intros Heq. rewrite <- Heq in Hnx. congruence.
Qed.

Lemma link_walk k q va :
  0 <= va < W64 -> T !! q = Some (k, vpre (S k) va) ->
  (forall r, pwalk k m q va = Some r -> pwalk k (link_table m p i n) q va = Some r) /\
  plookup k (link_table m p i n) q va = plookup k m q va.
Proof.
  intros Hva. destruct (link_table_pte n Hpo) as (_ & H2 & H3). revert q.
  induction k as [|k IH]; intros q Hq; pose proof (pt_ok_page _ _ _ _ _ Hok Hq) as Hqo.
  - split; [done|]. unfold plookup. cbn [pwalk]. rewrite link_entry by (try done; apply PX_range).
    rewrite decide_False by (intros [-> _]; congruence).
    by rewrite decide_False by congruence.
  - unfold plookup. cbn [pwalk]. rewrite link_entry by (try done; apply PX_range).
    case_decide as Hc.
    + destruct Hc as [Hqp Hidx]. rewrite Hqp, Hidx, Hnv, H2, H3. split; [done|].
      assert (plookup k (link_table m p i n) n va = 0) as Hz; [|exact Hz].
      destruct k; unfold plookup; cbn [pwalk];
        (rewrite link_entry by (try done; apply PX_range);
         rewrite decide_False by (intros [? _]; congruence); rewrite decide_True by done).
      * done.
      * by rewrite has_zero.
    + rewrite decide_False by congruence. 
      destruct (has (ent m q (PX (Z.of_nat (S k)) va)) PTE_V) eqn:Hv; [|by split].
      apply IH. by apply (pt_next m root).
Qed.

Lemma link_reaches va :
  0 <= va < W64 -> vpre (S (S l)) va = pre -> PX (Z.of_nat (S l)) va = i ->
  vpre (S l) va = pre * 512 + i.
Proof. intros Hva <- <-. by apply vpre_S. Qed.
End link.
End pt.

(** ** Executions of [walk] *)

Section walk.
Context {img : KernelImage} {imgok : KernelImageOk} {R : Type}.
Abbreviation St := (Kst (KMem R)).
Implicit Types (s : St) (T : gmap Z (nat * Z)) (l : list Z).

(** Allocator and page table are well formed and share no page. *)
Record vm_inv (root : Z) T l s : Prop := {
  vi_kalloc : kalloc_inv l s;
  vi_pt : pt_ok (kmem s) root T;
  vi_disj : forall q, q ∈ dom T -> q ∉ l;
  vi_lock : kmem_lock ∉ held s;
}.

(** What an operation that only adds pages to a page table may change. *)
Record vm_grow (root : Z) T l s T' l' s' : Prop := {
  vg_inv : vm_inv root T' l' s';
  vg_sub : T ⊆ T';
  vg_suf : l' `suffix_of` l;
  vg_dom : forall q, q ∈ dom T' -> q ∈ dom T \/ (q ∈ l /\ q ∉ l');
  vg_keep : forall q, q ∈ l -> q ∈ l' \/ q ∈ dom T';
  vg_frame : forall a, (forall q, q ∈ dom T \/ q ∈ l -> ~ in_page q a) ->
    mget (kmem s') a = mget (kmem s) a;
  vg_rest : s' = set_mem (kmem s') (set_freelist (freelist (krest s')) s);
  vg_ent : forall p k pre i, T !! p = Some (S k, pre) -> 0 <= i < 512 ->
    has (ent (kmem s) p i) PTE_V = true -> ent (kmem s') p i = ent (kmem s) p i;
}.

Lemma vm_grow_walk root T l s T' l' s' k p va q :
  vm_grow root T l s T' l' s' -> pt_ok (kmem s) root T -> 0 <= va < W64 ->
  T !! p = Some (k, vpre (S k) va) ->
  pwalk k (kmem s) p va = Some q -> pwalk k (kmem s') p va = Some q.
Proof.
  intros Hg Hok Hva. revert p. induction k as [|k IH]; intros p Hp Hw; [done|]. cbn [pwalk] in *.
  destruct (has _ _) eqn:Hv in Hw; [|done].
  rewrite (vg_ent _ _ _ _ _ _ _ Hg _ _ _ _ Hp (PX_range _ _) Hv), Hv.
  apply IH; [|done]. by apply (pt_next (kmem s) root).
Qed.

Lemma vm_grow_refl root T l s : vm_inv root T l s -> vm_grow root T l s T l s.
Proof.
  intros H. split; [done|done|by exists []|by left|by left|done|by rewrite set_id|done].
Qed.

Lemma vm_grow_trans root T l s T1 l1 s1 T2 l2 s2 :
  vm_grow root T l s T1 l1 s1 -> vm_grow root T1 l1 s1 T2 l2 s2 -> vm_grow root T l s T2 l2 s2.
Proof.
  intros [I1 S1 F1 D1 K1 M1 R1 W1] [I2 S2 F2 D2 K2 M2 R2 W2]. split; try done.
  - by etrans.
  - by etrans.
  - intros q Hq. destruct (D2 q Hq) as [Hq1|[Hq1 Hq2]].
    + destruct (D1 q Hq1) as [|[? ?]]; [by left|right]. split; [done|].
      intros Hin. apply (vi_disj _ _ _ _ I1 q Hq1). destruct F2 as [k ->]. set_solver.
    + right. split; [|done]. destruct F1 as [k ->]. set_solver.
  - intros q Hq. destruct (K1 q Hq) as [Hq1|Hq1]; [by apply K2|right].
    apply elem_of_dom in Hq1 as [x Hx]. apply elem_of_dom. exists x. by eapply lookup_weaken.
  - intros a Ha. rewrite M2, M1; try done. intros q Hq. apply Ha.
    destruct Hq as [Hq|Hq]; [destruct (D1 q Hq); naive_solver|].
    right. destruct F1 as [k ->]. set_solver.
  - rewrite R2 at 1. rewrite R1 at 1. by kmem_simpl.
  - intros p k pre i Hp Hi Hv. assert (Hp1 : T1 !! p = Some (S k, pre)) by by eapply lookup_weaken.
    rewrite (W2 p k pre i Hp1 Hi); [by eapply W1|by erewrite W1].
Qed.

Lemma entry_in_ram p i : page_ok p -> 0 <= i < 512 -> in_ram (p + 8 * i) 8 = true.
Proof.
  intros Hp Hi. eapply in_ram_sub; [by apply page_ok_ram|lia|unfold PGSIZE; lia].
Qed.

Lemma ld_ent p i s : page_ok p -> 0 <= i < 512 -> ld64 (p + 8 * i) s = Ok (ent (kmem s) p i) s.
Proof. intros Hp Hi. apply ld64_ok. by apply entry_in_ram. Qed.

Lemma walk_from_noalloc root T k p va s :
  pt_ok (kmem s) root T -> 0 <= va < W64 -> T !! p = Some (k, vpre (S k) va) ->
  walk_from k p va false s =
    Ok (match pwalk k (kmem s) p va with Some q => q + 8 * PX 0 va | None => 0 end) s.
Proof.
  intros Hok Hva. revert p. induction k as [|k IH]; intros p Hp; [done|]. cbn [walk_from pwalk].
  erewrite bind_Ok by (apply ld_ent; [by eapply pt_ok_page|apply PX_range]).
  destruct (has (ent (kmem s) p (PX (Z.of_nat (S k)) va)) PTE_V) eqn:Hv; [|done].
  apply IH. by apply (pt_next (kmem s) root).
Qed.

Lemma walk_noalloc root T va s :
  pt_ok (kmem s) root T -> user_va va ->
  walk root va false s =
    Ok (match pwalk 2 (kmem s) root va with Some q => q + 8 * PX 0 va | None => 0 end) s.
Proof.
  intros Hok Hva. unfold walk. replace (MAXVA <=? va) with false by (unfold user_va in Hva; lia).
  eapply walk_from_noalloc; [exact Hok|by apply user_va_W64|by eapply root_label].
Qed.

(** Lookups are unchanged. *)
Definition same_lookups (root : Z) s s' : Prop :=
  forall va, user_va va -> pt_lookup (kmem s') root va = pt_lookup (kmem s) root va.

(** The allocating step of [walk]: the first free page becomes a table. *)
Definition linked p i n s : St :=
  set_mem (link_table (kmem s) p i n) (set_freelist (le_combine (mread (kmem s) n 8)) s).

Lemma kmem_linked p i n s : kmem (linked p i n s) = link_table (kmem s) p i n.
Proof. reflexivity. Qed.

Lemma linked_rest p i n s :
  linked p i n s =
    set_mem (kmem (linked p i n s)) (set_freelist (freelist (krest (linked p i n s))) s).
Proof. rewrite kmem_linked. unfold linked. by kmem_simpl. Qed.

Lemma linked_exec p i n l s :
  kmem_lock ∉ held s -> kalloc_inv (n :: l) s -> page_ok p -> 0 <= i < 512 ->
  exists s1 s2,
    kalloc s = Ok n s1 /\ kmemset n 0 PGSIZE s1 = Ok tt s2 /\
    st64 (p + 8 * i) (Z.lor (PA2PTE n) PTE_V) s2 = Ok tt (linked p i n s).
Proof.
  intros Hlk Hka Hp Hi.
  assert (Hno : page_ok n) by (eapply kalloc_inv_page; [exact Hka|apply list_elem_of_here]).
  eexists _, _. split; [by eapply kalloc_eq_cons|].
  split; [by apply kmemset_ok, page_ok_ram|].
  rewrite st64_ok by by apply entry_in_ram. by kmem_simpl.
Qed.

Lemma linked_kalloc p i n l s :
  page_ok p -> 0 <= i < 512 -> p ∉ n :: l -> kalloc_inv (n :: l) s -> kalloc_inv l (linked p i n s).
Proof.
  intros Hpo Hi Hpl Hka.
  assert (Hno : page_ok n) by (eapply kalloc_inv_page; [exact Hka|apply list_elem_of_here]).
  eapply (kalloc_inv_frame l (set_mem (mem_junked (kmem s) n)
           (set_freelist (le_combine (mread (kmem s) n 8)) s))); [done| |by apply kalloc_inv_alloc].
  intros q a Hq Ha. rewrite kmem_linked.
  change (mget (link_table (kmem s) p i n) a = mget (mem_junked (kmem s) n) a).
  assert (page_ok q) by (eapply kalloc_inv_page; [exact Hka|by apply list_elem_of_further]).
  assert (q <> n). { intros ->. destruct Hka as [_ Hnd]. by apply NoDup_cons in Hnd as [? _]. }
  assert (q <> p) by (intros ->; by apply Hpl, list_elem_of_further).
  rewrite mem_junked_frame by by eapply page_disjoint.
  apply link_table_frame; [by apply page_ok_aligned|done| |]; by eapply page_disjoint.
Qed.

#[local] Opaque linked link_table.

Lemma linked_grow root T n l s k p i pre :
  vm_inv root T (n :: l) s -> T !! p = Some (S k, pre) -> 0 <= i < 512 ->
  has (ent (kmem s) p i) PTE_V = false ->
  vm_grow root T (n :: l) s (<[n := (k, pre * 512 + i)]> T) l (linked p i n s) /\
  same_lookups root s (linked p i n s).
Proof.
  intros [Hka Hpt Hdis Hlk] Hp Hi Hnv.
  assert (Hno : page_ok n) by (eapply kalloc_inv_page; [exact Hka|apply list_elem_of_here]).
  assert (Hpo : page_ok p) by by eapply pt_ok_page.
  assert (HnT : T !! n = None).
  { apply not_elem_of_dom. intros Hd. apply (Hdis n Hd), list_elem_of_here. }
  assert (HpT : p ∈ dom T) by (apply elem_of_dom; eauto).
  pose proof (link_walk (kmem s) root T p i n k pre Hpt Hp Hi Hnv HnT Hno 2) as Hlw.
  assert (Hpl : p ∉ n :: l) by by apply Hdis.
  destruct Hka as [Hfl Hnd]. pose proof (conj Hfl Hnd : kalloc_inv (n :: l) s) as Hka.
  apply NoDup_cons in Hnd as [Hnl _].
  split.
  - split.
    + split.
      * by apply linked_kalloc.
      * rewrite kmem_linked. by apply (link_pt_ok _ _ _ _ _ _ k pre).
      * intros q. rewrite dom_insert, elem_of_union, elem_of_singleton. intros [->|Hq]; [done|].
        intros Hql. by apply (Hdis q Hq), list_elem_of_further.
      * exact Hlk.
    + by apply insert_subseteq.
    + by exists [n].
    + intros q. rewrite dom_insert, elem_of_union, elem_of_singleton. intros [->|Hq]; [right|by left].
      split; [apply list_elem_of_here|done].
    + intros q [->|Hq]%elem_of_cons; [right|by left]. rewrite dom_insert. set_solver.
    + intros a Ha. rewrite kmem_linked. apply link_table_frame; [by apply page_ok_aligned|done| |];
        apply Ha; [by left|]. right. apply list_elem_of_here.
    + apply linked_rest.
    + intros q k' pre' j Hq Hj Hv.
      assert (q <> n) by (intros ->; congruence).
      rewrite kmem_linked, (link_entry (kmem s) root T p i n k pre) by (done || by eapply pt_ok_page).
      rewrite decide_False by (intros [-> ->]; congruence). by rewrite decide_False.
  - intros va Hva. rewrite kmem_linked. apply Hlw; [by apply user_va_W64|by eapply root_label].
Qed.

Lemma walk_from_alloc root k p va T l s :
  vm_inv root T l s -> 0 <= va < W64 -> T !! p = Some (k, vpre (S k) va) ->
  exists T' l' s' r,
    walk_from k p va true s = Ok r s' /\ vm_grow root T l s T' l' s' /\ same_lookups root s s' /\
    (r = 0 /\ l' = [] \/
     exists q, pwalk k (kmem s') p va = Some q /\ r = q + 8 * PX 0 va).
Proof.
  intros Hinv Hva. revert p T l s Hinv. induction k as [|k IH]; intros p T l s Hinv Hp.
  { exists T, l, s, (p + 8 * PX 0 va). split; [done|]. split; [by apply vm_grow_refl|].
    split; [done|]. right. by exists p. }
  pose proof (vi_pt _ _ _ _ Hinv) as Hpt.
  assert (Hpo : page_ok p) by by eapply pt_ok_page.
  pose proof (PX_range (Z.of_nat (S k)) va) as Hpx.
  cbn [walk_from]. erewrite bind_Ok by by apply ld_ent.
  destruct (has (ent (kmem s) p (PX (Z.of_nat (S k)) va)) PTE_V) eqn:Hv.
  - destruct (IH _ T l s Hinv (pt_next _ _ _ _ _ _ Hpt Hva Hp Hv)) as (T' & l' & s' & r & H1 & H2 & H3 & H4).
    exists T', l', s', r. split_and!; try done. destruct H4 as [H4|(q & Hq & Hr)]; [by left|right].
    exists q. split; [|done]. cbn [pwalk].
    by rewrite (vg_ent _ _ _ _ _ _ _ H2 _ _ _ _ Hp Hpx Hv), Hv.
  - cbn [negb]. pose proof (vi_lock _ _ _ _ Hinv) as Hlk. destruct l as [|n l].
    + erewrite bind_Ok by (by apply kalloc_eq_nil; [|apply Hinv]). cbn.
      exists T, [], s, 0. split_and!; try done; [by apply vm_grow_refl|by left].
    + assert (Hno : page_ok n)
        by (eapply kalloc_inv_page; [apply Hinv|apply list_elem_of_here]).
      destruct (linked_exec p (PX (Z.of_nat (S k)) va) n l s Hlk (vi_kalloc _ _ _ _ Hinv) Hpo Hpx)
        as (s1 & s2 & E1 & E2 & E3).
      rewrite (bind_Ok _ _ _ _ _ E1).
      replace (n =? 0) with false
        by (pose proof (page_ok_pos n Hno); unfold KERNBASE in *; lia).
      rewrite (bind_Ok _ _ _ _ _ E2), (bind_Ok _ _ _ _ _ E3). clear s1 s2 E1 E2 E3.
      destruct (linked_grow root T n l s k p _ _ Hinv Hp Hpx Hv) as [Hg Hsl].
      assert (Hn : <[n:=(k, vpre (S (S k)) va * 512 + PX (Z.of_nat (S k)) va)]> T !! n
                   = Some (k, vpre (S k) va)).
      { rewrite lookup_insert_eq. by rewrite (vpre_S (S k) va). }
      destruct (IH n _ l _ (vg_inv _ _ _ _ _ _ _ Hg) Hn) as (T' & l' & s' & r & H1 & H2 & H3 & H4).
      exists T', l', s', r. split; [done|]. split; [by eapply vm_grow_trans|].
      split; [intros va' Hva'; by rewrite H3, Hsl|].
      destruct H4 as [H4|(q & Hq & Hr)]; [by left|right]. exists q. split; [|done]. cbn [pwalk].
      assert (He : ent (kmem s') p (PX (Z.of_nat (S k)) va) = Z.lor (PA2PTE n) PTE_V).
      { assert (HTn : T !! n = None).
        { apply not_elem_of_dom. intros Hd. apply (vi_disj _ _ _ _ Hinv n Hd), list_elem_of_here. }
        assert (Hlt : ent (kmem (linked p (PX (Z.of_nat (S k)) va) n s)) p (PX (Z.of_nat (S k)) va)
                      = Z.lor (PA2PTE n) PTE_V).
        { rewrite kmem_linked, (link_entry (kmem s) root T p _ n k _ Hpt Hp Hpx Hv HTn Hno) by done.
          by rewrite decide_True. }
        destruct (link_table_pte n Hno) as (_ & E2 & E3).
        rewrite <- Hlt. eapply (vg_ent _ _ _ _ _ _ _ H2 p k); [|done|by rewrite Hlt].
        rewrite lookup_insert_ne; [exact Hp|congruence]. }
      destruct (link_table_pte n Hno) as (_ & E2 & E3). by rewrite He, E3, E2.
Qed.

Lemma walk_alloc root va T l s :
  vm_inv root T l s -> user_va va ->
  exists T' l' s' r,
    walk root va true s = Ok r s' /\ vm_grow root T l s T' l' s' /\ same_lookups root s s' /\
    (r = 0 /\ l' = [] \/
     exists q, pwalk 2 (kmem s') root va = Some q /\ r = q + 8 * PX 0 va /\ r <> 0).
Proof.
  intros Hinv Hva. unfold walk. replace (MAXVA <=? va) with false by (unfold user_va in Hva; lia).
  destruct (walk_from_alloc root 2 root va T l s Hinv (user_va_W64 _ Hva)
    (root_label _ _ _ _ (vi_pt _ _ _ _ Hinv) Hva)) as (T' & l' & s' & r & H1 & H2 & H3 & H4).
  exists T', l', s', r. split_and!; try done. destruct H4 as [?|(q & Hq & Hr)]; [by left|right].
  exists q. split_and!; [done|done|]. pose proof (vi_pt _ _ _ _ (vg_inv _ _ _ _ _ _ _ H2)) as Hpt.
  pose proof (pt_ok_page _ _ _ _ _ Hpt (pwalk_root _ _ _ _ _ Hpt Hva Hq)) as Hqo.
  apply page_ok_pos in Hqo. pose proof (PX_range 0 va). unfold KERNBASE in *. lia.
Qed.

(** Storing a level-0 PTE. *)
Definition stored va v p s : St := set_mem (mwrite (kmem s) (p + 8 * PX 0 va) (le_split 8 v)) s.

Lemma stored_grow root T l s va p v :
  vm_inv root T l s -> user_va va -> pwalk 2 (kmem s) root va = Some p -> 0 <= v < W64 ->
  st64 (p + 8 * PX 0 va) v s = Ok tt (stored va v p s) /\
  vm_grow root T l s T l (stored va v p s) /\
  (forall va', user_va va' -> pt_lookup (kmem (stored va v p s)) root va' =
     if decide (same_page va va') then v else pt_lookup (kmem s) root va').
Proof.
  intros [Hka Hpt Hdis Hlk] Hva Hw Hv.
  pose proof (pwalk_root _ _ _ _ _ Hpt Hva Hw) as Hp.
  pose proof (pt_ok_page _ _ _ _ _ Hpt Hp) as Hpo. pose proof (PX_range 0 va) as Hpx.
  destruct (store_leaf _ _ _ _ v _ Hpt Hva Hw Hv) as (Hok & Hpw & Hlu).
  unfold stored. split_and!; [by apply st64_ok, entry_in_ram| |intros va'; rewrite kmem_set_mem; by apply Hlu].
  assert (Hfr : forall a, ~ in_page p a ->
    mget (mwrite (kmem s) (p + 8 * PX 0 va) (le_split 8 v)) a = mget (kmem s) a).
  { intros a Ha. apply mwrite_frame. rewrite le_split_length.
    unfold in_page, PGSIZE in *. lia. }
  assert (HpT : p ∈ dom T) by (apply elem_of_dom; eauto).
  split; [|done|by exists []|by left|by left| | |].
  - split; rewrite ?kmem_set_mem, ?held_set_mem; try done.
    apply (kalloc_inv_frame l s); [done| |done]. rewrite kmem_set_mem. intros q a Hq Ha. apply Hfr.
    eapply page_disjoint; [by eapply kalloc_inv_page|done| |done]. intros ->. by apply (Hdis p).
  - intros a Ha. rewrite kmem_set_mem. apply Hfr, Ha. by left.
  - rewrite kmem_set_mem, freelist_set_mem. rewrite <- set_freelist_set_mem.
    rewrite <- (set_id s) at 2. by kmem_simpl.
  - intros q k pre i Hq Hi _. rewrite kmem_set_mem. apply ent_write_other; try done.
    + by apply page_ok_aligned.
    + by eapply page_ok_aligned, pt_ok_page.
    + intros [= -> _]. congruence.
Qed.

(** ** [mappages] *)

(** The page-table contents after the [k] pages from [a] have been mapped to
    the physical pages from [pa]. *)
Definition leaf_pte (pa perm : Z) : Z := Z.lor (Z.lor (PA2PTE pa) perm) PTE_V.
Definition mapped_range (f : Z -> Z) (a pa perm : Z) (k : Z) (va : Z) : Z :=
  let i := va / PGSIZE - a / PGSIZE in
  if decide (0 <= i < k) then leaf_pte (pa + i * PGSIZE) perm else f va.

Lemma leaf_pte_lor pa perm : leaf_pte pa perm = Z.lor (PA2PTE pa) (Z.lor perm PTE_V).
Proof. unfold leaf_pte. by rewrite Z.lor_assoc. Qed.

Lemma lor_flags perm f : 0 <= perm < 1024 -> 0 <= f < 1024 -> 0 <= Z.lor perm f < 1024.
Proof.
  intros Hp Hf. split; [apply Z.lor_nonneg; lia|].
  assert (H : Z.lor perm f mod 2 ^ 10 = Z.lor perm f); [|dlia].
  rewrite <- Z.land_ones by lia. apply Z.bits_inj'. intros i Hi.
  rewrite Z.land_spec, Z.lor_spec. destruct (Z.lt_ge_cases i 10) as [Hlt|Hge].
  - rewrite Z.ones_spec_low by lia. by rewrite andb_true_r.
  - rewrite Z.ones_spec_high by lia. rewrite andb_false_r.
    rewrite <- (Z.mod_small perm (2 ^ 10)), <- (Z.mod_small f (2 ^ 10)) by lia.
    by rewrite !Z.mod_pow2_bits_high by lia.
Qed.

Lemma leaf_pte_ok pa perm :
  pte_pa pa -> 0 <= perm < 1024 ->
  0 <= leaf_pte pa perm < W64 /\ PTE2PA (leaf_pte pa perm) = pa /\
  PTE_FLAGS (leaf_pte pa perm) = Z.lor perm PTE_V /\ has (leaf_pte pa perm) PTE_V = true.
Proof.
  intros Hpa Hperm. rewrite leaf_pte_lor.
  assert (Hf : 0 <= Z.lor perm PTE_V < 1024) by (apply lor_flags; [done|by unfold PTE_V]).
  destruct (pte_make pa _ Hpa Hf) as (H1 & H2 & H3). split_and!; try lia; try done.
  change PTE_V with (2 ^ 0) at 2. rewrite has_flags by lia. rewrite H3. unfold has.
  apply negb_true_iff, Z.eqb_neq. intros H0.
  assert (Hb : Z.testbit (Z.land (Z.lor perm PTE_V) (2 ^ 0)) 0 = true).
  { rewrite Z.land_spec, Z.lor_spec. by rewrite orb_true_r. }
  by rewrite H0 in Hb.
Qed.

(** Loading the entry a successful [walk] points to. *)
Lemma ld_leaf root T l s va q :
  vm_inv root T l s -> user_va va -> pwalk 2 (kmem s) root va = Some q ->
  ld64 (q + 8 * PX 0 va) s = Ok (pt_lookup (kmem s) root va) s.
Proof.
  intros [_ Hpt _ _] Hva Hq. unfold pt_lookup, plookup. rewrite Hq.
  apply ld_ent; [|apply PX_range]. eapply pt_ok_page; [done|by eapply pwalk_root].
Qed.

Definition mappages_body (pagetable perm last : Z) : Z * Z -> M St (Z * Z + Z) :=
  fun '(a, pa) =>
    let* pte := walk pagetable a true in
    if pte =? 0 then ret (inr (-1)) else
    let* e := ld64 pte in
    if has e PTE_V then panic "mappages: remap" else
    st64 pte (Z.lor (Z.lor (PA2PTE pa) perm) PTE_V);;;
    if a =? last then ret (inr 0) else
    ret (inl (u64 (a + PGSIZE), u64 (pa + PGSIZE))).

(** One page: either the allocator is exhausted, or the page is mapped. *)
Lemma mappages_step root perm last a pa T l s :
  vm_inv root T l s -> user_va a -> pte_pa pa -> 0 <= perm < 1024 ->
  has (pt_lookup (kmem s) root a) PTE_V = false ->
  exists T' l' s',
    vm_grow root T l s T' l' s' /\
    (mappages_body root perm last (a, pa) s = Ok (inr (-1)) s' /\ l' = [] /\ same_lookups root s s' \/
     mappages_body root perm last (a, pa) s =
       (if a =? last then Ok (inr 0) s' else Ok (inl (u64 (a + PGSIZE), u64 (pa + PGSIZE))) s') /\
     forall va, user_va va -> pt_lookup (kmem s') root va =
       if decide (same_page a va) then leaf_pte pa perm else pt_lookup (kmem s) root va).
Proof.
  intros Hinv Ha Hpa Hperm Hnv.
  destruct (walk_alloc root a T l s Hinv Ha) as (T' & l' & s1 & r & Hw & Hg & Hl & Hr).
  destruct Hr as [[-> ->]|(q & Hq & -> & Hne)].
  - exists T', [], s1. split; [done|left]. unfold mappages_body.
    by rewrite (bind_Ok _ _ _ _ _ Hw).
  - pose proof (vg_inv _ _ _ _ _ _ _ Hg) as Hinv1.
    destruct (leaf_pte_ok pa perm Hpa Hperm) as (Hlp & _).
    destruct (stored_grow root T' l' s1 a q (leaf_pte pa perm) Hinv1 Ha Hq Hlp) as (Hst & Hg2 & Hl2).
    exists T', l', (stored a (leaf_pte pa perm) q s1). split; [by eapply vm_grow_trans|right]. split.
    + unfold mappages_body. rewrite (bind_Ok _ _ _ _ _ Hw).
      replace (q + 8 * PX 0 a =? 0) with false by lia.
      rewrite (bind_Ok _ _ _ _ _ (ld_leaf _ _ _ _ _ _ Hinv1 Ha Hq)), Hl, Hnv by done.
      rewrite (bind_Ok _ _ _ _ _ Hst). by destruct (a =? last).
    + intros va Hva. rewrite Hl2 by done. by rewrite Hl.
Qed.

Lemma same_page_aligned a va : aligned a -> same_page a va <-> va / PGSIZE - a / PGSIZE = 0.
Proof. unfold same_page. lia. Qed.

Lemma mappages_loop root perm last n a pa T l s :
  vm_inv root T l s -> aligned a -> 0 <= a -> last = a + Z.of_nat n * PGSIZE ->
  last + PGSIZE <= MAXVA -> pte_pa pa -> pa + (Z.of_nat n + 1) * PGSIZE <= 2 ^ 56 ->
  0 <= perm < 1024 ->
  (forall va, user_va va -> 0 <= va / PGSIZE - a / PGSIZE <= Z.of_nat n ->
     has (pt_lookup (kmem s) root va) PTE_V = false) ->
  exists T' l' s' r k,
    while (S n) (mappages_body root perm last) (a, pa) s = Ok r s' /\
    vm_grow root T l s T' l' s' /\
    (forall va, user_va va ->
       pt_lookup (kmem s') root va = mapped_range (pt_lookup (kmem s) root) a pa perm k va) /\
    0 <= k /\
    (r = 0 /\ k = Z.of_nat n + 1 \/ r = -1 /\ k <= Z.of_nat n /\ l' = []).
Proof.
  revert a pa T l s. induction n as [|n IH]; intros a pa T l s Hinv Hal Ha Hlast Hmax Hpa Hpm Hperm Hnv.
  - assert (Hua : user_va a) by (unfold user_va, PGSIZE in *; lia).
    destruct (mappages_step root perm last a pa T l s Hinv Hua Hpa Hperm) as (T' & l' & s' & Hg & Hc);
      [apply Hnv; [done|lia]|].
    destruct Hc as [(Hb & -> & Hl)|(Hb & Hl)].
    + exists T', [], s', (-1), 0. (split; [by apply while_inr|split; [done|split; [|split; [lia|right; split_and!; [done|lia|done]]]]]).
      intros va Hva. unfold mapped_range. rewrite decide_False by lia. by apply Hl.
    + replace (a =? last) with true in Hb by lia.
      exists T', l', s', 0, 1. (split; [by apply while_inr|split; [done|split; [|split; [lia|left; lia]]]]).
      intros va Hva. rewrite Hl by done. unfold mapped_range.
      destruct (decide (same_page a va)) as [Hs|Hs]; rewrite (same_page_aligned a va Hal) in Hs.
      * rewrite decide_True by lia. by rewrite Hs, Z.add_0_r.
      * by rewrite decide_False by lia.
  - assert (Hua : user_va a) by (unfold user_va, PGSIZE in *; lia).
    destruct (mappages_step root perm last a pa T l s Hinv Hua Hpa Hperm) as (T1 & l1 & s1 & Hg & Hc);
      [apply Hnv; [done|lia]|].
    destruct Hc as [(Hb & -> & Hl)|(Hb & Hl)].
    + exists T1, [], s1, (-1), 0. (split; [by apply while_inr|split; [done|split; [|split; [lia|right; split_and!; [done|lia|done]]]]]).
      intros va Hva. unfold mapped_range. rewrite decide_False by lia. by apply Hl.
    + replace (a =? last) with false in Hb by (unfold PGSIZE in *; lia).
      assert (2 ^ 38 + PGSIZE < W64) by done. assert (2 ^ 56 + PGSIZE < W64) by done.
      rewrite !u64_small in Hb by (unfold MAXVA, pte_pa, PGSIZE in *; lia).
      assert (Hdiv : (a + PGSIZE) / PGSIZE = a / PGSIZE + 1) by (unfold PGSIZE in *; dlia).
      destruct (IH (a + PGSIZE) (pa + PGSIZE) T1 l1 s1) as (T' & l' & s' & r & k & H1 & H2 & H3 & H4 & H5).
      * by eapply vg_inv.
      * unfold aligned, PGSIZE in *; dlia.
      * unfold PGSIZE in *; lia.
      * unfold PGSIZE in *; lia.
      * done.
      * unfold pte_pa, PGSIZE in *. split; [dlia|lia].
      * unfold PGSIZE in *; lia.
      * done.
      * intros va Hu Hva. rewrite Hdiv in Hva. rewrite Hl by done.
        rewrite decide_False; [apply Hnv; [done|lia]|]. rewrite (same_page_aligned a va Hal). lia.
      * exists T', l', s', r, (k + 1). split_and!; [|by eapply vm_grow_trans| |lia|].
        -- rewrite <- H1. by apply while_inl.
        -- intros va Hva. rewrite H3 by done. unfold mapped_range. rewrite Hdiv.
           rewrite Hl by done. destruct (decide (same_page a va)) as [Hs|Hs];
             rewrite (same_page_aligned a va Hal) in Hs.
           ++ rewrite decide_False by lia. rewrite decide_True by lia. by rewrite Hs, Z.add_0_r.
           ++ destruct (decide (0 <= va / PGSIZE - (a / PGSIZE + 1) < k)).
              ** rewrite decide_True by lia. f_equal. lia.
              ** by rewrite decide_False by lia.
        -- destruct H5 as [?|?]; [left; lia|right; naive_solver lia].
Qed.
End walk.
