(* ===== verification/VmThm.v ===== *)
(** Theorems on kernel/vm.c: mapping, address translation, and the copies
    between kernel and user memory, stated against the Sv39 lookup of
    [VmSpec]. *)

From S2P Require Import Prelude CInt Machine KString Sched Kalloc Vm VmSpec.

(** ** Translation of user addresses *)

(** The physical address user code reaches at [va]. *)
Definition translate (m : gmap Z Z) (root va : Z) : option Z :=
  if bool_decide (user_va va) then
    let e := pt_lookup m root va in
    if has e PTE_V && has e PTE_U then Some (PTE2PA e + va mod PGSIZE) else None
  else None.

(** The [n] user bytes from [va], if all of them are mapped. *)
Fixpoint ubytes (m : gmap Z Z) (root va : Z) (n : nat) : option (list Z) :=
  match n with
  | O => Some []
  | S n => match translate m root va, ubytes m root (va + 1) n with
           | Some pa, Some bs => Some (mget m pa :: bs)
           | _, _ => None
           end
  end.

Section vm_thm.
Context {img : KernelImage} {imgok : KernelImageOk} {R : Type}.
Abbreviation St := (Kst (KMem R)).
Implicit Types (s : St) (T : gmap Z (nat * Z)) (l : list Z).

(** User pages are allocator pages and no page-table pages. *)
Definition user_pages (m : gmap Z Z) (root : Z) T : Prop :=
  forall va, user_va va -> has (pt_lookup m root va) PTE_V = true ->
    has (pt_lookup m root va) PTE_U = true ->
    page_ok (PTE2PA (pt_lookup m root va)) /\ PTE2PA (pt_lookup m root va) ∉ dom T.

Lemma translate_page m root va va' pa :
  translate m root va = Some pa -> user_va va' -> same_page va va' ->
  translate m root va' = Some (pa - va mod PGSIZE + va' mod PGSIZE).
Proof.
  unfold translate. intros Ht Hva' Hs. case_bool_decide as Hva; [|done].
  rewrite bool_decide_true by done.
  rewrite <- (same_page_lookup m root va va') by done.
  destruct (_ && _); [|done]. simplify_eq. f_equal. lia.
Qed.

(** [walkaddr] computes the translation of a page. *)
Lemma walkaddr_eq root T s va :
  pt_ok (kmem s) root T -> user_pages (kmem s) root T -> 0 <= va ->
  walkaddr root (PGROUNDDOWN va) s =
    Ok (match translate (kmem s) root va with Some pa => pa - va mod PGSIZE | None => 0 end) s /\
  (forall pa, translate (kmem s) root va = Some pa ->
     page_ok (pa - va mod PGSIZE) /\ pa - va mod PGSIZE ∉ dom T).
Proof.
  intros Hok Hup Hva. unfold walkaddr, translate.
  destruct (PGROUNDDOWN_bounds va Hva) as (Hb & Hal & Hpos).
  assert (Hmax : MAXVA mod PGSIZE = 0) by done.
  case_bool_decide as Hu.
  - assert (Hu' : user_va (PGROUNDDOWN va)) by (unfold user_va in *; lia).
    assert (Hsp : same_page va (PGROUNDDOWN va)).
    { unfold same_page. rewrite PGROUNDDOWN_eq. unfold PGSIZE. dlia. }
    rewrite (same_page_lookup _ root va (PGROUNDDOWN va)) by done.
    pose proof (Hup _ Hu') as Hpage. replace (MAXVA <=? PGROUNDDOWN va) with false by (unfold user_va in *; lia).
    erewrite bind_Ok by by eapply walk_noalloc.
    unfold pt_lookup, plookup in *.
    destruct (pwalk 2 (kmem s) root (PGROUNDDOWN va)) as [q|] eqn:Hq.
    + pose proof (pt_ok_page _ _ _ _ _ Hok (pwalk_root _ _ _ _ _ Hok Hu' Hq)) as Hqo.
      pose proof (page_ok_pos _ Hqo). pose proof (PX_range 0 (PGROUNDDOWN va)) as Hpx.
      replace (_ =? 0) with false by (unfold KERNBASE in *; lia).
      rewrite (bind_Ok _ _ _ _ _ (ld_ent q _ s Hqo Hpx)).
      destruct (has _ PTE_V) eqn:Hv; [|done]. destruct (has _ PTE_U) eqn:HU; [|done]. simpl.
      split; [unfold ret; do 2 f_equal; lia|]. intros pa [= <-].
      replace (_ + _ - _) with (PTE2PA (ent (kmem s) q (PX 0 (PGROUNDDOWN va)))) by lia.
      by apply Hpage.
    + by rewrite !has_zero.
  - replace (MAXVA <=? PGROUNDDOWN va) with true; [done|].
    unfold user_va, PGSIZE, MAXVA in *. clear Hup. Z.to_euclidean_division_equations. lia.
Qed.

Lemma ubytes_app m root va n k :
  ubytes m root va (n + k) =
    match ubytes m root va n, ubytes m root (va + Z.of_nat n) k with
    | Some a, Some b => Some (a ++ b)
    | _, _ => None
    end.
Proof.
  revert va. induction n as [|n IH]; intros va; simpl.
  - rewrite Z.add_0_r. by destruct (ubytes m root va k).
  - rewrite IH. replace (va + 1 + Z.of_nat n) with (va + Z.of_nat (S n)) by lia.
    destruct (translate m root va); [|done].
    destruct (ubytes m root (va + 1) n); [|done]. by destruct (ubytes _ _ _ k).
Qed.

(** Inside one page, user bytes are consecutive physical bytes. *)
Lemma ubytes_page m root va pa n :
  translate m root va = Some pa -> 0 <= va -> va mod PGSIZE + Z.of_nat n <= PGSIZE ->
  ubytes m root va n = Some (mread m pa n).
Proof.
  revert va pa. induction n as [|n IH]; intros va pa Ht Hva Hn; [done|]. simpl.
  rewrite Ht, mread_S. destruct n as [|n]; [done|].
  assert (Hs : same_page va (va + 1)).
  { unfold same_page, PGSIZE in *. dlia. }
  assert (Hu : user_va (va + 1)).
  { unfold translate in Ht. case_bool_decide as Hu; [|done].
    unfold user_va, PGSIZE, MAXVA in *. clear - Hu Hn. dlia. }
  pose proof (translate_page _ _ _ _ _ Ht Hu Hs) as Ht'.
  replace (pa - va mod PGSIZE + (va + 1) mod PGSIZE) with (pa + 1) in Ht'
    by (unfold PGSIZE in *; dlia).
  rewrite (IH (va + 1) (pa + 1)); [done|done|lia|unfold PGSIZE in *; dlia].
Qed.

(** The length of the chunk a copy loop handles next. *)
Definition chunk (va len : Z) : Z :=
  let n := PGSIZE - (va - PGROUNDDOWN va) in if len <? n then len else n.

Lemma chunk_bounds va len :
  0 <= va -> 0 < len -> 0 < chunk va len <= len /\ va mod PGSIZE + chunk va len <= PGSIZE.
Proof.
  intros Hva Hlen. unfold chunk. rewrite PGROUNDDOWN_eq. unfold PGSIZE in *.
  case_match; dlia.
Qed.

(** The address of the next chunk, unless this one was the last. *)
Lemma chunk_next va len :
  user_va va -> 0 < len -> chunk va len < len -> u64 (PGROUNDDOWN va + PGSIZE) = va + chunk va len.
Proof.
  intros [Hva Hmax] Hlen. unfold chunk. rewrite PGROUNDDOWN_eq.
  assert (2 ^ 38 + 2 * PGSIZE < W64) by done.
  rewrite u64_small by (unfold MAXVA, PGSIZE in *; dlia). case_match; unfold PGSIZE in *; lia.
Qed.

Lemma page_sub_ram pa va n :
  page_ok (pa - va mod PGSIZE) -> 0 <= va -> 0 <= n -> va mod PGSIZE + n <= PGSIZE ->
  in_ram pa n = true.
Proof.
  intros Hp Hva Hn Hb. eapply in_ram_sub; [by apply page_ok_ram| |lia]. unfold PGSIZE in *. dlia.
Qed.

Lemma translate_user m root va pa : translate m root va = Some pa -> user_va va.
Proof. unfold translate. by case_bool_decide. Qed.

Lemma ubytes_head m root va n bs :
  (0 < n)%nat -> ubytes m root va n = Some bs -> is_Some (translate m root va).
Proof. destruct n; [lia|]. simpl. destruct (translate m root va); [eauto|done]. Qed.

Definition copyin_body (pagetable : Z) : Z * Z * list Z -> M St (Z * Z * list Z + Z * list Z) :=
  fun '(srcva, len, dst) =>
    if len =? 0 then ret (inr (0, dst)) else
    let va0 := PGROUNDDOWN srcva in
    let* pa0 := walkaddr pagetable va0 in
    if pa0 =? 0 then ret (inr (-1, dst)) else
    let n := PGSIZE - (srcva - va0) in
    let n := if len <? n then len else n in
    let* bs := pread (pa0 + (srcva - va0)) (Z.to_nat n) in
    ret (inl (u64 (va0 + PGSIZE), len - n, dst ++ bs)).

Lemma page_ok_nz p : page_ok p -> (p =? 0) = false.
Proof. intros H%page_ok_pos. unfold KERNBASE in *. lia. Qed.

Lemma copyin_body_hit root T s va pa n dst :
  pt_ok (kmem s) root T -> user_pages (kmem s) root T -> 0 <= va -> 0 < n ->
  translate (kmem s) root va = Some pa ->
  copyin_body root (va, n, dst) s =
    Ok (inl (u64 (PGROUNDDOWN va + PGSIZE), n - chunk va n,
             dst ++ mread (kmem s) pa (Z.to_nat (chunk va n)))) s.
Proof.
  intros Hok Hup Hva Hn Ht. destruct (walkaddr_eq root T s va Hok Hup Hva) as [Hw Hp].
  rewrite Ht in Hw. destruct (Hp pa Ht) as [Hpo _]. unfold copyin_body.
  destruct (chunk_bounds va n Hva Hn) as [Hc1 Hc2].
  replace (n =? 0) with false by lia. rewrite (bind_Ok _ _ _ _ _ Hw), page_ok_nz by done.
  fold (chunk va n).
  replace (pa - va mod PGSIZE + (va - PGROUNDDOWN va)) with pa by (rewrite PGROUNDDOWN_eq; lia).
  erewrite bind_Ok; [done|]. apply pread_ok. rewrite Z2Nat.id by lia.
  apply (page_sub_ram pa va); lia || done.
Qed.

Lemma copyin_body_miss root T s va n dst :
  pt_ok (kmem s) root T -> user_pages (kmem s) root T -> 0 <= va -> 0 < n ->
  translate (kmem s) root va = None -> copyin_body root (va, n, dst) s = Ok (inr (-1, dst)) s.
Proof.
  intros Hok Hup Hva Hn Ht. destruct (walkaddr_eq root T s va Hok Hup Hva) as [Hw _].
  rewrite Ht in Hw. unfold copyin_body. replace (n =? 0) with false by lia.
  by rewrite (bind_Ok _ _ _ _ _ Hw).
Qed.

(** Splitting the bytes of a range after its first chunk. *)
Lemma ubytes_chunk m root va pa n :
  translate m root va = Some pa -> 0 <= va -> (0 < n)%nat ->
  let c := Z.to_nat (chunk va (Z.of_nat n)) in
  (0 < c <= n)%nat /\
  ubytes m root va n =
    match ubytes m root (va + chunk va (Z.of_nat n)) (n - c) with
    | Some bs => Some (mread m pa c ++ bs)
    | None => None
    end.
Proof.
  intros Ht Hva Hn c. destruct (chunk_bounds va (Z.of_nat n) Hva ltac:(lia)) as [Hc1 Hc2].
  split; [lia|]. replace n with (c + (n - c))%nat at 1 by lia. rewrite ubytes_app.
  rewrite (ubytes_page m root va pa c) by (done || lia).
  by replace (Z.of_nat c) with (chunk va (Z.of_nat n)) by lia.
Qed.

Lemma copyin_loop root T s f va n dst :
  pt_ok (kmem s) root T -> user_pages (kmem s) root T -> 0 <= va -> (n < f)%nat ->
  match ubytes (kmem s) root va n with
  | Some bs => while f (copyin_body root) (va, Z.of_nat n, dst) s = Ok (0, dst ++ bs) s
  | None => exists bs, while f (copyin_body root) (va, Z.of_nat n, dst) s = Ok (-1, bs) s
  end.
Proof.
  intros Hok Hup. revert va n dst. induction f as [|f IH]; intros va n dst Hva Hn; [lia|].
  destruct (decide (n = 0%nat)) as [->|Hne].
  { simpl. by rewrite app_nil_r. }
  destruct (translate (kmem s) root va) as [pa|] eqn:Ht.
  - destruct (ubytes_chunk _ _ _ _ n Ht Hva ltac:(lia)) as [Hc ->].
    set (c := Z.to_nat (chunk va (Z.of_nat n))) in *.
    assert (Hcz : Z.of_nat n - chunk va (Z.of_nat n) = Z.of_nat (n - c)) by lia.
    rewrite (while_inl _ _ _ _ _ _ (copyin_body_hit root T s va pa (Z.of_nat n) dst Hok Hup Hva ltac:(lia) Ht)).
    rewrite Hcz. fold c. destruct (decide (n = c)) as [Heq|Hnc].
    + replace (n - c)%nat with 0%nat by lia. simpl. rewrite app_nil_r. destruct f; [lia|]. done.
    + rewrite (chunk_next va (Z.of_nat n)) by (by eapply translate_user || lia).
      specialize (IH (va + chunk va (Z.of_nat n)) (n - c)%nat (dst ++ mread (kmem s) pa c)
                    ltac:(lia) ltac:(lia)).
      destruct (ubytes _ _ _ (n - c)); [|done]. by rewrite IH, app_assoc.
  - destruct (ubytes (kmem s) root va n) as [bs|] eqn:Hb.
    + apply ubytes_head in Hb as [? Hb]; [congruence|lia].
    + exists dst. apply while_inr. by apply (copyin_body_miss root T); lia || done.
Qed.

(** C9: [copyin] returns 0 with exactly the user bytes of the range when every
    byte of it is mapped for the user, and -1 otherwise; it terminates and
    changes nothing.  This holds for every 64-bit start address, so a range
    that runs past MAXVA or wraps around is refused. *)
Theorem copyin_spec root T s srcva len :
  pt_ok (kmem s) root T -> user_pages (kmem s) root T -> 0 <= srcva ->
  match ubytes (kmem s) root srcva len with
  | Some bs => copyin root srcva len s = Ok (0, bs) s
  | None => exists bs, copyin root srcva len s = Ok (-1, bs) s
  end.
Proof. intros Hok Hup Hva. exact (copyin_loop root T s (S len) srcva len [] Hok Hup Hva ltac:(lia)). Qed.

(** ** [copyout] *)

Definition copyout_body (pagetable : Z) : Z * list Z -> M St (Z * list Z + Z) :=
  fun '(dstva, src) =>
    let len := Z.of_nat (length src) in
    if len =? 0 then ret (inr 0) else
    let va0 := PGROUNDDOWN dstva in
    let* pa0 := walkaddr pagetable va0 in
    if pa0 =? 0 then ret (inr (-1)) else
    let n := PGSIZE - (dstva - va0) in
    let n := if len <? n then len else n in
    pwrite (pa0 + (dstva - va0)) (take (Z.to_nat n) src);;;
    ret (inl (u64 (va0 + PGSIZE), drop (Z.to_nat n) src)).

(** No physical address outside the translated range is touched. *)
Definition frame_out (m m' : gmap Z Z) (root va : Z) (n : nat) : Prop :=
  forall b, (forall a, va <= a < va + Z.of_nat n -> translate m root a <> Some b) -> mget m' b = mget m b.

(** The range is not mapped twice to the same physical byte. *)
Definition inj_range (m : gmap Z Z) (root va : Z) (n : nat) : Prop :=
  forall a b p, va <= a < va + Z.of_nat n -> va <= b < va + Z.of_nat n ->
    translate m root a = Some p -> translate m root b = Some p -> a = b.

Lemma user_write_frame m root T pa bs p :
  pt_ok m root T -> page_ok p -> p ∉ dom T -> p <= pa -> pa + Z.of_nat (length bs) <= p + PGSIZE ->
  forall q a, q ∈ dom T -> in_page q a -> mget (mwrite m pa bs) a = mget m a.
Proof.
  intros Hok Hp HpT Hlo Hhi q a Hq Ha. apply mwrite_frame.
  apply elem_of_dom in Hq as Hq'. destruct Hq' as [x Hx].
  assert (Hne : q <> p) by (intros ->; contradiction).
  pose proof (page_disjoint q p a (pt_ok_page _ _ _ _ _ Hok Hx) Hp Hne Ha).
  unfold in_page in *. lia.
Qed.

(** Writing to a user page does not change any translation. *)
Lemma user_write_translate m root T m' :
  pt_ok m root T -> (forall q a, q ∈ dom T -> in_page q a -> mget m' a = mget m a) ->
  (forall va, translate m' root va = translate m root va) /\
  (user_pages m root T -> user_pages m' root T).
Proof.
  intros Hok Hfr.
  assert (Hl : forall va, user_va va -> pt_lookup m' root va = pt_lookup m root va).
  { intros va Hva. by eapply pt_lookup_frame. }
  split.
  - intros va. unfold translate. case_bool_decide; [|done]. by rewrite Hl.
  - intros Hup va Hva. rewrite Hl by done. by apply Hup.
Qed.

Lemma ubytes_translate m root va n bs a :
  ubytes m root va n = Some bs -> va <= a < va + Z.of_nat n -> is_Some (translate m root a).
Proof.
  revert va bs. induction n as [|n IH]; intros va bs; simpl; [lia|].
  destruct (translate m root va) eqn:Ht; [|done].
  destruct (ubytes m root (va + 1) n) eqn:Hb; [|done]. intros _ Ha.
  destruct (decide (a = va)) as [->|]; [by eauto|]. eapply IH; [done|lia].
Qed.

Lemma ubytes_is_Some_ext m m' root va n :
  (forall a, translate m' root a = translate m root a) ->
  is_Some (ubytes m root va n) -> is_Some (ubytes m' root va n).
Proof.
  intros Htr. revert va. induction n as [|n IH]; intros va; simpl; [done|]. rewrite Htr.
  destruct (translate m root va); [|by intros []].
  destruct (ubytes m root (va + 1) n) eqn:Hb; [|by intros []]. intros _.
  destruct (IH (va + 1)) as [bs ->]; [by rewrite Hb; eauto|]. eauto.
Qed.

Lemma copyout_body_hit root T s va pa src :
  pt_ok (kmem s) root T -> user_pages (kmem s) root T -> 0 <= va -> src <> [] ->
  translate (kmem s) root va = Some pa ->
  let c := Z.to_nat (chunk va (Z.of_nat (length src))) in
  copyout_body root (va, src) s =
    Ok (inl (u64 (PGROUNDDOWN va + PGSIZE), drop c src)) (set_mem (mwrite (kmem s) pa (take c src)) s).
Proof.
  intros Hok Hup Hva Hn Ht c. destruct (walkaddr_eq root T s va Hok Hup Hva) as [Hw Hp].
  rewrite Ht in Hw. destruct (Hp pa Ht) as [Hpo _]. unfold copyout_body.
  assert (Hlen : (0 < length src)%nat) by (destruct src; [done|simpl; lia]).
  destruct (chunk_bounds va (Z.of_nat (length src)) Hva ltac:(lia)) as [Hc1 Hc2].
  replace (Z.of_nat (length src) =? 0) with false by lia.
  rewrite (bind_Ok _ _ _ _ _ Hw), page_ok_nz by done.
  fold (chunk va (Z.of_nat (length src))). fold c.
  replace (pa - va mod PGSIZE + (va - PGROUNDDOWN va)) with pa by (rewrite PGROUNDDOWN_eq; lia).
  erewrite bind_Ok; [done|]. unfold pwrite.
  rewrite (page_sub_ram pa va); [done|done|done|lia|]. rewrite length_take. lia.
Qed.

Lemma copyout_body_miss root T s va src :
  pt_ok (kmem s) root T -> user_pages (kmem s) root T -> 0 <= va -> src <> [] ->
  translate (kmem s) root va = None -> copyout_body root (va, src) s = Ok (inr (-1)) s.
Proof.
  intros Hok Hup Hva Hn Ht. destruct (walkaddr_eq root T s va Hok Hup Hva) as [Hw _].
  rewrite Ht in Hw. unfold copyout_body.
  replace (Z.of_nat (length src) =? 0) with false by (destruct src; [done|simpl; lia]).
  by rewrite (bind_Ok _ _ _ _ _ Hw).
Qed.

Definition copyout_post root va (src : list Z) s (r : Z) (m' : gmap Z Z) : Prop :=
  frame_out (kmem s) m' root va (length src) /\
  (forall a, translate m' root a = translate (kmem s) root a) /\
  match ubytes (kmem s) root va (length src) with
  | Some _ => r = 0 /\ (inj_range (kmem s) root va (length src) -> Forall byte_ok src ->
                        ubytes m' root va (length src) = Some src)
  | None => r = -1
  end.

Lemma copyout_loop root T f va src s :
  pt_ok (kmem s) root T -> user_pages (kmem s) root T -> 0 <= va -> (length src < f)%nat ->
  exists r m', while f (copyout_body root) (va, src) s = Ok r (set_mem m' s) /\
    copyout_post root va src s r m'.
Proof.
  revert va src s. induction f as [|f IH]; intros va src s Hok Hup Hva Hn; [lia|].
  destruct (decide (src = [])) as [->|Hne].
  { exists 0, (kmem s). rewrite set_mem_id. split; [done|]. unfold copyout_post. simpl.
    by split_and!. }
  assert (Hlen : (0 < length src)%nat) by (destruct src; [done|simpl; lia]).
  destruct (translate (kmem s) root va) as [pa|] eqn:Ht; last first.
  { exists (-1), (kmem s). rewrite set_mem_id. split.
    - apply while_inr. by apply (copyout_body_miss root T).
    - split; [done|split; [done|]].
      destruct (ubytes (kmem s) root va (length src)) as [bs|] eqn:Hb; [|done].
      apply ubytes_head in Hb as [? Hb]; [congruence|lia]. }
  destruct (ubytes_chunk _ _ _ _ (length src) Ht Hva Hlen) as [Hc Hub].
  pose proof (copyout_body_hit root T s va pa src Hok Hup Hva Hne Ht) as Hbody.
  cbv zeta in Hbody.
  set (c := Z.to_nat (chunk va (Z.of_nat (length src)))) in *.
  set (m1 := mwrite (kmem s) pa (take c src)) in *.
  pose proof (while_inl _ f _ _ _ _ Hbody) as Hstep.
  destruct (walkaddr_eq root T s va Hok Hup Hva) as [_ Hp]. destruct (Hp pa Ht) as [Hpo HpT].
  destruct (chunk_bounds va (Z.of_nat (length src)) Hva ltac:(lia)) as [Hc1 Hc2].
  assert (Htk : length (take c src) = c) by (rewrite length_take; lia).
  assert (Hfr1 : forall q a, q ∈ dom T -> in_page q a -> mget m1 a = mget (kmem s) a).
  { eapply (user_write_frame (kmem s)); [done|done|done| |];
      rewrite ?Htk; unfold PGSIZE in *; dlia. }
  destruct (user_write_translate (kmem s) root T m1 Hok Hfr1) as [Htr Hup1].
  assert (Hok1 : pt_ok m1 root T) by by eapply pt_ok_frame.
  assert (Hpre : exists r m', while f (copyout_body root)
             (u64 (PGROUNDDOWN va + PGSIZE), drop c src) (set_mem m1 s) = Ok r (set_mem m' s) /\
           copyout_post root (va + Z.of_nat c) (drop c src) (set_mem m1 s) r m').
  { destruct (decide (c = length src)) as [Heq|Hnc].
    - exists 0, m1. rewrite Heq, drop_all. split; [destruct f; [lia|done]|].
      unfold copyout_post. rewrite kmem_set_mem. simpl. by split_and!.
    - rewrite (chunk_next va (Z.of_nat (length src))) by (by eapply translate_user || lia).
      replace (chunk va (Z.of_nat (length src))) with (Z.of_nat c) by lia.
      destruct (IH (va + Z.of_nat c) (drop c src) (set_mem m1 s)) as (r & m' & H1 & H2);
        rewrite ?kmem_set_mem; auto; [lia|rewrite length_drop; lia|].
      exists r, m'. rewrite set_mem_set_mem in H1. done. }
  destruct Hpre as (r & m' & Hrun & Hfr & Htr' & Hres). exists r, m'. rewrite Hstep. split; [exact Hrun|].
  rewrite kmem_set_mem in *. rewrite length_drop in *.
  clear Hrun Hstep Hbody IH Hp.
  (* translations of the first chunk *)
  assert (Hch : forall a, va <= a < va + Z.of_nat c ->
            translate (kmem s) root a = Some (pa + (a - va))).
  { intros a Ha. rewrite (translate_page _ _ va a pa Ht).
    - f_equal. unfold PGSIZE in *. dlia.
    - apply translate_user in Ht. unfold user_va, PGSIZE, MAXVA in *. dlia.
    - unfold same_page, PGSIZE in *. dlia. }
  split; [|split].
  - intros b Hb. rewrite Hfr.
    + apply mwrite_frame. rewrite Htk. destruct (decide (pa <= b < pa + Z.of_nat c)) as [Hin|]; [|lia].
      exfalso. apply (Hb (va + (b - pa))); [lia|]. rewrite Hch by lia. f_equal. lia.
    + intros a Ha. rewrite Htr. apply Hb. lia.
  - intros a. by rewrite Htr', Htr.
  - rewrite Hub. replace (chunk va (Z.of_nat (length src))) with (Z.of_nat c) by lia.
    set (n := (length src - c)%nat) in *. set (va1 := va + Z.of_nat c) in *.
    assert (Hb1 : is_Some (ubytes m1 root va1 n) <-> is_Some (ubytes (kmem s) root va1 n)).
    { split; apply ubytes_is_Some_ext; intros a; by rewrite Htr. }
    destruct (ubytes m1 root va1 n) as [b1|] eqn:E1;
      destruct (ubytes (kmem s) root va1 n) as [b2|] eqn:E2;
      [|naive_solver|naive_solver|done].
    destruct Hres as [-> Hres]. split; [done|]. intros Hinj Hbytes.
    assert (Hn1 : length src = (c + n)%nat) by lia.
    rewrite Hn1, ubytes_app. fold va1.
    rewrite (ubytes_page m' root va pa c); [|by rewrite Htr', Htr|done|lia].
    rewrite Hres; [|intros a b p Ha Hb; rewrite !Htr; apply Hinj; lia|by apply Forall_drop].
    f_equal. rewrite <- (take_drop c src) at 2. f_equal.
    rewrite <- (mwrite_read (kmem s) pa (take c src)) by by apply Forall_take.
    rewrite Htk. apply mread_ext. intros b Hb. apply Hfr. intros a Ha. rewrite Htr.
    intros Hab. assert (a = va + (b - pa)); [|lia].
    eapply (Hinj _ _ b); [lia|lia|done|]. rewrite Hch by lia. f_equal. lia.
Qed.

(** C8: [copyout] returns 0 when every byte of the destination range is mapped
    for the user, and then (for a range not mapped twice to one physical byte)
    the user reads exactly the source bytes back; it returns -1 otherwise.
    In both cases it terminates, no physical byte outside the translated range
    changes, and no translation changes. *)
Theorem copyout_spec root T s dstva src :
  pt_ok (kmem s) root T -> user_pages (kmem s) root T -> 0 <= dstva ->
  exists r m', copyout root dstva src s = Ok r (set_mem m' s) /\
    copyout_post root dstva src s r m'.
Proof. intros Hok Hup Hva. exact (copyout_loop root T (S (length src)) dstva src s Hok Hup Hva ltac:(lia)). Qed.

(** ** Mapping *)

Definition npages (va size : Z) : Z :=
  (PGROUNDDOWN (va + size - 1) - PGROUNDDOWN va) / PGSIZE + 1.

(** C2: on unmapped pages [mappages] either maps every page of the range, in
    order, to consecutive physical pages with the requested permissions, or
    runs out of memory: then it returns -1 with a prefix of the range mapped
    and the free list empty.  It keeps the table well formed, only adds pages
    taken from the free list, and changes no other translation. *)
Theorem mappages_spec root T l s va size pa perm :
  vm_inv root T l s -> 0 <= va -> 0 < size -> va + size <= MAXVA ->
  pte_pa pa -> pa + npages va size * PGSIZE <= 2 ^ 56 -> 0 <= perm < 1024 ->
  (forall va', user_va va' -> 0 <= va' / PGSIZE - va / PGSIZE < npages va size ->
     has (pt_lookup (kmem s) root va') PTE_V = false) ->
  exists T' l' s' r k,
    mappages root va size pa perm s = Ok r s' /\ vm_grow root T l s T' l' s' /\
    (forall va', user_va va' -> pt_lookup (kmem s') root va' =
       mapped_range (pt_lookup (kmem s) root) va pa perm k va') /\
    (r = 0 /\ k = npages va size \/ r = -1 /\ 0 <= k < npages va size /\ l' = []).
Proof.
  intros Hinv Hva Hsz Hmax Hpa Hpm Hperm Hnv. unfold mappages.
  replace (size =? 0) with false by lia. assert (2 ^ 38 < W64) by done.
  rewrite (u64_small (va + size - 1)) by (unfold MAXVA in *; lia).
  destruct (PGROUNDDOWN_bounds va Hva) as (Hb1 & Hal1 & Hp1).
  destruct (PGROUNDDOWN_bounds (va + size - 1) ltac:(lia)) as (Hb2 & Hal2 & Hp2).
  assert (Hdiv : PGROUNDDOWN va / PGSIZE = va / PGSIZE)
    by (rewrite PGROUNDDOWN_eq; unfold PGSIZE; dlia).
  assert (Hle : PGROUNDDOWN va <= PGROUNDDOWN (va + size - 1)).
  { unfold PGSIZE in *. Z.to_euclidean_division_equations. lia. }
  unfold npages in *. set (a := PGROUNDDOWN va) in *. set (b := PGROUNDDOWN (va + size - 1)) in *.
  rewrite (u64_small (b - a)) by (unfold MAXVA in *; lia).
  set (n := Z.to_nat ((b - a) / PGSIZE)).
  assert (Hn : Z.of_nat n = (b - a) / PGSIZE) by (unfold n, PGSIZE in *; dlia).
  assert (Hlast : b = a + Z.of_nat n * PGSIZE) by (rewrite Hn; unfold PGSIZE in *; dlia).
  assert (HM : MAXVA mod PGSIZE = 0) by done.
  destruct (mappages_loop root perm b n a pa T l s) as (T' & l' & s' & r & k & H1 & H2 & H3 & H4 & H5);
    try done.
  - unfold MAXVA, PGSIZE in *. clear - Hmax Hb2 Hal2 HM Hsz Hva. Z.to_euclidean_division_equations. lia.
  - by rewrite Hn.
  - intros va' Hu Hva'. apply Hnv; [done|lia].
  - exists T', l', s', r, k. split; [exact H1|]. split; [done|]. split.
    + intros va' Hva'. rewrite H3 by done. unfold mapped_range. by rewrite Hdiv.
    + destruct H5 as [[-> ->]|(-> & ? & ->)]; [left; split; [done|lia]|right].
      split_and!; [done|lia|lia|done].
Qed.

(** ** Unmapping *)

(** The bound does not wrap below [MAXVA]. *)
Lemma unmap_pages va n :
  0 <= va -> va + Z.of_nat n * PGSIZE <= MAXVA ->
  Z.to_nat ((u64 (va + Z.of_nat n * PGSIZE) - va) / PGSIZE) = n.
Proof.
  intros Ha Hmax. assert (2 ^ 38 < W64) by done. rewrite u64_small by (unfold MAXVA, PGSIZE in *; lia).
  unfold PGSIZE. replace (va + Z.of_nat n * 4096 - va) with (Z.of_nat n * 4096) by lia.
  by rewrite Z.div_mul, Nat2Z.id by lia.
Qed.

(** One page of [uvmunmap]. *)
Definition unmap_body (pagetable : Z) (do_free : bool) (a : Z) : M St unit :=
  let* pte := walk pagetable a false in
  if pte =? 0 then panic "uvmunmap: walk" else
  let* e := ld64 pte in
  if negb (has e PTE_V) then panic "uvmunmap: not mapped" else
  if PTE_FLAGS e =? PTE_V then panic "uvmunmap: not a leaf" else
  (if do_free then kfree (PTE2PA e) else ret tt);;;
  st64 pte 0.

(** Freeing a page outside the table. *)
Lemma vm_inv_kfree root T l s p :
  vm_inv root T l s -> page_ok p -> p ∉ l -> p ∉ dom T ->
  exists s', kfree p s = Ok tt s' /\ vm_inv root T (p :: l) s' /\
    (forall a, ~ in_page p a -> mget (kmem s') a = mget (kmem s) a) /\
    s' = set_mem (kmem s') (set_freelist (freelist (krest s')) s).
Proof.
  intros [Hka Hpt Hdis Hlk] Hp Hl HT. eexists. split; [by apply kfree_eq|].
  assert (Hfr : forall a, ~ in_page p a ->
    mget (mem_freed (kmem s) p (freelist (krest s))) a = mget (kmem s) a)
    by (intros; by apply mem_freed_frame).
  split_and!.
  - split; [by apply kfree_inv| | |done].
    + apply (pt_ok_frame (kmem s)); [|done]. intros q a Hq Ha. kmem_simpl.
      apply Hfr. apply elem_of_dom in Hq as Hq'. destruct Hq' as [x Hx].
      eapply page_disjoint; [by eapply pt_ok_page|done|by intros ->|done].
    + intros q Hq [->|Hin]%elem_of_cons; [done|]. by apply (Hdis q).
  - intros a Ha. kmem_simpl. by apply Hfr.
  - by kmem_simpl.
Qed.

(** The translation of [a] is unmapped. *)
Definition unmapped (f : Z -> Z) (a n va : Z) : Z :=
  if decide (0 <= va / PGSIZE - a / PGSIZE < n) then 0 else f va.

Lemma unmap_step root T l s a (do_free : bool) :
  vm_inv root T l s -> user_va a ->
  has (pt_lookup (kmem s) root a) PTE_V = true ->
  PTE_FLAGS (pt_lookup (kmem s) root a) <> PTE_V ->
  let pa := PTE2PA (pt_lookup (kmem s) root a) in
  (do_free = true -> page_ok pa /\ pa ∉ l /\ pa ∉ dom T) ->
  exists s', unmap_body root do_free a s = Ok tt s' /\
    vm_inv root T (if do_free then pa :: l else l) s' /\
    (forall va, user_va va -> pt_lookup (kmem s') root va =
       if decide (same_page a va) then 0 else pt_lookup (kmem s) root va) /\
    (forall b, (forall q, q ∈ dom T -> ~ in_page q b) -> (do_free = true -> ~ in_page pa b) ->
       mget (kmem s') b = mget (kmem s) b) /\
    s' = set_mem (kmem s') (set_freelist (freelist (krest s')) s).
Proof.
  intros Hinv Ha Hv Hfl pa Hfree.
  pose proof (vi_pt _ _ _ _ Hinv) as Hpt.
  destruct (pwalk 2 (kmem s) root a) as [q|] eqn:Hq; last first.
  { unfold pt_lookup, plookup in Hv. rewrite Hq in Hv. by rewrite has_zero in Hv. }
  pose proof (pt_ok_page _ _ _ _ _ Hpt (pwalk_root _ _ _ _ _ Hpt Ha Hq)) as Hqo.
  assert (Hbody : unmap_body root do_free a s =
            ((if do_free then kfree pa else ret tt);;; st64 (q + 8 * PX 0 a) 0) s).
  { unfold unmap_body. erewrite bind_Ok by by eapply walk_noalloc. rewrite Hq.
    pose proof (page_ok_pos q Hqo). pose proof (PX_range 0 a).
    replace (q + 8 * PX 0 a =? 0) with false by (unfold KERNBASE in *; lia).
    rewrite (bind_Ok _ _ _ _ _ (ld_leaf _ _ _ _ _ _ Hinv Ha Hq)), Hv.
    by replace (PTE_FLAGS _ =? PTE_V) with false by lia. }
  rewrite Hbody. clear Hbody.
  assert (Hmid : exists s1, (if do_free then kfree pa else ret tt) s = Ok tt s1 /\
            vm_inv root T (if do_free then pa :: l else l) s1 /\
            (forall b, (do_free = true -> ~ in_page pa b) -> mget (kmem s1) b = mget (kmem s) b) /\
            s1 = set_mem (kmem s1) (set_freelist (freelist (krest s1)) s)).
  { destruct do_free.
    - destruct (Hfree eq_refl) as (H1 & H2 & H3).
      destruct (vm_inv_kfree root T l s pa Hinv H1 H2 H3) as (s1 & E1 & E2 & E3 & E4).
      exists s1. split_and!; auto.
    - exists s. split_and!; auto. by rewrite set_id. }
  destruct Hmid as (s1 & H1 & Hinv1 & Hfr & Hrest). rewrite (bind_Ok _ _ _ _ _ H1).
  assert (HfrT : forall r b, r ∈ dom T -> in_page r b -> mget (kmem s1) b = mget (kmem s) b).
  { intros r b Hr Hb. apply Hfr. intros Hd. destruct (Hfree Hd) as (Hp1 & _ & Hp3).
    apply elem_of_dom in Hr as Hr'. destruct Hr' as [x Hx].
    eapply page_disjoint; [by eapply (pt_ok_page (kmem s))|done|by intros ->|done]. }
  assert (Hq1 : pwalk 2 (kmem s1) root a = Some q).
  { rewrite (pwalk_frame (kmem s) (kmem s1) root T); auto.
    - by apply user_va_W64.
    - by eapply root_label. }
  destruct (stored_grow root T _ s1 a q 0 Hinv1 Ha Hq1 ltac:(lia)) as (Hst & Hg & Hl).
  exists (stored a 0 q s1). split_and!; [exact Hst|by eapply vg_inv| | |].
  - intros va Hva. rewrite Hl by done. case_decide; [done|]. by apply (pt_lookup_frame _ _ _ T).
  - intros b HbT Hbf. rewrite <- Hfr by done. unfold stored. rewrite kmem_set_mem.
    apply mwrite_frame. rewrite le_split_length. pose proof (PX_range 0 a).
    assert (HqT : q ∈ dom T) by (apply elem_of_dom; eexists; by eapply pwalk_root).
    specialize (HbT q HqT). unfold in_page, PGSIZE in *. lia.
  - unfold stored. rewrite Hrest. by kmem_simpl; rewrite ?kmem_set_mem, ?freelist_set_mem.
Qed.

Lemma unmap_loop root T l s a n (do_free : bool) :
  vm_inv root T l s -> aligned a -> 0 <= a -> a + Z.of_nat n * PGSIZE <= MAXVA ->
  (forall b, b ∈ pages_from a n ->
     has (pt_lookup (kmem s) root b) PTE_V = true /\ PTE_FLAGS (pt_lookup (kmem s) root b) <> PTE_V) ->
  let pas := (fun b => PTE2PA (pt_lookup (kmem s) root b)) <$> pages_from a n in
  (do_free = true -> NoDup pas /\ Forall (fun pa => page_ok pa /\ pa ∉ l /\ pa ∉ dom T) pas) ->
  exists s', mfor (pages_from a n) (unmap_body root do_free) s = Ok tt s' /\
    vm_inv root T (if do_free then rev pas ++ l else l) s' /\
    (forall va, user_va va ->
       pt_lookup (kmem s') root va = unmapped (pt_lookup (kmem s) root) a (Z.of_nat n) va) /\
    (forall b, (forall q, q ∈ dom T -> ~ in_page q b) ->
       (do_free = true -> forall pa, pa ∈ pas -> ~ in_page pa b) ->
       mget (kmem s') b = mget (kmem s) b) /\
    s' = set_mem (kmem s') (set_freelist (freelist (krest s')) s).
Proof.
  revert a l s. induction n as [|n IH]; intros a l s Hinv Hal Ha Hmax Hm; cbv zeta; intros Hfree.
  { exists s. split; [done|]. split; [by destruct do_free|]. split_and!; [|done|by rewrite set_id].
    intros va _. unfold unmapped. by rewrite decide_False by lia. }
  rewrite pages_from_S in Hm, Hfree |- *. rewrite !fmap_cons in Hfree |- *. cbn [mfor].
  assert (Hua : user_va a) by (unfold user_va, PGSIZE in *; lia).
  destruct (Hm a (list_elem_of_here _ _)) as [Hv Hfl].
  destruct (unmap_step root T l s a do_free Hinv Hua Hv Hfl) as (s1 & H1 & Hinv1 & Hl1 & Hf1 & Hr1).
  { intros Hd. destruct (Hfree Hd) as [_ Hall]. by apply Forall_cons in Hall as [? _]. }
  set (pa := PTE2PA (pt_lookup (kmem s) root a)) in *.
  assert (Hdiv : (a + PGSIZE) / PGSIZE = a / PGSIZE + 1) by (unfold PGSIZE; dlia).
  assert (Hrest : forall b, b ∈ pages_from (a + PGSIZE) n ->
            pt_lookup (kmem s1) root b = pt_lookup (kmem s) root b).
  { intros b Hb%elem_of_pages_from. destruct Hb as (i & Hi & ->).
    rewrite Hl1 by (unfold user_va, PGSIZE in *; lia). rewrite decide_False; [done|].
    rewrite (same_page_aligned a _ Hal). unfold PGSIZE. clear -Hi. dlia. }
  assert (Hpas : (fun b => PTE2PA (pt_lookup (kmem s1) root b)) <$> pages_from (a + PGSIZE) n =
                 (fun b => PTE2PA (pt_lookup (kmem s) root b)) <$> pages_from (a + PGSIZE) n).
  { apply list_fmap_ext. intros i b Hb. rewrite Hrest; [done|]. by eapply list_elem_of_lookup_2. }
  destruct (IH (a + PGSIZE) (if do_free then pa :: l else l) s1) as (s' & H2 & Hinv2 & Hl2 & Hf2 & Hr2).
  - done.
  - unfold aligned, PGSIZE in *; dlia.
  - unfold PGSIZE; lia.
  - unfold PGSIZE in *; lia.
  - intros b Hb. rewrite Hrest by done. apply Hm. by apply list_elem_of_further.
  - rewrite Hpas. intros Hd. destruct (Hfree Hd) as [Hnd Hall].
    apply NoDup_cons in Hnd as [Hnin Hnd]. apply Forall_cons in Hall as [Hpa Hall].
    split; [done|]. rewrite Hd. apply Forall_forall. intros x Hx.
    rewrite Forall_forall in Hall. specialize (Hall x Hx). split_and!; try apply Hall.
    apply not_elem_of_cons. split; [by intros ->|apply Hall].
  - rewrite Hpas in *. exists s'. rewrite (bind_Ok _ _ _ _ _ H1). split; [exact H2|].
    split; [|split; [|split]].
    + destruct do_free; [|done].
      simpl. by rewrite <- app_assoc.
    + intros va Hva. rewrite Hl2 by done. unfold unmapped. rewrite Hl1, Hdiv by done.
      destruct (decide (same_page a va)) as [Hs|Hs]; rewrite (same_page_aligned a va Hal) in Hs.
      * rewrite decide_False by lia. by rewrite decide_True by lia.
      * destruct (decide (0 <= va / PGSIZE - (a / PGSIZE + 1) < Z.of_nat n)).
        -- by rewrite decide_True by lia.
        -- by rewrite decide_False by lia.
    + intros b HbT Hbp. rewrite Hf2, Hf1; try done.
      * intros Hd. apply (Hbp Hd). apply list_elem_of_here.
      * intros Hd p Hp. apply (Hbp Hd). by apply list_elem_of_further.
    + rewrite Hr2 at 1. rewrite Hr1 at 1. by kmem_simpl.
Qed.

(** C6: on a range of mapped leaf pages [uvmunmap] returns, the pages are
    unmapped and no other translation changes; with [do_free] exactly the
    pages they were mapped to are pushed on the free list (so they must be
    allocated, distinct and in no page table), without it the allocator is
    untouched.  Memory outside the table and the freed pages is preserved. *)
Theorem uvmunmap_spec root T l s va n (do_free : bool) :
  vm_inv root T l s -> va mod PGSIZE = 0 -> 0 <= va -> va + Z.of_nat n * PGSIZE <= MAXVA ->
  (forall b, b ∈ pages_from va n ->
     has (pt_lookup (kmem s) root b) PTE_V = true /\ PTE_FLAGS (pt_lookup (kmem s) root b) <> PTE_V) ->
  let pas := (fun b => PTE2PA (pt_lookup (kmem s) root b)) <$> pages_from va n in
  (do_free = true -> NoDup pas /\ Forall (fun pa => page_ok pa /\ pa ∉ l /\ pa ∉ dom T) pas) ->
  exists s', uvmunmap root va (Z.of_nat n) do_free s = Ok tt s' /\
    vm_inv root T (if do_free then rev pas ++ l else l) s' /\
    (forall va', user_va va' ->
       pt_lookup (kmem s') root va' = unmapped (pt_lookup (kmem s) root) va (Z.of_nat n) va') /\
    (forall b, (forall q, q ∈ dom T -> ~ in_page q b) ->
       (do_free = true -> forall pa, pa ∈ pas -> ~ in_page pa b) ->
       mget (kmem s') b = mget (kmem s) b).
Proof.
  intros Hinv Hal Ha Hmax Hm pas Hfree. unfold uvmunmap. rewrite Hal, unmap_pages by done. simpl.
  destruct (unmap_loop root T l s va n do_free Hinv Hal Ha Hmax Hm Hfree) as (s' & H1 & H2 & H3 & H4 & _).
  by exists s'.
Qed.
End vm_thm.

(** ** A concrete address space *)

(** Root page, one table per level, one user page at address 0, and two free
    pages. *)
Definition dR : Z := 0x80023000.
Definition dA : Z := 0x80024000.
Definition dB : Z := 0x80025000.
Definition dP : Z := 0x80026000.
Definition dF : Z := 0x80027000.
Definition dG : Z := 0x80028000.

Definition demo_pt_mem : gmap Z Z :=
  mwrite (mwrite (mwrite (mwrite ∅
    (dF + 8 * 0) (le_split 8 dG))
    (dB + 8 * 0) (le_split 8 (leaf_pte dP 0x16)))
    (dA + 8 * 0) (le_split 8 (leaf_pte dB 0)))
    (dR + 8 * 0) (le_split 8 (leaf_pte dA 0)).
Definition demo_pt : Kst (KMem unit) :=
  KSt [] (Some 0%nat) (replicate NPROC proc_zero) 1 None 0 (KM demo_pt_mem dF 0 tt).
Definition demo_T : gmap Z (nat * Z) := {[dR := (2%nat, 0); dA := (1%nat, 0); dB := (0%nat, 0)]}.

Lemma demo_ent p i :
  aligned p -> 0 <= i < 512 ->
  ent demo_pt_mem p i =
    if decide ((dR, 0) = (p, i)) then leaf_pte dA 0
    else if decide ((dA, 0) = (p, i)) then leaf_pte dB 0
    else if decide ((dB, 0) = (p, i)) then leaf_pte dP 0x16
    else if decide ((dF, 0) = (p, i)) then dG else 0.
Proof.
  intros Hp Hi. unfold demo_pt_mem.
  repeat (case_decide as Hc;
    [injection Hc as <- <-; by apply ent_write_same|rewrite ent_write_other by done; clear Hc]).
  reflexivity.
Qed.

Lemma demo_kalloc_inv : @kalloc_inv demo_image unit [dF; dG] demo_pt.
Proof.
  split; [|by apply NoDup_cons; split; [by rewrite list_elem_of_singleton|apply NoDup_singleton]].
  vm_compute. repeat split; congruence.
Qed.

Lemma demo_pages : Forall (@page_ok demo_image) [dR; dA; dB; dP; dF; dG].
Proof. apply (bool_decide_unpack _). by vm_compute. Qed.

Lemma demo_page p : p ∈ [dR; dA; dB; dP; dF; dG] -> @page_ok demo_image p.
Proof. apply Forall_forall, demo_pages. Qed.

Lemma demo_pt_ok : @pt_ok demo_image demo_pt_mem dR demo_T.
Proof.
  split; [done|]. intros p l pre Hp. unfold demo_T in Hp.
  rewrite !lookup_insert_Some, lookup_singleton_Some in Hp.
  assert (Hd : forall p l pre, p ∈ [dR; dA; dB] -> forall l' i, l = S l' -> 0 <= i < 512 ->
    (p = dR /\ l' = 1%nat /\ pre = 0) \/ (p = dA /\ l' = 0%nat /\ pre = 0) ->
    has (ent demo_pt_mem p i) PTE_V = true ->
    demo_T !! PTE2PA (ent demo_pt_mem p i) = Some (l', pre * 512 + i)).
  { clear. intros p l pre _ l' i _ Hi Hc.
    rewrite demo_ent by (try done; destruct Hc as [(-> & _)|(-> & _)]; done).
    destruct Hc as [(-> & -> & ->)|(-> & -> & ->)];
      repeat (case_decide as Hc; [first [by simplify_eq|injection Hc as <-; done]|clear Hc]); done. }
  destruct Hp as [(<- & [= <- <-])|(_ & [(<- & [= <- <-])|(_ & <- & [= <- <-])])];
    (split; [apply demo_page; set_solver|]); intros l' i Hl Hi.
  - apply (Hd dR 2%nat 0); [set_solver|done|done|left; naive_solver].
  - apply (Hd dA 1%nat 0); [set_solver|done|done|right; naive_solver].
  - done.
Qed.

Lemma demo_vm_inv : @vm_inv demo_image unit dR demo_T [dF; dG] demo_pt.
Proof.
  split; [apply demo_kalloc_inv|apply demo_pt_ok| |apply not_elem_of_nil].
  intros q. unfold demo_T. rewrite !dom_insert_L, dom_singleton_L. set_unfold.
  intros Hq. destruct_or? Hq; subst; intros Hf; destruct_or? Hf; done.
Qed.

Lemma demo_lookup va :
  user_va va -> pt_lookup demo_pt_mem dR va = if decide (va / PGSIZE = 0) then leaf_pte dP 0x16 else 0.
Proof.
  intros Hva. pose proof (leaf_index va 0 Hva ltac:(by vm_compute)) as Hidx.
  unfold pt_lookup, plookup. cbn [pwalk].
  pose proof (user_va_W64 _ Hva) as Hw. pose proof (vpre_S 1 va Hw) as H1.
  pose proof (vpre_S 2 va Hw) as H2. pose proof (vpre_S 0 va Hw) as H0. rewrite vpre_root in H2 by done.
  change (vpre 0 va) with (va / PGSIZE) in H0.
  change (Z.of_nat 2) with 2 in *. change (Z.of_nat 1) with 1 in *. change (Z.of_nat 0) with 0 in *.
  pose proof (PX_range 0 va). pose proof (PX_range 1 va). pose proof (PX_range 2 va).
  rewrite demo_ent by done.
  destruct (decide ((dR, 0) = (dR, PX 2 va))) as [E2|E2].
  - injection E2 as E2. change (PTE2PA (leaf_pte dA 0)) with dA. cbn [has].
    change (has (leaf_pte dA 0) PTE_V) with true. cbv iota. rewrite demo_ent by done.
    rewrite decide_False by done.
    destruct (decide ((dA, 0) = (dA, PX 1 va))) as [E1|E1].
    + injection E1 as E1. change (PTE2PA (leaf_pte dB 0)) with dB.
      change (has (leaf_pte dB 0) PTE_V) with true. cbv iota. rewrite demo_ent by done.
      rewrite !decide_False by done.
      destruct (decide ((dB, 0) = (dB, PX 0 va))) as [E0|E0].
      * injection E0 as E0. by rewrite decide_True by lia.
      * rewrite decide_False by done. rewrite decide_False; [done|]. intros Hz. apply E0. f_equal. lia.
    + rewrite !decide_False by done. rewrite has_zero.
      rewrite decide_False; [done|]. intros Hz. apply E1. f_equal. lia.
  - rewrite !decide_False by done. rewrite has_zero.
    rewrite decide_False; [done|]. intros Hz. apply E2. f_equal. lia.
Qed.

Lemma demo_dP : @page_ok demo_image dP /\ dP ∉ [dF; dG] /\ dP ∉ dom demo_T.
Proof.
  split; [apply (bool_decide_unpack _); by vm_compute|].
  split; apply (bool_decide_unpack _); by vm_compute.
Qed.

Lemma demo_zero : user_va 0.
Proof. unfold user_va, MAXVA. lia. Qed.

Lemma demo_user_pages : @user_pages demo_image demo_pt_mem dR demo_T.
Proof.
  intros va Hva. rewrite demo_lookup by done. case_decide; [|by rewrite has_zero]. intros _ _.
  change (PTE2PA (leaf_pte dP 0x16)) with dP. split; apply demo_dP.
Qed.

(** Mapping two pages at 2 MB, which needs one more table. *)
Lemma mappages_spec_witness :
  exists T' l' s' r k,
    @mappages unit dR 0x200000 0x2000 0x80030000 6 demo_pt = Ok r s' /\
    @vm_grow demo_image unit dR demo_T [dF; dG] demo_pt T' l' s' /\
    (r = 0 /\ k = 2 \/ r = -1 /\ 0 <= k < 2 /\ l' = []).
Proof.
  destruct (@mappages_spec demo_image demo_image_ok unit dR demo_T [dF; dG] demo_pt
              0x200000 0x2000 0x80030000 6) as (T' & l' & s' & r & k & H1 & H2 & _ & H3).
  - apply demo_vm_inv.
  - by vm_compute.
  - by vm_compute.
  - by vm_compute.
  - split; [reflexivity|split; [by vm_compute|reflexivity]].
  - by vm_compute.
  - lia.
  - intros va' Hu Hva'. change (kmem demo_pt) with demo_pt_mem. rewrite demo_lookup by done.
    change (0x200000 / PGSIZE) with 512 in Hva'. by rewrite decide_False by lia.
  - exists T', l', s', r, k. split; [exact H1|]. split; [exact H2|exact H3].
Defined.

(** Unmapping and freeing the page at address 0. *)
Lemma uvmunmap_spec_witness :
  exists s', @uvmunmap demo_image unit dR 0 1 true demo_pt = Ok tt s' /\
    @kalloc_inv demo_image unit [dP; dF; dG] s' /\ pt_lookup (kmem s') dR 0 = 0.
Proof.
  assert (Hl : pt_lookup demo_pt_mem dR 0 = leaf_pte dP 0x16)
    by (rewrite demo_lookup by apply demo_zero; reflexivity).
  destruct (@uvmunmap_spec demo_image demo_image_ok unit dR demo_T [dF; dG] demo_pt 0 1 true)
    as (s' & H1 & H2 & H3 & _).
  - apply demo_vm_inv.
  - reflexivity.
  - lia.
  - by vm_compute.
  - intros b Hb. change (pages_from 0 1) with [0] in Hb. apply list_elem_of_singleton in Hb as ->.
    change (kmem demo_pt) with demo_pt_mem. rewrite Hl. split; [reflexivity|discriminate].
  - intros _. change (pages_from 0 1) with [0]. cbn [fmap list_fmap].
    change (kmem demo_pt) with demo_pt_mem. rewrite Hl. change (PTE2PA (leaf_pte dP 0x16)) with dP.
    split; [apply NoDup_singleton|]. apply Forall_singleton, demo_dP.
  - exists s'. split; [exact H1|]. split.
    + destruct H2 as [H2 _ _ _]. change (pages_from 0 1) with [0] in H2. cbn [fmap list_fmap] in H2.
      change (kmem demo_pt) with demo_pt_mem in H2. rewrite Hl in H2. exact H2.
    + etransitivity; [apply (H3 0 demo_zero)|]. 
      unfold unmapped. destruct (decide _) as [_|Hn]; [reflexivity|].
      exfalso. apply Hn. change (0 / PGSIZE) with 0. lia.
Defined.

(** Reading four bytes of the user page, and a range that is not mapped. *)
Lemma copyin_spec_witness :
  @copyin unit dR 10 4 demo_pt = Ok (0, [0; 0; 0; 0]) demo_pt /\
  exists bs, @copyin unit dR 4094 4 demo_pt = Ok (-1, bs) demo_pt.
Proof.
  split.
  - exact (@copyin_spec demo_image demo_image_ok unit dR demo_T demo_pt 10 4
             demo_pt_ok demo_user_pages ltac:(lia)).
  - exact (@copyin_spec demo_image demo_image_ok unit dR demo_T demo_pt 4094 4
             demo_pt_ok demo_user_pages ltac:(lia)).
Defined.

Lemma copyout_spec_witness :
  exists m', @copyout unit dR 10 [1; 2; 3] demo_pt = Ok 0 (set_mem m' demo_pt) /\
    ubytes m' dR 10 3 = Some [1; 2; 3].
Proof.
  destruct (@copyout_spec demo_image demo_image_ok unit dR demo_T demo_pt 10 [1; 2; 3]
             demo_pt_ok demo_user_pages ltac:(lia)) as (r & m' & H1 & _ & _ & H2).
  assert (Ht : forall a, 10 <= a < 13 -> translate demo_pt_mem dR a = Some (dP + a)).
  { intros a Ha. unfold translate.
    rewrite bool_decide_true, demo_lookup by (unfold user_va, MAXVA; lia).
    rewrite decide_True by (unfold PGSIZE; dlia).
    change (PTE2PA (leaf_pte dP 0x16)) with dP. rewrite (Z.mod_small a) by (unfold PGSIZE; lia).
    reflexivity. }
  assert (Hu : exists bs, ubytes demo_pt_mem dR 10 3 = Some bs).
  { simpl. rewrite !Ht by lia. eauto. }
  destruct Hu as [bs Hu]. change (kmem demo_pt) with demo_pt_mem in H2.
  change (length [1; 2; 3]) with 3%nat in H2. rewrite Hu in H2. destruct H2 as [-> H2].
  exists m'. split; [exact H1|]. apply H2.
  - intros a b p Ha Hb. rewrite !Ht by lia. intros [= <-] [= ?]. lia.
  - repeat constructor; lia.
Defined.
