(* ===== verification/VmCopy.v ===== *)
(** Copying an address space: [uvmcopy] of kernel/vm.c, on which [fork]
    stands. *)

From S2P Require Import Prelude CInt Machine KString KStringThm Sched Kalloc Vm VmSpec VmThm.

Section vm_copy.
Context {img : KernelImage} {imgok : KernelImageOk} {R : Type}.
Abbreviation St := (Kst (KMem R)).
Implicit Types (s : St) (T : gmap Z (nat * Z)) (l : list Z).

(** ** Frames *)

(** [m'] differs from [m] in pages of [P] only. *)
Definition only_in (P : Z -> Prop) (m m' : gmap Z Z) : Prop :=
  forall a, (forall q, P q -> ~ in_page q a) -> mget m' a = mget m a.

Lemma only_in_trans P m1 m2 m3 : only_in P m1 m2 -> only_in P m2 m3 -> only_in P m1 m3.
Proof. intros H1 H2 a Ha. by rewrite H2, H1. Qed.

Lemma only_in_mono (P Q : Z -> Prop) m m' : (forall q, P q -> Q q) -> only_in P m m' -> only_in Q m m'.
Proof. intros H1 H2 a Ha. apply H2. intros q Hq. by apply Ha, H1. Qed.

(** Changes in other pages are not seen in page [p]. *)
Lemma only_in_page P m m' p a :
  only_in P m m' -> (forall q, P q -> page_ok q) -> page_ok p -> ~ P p -> in_page p a -> mget m' a = mget m a.
Proof.
  intros H Hok Hp HnP Ha. apply H. intros q Hq. eapply page_disjoint; [exact Hp|by apply Hok| |exact Ha].
  by intros ->.
Qed.

Lemma vm_inv_page root T l s q : vm_inv root T l s -> q ∈ dom T \/ q ∈ l -> page_ok q.
Proof.
  intros I [Hq|Hq]; [|by eapply kalloc_inv_page; [apply I|]].
  apply elem_of_dom in Hq as [x Hx]. by eapply pt_ok_page; [apply I|].
Qed.

(** Another page table is not affected by changes outside it. *)
Lemma vm_inv_other root T l s P l' s' :
  vm_inv root T l s -> only_in P (kmem s) (kmem s') -> (forall q, P q -> page_ok q) ->
  (forall q, q ∈ dom T -> ~ P q) -> kalloc_inv l' s' -> kmem_lock ∉ held s' ->
  (forall q, q ∈ dom T -> q ∉ l') ->
  vm_inv root T l' s' /\ forall va, user_va va -> pt_lookup (kmem s') root va = pt_lookup (kmem s) root va.
Proof.
  intros I Hf HP HT Hka Hlk Hd.
  assert (Hm : forall q a, q ∈ dom T -> in_page q a -> mget (kmem s') a = mget (kmem s) a).
  { intros q a Hq Ha. eapply only_in_page; [exact Hf|done| |by apply HT|exact Ha].
    eapply vm_inv_page; eauto. }
  split; [split; [done| |done|done]|].
  - eapply pt_ok_frame; [exact Hm|apply I].
  - intros va Hva. by eapply pt_lookup_frame; [exact Hm|apply I|].
Qed.

(** ** A page taken and filled *)

Definition filled p pa s : St :=
  set_mem (memmove (mem_junked (kmem s) p) p pa PGSIZE) (set_freelist (le_combine (mread (kmem s) p 8)) s).

Lemma mread_page m m' p :
  (forall a, in_page p a -> mget m' a = mget m a) -> mread m' p (Z.to_nat PGSIZE) = mread m p (Z.to_nat PGSIZE).
Proof. intros H. apply mread_ext. intros a Ha. apply H. unfold in_page, PGSIZE in *. lia. Qed.

Lemma filled_ok p pa l s :
  kmem_lock ∉ held s -> kalloc_inv (p :: l) s -> page_ok pa -> p <> pa ->
  (exists s1, kalloc s = Ok p s1 /\ kmemmove p pa PGSIZE s1 = Ok tt (filled p pa s)) /\
  only_in (eq p) (kmem s) (kmem (filled p pa s)) /\ kalloc_inv l (filled p pa s) /\
  mread (kmem (filled p pa s)) p (Z.to_nat PGSIZE) = mread (kmem s) pa (Z.to_nat PGSIZE).
Proof.
  intros Hl Hka Hpa Hne. assert (Hp : page_ok p) by (eapply kalloc_inv_page; [exact Hka|apply list_elem_of_here]).
  assert (Hu : u32 PGSIZE = PGSIZE) by done.
  assert (Hf : only_in (eq p) (kmem s) (kmem (filled p pa s))).
  { intros a Ha. specialize (Ha p eq_refl). unfold filled. rewrite kmem_set_mem, memmove_mget, Hu, decide_False by exact Ha.
    by apply mem_junked_frame. }
  split; [|split; [exact Hf|split]].
  - eexists. split; [by eapply kalloc_eq_cons|]. rewrite kmemmove_ok by (by apply page_ok_ram). done.
  - eapply kalloc_inv_frame; [| |by apply kalloc_inv_alloc]; [done|]. intros q a Hq Ha.
    unfold filled. rewrite !kmem_set_mem, memmove_mget, Hu, decide_False; [done|].
    destruct Hka as [Hfl [Hn Hnd]%NoDup_cons].
    eapply page_disjoint; [|exact Hp| |exact Ha]; [|by intros ->].
    eapply (fl_page_ok (kmem s)); [exact Hfl|by apply list_elem_of_further].
  - apply list_eq_same_length with (n := Z.to_nat PGSIZE); [by rewrite mread_length|by rewrite mread_length|].
    intros i x y Hi. rewrite !mread_lookup by done. intros [= <-] [= <-].
    unfold filled. rewrite kmem_set_mem, memmove_mget, Hu, decide_True by (unfold PGSIZE in *; lia).
    rewrite mem_junked_frame by (eapply (page_disjoint pa p); [done|done|done|unfold in_page, PGSIZE in *; lia]).
    f_equal. lia.
Qed.

(** Only memory and free list have changed. *)
Definition only_mem s s' : Prop := s' = set_mem (kmem s') (set_freelist (freelist (krest s')) s).

Lemma rest_trans s s1 s2 : only_mem s s1 -> only_mem s1 s2 -> only_mem s s2.
Proof. unfold only_mem. intros H1 H2. rewrite H2 at 1. rewrite H1 at 1. by kmem_simpl. Qed.

Lemma rest_filled p pa s : only_mem s (filled p pa s).
Proof. unfold only_mem, filled. by kmem_simpl. Qed.

(** The PTE of a mapped address, as [walk] and a load find it. *)
Lemma load_pte root T l s va :
  vm_inv root T l s -> user_va va -> has (pt_lookup (kmem s) root va) PTE_V = true ->
  exists pte, (pte =? 0) = false /\ walk root va false s = Ok pte s /\ ld64 pte s = Ok (pt_lookup (kmem s) root va) s.
Proof.
  intros I Hva Hv. destruct (pwalk 2 (kmem s) root va) as [q|] eqn:Hq; last first.
  { unfold pt_lookup, plookup in Hv. rewrite Hq in Hv. by rewrite has_zero in Hv. }
  exists (q + 8 * PX 0 va). split; [|split].
  - assert (page_ok q) as Hqo by (eapply pt_ok_page; [apply I|by eapply pwalk_root; [apply I| |]]).
    apply page_ok_pos in Hqo. pose proof (PX_range 0 va). unfold KERNBASE in *. lia.
  - rewrite (walk_noalloc root T) by (done || apply I). by rewrite Hq.
  - by eapply ld_leaf.
Qed.
End vm_copy.

(** ** One page *)

Section map_page.
Context {img : KernelImage} {imgok : KernelImageOk} {R : Type}.
Implicit Types (s : Kst (KMem R)) (T : gmap Z (nat * Z)) (l : list Z).

Lemma mappages_page root T l s a pa perm :
  vm_inv root T l s -> aligned a -> user_va a -> pte_pa pa -> 0 <= perm < 1024 ->
  has (pt_lookup (kmem s) root a) PTE_V = false ->
  exists T' l' s', vm_grow root T l s T' l' s' /\
    (mappages root a PGSIZE pa perm s = Ok (-1) s' /\ l' = [] /\ same_lookups root s s' \/
     mappages root a PGSIZE pa perm s = Ok 0 s' /\
     forall va, user_va va -> pt_lookup (kmem s') root va =
       if decide (same_page a va) then leaf_pte pa perm else pt_lookup (kmem s) root va).
Proof.
  intros I Hal Ha Hpa Hperm Hnv.
  assert (Hr : mappages root a PGSIZE pa perm s = while 1 (mappages_body root perm a) (a, pa) s).
  { unfold mappages. change (PGSIZE =? 0) with false. cbv iota. assert (2 ^ 38 < W64) by done.
    unfold aligned, user_va, MAXVA, PGSIZE in *. rewrite (u64_small (a + 4096 - 1)) by lia. rewrite !PGROUNDDOWN_eq.
    replace (a - a mod PGSIZE) with a by (unfold PGSIZE; lia).
    replace (a + 4096 - 1 - (a + 4096 - 1) mod PGSIZE) with a by (unfold PGSIZE; clear - Hal; Z.to_euclidean_division_equations; lia).
    rewrite Z.sub_diag. done. }
  destruct (mappages_step root perm a a pa T l s I Ha Hpa Hperm Hnv) as (T' & l' & s' & G & Hc).
  exists T', l', s'. split; [exact G|]. rewrite Hr. destruct Hc as [(Hb & Hl & Hs)|[Hb Hm]].
  - left. split; [by apply while_inr|done].
  - right. split; [|exact Hm]. rewrite Z.eqb_refl in Hb. by apply while_inr.
Qed.
End map_page.

(** ** The copying loop *)

Section copy.
Context {img : KernelImage} {imgok : KernelImageOk} {R : Type}.
Abbreviation St := (Kst (KMem R)).
Implicit Types (s : St) (T : gmap Z (nat * Z)) (l : list Z).

(** Two page tables over one free list. *)
Record two_tables (old new : Z) To Tn l s : Prop := {
  tt_old : vm_inv old To l s;
  tt_new : vm_inv new Tn l s;
  tt_disj : forall q, q ∈ dom To -> q ∉ dom Tn;
}.

Context (old new : Z) (To Tn0 : gmap Z (nat * Z)) (l0 : list Z) (s0 : St) (N : nat).
Context (I0 : two_tables old new To Tn0 l0 s0).

(** The entry of page [j] of the source. *)
Definition src (j : Z) : Z := pt_lookup (kmem s0) old (j * PGSIZE).
(** What copying may write. *)
Definition scratch (q : Z) : Prop := q ∈ dom Tn0 \/ q ∈ l0.

(** The source's pages are mapped leaves to allocated memory that is in no
    page table. *)
Definition source_ok : Prop := forall j, 0 <= j < Z.of_nat N ->
  has (src j) PTE_V = true /\ PTE_FLAGS (src j) <> PTE_V /\ page_ok (PTE2PA (src j)) /\ ~ scratch (PTE2PA (src j)).
Context (Hsrc : source_ok) (HN : Z.of_nat N * PGSIZE <= MAXVA).
(** Nothing is mapped where the copies go. *)
Context (Hfree : forall va, user_va va -> va / PGSIZE < Z.of_nat N -> pt_lookup (kmem s0) new va = 0).

(** The new table after pages [ps] have been filled. *)
Definition copied_map (ps : list Z) (va : Z) : Z :=
  match ps !! Z.to_nat (va / PGSIZE) with
  | Some p => leaf_pte p (PTE_FLAGS (src (va / PGSIZE)))
  | None => pt_lookup (kmem s0) new va
  end.

Record copied (ps : list Z) Tn l s : Prop := {
  cp_tables : two_tables old new To Tn l s;
  cp_tn : forall q, q ∈ dom Tn -> scratch q;
  cp_sub : forall q, q ∈ l -> q ∈ l0;
  cp_nodup : NoDup ps;
  cp_pages : forall p, p ∈ ps -> p ∈ l0 /\ p ∉ l /\ p ∉ dom Tn;
  cp_keep : forall q, scratch q -> q ∈ l \/ q ∈ dom Tn \/ q ∈ ps;
  cp_frame : only_in scratch (kmem s0) (kmem s);
  cp_data : forall j p, ps !! j = Some p ->
    mread (kmem s) p (Z.to_nat PGSIZE) = mread (kmem s0) (PTE2PA (src (Z.of_nat j))) (Z.to_nat PGSIZE);
  cp_map : forall va, user_va va -> pt_lookup (kmem s) new va = copied_map ps va;
  cp_rest : only_mem s0 s;
}.

Lemma scratch_ok q : scratch q -> page_ok q.
Proof. intros H. exact (vm_inv_page new Tn0 l0 s0 q (tt_new _ _ _ _ _ _ I0) H). Qed.

Lemma copied_init : copied [] Tn0 l0 s0.
Proof.
  split.
  - exact I0.
  - intros q Hq. by left.
  - done.
  - constructor.
  - intros p Hp. by apply not_elem_of_nil in Hp.
  - unfold scratch. tauto.
  - done.
  - done.
  - intros va _. unfold copied_map. by rewrite lookup_nil.
  - unfold only_mem. by rewrite set_id.
Qed.

(** The source table is not in reach. *)
Lemma source_apart q : q ∈ dom To -> ~ scratch q.
Proof.
  intros Hq [H|H]; [by eapply (tt_disj _ _ _ _ _ _ I0)|].
  by eapply (vi_disj _ _ _ _ (tt_old _ _ _ _ _ _ I0)).
Qed.

Lemma source_lookup ps Tn l s va :
  copied ps Tn l s -> user_va va -> pt_lookup (kmem s) old va = pt_lookup (kmem s0) old va.
Proof.
  intros C. apply (vm_inv_other old To l0 s0 scratch l s); [apply I0|apply C|apply scratch_ok|apply source_apart| | |];
    apply (cp_tables _ _ _ _ C).
Qed.

Lemma page_va j : 0 <= j < Z.of_nat N -> user_va (j * PGSIZE).
Proof. unfold user_va, PGSIZE in *. lia. Qed.

(** As long as only scratch pages are written, the tables stay apart. *)
Lemma tables_apart Tn l s :
  vm_inv new Tn l s -> (forall q, q ∈ dom Tn \/ q ∈ l -> scratch q) -> only_in scratch (kmem s0) (kmem s) ->
  two_tables old new To Tn l s.
Proof.
  intros I Hs Hf. split; [|done|].
  - eapply (vm_inv_other old To l0 s0); [apply I0|exact Hf|apply scratch_ok|apply source_apart|apply I|apply I|].
    intros q Hq Hq'. apply (source_apart q Hq), Hs. by right.
  - intros q Hq Hq'. apply (source_apart q Hq), Hs. by left.
Qed.

Lemma suffix_elem (q : Z) l l' : l' `suffix_of` l -> q ∈ l' -> q ∈ l.
Proof. intros [k ->]. set_solver. Qed.

Lemma cp_scratch ps Tn l s q : copied ps Tn l s -> q ∈ dom Tn \/ q ∈ l -> scratch q.
Proof. intros C [H|H]; [by eapply cp_tn|right; by eapply cp_sub]. Qed.

(** A page taken off the free list and filled with a page of the source. *)
Lemma fill_tables ps Tn p l s j :
  copied ps Tn (p :: l) s -> 0 <= j < Z.of_nat N ->
  let s1 := filled p (PTE2PA (src j)) s in
  (exists s', kalloc s = Ok p s' /\ kmemmove p (PTE2PA (src j)) PGSIZE s' = Ok tt s1) /\
  two_tables old new To Tn l s1 /\ only_in (eq p) (kmem s) (kmem s1) /\
  page_ok p /\ p ∉ dom Tn /\ p ∉ l /\
  mread (kmem s1) p (Z.to_nat PGSIZE) = mread (kmem s0) (PTE2PA (src j)) (Z.to_nat PGSIZE) /\
  (forall va, user_va va -> pt_lookup (kmem s1) new va = pt_lookup (kmem s) new va).
Proof.
  intros C Hj s1. pose proof (cp_tables _ _ _ _ C) as T1. pose proof (tt_new _ _ _ _ _ _ T1) as In.
  destruct (Hsrc j Hj) as (_ & _ & Hpa & HpaS).
  assert (Hps : scratch p) by (eapply cp_scratch; [exact C|right; apply list_elem_of_here]).
  assert (Hne : p <> PTE2PA (src j)) by (intros ->; contradiction).
  destruct (filled_ok p (PTE2PA (src j)) l s) as (Hex & Hf & Hka & Hrd); [apply In|apply In|done|done|].
  fold s1 in Hex, Hf, Hka, Hrd.
  assert (HpT : p ∉ dom Tn) by (intros H; by apply (vi_disj _ _ _ _ In p H), list_elem_of_here).
  assert (Hpl : p ∉ l) by (destruct (vi_kalloc _ _ _ _ In) as [_ [H _]%NoDup_cons]; exact H).
  destruct (vm_inv_other new Tn (p :: l) s (eq p) l s1 In Hf) as [In1 Hlk].
  - intros q <-. by apply scratch_ok.
  - intros q Hq <-. contradiction.
  - exact Hka.
  - exact (vi_lock _ _ _ _ In).
  - intros q Hq Hql. apply (vi_disj _ _ _ _ In q Hq). by apply list_elem_of_further.
  - split; [exact Hex|]. split; [|split; [exact Hf|split; [by apply scratch_ok|split; [done|split; [done|split; [|exact Hlk]]]]]].
    + apply tables_apart; [exact In1| |].
      * intros q Hq. eapply cp_scratch; [exact C|]. destruct Hq; [by left|right; by apply list_elem_of_further].
      * eapply only_in_trans; [by eapply cp_frame|]. eapply only_in_mono; [|exact Hf]. by intros q <-.
    + rewrite Hrd. apply mread_page. intros a Ha.
      eapply only_in_page; [by eapply cp_frame|apply scratch_ok|exact Hpa|done|exact Ha].
Qed.

Definition copy_body (i : Z) : M St (option Z) :=
  let* pte := walk old i false in
  if pte =? 0 then panic "uvmcopy: pte should exist" else
  let* e := ld64 pte in
  if negb (has e PTE_V) then panic "uvmcopy: page not present" else
  let pa := PTE2PA e in
  let flags := PTE_FLAGS e in
  let* mem := kalloc in
  if mem =? 0 then ret (Some i) else
  kmemmove mem pa PGSIZE;;;
  let* r := mappages new i PGSIZE mem flags in
  if negb (r =? 0) then
    kfree mem;;;
    ret (Some i)
  else ret None.

Lemma flags_range e : 0 <= PTE_FLAGS e < 1024.
Proof. rewrite PTE_FLAGS_eq. dlia. Qed.

Lemma page_index j : (j * PGSIZE) / PGSIZE = j.
Proof. unfold PGSIZE. dlia. Qed.

Lemma copied_map_snoc ps p va :
  0 <= va -> (let j := Z.of_nat (length ps) in
  (if decide (same_page (j * PGSIZE) va) then leaf_pte p (PTE_FLAGS (src j)) else copied_map ps va) =
  copied_map (ps ++ [p]) va).
Proof.
  intros Hva j. unfold copied_map. assert (0 <= va / PGSIZE) by (unfold PGSIZE; dlia).
  case_decide as Hd; unfold same_page in Hd; rewrite page_index in Hd.
  - rewrite lookup_app_r by lia. replace (Z.to_nat (va / PGSIZE) - length ps)%nat with 0%nat by lia. simpl.
    by rewrite <- Hd.
  - destruct (decide (va / PGSIZE < j)).
    + by rewrite lookup_app_l by lia.
    + rewrite !lookup_ge_None_2; [done|rewrite length_app; simpl; lia|lia].
Qed.

(** What a step must establish for the pages [nw] it adds. *)
Lemma copied_step ps nw Tn l s Tn' l' s' :
  copied ps Tn l s -> vm_inv new Tn' l' s' -> only_mem s s' ->
  only_in (fun q => q ∈ dom Tn \/ q ∈ l) (kmem s) (kmem s') ->
  (forall q, q ∈ dom Tn' -> q ∈ dom Tn \/ q ∈ l) -> (forall q, q ∈ l' -> q ∈ l) ->
  (forall q, q ∈ dom Tn \/ q ∈ l -> q ∈ l' \/ q ∈ dom Tn' \/ q ∈ nw) ->
  NoDup nw -> (forall p, p ∈ nw -> p ∈ l /\ p ∉ l' /\ p ∉ dom Tn') ->
  (forall i p, nw !! i = Some p -> mread (kmem s') p (Z.to_nat PGSIZE) =
     mread (kmem s0) (PTE2PA (src (Z.of_nat (length ps + i)))) (Z.to_nat PGSIZE)) ->
  (forall va, user_va va -> pt_lookup (kmem s') new va = copied_map (ps ++ nw) va) ->
  copied (ps ++ nw) Tn' l' s'.
Proof.
  intros C I' Hr Hf Hd Hl Hkeep Hnd Hnw Hdata Hmap.
  assert (Hsc : forall q, q ∈ dom Tn \/ q ∈ l -> scratch q) by (intros q; by eapply cp_scratch).
  assert (Hfr : only_in scratch (kmem s0) (kmem s')).
  { eapply only_in_trans; [by eapply cp_frame|]. by eapply only_in_mono; [|exact Hf]. }
  split.
  - apply tables_apart; [exact I'| |exact Hfr]. intros q [Hq|Hq]; [by apply Hsc, Hd|by apply Hsc; right; apply Hl].
  - intros q Hq. by apply Hsc, Hd.
  - intros q Hq. by eapply cp_sub, Hl.
  - apply NoDup_app. split; [by eapply cp_nodup|]. split; [|done].
    intros q Hq Hq'. apply (cp_pages _ _ _ _ C) in Hq as (_ & H & _). by apply H, Hnw.
  - intros q [Hq|Hq]%elem_of_app.
    + destruct (cp_pages _ _ _ _ C q Hq) as (H1 & H2 & H3). split; [done|]. split; [by intros H%Hl|by intros [H|H]%Hd].
    + destruct (Hnw q Hq) as (H1 & H2 & H3). split; [by eapply cp_sub|done].
  - intros q Hq. rewrite elem_of_app. destruct (cp_keep _ _ _ _ C q Hq) as [H|[H|H]]; [| |tauto];
      destruct (Hkeep q) as [?|[?|?]]; tauto.
  - exact Hfr.
  - intros i q [Hi|[Hi1 Hi2]]%lookup_app_Some.
    + rewrite <- (cp_data _ _ _ _ C i q Hi). apply mread_page. intros a Ha.
      destruct (cp_pages _ _ _ _ C q) as (H1 & H2 & H3); [by eapply list_elem_of_lookup_2|].
      eapply only_in_page; [exact Hf| |apply scratch_ok; by right| |exact Ha]; [|tauto].
      intros r Hr'. by apply scratch_ok, Hsc.
    + rewrite (Hdata _ _ Hi2). do 4 f_equal. lia.
  - exact Hmap.
  - eapply rest_trans; [by eapply cp_rest|exact Hr].
Qed.

(** Mapping the filled page extends the copy. *)
Lemma copied_snoc ps Tn p l s Tn' l' s2 :
  copied ps Tn (p :: l) s -> let j := Z.of_nat (length ps) in j < Z.of_nat N ->
  let s1 := filled p (PTE2PA (src j)) s in
  vm_grow new Tn l s1 Tn' l' s2 ->
  (forall va, user_va va -> pt_lookup (kmem s2) new va =
     if decide (same_page (j * PGSIZE) va) then leaf_pte p (PTE_FLAGS (src j)) else pt_lookup (kmem s1) new va) ->
  copied (ps ++ [p]) Tn' l' s2.
Proof.
  intros C j Hj s1 G Hmap. assert (Hj0 : 0 <= j < Z.of_nat N) by (split; [apply Nat2Z.is_nonneg|exact Hj]).
  destruct (fill_tables ps Tn p l s j C Hj0) as (_ & T1 & Hf & Hp & HpT & Hpl & Hrd & Hlk). fold s1 in T1, Hf, Hrd, Hlk.
  assert (Hsub : forall q, q ∈ l' -> q ∈ l) by (intros q; apply suffix_elem; apply G).
  assert (Hd' : forall q, q ∈ dom Tn' -> q ∈ dom Tn \/ q ∈ l) by (intros q [H|[H _]]%(vg_dom _ _ _ _ _ _ _ G); [by left|by right]).
  assert (Hg : only_in (fun q => q ∈ dom Tn \/ q ∈ l) (kmem s1) (kmem s2)) by (intros a; apply (vg_frame _ _ _ _ _ _ _ G)).
  eapply copied_step; [exact C|by eapply vg_inv| | | | | | | | |].
  - eapply rest_trans; [apply rest_filled|by eapply vg_rest].
  - eapply only_in_trans; [eapply only_in_mono; [|exact Hf]|eapply only_in_mono; [|exact Hg]].
    + intros q <-. right. apply list_elem_of_here.
    + intros q [H|H]; [by left|right; by apply list_elem_of_further].
  - intros q [H|H]%Hd'; [by left|right; by apply list_elem_of_further].
  - intros q H%Hsub. by apply list_elem_of_further.
  - intros q [H|[->|H]%elem_of_cons].
    + right; left. apply elem_of_dom in H as [x Hx]. apply elem_of_dom. exists x. eapply lookup_weaken; [exact Hx|apply G].
    + right; right. apply list_elem_of_here.
    + destruct (vg_keep _ _ _ _ _ _ _ G q H); tauto.
  - apply NoDup_singleton.
  - intros q ->%list_elem_of_singleton. split; [apply list_elem_of_here|]. split; [by intros H%Hsub|by intros [H|H]%Hd'].
  - intros i q [-> <-]%list_lookup_singleton_Some. rewrite Nat.add_0_r. fold j. rewrite <- Hrd.
    apply mread_page. intros a Ha. eapply only_in_page; [exact Hg| |exact Hp| |exact Ha]; [|tauto].
    intros r Hr. exact (vm_inv_page new Tn l s1 r (tt_new _ _ _ _ _ _ T1) Hr).
  - intros va Hva. rewrite Hmap, Hlk by done.
    rewrite (cp_map _ _ _ _ C) by done. apply copied_map_snoc. apply Hva.
Qed.

(** A failed [mappages]: the filled page goes back. *)
Lemma copied_failed ps Tn p l s Tn' s2 :
  copied ps Tn (p :: l) s -> let j := Z.of_nat (length ps) in j < Z.of_nat N ->
  let s1 := filled p (PTE2PA (src j)) s in
  vm_grow new Tn l s1 Tn' [] s2 ->
  (forall va, user_va va -> pt_lookup (kmem s2) new va = pt_lookup (kmem s1) new va) ->
  exists s3, kfree p s2 = Ok tt s3 /\ copied ps Tn' [p] s3.
Proof.
  intros C j Hj s1 G Hmap. assert (Hj0 : 0 <= j < Z.of_nat N) by (split; [apply Nat2Z.is_nonneg|exact Hj]).
  destruct (fill_tables ps Tn p l s j C Hj0) as (_ & T1 & Hf & Hp & HpT & Hpl & _ & Hlk). fold s1 in T1, Hf, Hlk.
  assert (Hd' : forall q, q ∈ dom Tn' -> q ∈ dom Tn \/ q ∈ l) by (intros q [H|[H _]]%(vg_dom _ _ _ _ _ _ _ G); [by left|by right]).
  assert (HpT' : p ∉ dom Tn') by (by intros [H|H]%Hd').
  destruct (vm_inv_kfree new Tn' [] s2 p (vg_inv _ _ _ _ _ _ _ G) Hp (not_elem_of_nil _) HpT') as (s3 & Hk & I3 & Hf3 & Hr3).
  exists s3. split; [exact Hk|]. rewrite <- (app_nil_r ps).
  assert (Hsub : forall q, q ∈ dom Tn \/ q ∈ l -> q ∈ dom Tn \/ q ∈ p :: l).
  { intros q [H|H]; [by left|right; by apply list_elem_of_further]. }
  eapply copied_step; [exact C|exact I3| | | | | | | | |].
  - eapply rest_trans; [apply rest_filled|]. eapply rest_trans; [by eapply vg_rest|exact Hr3].
  - eapply only_in_trans; [eapply only_in_mono; [|exact Hf]; intros q <-; right; apply list_elem_of_here|].
    eapply only_in_trans; [eapply only_in_mono; [exact Hsub|]; intros a; apply (vg_frame _ _ _ _ _ _ _ G)|].
    intros a Ha. apply Hf3, Ha. right. apply list_elem_of_here.
  - intros q Hq. by apply Hsub, Hd'.
  - intros q ->%list_elem_of_singleton. apply list_elem_of_here.
  - intros q [H|[->|H]%elem_of_cons].
    + right; left. apply elem_of_dom in H as [x Hx]. apply elem_of_dom. exists x. eapply lookup_weaken; [exact Hx|apply G].
    + left. apply list_elem_of_here.
    + destruct (vg_keep _ _ _ _ _ _ _ G q H) as [H'|H']; [by apply not_elem_of_nil in H'|tauto].
  - constructor.
  - intros q H. by apply not_elem_of_nil in H.
  - intros i q Hi. by rewrite lookup_nil in Hi.
  - intros va Hva. rewrite app_nil_r, <- (cp_map _ _ _ _ C), <- Hlk, <- Hmap by done.
    apply (pt_lookup_frame _ _ _ Tn'); [|apply (vg_inv _ _ _ _ _ _ _ G)|done].
    intros q a Hq Ha. apply Hf3. eapply (page_disjoint q); [|exact Hp|by intros ->|exact Ha].
    eapply (vm_inv_page new Tn' [] s2); [apply G|by left].
Qed.

Lemma copied_map_none ps j : Z.of_nat (length ps) <= j < Z.of_nat N ->
  forall va, user_va va -> va / PGSIZE = j -> copied_map ps va = pt_lookup (kmem s0) new va.
Proof. intros Hj va Hva Hd. unfold copied_map. by rewrite lookup_ge_None_2 by lia. Qed.

Lemma copy_step ps Tn l s :
  copied ps Tn l s -> let j := Z.of_nat (length ps) in j < Z.of_nat N ->
  exists Tn' l' s',
    (copy_body (j * PGSIZE) s = Ok None s' /\ exists p, copied (ps ++ [p]) Tn' l' s') \/
    (copy_body (j * PGSIZE) s = Ok (Some (j * PGSIZE)) s' /\ copied ps Tn' l' s').
Proof.
  intros C j Hj. assert (Hj0 : 0 <= j < Z.of_nat N) by (split; [apply Nat2Z.is_nonneg|exact Hj]).
  pose proof (page_va j Hj0) as Hva. pose proof (cp_tables _ _ _ _ C) as T1.
  destruct (Hsrc j Hj0) as (Hv & Hnl & Hpa & HpaS).
  assert (Hsl : pt_lookup (kmem s) old (j * PGSIZE) = src j) by (by eapply source_lookup).
  destruct (load_pte old To l s (j * PGSIZE) (tt_old _ _ _ _ _ _ T1) Hva) as (pte & Hz & Hw & Hld); [by rewrite Hsl|].
  unfold copy_body. rewrite (bind_Ok _ _ _ _ _ Hw), Hz, (bind_Ok _ _ _ _ _ Hld), Hsl, Hv. cbv beta iota zeta. cbn [negb].
  destruct l as [|p l].
  - exists Tn, [], s. right. split; [|exact C].
    erewrite bind_Ok by (apply kalloc_eq_nil; apply (tt_new _ _ _ _ _ _ T1)). done.
  - destruct (fill_tables ps Tn p l s j C Hj0) as ((s' & Hka & Hmv) & T2 & _ & Hp & _ & _ & _ & Hlk).
    rewrite (bind_Ok _ _ _ _ _ Hka), page_ok_nz, (bind_Ok _ _ _ _ _ Hmv) by done.
    set (s1 := filled p (PTE2PA (src j)) s) in *.
    assert (Hnv : has (pt_lookup (kmem s1) new (j * PGSIZE)) PTE_V = false).
    { rewrite Hlk, (cp_map _ _ _ _ C), (copied_map_none ps j) by (done || lia || apply page_index).
      rewrite Hfree; [apply has_zero|done|]. rewrite page_index. lia. }
    destruct (mappages_page new Tn l s1 (j * PGSIZE) p (PTE_FLAGS (src j))) as (Tn' & l' & s2 & G & [(Hm & -> & Hmap)|[Hm Hmap]]);
      [apply T2|apply Z.mod_mul; done|done|by apply page_ok_pte|apply flags_range|exact Hnv| |]; rewrite (bind_Ok _ _ _ _ _ Hm).
    + destruct (copied_failed ps Tn p l s Tn' s2 C Hj G Hmap) as (s3 & Hkf & C').
      exists Tn', [p], s3. right. split; [|exact C']. change (negb (-1 =? 0)) with true. cbv iota.
      by rewrite (bind_Ok _ _ _ _ _ Hkf).
    + exists Tn', l', s2. left. split; [done|]. exists p. by eapply copied_snoc.
Qed.

Lemma copy_loop n ps Tn l s :
  copied ps Tn l s -> (length ps + n = N)%nat ->
  exists r ps' Tn' l' s',
    mloop (pages_from (Z.of_nat (length ps) * PGSIZE) n) copy_body s = Ok r s' /\ copied ps' Tn' l' s' /\
    (r = None /\ length ps' = N \/ r = Some (Z.of_nat (length ps') * PGSIZE) /\ (length ps' < N)%nat).
Proof.
  revert ps Tn l s. induction n as [|n IH]; intros ps Tn l s C Hn.
  - exists None, ps, Tn, l, s. split; [done|]. split; [done|]. left. split; [done|lia].
  - rewrite pages_from_S. cbn [mloop].
    destruct (copy_step ps Tn l s C) as (Tn' & l' & s' & [[Hb [p C']]|[Hb C']]); [lia| |].
    + destruct (IH (ps ++ [p]) Tn' l' s' C') as (r & ps' & Tn2 & l2 & s2 & H1 & H2); [rewrite length_app; simpl; lia|].
      exists r, ps', Tn2, l2, s2. split; [|exact H2]. rewrite (bind_Ok _ _ _ _ _ Hb), <- H1.
      rewrite length_app. f_equal. f_equal. simpl. lia.
    + exists (Some (Z.of_nat (length ps) * PGSIZE)), ps, Tn', l', s'.
      rewrite (bind_Ok _ _ _ _ _ Hb). split; [done|]. split; [done|]. right. split; [done|lia].
Qed.

Lemma leaf_flags f : has f PTE_V = true -> Z.lor (PTE_FLAGS f) PTE_V = PTE_FLAGS f.
Proof.
  intros H. change PTE_V with (2 ^ 0) in *. rewrite has_flags in H by lia. unfold has in H.
  apply Z.bits_inj'. intros i Hi. rewrite Z.lor_spec. destruct (decide (i = 0)) as [->|Hne].
  - destruct (Z.testbit (PTE_FLAGS f) 0) eqn:Hb; [done|]. exfalso.
    assert (Hz : Z.land (PTE_FLAGS f) (2 ^ 0) = 0); [|by rewrite Hz in H].
    apply Z.bits_inj'. intros k Hk. rewrite Z.land_spec, Z.bits_0.
    destruct (decide (k = 0)) as [->|]; [by rewrite Hb|]. rewrite (Z.pow2_bits_false 0 k) by lia. apply andb_false_r.
  - rewrite (Z.pow2_bits_false 0 i) by lia. apply orb_false_r.
Qed.

Lemma copied_entry ps Tn l s j p :
  copied ps Tn l s -> ps !! j = Some p -> (j < N)%nat ->
  let e := pt_lookup (kmem s) new (Z.of_nat j * PGSIZE) in
  PTE2PA e = p /\ has e PTE_V = true /\ PTE_FLAGS e = PTE_FLAGS (src (Z.of_nat j)).
Proof.
  intros C Hp Hj e. assert (Hj0 : 0 <= Z.of_nat j < Z.of_nat N) by lia.
  assert (He : e = leaf_pte p (PTE_FLAGS (src (Z.of_nat j)))).
  { unfold e. rewrite (cp_map _ _ _ _ C) by (by apply page_va). unfold copied_map.
    by rewrite page_index, Nat2Z.id, Hp. }
  destruct (cp_pages _ _ _ _ C p) as (H1 & _); [by eapply list_elem_of_lookup_2|].
  assert (Hpo : page_ok p) by (apply scratch_ok; by right).
  destruct (leaf_pte_ok p (PTE_FLAGS (src (Z.of_nat j)))) as (_ & E1 & E2 & E3); [by apply page_ok_pte|apply flags_range|].
  rewrite He. split; [done|]. split; [done|]. rewrite E2. apply leaf_flags, Hsrc. lia.
Qed.

Lemma list_elem_of_rev' (q : Z) ps : q ∈ rev ps <-> q ∈ ps.
Proof. by rewrite !list_elem_of_In, <- in_rev. Qed.

(** The cleanup after a failure. *)
Lemma copied_undone ps Tn l s :
  copied ps Tn l s -> (length ps <= N)%nat ->
  exists s', uvmunmap new 0 (Z.of_nat (length ps)) true s = Ok tt s' /\ copied [] Tn (rev ps ++ l) s'.
Proof.
  intros C Hle.
  assert (Hpas : (fun b => PTE2PA (pt_lookup (kmem s) new b)) <$> pages_from 0 (length ps) = ps).
  { apply list_eq. intros i. unfold pages_from. rewrite !list_lookup_fmap.
    destruct (decide (i < length ps)%nat) as [Hi|Hi].
    - rewrite zseq_lookup by done. simpl. destruct (lookup_lt_is_Some_2 ps i Hi) as [p Hp]. rewrite Hp. f_equal.
      by apply (copied_entry ps Tn l s i p C Hp ltac:(lia)).
    - rewrite (lookup_ge_None_2 ps) by lia. rewrite lookup_ge_None_2; [done|]. rewrite zseq_length. lia. }
  destruct (unmap_loop new Tn l s 0 (length ps) true) as (s' & Hrun & I' & Hlk & Hf & Hr).
  - apply C.
  - done.
  - done.
  - rewrite Z.add_0_l. etrans; [|exact HN]. unfold PGSIZE. lia.
  - intros b Hb. apply elem_of_pages_from in Hb as (i & Hi & ->).
    destruct (lookup_lt_is_Some_2 ps (Z.to_nat i)) as [p Hp]; [lia|].
    destruct (copied_entry ps Tn l s (Z.to_nat i) p C Hp) as (_ & E1 & E2); [lia|].
    rewrite Z2Nat.id in E1, E2 by lia. rewrite Z.add_0_l. split; [exact E1|]. rewrite E2. apply Hsrc. lia.
  - rewrite Hpas. intros _. split; [by eapply cp_nodup|]. apply Forall_forall. intros p Hp.
    destruct (cp_pages _ _ _ _ C p Hp) as (H1 & H2 & H3). split; [apply scratch_ok; by right|done].
  - rewrite Hpas in I', Hf. cbv iota in I'. exists s'. split.
    { unfold uvmunmap. change (negb (0 mod PGSIZE =? 0)) with false. cbv iota. rewrite unmap_pages; [done|done|].
      rewrite Z.add_0_l. etrans; [|exact HN]. unfold PGSIZE. lia. }
    assert (Hps : forall p, p ∈ ps -> scratch p) by (intros p Hp; right; by apply (cp_pages _ _ _ _ C)).
    assert (Hfr : only_in scratch (kmem s0) (kmem s')).
    { eapply only_in_trans; [by eapply cp_frame|]. intros a Ha. apply Hf.
      - intros q Hq. apply Ha. eapply cp_scratch; [exact C|by left].
      - intros _ p Hp. by apply Ha, Hps. }
    split; [|by eapply cp_tn| |constructor| | |exact Hfr|done| |].
    + apply tables_apart; [exact I'| |exact Hfr]. intros q [Hq|[Hq|Hq]%elem_of_app].
      * eapply cp_scratch; [exact C|by left].
      * apply (proj1 (list_elem_of_rev' q ps)) in Hq. by apply Hps.
      * eapply cp_scratch; [exact C|by right].
    + intros q [Hq|Hq]%elem_of_app; [apply (proj1 (list_elem_of_rev' q ps)) in Hq; by apply (cp_pages _ _ _ _ C)|by eapply cp_sub].
    + intros p Hp. by apply not_elem_of_nil in Hp.
    + intros q Hq. rewrite elem_of_app, list_elem_of_rev'. destruct (cp_keep _ _ _ _ C q Hq); tauto.
    + intros va Hva. rewrite Hlk by done. unfold unmapped. rewrite (cp_map _ _ _ _ C) by done.
      unfold copied_map. rewrite lookup_nil. change (0 / PGSIZE) with 0. rewrite Z.sub_0_r.
      assert (0 <= va / PGSIZE) by (unfold user_va, PGSIZE in *; dlia). case_decide as Hd.
      * rewrite Hfree; [done|done|lia].
      * by rewrite lookup_ge_None_2 by lia.
    + eapply rest_trans; [by eapply cp_rest|exact Hr].
Qed.

(** ** What user code sees *)

(** The byte user code reads at [va]. *)
Definition user_byte (m : gmap Z Z) (root va : Z) : option Z := mget m <$> translate m root va.

Lemma src_page ps Tn l s va :
  copied ps Tn l s -> user_va va -> va / PGSIZE < Z.of_nat N ->
  pt_lookup (kmem s) old va = src (va / PGSIZE).
Proof.
  intros C Hva Hj. rewrite (source_lookup ps Tn l s va C Hva). unfold src, user_va in *.
  assert (0 <= va / PGSIZE) by (unfold PGSIZE; dlia). apply same_page_lookup; [done|apply page_va; lia|].
  unfold same_page. by rewrite page_index.
Qed.

Lemma source_view ps Tn l s va :
  copied ps Tn l s -> user_va va -> va / PGSIZE < Z.of_nat N ->
  user_byte (kmem s) old va =
    (if has (src (va / PGSIZE)) PTE_U then Some (mget (kmem s0) (PTE2PA (src (va / PGSIZE)) + va mod PGSIZE)) else None).
Proof.
  intros C Hva Hj. unfold user_byte, translate. rewrite bool_decide_true by done.
  rewrite (src_page ps Tn l s va) by done.
  assert (Hj0 : 0 <= va / PGSIZE < Z.of_nat N) by (unfold user_va, PGSIZE in *; dlia).
  destruct (Hsrc _ Hj0) as (-> & _ & Hpa & HpaS). cbn [andb].
  destruct (has (src (va / PGSIZE)) PTE_U); [|done]. simpl. f_equal.
  eapply only_in_page; [by eapply cp_frame|apply scratch_ok|exact Hpa|exact HpaS|].
  unfold in_page, PGSIZE. dlia.
Qed.

Lemma source_same ps Tn l s va :
  copied ps Tn l s -> user_va va -> va / PGSIZE < Z.of_nat N ->
  user_byte (kmem s) old va = user_byte (kmem s0) old va.
Proof. intros C Hva Hj. by rewrite (source_view ps Tn l s va C Hva Hj), (source_view [] Tn0 l0 s0 va copied_init Hva Hj). Qed.

Lemma copied_view ps Tn l s va :
  copied ps Tn l s -> length ps = N -> user_va va -> va / PGSIZE < Z.of_nat N ->
  user_byte (kmem s) new va = user_byte (kmem s) old va /\
  PTE_FLAGS (pt_lookup (kmem s) new va) = PTE_FLAGS (pt_lookup (kmem s) old va) /\
  PTE2PA (pt_lookup (kmem s) new va) ∈ ps.
Proof.
  intros C Hlen Hva Hj. assert (Hj0 : 0 <= va / PGSIZE < Z.of_nat N) by (unfold user_va, PGSIZE in *; dlia).
  rewrite (source_view ps Tn l s va), (src_page ps Tn l s va) by done. set (j := Z.to_nat (va / PGSIZE)).
  destruct (lookup_lt_is_Some_2 ps j) as [p Hp]; [unfold j; lia|].
  destruct (copied_entry ps Tn l s j p C Hp) as (E1 & E2 & E3); [unfold j; lia|].
  assert (Hzj : Z.of_nat j = va / PGSIZE) by (unfold j; lia). rewrite Hzj in E1, E2, E3.
  assert (He : pt_lookup (kmem s) new va = pt_lookup (kmem s) new (va / PGSIZE * PGSIZE)).
  { apply same_page_lookup; [done|by apply page_va|]. unfold same_page. by rewrite page_index. }
  rewrite He, E1, E3. split; [|split; [done|by eapply list_elem_of_lookup_2]].
  assert (HU : has (pt_lookup (kmem s) new (va / PGSIZE * PGSIZE)) PTE_U = has (src (va / PGSIZE)) PTE_U).
  { change PTE_U with (2 ^ 4). rewrite has_flags, E3 by lia. symmetry. apply has_flags. lia. }
  unfold user_byte, translate. rewrite bool_decide_true, He, E2, HU, E1 by done. cbn [andb].
  destruct (has (src (va / PGSIZE)) PTE_U); [|done]. simpl. f_equal.
  pose proof (cp_data _ _ _ _ C j p Hp) as Hd. rewrite Hzj in Hd.
  assert (Hi : (Z.to_nat (va mod PGSIZE) < Z.to_nat PGSIZE)%nat) by (unfold PGSIZE; dlia).
  apply (f_equal (fun l => l !! Z.to_nat (va mod PGSIZE))) in Hd. rewrite !mread_lookup in Hd by done.
  rewrite Z2Nat.id in Hd by (unfold PGSIZE; dlia). by injection Hd.
Qed.
End copy.

Section uvmcopy.
Context {img : KernelImage} {imgok : KernelImageOk} {R : Type}.
Implicit Types (s : Kst (KMem R)) (T : gmap Z (nat * Z)) (l : list Z).

(** C7: [uvmcopy], for any size of the source whose pages are mapped and a
    table with nothing mapped there, ends and keeps both tables well formed.
    On success the new address space reads byte for byte like the old one,
    with the same flags, through pages of its own that were free before.  When
    memory runs out, at any page, the new table maps what it did before, and
    every page taken is free again or serves as a table.  In both cases only
    free pages and pages of the new table are written, so the old address
    space does not change. *)
Theorem uvmcopy_spec old new To Tn l s sz :
  let N := Z.to_nat ((sz + PGSIZE - 1) / PGSIZE) in
  two_tables old new To Tn l s -> 0 <= sz <= MAXVA -> source_ok old Tn l s N ->
  (forall va, user_va va -> va / PGSIZE < Z.of_nat N -> pt_lookup (kmem s) new va = 0) ->
  exists r Tn' l' s',
    uvmcopy old new sz s = Ok r s' /\ two_tables old new To Tn' l' s' /\ only_mem s s' /\
    only_in (scratch Tn l) (kmem s) (kmem s') /\
    (forall va, user_va va -> va / PGSIZE < Z.of_nat N -> user_byte (kmem s') old va = user_byte (kmem s) old va) /\
    (r = 0 /\
     (exists ps, NoDup ps /\ (forall p, p ∈ ps -> p ∈ l /\ p ∉ l' /\ p ∉ dom Tn') /\
        (forall q, q ∈ l -> q ∈ l' \/ q ∈ dom Tn' \/ q ∈ ps) /\
        forall va, user_va va -> va / PGSIZE < Z.of_nat N ->
          user_byte (kmem s') new va = user_byte (kmem s) old va /\
          PTE_FLAGS (pt_lookup (kmem s') new va) = PTE_FLAGS (pt_lookup (kmem s) old va) /\
          PTE2PA (pt_lookup (kmem s') new va) ∈ ps) \/
     r = -1 /\
     (forall va, user_va va -> pt_lookup (kmem s') new va = pt_lookup (kmem s) new va) /\
     (forall q, q ∈ l -> q ∈ l' \/ q ∈ dom Tn')).
Proof.
  intros N T0 Hsz Hsrc Hfree.
  assert (HN : Z.of_nat N * PGSIZE <= MAXVA).
  { unfold N. assert (MAXVA mod PGSIZE = 0) by done. unfold PGSIZE, MAXVA in *. rewrite Z2Nat.id by dlia. dlia. }
  pose proof (copied_init old new To Tn l s T0) as C0.
  destruct (copy_loop old new To Tn l s N T0 Hsrc HN Hfree N [] Tn l s C0 eq_refl) as (r & ps & Tn' & l' & s1 & Hrun & C & Hr).
  change (Z.of_nat (length []) * PGSIZE) with 0 in Hrun.
  pose proof (source_same old new To Tn l s N T0 Hsrc HN) as Hview.
  unfold uvmcopy. fold N. rewrite (bind_Ok _ _ _ _ _ Hrun). destruct Hr as [[-> Hlen]|[-> Hlen]].
  - exists 0, Tn', l', s1. split; [done|]. split; [apply C|]. split; [apply C|]. split; [apply C|].
    split; [intros va; exact (Hview ps Tn' l' s1 va C)|].
    left. split; [done|]. exists ps. split; [apply C|]. split; [apply C|].
    split; [intros q Hq; apply (cp_keep _ _ _ _ _ _ _ _ _ _ C); by right|].
    intros va Hva Hj. destruct (copied_view old new To Tn l s N T0 Hsrc HN ps Tn' l' s1 va C Hlen Hva Hj) as (E1 & E2 & E3).
    rewrite E1, E2, (Hview ps Tn' l' s1), (source_lookup old new To Tn l s T0 ps Tn' l' s1) by done. done.
  - destruct (copied_undone old new To Tn l s N T0 Hsrc HN Hfree ps Tn' l' s1 C) as (s2 & Hu & C2); [lia|].
    exists (-1), Tn', (rev ps ++ l'), s2. rewrite Z.div_mul, (bind_Ok _ _ _ _ _ Hu) by done.
    split; [done|]. split; [apply C2|]. split; [apply C2|]. split; [apply C2|].
    split; [intros va; exact (Hview [] Tn' (rev ps ++ l') s2 va C2)|].
    right. split; [done|]. split; [apply (cp_map _ _ _ _ _ _ _ _ _ _ C2)|].
    intros q Hq. destruct (cp_keep _ _ _ _ _ _ _ _ _ _ C2 q) as [?|[?|H]]; [by right|by left|by right|by apply not_elem_of_nil in H].
Qed.
End uvmcopy.

(** ** Witness *)

(** The address space of [VmThm], a third free page and an empty table. *)
Definition dK : Z := 0x8002a000.
Definition dN : Z := 0x80029000.
Definition demo_fork : Kst (KMem unit) := set_freelist dK (set_mem (@mem_freed demo_pt_mem dK dF) demo_pt).
Definition demo_Tn : gmap Z (nat * Z) := {[dN := (2%nat, 0)]}.

Lemma demo_new_pages : @page_ok demo_image dK /\ @page_ok demo_image dN.
Proof. split; apply (bool_decide_unpack _); by vm_compute. Qed.

Lemma demo_fork_frame a : ~ in_page dK a -> mget (kmem demo_fork) a = mget demo_pt_mem a.
Proof. apply mem_freed_frame. Qed.

Lemma demo_fork_old : @vm_inv demo_image unit dR demo_T [dK; dF; dG] demo_fork.
Proof.
  destruct (@vm_inv_kfree demo_image demo_image_ok unit dR demo_T [dF; dG] demo_pt dK demo_vm_inv) as (s' & H1 & H2 & _).
  - apply demo_new_pages.
  - apply (bool_decide_unpack _); by vm_compute.
  - apply (bool_decide_unpack _); by vm_compute.
  - rewrite (@kfree_eq demo_image demo_image_ok unit dK demo_pt) in H1; [|apply demo_new_pages|apply not_elem_of_nil].
    injection H1 as <-. exact H2.
Qed.

Lemma demo_fork_empty i : 0 <= i < 512 -> ent (kmem demo_fork) dN i = 0.
Proof.
  intros Hi. rewrite (ent_ext _ demo_pt_mem); [|done|].
  - rewrite demo_ent by done. by rewrite !decide_False by done.
  - intros a Ha. apply demo_fork_frame. apply (@page_disjoint demo_image dN dK a); [apply demo_new_pages..|done|done].
Qed.

Lemma demo_two_tables : @two_tables demo_image unit dR dN demo_T demo_Tn [dK; dF; dG] demo_fork.
Proof.
  split; [apply demo_fork_old| |].
  - split; [apply demo_fork_old| | |apply not_elem_of_nil].
    + split; [done|]. intros p l pre Hp. unfold demo_Tn in Hp. apply lookup_singleton_Some in Hp as [<- [= <- <-]].
      split; [apply demo_new_pages|]. intros l' i _ Hi. by rewrite demo_fork_empty, has_zero.
    + intros q Hq. unfold demo_Tn in Hq. rewrite dom_singleton_L, elem_of_singleton in Hq. subst.
      apply (bool_decide_unpack _); by vm_compute.
  - intros q Hq Hn. unfold demo_Tn in Hn. rewrite dom_singleton_L, elem_of_singleton in Hn. subst.
    revert Hq. apply (bool_decide_unpack _). by vm_compute.
Qed.

Lemma demo_fork_lookup va : user_va va -> pt_lookup (kmem demo_fork) dR va = pt_lookup demo_pt_mem dR va.
Proof.
  intros Hva. apply (@pt_lookup_frame demo_image _ _ _ demo_T); [|apply demo_pt_ok|done].
  intros q a Hq Ha. apply demo_fork_frame. apply (@page_disjoint demo_image q dK a); [| | |done].
  - apply elem_of_dom in Hq as [x Hq]. eapply (@pt_ok_page demo_image demo_pt_mem dR demo_T); [apply demo_pt_ok|done].
  - apply demo_new_pages.
  - intros ->. revert Hq. apply (bool_decide_unpack _). by vm_compute.
Qed.

Lemma demo_source : @source_ok demo_image unit dR demo_Tn [dK; dF; dG] demo_fork 1.
Proof.
  intros j Hj. unfold src. replace j with 0 by lia. rewrite demo_fork_lookup by (by vm_compute).
  rewrite demo_lookup by (by vm_compute). rewrite decide_True by done.
  split; [done|]. split; [done|]. change (PTE2PA (leaf_pte dP 0x16)) with dP.
  split; [apply demo_dP|]. unfold scratch. apply (bool_decide_unpack _). by vm_compute.
Qed.

Lemma uvmcopy_spec_witness :
  exists s', @uvmcopy demo_image unit dR dN 100 demo_fork = Ok 0 s' /\
    user_byte (kmem s') dN 10 = user_byte (kmem demo_fork) dR 10.
Proof.
  destruct (@uvmcopy_spec demo_image demo_image_ok unit dR dN demo_T demo_Tn [dK; dF; dG] demo_fork 100)
    as (r & Tn' & l' & s' & H1 & _ & _ & _ & _ & H2).
  - apply demo_two_tables.
  - unfold MAXVA. lia.
  - apply demo_source.
  - intros va Hva _. unfold pt_lookup, plookup. cbn [pwalk].
    rewrite demo_fork_empty by apply PX_range. by rewrite has_zero.
  - assert (H0 : match @uvmcopy demo_image unit dR dN 100 demo_fork with Ok r _ => r | _ => 7 end = 0) by (by vm_compute).
    rewrite H1 in H0. subst r. exists s'. split; [exact H1|].
    destruct H2 as [(_ & ps & _ & _ & _ & H2)|[H2 _]]; [|discriminate H2].
    apply H2; [split; by vm_compute|by vm_compute].
Defined.
