(* ===== verification/Proc.v ===== *)
(** Processes and kernel threads (kernel/proc.c): allocation and release of
    table entries, user memory size, [fork], [exit], [wait], and the kernel
    threads of this kernel ([thread_create], [thread_join], [thread_exit]),
    which share the address space of a group leader through page tables of
    their own.

    The file system is reached through the interface [FileLayer]. *)

From S2P Require Import Prelude CInt Machine KString Sched Kalloc Vm.

(** ** What proc.c needs from the file system *)

Class FileLayer (R : Type) := {
  filedup : nat -> M (Kst (KMem R)) nat;
  fileclose : nat -> M (Kst (KMem R)) unit;
  idup : nat -> M (Kst (KMem R)) nat;
  iput : nat -> M (Kst (KMem R)) unit;
  begin_op : M (Kst (KMem R)) unit;
  end_op : M (Kst (KMem R)) unit;
  namei : list Z -> M (Kst (KMem R)) (option nat);
}.

(** ** kernel/proc.h: struct trapframe *)

Definition TF_kernel_satp : Z := 0.
Definition TF_kernel_sp : Z := 8.
Definition TF_kernel_trap : Z := 16.
Definition TF_epc : Z := 24.
Definition TF_kernel_hartid : Z := 32.
Definition TF_ra : Z := 40.
Definition TF_sp : Z := 48.
Definition TF_a (n : Z) : Z := 112 + 8 * n.
Definition TF_SIZE : Z := 288.

Section proc.
Context {img : KernelImage} {R : Type}.
Abbreviation St := (Kst (KMem R)).

(** ** Allocation *)

(** [initlock] leaves each lock free, the initial condition of [held]. *)
Definition procinit : M St unit :=
  mfor (seq 0 NPROC) (fun p =>
    modp p (fun q => q.[p_state := UNUSED]);;;
    modp p (fun q => q.[p_kstack := KSTACK (Z.of_nat p)])).

Definition allocpid : M St Z :=
  acquire pid_lock;;;
  let* pid := gets nextpid in
  modify (fun s => s.[nextpid := s32 (nextpid s + 1)]);;;
  release pid_lock;;;
  ret pid.

Definition proc_pagetable (p : nat) : M St Z :=
  let* pagetable := uvmcreate in
  if pagetable =? 0 then ret 0 else
  let* r := mappages pagetable TRAMPOLINE PGSIZE trampoline (Z.lor PTE_R PTE_X) in
  if r <? 0 then uvmfree pagetable 0;;; ret 0 else
  let* q := getp p in
  let* r := mappages pagetable TRAPFRAME PGSIZE (p_trapframe q) (Z.lor PTE_R PTE_W) in
  if r <? 0 then
    uvmunmap pagetable TRAMPOLINE 1 false;;;
    uvmfree pagetable 0;;;
    ret 0
  else ret pagetable.

Definition proc_freepagetable (pagetable sz : Z) : M St unit :=
  uvmunmap pagetable TRAMPOLINE 1 false;;;
  uvmunmap pagetable TRAPFRAME 1 false;;;
  uvmfree pagetable sz.

(** [p->name[0] = 0] *)
Definition clear_name (n : list Z) : list Z := <[0%nat := 0]> n.

Definition freeproc (p : nat) : M St unit :=
  let* q := getp p in
  (if negb (p_trapframe q =? 0) then kfree (p_trapframe q) else ret tt);;;
  modp p (fun q => q.[p_trapframe := 0]);;;
  (if negb (p_pagetable q =? 0) then proc_freepagetable (p_pagetable q) (p_sz q) else ret tt);;;
  modp p (fun q => q.[p_pagetable := 0].[p_sz := 0].[p_pid := 0].[p_parent := None]
    .[p_name := clear_name (p_name q)].[p_chan := None].[p_killed := 0].[p_xstate := 0]
    .[p_state := UNUSED].[p_is_thread := 0].[p_father := None].[p_tid := 0]
    .[p_start := 0].[p_size := 0]).

(** The table scan of [allocproc]; the entry found stays locked. *)
Definition allocproc_scan : M St (option nat) :=
  mloop (seq 0 NPROC) (fun p =>
    acquire (plock p);;;
    let* q := getp p in
    if bool_decide (p_state q = UNUSED) then ret (Some p)
    else release (plock p);;; ret None).

Definition forkret : kptr := KSym "forkret" 0.

Definition allocproc : M St (option nat) :=
  let* found := allocproc_scan in
  match found with
  | None => ret None
  | Some p =>
      let* pid := allocpid in
      modp p (fun q => q.[p_pid := pid]);;;
      modp p (fun q => q.[p_state := USED]);;;
      let* tf := kalloc in
      modp p (fun q => q.[p_trapframe := tf]);;;
      if tf =? 0 then freeproc p;;; release (plock p);;; ret None else
      let* pt := proc_pagetable p in
      modp p (fun q => q.[p_pagetable := pt]);;;
      if pt =? 0 then freeproc p;;; release (plock p);;; ret None else
      modp p (fun q => q.[p_context := Context (Some forkret) (p_kstack q + PGSIZE) (replicate 12 0)]);;;
      modp p (fun q => q.[p_is_thread := 0].[p_father := None].[p_tid := 0]
        .[p_start := 0].[p_size := 0]);;;
      ret (Some p)
  end.

(** [group_leader]; a null [father] is dereferenced by its callers. *)
Definition group_leader (p : nat) (q : proc) : option nat :=
  if negb (p_is_thread q =? 0) then p_father q else Some p.

Definition in_group (leader : nat) (i : nat) (q : proc) : bool :=
  bool_decide (i = leader) ||
  (negb (p_is_thread q =? 0) && bool_decide (p_father q = Some leader)).

Definition in_same_group (leader : nat) (i : nat) (q : proc) : bool :=
  if bool_decide (p_state q = UNUSED) then false else in_group leader i q.

(** ** User memory *)

(** The pages [va = from; va < to; va += PGSIZE]. *)
Definition va_range (from to : Z) : list Z :=
  pages_from from (Z.to_nat ((to - from + PGSIZE - 1) / PGSIZE)).

(** [if(va >= TRAPFRAME) break;] at the head of a loop body. *)
Definition below_trapframe (l : list Z) : list Z :=
  match list_find (fun va => TRAPFRAME <= va) l with
  | Some (i, _) => take i l
  | None => l
  end.

(** Every member of the group of [leader] with a page table of its own. *)
Definition for_followers (leader : nat) (f : Z -> M St unit) : M St unit :=
  mfor (seq 0 NPROC) (fun i =>
    let* q := getp i in
    if negb (in_group leader i q) then ret tt else
    if p_pagetable q =? 0 then ret tt else
    let* l := getp leader in
    if p_pagetable q =? p_pagetable l then ret tt else
    f (p_pagetable q)).

Definition set_group_sz (leader : nat) : M St unit :=
  mfor (seq 0 NPROC) (fun i =>
    let* q := getp i in
    when (in_group leader i q)
      (let* l := getp leader in modp i (fun q => q.[p_sz := p_sz l]))).

Definition growproc (n : Z) : M St Z :=
  let* p := curproc in
  let* q := getp p in
  let* leader := deref (group_leader p q) in
  let* l := getp leader in
  let oldsz := p_sz l in
  if 0 <? n then
    let* newsz := uvmalloc (p_pagetable l) oldsz (u64 (oldsz + n)) PTE_W in
    if newsz =? 0 then ret (-1) else
    mfor (below_trapframe (va_range (PGROUNDUP oldsz) newsz)) (fun va =>
      let* pa := walkaddr (p_pagetable l) va in
      for_followers leader (fun pagetable =>
        let* qpte := walk pagetable va false in
        let* present := (if qpte =? 0 then ret false
                         else let* e := ld64 qpte in ret (has e PTE_V)) in
        if (present : bool) then ret tt else
        let* r := mappages pagetable va PGSIZE pa (Z.lor (Z.lor PTE_U PTE_R) PTE_W) in
        ret tt));;;
    modp leader (fun l => l.[p_sz := newsz]);;;
    set_group_sz leader;;;
    ret 0
  else if n <? 0 then
    let* newsz := uvmdealloc (p_pagetable l) oldsz (u64 (oldsz + n)) in
    mfor (below_trapframe (va_range (PGROUNDUP newsz) (PGROUNDUP oldsz))) (fun va =>
      for_followers leader (fun pagetable => uvmunmap pagetable va 1 false));;;
    modp leader (fun l => l.[p_sz := newsz]);;;
    set_group_sz leader;;;
    ret 0
  else ret 0.

Definition either_copyout (user_dst : bool) (dst : Z) (src : list Z) : M St Z :=
  let* p := curproc in
  if user_dst then let* q := getp p in copyout (p_pagetable q) dst src
  else pwrite dst src;;; ret 0.

Definition either_copyin (user_src : bool) (src : Z) (len : nat) : M St (Z * list Z) :=
  let* p := curproc in
  if user_src then let* q := getp p in copyin (p_pagetable q) src len
  else let* bs := pread src len in ret (0, bs).
End proc.

(** ** Processes *)

Section process.
Context {img : KernelImage} {R : Type} {files : FileLayer R}.
Abbreviation St := (Kst (KMem R)).

Definition initcode : list Z :=
  [0x17; 0x05; 0x00; 0x00; 0x13; 0x05; 0x45; 0x02;
   0x97; 0x05; 0x00; 0x00; 0x93; 0x85; 0x35; 0x02;
   0x93; 0x08; 0x70; 0x00; 0x73; 0x00; 0x00; 0x00;
   0x93; 0x08; 0x20; 0x00; 0x73; 0x00; 0x00; 0x00;
   0xef; 0xf0; 0x9f; 0xff; 0x2f; 0x69; 0x6e; 0x69;
   0x74; 0x00; 0x00; 0x24; 0x00; 0x00; 0x00; 0x00;
   0x00; 0x00; 0x00; 0x00].

(** ["initcode"] and ["/"]. *)
Definition str_initcode : list Z := [105; 110; 105; 116; 99; 111; 100; 101; 0].
Definition str_root : list Z := [47].

(** A null result of [allocproc] is dereferenced. *)
Definition userinit : M St unit :=
  let* o := allocproc in
  modify (fun s => s.[initproc := o]);;;
  let* p := deref o in
  let* q := getp p in
  uvmfirst (p_pagetable q) initcode;;;
  modp p (fun q => q.[p_sz := PGSIZE]);;;
  st64 (p_trapframe q + TF_epc) 0;;;
  st64 (p_trapframe q + TF_sp) PGSIZE;;;
  modp p (fun q => q.[p_name := safestrcpy_list (p_name q) str_initcode 16]);;;
  let* d := namei str_root in
  modp p (fun q => q.[p_cwd := d]);;;
  modp p (fun q => q.[p_state := RUNNABLE]);;;
  release (plock p).

(** [for(i = 0; i < NOFILE; i++) if(p->ofile[i]) np->ofile[i] = filedup(p->ofile[i]);] *)
Definition dup_files (p np : nat) : M St unit :=
  mfor (seq 0 NOFILE) (fun i =>
    let* q := getp p in
    match p_ofile q !! i with
    | Some (Some f) =>
        let* f' := filedup f in
        modp np (fun r => r.[p_ofile := <[i := Some f']> (p_ofile r)])
    | _ => ret tt
    end).

(** [np->cwd = idup(p->cwd)]; a null [cwd] is dereferenced by [idup]. *)
Definition dup_cwd (p np : nat) : M St unit :=
  let* q := getp p in
  let* d := deref (p_cwd q) in
  let* d' := idup d in
  modp np (fun r => r.[p_cwd := Some d']).

Definition copy_name (p np : nat) : M St unit :=
  let* q := getp p in
  modp np (fun r => r.[p_name := safestrcpy_list (p_name r) (p_name q) 16]).

Definition fork : M St Z :=
  let* p := curproc in
  let* o := allocproc in
  match o with
  | None => ret (-1)
  | Some np =>
      let* q := getp p in
      let* nq := getp np in
      let* r := uvmcopy (p_pagetable q) (p_pagetable nq) (p_sz q) in
      if r <? 0 then freeproc np;;; release (plock np);;; ret (-1) else
      modp np (fun r => r.[p_sz := p_sz q]);;;
      kmemmove (p_trapframe nq) (p_trapframe q) TF_SIZE;;;
      st64 (p_trapframe nq + TF_a 0) 0;;;
      dup_files p np;;;
      dup_cwd p np;;;
      copy_name p np;;;
      let* nq := getp np in
      let pid := p_pid nq in
      release (plock np);;;
      acquire wait_lock;;;
      modp np (fun r => r.[p_parent := Some p]);;;
      release wait_lock;;;
      acquire (plock np);;;
      modp np (fun r => r.[p_state := RUNNABLE]);;;
      release (plock np);;;
      ret pid
  end.

(** The channel of a process pointer; nobody sleeps on address 0. *)
Definition pptr_chan (o : option nat) : kptr :=
  match o with Some j => pchan j | None => KSym "null" 0 end.

Definition reparent (p : nat) : M St unit :=
  mfor (seq 0 NPROC) (fun pp =>
    let* q := getp pp in
    when (bool_decide (p_parent q = Some p))
      (let* ip := gets initproc in
       modp pp (fun q => q.[p_parent := ip]);;;
       wakeup (pptr_chan ip))).

(** Close every open file of [p]. *)
Definition close_files (p : nat) : M St unit :=
  mfor (seq 0 NOFILE) (fun fd =>
    let* q := getp p in
    match p_ofile q !! fd with
    | Some (Some f) => fileclose f;;; modp p (fun q => q.[p_ofile := <[fd := None]> (p_ofile q)])
    | _ => ret tt
    end).

Definition exit (status : Z) : M St unit :=
  let* p := curproc in
  let* ip := gets initproc in
  if bool_decide (ip = Some p) then panic "init exiting" else
  close_files p;;;
  begin_op;;;
  let* q := getp p in
  let* d := deref (p_cwd q) in
  iput d;;;
  end_op;;;
  modp p (fun q => q.[p_cwd := None]);;;
  acquire wait_lock;;;
  reparent p;;;
  let* q := getp p in
  wakeup (pptr_chan (p_parent q));;;
  acquire (plock p);;;
  modp p (fun q => q.[p_xstate := status]);;;
  modp p (fun q => q.[p_state := ZOMBIE]);;;
  release wait_lock;;;
  sched;;;
  panic "zombie exit".

(** The table scan of [wait]: [inl r] returns [r] from [wait], [inr h] says
    whether there are children. *)
Fixpoint wait_scan (p : nat) (addr : Z) (l : list nat) (havekids : bool) : M St (Z + bool) :=
  match l with
  | [] => ret (inr havekids)
  | pp :: l =>
      let* q := getp pp in
      if bool_decide (p_parent q = Some p) then
        acquire (plock pp);;;
        let* q := getp pp in
        if bool_decide (p_state q = ZOMBIE) then
          let pid := p_pid q in
          let* me := getp p in
          let* r := (if negb (addr =? 0)
                     then copyout (p_pagetable me) addr (le_split 4 (u32 (p_xstate q)))
                     else ret 0) in
          if r <? 0 then
            release (plock pp);;; release wait_lock;;; ret (inl (-1))
          else
            freeproc pp;;; release (plock pp);;; release wait_lock;;; ret (inl pid)
        else
          release (plock pp);;; wait_scan p addr l true
      else wait_scan p addr l havekids
  end.

(** [n] bounds how often the sleeper may be woken in vain. *)
Definition wait (n : nat) (addr : Z) : M St Z :=
  let* p := curproc in
  acquire wait_lock;;;
  while (S n) (fun _ : unit =>
    let* r := wait_scan p addr (seq 0 NPROC) false in
    match r with
    | inl v => ret (inr v)
    | inr havekids =>
        let* k := (if havekids then killed p else ret 0) in
        if negb havekids || negb (k =? 0) then
          release wait_lock;;; ret (inr (-1))
        else
          sleep (pchan p) wait_lock;;;
          ret (inl tt)
    end) tt.
End process.

(** ** Kernel threads *)

Section thread.
Context {img : KernelImage} {R : Type} {files : FileLayer R}.
Abbreviation St := (Kst (KMem R)).

(** Remove the mapping of [va] if there is one, keeping the page. *)
Definition unmap_if_present (pagetable va : Z) : M St unit :=
  let* pte := walk pagetable va false in
  let* present := (if pte =? 0 then ret false
                   else let* e := ld64 pte in ret (has e PTE_V)) in
  if (present : bool) then uvmunmap pagetable va 1 false else ret tt.

Definition freeproc_thread (p : nat) : M St unit :=
  let* q := getp p in
  mfor (va_range 0 (PGROUNDUP (p_sz q))) (unmap_if_present (p_pagetable q));;;
  unmap_if_present (p_pagetable q) TRAMPOLINE;;;
  unmap_if_present (p_pagetable q) TRAPFRAME;;;
  uvmfree (p_pagetable q) 0;;;
  modp p (fun q => q.[p_pagetable := 0].[p_sz := 0]);;;
  (if negb (p_trapframe q =? 0) then
     kfree (p_trapframe q);;; modp p (fun q => q.[p_trapframe := 0])
   else ret tt);;;
  modp p (fun q => q.[p_pid := 0].[p_tid := 0].[p_is_thread := 0].[p_father := None]
    .[p_parent := None].[p_name := clear_name (p_name q)].[p_chan := None].[p_killed := 0]
    .[p_xstate := 0].[p_state := UNUSED]).

(** Map the user page at [va] of [from] at the same address of [to]; whether
    that failed. *)
Definition share_page (from to va : Z) : M St bool :=
  let* ppte := walk from va false in
  if ppte =? 0 then ret false else
  let* e := ld64 ppte in
  if negb (has e PTE_V) || negb (has e PTE_U) then ret false else
  let pa := PTE2PA e in
  let flags := Z.land (PTE_FLAGS e) (Z.lor (Z.lor (Z.lor PTE_R PTE_W) PTE_X) PTE_U) in
  let* r := mappages to va PGSIZE pa flags in
  ret (negb (r =? 0)).

Definition share_pages (from to psz : Z) : M St bool :=
  let* r := mloop (below_trapframe (va_range 0 psz)) (fun va =>
    let* failed := share_page from to va in
    ret (if (failed : bool) then Some tt else None)) in
  ret (bool_decide (is_Some r)).

Definition thread_create (start_fn arg retfn : Z) : M St Z :=
  let* p := curproc in
  let* o := allocproc in
  match o with
  | None => ret (u64 (-1))
  | Some np =>
      let* q := getp p in
      let* leader := deref (group_leader p q) in
      let* l := getp leader in
      modp np (fun r => r.[p_sz := p_sz l]);;;
      let* nq := getp np in
      let* failed := share_pages (p_pagetable l) (p_pagetable nq) (PGROUNDUP (p_sz l)) in
      if (failed : bool) then freeproc np;;; release (plock np);;; ret (u64 (-1)) else
      modp np (fun r => r.[p_sz := p_sz l]);;;
      let slot := p_pid nq in
      let safpot := u64 (TRAPFRAME - (2 + 2 * slot) * PGSIZE) in
      let base := u64 (safpot + PGSIZE) in
      let top := u64 (base + PGSIZE) in
      let* r := uvmalloc (p_pagetable nq) base top (Z.lor (Z.lor PTE_U PTE_R) PTE_W) in
      if r =? 0 then freeproc np;;; release (plock np);;; ret (u64 (-1)) else
      modp np (fun r => r.[p_start := base].[p_size := PGSIZE]);;;
      let sp := u64 (top - 1) in
      kmemmove (p_trapframe nq) (p_trapframe q) TF_SIZE;;;
      st64 (p_trapframe nq + TF_epc) start_fn;;;
      st64 (p_trapframe nq + TF_sp) sp;;;
      st64 (p_trapframe nq + TF_a 0) arg;;;
      st64 (p_trapframe nq + TF_ra) retfn;;;
      let* w := walkaddr (p_pagetable nq) (u64 (sp - 16)) in
      if w =? 0 then panic "thread_create: stack not mapped" else
      dup_files p np;;;
      dup_cwd p np;;;
      copy_name p np;;;
      let* q := getp p in
      modp np (fun r => r.[p_is_thread := 1].[p_father := group_leader p q]
        .[p_tid := p_pid r]);;;
      let* nq := getp np in
      let tid := p_tid nq in
      release (plock np);;;
      acquire wait_lock;;;
      modp np (fun r => r.[p_parent := Some p]);;;
      release wait_lock;;;
      acquire (plock np);;;
      modp np (fun r => r.[p_state := RUNNABLE]);;;
      release (plock np);;;
      ret (u64 tid)
  end.

(** The table scan of [thread_join]: [inl tid] has been reaped, [inr q] is a
    thread that still runs; no result, no such thread. *)
Definition join_scan (leader : option nat) (tid : Z) : M St (option (Z + nat)) :=
  mloop (seq 0 NPROC) (fun i =>
    let* q := getp i in
    if bool_decide (p_state q = UNUSED) then ret None else
    if negb (p_is_thread q =? 0) && bool_decide (p_father q = leader) && (p_tid q =? tid) then
      acquire (plock i);;;
      let* q := getp i in
      if bool_decide (p_state q = ZOMBIE) then
        let r := p_tid q in
        freeproc_thread i;;;
        release (plock i);;;
        release wait_lock;;;
        ret (Some (inl r))
      else
        release (plock i);;;
        ret (Some (inr i))
    else ret None).

Definition thread_join (n : nat) (tid : Z) : M St Z :=
  let* self := curproc in
  let* q := getp self in
  let leader := group_leader self q in
  acquire wait_lock;;;
  while (S n) (fun _ : unit =>
    let* r := join_scan leader tid in
    match r with
    | Some (inl v) => ret (inr (u64 v))
    | None => release wait_lock;;; ret (inr (u64 (-1)))
    | Some (inr target) => sleep (pchan target) wait_lock;;; ret (inl tt)
    end) tt.

Definition thread_exit : M St unit :=
  let* p := curproc in
  let* q := getp p in
  if p_is_thread q =? 0 then exit 0 else
  close_files p;;;
  begin_op;;;
  let* q := getp p in
  (match p_cwd q with
   | Some d => iput d;;; modp p (fun q => q.[p_cwd := None])
   | None => ret tt
   end);;;
  end_op;;;
  let* q := getp p in
  (if negb (p_start q =? 0) && negb (p_size q =? 0) then
     let* pte := walk (p_pagetable q) (p_start q) false in
     let* present := (if pte =? 0 then ret false
                      else let* e := ld64 pte in ret (has e PTE_V)) in
     (* the else branch prints a message on the console *)
     (if (present : bool) then uvmunmap (p_pagetable q) (p_start q) 1 true else ret tt);;;
     modp p (fun q => q.[p_start := 0].[p_size := 0])
   else ret tt);;;
  acquire wait_lock;;;
  acquire (plock p);;;
  modp p (fun q => q.[p_xstate := 0]);;;
  modp p (fun q => q.[p_state := ZOMBIE]);;;
  wakeup (pchan p);;;
  release wait_lock;;;
  sched;;;
  panic "thread_exit: zombie".
End thread.
