(* ===== verification/Bio.v ===== *)
(** The buffer cache (kernel/bio.c): a fixed set of block buffers in a doubly
    linked ring ordered by recency of use, each with a sleep lock.

    The disk is reached through the interface [DiskDriver]. *)

From S2P Require Import Prelude CInt Machine Sched Sleeplock Kalloc.

Definition BSIZE : Z := 1024.

(** ** kernel/buf.h *)

(** [b_prev] and [b_next] are positions in the ring: buffers are
    [0 .. NBUF-1], [bhead] is [bcache.head]. *)
Record buf := Buf {
  b_valid : Z;
  b_disk : Z;
  b_dev : Z;
  b_blockno : Z;
  b_lock : sleeplock;
  b_refcnt : Z;
  b_prev : nat;
  b_next : nat;
  b_data : list Z;
}.
#[export] Instance eta_buf : Eta buf := fun b =>
  Buf (b_valid b) (b_disk b) (b_dev b) (b_blockno b) (b_lock b) (b_refcnt b)
    (b_prev b) (b_next b) (b_data b).

Definition bhead : nat := NBUF.
Definition buf_zero : buf := Buf 0 0 0 0 (SleepLock 0 0) 0 0 0 (replicate (Z.to_nat BSIZE) 0).

(** [bcache]: [NBUF] buffers and the list head. *)
Record BioSt (R : Type) := BioS { bufs : list buf; biorest : R }.
Arguments BioS {R}. Arguments bufs {R}. Arguments biorest {R}.
#[export] Instance eta_bio R : Eta (BioSt R) := fun s => BioS (bufs s) (biorest s).

#[export] Program Instance bio_layer {A R} {L : Layer A R} : Layer A (BioSt R) := {|
  layer_get k := layer_get (biorest k);
  layer_set a k := k.[biorest := layer_set a (biorest k)];
|}.
Next Obligation. intros. apply layer_get_set. Qed.
Next Obligation. intros. unfold upd_field; simpl. by rewrite layer_set_set. Qed.
Next Obligation. intros A R L []. unfold upd_field; simpl. by rewrite layer_set_get. Qed.

(** ** The disk driver *)

(** [virtio_disk_rw] on block [blockno]: reading returns the block's bytes,
    writing stores them.  The driver sleeps until the device has answered. *)
Class DiskDriver (R : Type) := {
  disk_read : Z -> M (Kst (KMem (BioSt R))) (list Z);
  disk_write : Z -> list Z -> M (Kst (KMem (BioSt R))) unit;
}.

(** How often a sleeper may be woken in vain (see [swp]). *)
Class Patience := patience : nat.

Definition bcache_lock : kptr := KSym "bcache" 0.

Section bio.
Context {R : Type} {dd : DiskDriver R} {pt : Patience}.
Abbreviation St := (Kst (KMem (BioSt R))).

Definition bio (s : St) : BioSt R := kmrest (krest s).
Definition set_bufs (l : list buf) (s : St) : St :=
  s.[krest := (krest s).[kmrest := (kmrest (krest s)).[bufs := l]]].

Definition getb (i : nat) : M St buf :=
  let* l := gets (fun s => bufs (bio s)) in deref (l !! i).
Definition modb (i : nat) (f : buf -> buf) : M St unit :=
  let* b := getb i in
  modify (fun s => set_bufs (<[i := f b]> (bufs (bio s))) s).

(** The sleep lock of buffer [i]. *)
Definition buf_lock (i : nat) : sl_ref (KMem (BioSt R)) :=
  SlRef (KSym "buf" (Z.of_nat i)) (KSym "buf.lock" (Z.of_nat i))
    (fun k => b_lock <$> bufs (kmrest k) !! i)
    (fun f k => k.[kmrest := (kmrest k).[bufs :=
       alter (fun b => b.[b_lock := f (b_lock b)]) i (bufs (kmrest k))]]).

(** ** kernel/bio.c *)

(** [initlock] leaves the lock free, the initial condition. *)
Definition binit : M St unit :=
  modb bhead (fun h => h.[b_prev := bhead]);;;
  modb bhead (fun h => h.[b_next := bhead]);;;
  mfor (seq 0 NBUF) (fun b =>
    let* h := getb bhead in
    modb b (fun x => x.[b_next := b_next h]);;;
    modb b (fun x => x.[b_prev := bhead]);;;
    initsleeplock (buf_lock b);;;
    modb (b_next h) (fun x => x.[b_prev := b]);;;
    modb bhead (fun h => h.[b_next := b])).

(** The two traversals of [bget], from [b] until [p] holds or the head is
    reached; the ring has [NBUF] elements. *)
Fixpoint bfind (fuel : nat) (link : buf -> nat) (p : buf -> bool) (b : nat) : M St (option nat) :=
  match fuel with
  | O => spin
  | S fuel =>
      if (b =? bhead)%nat then ret None else
      let* x := getb b in
      if p x then ret (Some b) else bfind fuel link p (link x)
  end.

Definition bget (dev blockno : Z) : M St nat :=
  acquire bcache_lock;;;
  let* h := getb bhead in
  let* r := bfind (S NBUF) b_next (fun x => (b_dev x =? dev) && (b_blockno x =? blockno)) (b_next h) in
  match r with
  | Some b =>
      modb b (fun x => x.[b_refcnt := u32 (b_refcnt x + 1)]);;;
      release bcache_lock;;;
      acquiresleep patience (buf_lock b);;;
      ret b
  | None =>
      let* r := bfind (S NBUF) b_prev (fun x => b_refcnt x =? 0) (b_prev h) in
      match r with
      | Some b =>
          modb b (fun x => x.[b_dev := dev].[b_blockno := blockno].[b_valid := 0].[b_refcnt := 1]);;;
          release bcache_lock;;;
          acquiresleep patience (buf_lock b);;;
          ret b
      | None => panic "bget: no buffers"
      end
  end.

Definition virtio_disk_rw (b : nat) (write : bool) : M St unit :=
  let* x := getb b in
  if write then disk_write (b_blockno x) (b_data x)
  else let* d := disk_read (b_blockno x) in modb b (fun x => x.[b_data := d]).

Definition bread (dev blockno : Z) : M St nat :=
  let* b := bget dev blockno in
  let* x := getb b in
  (if b_valid x =? 0 then
     virtio_disk_rw b false;;;
     modb b (fun x => x.[b_valid := 1])
   else ret tt);;;
  ret b.

Definition bwrite (b : nat) : M St unit :=
  let* h := holdingsleep (buf_lock b) in
  if negb h then panic "bwrite" else virtio_disk_rw b true.

Definition brelse (b : nat) : M St unit :=
  let* h := holdingsleep (buf_lock b) in
  if negb h then panic "brelse" else
  releasesleep (buf_lock b);;;
  acquire bcache_lock;;;
  modb b (fun x => x.[b_refcnt := u32 (b_refcnt x - 1)]);;;
  let* x := getb b in
  (if b_refcnt x =? 0 then
     modb (b_next x) (fun y => y.[b_prev := b_prev x]);;;
     modb (b_prev x) (fun y => y.[b_next := b_next x]);;;
     let* h := getb bhead in
     modb b (fun y => y.[b_next := b_next h]);;;
     modb b (fun y => y.[b_prev := bhead]);;;
     modb (b_next h) (fun y => y.[b_prev := b]);;;
     modb bhead (fun y => y.[b_next := b])
   else ret tt);;;
  release bcache_lock.

Definition bpin (b : nat) : M St unit :=
  acquire bcache_lock;;;
  modb b (fun x => x.[b_refcnt := u32 (b_refcnt x + 1)]);;;
  release bcache_lock.

Definition bunpin (b : nat) : M St unit :=
  acquire bcache_lock;;;
  modb b (fun x => x.[b_refcnt := u32 (b_refcnt x - 1)]);;;
  release bcache_lock.

(** The bytes of a locked buffer. *)
Definition bdata (b : nat) : M St (list Z) := let* x := getb b in ret (b_data x).
Definition set_bdata (b : nat) (d : list Z) : M St unit := modb b (fun x => x.[b_data := d]).
End bio.
