(* ===== verification/BioRing.v ===== *)
(** The least-recently-used ring of kernel/bio.c as a pure structure: the
    doubly linked list described by the [prev] and [next] links of the
    buffers, and the searches and the move to the front on it. *)

From S2P Require Import Prelude CInt Machine Sched Sleeplock Kalloc Bio.

(** ** Linked lists given by two link functions *)

(** From [a], the [next] links visit [l] and then reach [z]; the [prev] links
    are their inverse. *)
Fixpoint lnk (nx pv : nat -> nat) (a : nat) (l : list nat) (z : nat) : Prop :=
  match l with
  | [] => nx a = z /\ pv z = a
  | x :: l => nx a = x /\ pv x = a /\ lnk nx pv x l z
  end.

Lemma lnk_ext nx pv nx' pv' a l z :
  (forall i, i ∈ a :: l -> nx' i = nx i) -> (forall i, i ∈ l ++ [z] -> pv' i = pv i) ->
  lnk nx pv a l z -> lnk nx' pv' a l z.
Proof.
  revert a. induction l as [|x l IH]; intros a Hn Hp; simpl.
  - rewrite Hn, Hp by set_solver. done.
  - rewrite Hn, Hp by set_solver. intros (H1 & H2 & H3). split; [done|]. split; [done|].
    apply IH; [set_solver..|done].
Qed.

Lemma lnk_app nx pv a l1 x l2 z :
  lnk nx pv a (l1 ++ x :: l2) z <-> lnk nx pv a l1 x /\ lnk nx pv x l2 z.
Proof.
  revert a. induction l1 as [|y l1 IH]; intros a; simpl; [tauto|]. rewrite IH. tauto.
Qed.

(** The last element before [z], and the first after [a]. *)
Lemma lnk_ends nx pv a l z :
  lnk nx pv a l z -> nx a = hd z l /\ pv z = List.last l a.
Proof.
  revert a. induction l as [|x l IH]; intros a; simpl; [done|]. intros (H1 & H2 & H3).
  split; [done|]. apply IH in H3 as [_ ->]. destruct l; [done|]. simpl. clear.
  revert x n. induction l as [|y l IH]; intros x n; simpl; [done|]. apply IH.
Qed.

Definition upd (f : nat -> nat) (i v : nat) : nat -> nat := fun j => if decide (j = i) then v else f j.
Lemma upd_eq f i v : upd f i v i = v.
Proof. unfold upd. by rewrite decide_True. Qed.
Lemma upd_ne f i v j : j <> i -> upd f i v j = f j.
Proof. intros. unfold upd. by rewrite decide_False. Qed.

Lemma last_cons_eq (a x : nat) l : List.last (x :: l) a = List.last l x.
Proof. revert a x. induction l as [|y l IH]; intros a x; [done|]. exact (eq_trans (IH a y) (eq_sym (IH x y))). Qed.

Lemma last_in (a : nat) l : List.last l a ∈ a :: l.
Proof.
  revert a. induction l as [|x l IH]; intros a; [left|].
  destruct l as [|y l]; [right; left|]. specialize (IH a). cbn [List.last] in *.
  apply elem_of_cons in IH as [->|IH]; [left|]. right. right. done.
Qed.

(** Removing the element [b] between [l1] and [l2]: the part before it ... *)
Lemma lnk_retarget nx pv a l z z' :
  NoDup (a :: l) -> z ∉ l -> z' ∉ l -> lnk nx pv a l z ->
  lnk (upd nx (List.last l a) z') (upd pv z' (List.last l a)) a l z'.
Proof.
  revert a. induction l as [|x l IH]; intros a Hnd Hz Hz' Hl.
  - simpl. by rewrite !upd_eq.
  - destruct Hl as (H1 & H2 & H3). apply NoDup_cons in Hnd as [Ha Hnd].
    apply not_elem_of_cons in Hz as [_ Hz], Hz' as [Hzx Hz'].
    rewrite last_cons_eq. cbn [lnk]. split; [|split].
    + rewrite upd_ne; [done|]. intros ->. apply Ha, last_in.
    + by rewrite upd_ne.
    + by apply IH.
Qed.

(** [b->next->prev = b->prev; b->prev->next = b->next] *)
Lemma lnk_unlink nx pv h l1 b l2 :
  NoDup (h :: l1 ++ b :: l2) -> lnk nx pv h (l1 ++ b :: l2) h ->
  lnk (upd nx (pv b) (nx b)) (upd pv (nx b) (pv b)) h (l1 ++ l2) h.
Proof.
  intros Hnd Hl. apply lnk_app in Hl as [H1 H2].
  rewrite (proj2 (lnk_ends _ _ _ _ _ H1)), (proj1 (lnk_ends _ _ _ _ _ H2)).
  apply NoDup_cons in Hnd as [Hh Hnd]. apply NoDup_app in Hnd as (Hn1 & Hn12 & Hn2).
  apply NoDup_cons in Hn2 as [Hb Hn2]. rewrite not_elem_of_app, not_elem_of_cons in Hh.
  destruct Hh as (Hh1 & Hhb & Hh2).
  assert (Hb1 : b ∉ l1) by (intros Hx; by apply (Hn12 b Hx); left).
  assert (Hn1' : NoDup (h :: l1)) by (by apply NoDup_cons).
  destruct l2 as [|y l2]; simpl hd.
  - rewrite app_nil_r. by eapply lnk_retarget.
  - destruct H2 as (_ & _ & H4). apply NoDup_cons in Hn2 as [Hy2 Hn2].
    apply lnk_app. split.
    + eapply lnk_retarget; try done. intros Hy. apply (Hn12 y Hy). right. left.
    + eapply lnk_ext; [| |exact H4]; intros i Hi; apply upd_ne.
      * intros ->. pose proof (last_in h l1) as [Hx|Hx]%elem_of_cons.
        -- rewrite Hx in Hi. by apply Hh2.
        -- apply (Hn12 _ Hx). by right.
      * intros ->. apply elem_of_app in Hi as [Hi|Hi%list_elem_of_singleton]; [done|].
        subst. apply Hh2. left.
Qed.

(** [b->next = head.next; b->prev = &head; head.next->prev = b; head.next = b] *)
Lemma lnk_push nx pv h b l :
  NoDup (h :: b :: l) -> lnk nx pv h l h ->
  lnk (upd (upd nx b (nx h)) h b) (upd (upd pv b h) (nx h) b) h (b :: l) h.
Proof.
  intros Hnd Hl. apply NoDup_cons in Hnd as [Hh Hnd]. apply NoDup_cons in Hnd as [Hb Hnd].
  pose proof (proj1 (lnk_ends _ _ _ _ _ Hl)) as Hnx.
  cbn [lnk]. rewrite upd_eq. split; [done|]. split.
  { rewrite upd_ne; [by rewrite upd_eq|]. rewrite Hnx. destruct l; set_solver. }
  destruct l as [|x l]; cbn [lnk hd] in *.
  - rewrite upd_ne by set_solver. rewrite upd_eq, Hnx, upd_eq. done.
  - destruct Hl as (H1 & H2 & H3). rewrite upd_ne by set_solver. rewrite upd_eq, Hnx, upd_eq.
    split; [done|]. split; [done|].
    eapply lnk_ext; [| |exact H3]; intros i Hi; rewrite !upd_ne; try done; try set_solver.
    apply NoDup_cons in Hnd as [Hx _]. set_solver.
Qed.

(** ** The ring of a buffer table *)

Definition nxt (bl : list buf) (i : nat) : nat := b_next (nth i bl buf_zero).
Definition prv (bl : list buf) (i : nat) : nat := b_prev (nth i bl buf_zero).

(** The buffers are linked, most recently used first, in the order [o]. *)
Definition ring (bl : list buf) (o : list nat) : Prop :=
  length bl = S NBUF /\ Permutation o (seq 0 NBUF) /\ lnk (nxt bl) (prv bl) bhead o bhead.

Lemma nth_bl bl i x : bl !! i = Some x -> nth i bl buf_zero = x.
Proof. apply nth_lookup_Some. Qed.

(** Links after a store to one buffer. *)
Lemma nxt_insert bl i x j :
  (i < length bl)%nat -> nxt (<[i := x]> bl) j = if decide (j = i) then b_next x else nxt bl j.
Proof.
  intros Hi. unfold nxt. rewrite !nth_lookup. case_decide as Hj.
  - subst. by rewrite list_lookup_insert_eq.
  - by rewrite list_lookup_insert_ne.
Qed.
Lemma prv_insert bl i x j :
  (i < length bl)%nat -> prv (<[i := x]> bl) j = if decide (j = i) then b_prev x else prv bl j.
Proof.
  intros Hi. unfold prv. rewrite !nth_lookup. case_decide as Hj.
  - subst. by rewrite list_lookup_insert_eq.
  - by rewrite list_lookup_insert_ne.
Qed.

Lemma ring_nodup bl o : ring bl o -> NoDup (bhead :: o).
Proof.
  intros (_ & Hp & _). apply NoDup_cons. rewrite Hp. split; [|apply NoDup_seq].
  intros ?%elem_of_seq. unfold bhead in *. lia.
Qed.

Lemma ring_elem bl o i : ring bl o -> i ∈ o <-> (i < NBUF)%nat.
Proof. intros (_ & Hp & _). rewrite Hp, elem_of_seq. lia. Qed.

Lemma ring_lookup bl o i : ring bl o -> (i <= NBUF)%nat -> is_Some (bl !! i).
Proof. intros (Hl & _) Hi. apply lookup_lt_is_Some. lia. Qed.

(** A store that keeps the links. *)
Lemma ring_insert bl o i x y :
  bl !! i = Some x -> b_next y = b_next x -> b_prev y = b_prev x ->
  ring bl o -> ring (<[i := y]> bl) o.
Proof.
  intros Hi Hn Hp (Hl & Hperm & Hk). pose proof (lookup_lt_Some _ _ _ Hi) as Hlt.
  split; [by rewrite length_insert|]. split; [done|].
  eapply lnk_ext; [| |exact Hk]; intros j _.
  - rewrite nxt_insert by done. case_decide; [subst; unfold nxt; by rewrite (nth_bl _ _ _ Hi)|done].
  - rewrite prv_insert by done. case_decide; [subst; unfold prv; by rewrite (nth_bl _ _ _ Hi)|done].
Qed.

(** ** Searches *)

(** The first of [o] whose buffer satisfies [p]. *)
Definition first_of (bl : list buf) (p : buf -> bool) (o : list nat) : option nat :=
  snd <$> list_find (fun i => p (nth i bl buf_zero) = true) o.

Lemma first_of_cons bl p i o :
  first_of bl p (i :: o) = if p (nth i bl buf_zero) then Some i else first_of bl p o.
Proof.
  unfold first_of. cbn [list_find]. destruct (p (nth i bl buf_zero)) eqn:Hp.
  - by rewrite decide_True by done.
  - rewrite decide_False by done. by destruct (list_find _ o) as [[? ?]|].
Qed.

Lemma first_of_Some bl p o i :
  first_of bl p o = Some i -> i ∈ o /\ p (nth i bl buf_zero) = true.
Proof.
  induction o as [|j o IH]; [done|]. rewrite first_of_cons.
  destruct (p (nth j bl buf_zero)) eqn:Hp.
  - intros [= ->]. split; [left|done].
  - intros H. apply IH in H as [? ?]. split; [by right|done].
Qed.

Lemma first_of_None bl p o :
  first_of bl p o = None -> forall i, i ∈ o -> p (nth i bl buf_zero) = false.
Proof.
  induction o as [|j o IH]; [by intros _ i ?%not_elem_of_nil|]. rewrite first_of_cons.
  destruct (p (nth j bl buf_zero)) eqn:Hp; [done|].
  intros H i [->|Hi]%elem_of_cons; [done|by apply IH].
Qed.

(** The links from [a] through [l] to [z], in one direction. *)
Fixpoint chain (lk : nat -> nat) (a : nat) (l : list nat) (z : nat) : Prop :=
  match l with
  | [] => lk a = z
  | x :: l => lk a = x /\ chain lk x l z
  end.

Lemma lnk_chain nx pv a l z : lnk nx pv a l z -> chain nx a l z.
Proof. revert a. induction l as [|x l IH]; intros a; simpl; [tauto|]. intros (? & ? & ?). auto. Qed.

Lemma chain_snoc lk a l x z : chain lk a (l ++ [x]) z <-> chain lk a l x /\ lk x = z.
Proof. revert a. induction l as [|y l IH]; intros a; simpl; [tauto|]. rewrite IH. tauto. Qed.

Lemma lnk_chain_rev nx pv a l z : lnk nx pv a l z -> chain pv z (rev l) a.
Proof.
  revert a. induction l as [|x l IH]; intros a; simpl; [tauto|].
  intros (_ & H2 & H3). apply chain_snoc. split; [by apply IH|done].
Qed.

Section bfind.
Context {R : Type} {dd : DiskDriver R}.
Implicit Types s : Kst (KMem (BioSt R)).

Lemma getb_ok b x s : bufs (bio s) !! b = Some x -> getb b s = Ok x s.
Proof. intros H. unfold getb, bind, gets. simpl. by rewrite H. Qed.

(** A traversal from [a] visits exactly the buffers of the chain. *)
Lemma bfind_chain (link : buf -> nat) p s a l n :
  chain (fun i => link (nth i (bufs (bio s)) buf_zero)) a l bhead -> bhead ∉ l ->
  (forall i, i ∈ l -> (i < length (bufs (bio s)))%nat) -> (length l < n)%nat ->
  bfind n link p (link (nth a (bufs (bio s)) buf_zero)) s = Ok (first_of (bufs (bio s)) p l) s.
Proof.
  revert a n. induction l as [|x l IH]; intros a n Hc Hh Hr Hn; (destruct n as [|n]; [simpl in Hn; lia|]);
    cbn [bfind chain] in *.
  - rewrite Hc, Nat.eqb_refl. done.
  - destruct Hc as [-> Hc]. apply not_elem_of_cons in Hh as [Hx Hh].
    rewrite (proj2 (Nat.eqb_neq x bhead)) by congruence.
    destruct (lookup_lt_is_Some_2 (bufs (bio s)) x (Hr x ltac:(left))) as [y Hy].
    erewrite bind_Ok by (by apply getb_ok). rewrite first_of_cons, (nth_bl _ _ _ Hy).
    destruct (p y); [done|]. rewrite <- (nth_bl _ _ _ Hy).
    apply IH; [done|done|intros i Hi; apply Hr; by right|simpl in Hn; lia].
Qed.
End bfind.

Lemma list_elem_of_rev {A} (l : list A) x : x ∈ rev l <-> x ∈ l.
Proof. rewrite !list_elem_of_In. symmetry. apply in_rev. Qed.
Lemma elem_rev {A} (l : list A) x : x ∈ rev l -> x ∈ l.
Proof. apply list_elem_of_rev. Qed.

(** ** Moving a buffer to the front *)

Definition set_next (bl : list buf) (i v : nat) : list buf :=
  <[i := (nth i bl buf_zero).[b_next := v]]> bl.
Definition set_prev (bl : list buf) (i v : nat) : list buf :=
  <[i := (nth i bl buf_zero).[b_prev := v]]> bl.

Lemma nxt_set_next bl i v j : (i < length bl)%nat -> nxt (set_next bl i v) j = upd (nxt bl) i v j.
Proof. intros. unfold set_next, upd. by rewrite nxt_insert. Qed.
Lemma prv_set_next bl i v j : (i < length bl)%nat -> prv (set_next bl i v) j = prv bl j.
Proof. intros. unfold set_next. rewrite prv_insert by done. case_decide; [by subst|done]. Qed.
Lemma prv_set_prev bl i v j : (i < length bl)%nat -> prv (set_prev bl i v) j = upd (prv bl) i v j.
Proof. intros. unfold set_prev, upd. by rewrite prv_insert. Qed.
Lemma nxt_set_prev bl i v j : (i < length bl)%nat -> nxt (set_prev bl i v) j = nxt bl j.
Proof. intros. unfold set_prev. rewrite nxt_insert by done. case_decide; [by subst|done]. Qed.
Lemma set_next_length bl i v : length (set_next bl i v) = length bl.
Proof. apply length_insert. Qed.
Lemma set_prev_length bl i v : length (set_prev bl i v) = length bl.
Proof. apply length_insert. Qed.

(** Links after stores to links. *)
Ltac links :=
  repeat first
    [rewrite nxt_set_next by (rewrite ?set_prev_length, ?set_next_length; lia)
    |rewrite prv_set_next by (rewrite ?set_prev_length, ?set_next_length; lia)
    |rewrite nxt_set_prev by (rewrite ?set_prev_length, ?set_next_length; lia)
    |rewrite prv_set_prev by (rewrite ?set_prev_length, ?set_next_length; lia)].

(** The stores of [brelse] when the reference count drops to 0. *)
Definition unlink (bl : list buf) (b : nat) : list buf :=
  set_next (set_prev bl (nxt bl b) (prv bl b)) (prv bl b) (nxt bl b).
Definition push (bl : list buf) (b : nat) : list buf :=
  let f := nxt bl bhead in
  set_next (set_prev (set_prev (set_next bl b f) b bhead) f b) bhead b.
Definition to_front (bl : list buf) (b : nat) : list buf := push (unlink bl b) b.

(** Everything but the links. *)
Definition same_buf (x y : buf) : Prop :=
  b_valid y = b_valid x /\ b_disk y = b_disk x /\ b_dev y = b_dev x /\ b_blockno y = b_blockno x /\
  b_lock y = b_lock x /\ b_refcnt y = b_refcnt x /\ b_data y = b_data x.
Definition same_bufs (bl bl' : list buf) : Prop :=
  length bl' = length bl /\
  forall i y, bl' !! i = Some y -> exists x, bl !! i = Some x /\ same_buf x y.

Lemma same_bufs_trans bl1 bl2 bl3 : same_bufs bl1 bl2 -> same_bufs bl2 bl3 -> same_bufs bl1 bl3.
Proof.
  intros [L1 H1] [L2 H2]. split; [congruence|]. intros i z Hz.
  destruct (H2 i z Hz) as (y & Hy & E2). destruct (H1 i y Hy) as (x & Hx & E1). exists x.
  split; [done|]. unfold same_buf in *. intuition congruence.
Qed.

Lemma same_bufs_store bl i f : (forall x, same_buf x (f x)) -> same_bufs bl (<[i := f (nth i bl buf_zero)]> bl).
Proof.
  intros Hf. split; [apply length_insert|]. intros j y Hy.
  destruct (decide (j = i)) as [->|Hne].
  - pose proof (lookup_lt_Some _ _ _ Hy) as Hlt. rewrite length_insert in Hlt.
    rewrite list_lookup_insert_eq in Hy by done. injection Hy as <-.
    destruct (lookup_lt_is_Some_2 bl i Hlt) as [x Hx]. exists x. split; [done|].
    by rewrite (nth_bl _ _ _ Hx).
  - rewrite list_lookup_insert_ne in Hy by done. exists y. by split_and!.
Qed.

Lemma same_bufs_next bl i v : same_bufs bl (set_next bl i v).
Proof. by apply (same_bufs_store bl i (fun x => x.[b_next := v])). Qed.
Lemma same_bufs_prev bl i v : same_bufs bl (set_prev bl i v).
Proof. by apply (same_bufs_store bl i (fun x => x.[b_prev := v])). Qed.

Lemma to_front_same bl b : same_bufs bl (to_front bl b).
Proof.
  unfold to_front, push, unlink.
  repeat first [apply same_bufs_next || apply same_bufs_prev |
    eapply same_bufs_trans; [|first [apply same_bufs_next|apply same_bufs_prev]]].
Qed.

Lemma ring_links bl o i : ring bl o -> (i <= NBUF)%nat ->
  (nxt bl i <= NBUF)%nat /\ (prv bl i <= NBUF)%nat.
Proof.
  intros Hr Hi. pose proof (ring_nodup _ _ Hr) as Hnd. pose proof Hr as (_ & Hp & Hk).
  assert (Ho : forall j, j ∈ o ++ [bhead] -> (j <= NBUF)%nat).
  { intros j [Hj|Hj%list_elem_of_singleton]%elem_of_app; [apply (ring_elem _ _ _ Hr) in Hj; lia|].
    by subst. }
  assert (Hcase : i = bhead \/ i ∈ o).
  { destruct (decide (i < NBUF)%nat) as [H|H]; [right; by apply (ring_elem _ _ _ Hr)|left].
    unfold bhead. lia. }
  destruct Hcase as [->|Hio].
  - apply lnk_ends in Hk as [-> ->]. split; apply Ho.
    + destruct o; [by left|by left].
    + apply elem_of_app. pose proof (last_in bhead o) as [->|?]%elem_of_cons; [right; by left|by left].
  - apply list_elem_of_split in Hio as (l1 & l2 & ->). apply lnk_app in Hk as [K1 K2].
    apply lnk_ends in K1 as [_ ->]. apply lnk_ends in K2 as [-> _]. split; apply Ho.
    + destruct l2; simpl; set_solver.
    + pose proof (last_in bhead l1) as [->|?]%elem_of_cons; set_solver.
Qed.

(** The ring without [b]. *)
Lemma ring_unlink bl l1 b l2 :
  ring bl (l1 ++ b :: l2) ->
  lnk (nxt (unlink bl b)) (prv (unlink bl b)) bhead (l1 ++ l2) bhead /\
  (nxt (unlink bl b) bhead <= NBUF)%nat /\ length (unlink bl b) = S NBUF.
Proof.
  intros Hr. pose proof (ring_nodup _ _ Hr) as Hnd. pose proof Hr as (Hl & Hp & Hk).
  assert (Hb : (b < NBUF)%nat) by (apply (ring_elem _ _ _ Hr), elem_of_app; right; left).
  destruct (ring_links bl _ b Hr ltac:(lia)) as [Hn1 Hn2].
  assert (Hk1 : lnk (nxt (unlink bl b)) (prv (unlink bl b)) bhead (l1 ++ l2) bhead).
  { eapply lnk_ext; [| |by apply (lnk_unlink (nxt bl) (prv bl) bhead l1 b l2)]; intros i _; unfold unlink.
    - rewrite nxt_set_next by (rewrite set_prev_length; lia). unfold upd. case_decide; [done|].
      apply nxt_set_prev. lia.
    - rewrite prv_set_next by (rewrite set_prev_length; lia). apply prv_set_prev. lia. }
  split; [done|]. split; [|unfold unlink; by rewrite set_next_length, set_prev_length].
  apply lnk_ends in Hk1 as [-> _]. destruct (l1 ++ l2) as [|x l] eqn:E; [done|]. simpl hd.
  assert (x ∈ l1 ++ b :: l2) as Hx%(ring_elem _ _ _ Hr); [|lia].
  rewrite <- Permutation_middle. right. rewrite E. left.
Qed.

(** The buffer moves to the front of the order, whose rest is unchanged. *)
Lemma ring_to_front bl l1 b l2 :
  ring bl (l1 ++ b :: l2) -> ring (to_front bl b) (b :: l1 ++ l2).
Proof.
  intros Hr. destruct (ring_unlink _ _ _ _ Hr) as (Hk1 & Hf & Hlu).
  pose proof (ring_nodup _ _ Hr) as Hnd. pose proof Hr as (Hl & Hp & _).
  assert (Hb : (b < NBUF)%nat) by (apply (ring_elem _ _ _ Hr), elem_of_app; right; left).
  split; [by rewrite (proj1 (to_front_same bl b))|].
  split; [rewrite <- Hp; by rewrite Permutation_middle|].
  assert (Hnd' : NoDup (bhead :: b :: l1 ++ l2)) by (by rewrite Permutation_middle).
  unfold bhead in *.
  eapply lnk_ext; [| |exact (lnk_push _ _ _ b _ Hnd' Hk1)]; intros i _; unfold to_front, push, bhead;
    do 5 (try (links; unfold upd; repeat case_decide; try done)).
Qed.
