(* ===== verification/BioThm.v ===== *)
(** What the buffer cache promises to its clients: at most one buffer per disk
    block, recycled in least-recently-used order, through which every reader
    sees the last data written.

    The theorems are about runs in which the disk answers before another
    thread runs and the locks wanted are free; [SyncDisk] says so of the
    driver, whose writes are recorded in order. *)

From S2P Require Import Prelude CInt Machine Sched Sleeplock Kalloc Bio BioRing.

(** ** The disk *)

(** The contents of a disk that started as [d0] after the writes [w]. *)
Definition content (d0 : Z -> list Z) (w : list (Z * list Z)) (b : Z) : list Z :=
  foldl (fun d '(b', d') => if b' =? b then d' else d) (d0 b) w.

Lemma content_snoc d0 w b d x : content d0 (w ++ [(b, d)]) x = if b =? x then d else content d0 w x.
Proof. unfold content. by rewrite foldl_app. Qed.

(** Where the record of disk writes lives in the state above the cache. *)
Class DiskLens (R : Type) := {
  dget : R -> list (Z * list Z);
  dset : list (Z * list Z) -> R -> R;
  dget_dset : forall w r, dget (dset w r) = w;
  dset_dset : forall w w' r, dset w (dset w' r) = dset w r;
  dset_dget : forall r, dset (dget r) r = r;
}.

Class SyncDisk (R : Type) {dd : DiskDriver R} {dl : DiskLens R} (d0 : Z -> list Z) := {
  disk_read_sync : forall b s, disk_read b s = Ok (content d0 (dget (biorest (bio s))) b) s;
  disk_write_sync : forall b d s, disk_write b d s =
    Ok tt (s.[krest := (krest s).[kmrest := (kmrest (krest s)).[biorest :=
      dset (dget (biorest (bio s)) ++ [(b, d)]) (biorest (bio s))]]]);
}.

Section biothm.
Context {R : Type} {dd : DiskDriver R} {dl : DiskLens R} {d0 : Z -> list Z} {sd : SyncDisk R d0}
  {pt : Patience}.
Context (ci : nat) (pid dv : Z).
Abbreviation St := (Kst (KMem (BioSt R))).
Implicit Types (s : St) (bl : list buf) (w : list (Z * list Z)) (k : KMem (BioSt R)).

(** ** States that differ in the cache and the disk only *)

Definition putk bl w k : KMem (BioSt R) := k.[kmrest := BioS bl (dset w (biorest (kmrest k)))].

(** Thread [ci] runs holding [h]; the cache is [bl], the disk has seen the
    writes [w], everything else is as in [k]. *)
Definition at_ (h : list kptr) s bl w k : Prop := running ci pid h s /\ krest s = putk bl w k.

Lemma at_bufs h s bl w k : at_ h s bl w k -> bufs (bio s) = bl.
Proof. intros [_ H]. unfold bio. by rewrite H. Qed.
Lemma at_dget h s bl w k : at_ h s bl w k -> dget (biorest (bio s)) = w.
Proof. intros [_ H]. unfold bio. rewrite H. simpl. apply dget_dset. Qed.

Lemma at_intro h s :
  running ci pid h s -> at_ h s (bufs (bio s)) (dget (biorest (bio s))) (krest s).
Proof.
  intros H. split; [done|]. unfold putk, bio. rewrite dset_dget.
  destruct (krest s) as [? ? ? []]. done.
Qed.

Lemma at_getb h s bl w k b x : at_ h s bl w k -> bl !! b = Some x -> getb b s = Ok x s.
Proof. intros H Hx. apply getb_ok. by rewrite (at_bufs _ _ _ _ _ H). Qed.

Lemma running_krest h s k : running ci pid h s -> running ci pid h (s.[krest := k]).
Proof. done. Qed.

Lemma at_modb h s bl w k b x f :
  at_ h s bl w k -> bl !! b = Some x ->
  exists s', modb b f s = Ok tt s' /\ at_ h s' (<[b := f x]> bl) w k.
Proof.
  intros H Hx. eexists. split.
  { unfold modb. erewrite bind_Ok by (by eapply at_getb). reflexivity. }
  rewrite (at_bufs _ _ _ _ _ H). destruct H as [H1 H2]. split; [done|].
  unfold set_bufs. simpl. rewrite H2. done.
Qed.

Lemma wp_modb h s bl w k b x f Q :
  at_ h s bl w k -> bl !! b = Some x ->
  (forall s', at_ h s' (<[b := f x]> bl) w k -> Q tt s') -> wp (modb b f) Q s.
Proof. intros H Hx HQ. destruct (at_modb _ _ _ _ _ _ _ f H Hx) as (s' & E & A). unfold wp. rewrite E. auto. Qed.

Lemma wp_getb h s bl w k b x Q :
  at_ h s bl w k -> bl !! b = Some x -> Q x s -> wp (getb b) Q s.
Proof. intros H Hx HQ. unfold wp. by rewrite (at_getb _ _ _ _ _ _ _ H Hx). Qed.

Lemma wp_acquire_in h s bl w k l Q :
  at_ h s bl w k -> l ∉ h -> (forall s', at_ (l :: h) s' bl w k -> Q tt s') -> wp (acquire l) Q s.
Proof.
  intros [(Hl & Hc & Hh & Hp) H2] Hn HQ. unfold wp. rewrite acquire_ok by (by rewrite Hh).
  apply HQ. split; [|done]. split_and!; simpl; [done|done|by rewrite Hh|done].
Qed.

Lemma wp_release_in h s bl w k l Q :
  at_ (l :: h) s bl w k -> l ∉ h -> (forall s', at_ h s' bl w k -> Q tt s') -> wp (release l) Q s.
Proof.
  intros [(Hl & Hc & Hh & Hp) H2] Hn HQ. unfold wp.
  rewrite (release_ok l h s Hh Hn). apply HQ. by split.
Qed.

Lemma wp_acquire s bl w k l Q :
  at_ [] s bl w k -> (forall s', at_ [l] s' bl w k -> Q tt s') -> wp (acquire l) Q s.
Proof. intros A. apply (wp_acquire_in [] _ _ _ _ _ _ A), not_elem_of_nil. Qed.

Lemma wp_release s bl w k l Q :
  at_ [l] s bl w k -> (forall s', at_ [] s' bl w k -> Q tt s') -> wp (release l) Q s.
Proof. intros A. apply (wp_release_in [] _ _ _ _ _ _ A), not_elem_of_nil. Qed.

(** ** The sleep locks of the buffers *)

#[local] Instance buf_lock_ok b : SlOk (@buf_lock R b).
Proof.
  split; [|done]. intros f x. simpl. by rewrite list_lookup_alter_eq, <- !option_fmap_compose.
Qed.

Lemma alter_insert {A} (l : list A) i x f : l !! i = Some x -> alter f i l = <[i := f x]> l.
Proof.
  intros H. apply list_eq. intros j. destruct (decide (i = j)) as [<-|Hne].
  - rewrite list_lookup_alter_eq, H. simpl. symmetry. apply list_lookup_insert_eq.
    by eapply lookup_lt_Some.
  - by rewrite list_lookup_alter_ne, list_lookup_insert_ne.
Qed.

Lemma sl_set_at bl w k b x f :
  bl !! b = Some x ->
  sl_set (buf_lock b) f (putk bl w k) = putk (<[b := x.[b_lock := f (b_lock x)]]> bl) w k.
Proof. intros Hx. simpl. by rewrite (alter_insert _ _ _ _ Hx). Qed.

Lemma wp_acquiresleep s bl w k b x Q :
  at_ [] s bl w k -> bl !! b = Some x -> b_lock x = SleepLock 0 0 ->
  (forall s', at_ [] s' (<[b := x.[b_lock := SleepLock 1 pid]]> bl) w k -> Q tt s') ->
  wp (acquiresleep patience (buf_lock b)) Q s.
Proof.
  intros [H1 H2] Hx Hl HQ.
  destruct (acquiresleep_free (buf_lock b) patience ci pid s (SleepLock 0 0) H1)
    as (s' & E & _ & _ & Hr & Hk & _); [|done|].
  { rewrite H2. simpl. by rewrite Hx; simpl; rewrite Hl. }
  unfold wp. rewrite E. apply HQ. split; [done|].
  rewrite Hk, H2, (sl_set_at _ _ _ _ x) by done.
  rewrite (sl_set_at _ _ _ _ (x.[b_lock := SleepLock 1 0])).
  - rewrite list_insert_insert_eq. done.
  - rewrite list_lookup_insert_eq by (by eapply lookup_lt_Some). by rewrite Hl.
Qed.

Lemma running_wake h s ch k : running ci pid h s ->
  running ci pid [] (s.[krest := k].[procs := imap (wake_entry (Some ci) ch) (procs s)].[held := []]).
Proof.
  intros (Hlen & Hc & Hh & p & Hp & Hpid). split_and!; simpl; [by rewrite length_imap|done|done|].
  exists p. rewrite list_lookup_imap, Hp. simpl. split; [|done]. f_equal. unfold wake_entry.
  by rewrite bool_decide_true.
Qed.

Lemma wp_releasesleep s bl w k b x Q :
  at_ [] s bl w k -> bl !! b = Some x ->
  (forall s', at_ [] s' (<[b := x.[b_lock := SleepLock 0 0]]> bl) w k -> Q tt s') ->
  wp (releasesleep (buf_lock b)) Q s.
Proof.
  intros [H1 H2] Hx HQ. unfold wp. rewrite (releasesleep_ok _ ci pid s H1). apply HQ.
  split; [by apply (running_wake [])|].
  change (sl_set (buf_lock b) (fun l => l.[sl_pid := 0])
    (sl_set (buf_lock b) (fun l => l.[sl_locked := 0]) (krest s)) =
    putk (<[b := x.[b_lock := SleepLock 0 0]]> bl) w k).
  rewrite H2, (sl_set_at _ _ _ _ x) by done.
  rewrite (sl_set_at _ _ _ _ (x.[b_lock := (b_lock x).[sl_locked := 0]])).
  - rewrite list_insert_insert_eq. done.
  - by rewrite list_lookup_insert_eq by (by eapply lookup_lt_Some).
Qed.

Lemma wp_holdingsleep s bl w k b x Q :
  at_ [] s bl w k -> bl !! b = Some x -> b_lock x = SleepLock 1 pid -> Q true s ->
  wp (holdingsleep (buf_lock b)) Q s.
Proof.
  intros [H1 H2] Hx Hl HQ. unfold wp.
  rewrite (holdingsleep_ok _ ci pid s (SleepLock 1 pid) H1).
  - simpl. by rewrite Z.eqb_refl.
  - rewrite H2. simpl. by rewrite Hx; simpl; rewrite Hl.
Qed.

(** ** The invariant of the cache *)

(** [Hs] are the buffers this thread has locked, with their block numbers;
    [P] the blocks pinned by the log; [V] the contents of the file system's
    disk as seen through the cache. *)
Record buf_ok (Hs : list (nat * Z)) (P : list Z) (V : Z -> list Z) (i : nat) (x : buf) : Prop := {
  bo_lock : b_lock x = if decide (i ∈ Hs.*1) then SleepLock 1 pid else SleepLock 0 0;
  bo_ref : b_refcnt x = (if decide (i ∈ Hs.*1) then 1 else 0) +
                        (if decide (b_dev x = dv /\ b_blockno x ∈ P) then 1 else 0);
  bo_valid : b_dev x = dv -> b_valid x = 1 /\ b_data x = V (b_blockno x);
}.

Record cache (Hs : list (nat * Z)) (P : list Z) (V : Z -> list Z) w (o : list nat) bl : Prop := {
  ca_ring : ring bl o;
  ca_buf : forall i x, (i < NBUF)%nat -> bl !! i = Some x -> buf_ok Hs P V i x;
  ca_uniq : forall i j x y, (i < NBUF)%nat -> (j < NBUF)%nat -> bl !! i = Some x -> bl !! j = Some y ->
    b_dev x = dv -> b_dev y = dv -> b_blockno x = b_blockno y -> i = j;
  ca_held : forall i b, (i, b) ∈ Hs -> (i < NBUF)%nat /\
    exists x, bl !! i = Some x /\ b_dev x = dv /\ b_blockno x = b;
  ca_hnd : NoDup Hs.*1;
  ca_pin : forall b, b ∈ P -> exists i x, (i < NBUF)%nat /\ bl !! i = Some x /\ b_dev x = dv /\ b_blockno x = b;
  ca_clean : forall b, b ∉ P -> b ∉ Hs.*2 -> V b = content d0 w b;
}.

Definition vset (V : Z -> list Z) (b : Z) (d : list Z) : Z -> list Z := fun x => if x =? b then d else V x.

(** A store to buffer [b]. *)
Lemma insert_cases bl b (y : buf) i x :
  <[b := y]> bl !! i = Some x -> (i = b /\ x = y) \/ (i <> b /\ bl !! i = Some x).
Proof.
  destruct (decide (i = b)) as [->|Hne].
  - intros H. pose proof (lookup_lt_Some _ _ _ H) as Hb. rewrite length_insert in Hb.
    rewrite list_lookup_insert_eq in H by done. injection H as ->. by left.
  - rewrite list_lookup_insert_ne by done. by right.
Qed.

Lemma insert_same bl b (x y : buf) : bl !! b = Some x -> <[b := y]> bl !! b = Some y.
Proof. intros H. apply list_lookup_insert_eq. by eapply lookup_lt_Some. Qed.

Lemma cache_lookup Hs P V w o bl b : cache Hs P V w o bl -> (b < NBUF)%nat -> is_Some (bl !! b).
Proof. intros C Hb. eapply ring_lookup; [apply C|lia]. Qed.

Lemma cache_held_block Hs P V w o bl i b x :
  cache Hs P V w o bl -> (i, b) ∈ Hs -> bl !! i = Some x ->
  (i < NBUF)%nat /\ b_dev x = dv /\ b_blockno x = b /\ b_data x = V b /\
  b_lock x = SleepLock 1 pid /\ i ∈ Hs.*1.
Proof.
  intros C Hi Hx. destruct (ca_held _ _ _ _ _ _ C i b Hi) as (Hlt & x' & Hx' & Hd & Hb).
  rewrite Hx in Hx'. injection Hx' as <-.
  destruct (ca_buf _ _ _ _ _ _ C i x Hlt Hx) as [Hl _ Hv]. destruct (Hv Hd) as [_ Hdata].
  assert (i ∈ Hs.*1) by (apply list_elem_of_fmap; by exists (i, b)).
  rewrite decide_True in Hl by done. subst b. by split_and!.
Qed.

(** Two buffers do not hold the same block. *)
Lemma cache_held_inj Hs P V w o bl i j b :
  cache Hs P V w o bl -> (i, b) ∈ Hs -> (j, b) ∈ Hs -> i = j.
Proof.
  intros C Hi Hj. destruct (ca_held _ _ _ _ _ _ C i b Hi) as (? & x & ? & ? & ?).
  destruct (ca_held _ _ _ _ _ _ C j b Hj) as (? & y & ? & ? & ?).
  eapply (ca_uniq _ _ _ _ _ _ C); eauto; congruence.
Qed.

(** With fewer claims than buffers, one is unused. *)
Lemma cache_free Hs P V w o bl :
  cache Hs P V w o bl -> (length Hs + length P < NBUF)%nat ->
  exists i x, (i < NBUF)%nat /\ bl !! i = Some x /\ b_refcnt x = 0.
Proof.
  intros C Hlen. destruct (first_of bl (fun x => b_refcnt x =? 0) (seq 0 NBUF)) as [i|] eqn:Hf.
  { apply first_of_Some in Hf as [Hi%elem_of_seq Hp].
    destruct (cache_lookup _ _ _ _ _ _ i C ltac:(lia)) as [x Hx].
    rewrite (nth_bl _ _ _ Hx) in Hp. exists i, x. split; [lia|]. split; [done|lia]. }
  exfalso. pose proof (first_of_None _ _ _ Hf) as Hn. clear Hf.
  set (L := filter (fun i => i ∉ Hs.*1) (seq 0 NBUF)).
  assert (HL : (length L <= length P)%nat).
  { set (blk := fun i => b_blockno (nth i bl buf_zero)).
    assert (Hb : forall i, i ∈ L -> (i < NBUF)%nat /\ exists x, bl !! i = Some x /\
      b_dev x = dv /\ b_blockno x ∈ P).
    { intros i [Hi Hs']%list_elem_of_filter. apply elem_of_seq in Hs' as Hlt.
      destruct (cache_lookup _ _ _ _ _ _ i C ltac:(lia)) as [x Hx]. split; [lia|]. exists x.
      split; [done|]. specialize (Hn i Hs'). rewrite (nth_bl _ _ _ Hx) in Hn.
      rewrite (bo_ref _ _ _ _ _ (ca_buf _ _ _ _ _ _ C i x ltac:(lia) Hx)) in Hn.
      rewrite decide_False in Hn by done. case_decide; [done|lia]. }
    rewrite <- (length_fmap blk). apply submseteq_length, NoDup_submseteq.
    - apply NoDup_fmap_2_strong; [|apply NoDup_filter, NoDup_seq].
      intros i j Hi Hj Heq. destruct (Hb i Hi) as (? & x & Hx & ? & ?).
      destruct (Hb j Hj) as (? & y & Hy & ? & ?). unfold blk in Heq.
      rewrite (nth_bl _ _ _ Hx), (nth_bl _ _ _ Hy) in Heq.
      by eapply (ca_uniq _ _ _ _ _ _ C i j x y).
    - intros b (i & -> & Hi)%list_elem_of_fmap. destruct (Hb i Hi) as (? & x & Hx & ? & ?).
      unfold blk. by rewrite (nth_bl _ _ _ Hx). }
  assert (HN : (length (seq 0 NBUF) <= length (Hs.*1 ++ L))%nat).
  { apply submseteq_length, NoDup_submseteq; [apply NoDup_seq|]. intros i Hi.
    apply elem_of_app. destruct (decide (i ∈ Hs.*1)) as [H|H]; [by left|right].
    by apply list_elem_of_filter. }
  rewrite length_seq, length_app, length_fmap in HN. lia.
Qed.

(** ** [bget] *)

Definition key (bn : Z) (x : buf) : bool := (b_dev x =? dv) && (b_blockno x =? bn).
Definition unused (x : buf) : bool := b_refcnt x =? 0.

(** The buffer [bget] chooses, with its new contents. *)
Definition bget_hit (x : buf) : buf := x.[b_refcnt := u32 (b_refcnt x + 1)].
Definition bget_miss (bn : Z) (x : buf) : buf :=
  x.[b_dev := dv].[b_blockno := bn].[b_valid := 0].[b_refcnt := 1].

Definition bget_choice bl o bn : option (nat * buf) :=
  match first_of bl (key bn) o with
  | Some b => Some (b, bget_hit (nth b bl buf_zero))
  | None => (fun b => (b, bget_miss bn (nth b bl buf_zero))) <$> first_of bl unused (rev o)
  end.

Lemma ring_chains bl o : ring bl o ->
  chain (nxt bl) bhead o bhead /\ chain (prv bl) bhead (rev o) bhead /\ bhead ∉ o /\
  (length o < S NBUF)%nat /\ (forall i, i ∈ o -> (i < length bl)%nat) /\
  exists h, bl !! bhead = Some h.
Proof.
  intros Hr. pose proof (ring_nodup _ _ Hr) as [Hh _]%NoDup_cons.
  pose proof Hr as (Hl & Hp & Hk). split_and!.
  - by eapply lnk_chain.
  - by eapply lnk_chain_rev.
  - done.
  - rewrite Hp, length_seq. lia.
  - intros i Hi%(ring_elem _ _ _ Hr). lia.
  - apply (ring_lookup bl o bhead Hr). done.
Qed.

(** The two traversals, from the head. *)
Lemma bfind_ring h s bl w k o hd p :
  at_ h s bl w k -> ring bl o -> bl !! bhead = Some hd ->
  bfind (S NBUF) b_next p (b_next hd) s = Ok (first_of bl p o) s /\
  bfind (S NBUF) b_prev p (b_prev hd) s = Ok (first_of bl p (rev o)) s.
Proof.
  intros A Hr Hhd. destruct (ring_chains _ _ Hr) as (C1 & C2 & Hn & Hlen & Hi & _).
  pose proof (at_bufs _ _ _ _ _ A) as Hb. rewrite <- (nth_bl _ _ _ Hhd), <- Hb in *. split.
  - by apply (bfind_chain b_next).
  - apply (bfind_chain b_prev); [done| |intros i Hx; apply Hi|by rewrite length_rev].
    + by rewrite list_elem_of_rev.
    + by apply elem_rev.
Qed.

Lemma bget_none s bl w k o bn :
  at_ [] s bl w k -> ring bl o -> bget_choice bl o bn = None -> bget dv bn s = Panic "bget: no buffers".
Proof.
  intros A Hr Hc. destruct (ring_chains _ _ Hr) as (_ & _ & _ & _ & _ & hd & Hhd).
  destruct A as [A1 A2]. destruct (acquire_running ci pid bcache_lock s A1) as [Hacq A1'].
  unfold bget. rewrite (bind_Ok _ _ _ _ _ Hacq).
  assert (A' : at_ [bcache_lock] (s.[held := [bcache_lock]]) bl w k) by (by split).
  erewrite bind_Ok by (by eapply at_getb).
  destruct (bfind_ring _ _ _ _ _ o hd (key bn) A' Hr Hhd) as [E1 _].
  rewrite (bind_Ok _ _ _ _ _ E1). unfold bget_choice in Hc.
  destruct (first_of bl (key bn) o); [done|].
  destruct (bfind_ring _ _ _ _ _ o hd unused A' Hr Hhd) as [_ E2].
  rewrite (bind_Ok _ _ _ _ _ E2). by destruct (first_of bl unused (rev o)).
Qed.

Lemma wp_bget s bl w k o bn b y Q :
  at_ [] s bl w k -> ring bl o -> bget_choice bl o bn = Some (b, y) -> b_lock y = SleepLock 0 0 ->
  (forall s', at_ [] s' (<[b := y.[b_lock := SleepLock 1 pid]]> bl) w k -> Q b s') ->
  wp (bget dv bn) Q s.
Proof.
  intros A Hr Hc Hl HQ. destruct (ring_chains _ _ Hr) as (_ & _ & _ & _ & Hin & hd & Hhd).
  assert (Hfin : forall s1, at_ [bcache_lock] s1 (<[b := y]> bl) w k -> (b < length bl)%nat ->
    wp (release bcache_lock;;; acquiresleep patience (buf_lock b);;; ret b) Q s1).
  { intros s1 A1 Hb. apply wp_seq. apply (wp_release _ _ _ _ _ _ A1). intros s2 A2. apply wp_seq.
    eapply wp_acquiresleep; [exact A2|by apply list_lookup_insert_eq|done|].
    intros s3 A3. apply wp_ret, HQ. by rewrite list_insert_insert_eq in A3. }
  unfold bget. apply wp_seq. apply (wp_acquire _ _ _ _ _ _ A). intros s1 A1. apply wp_seq.
  eapply wp_getb; [exact A1|exact Hhd|]. apply wp_seq.
  destruct (bfind_ring _ _ _ _ _ o hd (key bn) A1 Hr Hhd) as [E1 _]. unfold wp at 1.
  unfold key in E1. rewrite E1. clear E1.
  unfold bget_choice, key in Hc. destruct (first_of bl _ o) as [b'|] eqn:Hf.
  - injection Hc as -> <-. apply first_of_Some in Hf as [Hb _]. apply Hin in Hb.
    destruct (lookup_lt_is_Some_2 bl b Hb) as [x Hx]. apply wp_seq.
    eapply wp_modb; [exact A1|exact Hx|]. intros s2 A2. apply Hfin; [|done].
    by rewrite (nth_bl _ _ _ Hx).
  - apply wp_seq. destruct (bfind_ring _ _ _ _ _ o hd unused A1 Hr Hhd) as [_ E2]. unfold wp at 1.
    unfold unused in E2, Hc. rewrite E2. clear E2.
    destruct (first_of bl _ (rev o)) as [b'|] eqn:Hg; [|done].
    injection Hc as -> <-. apply first_of_Some in Hg as [Hb%elem_rev _]. apply Hin in Hb.
    destruct (lookup_lt_is_Some_2 bl b Hb) as [x Hx]. apply wp_seq.
    eapply wp_modb; [exact A1|exact Hx|]. intros s2 A2. apply Hfin; [|done].
    by rewrite (nth_bl _ _ _ Hx).
Qed.

(** The choice when the block is cached, and when it is not. *)
Lemma bget_choice_spec Hs P V w o bl bn :
  cache Hs P V w o bl -> bn ∉ Hs.*2 -> bn ∈ P \/ (length Hs + length P < NBUF)%nat ->
  exists b x, (b < NBUF)%nat /\ bl !! b = Some x /\ b ∉ Hs.*1 /\ b_lock x = SleepLock 0 0 /\
    ((b_dev x = dv /\ b_blockno x = bn /\ bget_choice bl o bn = Some (b, bget_hit x)) \/
     (b_refcnt x = 0 /\ bget_choice bl o bn = Some (b, bget_miss bn x) /\
      forall i y, (i < NBUF)%nat -> bl !! i = Some y -> b_dev y = dv -> b_blockno y <> bn)).
Proof.
  intros C Hbn Hlen. pose proof (ca_ring _ _ _ _ _ _ C) as Hr. unfold bget_choice.
  assert (Hlock : forall b x, (b < NBUF)%nat -> bl !! b = Some x -> b ∉ Hs.*1 -> b_lock x = SleepLock 0 0).
  { intros b x Hb Hx Hh. rewrite (bo_lock _ _ _ _ _ (ca_buf _ _ _ _ _ _ C b x Hb Hx)).
    by rewrite decide_False. }
  destruct (first_of bl (key bn) o) as [b|] eqn:Hf.
  - apply first_of_Some in Hf as [Hb Hk]. apply (ring_elem _ _ _ Hr) in Hb.
    destruct (cache_lookup _ _ _ _ _ _ b C Hb) as [x Hx]. rewrite (nth_bl _ _ _ Hx) in *.
    unfold key in Hk. apply andb_prop in Hk as [Hd Hk].
    assert (b ∉ Hs.*1).
    { intros ([i bn'] & Hi1 & Hi)%list_elem_of_fmap. simpl in Hi1. subst i.
      destruct (cache_held_block _ _ _ _ _ _ _ _ _ C Hi Hx) as (_ & _ & Hbb & _).
      apply Hbn, list_elem_of_fmap. exists (b, bn'). split; [simpl; lia|done]. }
    exists b, x. split_and!; try done; [by eapply Hlock|]. left. split_and!; [lia|lia|done].
  - pose proof (first_of_None _ _ _ Hf) as Hno.
    assert (Hnone : forall i y, (i < NBUF)%nat -> bl !! i = Some y -> b_dev y = dv -> b_blockno y <> bn).
    { intros i y Hi Hy Hd Hn. specialize (Hno i). rewrite (nth_bl _ _ _ Hy) in Hno.
      unfold key in Hno. specialize (Hno (proj2 (ring_elem _ _ i Hr) Hi)). lia. }
    destruct Hlen as [HP|Hlen].
    { destruct (ca_pin _ _ _ _ _ _ C bn HP) as (i & y & ? & ? & ? & ?). exfalso. by eapply (Hnone i y). }
    destruct (cache_free _ _ _ _ _ _ C Hlen) as (j & z & Hj & Hz & Hz0).
    destruct (first_of bl unused (rev o)) as [b|] eqn:Hg.
    2:{ assert (Hjo : j ∈ rev o) by (by apply list_elem_of_rev, (ring_elem _ _ _ Hr)).
        pose proof (first_of_None _ _ _ Hg j Hjo) as H. rewrite (nth_bl _ _ _ Hz) in H.
        unfold unused in H. lia. }
    apply first_of_Some in Hg as [Hb%elem_rev Hk]. apply (ring_elem _ _ _ Hr) in Hb.
    destruct (cache_lookup _ _ _ _ _ _ b C Hb) as [x Hx]. rewrite (nth_bl _ _ _ Hx) in *.
    unfold unused in Hk.
    assert (b ∉ Hs.*1).
    { intros Hin. pose proof (bo_ref _ _ _ _ _ (ca_buf _ _ _ _ _ _ C b x Hb Hx)) as Href.
      rewrite decide_True in Href by done. case_decide; lia. }
    exists b, x. split_and!; try done; [by eapply Hlock|]. right. split_and!; [lia|simpl; by rewrite (nth_bl _ _ _ Hx)|done].
Qed.

(** ** Transitions of the invariant *)

Lemma buf_ok_ext Hs P V Hs' P' V' i x :
  (i ∈ Hs'.*1 <-> i ∈ Hs.*1) -> (b_dev x = dv -> b_blockno x ∈ P' <-> b_blockno x ∈ P) ->
  (b_dev x = dv -> V' (b_blockno x) = V (b_blockno x)) -> buf_ok Hs P V i x -> buf_ok Hs' P' V' i x.
Proof.
  intros H1 H2 H3 [B1 B2 B3]. split.
  - rewrite B1. by rewrite (decide_ext _ _ _ _ H1).
  - rewrite B2. f_equal; [by rewrite (decide_ext _ _ _ _ H1)|].
    apply decide_ext. split; intros [Hd ?]; (split; [done|by apply H2]).
  - intros Hd. rewrite H3 by done. by apply B3.
Qed.

(** A store to buffer [b] that makes it a buffer of the disk. *)
Lemma cache_set Hs P V w o bl b x y Hs' P' V' w' :
  cache Hs P V w o bl -> (b < NBUF)%nat -> bl !! b = Some x ->
  b_next y = b_next x -> b_prev y = b_prev x -> b_dev y = dv ->
  (forall i z, i <> b -> (i < NBUF)%nat -> bl !! i = Some z -> b_dev z = dv -> b_blockno z <> b_blockno y) ->
  buf_ok Hs' P' V' b y ->
  (forall i z, i <> b -> (i < NBUF)%nat -> bl !! i = Some z -> buf_ok Hs P V i z -> buf_ok Hs' P' V' i z) ->
  (forall i c, (i, c) ∈ Hs' -> (i, c) = (b, b_blockno y) \/ (i <> b /\ (i, c) ∈ Hs)) ->
  NoDup Hs'.*1 ->
  (forall c, c ∈ P' -> c = b_blockno y \/ (c ∈ P /\ ~ (b_dev x = dv /\ b_blockno x = c))) ->
  (forall c, c ∉ P' -> c ∉ Hs'.*2 -> V' c = content d0 w' c) ->
  cache Hs' P' V' w' o (<[b := y]> bl).
Proof.
  intros [Cr Cb Cu Ch Cn Cp Cc] Hb Hx Hnx Hpv Hd Hne Hy Hoth Hh Hnd Hp Hcl.
  pose proof (lookup_lt_Some _ _ _ Hx) as Hlt. split.
  - by apply (ring_insert _ _ _ x).
  - intros i z Hi [[-> ->]|[Hib Hz]]%insert_cases; [done|eauto].
  - intros i j z z' Hi Hj [[-> ->]|[Hib Hz]]%insert_cases [[-> ->]|[Hjb Hz']]%insert_cases;
      intros; [done|exfalso; eapply (Hne j); eauto|exfalso; eapply (Hne i); eauto|eauto].
  - intros i c Hi. destruct (Hh i c Hi) as [[= -> ->]|[Hib Hi']].
    + split; [done|]. exists y. split; [by eapply insert_same|done].
    + destruct (Ch i c Hi') as (? & z & ? & ? & ?). split; [done|]. exists z.
      by rewrite list_lookup_insert_ne.
  - done.
  - intros c Hc. destruct (Hp c Hc) as [->|[Hc' Hnx']].
    + exists b, y. split; [done|]. split; [by eapply insert_same|done].
    + destruct (Cp c Hc') as (i & z & Hi & Hz & Hdz & Hbz). exists i, z. split; [done|].
      rewrite list_lookup_insert_ne; [done|]. intros ->. apply Hnx'. rewrite Hx in Hz. by injection Hz as ->.
  - done.
Qed.

Lemma fst_cons {A B} (a : A) (b : B) l : ((a, b) :: l).*1 = a :: l.*1. Proof. done. Qed.
Lemma snd_cons {A B} (a : A) (b : B) l : ((a, b) :: l).*2 = b :: l.*2. Proof. done. Qed.

Lemma held_cons_other (Hs : list (nat * Z)) b c i : i <> b -> i ∈ ((b, c) :: Hs).*1 <-> i ∈ Hs.*1.
Proof. intros. rewrite fst_cons, elem_of_cons. naive_solver. Qed.

(** A free buffer of the block becomes locked by this thread. *)
Lemma cache_lock_buf Hs P V w o bl b x bn :
  cache Hs P V w o bl -> (b < NBUF)%nat -> bl !! b = Some x -> b ∉ Hs.*1 ->
  b_dev x = dv -> b_blockno x = bn ->
  cache ((b, bn) :: Hs) P V w o (<[b := (bget_hit x).[b_lock := SleepLock 1 pid]]> bl).
Proof.
  intros C Hb Hx Hn Hd Hbn. pose proof (ca_buf _ _ _ _ _ _ C b x Hb Hx) as [B1 B2 B3].
  eapply cache_set; try done.
  - intros i z Hi Hi' Hz Hdz Heq. apply Hi. by eapply (ca_uniq _ _ _ _ _ _ C i b z x).
  - split; simpl.
    + by rewrite decide_True by left.
    + rewrite decide_True by left. rewrite B2, decide_False by done.
      destruct (decide (b_dev x = dv /\ b_blockno x ∈ P)); rewrite u32_small; lia.
    + done.
  - intros i z Hi _ _. apply buf_ok_ext; [by apply held_cons_other|done..].
  - intros i c [[= -> ->]|Hi]%elem_of_cons; [left; simpl; by subst|right]. split; [|done].
    intros ->. apply Hn, list_elem_of_fmap. by exists (b, c).
  - rewrite fst_cons. apply NoDup_cons. split; [done|apply C].
  - simpl. intros c Hc. destruct (decide (b_blockno x = c)) as [->|Hne]; [by left|right]. naive_solver.
  - intros c Hc Hc'. apply C; [done|]. rewrite snd_cons in Hc'. set_solver.
Qed.

(** An unused buffer takes over an uncached block and is filled from disk. *)
Lemma cache_recycle Hs P V w o bl b x bn :
  cache Hs P V w o bl -> (b < NBUF)%nat -> bl !! b = Some x -> b_refcnt x = 0 -> bn ∉ Hs.*2 ->
  (forall i y, (i < NBUF)%nat -> bl !! i = Some y -> b_dev y = dv -> b_blockno y <> bn) ->
  cache ((b, bn) :: Hs) P V w o
    (<[b := (bget_miss bn x).[b_lock := SleepLock 1 pid].[b_data := content d0 w bn].[b_valid := 1]]> bl).
Proof.
  intros C Hb Hx Hr Hbn Hno. pose proof (ca_buf _ _ _ _ _ _ C b x Hb Hx) as [B1 B2 B3].
  assert (HP : bn ∉ P).
  { intros H. destruct (ca_pin _ _ _ _ _ _ C bn H) as (i & y & ? & ? & ? & ?). by eapply (Hno i y). }
  assert (Hn : b ∉ Hs.*1) by (intros H; rewrite decide_True in B2 by done; case_decide; lia).
  rewrite decide_False in B2 by done.
  assert (Hnp : ~ (b_dev x = dv /\ b_blockno x ∈ P)) by (intros H; rewrite decide_True in B2 by done; lia).
  eapply cache_set; try done.
  - intros i z _ Hi Hz Hdz. by apply (Hno i z).
  - split; simpl.
    + by rewrite decide_True by left.
    + rewrite decide_True by left. by rewrite decide_False by (intros [_ ?]; done).
    + intros _. split; [done|]. symmetry. by apply C.
  - intros i z Hi _ _. apply buf_ok_ext; [by apply held_cons_other|done..].
  - intros i c [[= -> ->]|Hi]%elem_of_cons; [by left|right]. split; [|done].
    intros ->. apply Hn, list_elem_of_fmap. by exists (b, c).
  - rewrite fst_cons. apply NoDup_cons. split; [done|apply C].
  - intros c Hc. right. split; [done|]. intros [? <-]. by apply Hnp.
  - intros c Hc Hc'. apply C; [done|]. rewrite snd_cons in Hc'. set_solver.
Qed.

(** ** [bread]: the locked buffer holds the block as the cache sees it *)
Lemma wp_bread Hs P V s bl w k o bn Q :
  at_ [] s bl w k -> cache Hs P V w o bl -> bn ∉ Hs.*2 ->
  bn ∈ P \/ (length Hs + length P < NBUF)%nat ->
  (forall b bl' s', at_ [] s' bl' w k -> cache ((b, bn) :: Hs) P V w o bl' -> Q b s') ->
  wp (bread dv bn) Q s.
Proof.
  intros A C Hbn Hlen HQ. pose proof (ca_ring _ _ _ _ _ _ C) as Hr.
  destruct (bget_choice_spec _ _ _ _ _ _ _ C Hbn Hlen) as (b & x & Hb & Hx & Hn & Hl & Hc).
  unfold bread. apply wp_seq.
  destruct Hc as [(Hd & Hbb & Hc)|(Href & Hc & Hno)].
  - eapply wp_bget; [exact A|exact Hr|exact Hc|done|]. intros s1 A1.
    pose proof (cache_lock_buf _ _ _ _ _ _ _ _ bn C Hb Hx Hn Hd Hbb) as C1.
    apply wp_seq. eapply wp_getb; [exact A1|by eapply insert_same|].
    destruct (bo_valid _ _ _ _ _ (ca_buf _ _ _ _ _ _ C b x Hb Hx) Hd) as [Hv _].
    apply wp_seq. simpl b_valid. rewrite Hv. simpl. apply wp_ret, wp_ret. eauto.
  - eapply wp_bget; [exact A|exact Hr|exact Hc|done|]. intros s1 A1.
    pose proof (cache_recycle _ _ _ _ _ _ _ _ bn C Hb Hx Href Hbn Hno) as C1.
    apply wp_seq. eapply wp_getb; [exact A1|by eapply insert_same|].
    apply wp_seq. match goal with |- wp (if ?c then _ else _) _ _ => change c with true end.
    cbv iota. apply wp_seq. unfold virtio_disk_rw. apply wp_seq.
    eapply wp_getb; [exact A1|by eapply insert_same|]. apply wp_seq.
    eapply wp_exec; [apply disk_read_sync|]. rewrite (at_dget _ _ _ _ _ A1).
    eapply wp_modb; [exact A1|by eapply insert_same|]. intros s2 A2. rewrite list_insert_insert_eq in A2.
    eapply wp_modb; [exact A2|by eapply insert_same|]. intros s3 A3. rewrite list_insert_insert_eq in A3.
    apply wp_ret. eauto.
Qed.

(** ** Writing *)

Lemma cache_perm Hs Hs' P V w o bl : Permutation Hs Hs' -> cache Hs P V w o bl -> cache Hs' P V w o bl.
Proof.
  intros Hp [Cr Cb Cu Ch Cn Cpn Cc].
  assert (Hiff : forall i, i ∈ Hs'.*1 <-> i ∈ Hs.*1) by (intros i; by rewrite Hp).
  split; try done.
  - intros i x Hi Hx. eapply buf_ok_ext; [apply Hiff|done..|by apply Cb].
  - intros i b Hi. apply Ch. by rewrite Hp.
  - by rewrite <- Hp.
  - intros b Hb Hb2. apply Cc; [done|]. by rewrite Hp.
Qed.

Lemma cache_set_data Hs P V w o bl b bn x d :
  cache Hs P V w o bl -> (b, bn) ∈ Hs -> bl !! b = Some x ->
  cache Hs P (vset V bn d) w o (<[b := x.[b_data := d]]> bl).
Proof.
  intros C Hi Hx. destruct (cache_held_block _ _ _ _ _ _ _ _ _ C Hi Hx) as (Hb & Hd & Hbn & _ & _ & Hin).
  pose proof (ca_buf _ _ _ _ _ _ C b x Hb Hx) as [B1 B2 B3].
  assert (Hsep : forall i z, i <> b -> (i < NBUF)%nat -> bl !! i = Some z -> b_dev z = dv -> b_blockno z <> bn).
  { intros i z Hib Hlt Hz Hdz Heq. apply Hib. eapply (ca_uniq _ _ _ _ _ _ C i b z x); congruence. }
  eapply cache_set; try done; simpl; rewrite ?Hbn.
  - done.
  - split; [done|done|]. intros _. split; [by apply B3|]. simpl. unfold vset. by rewrite Hbn, Z.eqb_refl.
  - intros i z Hib Hlt Hz. apply buf_ok_ext; [done..|]. intros Hdz. unfold vset.
    by rewrite (proj2 (Z.eqb_neq _ _) (Hsep i z Hib Hlt Hz Hdz)).
  - intros i c Hic. destruct (decide (i = b)) as [->|Hib]; [left|by right].
    destruct (cache_held_block _ _ _ _ _ _ _ _ _ C Hic Hx) as (_ & _ & Hc & _). congruence.
  - apply C.
  - intros c Hc. destruct (decide (c = bn)) as [->|Hne]; [by left|right]. split; [done|]. naive_solver.
  - intros c Hc Hc2. unfold vset. destruct (Z.eqb_spec c bn) as [->|_]; [|by apply C].
    exfalso. apply Hc2, list_elem_of_fmap. by exists (b, bn).
Qed.

Lemma cache_write Hs P V w o bl bn :
  cache Hs P V w o bl -> cache Hs P V (w ++ [(bn, V bn)]) o bl.
Proof.
  intros [Cr Cb Cu Ch Cn Cpn Cc]. split; try done. intros b Hb Hb2. rewrite content_snoc.
  destruct (Z.eqb_spec bn b) as [->|]; [done|by apply Cc].
Qed.

Lemma wp_bdata Hs P V s bl w k o b bn Q :
  at_ [] s bl w k -> cache Hs P V w o bl -> (b, bn) ∈ Hs -> Q (V bn) s -> wp (bdata b) Q s.
Proof.
  intros A C Hi HQ. destruct (ca_held _ _ _ _ _ _ C b bn Hi) as (Hb & x & Hx & _).
  destruct (cache_held_block _ _ _ _ _ _ _ _ _ C Hi Hx) as (_ & _ & _ & Hdat & _).
  apply wp_seq. eapply wp_getb; [exact A|exact Hx|]. apply wp_ret. by rewrite Hdat.
Qed.

Lemma wp_set_bdata Hs P V s bl w k o b bn d Q :
  at_ [] s bl w k -> cache Hs P V w o bl -> (b, bn) ∈ Hs ->
  (forall bl' s', at_ [] s' bl' w k -> cache Hs P (vset V bn d) w o bl' -> Q tt s') ->
  wp (set_bdata b d) Q s.
Proof.
  intros A C Hi HQ. destruct (ca_held _ _ _ _ _ _ C b bn Hi) as (Hb & x & Hx & _).
  eapply wp_modb; [exact A|exact Hx|]. intros s' A'. eapply HQ; [exact A'|by eapply cache_set_data].
Qed.

Lemma wp_bwrite Hs P V s bl w k o b bn Q :
  at_ [] s bl w k -> cache Hs P V w o bl -> (b, bn) ∈ Hs ->
  (forall s', at_ [] s' bl (w ++ [(bn, V bn)]) k -> cache Hs P V (w ++ [(bn, V bn)]) o bl -> Q tt s') ->
  wp (bwrite b) Q s.
Proof.
  intros A C Hi HQ. destruct (ca_held _ _ _ _ _ _ C b bn Hi) as (Hb & x & Hx & _).
  destruct (cache_held_block _ _ _ _ _ _ _ _ _ C Hi Hx) as (_ & _ & Hbn & Hdat & Hl & _).
  unfold bwrite. apply wp_seq. eapply wp_holdingsleep; [exact A|exact Hx|exact Hl|].
  simpl negb. cbv iota. unfold virtio_disk_rw. apply wp_seq.
  eapply wp_getb; [exact A|exact Hx|]. eapply wp_exec; [apply disk_write_sync|].
  rewrite Hbn, Hdat, (at_dget _ _ _ _ _ A). apply HQ; [|by apply cache_write].
  destruct A as [A1 A2]. split; [done|]. unfold bio. simpl. rewrite A2. unfold putk. simpl.
  by rewrite dset_dset.
Qed.

(** ** [brelse] *)

Lemma same_buf_ok Hs P V i x y : same_buf x y -> buf_ok Hs P V i x -> buf_ok Hs P V i y.
Proof.
  intros (E1 & E2 & E3 & E4 & E5 & E6 & E7) [B1 B2 B3].
  split; rewrite ?E1, ?E3, ?E4, ?E5, ?E6, ?E7; done.
Qed.

Lemma cache_relink Hs P V w o o' bl bl' :
  cache Hs P V w o bl -> same_bufs bl bl' -> ring bl' o' -> cache Hs P V w o' bl'.
Proof.
  intros [Cr Cb Cu Ch Cn Cpn Cc] [Hlen Hsame] Hr.
  assert (Hback : forall i x, bl !! i = Some x -> exists y, bl' !! i = Some y /\ same_buf x y).
  { intros i x Hx. destruct (lookup_lt_is_Some_2 bl' i) as [y Hy].
    { rewrite Hlen. by eapply lookup_lt_Some. }
    destruct (Hsame i y Hy) as (x' & Hx' & E). rewrite Hx in Hx'. injection Hx' as <-. eauto. }
  split; try done.
  - intros i y Hi Hy. destruct (Hsame i y Hy) as (x & Hx & E). eapply same_buf_ok; [exact E|by apply Cb].
  - intros i j y y' Hi Hj Hy Hy'. destruct (Hsame i y Hy) as (x & Hx & _ & _ & -> & -> & _).
    destruct (Hsame j y' Hy') as (x' & Hx' & _ & _ & -> & -> & _). by apply Cu.
  - intros i b Hi. destruct (Ch i b Hi) as (Hlt & x & Hx & Hd & Hb). split; [done|].
    destruct (Hback i x Hx) as (y & Hy & _ & _ & E3 & E4 & _). exists y. by rewrite E3, E4.
  - intros b Hb. destruct (Cpn b Hb) as (i & x & Hlt & Hx & Hd & Hbb).
    destruct (Hback i x Hx) as (y & Hy & _ & _ & E3 & E4 & _). exists i, y. by rewrite E3, E4.
Qed.

(** The lock and one reference are given up. *)
Definition unlocked (x : buf) : buf := x.[b_lock := SleepLock 0 0].[b_refcnt := u32 (b_refcnt x - 1)].

Lemma cache_unlock Hs P V w o bl b bn x :
  cache ((b, bn) :: Hs) P V w o bl -> bl !! b = Some x -> (bn ∈ P \/ V bn = content d0 w bn) ->
  cache Hs P V w o (<[b := unlocked x]> bl).
Proof.
  intros C Hx Hcl. assert (Hi : (b, bn) ∈ (b, bn) :: Hs) by left.
  destruct (cache_held_block _ _ _ _ _ _ _ _ _ C Hi Hx) as (Hb & Hd & Hbn & Hdat & _ & Hin).
  pose proof (ca_buf _ _ _ _ _ _ C b x Hb Hx) as [B1 B2 B3].
  pose proof (ca_hnd _ _ _ _ _ _ C) as Hnd. rewrite fst_cons in Hnd. apply NoDup_cons in Hnd as [Hn Hnd].
  eapply cache_set; try done.
  - intros i z Hib Hlt Hz Hdz Heq. simpl in Heq. apply Hib. by eapply (ca_uniq _ _ _ _ _ _ C i b z x).
  - split; simpl.
    + by rewrite decide_False.
    + rewrite B2, decide_True, (decide_False (P := b ∈ Hs.*1)) by done.
      destruct (decide (b_dev x = dv /\ b_blockno x ∈ P)); rewrite u32_small; lia.
    + done.
  - intros i z Hib _ _. apply buf_ok_ext; [symmetry; by apply held_cons_other|done..].
  - intros i c Hic. right. split; [|by right]. intros ->. apply Hn, list_elem_of_fmap. by exists (b, c).
  - intros c Hc. simpl. destruct (decide (b_blockno x = c)) as [->|Hne]; [by left|right]. naive_solver.
  - intros c Hc Hc2. destruct (decide (c = bn)) as [->|Hne]; [by destruct Hcl|].
    apply C; [done|]. rewrite snd_cons. intros [->|?]%elem_of_cons; done.
Qed.

(** The stores to the links, executed. *)
Lemma wp_relink h s bl w k i f Q :
  at_ h s bl w k -> length bl = S NBUF -> (i <= NBUF)%nat ->
  (forall s', at_ h s' (<[i := f (nth i bl buf_zero)]> bl) w k -> Q tt s') -> wp (modb i f) Q s.
Proof.
  intros A Hl Hi HQ. destruct (lookup_lt_is_Some_2 bl i ltac:(lia)) as [z Hz].
  eapply wp_modb; [exact A|exact Hz|]. intros s' A'. apply HQ. by rewrite (nth_bl _ _ _ Hz).
Qed.

Lemma wp_unlink {B} h s bl w k o b x (m : M St B) Q :
  at_ h s bl w k -> ring bl o -> (b < NBUF)%nat -> bl !! b = Some x ->
  (forall s', at_ h s' (unlink bl b) w k -> wp m Q s') ->
  wp (modb (b_next x) (fun y => y.[b_prev := b_prev x]);;;
      modb (b_prev x) (fun y => y.[b_next := b_next x]);;; m) Q s.
Proof.
  intros A Hr Hb Hx HQ. pose proof (proj1 Hr) as Hl.
  destruct (ring_links _ _ b Hr ltac:(lia)) as [Hn Hp].
  assert (En : nxt bl b = b_next x) by (unfold nxt; by rewrite (nth_bl _ _ _ Hx)).
  assert (Ep : prv bl b = b_prev x) by (unfold prv; by rewrite (nth_bl _ _ _ Hx)).
  unfold unlink in HQ. rewrite En, Ep in *.
  apply wp_seq. eapply wp_relink; [exact A|done|done|]. intros s1 A1.
  apply wp_seq. eapply wp_relink; [exact A1|by rewrite length_insert|done|]. intros s2 A2. by apply HQ.
Qed.

Lemma wp_push h s bl w k b Q :
  at_ h s bl w k -> length bl = S NBUF -> (nxt bl bhead <= NBUF)%nat -> (b < NBUF)%nat ->
  (forall s', at_ h s' (push bl b) w k -> Q tt s') ->
  wp (let* h := getb bhead in
      modb b (fun y => y.[b_next := b_next h]);;;
      modb b (fun y => y.[b_prev := bhead]);;;
      modb (b_next h) (fun y => y.[b_prev := b]);;;
      modb bhead (fun y => y.[b_next := b])) Q s.
Proof.
  intros A Hl Hf Hb HQ. destruct (lookup_lt_is_Some_2 bl bhead ltac:(unfold bhead; lia)) as [hd Hhd].
  assert (Ef : nxt bl bhead = b_next hd) by (unfold nxt; by rewrite (nth_bl _ _ _ Hhd)).
  unfold push in HQ. rewrite Ef in *.
  apply wp_seq. eapply wp_getb; [exact A|exact Hhd|].
  apply wp_seq. eapply wp_relink; [exact A|done|lia|]. intros s1 A1.
  apply wp_seq. eapply wp_relink; [exact A1|by rewrite !length_insert|lia|]. intros s2 A2.
  apply wp_seq. eapply wp_relink; [exact A2|by rewrite !length_insert|lia|]. intros s3 A3.
  eapply wp_relink; [exact A3|by rewrite !length_insert|unfold bhead; lia|]. intros s4 A4. by apply HQ.
Qed.

Lemma wp_brelse Hs P V s bl w k o b bn Q :
  at_ [] s bl w k -> cache ((b, bn) :: Hs) P V w o bl -> (bn ∈ P \/ V bn = content d0 w bn) ->
  (forall o' bl' s', at_ [] s' bl' w k -> cache Hs P V w o' bl' -> Q tt s') ->
  wp (brelse b) Q s.
Proof.
  intros A C Hcl HQ. assert (Hi : (b, bn) ∈ (b, bn) :: Hs) by left.
  destruct (ca_held _ _ _ _ _ _ C b bn Hi) as (Hb & x & Hx & _).
  destruct (cache_held_block _ _ _ _ _ _ _ _ _ C Hi Hx) as (_ & _ & _ & _ & Hl & _).
  pose proof (cache_unlock _ _ _ _ _ _ _ _ _ C Hx Hcl) as C1.
  unfold brelse. apply wp_seq. eapply wp_holdingsleep; [exact A|exact Hx|exact Hl|].
  simpl negb. cbv iota. apply wp_seq. eapply wp_releasesleep; [exact A|exact Hx|]. intros s1 A1.
  apply wp_seq. apply (wp_acquire _ _ _ _ _ _ A1). intros s2 A2. apply wp_seq.
  eapply wp_modb; [exact A2|by eapply insert_same|]. intros s3 A3. rewrite list_insert_insert_eq in A3.
  assert (Hy : <[b := unlocked x]> bl !! b = Some (unlocked x)) by by eapply insert_same.
  change (<[b := _]> bl) with (<[b := unlocked x]> bl) in A3. set (bl1 := <[b := unlocked x]> bl) in *.
  apply wp_seq. eapply wp_getb; [exact A3|exact Hy|]. apply wp_seq.
  destruct (b_refcnt (unlocked x) =? 0).
  - pose proof (ca_ring _ _ _ _ _ _ C1) as Hr.
    assert (Hbo : b ∈ o) by (by apply (ring_elem _ _ _ Hr)).
    apply list_elem_of_split in Hbo as (l1 & l2 & ->).
    destruct (ring_unlink _ _ _ _ Hr) as (_ & Hf & Hlu).
    eapply wp_unlink; [exact A3|exact Hr|done|exact Hy|]. intros s4 A4.
    eapply wp_push; [exact A4|done|done|done|]. intros s5 A5.
    apply (wp_release _ _ _ _ _ _ A5). intros s6 A6. eapply HQ; [exact A6|].
    eapply cache_relink; [exact C1|apply to_front_same|by apply ring_to_front].
  - apply wp_ret. apply (wp_release _ _ _ _ _ _ A3). intros s4 A4. eauto.
Qed.

(** ** Pinning *)

Lemma cache_perm_pin Hs P P' V w o bl : Permutation P P' -> cache Hs P V w o bl -> cache Hs P' V w o bl.
Proof.
  intros Hp [Cr Cb Cu Ch Cn Cpn Cc]. split; try done.
  - intros i x Hi Hx. apply (buf_ok_ext Hs P V); [done|intros _; by rewrite Hp|done|by apply Cb].
  - intros b Hb. apply Cpn. by rewrite Hp.
  - intros b Hb Hb2. apply Cc; [by rewrite Hp|done].
Qed.

(** Adding or removing the claim of the log on a locked block. *)
Lemma cache_repin Hs P P' V w o bl b bn x r :
  cache Hs P V w o bl -> (b, bn) ∈ Hs -> bl !! b = Some x ->
  (forall c, c <> bn -> c ∈ P' <-> c ∈ P) ->
  r = 1 + (if decide (bn ∈ P') then 1 else 0) ->
  cache Hs P' V w o (<[b := x.[b_refcnt := r]]> bl).
Proof.
  intros C Hi Hx HP ->. destruct (cache_held_block _ _ _ _ _ _ _ _ _ C Hi Hx) as (Hb & Hd & Hbn & _ & _ & Hin).
  pose proof (ca_buf _ _ _ _ _ _ C b x Hb Hx) as [B1 B2 B3].
  assert (Hsep : forall i z, i <> b -> (i < NBUF)%nat -> bl !! i = Some z -> b_dev z = dv -> b_blockno z <> bn).
  { intros i z Hib Hlt Hz Hdz Heq. apply Hib. eapply (ca_uniq _ _ _ _ _ _ C i b z x); congruence. }
  eapply cache_set; [exact C|done|exact Hx|done|done|done|simpl; by rewrite Hbn|..]; simpl; rewrite ?Hbn.
  - split; [done| |done]. simpl. rewrite (decide_True (P := b ∈ Hs.*1)) by done. f_equal. rewrite Hbn.
    apply decide_ext. naive_solver.
  - intros i z Hib Hlt Hz. apply buf_ok_ext; [done| |done]. intros Hdz. by apply HP, (Hsep i z).
  - intros i c Hic. destruct (decide (i = b)) as [->|Hib]; [left|by right].
    destruct (cache_held_block _ _ _ _ _ _ _ _ _ C Hic Hx) as (_ & _ & Hc & _). congruence.
  - apply C.
  - intros c Hc. destruct (decide (c = bn)) as [->|Hne]; [by left|right]. split; [by apply HP|]. naive_solver.
  - intros c Hc Hc2. apply C; [|done]. rewrite <- HP; [done|]. intros ->. apply Hc2, list_elem_of_fmap.
    by exists (b, bn).
Qed.

Lemma cache_held_ref Hs P V w o bl b bn x :
  cache Hs P V w o bl -> (b, bn) ∈ Hs -> bl !! b = Some x ->
  b_refcnt x = 1 + (if decide (bn ∈ P) then 1 else 0).
Proof.
  intros C Hi Hx. destruct (cache_held_block _ _ _ _ _ _ _ _ _ C Hi Hx) as (Hb & Hd & Hbn & _ & _ & Hin).
  rewrite (bo_ref _ _ _ _ _ (ca_buf _ _ _ _ _ _ C b x Hb Hx)), decide_True by done. f_equal.
  apply decide_ext. rewrite Hbn. naive_solver.
Qed.

Lemma wp_pin h (f : Z -> Z) Hs P P' V s bl w k o b bn Q :
  at_ h s bl w k -> bcache_lock ∉ h -> cache Hs P V w o bl -> (b, bn) ∈ Hs ->
  (forall c, c <> bn -> c ∈ P' <-> c ∈ P) ->
  f (1 + (if decide (bn ∈ P) then 1 else 0)) = 1 + (if decide (bn ∈ P') then 1 else 0) ->
  (forall bl' s', at_ h s' bl' w k -> cache Hs P' V w o bl' -> Q tt s') ->
  wp (acquire bcache_lock;;; modb b (fun x => x.[b_refcnt := f (b_refcnt x)]);;; release bcache_lock) Q s.
Proof.
  intros A Hh C Hi HP Hf HQ. destruct (ca_held _ _ _ _ _ _ C b bn Hi) as (Hb & x & Hx & _).
  apply wp_seq. apply (wp_acquire_in _ _ _ _ _ _ _ A Hh). intros s1 A1. apply wp_seq.
  eapply wp_modb; [exact A1|exact Hx|]. intros s2 A2. apply (wp_release_in _ _ _ _ _ _ _ A2 Hh). intros s3 A3.
  eapply HQ; [exact A3|]. eapply cache_repin; [exact C|exact Hi|exact Hx|done|].
  by rewrite (cache_held_ref _ _ _ _ _ _ _ _ _ C Hi Hx).
Qed.

Lemma wp_bpin h Hs P V s bl w k o b bn Q :
  at_ h s bl w k -> bcache_lock ∉ h -> cache Hs P V w o bl -> (b, bn) ∈ Hs -> bn ∉ P ->
  (forall bl' s', at_ h s' bl' w k -> cache Hs (bn :: P) V w o bl' -> Q tt s') ->
  wp (bpin b) Q s.
Proof.
  intros A Hh C Hi Hn HQ. eapply (wp_pin h (fun r => u32 (r + 1)) Hs P (bn :: P)); [exact A|exact Hh|exact C|exact Hi| | |done].
  - intros c Hc. rewrite elem_of_cons. naive_solver.
  - rewrite decide_False, decide_True by (done || by left). done.
Qed.

Lemma wp_bunpin h Hs P V s bl w k o b bn Q :
  at_ h s bl w k -> bcache_lock ∉ h -> cache Hs (bn :: P) V w o bl -> (b, bn) ∈ Hs -> bn ∉ P ->
  (forall bl' s', at_ h s' bl' w k -> cache Hs P V w o bl' -> Q tt s') ->
  wp (bunpin b) Q s.
Proof.
  intros A Hh C Hi Hn HQ. eapply (wp_pin h (fun r => u32 (r - 1)) Hs (bn :: P) P); [exact A|exact Hh|exact C|exact Hi| | |done].
  - intros c Hc. rewrite elem_of_cons. naive_solver.
  - rewrite decide_True, decide_False by (done || by left). done.
Qed.

(** ** Theorems *)

(** [bget] returns the buffer that caches the block when there is one, and
    otherwise recycles the least recently used buffer without references; it
    returns it locked by the caller with one more reference, and panics exactly
    when every buffer is in use. *)
Theorem bget_lru s bl w k o bn :
  at_ [] s bl w k -> ring bl o ->
  (forall b x, bl !! b = Some x -> (b_refcnt x = 0 \/ b_dev x = dv /\ b_blockno x = bn) ->
     b_lock x = SleepLock 0 0) ->
  match bget_choice bl o bn with
  | Some (b, y) => exists s', bget dv bn s = Ok b s' /\
      at_ [] s' (<[b := y.[b_lock := SleepLock 1 pid]]> bl) w k
  | None => bget dv bn s = Panic "bget: no buffers"
  end.
Proof.
  intros A Hr Hl. destruct (bget_choice bl o bn) as [[b y]|] eqn:Hc; [|by eapply bget_none].
  assert (Hy : b_lock y = SleepLock 0 0).
  { unfold bget_choice in Hc. destruct (ring_chains _ _ Hr) as (_ & _ & _ & _ & Hin & _).
    destruct (first_of bl (key bn) o) as [b'|] eqn:Hf.
    - injection Hc as -> <-. apply first_of_Some in Hf as [Hb%Hin Hk].
      destruct (lookup_lt_is_Some_2 bl b Hb) as [x Hx]. rewrite (nth_bl _ _ _ Hx) in *.
      apply (Hl b x Hx). right. unfold key in Hk. lia.
    - destruct (first_of bl unused (rev o)) as [b'|] eqn:Hg; [|done]. injection Hc as -> <-.
      apply first_of_Some in Hg as [Hb%elem_rev%Hin Hk].
      destruct (lookup_lt_is_Some_2 bl b Hb) as [x Hx]. rewrite (nth_bl _ _ _ Hx) in *.
      apply (Hl b x Hx). left. unfold unused in Hk. lia. }
  assert (H : wp (bget dv bn) (fun r s' => r = b /\
    at_ [] s' (<[b := y.[b_lock := SleepLock 1 pid]]> bl) w k) s) by (eapply wp_bget; eauto).
  apply wp_Ok in H as (r & s' & E & -> & A'). eauto.
Qed.

(** C17: through the cache every reader sees the last data written: [bread]
    returns a locked buffer with the block's current contents, whether cached
    or on disk, and keeps the cache invariant (one buffer per block, clean
    unless locked or pinned); [brelse] of a clean or pinned block keeps it
    too and gives the lock up. *)
Theorem bread_coherent Hs P V s bl w k o bn :
  at_ [] s bl w k -> cache Hs P V w o bl -> bn ∉ Hs.*2 ->
  bn ∈ P \/ (length Hs + length P < NBUF)%nat ->
  exists b s' bl' x, bread dv bn s = Ok b s' /\ at_ [] s' bl' w k /\
    cache ((b, bn) :: Hs) P V w o bl' /\
    bl' !! b = Some x /\ b_data x = V bn /\ b_lock x = SleepLock 1 pid /\
    (bn ∈ P \/ V bn = content d0 w bn ->
     exists s'' o'' bl'', brelse b s' = Ok tt s'' /\ at_ [] s'' bl'' w k /\ cache Hs P V w o'' bl'').
Proof.
  intros A C Hbn Hlen.
  assert (H : wp (bread dv bn) (fun b s' => exists bl', at_ [] s' bl' w k /\
    cache ((b, bn) :: Hs) P V w o bl') s) by (eapply wp_bread; eauto).
  apply wp_Ok in H as (b & s' & E & bl' & A' & C'). assert (Hi : (b, bn) ∈ (b, bn) :: Hs) by left.
  destruct (ca_held _ _ _ _ _ _ C' b bn Hi) as (_ & x & Hx & _).
  destruct (cache_held_block _ _ _ _ _ _ _ _ _ C' Hi Hx) as (_ & _ & _ & Hdat & Hl & _).
  exists b, s', bl', x. split_and!; try done. intros Hcl.
  assert (H : wp (brelse b) (fun _ s'' => exists o'' bl'', at_ [] s'' bl'' w k /\
    cache Hs P V w o'' bl'') s') by (eapply wp_brelse; eauto).
  apply wp_Ok in H as ([] & s'' & E2 & o'' & bl'' & A'' & C''). by exists s'', o'', bl''.
Qed.
End biothm.

(** ** Initialisation *)

Section binit.
Context {R : Type} {dd : DiskDriver R}.

Lemma cache_start pid dv d0 (V : Z -> list Z) w bl o :
  ring bl o -> dv <> 0 ->
  (forall i x, (i < NBUF)%nat -> bl !! i = Some x -> b_dev x = 0 /\ b_refcnt x = 0 /\ b_lock x = SleepLock 0 0) ->
  (forall b, V b = content d0 w b) ->
  cache (d0 := d0) pid dv [] [] V w o bl.
Proof.
  intros Hr Hdv Hz HV. split; try done.
  - intros i x Hi Hx. destruct (Hz i x Hi Hx) as (H1 & H2 & H3). split.
    + by rewrite decide_False by apply not_elem_of_nil.
    + rewrite !decide_False; [done|intros [_ ?%not_elem_of_nil]; done|apply not_elem_of_nil].
    + congruence.
  - intros i j x y Hi Hj Hx. destruct (Hz i x Hi Hx) as (? & _). congruence.
  - intros i b ?%not_elem_of_nil. done.
  - apply NoDup_nil_2.
  - intros b ?%not_elem_of_nil. done.
Qed.

(** [binit] links the zeroed buffers into a ring in which buffer 29 is the
    most recently used and buffer 0 the next to be recycled, with free locks,
    and touches nothing but the cache. *)
Theorem binit_ring (s : Kst (KMem (BioSt R))) l d :
  bufs (bio s) = replicate (S NBUF) (Buf 0 0 0 0 l 0 0 0 d) ->
  exists s', binit s = Ok tt s' /\ s' = set_bufs (bufs (bio s')) s /\
    ring (bufs (bio s')) (rev (seq 0 NBUF)) /\
    forall i x, (i < NBUF)%nat -> bufs (bio s') !! i = Some x ->
      b_dev x = 0 /\ b_refcnt x = 0 /\ b_lock x = SleepLock 0 0 /\ b_data x = d.
Proof.
  destruct s as [h c p n ip t [m f kp [bl r]]]. unfold bio. simpl. intros ->.
  eexists. split; [vm_compute; reflexivity|]. split; [reflexivity|]. simpl krest. simpl kmrest. simpl bufs.
  split.
  - split; [done|]. split; [|vm_compute; by repeat split].
    symmetry. exact (Permutation_rev (seq 0 NBUF)).
  - intros i x Hi Hx. do 30 (destruct i as [|i]; [simpl in Hx; injection Hx as <-; by split_and!|]).
    unfold NBUF in Hi. lia.
Qed.
End binit.

(** ** Witnesses *)

(** A driver that answers at once, over any record of writes. *)
Definition sync_driver {R} {dl : DiskLens R} (d0 : Z -> list Z) : DiskDriver R := {|
  disk_read := fun b s => Ok (content d0 (dget (biorest (bio s))) b) s;
  disk_write := fun b d s => Ok tt (s.[krest := (krest s).[kmrest := (kmrest (krest s)).[biorest :=
      dset (dget (biorest (bio s)) ++ [(b, d)]) (biorest (bio s))]]]);
|}.

Lemma sync_driver_ok {R} {dl : DiskLens R} d0 : @SyncDisk R (sync_driver d0) dl d0.
Proof. by split. Qed.

#[export] Instance list_disk : DiskLens (list (Z * list Z)) :=
  { dget := fun r => r; dset := fun w _ => w;
    dget_dset := fun _ _ => eq_refl; dset_dset := fun _ _ _ => eq_refl; dset_dget := fun _ => eq_refl }.

Definition demo_disk : Z -> list Z := fun b => [b; b].
#[local] Instance demo_driver : DiskDriver (list (Z * list Z)) := sync_driver demo_disk.
#[local] Instance demo_sync : SyncDisk (list (Z * list Z)) demo_disk := sync_driver_ok demo_disk.
#[local] Instance demo_patience : Patience := 3%nat.

Definition demo_bufs0 : list buf := replicate (S NBUF) (Buf 0 0 0 0 (SleepLock 0 0) 0 0 0 []).
Definition demo_bio (bl : list buf) : Kst (KMem (BioSt (list (Z * list Z)))) :=
  KSt [] (Some 0%nat) (demo_sl_proc :: replicate 63 proc_zero) 8 None 0
    (KM ∅ 0 0 (BioS bl [(5, [1; 2])])).
(** After [binit]. *)
Definition demo_bufs : list buf :=
  match binit (demo_bio demo_bufs0) with Ok _ s => bufs (bio s) | _ => [] end.

Lemma demo_bio_running bl : running 0 7 [] (demo_bio bl).
Proof. split_and!; try done. by exists demo_sl_proc. Qed.

Lemma demo_at bl : at_ 0 7 [] (demo_bio bl) bl [(5, [1; 2])] (krest (demo_bio bl)).
Proof. split; [apply demo_bio_running|reflexivity]. Qed.

Lemma demo_binit :
  ring demo_bufs (rev (seq 0 NBUF)) /\
  forall i x, (i < NBUF)%nat -> demo_bufs !! i = Some x ->
    b_dev x = 0 /\ b_refcnt x = 0 /\ b_lock x = SleepLock 0 0.
Proof.
  split.
  - split; [reflexivity|]. split; [symmetry; exact (Permutation_rev (seq 0 NBUF))|].
    vm_compute. by repeat split.
  - intros i x Hi Hx. assert (H : Forall (fun x => b_dev x = 0 /\ b_refcnt x = 0 /\ b_lock x = SleepLock 0 0) demo_bufs).
    { vm_compute. repeat constructor. }
    rewrite Forall_lookup in H. by apply (H i).
Qed.

Lemma demo_cache V : (forall b, V b = content demo_disk [(5, [1; 2])] b) ->
  cache (d0 := demo_disk) 7 1 [] [] V [(5, [1; 2])] (rev (seq 0 NBUF)) demo_bufs.
Proof. intros H. by apply cache_start; [apply demo_binit|..|apply H]; [|apply demo_binit]. Qed.

Lemma binit_ring_witness :
  exists s', binit (demo_bio demo_bufs0) = Ok tt s' /\ ring (bufs (bio s')) (rev (seq 0 NBUF)).
Proof.
  destruct (binit_ring (demo_bio demo_bufs0) (SleepLock 0 0) [] eq_refl) as (s' & H1 & _ & H2 & _).
  exists s'. exact (conj H1 H2).
Defined.

(** An uncached block takes the oldest buffer. *)
Lemma bget_lru_witness : exists s', bget 1 9 (demo_bio demo_bufs) = Ok 0%nat s'.
Proof.
  pose proof (bget_lru 0 7 1 (demo_bio demo_bufs) demo_bufs [(5, [1; 2])] (krest (demo_bio demo_bufs))
    (rev (seq 0 NBUF)) 9 (demo_at demo_bufs) (proj1 demo_binit)) as H.
  assert (Hl : forall b x, demo_bufs !! b = Some x -> (b_refcnt x = 0 \/ b_dev x = 1 /\ b_blockno x = 9) ->
    b_lock x = SleepLock 0 0).
  { intros b x Hx _. assert (HF : Forall (fun x => b_lock x = SleepLock 0 0) demo_bufs).
    { vm_compute. repeat constructor. }
    rewrite Forall_lookup in HF. by apply (HF b). }
  specialize (H Hl).
  assert (E : bget_choice 1 demo_bufs (rev (seq 0 NBUF)) 9 =
    Some (0%nat, bget_miss 1 9 (nth 0 demo_bufs buf_zero))) by (vm_compute; reflexivity).
  rewrite E in H. destruct H as (s' & H & _). exists s'. exact H.
Defined.

(** Block 5 was written once; the reader sees the new data. *)
Lemma bread_coherent_witness :
  exists b s' (bl' : list buf) x, bread 1 5 (demo_bio demo_bufs) = Ok b s' /\ bl' !! b = Some x /\ b_data x = [1; 2].
Proof.
  destruct (bread_coherent 0 7 1 [] [] (content demo_disk [(5, [1; 2])]) (demo_bio demo_bufs) demo_bufs
    [(5, [1; 2])] (krest (demo_bio demo_bufs)) (rev (seq 0 NBUF)) 5 (demo_at demo_bufs)
    (demo_cache _ (fun _ => eq_refl)) (not_elem_of_nil _) ltac:(right; unfold NBUF; simpl; lia))
    as (b & s' & bl' & x & H1 & _ & _ & H2 & H3 & _).
  exists b, s', bl', x. exact (conj H1 (conj H2 H3)).
Defined.
