(* ===== verification/Virtio.v ===== *)
(** The disk driver: kernel/virtio_disk.c, over a device given by its control
    registers.  The three pages shared with the device (descriptors, available
    ring, used ring) are part of the driver's state; the device writes the used
    ring, the status bytes and the data of buffers while the driver sleeps. *)

From S2P Require Import Prelude CInt Machine Sched Sleeplock Kalloc Bio.

(** ** kernel/virtio.h *)

Definition NUM : nat := 8.
Definition VRING_DESC_F_NEXT : Z := 1.
Definition VRING_DESC_F_WRITE : Z := 2.
Definition VIRTIO_BLK_T_IN : Z := 0.
Definition VIRTIO_BLK_T_OUT : Z := 1.

Definition MAGIC_VALUE : Z := 0x000.
Definition VERSION : Z := 0x004.
Definition DEVICE_ID : Z := 0x008.
Definition VENDOR_ID : Z := 0x00c.
Definition DEVICE_FEATURES : Z := 0x010.
Definition DRIVER_FEATURES : Z := 0x020.
Definition QUEUE_SEL : Z := 0x030.
Definition QUEUE_NUM_MAX : Z := 0x034.
Definition QUEUE_NUM : Z := 0x038.
Definition QUEUE_READY : Z := 0x044.
Definition QUEUE_NOTIFY : Z := 0x050.
Definition INTERRUPT_STATUS : Z := 0x060.
Definition INTERRUPT_ACK : Z := 0x064.
Definition STATUS : Z := 0x070.
Definition QUEUE_DESC_LOW : Z := 0x080.
Definition QUEUE_DESC_HIGH : Z := 0x084.
Definition DRIVER_DESC_LOW : Z := 0x090.
Definition DRIVER_DESC_HIGH : Z := 0x094.
Definition DEVICE_DESC_LOW : Z := 0x0a0.
Definition DEVICE_DESC_HIGH : Z := 0x0a4.

(** What a descriptor points to: a request header, the data of a buffer, or a
    status byte. *)
Inductive dma := DmaNull | DmaReq (i : nat) | DmaData (b : nat) | DmaStatus (i : nat).
#[export] Instance dma_eq_dec : EqDecision dma.
Proof. solve_decision. Defined.

(** [struct virtq_desc], [struct virtio_blk_req], [disk.info[]]. *)
Record vdesc := VDesc { d_addr : dma; d_len : Z; d_flags : Z; d_next : nat }.
#[export] Instance eta_vdesc : Eta vdesc := fun d => VDesc (d_addr d) (d_len d) (d_flags d) (d_next d).
Record vreq := VReq { rq_type : Z; rq_reserved : Z; rq_sector : Z }.
#[export] Instance eta_vreq : Eta vreq := fun q => VReq (rq_type q) (rq_reserved q) (rq_sector q).
Record vinfo := VInfo { in_b : option nat; in_status : Z }.
#[export] Instance eta_vinfo : Eta vinfo := fun i => VInfo (in_b i) (in_status i).

(** [struct disk]: [v_avail], [v_avail_idx] are [avail->ring], [avail->idx];
    [v_used], [v_used_end] are the ids of [used->ring] and [used->idx]. *)
Record vdisk := VDisk {
  v_desc : list vdesc;
  v_avail : list Z;
  v_avail_idx : Z;
  v_used : list Z;
  v_used_end : Z;
  v_free : list Z;
  v_used_idx : Z;
  v_info : list vinfo;
  v_ops : list vreq;
}.
#[export] Instance eta_vdisk : Eta vdisk := fun v =>
  VDisk (v_desc v) (v_avail v) (v_avail_idx v) (v_used v) (v_used_end v) (v_free v)
    (v_used_idx v) (v_info v) (v_ops v).

(** The control registers: reads return a value; both may change the device. *)
Class VirtioHw (H : Type) := {
  mmio_read : Z -> H -> Z * H;
  mmio_write : Z -> Z -> H -> H;
}.
Record VioSt (H : Type) := VioS { vio : vdisk; v_hw : H }.
Arguments VioS {H}. Arguments vio {H}. Arguments v_hw {H}.
#[export] Instance eta_viost H : Eta (VioSt H) := fun v => VioS (vio v) (v_hw v).

Definition vdisk_lock : kptr := KSym "virtio_disk" 0.
Definition vfree_chan : kptr := KSym "disk.free" 0.
Definition buf_chan (b : nat) : kptr := KSym "buf" (Z.of_nat b).

Section virtio.
Context {H R : Type} {hw : VirtioHw H} {L : Layer (VioSt H) R}.
Abbreviation St := (Kst (KMem (BioSt R))).
Implicit Types s : St.

Definition vst s : VioSt H := layer_get (biorest (kmrest (krest s))).
Definition getv : M St vdisk := gets (fun s => vio (vst s)).
Definition modst (f : VioSt H -> VioSt H) : M St unit := fun s =>
  Ok tt (s.[krest := (krest s).[kmrest := (kmrest (krest s)).[biorest :=
    layer_set (f (vst s)) (biorest (kmrest (krest s)))]]]).
Definition modv (f : vdisk -> vdisk) : M St unit := modst (fun v => v.[vio := f (vio v)]).

Definition reg_get (r : Z) : M St Z :=
  let* h := gets (fun s => v_hw (vst s)) in
  let '(v, h) := mmio_read r h in
  modst (fun x => x.[v_hw := h]);;;
  ret (u32 v).
Definition reg_put (r v : Z) : M St unit := modst (fun x => x.[v_hw := mmio_write r (u32 v) (v_hw x)]).

Definition reg_is (r v : Z) : M St bool := let* x := reg_get r in ret (x =? v).

(** Clear bit [n] of the offered features. *)
Definition without (features n : Z) : Z := Z.land features (Z.lnot (Z.shiftl 1 n)).

(** The page addresses given to the device are those [kalloc] returned. *)
Definition virtio_disk_init `{KernelImage} : M St unit :=
  let* found := reg_is MAGIC_VALUE 0x74726976 in
  let* found := (if found : bool then reg_is VERSION 2 else ret false) in
  let* found := (if found : bool then reg_is DEVICE_ID 2 else ret false) in
  let* found := (if found : bool then reg_is VENDOR_ID 0x554d4551 else ret false) in
  if negb found then panic "could not find virtio disk" else
  reg_put STATUS 0;;;
  reg_put STATUS 1;;;
  reg_put STATUS 3;;;
  let* features := reg_get DEVICE_FEATURES in
  let features := without (without (without (without (without (without (without features 5) 7) 11) 12) 27) 29) 28 in
  reg_put DRIVER_FEATURES features;;;
  reg_put STATUS 11;;;
  let* status := reg_get STATUS in
  if Z.land status 8 =? 0 then panic "virtio disk FEATURES_OK unset" else
  reg_put QUEUE_SEL 0;;;
  let* ready := reg_get QUEUE_READY in
  if negb (ready =? 0) then panic "virtio disk should not be ready" else
  let* max := reg_get QUEUE_NUM_MAX in
  if max =? 0 then panic "virtio disk has no queue 0" else
  if max <? Z.of_nat NUM then panic "virtio disk max queue too short" else
  let* desc := kalloc in
  let* avail := kalloc in
  let* used := kalloc in
  if (desc =? 0) || (avail =? 0) || (used =? 0) then panic "virtio disk kalloc" else
  kmemset desc 0 PGSIZE;;;
  modv (fun v => v.[v_desc := replicate NUM (VDesc DmaNull 0 0 0)]);;;
  kmemset avail 0 PGSIZE;;;
  modv (fun v => v.[v_avail := replicate NUM 0].[v_avail_idx := 0]);;;
  kmemset used 0 PGSIZE;;;
  modv (fun v => v.[v_used := replicate NUM 0].[v_used_end := 0]);;;
  reg_put QUEUE_NUM (Z.of_nat NUM);;;
  reg_put QUEUE_DESC_LOW desc;;;
  reg_put QUEUE_DESC_HIGH (Z.shiftr desc 32);;;
  reg_put DRIVER_DESC_LOW avail;;;
  reg_put DRIVER_DESC_HIGH (Z.shiftr avail 32);;;
  reg_put DEVICE_DESC_LOW used;;;
  reg_put DEVICE_DESC_HIGH (Z.shiftr used 32);;;
  reg_put QUEUE_READY 1;;;
  mfor (seq 0 NUM) (fun i => modv (fun v => v.[v_free := <[i := 1]> (v_free v)]));;;
  reg_put STATUS (Z.lor status 4).

(** ** Descriptors *)

Definition alloc_desc : M St (option nat) :=
  mloop (seq 0 NUM) (fun i =>
    let* v := getv in
    let* f := deref (v_free v !! i) in
    if negb (f =? 0) then modv (fun v => v.[v_free := <[i := 0]> (v_free v)]);;; ret (Some i)
    else ret None).

Definition free_desc (i : nat) : M St unit :=
  if (NUM <=? i)%nat then panic "free_desc 1" else
  let* v := getv in
  let* f := deref (v_free v !! i) in
  if negb (f =? 0) then panic "free_desc 2" else
  modv (fun v => v.[v_desc := <[i := VDesc DmaNull 0 0 0]> (v_desc v)]);;;
  modv (fun v => v.[v_free := <[i := 1]> (v_free v)]);;;
  wakeup vfree_chan.

(** A chain longer than the table would free a descriptor twice, and panic. *)
Definition free_chain (i : nat) : M St unit :=
  while (S NUM) (fun i =>
    let* v := getv in
    let* d := deref (v_desc v !! i) in
    free_desc i;;;
    if negb (Z.land (d_flags d) VRING_DESC_F_NEXT =? 0) then ret (inl (d_next d)) else ret (inr tt)) i.

(** The indices in [idx[]], or none. *)
Definition alloc3_desc : M St (option (nat * nat * nat)) :=
  let* a := alloc_desc in
  match a with
  | None => ret None
  | Some a =>
      let* b := alloc_desc in
      match b with
      | None => free_desc a;;; ret None
      | Some b =>
          let* c := alloc_desc in
          match c with
          | None => free_desc a;;; free_desc b;;; ret None
          | Some c => ret (Some (a, b, c))
          end
      end
  end.

(** ** Requests *)

(** Fill in the three descriptors of a request, the request header and the
    book-keeping. *)
Definition format_request (b : nat) (write : bool) (sector : Z) (i j k : nat) : M St unit :=
  modv (fun v => v.[v_ops := <[i := VReq (if write then VIRTIO_BLK_T_OUT else VIRTIO_BLK_T_IN) 0 sector]> (v_ops v)]);;;
  modv (fun v => v.[v_desc := <[i := VDesc (DmaReq i) 16 VRING_DESC_F_NEXT j]> (v_desc v)]);;;
  modv (fun v => v.[v_desc := <[j := VDesc (DmaData b) BSIZE
    (Z.lor (if write then 0 else VRING_DESC_F_WRITE) VRING_DESC_F_NEXT) k]> (v_desc v)]);;;
  modv (fun v => v.[v_info := alter (fun x => x.[in_status := 0xff]) i (v_info v)]);;;
  modv (fun v => v.[v_desc := <[k := VDesc (DmaStatus i) 1 VRING_DESC_F_WRITE 0]> (v_desc v)]);;;
  modb b (fun x => x.[b_disk := 1]);;;
  modv (fun v => v.[v_info := alter (fun x => x.[in_b := Some b]) i (v_info v)]).

(** Put the head of the chain in the available ring and notify the device. *)
Definition submit (i : nat) : M St unit :=
  modv (fun v => v.[v_avail := <[Z.to_nat (v_avail_idx v mod Z.of_nat NUM) := Z.of_nat i]> (v_avail v)]);;;
  modv (fun v => v.[v_avail_idx := u16 (v_avail_idx v + 1)]);;;
  reg_put QUEUE_NOTIFY 0.

(** [n] bounds the wakeups in vain of each wait. *)
Definition wait_desc (n : nat) : M St (nat * nat * nat) :=
  while (S n) (fun _ : unit =>
    let* r := alloc3_desc in
    match r with
    | Some idx => ret (inr idx)
    | None => sleep vfree_chan vdisk_lock;;; ret (inl tt)
    end) tt.

Definition wait_done (n b : nat) : M St unit :=
  while (S n) (fun _ : unit =>
    let* x := getb b in
    if b_disk x =? 1 then sleep (buf_chan b) vdisk_lock;;; ret (inl tt) else ret (inr tt)) tt.

Definition virtio_disk_rw (n b : nat) (write : bool) : M St unit :=
  let* x := getb b in
  let sector := u64 (u32 (b_blockno x * (BSIZE / 512))) in
  acquire vdisk_lock;;;
  let* '(i, j, k) := wait_desc n in
  format_request b write sector i j k;;;
  submit i;;;
  wait_done n b;;;
  modv (fun v => v.[v_info := alter (fun x => x.[in_b := None]) i (v_info v)]);;;
  free_chain i;;;
  release vdisk_lock.

(** ** Completion *)

Definition intr_body : M St bool :=
  let* v := getv in
  if v_used_idx v =? v_used_end v then ret true else
  let* id := deref (v_used v !! Z.to_nat (v_used_idx v mod Z.of_nat NUM)) in
  let* x := deref (v_info v !! Z.to_nat id) in
  if negb (in_status x =? 0) then panic "virtio_disk_intr status" else
  let* b := deref (in_b x) in
  modb b (fun y => y.[b_disk := 0]);;;
  wakeup (buf_chan b);;;
  modv (fun v => v.[v_used_idx := u16 (v_used_idx v + 1)]);;;
  ret false.

(** At most [NUM] requests are complete and unseen. *)
Definition virtio_disk_intr : M St unit :=
  acquire vdisk_lock;;;
  let* st := reg_get INTERRUPT_STATUS in
  reg_put INTERRUPT_ACK (Z.land st 3);;;
  while (S NUM) (fun _ : unit =>
    let* stop := intr_body in ret (if stop then inr tt else inl tt)) tt;;;
  release vdisk_lock.
End virtio.
