(* ===== verification/VirtioThm.v ===== *)
(** The disk driver's book-keeping: the descriptors are at every moment either
    free or part of exactly one well-formed request in flight, and a request
    goes through submission, completion and release without touching the
    others. *)

From S2P Require Import Prelude CInt Machine Sched Sleeplock Kalloc Bio Virtio.

(** ** Requests in flight *)

(** A request: the buffer, the direction, the sector, and its descriptors. *)
Record request := Req { r_buf : nat; r_write : bool; r_sector : Z; r_1 : nat; r_2 : nat; r_3 : nat }.
Definition rq_descs (r : request) : list nat := [r_1 r; r_2 r; r_3 r].

(** What the device finds behind the head descriptor [r_1]: the chain of the
    virtio specification for a block request. *)
Record request_at (v : vdisk) (r : request) : Prop := {
  ra_head : v_desc v !! r_1 r = Some (VDesc (DmaReq (r_1 r)) 16 VRING_DESC_F_NEXT (r_2 r));
  ra_data : v_desc v !! r_2 r = Some (VDesc (DmaData (r_buf r)) BSIZE
    (Z.lor (if r_write r then 0 else VRING_DESC_F_WRITE) VRING_DESC_F_NEXT) (r_3 r));
  ra_status : v_desc v !! r_3 r = Some (VDesc (DmaStatus (r_1 r)) 1 VRING_DESC_F_WRITE 0);
  ra_op : v_ops v !! r_1 r =
    Some (VReq (if r_write r then VIRTIO_BLK_T_OUT else VIRTIO_BLK_T_IN) 0 (r_sector r));
}.

(** The descriptors of the requests [rs], and the request the driver will
    credit with a completion. *)
Definition owned (rs : list request) : list nat := rs ≫= rq_descs.

Record vd_ok (rs : list request) (v : vdisk) : Prop := {
  vk_desc : length (v_desc v) = NUM;
  vk_info : length (v_info v) = NUM;
  vk_ops : length (v_ops v) = NUM;
  vk_avail : length (v_avail v) = NUM;
  vk_nodup : NoDup (owned rs);
  vk_in : Forall (fun i => (i < NUM)%nat) (owned rs);
  vk_free : v_free v = (fun i => if decide (i ∈ owned rs) then 0 else 1) <$> seq 0 NUM;
  vk_reqs : Forall (request_at v) rs;
  vk_bufs : Forall (fun r => in_b <$> v_info v !! r_1 r = Some (Some (r_buf r))) rs;
}.

(** The descriptors out of use: those of [rs] and the loose ones [ds] that an
    operation is working on. *)
Definition held_descs (ds : list nat) (rs : list request) (v : vdisk) : Prop :=
  length (v_desc v) = NUM /\ length (v_info v) = NUM /\ length (v_ops v) = NUM /\ length (v_avail v) = NUM /\
  NoDup (ds ++ owned rs) /\ Forall (fun i => (i < NUM)%nat) (ds ++ owned rs) /\
  v_free v = (fun i => if decide (i ∈ ds ++ owned rs) then 0 else 1) <$> seq 0 NUM /\
  Forall (request_at v) rs /\
  Forall (fun r => in_b <$> v_info v !! r_1 r = Some (Some (r_buf r))) rs.

Lemma vd_ok_held rs v : vd_ok rs v <-> held_descs [] rs v.
Proof. split; [intros []; by split_and!|intros (?&?&?&?&?&?&?&?&?); by split]. Qed.

Lemma owned_cons r rs : owned (r :: rs) = rq_descs r ++ owned rs.
Proof. done. Qed.

Lemma owned_elem r rs i : r ∈ rs -> i ∈ rq_descs r -> i ∈ owned rs.
Proof. intros H1 H2. apply list_elem_of_bind. eauto. Qed.

(** The free map after one descriptor changes hands. *)
Lemma free_map_set (ds ds' : list nat) i b :
  (i < NUM)%nat -> (forall j, j <> i -> j ∈ ds' <-> j ∈ ds) ->
  b = (if decide (i ∈ ds') then 0 else 1) ->
  <[i := b]> ((fun j => if decide (j ∈ ds) then 0 else 1) <$> seq 0 NUM) =
    (fun j => if decide (j ∈ ds') then 0 else 1) <$> seq 0 NUM.
Proof.
  intros Hi Hj ->. apply list_eq. intros k. destruct (decide (k = i)) as [->|Hne].
  - rewrite list_lookup_insert_eq by (by rewrite length_fmap, length_seq).
    rewrite list_lookup_fmap, lookup_seq_lt by done. done.
  - rewrite list_lookup_insert_ne by done. rewrite !list_lookup_fmap.
    destruct (seq 0 NUM !! k) as [j|] eqn:Hk; [|done]. apply lookup_seq in Hk as [-> _].
    simpl. f_equal. specialize (Hj k Hne). repeat case_decide; tauto.
Qed.

(** Requests do not see changes at descriptors that are not theirs. *)
Lemma request_at_frame v v' r :
  (forall i, i ∈ rq_descs r -> v_desc v' !! i = v_desc v !! i) ->
  v_ops v' !! r_1 r = v_ops v !! r_1 r -> request_at v r -> request_at v' r.
Proof.
  intros Hd Ho [H1 H2 H3 H4]. unfold rq_descs in Hd.
  split; [rewrite Hd|rewrite Hd|rewrite Hd|by rewrite Ho]; try done; set_solver.
Qed.

Definition take_desc (i : nat) (v : vdisk) : vdisk := v.[v_free := <[i := 0]> (v_free v)].
Definition freed_desc (i : nat) (v : vdisk) : vdisk :=
  v.[v_desc := <[i := VDesc DmaNull 0 0 0]> (v_desc v)].[v_free := <[i := 1]> (v_free v)].

Lemma held_take ds rs v i : held_descs ds rs v -> v_free v !! i = Some 1 ->
  held_descs (i :: ds) rs (take_desc i v) /\ i ∉ ds ++ owned rs.
Proof.
  intros (H1 & H2 & H3 & H4 & H5 & H6 & H7 & H8 & H9) Hi.
  rewrite H7, list_lookup_fmap in Hi. destruct (seq 0 NUM !! i) as [j|] eqn:Hj; [|done].
  apply lookup_seq in Hj as [-> Hj]. simpl in Hi. case_decide as Hn; [done|].
  split; [|done]. unfold take_desc. split_and!; simpl; try done.
  - by constructor.
  - by constructor.
  - rewrite H7. apply free_map_set; [done| |].
    + intros k Hk. cbn [app]. rewrite elem_of_cons. tauto.
    + by rewrite decide_True by apply list_elem_of_here.
  - eapply Forall_impl; [exact H8|]. intros r. by apply request_at_frame.
Qed.

Lemma held_free ds rs v i : held_descs (i :: ds) rs v -> held_descs ds rs (freed_desc i v).
Proof.
  intros (H1 & H2 & H3 & H4 & [Hn H5]%NoDup_cons & [Hi H6]%Forall_cons & H7 & H8 & H9).
  unfold freed_desc. split_and!; simpl; try done; [by rewrite length_insert| |].
  - rewrite H7. apply free_map_set; [done| |].
    + intros k Hk. cbn [app]. rewrite elem_of_cons. tauto.
    + by rewrite decide_False.
  - apply Forall_forall. intros r Hr. eapply request_at_frame; [| |by apply (proj1 (Forall_forall _ _) H8)].
    + intros k Hk. simpl. apply list_lookup_insert_ne. intros ->. apply Hn, elem_of_app. right.
      by eapply owned_elem.
    + done.
Qed.

Lemma held_perm ds ds' rs v : ds ≡ₚ ds' -> held_descs ds rs v -> held_descs ds' rs v.
Proof.
  intros P (H1 & H2 & H3 & H4 & H5 & H6 & H7 & H8 & H9).
  assert (P' : ds ++ owned rs ≡ₚ ds' ++ owned rs) by (by apply Permutation_app_tail).
  split_and!; try done; [by rewrite <- P'|by rewrite <- P'|]. rewrite H7.
  apply list_fmap_ext. intros _ i _. simpl. apply decide_ext. by rewrite P'.
Qed.

(** When no descriptor, or fewer than three, are free. *)
Lemma all_taken ds rs v :
  held_descs ds rs v -> find_idx (fun f => negb (f =? 0)) (v_free v) = None ->
  (length ds + 3 * length rs = NUM)%nat.
Proof.
  intros (_ & _ & _ & _ & H5 & H6 & H7 & _) Hf. apply find_idx_None in Hf.
  assert (Hperm : ds ++ owned rs ≡ₚ seq 0 NUM).
  { apply NoDup_Permutation; [done|apply NoDup_seq|]. intros i. split.
    - intros Hi. apply elem_of_seq. pose proof (proj1 (Forall_forall _ _) H6 i Hi). simpl in *. lia.
    - intros Hi. pose proof Hi as Hi'. apply list_elem_of_lookup in Hi as [k Hk]. 
      apply lookup_seq in Hk as [-> Hk]. change (0 + k)%nat with k in *.
      assert (Hl : v_free v !! k = Some (if decide (k ∈ ds ++ owned rs) then 0 else 1)).
      { rewrite H7, list_lookup_fmap, lookup_seq_lt by done. done. }
      pose proof (Forall_lookup_1 _ _ _ _ Hf Hl) as Hz. simpl in Hz. by case_decide. }
  apply Permutation_length in Hperm. rewrite length_app, length_seq in Hperm.
  rewrite <- Hperm. f_equal. clear. unfold owned. induction rs as [|r rs IH]; [done|].
  change (length ((r :: rs) ≫= rq_descs)) with (3 + length (rs ≫= rq_descs))%nat. simpl in *. lia.
Qed.

Lemma held_find ds rs v i f :
  held_descs ds rs v -> find_idx (fun f => negb (f =? 0)) (v_free v) = Some (i, f) ->
  v_free v !! i = Some 1.
Proof.
  intros (_ & _ & _ & _ & _ & _ & H7 & _) (Hi & Hf & _)%find_idx_Some. rewrite Hi.
  rewrite H7, list_lookup_fmap in Hi. destruct (seq 0 NUM !! i); [|done]. simpl in Hi.
  case_decide; injection Hi as <-; done.
Qed.

Lemma held_count ds rs v : held_descs ds rs v -> (length ds + 3 * length rs <= NUM)%nat.
Proof.
  intros (_ & _ & _ & _ & H5 & H6 & _).
  assert (Hl : (length (ds ++ owned rs) <= length (seq 0 NUM))%nat).
  { apply submseteq_length, NoDup_submseteq; [done|]. intros i Hi. apply elem_of_seq.
    pose proof (proj1 (Forall_forall _ _) H6 i Hi). simpl in *. lia. }
  rewrite length_app, length_seq in Hl. revert Hl. unfold owned.
  assert (Hr : length (rs ≫= rq_descs) = (3 * length rs)%nat); [|lia].
  clear. induction rs as [|r rs IH]; [done|].
  change (length ((r :: rs) ≫= rq_descs)) with (3 + length (rs ≫= rq_descs))%nat. simpl in *. lia.
Qed.

Lemma held_free_length ds rs v : held_descs ds rs v -> length (v_free v) = NUM.
Proof. intros (_ & _ & _ & _ & _ & _ & -> & _). by rewrite length_fmap, length_seq. Qed.

(** ** Executions *)

Section virtio_exec.
Context {H R : Type} {hw : VirtioHw H} {L : Layer (VioSt H) R}.
Abbreviation St := (Kst (KMem (BioSt R))).
Implicit Types s : St.

Definition vdd s : vdisk := vio (vst s).
Definition vhw s : H := v_hw (vst s).

(** The state with another driver, device, process table and buffers. *)
Definition vset (v : vdisk) (h : H) (ps : list proc) (bl : list buf) s : St :=
  KSt (held s) (cproc s) ps (nextpid s) (initproc s) (ticks s)
    ((krest s).[kmrest := BioS bl (layer_set (VioS v h) (biorest (kmrest (krest s))))]).
Definition with_vd (v : vdisk) s : St := vset v (vhw s) (procs s) (bufs (bio s)) s.

Lemma vst_vset v h ps bl s : vst (vset v h ps bl s) = VioS v h.
Proof. apply layer_get_set. Qed.
Lemma vdd_vset v h ps bl s : vdd (vset v h ps bl s) = v.
Proof. unfold vdd. by rewrite vst_vset. Qed.
Lemma vhw_vset v h ps bl s : vhw (vset v h ps bl s) = h.
Proof. unfold vhw. by rewrite vst_vset. Qed.
Lemma bufs_vset v h ps bl s : bufs (bio (vset v h ps bl s)) = bl.
Proof. done. Qed.
Lemma procs_vset v h ps bl s : procs (vset v h ps bl s) = ps.
Proof. done. Qed.
Lemma vset_vset v h ps bl v' h' ps' bl' s :
  vset v h ps bl (vset v' h' ps' bl' s) = vset v h ps bl s.
Proof. unfold vset. simpl. by rewrite layer_set_set. Qed.
Lemma vset_id s : vset (vdd s) (vhw s) (procs s) (bufs (bio s)) s = s.
Proof.
  unfold vset, vdd, vhw. replace (VioS (vio (vst s)) (v_hw (vst s))) with (vst s) by (by destruct (vst s)).
  unfold vst. rewrite layer_set_get. by destruct s as [? ? ? ? ? ? [? ? ? []]].
Qed.

Lemma getv_ok s : getv s = Ok (vdd s) s.
Proof. done. Qed.
Lemma modv_ok f s : modv f s = Ok tt (with_vd (f (vdd s)) s).
Proof. reflexivity. Qed.
Lemma reg_put_ok r x s :
  reg_put r x s = Ok tt (vset (vdd s) (mmio_write r (u32 x) (vhw s)) (procs s) (bufs (bio s)) s).
Proof. reflexivity. Qed.
Lemma vgetb_ok b x s : bufs (bio s) !! b = Some x -> getb b s = Ok x s.
Proof. intros Hb. unfold getb, bind, gets. simpl. by rewrite Hb. Qed.
Lemma modb_ok b x f s : bufs (bio s) !! b = Some x ->
  modb b f s = Ok tt (vset (vdd s) (vhw s) (procs s) (<[b := f x]> (bufs (bio s))) s).
Proof.
  intros Hb. unfold modb. erewrite bind_Ok by (by apply vgetb_ok). unfold modify, set_bufs.
  unfold vset, vdd, vhw. replace (VioS (vio (vst s)) (v_hw (vst s))) with (vst s) by (by destruct (vst s)).
  unfold vst. rewrite layer_set_get. by destruct s as [? ? ? ? ? ? [? ? ? []]].
Qed.

Lemma can_wake_vset v h ps bl s :
  length ps = NPROC -> can_wake s -> can_wake (vset v h ps bl s).
Proof. intros Hl [_ Hn]. by split. Qed.

Lemma alloc_desc_ok s : length (v_free (vdd s)) = NUM ->
  alloc_desc s =
    match find_idx (fun f => negb (f =? 0)) (v_free (vdd s)) with
    | Some (i, _) => Ok (Some i) (with_vd (take_desc i (vdd s)) s)
    | None => Ok None s
    end.
Proof.
  intros Hl. unfold alloc_desc. rewrite <- Hl.
  apply (mloop_scan (v_free (vdd s)) (fun f => negb (f =? 0)) _ (fun i => i)
    (fun i => with_vd (take_desc i (vdd s)) s)).
  intros i f Hf. erewrite bind_Ok by apply getv_ok. rewrite Hf. unfold bind at 1; simpl.
  destruct (negb (f =? 0)); [|done]. by erewrite bind_Ok by apply modv_ok.
Qed.

(** [free_desc] gives one loose descriptor back. *)
Lemma free_desc_ok ds rs i s :
  held_descs (i :: ds) rs (vdd s) -> can_wake s ->
  exists ps, free_desc i s = Ok tt (vset (freed_desc i (vdd s)) (vhw s) ps (bufs (bio s)) s) /\
    woken (cproc s) vfree_chan (procs s) ps.
Proof.
  intros Hh W. pose proof Hh as (_ & _ & _ & _ & _ & [Hi _]%Forall_cons & Hf & _).
  unfold free_desc. rewrite (proj2 (Nat.leb_gt _ _)) by done.
  erewrite bind_Ok by apply getv_ok.
  assert (Hz : v_free (vdd s) !! i = Some 0).
  { rewrite Hf, list_lookup_fmap, lookup_seq_lt by done. simpl. rewrite decide_True; [done|set_solver]. }
  rewrite Hz. unfold bind at 1; simpl. erewrite bind_Ok by apply modv_ok.
  erewrite bind_Ok by apply modv_ok. unfold with_vd. rewrite vset_vset, vdd_vset, vhw_vset.
  rewrite wakeup_eq; [|apply W..]. eexists. split; [|by right].
  done.
Qed.

(** The two outcomes of [alloc3_desc]. *)
Lemma alloc3_ok rs s :
  vd_ok rs (vdd s) -> can_wake s ->
  ((length rs <= 1)%nat -> exists a b c,
     let v := take_desc c (take_desc b (take_desc a (vdd s))) in
     alloc3_desc s = Ok (Some (a, b, c)) (with_vd v s) /\ held_descs [c; b; a] rs v) /\
  ((2 <= length rs)%nat -> exists v ps,
     alloc3_desc s = Ok None (vset v (vhw s) ps (bufs (bio s)) s) /\ vd_ok rs v /\
     woken (cproc s) vfree_chan (procs s) ps /\ v_avail v = v_avail (vdd s) /\
     v_avail_idx v = v_avail_idx (vdd s)).
Proof.
  intros K%vd_ok_held W. pose proof (held_count _ _ _ K) as Hc. simpl in Hc. unfold NUM in Hc.
  unfold alloc3_desc.
  (* the first two descriptors are there in any case *)
  pose proof (alloc_desc_ok s (held_free_length _ _ _ K)) as A1.
  destruct (find_idx _ (v_free (vdd s))) as [[a fa]|] eqn:F1.
  2: { apply (all_taken _ _ _ K) in F1. simpl in F1. unfold NUM in F1. lia. }
  pose proof (held_take _ _ _ _ K (held_find _ _ _ _ _ K F1)) as [K1 _].
  set (s1 := with_vd (take_desc a (vdd s)) s) in *.
  assert (E1 : vdd s1 = take_desc a (vdd s)) by apply vdd_vset. rewrite <- E1 in K1.
  pose proof (alloc_desc_ok s1 (held_free_length _ _ _ K1)) as A2.
  destruct (find_idx _ (v_free (vdd s1))) as [[b fb]|] eqn:F2.
  2: { apply (all_taken _ _ _ K1) in F2. simpl in F2. unfold NUM in F2. lia. }
  pose proof (held_take _ _ _ _ K1 (held_find _ _ _ _ _ K1 F2)) as [K2 _].
  set (s2 := with_vd (take_desc b (vdd s1)) s1) in *.
  assert (E2 : vdd s2 = take_desc b (vdd s1)) by apply vdd_vset. rewrite <- E2 in K2.
  pose proof (alloc_desc_ok s2 (held_free_length _ _ _ K2)) as A3.
  assert (S2 : s2 = with_vd (take_desc b (take_desc a (vdd s))) s).
  { unfold s2. rewrite E1. unfold s1, with_vd. by rewrite vset_vset, vhw_vset. }
  split; intros Hn.
  - destruct (find_idx _ (v_free (vdd s2))) as [[c fc]|] eqn:F3.
    2: { apply (all_taken _ _ _ K2) in F3. simpl in F3. unfold NUM in F3. lia. }
    pose proof (held_take _ _ _ _ K2 (held_find _ _ _ _ _ K2 F3)) as [K3 _].
    rewrite E2, E1 in K3. exists a, b, c. split; [|exact K3].
    erewrite bind_Ok by exact A1. cbv beta iota. erewrite bind_Ok by exact A2. cbv beta iota.
    erewrite bind_Ok by exact A3. cbv beta iota. rewrite E2, E1, S2. unfold with_vd, ret.
    by rewrite vset_vset, vhw_vset.
  - destruct (find_idx _ (v_free (vdd s2))) as [[c fc]|] eqn:F3.
    { pose proof (held_take _ _ _ _ K2 (held_find _ _ _ _ _ K2 F3)) as [K3 _].
      apply held_count in K3. simpl in K3. unfold NUM in K3. lia. }
    assert (Hperm : held_descs [a; b] rs (vdd s2))
      by (eapply held_perm; [|exact K2]; constructor).
    assert (W2 : can_wake s2) by (rewrite S2; apply can_wake_vset; [apply W|done]).
    destruct (free_desc_ok _ _ _ _ Hperm W2) as (ps1 & D1 & Wk1). apply held_free in Hperm.
    set (s3 := vset _ _ ps1 _ s2) in *. rewrite <- (vdd_vset _ (vhw s2) ps1 (bufs (bio s2)) s2) in Hperm.
    assert (W3 : can_wake s3).
    { apply can_wake_vset; [|done]. rewrite (woken_length _ _ _ _ Wk1). apply W2. }
    destruct (free_desc_ok _ _ _ _ Hperm W3) as (ps2 & D2 & Wk2). apply held_free in Hperm.
    exists (freed_desc b (vdd s3)), ps2. split_and!.
    + erewrite bind_Ok by exact A1. cbv beta iota. erewrite bind_Ok by exact A2. cbv beta iota.
      erewrite bind_Ok by exact A3. cbv beta iota. erewrite bind_Ok by exact D1.
      erewrite bind_Ok by exact D2. unfold s3. rewrite S2. unfold ret, with_vd.
      by rewrite !vset_vset, !vhw_vset, !bufs_vset.
    + by apply vd_ok_held.
    + eapply woken_trans; [|exact Wk2]. unfold s3. rewrite procs_vset. by rewrite S2 in Wk1.
    + unfold s3. by rewrite vdd_vset, S2; unfold with_vd; rewrite vdd_vset.
    + unfold s3. by rewrite vdd_vset, S2; unfold with_vd; rewrite vdd_vset.
Qed.

(** ** A request's life *)

Definition formatted (b : nat) (write : bool) (sector : Z) (i j k : nat) (v : vdisk) : vdisk :=
  v.[v_ops := <[i := VReq (if write then VIRTIO_BLK_T_OUT else VIRTIO_BLK_T_IN) 0 sector]> (v_ops v)]
   .[v_desc := <[k := VDesc (DmaStatus i) 1 VRING_DESC_F_WRITE 0]>
      (<[j := VDesc (DmaData b) BSIZE (Z.lor (if write then 0 else VRING_DESC_F_WRITE) VRING_DESC_F_NEXT) k]>
      (<[i := VDesc (DmaReq i) 16 VRING_DESC_F_NEXT j]> (v_desc v)))]
   .[v_info := alter (fun x => x.[in_b := Some b]) i (alter (fun x => x.[in_status := 0xff]) i (v_info v))].

Lemma format_request_ok b write sector i j k s x :
  bufs (bio s) !! b = Some x ->
  format_request b write sector i j k s =
    Ok tt (vset (formatted b write sector i j k (vdd s)) (vhw s) (procs s)
             (<[b := x.[b_disk := 1]]> (bufs (bio s))) s).
Proof.
  intros Hb. unfold format_request.
  do 5 (erewrite bind_Ok by apply modv_ok; unfold with_vd; rewrite ?vset_vset, ?vdd_vset, ?vhw_vset,
    ?procs_vset, ?bufs_vset).
  erewrite bind_Ok by (apply modb_ok; exact Hb). rewrite vset_vset, vdd_vset, vhw_vset, bufs_vset.
  rewrite modv_ok. unfold with_vd. rewrite vset_vset, vdd_vset, vhw_vset, bufs_vset. done.
Qed.

Lemma formatted_ok b write sector i j k rs v :
  held_descs [k; j; i] rs v -> vd_ok (Req b write sector i j k :: rs) (formatted b write sector i j k v).
Proof.
  intros Hh. eapply (held_perm _ [i; j; k]) in Hh.
  2: { change [k; j; i] with (rev [i; j; k]). symmetry. apply Permutation_rev. }
  destruct Hh as (H1 & H2 & H3 & H4 & H5 & H6 & H7 & H8 & H9).
  pose proof H6 as [Hi [Hj [Hk _]%Forall_cons]%Forall_cons]%Forall_cons.
  pose proof H5 as [Ni [Nj [Nk _]%NoDup_cons]%NoDup_cons]%NoDup_cons.
  apply not_elem_of_cons in Ni as [Nij [Nik Ni]%not_elem_of_cons].
  apply not_elem_of_cons in Nj as [Njk Nj]. cbn [app] in Ni, Nj, Nk.
  assert (Hother : forall r d, r ∈ rs -> d ∈ rq_descs r -> d <> i /\ d <> j /\ d <> k).
  { intros r d Hr Hd. pose proof (owned_elem _ _ _ Hr Hd). split_and!; congruence. }
  unfold formatted. split; simpl; rewrite ?length_insert, ?length_alter; try done.
  - apply Forall_cons. split.
    + split; simpl.
      * rewrite !list_lookup_insert_ne by done. apply list_lookup_insert_eq. by rewrite H1.
      * rewrite list_lookup_insert_ne by done. apply list_lookup_insert_eq. by rewrite length_insert, H1.
      * apply list_lookup_insert_eq. by rewrite !length_insert, H1.
      * apply list_lookup_insert_eq. by rewrite H3.
    + apply Forall_forall. intros r Hr. eapply request_at_frame; [| |by apply (proj1 (Forall_forall _ _) H8)].
      * intros d Hd. destruct (Hother r d Hr Hd) as (? & ? & ?). simpl.
        by rewrite !list_lookup_insert_ne by done.
      * destruct (Hother r (r_1 r) Hr ltac:(left)) as (? & ? & ?). simpl.
        by rewrite list_lookup_insert_ne by done.
  - apply Forall_cons. split.
    + destruct (lookup_lt_is_Some_2 (v_info v) i ltac:(by rewrite H2)) as [y Hy]. simpl.
      rewrite !list_lookup_alter_eq, Hy. done.
    + apply Forall_forall. intros r Hr. destruct (Hother r (r_1 r) Hr ltac:(left)) as (? & _).
      rewrite !list_lookup_alter_ne by done. by apply (proj1 (Forall_forall _ _) H9).
Qed.

Lemma vd_ok_avail rs v a x : length a = NUM -> vd_ok rs v -> vd_ok rs (v.[v_avail := a].[v_avail_idx := x]).
Proof.
  intros Ha [H1 H2 H3 H4 H5 H6 H7 H8 H9]. split; simpl; try done.
  eapply Forall_impl; [exact H8|]. intros r. by apply request_at_frame.
Qed.

(** The request done with, its descriptors are loose. *)
Lemma vd_ok_loose r rs v :
  vd_ok (r :: rs) v ->
  held_descs (rq_descs r) rs (v.[v_info := alter (fun x => x.[in_b := None]) (r_1 r) (v_info v)]) /\
  request_at v r.
Proof.
  intros [H1 H2 H3 H4 H5 H6 H7 [H8 H8']%Forall_cons [_ H9]%Forall_cons]. split; [|done].
  rewrite owned_cons in *. split_and!; simpl; try done.
  - by rewrite length_alter.
  - eapply Forall_impl; [exact H8'|]. intros q. by apply request_at_frame.
  - apply Forall_forall. intros q Hq. rewrite list_lookup_alter_ne; [by apply (proj1 (Forall_forall _ _) H9)|].
    intros E. apply NoDup_app in H5 as (_ & Hd & _). apply (Hd (r_1 r)); [left|].
    eapply owned_elem; [exact Hq|]. rewrite E. left.
Qed.

(** [free_chain] gives back the three descriptors of a request. *)
Lemma free_chain_ok r rs s :
  held_descs (rq_descs r) rs (vdd s) -> request_at (vdd s) r -> can_wake s ->
  exists v ps, free_chain (r_1 r) s = Ok tt (vset v (vhw s) ps (bufs (bio s)) s) /\ vd_ok rs v /\
    woken (cproc s) vfree_chan (procs s) ps /\
    v_avail v = v_avail (vdd s) /\ v_avail_idx v = v_avail_idx (vdd s).
Proof.
  intros K [Q1 Q2 Q3 _] W. unfold rq_descs in K.
  pose proof K as (_ & _ & _ & _ & [N1 [N2 _]%NoDup_cons]%NoDup_cons & _).
  apply not_elem_of_cons in N1 as [N12 [N13 _]%not_elem_of_cons].
  apply not_elem_of_cons in N2 as [N23 _].
  unfold free_chain, NUM.
  destruct (free_desc_ok _ _ _ _ K W) as (ps1 & E1 & W1).
  set (s1 := vset (freed_desc (r_1 r) (vdd s)) _ ps1 _ s) in *.
  assert (V1 : vdd s1 = freed_desc (r_1 r) (vdd s)) by apply vdd_vset.
  apply held_free in K as K1. rewrite <- V1 in K1.
  assert (C1 : can_wake s1).
  { apply can_wake_vset; [|done]. rewrite (woken_length _ _ _ _ W1). apply W. }
  destruct (free_desc_ok _ _ _ _ K1 C1) as (ps2 & E2 & W2).
  set (s2 := vset (freed_desc (r_2 r) (vdd s1)) _ ps2 _ s1) in *.
  assert (V2 : vdd s2 = freed_desc (r_2 r) (vdd s1)) by apply vdd_vset.
  apply held_free in K1 as K2. rewrite <- V2 in K2.
  assert (C2 : can_wake s2).
  { apply can_wake_vset; [|done]. rewrite (woken_length _ _ _ _ W2). apply C1. }
  destruct (free_desc_ok _ _ _ _ K2 C2) as (ps3 & E3 & W3). apply held_free in K2 as K3.
  exists (freed_desc (r_3 r) (vdd s2)), ps3. split_and!.
  - erewrite while_inl.
    2: { erewrite bind_Ok by apply getv_ok. rewrite Q1. unfold bind at 1; simpl.
         by erewrite bind_Ok by exact E1. }
    erewrite while_inl.
    2: { erewrite bind_Ok by apply getv_ok. rewrite V1. cbn [freed_desc v_desc upd_field].
         unfold freed_desc. simpl. rewrite list_lookup_insert_ne, Q2 by done. unfold bind at 1; simpl.
         erewrite bind_Ok by exact E2. by destruct (r_write r). }
    erewrite while_inr.
    2: { erewrite bind_Ok by apply getv_ok. rewrite V2, V1. unfold freed_desc. simpl.
         rewrite !list_lookup_insert_ne, Q3 by done. unfold bind at 1; simpl.
         by erewrite bind_Ok by exact E3. }
    unfold s2, s1. by rewrite !vset_vset, !vhw_vset, !bufs_vset.
  - by apply vd_ok_held.
  - eapply woken_trans; [exact W1|]. eapply woken_trans; [exact W2|exact W3].
  - by rewrite V2, V1.
  - by rewrite V2, V1.
Qed.

Context (ci : nat) (pid : Z).

(** Process [ci] sleeps on [ch] and holds only its own lock. *)
Definition asleep_on (ch : kptr) s : Prop :=
  held s = [plock ci] /\ exists p, procs s !! ci = Some p /\ p_state p = SLEEPING /\ p_chan p = Some ch.

(** The sector of a block. *)
Definition sector_of (x : buf) : Z := u64 (u32 (b_blockno x * (BSIZE / 512))).

(** From [s] to [s1] the request [r] for buffer [b] has been handed over. *)
Definition submitted (b : nat) (x : buf) (r : request) s s1 : Prop :=
  v_avail (vdd s1) = <[Z.to_nat (v_avail_idx (vdd s) mod Z.of_nat NUM) := Z.of_nat (r_1 r)]> (v_avail (vdd s)) /\
  v_avail_idx (vdd s1) = u16 (v_avail_idx (vdd s) + 1) /\
  vhw s1 = mmio_write QUEUE_NOTIFY 0 (vhw s) /\
  bufs (bio s1) = <[b := x.[b_disk := 1]]> (bufs (bio s)).

Lemma vio_can_wake s : running ci pid [vdisk_lock] s -> can_wake s.
Proof.
  intros (Hl & Hc & Hh & _). split; [done|]. intros i _. rewrite Hh, list_elem_of_singleton. done.
Qed.

Lemma running_vset h v hh ps bl s :
  running ci pid h s -> length ps = NPROC -> ps !! ci = procs s !! ci ->
  running ci pid h (vset v hh ps bl s).
Proof.
  intros (Hl & Hc & Hh & p & Hp & Hpid) Hlen Hme. split_and!; [done|done|done|].
  exists p. split; [|done]. simpl. by rewrite Hme.
Qed.

Lemma running_woken h v hh ch ps bl s :
  running ci pid h s -> woken (cproc s) ch (procs s) ps -> running ci pid h (vset v hh ps bl s).
Proof.
  intros Hr W. apply running_vset; [done| |].
  - rewrite (woken_length _ _ _ _ W). apply Hr.
  - apply (woken_me _ _ _ _ _ W). apply Hr.
Qed.

(** [sleep] with [vdisk_lock] held. *)
Lemma sleep_virtio ch s :
  running ci pid [vdisk_lock] s -> exists s1,
    sleep ch vdisk_lock s = Switched s1 (sleep_tail ci vdisk_lock) /\ asleep_on ch s1 /\
    krest s1 = krest s.
Proof.
  intros (Hl & Hc & Hh & p & Hp & Hpid). rewrite (sleep_eq _ _ _ ci p Hc Hp Hh) by done.
  eexists. split; [reflexivity|]. split; [|done]. split; [done|].
  eexists. split; [by eapply list_insert_lookup_same|done].
Qed.

Lemma same_krest s s' : krest s' = krest s -> vdd s' = vdd s /\ vhw s' = vhw s /\ bufs (bio s') = bufs (bio s).
Proof. intros E. unfold vdd, vhw, vst, bio. by rewrite E. Qed.

(** After the last wait: the request is retired. *)
Lemma retire_ok r rs s :
  running ci pid [vdisk_lock] s -> vd_ok (r :: rs) (vdd s) ->
  exists s3, (modv (fun v => v.[v_info := alter (fun x => x.[in_b := None]) (r_1 r) (v_info v)]);;;
      free_chain (r_1 r);;; release vdisk_lock) s = Ok tt s3 /\
    running ci pid [] s3 /\ vd_ok rs (vdd s3) /\ vhw s3 = vhw s /\ bufs (bio s3) = bufs (bio s) /\
    v_avail (vdd s3) = v_avail (vdd s) /\ v_avail_idx (vdd s3) = v_avail_idx (vdd s).
Proof.
  intros Hr K. destruct (vd_ok_loose _ _ _ K) as [K1 Q].
  erewrite bind_Ok by apply modv_ok.
  set (s1 := with_vd _ s). assert (V1 : vdd s1 = (vdd s).[v_info :=
    alter (fun x => x.[in_b := None]) (r_1 r) (v_info (vdd s))]) by apply vdd_vset.
  assert (R1 : running ci pid [vdisk_lock] s1) by (apply running_vset; [done|apply Hr|done]).
  rewrite <- V1 in K1.
  destruct (free_chain_ok r rs s1 K1) as (v & ps & E & Kv & Wk & A1 & A2).
  { rewrite V1. revert Q. by apply request_at_frame. }
  { by apply vio_can_wake. }
  erewrite bind_Ok by exact E. pose proof (running_woken _ v (vhw s1) _ _ (bufs (bio s1)) _ R1 Wk) as R2.
  eexists. split; [apply (release_ok vdisk_lock []); [apply R2|apply not_elem_of_nil]|].
  change (vdd (upd_field held _ ?x)) with (vdd x). change (vhw (upd_field held _ ?x)) with (vhw x).
  rewrite vdd_vset, vhw_vset, A1, A2, V1. split_and!; [|done|apply vhw_vset|done|done|done].
  destruct R2 as (? & ? & ? & ?). by split_and!.
Qed.

(** Handing a request over, with three descriptors to be had. *)
Lemma hand_over_ok b write x rs s :
  running ci pid [vdisk_lock] s -> vd_ok rs (vdd s) -> bufs (bio s) !! b = Some x -> (length rs <= 1)%nat ->
  exists i j k sa sb s1, let r := Req b write (sector_of x) i j k in
    alloc3_desc s = Ok (Some (i, j, k)) sa /\ format_request b write (sector_of x) i j k sa = Ok tt sb /\
    submit i sb = Ok tt s1 /\ running ci pid [vdisk_lock] s1 /\ submitted b x r s s1 /\ vd_ok (r :: rs) (vdd s1).
Proof.
  intros Hrun K Hb Hn. destruct (proj1 (alloc3_ok rs s K (vio_can_wake _ Hrun)) Hn) as (i & j & k & E & Kt).
  set (vt := take_desc k (take_desc j (take_desc i (vdd s)))) in *.
  pose proof (formatted_ok b write (sector_of x) i j k rs vt Kt) as Kf.
  set (vf := formatted b write (sector_of x) i j k vt) in *.
  assert (Ef : format_request b write (sector_of x) i j k (with_vd vt s) =
    Ok tt (vset vf (vhw s) (procs s) (<[b := x.[b_disk := 1]]> (bufs (bio s))) s)).
  { rewrite (format_request_ok b write (sector_of x) i j k (with_vd vt s) x Hb).
    unfold with_vd. by rewrite vset_vset, vdd_vset, vhw_vset. }
  set (sb := vset vf _ _ _ s) in *.
  assert (Vb : vdd sb = vf) by apply vdd_vset. assert (Hwb : vhw sb = vhw s) by apply vhw_vset.
  set (vs := vf.[v_avail := <[Z.to_nat (v_avail_idx vf mod Z.of_nat NUM) := Z.of_nat i]> (v_avail vf)]
               .[v_avail_idx := u16 (v_avail_idx vf + 1)]).
  assert (Es : submit i sb = Ok tt (vset vs (mmio_write QUEUE_NOTIFY 0 (vhw s)) (procs s)
    (<[b := x.[b_disk := 1]]> (bufs (bio s))) s)).
  { unfold submit. do 2 (erewrite bind_Ok by apply modv_ok; unfold with_vd;
      rewrite ?vset_vset, ?vdd_vset, ?vhw_vset). rewrite reg_put_ok, vset_vset, vdd_vset, vhw_vset, Vb, Hwb.
    by unfold sb; rewrite vset_vset. }
  eexists i, j, k, _, sb, _. split_and!; [exact E|exact Ef|exact Es| | |].
  - apply running_vset; [done|apply Hrun|done].
  - unfold submitted. rewrite vdd_vset. split_and!; [done|done|apply vhw_vset|done].
  - rewrite vdd_vset. apply vd_ok_avail; [rewrite length_insert; apply (vk_avail _ _ Kf)|exact Kf].
Qed.

(** The wait for completion, as a resumed thread runs it. *)
Lemma wait_done_sleeps n b x s :
  running ci pid [vdisk_lock] s -> bufs (bio s) !! b = Some x -> b_disk x = 1 ->
  exists s1, wait_done n b s = Switched s1 (fun s' => bindO (bindO (sleep_tail ci vdisk_lock s')
      (fun _ => ret (inl tt))) (fun r : unit + unit => match r with
        | inl a => while n (fun _ : unit =>
            let* x := getb b in
            if b_disk x =? 1 then sleep (buf_chan b) vdisk_lock;;; ret (inl tt) else ret (inr tt)) a
        | inr u => ret u end)) /\
    asleep_on (buf_chan b) s1 /\ krest s1 = krest s.
Proof.
  intros Hr Hb Hd. destruct (sleep_virtio (buf_chan b) s Hr) as (s1 & E & A & K).
  exists s1. split; [|done]. apply while_Switched. erewrite bind_Ok by (apply vgetb_ok; exact Hb).
  rewrite Hd. cbn [Z.eqb Pos.eqb]. by apply bind_Switched.
Qed.

Lemma wait_done_over n b x s :
  bufs (bio s) !! b = Some x -> b_disk x <> 1 -> wait_done n b s = Ok tt s.
Proof.
  intros Hb Hd. apply while_inr. erewrite bind_Ok by (apply vgetb_ok; exact Hb).
  by rewrite (proj2 (Z.eqb_neq _ _) Hd).
Qed.

(** C15: the life of a disk request.  At every moment the eight descriptors are
    free or belong to exactly one request in flight, each a well-formed chain
    of header, data and status for its buffer and sector ([vd_ok]).  With three
    descriptors to be had, [virtio_disk_rw] adds one such request for its
    buffer, publishes it as the next entry of the available ring and only then
    notifies the device, and sleeps on the buffer with no lock but its own; a
    wakeup before completion puts it back to sleep with nothing changed; and
    when the interrupt handler has cleared [b->disk], whatever else has been
    submitted or completed meanwhile, it gives back exactly its own
    descriptors and returns.  Otherwise two requests are in flight, and it
    sleeps until descriptors are freed, keeping none of them.  It never
    panics. *)
Theorem virtio_rw_protocol n b write s rs x :
  running ci pid [] s -> vd_ok rs (vdd s) -> bufs (bio s) !! b = Some x ->
  ((length rs <= 1)%nat -> exists i j k s1 resume,
     let r := Req b write (sector_of x) i j k in
     virtio_disk_rw (S n) b write s = Switched s1 resume /\
     asleep_on (buf_chan b) s1 /\ submitted b x r s s1 /\ vd_ok (r :: rs) (vdd s1) /\
     forall s2 rs2 y, running ci pid [plock ci] s2 -> vd_ok (r :: rs2) (vdd s2) ->
       bufs (bio s2) !! b = Some y ->
       (b_disk y = 1 -> exists s3 resume', resume s2 = Switched s3 resume' /\
          asleep_on (buf_chan b) s3 /\ krest s3 = krest s2) /\
       (b_disk y = 0 -> exists s3, resume s2 = Ok tt s3 /\ running ci pid [] s3 /\ vd_ok rs2 (vdd s3) /\
          vhw s3 = vhw s2 /\ bufs (bio s3) = bufs (bio s2) /\
          v_avail (vdd s3) = v_avail (vdd s2) /\ v_avail_idx (vdd s3) = v_avail_idx (vdd s2))) /\
  ((2 <= length rs)%nat -> exists s1 resume,
     virtio_disk_rw (S n) b write s = Switched s1 resume /\
     asleep_on vfree_chan s1 /\ vd_ok rs (vdd s1) /\ vhw s1 = vhw s /\ bufs (bio s1) = bufs (bio s) /\
     v_avail (vdd s1) = v_avail (vdd s) /\ v_avail_idx (vdd s1) = v_avail_idx (vdd s)).
Proof.
  intros Hrun K Hb. destruct (acquire_running ci pid vdisk_lock s Hrun) as [Hacq Hrun1].
  set (s0 := s.[held := [vdisk_lock]]) in *.
  change (vdd s) with (vdd s0) in *. change (vhw s) with (vhw s0).
  change (bufs (bio s)) with (bufs (bio s0)) in *.
  split; intros Hn.
  - destruct (hand_over_ok b write x rs s0 Hrun1 K Hb Hn)
      as (i & j & k & sa & sb & s5 & E & Ef & Es & R5 & (U1 & U2 & U3 & U4) & K5).
    assert (B5 : bufs (bio s5) !! b = Some (x.[b_disk := 1])).
    { rewrite U4. apply list_lookup_insert_eq. by eapply lookup_lt_Some. }
    destruct (wait_done_sleeps (S n) b _ s5 R5 B5 eq_refl) as (s1 & E1 & A1 & K1).
    destruct (same_krest _ _ K1) as (V1 & H1 & B1).
    eexists i, j, k, s1, _. split; [|split; [exact A1|split; [|split]]].
    + unfold virtio_disk_rw. erewrite bind_Ok by (apply (vgetb_ok b x s); exact Hb). cbv zeta.
      erewrite bind_Ok by exact Hacq.
      erewrite bind_Ok by (apply while_inr; by erewrite bind_Ok by exact E). cbv beta iota.
      erewrite bind_Ok by exact Ef. erewrite bind_Ok by exact Es.
      apply bind_Switched. exact E1.
    + unfold submitted. rewrite V1, H1, B1. by split_and!.
    + by rewrite V1.
    + intros s2 rs2 y R2 K2 B2.
      destruct (sleep_tail_ok ci pid vdisk_lock s2 R2) as (s3 & -> & R3 & K3). cbn [bindO].
      destruct (same_krest _ _ K3) as (V3 & H3 & B3). rewrite <- V3 in K2. rewrite <- B3 in B2.
      change (bindO (ret (inl tt) s3) ?f) with (f (inl tt) s3). cbv beta iota. split; intros Hd.
      * destruct (wait_done_sleeps n b _ s3 R3 B2 Hd) as (s6 & E6 & A6 & K6).
        exists s6. eexists. split; [|split; [exact A6|congruence]].
        unfold wait_done in E6. rewrite E6. reflexivity.
      * pose proof (wait_done_over n b _ s3 B2 ltac:(lia)) as Eo. unfold wait_done in Eo.
        rewrite Eo. cbn [bindO].
        destruct (retire_ok _ _ s3 R3 K2) as (s6 & E6 & R6 & K6 & H6 & B6 & X1 & X2).
        exists s6. rewrite <- V3, <- H3, <- B3. split_and!; done.
  - destruct (proj2 (alloc3_ok rs s0 K (vio_can_wake _ Hrun1)) Hn) as (v & ps & E & Kv & Wk & X1 & X2).
    set (s4 := vset v _ ps _ s0) in *.
    assert (R4 : running ci pid [vdisk_lock] s4) by (by eapply running_woken).
    destruct (sleep_virtio vfree_chan s4 R4) as (s1 & E1 & A1 & K1).
    destruct (same_krest _ _ K1) as (V1 & H1 & B1).
    exists s1. eexists. split; [|split; [exact A1|]].
    + unfold virtio_disk_rw. erewrite bind_Ok by (apply (vgetb_ok b x s); exact Hb). cbv zeta.
      erewrite bind_Ok by exact Hacq. apply bind_Switched. apply while_Switched.
      erewrite bind_Ok by exact E. cbv beta iota. apply bind_Switched. exact E1.
    + rewrite V1, H1, B1. unfold s4. rewrite vdd_vset, vhw_vset. by split_and!.
Qed.
End virtio_exec.

(** ** Completion *)

(** The device has completed the requests at [heads]: the used ring lists
    them from [used_idx] on, with status 0. *)
Record completed (heads : list request) (v : vdisk) : Prop := {
  cm_len : length (v_used v) = NUM;
  cm_n : (length heads <= NUM)%nat;
  cm_idx : 0 <= v_used_idx v < W16;
  cm_end : v_used_end v = u16 (v_used_idx v + Z.of_nat (length heads));
  cm_at : forall m r, heads !! m = Some r ->
    v_used v !! Z.to_nat ((v_used_idx v + Z.of_nat m) mod Z.of_nat NUM) = Some (Z.of_nat (r_1 r)) /\
    v_info v !! r_1 r = Some (VInfo (Some (r_buf r)) 0);
}.

Lemma alter_as_insert {A} (f : A -> A) (l : list A) i y : l !! i = Some y -> alter f i l = <[i := f y]> l.
Proof.
  revert i. induction l as [|x l IH]; intros [|i] Hi; try done; simpl in *; [by injection Hi as ->|].
  f_equal. by apply IH.
Qed.

Definition undisk (bl : list buf) (r : request) : list buf :=
  alter (fun y => y.[b_disk := 0]) (r_buf r) bl.
Definition wake_buf (me : option nat) (ps : list proc) (r : request) : list proc :=
  imap (wake_entry me (buf_chan (r_buf r))) ps.
Definition seen (v : vdisk) : vdisk := v.[v_used_idx := u16 (v_used_idx v + 1)].

Lemma completed_cons r rs v : completed (r :: rs) v ->
  v_used_idx v <> v_used_end v /\
  v_used v !! Z.to_nat (v_used_idx v mod Z.of_nat NUM) = Some (Z.of_nat (r_1 r)) /\
  v_info v !! r_1 r = Some (VInfo (Some (r_buf r)) 0) /\ completed rs (seen v).
Proof.
  intros [H1 H2 H3 H4 H5]. cbn [length] in *. destruct (H5 0%nat r eq_refl) as [A B].
  rewrite Z.add_0_r in A. unfold u16, NUM in *. split_and!; [|done|done|].
  - rewrite H4. dlia.
  - unfold seen, u16. split; simpl; [done|unfold NUM; lia|dlia|rewrite H4; unfold u16; dlia|].
    intros m q Hm. destruct (H5 (S m) q Hm) as [C D]. split; [|done]. rewrite <- C.
    unfold NUM. do 2 f_equal. dlia.
Qed.

Lemma completed_nil v : completed [] v -> v_used_idx v = v_used_end v.
Proof. intros [H1 H2 H3 H4 H5]. rewrite H4. unfold u16. simpl. dlia. Qed.

Section virtio_intr.
Context {H R : Type} {hw : VirtioHw H} {L : Layer (VioSt H) R}.
Abbreviation St := (Kst (KMem (BioSt R))).
Implicit Types s : St.

Lemma intr_loop_ok heads s :
  completed heads (vdd s) -> can_wake s ->
  Forall (fun r => is_Some (bufs (bio s) !! r_buf r)) heads ->
  forall n, (length heads < n)%nat ->
  while n (fun _ : unit => let* stop := intr_body in ret (if stop then inr tt else inl tt)) tt s =
    Ok tt (vset (Nat.iter (length heads) seen (vdd s)) (vhw s)
      (foldl (wake_buf (cproc s)) (procs s) heads) (foldl undisk (bufs (bio s)) heads) s).
Proof.
  revert s. induction heads as [|r rs IH]; intros s Hc W Hb [|n] Hn; try (simpl in Hn; lia).
  - assert (E : intr_body s = Ok true s).
    { unfold intr_body. erewrite bind_Ok by apply getv_ok.
      by rewrite (proj2 (Z.eqb_eq _ _) (completed_nil _ Hc)). }
    rewrite (while_inr _ n tt tt s s) by (by erewrite bind_Ok by exact E). simpl. by rewrite vset_id.
  - apply Forall_cons in Hb as [[y Hy] Hb]. destruct (completed_cons _ _ _ Hc) as (C1 & C2 & C3 & C4).
    set (s1 := vset (seen (vdd s)) (vhw s) (wake_buf (cproc s) (procs s) r) (undisk (bufs (bio s)) r) s).
    assert (E : intr_body s = Ok false s1).
    { unfold intr_body. erewrite bind_Ok by apply getv_ok. rewrite (proj2 (Z.eqb_neq _ _) C1), C2.
      unfold bind at 1; simpl. rewrite Nat2Z.id, C3. unfold bind at 1; simpl. unfold bind at 1; simpl.
      erewrite bind_Ok by (apply modb_ok; exact Hy).
      erewrite bind_Ok by (apply wakeup_eq; apply W).
      erewrite bind_Ok by apply modv_ok. unfold s1, undisk, ret, with_vd. f_equal.
      rewrite (alter_as_insert _ _ _ _ Hy).
      match goal with |- context [vset _ (vhw ?x)] => set (s2 := x) end.
      change (vhw s2) with (vhw (vset (vdd s) (vhw s) (procs s) (<[r_buf r := y.[b_disk := 0]]> (bufs (bio s))) s)).
      change (vdd s2) with (vdd (vset (vdd s) (vhw s) (procs s) (<[r_buf r := y.[b_disk := 0]]> (bufs (bio s))) s)).
      rewrite vhw_vset, vdd_vset. unfold s2, vset. simpl. by rewrite layer_set_set. }
    erewrite while_inl by (by erewrite bind_Ok by exact E).
    assert (V1 : vdd s1 = seen (vdd s)) by apply vdd_vset.
    rewrite IH.
    + assert (Hs : forall v h ps bl, vset v h ps bl s1 = vset v h ps bl s) by (intros; apply vset_vset).
      assert (H1 : vhw s1 = vhw s) by apply vhw_vset.
      rewrite Hs, V1, H1. cbn [foldl length]. by rewrite Nat.iter_succ_r.
    + by rewrite V1.
    + apply can_wake_vset; [|done]. unfold wake_buf. rewrite length_imap. apply W.
    + eapply Forall_impl; [exact Hb|]. intros q [z Hz]. unfold s1. rewrite bufs_vset. unfold undisk.
      destruct (decide (q.(r_buf) = r.(r_buf))) as [->|Hne].
      * rewrite list_lookup_alter_eq, Hy. by eexists.
      * rewrite list_lookup_alter_ne by done. by exists z.
    + simpl in Hn. lia.
Qed.

(** The interrupt handler: every completed request is seen once, its buffer is
    released and its sleepers are woken, and no other buffer changes. *)
Lemma virtio_disk_intr_ok heads s :
  vdisk_lock ∉ held s -> completed heads (vdd s) -> can_wake s ->
  Forall (fun r => is_Some (bufs (bio s) !! r_buf r)) heads ->
  exists h, virtio_disk_intr s =
    Ok tt (vset (Nat.iter (length heads) seen (vdd s)) h
      (foldl (wake_buf (cproc s)) (procs s) heads) (foldl undisk (bufs (bio s)) heads) s).
Proof.
  intros Hl Hc W Hb. unfold virtio_disk_intr. erewrite bind_Ok by (by apply acquire_ok).
  set (s0 := s.[held := vdisk_lock :: held s]).
  assert (Hreg : exists x h, reg_get INTERRUPT_STATUS s0 =
    Ok x (vset (vdd s0) h (procs s0) (bufs (bio s0)) s0)).
  { unfold reg_get, bind at 1, gets. simpl. change (v_hw (vst s0)) with (vhw s0).
    destruct (mmio_read INTERRUPT_STATUS (vhw s0)) as [x h]. eexists _, h.
    erewrite bind_Ok by reflexivity. reflexivity. }
  destruct Hreg as (x & h & E). erewrite bind_Ok by exact E.
  erewrite bind_Ok by apply reg_put_ok.
  rewrite vset_vset, vdd_vset, vhw_vset, procs_vset, bufs_vset.
  set (h' := mmio_write _ _ h). set (s1 := vset (vdd s0) h' _ _ s0).
  assert (V1 : vdd s1 = vdd s) by apply vdd_vset. assert (H1 : vhw s1 = h') by apply vhw_vset.
  erewrite bind_Ok.
  2: { apply (intr_loop_ok heads s1); [by rewrite V1| |done|].
       - split; [apply W|]. intros i Hi. apply not_elem_of_cons. split; [done|]. by apply (proj2 W).
       - pose proof (cm_n _ _ Hc). lia. }
  exists h'. rewrite V1, H1. erewrite release_ok; [|reflexivity|exact Hl].
  unfold s1. rewrite vset_vset. by destruct s.
Qed.
End virtio_intr.

(** ** Witness *)

(** A device that records what is written to its registers. *)
#[export] Instance demo_virtio : VirtioHw (list (Z * Z)) :=
  {| mmio_read _ h := (0, h); mmio_write r x h := h ++ [(r, x)] |}.
Definition demo_vdisk : vdisk :=
  VDisk (replicate 8 (VDesc DmaNull 0 0 0)) (replicate 8 0) 65535 (replicate 8 0) 65535
    (replicate 8 1) 65535 (replicate 8 (VInfo None 0)) (replicate 8 (VReq 0 0 0)).
Definition demo_vio_st : Kst (KMem (BioSt (VioSt (list (Z * Z))))) :=
  KSt [] (Some 0%nat) (proc_zero.[p_state := RUNNING].[p_pid := 7] :: replicate 63 proc_zero) 8 None 0
    (KM ∅ 0 0 (BioS [buf_zero.[b_blockno := 21]] (VioS demo_vdisk []))).

Lemma demo_vd_ok : vd_ok [] (vdd demo_vio_st).
Proof. split; try done; constructor. Qed.

Lemma virtio_rw_protocol_witness :
  exists s1 resume i j k, virtio_disk_rw 2 0 true demo_vio_st = Switched s1 resume /\
    vd_ok [Req 0 true 42 i j k] (vdd s1) /\ v_avail_idx (vdd s1) = 0 /\
    vhw s1 = [(QUEUE_NOTIFY, 0)].
Proof.
  destruct (virtio_rw_protocol 0 7 1 0 true demo_vio_st [] (buf_zero.[b_blockno := 21]))
    as [(i & j & k & s1 & resume & E & _ & (_ & U2 & U3 & _) & K & _) _].
  - split_and!; try done. by eexists.
  - exact demo_vd_ok.
  - done.
  - simpl. lia.
  - exists s1, resume, i, j, k. split_and!; [exact E|exact K|exact U2|exact U3].
Defined.

(** The first request takes descriptors 0, 1 and 2. *)
Example virtio_submits :
  match virtio_disk_rw 2 0 true demo_vio_st with
  | Switched s _ => (v_free (vdd s), v_avail (vdd s), rq_sector <$> head (v_ops (vdd s)))
  | _ => ([], [], None)
  end = ([0; 0; 0; 1; 1; 1; 1; 1], [0; 0; 0; 0; 0; 0; 0; 0], Some 42).
Proof. by vm_compute. Qed.
