(* ===== verification/Log.v ===== *)
(** The redo log (kernel/log.c).

    A transaction's blocks are collected in the in-memory header [lh], written
    to the log area, committed by writing the header block, installed at
    their home locations, and the header is cleared. *)

From S2P Require Import Prelude CInt Machine Sched Sleeplock Kalloc Bio.

(** ** Block contents *)

(** The little-endian [int] number [i] of a block, and a store to it. *)
Definition get32 (d : list Z) (i : nat) : Z := le_combine (take 4 (drop (4 * i) d)).
Definition set32 (d : list Z) (i : nat) (v : Z) : list Z :=
  splice d (4 * i) (le_split 4 v).

(** ** kernel/fs.h: struct superblock *)

Record superblock := SB {
  sb_magic : Z;
  sb_size : Z;
  sb_nblocks : Z;
  sb_ninodes : Z;
  sb_nlog : Z;
  sb_logstart : Z;
  sb_inodestart : Z;
  sb_bmapstart : Z;
}.

(** ** [struct log], with [struct logheader] *)

Record LogSt (R : Type) := LogS {
  log_start : Z;
  log_size : Z;
  log_outstanding : Z;
  log_committing : Z;
  log_dev : Z;
  lh_n : Z;
  lh_block : list Z;
  logrest : R;
}.
Arguments LogS {R}. Arguments log_start {R}. Arguments log_size {R}.
Arguments log_outstanding {R}. Arguments log_committing {R}. Arguments log_dev {R}.
Arguments lh_n {R}. Arguments lh_block {R}. Arguments logrest {R}.
#[export] Instance eta_log R : Eta (LogSt R) := fun s =>
  LogS (log_start s) (log_size s) (log_outstanding s) (log_committing s) (log_dev s)
    (lh_n s) (lh_block s) (logrest s).

#[export] Program Instance log_layer {A R} {L : Layer A R} : Layer A (LogSt R) := {|
  layer_get k := layer_get (logrest k);
  layer_set a k := k.[logrest := layer_set a (logrest k)];
|}.
Next Obligation. intros. apply layer_get_set. Qed.
Next Obligation. intros. unfold upd_field; simpl. by rewrite layer_set_set. Qed.
Next Obligation. intros A R L []. unfold upd_field; simpl. by rewrite layer_set_get. Qed.

Definition log_lock : kptr := KSym "log.lock" 0.
Definition log_chan : kptr := KSym "log" 0.

Section log.
Context {R : Type} {dd : DiskDriver (LogSt R)} {pt : Patience}.
Abbreviation St := (Kst (KMem (BioSt (LogSt R)))).

Definition logst (s : St) : LogSt R := biorest (bio s).
Definition getlog : M St (LogSt R) := gets logst.
Definition modlog (f : LogSt R -> LogSt R) : M St unit :=
  modify (fun s => s.[krest := (krest s).[kmrest := (kmrest (krest s)).[biorest := f (logst s)]]]).

(** [log.lh.block[i]], an access inside the array. *)
Definition lh_at (i : Z) : M St Z :=
  let* l := getlog in deref (lh_block l !! Z.to_nat i).

(** One iteration of [install_trans]. *)
Definition install_one (recovering : bool) (tail : Z) : M St unit :=
  let* l := getlog in
  let* lbuf := bread (log_dev l) (u32 (log_start l + tail + 1)) in
  let* home := lh_at tail in
  let* dbuf := bread (log_dev l) (u32 home) in
  let* d := bdata lbuf in
  set_bdata dbuf d;;;
  bwrite dbuf;;;
  (if recovering then ret tt else bunpin dbuf);;;
  brelse lbuf;;;
  brelse dbuf.

Definition install_trans (recovering : bool) : M St unit :=
  let* l := getlog in
  mfor (zseq 0 (Z.to_nat (lh_n l))) (install_one recovering).

(** The [int]s of the header block: [n], then [block[]]; a block number
    beyond [LOGSIZE] would be stored outside the array. *)
Definition read_head : M St unit :=
  let* l := getlog in
  let* b := bread (log_dev l) (u32 (log_start l)) in
  let* d := bdata b in
  modlog (fun l => l.[lh_n := s32 (get32 d 0)]);;;
  let* l := getlog in
  mfor (seq 0 (Z.to_nat (lh_n l))) (fun i =>
    let* l := getlog in
    let* old := deref (lh_block l !! i) in
    modlog (fun l => l.[lh_block := <[i := s32 (get32 d (S i))]> (lh_block l)]));;;
  brelse b.

Definition write_head : M St unit :=
  let* l := getlog in
  let* b := bread (log_dev l) (u32 (log_start l)) in
  let* d := bdata b in
  set_bdata b (set32 d 0 (lh_n l));;;
  mfor (seq 0 (Z.to_nat (lh_n l))) (fun i =>
    let* v := lh_at (Z.of_nat i) in
    let* d := bdata b in
    set_bdata b (set32 d (S i) v));;;
  bwrite b;;;
  brelse b.

Definition recover_from_log : M St unit :=
  read_head;;;
  install_trans true;;;
  modlog (fun l => l.[lh_n := 0]);;;
  write_head.

(** [sizeof(struct logheader) < BSIZE] holds for [LOGSIZE]. *)
Definition initlog (dev : Z) (sb : superblock) : M St unit :=
  modlog (fun l => l.[log_start := s32 (sb_logstart sb)]);;;
  modlog (fun l => l.[log_size := s32 (sb_nlog sb)]);;;
  modlog (fun l => l.[log_dev := dev]);;;
  recover_from_log.

Definition begin_op : M St unit :=
  acquire log_lock;;;
  while (S patience) (fun _ : unit =>
    let* l := getlog in
    if negb (log_committing l =? 0) then
      sleep log_chan log_lock;;; ret (inl tt)
    else if LOGSIZE <? lh_n l + (log_outstanding l + 1) * MAXOPBLOCKS then
      sleep log_chan log_lock;;; ret (inl tt)
    else
      modlog (fun l => l.[log_outstanding := log_outstanding l + 1]);;;
      release log_lock;;;
      ret (inr tt)) tt.

Definition write_log : M St unit :=
  let* l := getlog in
  mfor (zseq 0 (Z.to_nat (lh_n l))) (fun tail =>
    let* l := getlog in
    let* to := bread (log_dev l) (u32 (log_start l + tail + 1)) in
    let* home := lh_at tail in
    let* from := bread (log_dev l) (u32 home) in
    let* d := bdata from in
    set_bdata to d;;;
    bwrite to;;;
    brelse from;;;
    brelse to).

Definition commit : M St unit :=
  let* l := getlog in
  when (0 <? lh_n l)
    (write_log;;;
     write_head;;;
     install_trans false;;;
     modlog (fun l => l.[lh_n := 0]);;;
     write_head).

Definition end_op : M St unit :=
  acquire log_lock;;;
  modlog (fun l => l.[log_outstanding := log_outstanding l - 1]);;;
  let* l := getlog in
  if negb (log_committing l =? 0) then panic "log.committing" else
  let do_commit := log_outstanding l =? 0 in
  (if do_commit then modlog (fun l => l.[log_committing := 1]) else wakeup log_chan);;;
  release log_lock;;;
  when do_commit
    (commit;;;
     acquire log_lock;;;
     modlog (fun l => l.[log_committing := 0]);;;
     wakeup log_chan;;;
     release log_lock).

(** The first slot of the header that holds [bn]: log absorption. *)
Definition log_slot (bn : Z) (l : LogSt R) : nat :=
  match find_idx (fun x => u32 x =? bn) (take (Z.to_nat (lh_n l)) (lh_block l)) with
  | Some (i, _) => i
  | None => Z.to_nat (lh_n l)
  end.

Definition log_write (b : nat) : M St unit :=
  acquire log_lock;;;
  let* l := getlog in
  if (LOGSIZE <=? lh_n l) || (log_size l - 1 <=? lh_n l) then panic "too big a transaction" else
  if log_outstanding l <? 1 then panic "log_write outside of trans" else
  let* x := getb b in
  let i := log_slot (b_blockno x) l in
  let* old := deref (lh_block l !! i) in
  modlog (fun l => l.[lh_block := <[i := s32 (b_blockno x)]> (lh_block l)]);;;
  (if Z.of_nat i =? lh_n l then
     bpin b;;; modlog (fun l => l.[lh_n := lh_n l + 1])
   else ret tt);;;
  release log_lock.
End log.
