(* ===== verification/LogThm.v ===== *)
(** Crash safety of the log (kernel/log.c): [commit] makes the blocks of a
    transaction reach the disk all or none, wherever the machine stops, and
    [recover_from_log] finds out which.

    The theorems are over the buffer-cache invariant of [BioThm]: a committing
    thread runs alone on a disk that records its writes; a crash keeps a
    prefix of them. *)

From S2P Require Import Prelude CInt Machine Sched Sleeplock Kalloc Bio BioRing BioThm Log.

#[export] Instance log_disk {R} {dl : DiskLens R} : DiskLens (LogSt R).
Proof.
  refine {| dget := fun l => dget (logrest l); dset := fun w l => l.[logrest := dset w (logrest l)] |}.
  - intros w l. unfold upd_field. simpl. apply dget_dset.
  - intros w w' l. unfold upd_field. simpl. by rewrite dset_dset.
  - intros l. unfold upd_field. simpl. rewrite dset_dget. by destruct l.
Defined.

(** ** The header block *)

Lemma get32_set32 d i v j :
  length d = 1024%nat -> (i < 256)%nat -> (j < 256)%nat ->
  get32 (set32 d i v) j = if decide (i = j) then u32 v else get32 d j.
Proof.
  intros Hd Hi Hj. unfold get32, set32.
  assert (length (le_split 4 v) = 4%nat) as HL by apply le_split_length.
  case_decide as Hij.
  - subst j. rewrite <- HL at 1. rewrite splice_read by lia. rewrite le_combine_split. done.
  - by rewrite splice_read_other by lia.
Qed.

Lemma set32_length d i v : length d = 1024%nat -> (i < 256)%nat -> length (set32 d i v) = 1024%nat.
Proof. intros Hd Hi. unfold set32. rewrite splice_length; rewrite ?le_split_length; lia. Qed.

(** What [write_head] puts into the header block. *)
Fixpoint put_blocks (d : list Z) (i : nat) (bs : list Z) : list Z :=
  match bs with
  | [] => d
  | b :: bs => put_blocks (set32 d (S i) b) (S i) bs
  end.
Definition header (d : list Z) (bs : list Z) : list Z :=
  put_blocks (set32 d 0 (Z.of_nat (length bs))) 0 bs.

Lemma put_blocks_snoc d i bs b :
  put_blocks d i (bs ++ [b]) = set32 (put_blocks d i bs) (S (i + length bs)) b.
Proof.
  revert d i. induction bs as [|c bs IH]; intros d i; simpl; [by rewrite Nat.add_0_r|].
  rewrite IH. do 2 f_equal. lia.
Qed.

Lemma put_blocks_length d i bs :
  length d = 1024%nat -> (i + length bs < 256)%nat -> length (put_blocks d i bs) = 1024%nat.
Proof.
  revert d i. induction bs as [|b bs IH]; intros d i Hd Hi; simpl in *; [done|].
  apply IH; [apply set32_length; lia|lia].
Qed.

Lemma get_put_blocks d i bs j :
  length d = 1024%nat -> (i + length bs < 256)%nat -> (j < 256)%nat ->
  get32 (put_blocks d i bs) j =
    match bs !! (j - S i)%nat with
    | Some b => if decide (i < j)%nat then u32 b else get32 d j
    | None => get32 d j
    end.
Proof.
  revert d i. induction bs as [|b bs IH]; intros d i Hd Hi Hj; [done|]. cbn [put_blocks length] in *.
  rewrite IH by (try lia; apply set32_length; lia). rewrite get32_set32 by lia.
  destruct (decide (S i = j)) as [<-|Hne].
  - rewrite Nat.sub_diag. replace (S i - S (S i))%nat with 0%nat by lia. simpl.
    rewrite decide_True by lia. destruct bs; simpl; [done|]. by rewrite decide_False by lia.
  - destruct (decide (j <= i)%nat) as [Hle|Hgt].
    + replace (j - S (S i))%nat with 0%nat by lia. replace (j - S i)%nat with 0%nat by lia. simpl.
      rewrite (decide_False (P := (i < j)%nat)) by lia.
      destruct bs; simpl; [done|]. by rewrite !decide_False by lia.
    + replace (j - S i)%nat with (S (j - S (S i))) by lia. simpl.
      destruct (bs !! _); [|done]. by rewrite !decide_True by lia.
Qed.

Lemma header_get d bs :
  length d = 1024%nat -> (length bs < 255)%nat -> Forall (fun b => 0 <= b < W31) bs ->
  length (header d bs) = 1024%nat /\
  s32 (get32 (header d bs) 0) = Z.of_nat (length bs) /\
  forall i b, bs !! i = Some b -> s32 (get32 (header d bs) (S i)) = b.
Proof.
  intros Hd Hn Hb. unfold header. set (d1 := set32 d 0 (Z.of_nat (length bs))).
  assert (Hd1 : length d1 = 1024%nat) by (apply set32_length; lia). split; [|split].
  - apply put_blocks_length; lia.
  - rewrite get_put_blocks by lia. unfold d1. rewrite get32_set32 by lia. simpl.
    assert (E : s32 (u32 (Z.of_nat (length bs))) = Z.of_nat (length bs))
      by (rewrite u32_small, s32_small; lia).
    destruct (bs !! 0%nat); exact E.
  - intros i b Hi. pose proof (lookup_lt_Some _ _ _ Hi). rewrite get_put_blocks by lia.
    replace (S i - 1)%nat with i by lia. rewrite Hi. rewrite decide_True by lia.
    rewrite Forall_lookup in Hb. specialize (Hb i b Hi). simpl in Hb. rewrite u32_small, s32_small; lia.
Qed.

(** ** Disk contents under a list of writes *)

Definition writes (D : Z -> list Z) (l : list (Z * list Z)) : Z -> list Z :=
  fun b => foldl (fun d '(b', d') => if b' =? b then d' else d) (D b) l.

Lemma content_app d0 w l b : content d0 (w ++ l) b = writes (content d0 w) l b.
Proof. unfold content, writes. by rewrite foldl_app. Qed.

Lemma writes_app D l l' b : writes D (l ++ l') b = writes (writes D l) l' b.
Proof. unfold writes. by rewrite foldl_app. Qed.

Lemma writes_snoc D l b d x : writes D (l ++ [(b, d)]) x = if b =? x then d else writes D l x.
Proof. unfold writes. by rewrite foldl_app. Qed.

Lemma writes_out D l b : b ∉ l.*1 -> writes D l b = D b.
Proof.
  unfold writes. induction l as [|[c d] l IH] using rev_ind; [done|].
  rewrite fmap_app, foldl_app. intros Hn. simpl.
  destruct (Z.eqb_spec c b) as [->|]; [exfalso; apply Hn, elem_of_app; right; left|].
  apply IH. intros H. apply Hn, elem_of_app. by left.
Qed.

(** A block written once. *)
Lemma writes_in D l i b d :
  NoDup l.*1 -> l !! i = Some (b, d) -> writes D l b = d.
Proof.
  revert i. induction l as [|[c e] l IH] using rev_ind; intros i Hnd Hi; [done|].
  rewrite writes_snoc. rewrite fmap_app in Hnd. apply NoDup_app in Hnd as (Hnd & Hdis & _).
  destruct (decide (i < length l)%nat) as [Hlt|Hge].
  - rewrite lookup_app_l in Hi by done.
    destruct (Z.eqb_spec c b) as [->|]; [|by eapply IH].
    exfalso. apply (Hdis b); [|left]. apply list_elem_of_fmap. exists (b, d).
    split; [done|by eapply list_elem_of_lookup_2].
  - rewrite lookup_app_r in Hi by lia. destruct (i - length l)%nat; simpl in Hi; [|done].
    injection Hi as -> ->. by rewrite Z.eqb_refl.
Qed.

Section logthm.
Context {R : Type} {dl : DiskLens R} {dd : DiskDriver (LogSt R)} {d0 : Z -> list Z}
  {sd : SyncDisk (LogSt R) d0} {pt : Patience}.
Context (ci : nat) (pid dv start : Z).
Abbreviation St := (Kst (KMem (BioSt (LogSt R)))).
Abbreviation at0 := (at_ ci pid []).
Abbreviation cch := (cache (d0 := d0) pid dv).
Implicit Types (s : St) (w : list (Z * list Z)) (k : KMem (BioSt (LogSt R))).

Lemma cache_ext Hs P V V' w o bl : (forall b, V' b = V b) -> cch Hs P V w o bl -> cch Hs P V' w o bl.
Proof.
  intros HV [Cr Cb Cu Ch Cn Cpn Cc]. split; try done.
  - intros i x Hi Hx. by apply (buf_ok_ext pid dv Hs P V); [..|apply Cb].
  - intros b. rewrite HV. apply Cc.
Qed.

(** ** The log's own state *)

Definition lg k : LogSt R := biorest (kmrest k).
Definition klog (f : LogSt R -> LogSt R) k : KMem (BioSt (LogSt R)) :=
  k.[kmrest := (kmrest k).[biorest := f (lg k)]].

(** An update of the log's fields, which leaves the disk alone. *)
Definition disk_free (f : LogSt R -> LogSt R) : Prop := forall w l, f (dset w l) = dset w (f l).

Lemma wp_getlog h s bl w k Q : at_ ci pid h s bl w k -> Q (dset w (lg k)) s -> wp getlog Q s.
Proof. intros [_ H] HQ. eapply wp_exec; [reflexivity|]. unfold logst, bio. by rewrite H. Qed.

Lemma wp_modlog h f s bl w k Q :
  at_ ci pid h s bl w k -> disk_free f -> (forall s', at_ ci pid h s' bl w (klog f k) -> Q tt s') -> wp (modlog f) Q s.
Proof.
  intros [A1 A2] Hf HQ. eapply wp_exec; [reflexivity|]. apply HQ. split; [done|].
  change (krest _) with ((krest s).[kmrest := (kmrest (krest s)).[biorest := f (biorest (kmrest (krest s)))]]).
  rewrite A2. transitivity (k.[kmrest := BioS bl (f (dset w (biorest (kmrest k))))]); [reflexivity|].
  by rewrite Hf.
Qed.

Lemma wp_lh_at s bl w k i b Q :
  at0 s bl w k -> lh_block (lg k) !! Z.to_nat i = Some b -> Q b s -> wp (lh_at i) Q s.
Proof.
  intros A Hb HQ. apply wp_seq. eapply wp_getlog; [exact A|]. simpl. rewrite Hb. done.
Qed.

(** The log on disk: the header at [start] and one block per entry after it. *)
Definition la (i : Z) : Z := start + i + 1.
Definition in_log (b : Z) : Prop := start <= b < start + LOGSIZE.

Record lgk k (bs : list Z) : Prop := {
  lk_start : log_start (lg k) = start;
  lk_dev : log_dev (lg k) = dv;
  lk_n : lh_n (lg k) = Z.of_nat (length bs);
  lk_blk : exists tl, lh_block (lg k) = bs ++ tl;
}.

(** A block number that is not in the log. *)
Definition home_ok (b : Z) : Prop := 0 <= b < W31 /\ ~ in_log b.
Definition start_ok : Prop := 0 <= start /\ start + LOGSIZE < W31.

Lemma la_u32 i : start_ok -> 0 <= i < LOGSIZE -> u32 (start + i + 1) = la i.
Proof. unfold start_ok, LOGSIZE, MAXOPBLOCKS, la. intros. apply u32_small. lia. Qed.

Lemma la_in_log i : 0 <= i < LOGSIZE - 1 -> in_log (la i).
Proof. unfold in_log, la. lia. Qed.

Lemma lgk_at k bs i b : lgk k bs -> bs !! i = Some b -> lh_block (lg k) !! i = Some b.
Proof. intros [_ _ _ [tl ->]] Hb. by apply lookup_app_l_Some. Qed.

(** ** [write_log] *)

Lemma wp_write_log_one P V s bl w k o bs i b Q :
  at0 s bl w k -> cch [] P V w o bl -> lgk k bs -> start_ok -> Z.of_nat (length bs) < LOGSIZE ->
  (length P <= length bs)%nat -> Forall home_ok P -> bs !! i = Some b -> b ∈ P ->
  (forall o' bl' s' w', w' = w ++ [(la (Z.of_nat i), V b)] ->
     at0 s' bl' w' k -> cch [] P (vset V (la (Z.of_nat i)) (V b)) w' o' bl' -> Q tt s') ->
  wp (let* l := getlog in
      let* to := bread (log_dev l) (u32 (log_start l + Z.of_nat i + 1)) in
      let* home := lh_at (Z.of_nat i) in
      let* from := bread (log_dev l) (u32 home) in
      let* d := bdata from in
      set_bdata to d;;;
      bwrite to;;;
      brelse from;;;
      brelse to) Q s.
Proof.
  intros A C L Hst Hn HP Hhome Hb HbP HQ. pose proof (lookup_lt_Some _ _ _ Hb) as Hi.
  set (t := la (Z.of_nat i)) in *. unfold LOGSIZE, MAXOPBLOCKS in Hn.
  assert (Ht : in_log t) by (apply la_in_log; unfold LOGSIZE, MAXOPBLOCKS; lia).
  assert (HtP : t ∉ P) by (intros H; rewrite Forall_forall in Hhome; by apply (Hhome t H)).
  rewrite Forall_forall in Hhome. pose proof (Hhome b HbP) as [Hb31 Hbl].
  assert (Hbt : b <> t) by (by intros ->).
  apply wp_seq. eapply wp_getlog; [exact A|]. simpl log_dev. simpl log_start.
  rewrite (lk_dev _ _ L), (lk_start _ _ L), la_u32 by (done || (unfold LOGSIZE, MAXOPBLOCKS; lia)). fold t.
  apply wp_seq. eapply wp_bread; [exact A|exact C|apply not_elem_of_nil|right; unfold NBUF; simpl; lia|].
  intros to bl1 s1 A1 C1. apply wp_seq. eapply wp_lh_at; [exact A1| |].
  { rewrite Nat2Z.id. by eapply lgk_at. }
  rewrite u32_small by lia. apply wp_seq.
  eapply wp_bread; [exact A1|exact C1|by apply not_elem_of_cons; split; [|apply not_elem_of_nil]|by left|].
  intros from bl2 s2 A2 C2. apply wp_seq.
  eapply wp_bdata; [exact A2|exact C2|left|]. apply wp_seq.
  eapply wp_set_bdata; [exact A2|exact C2|right; left|]. intros bl3 s3 A3 C3. apply wp_seq.
  eapply wp_bwrite; [exact A3|exact C3|right; left|]. intros s4 A4 C4.
  assert (Ev : vset V t (V b) t = V b) by (unfold vset; by rewrite Z.eqb_refl). rewrite Ev in A4, C4.
  apply wp_seq. eapply wp_brelse; [exact A4|exact C4|by left|]. intros o5 bl5 s5 A5 C5.
  eapply wp_brelse; [exact A5|exact C5|right; by rewrite Ev, content_snoc, Z.eqb_refl|].
  intros o6 bl6 s6 A6 C6. by eapply HQ.
Qed.

(** The writes of [write_log]: each block to its slot of the log. *)
Definition lws (V : Z -> list Z) (bs : list Z) : list (Z * list Z) :=
  imap (fun i b => (la (Z.of_nat i), V b)) bs.

Lemma lws_lookup V bs i b : bs !! i = Some b -> lws V bs !! i = Some (la (Z.of_nat i), V b).
Proof. intros H. unfold lws. by rewrite list_lookup_imap, H. Qed.

Lemma lws_length V bs : length (lws V bs) = length bs.
Proof. apply length_imap. Qed.

Lemma lws_in_log V bs c : Z.of_nat (length bs) < LOGSIZE -> c ∈ (lws V bs).*1 -> in_log c.
Proof.
  intros Hn (x & -> & Hx)%list_elem_of_fmap. apply list_elem_of_lookup in Hx as [i Hi].
  unfold lws in Hi. rewrite list_lookup_imap in Hi. destruct (bs !! i) as [b|] eqn:Hb; [|done].
  injection Hi as <-. apply lookup_lt_Some in Hb. apply la_in_log. lia.
Qed.

Lemma lws_nodup V bs : NoDup (lws V bs).*1.
Proof.
  apply NoDup_alt. intros i j c Hi Hj. rewrite list_lookup_fmap in Hi, Hj. unfold lws in *.
  rewrite list_lookup_imap in Hi, Hj. destruct (bs !! i), (bs !! j); try done. simpl in *.
  injection Hi as <-. injection Hj as Hj. unfold la in Hj. lia.
Qed.

Lemma take_S_app {A} (l : list A) i x : l !! i = Some x -> take (S i) l = take i l ++ [x].
Proof. apply take_S_r. Qed.

Lemma writes_log_home V bs i b :
  Z.of_nat (length bs) < LOGSIZE -> home_ok b -> writes V (take i (lws V bs)) b = V b.
Proof.
  intros Hn [_ Hb]. apply writes_out. intros H. apply Hb, (lws_in_log V bs); [done|].
  apply list_elem_of_fmap in H as (x & -> & Hx). apply list_elem_of_fmap. exists x.
  split; [done|]. by eapply elem_of_take in Hx as (j & ? & ?); eapply list_elem_of_lookup_2.
Qed.

(** A view of the disk under the cache, up to pointwise equality. *)
Definition cached P (V : Z -> list Z) s w k : Prop :=
  exists o bl V', at0 s bl w k /\ cch [] P V' w o bl /\ forall b, V' b = V b.

Lemma wp_write_log P V s w k bs Q :
  cached P V s w k -> lgk k bs -> start_ok -> Z.of_nat (length bs) < LOGSIZE ->
  Permutation P bs -> Forall home_ok bs ->
  (forall s', cached P (writes V (lws V bs)) s' (w ++ lws V bs) k -> Q tt s') -> wp write_log Q s.
Proof.
  intros (o & bl & V0 & A & C & HV) L Hst Hn HP Hhome HQ.
  unfold write_log. apply wp_seq. eapply wp_getlog; [exact A|]. simpl lh_n. rewrite (lk_n _ _ L), Nat2Z.id.
  eapply wp_mono.
  - apply (wp_mfor_idx (fun i s' =>
      cached P (writes V (take i (lws V bs))) s' (w ++ take i (lws V bs)) k)).
    + exists o, bl, V0. rewrite take_0, app_nil_r. by split_and!.
    + clear s o bl V0 A C HV. intros i x s Hi (o & bl & V1 & A & C & HV).
      pose proof (lookup_lt_Some _ _ _ Hi) as Hlt. rewrite zseq_length in Hlt.
      rewrite zseq_lookup in Hi by done. injection Hi as <-.
      destruct (lookup_lt_is_Some_2 bs i Hlt) as [b Hb].
      assert (Hbh : home_ok b) by (rewrite Forall_lookup in Hhome; by apply (Hhome i)).
      change (0 + Z.of_nat i) with (Z.of_nat i).
      eapply wp_write_log_one; [exact A|exact C|done|done|done|by rewrite HP|by rewrite HP|exact Hb| |].
      { rewrite HP. by eapply list_elem_of_lookup_2. }
      intros o' bl' s' w' -> A' C'. assert (E : V1 b = V b) by (rewrite HV; by apply writes_log_home).
      rewrite E in *. rewrite (take_S_app _ _ _ (lws_lookup V bs i b Hb)), app_assoc.
      exists o', bl', (vset V1 (la (Z.of_nat i)) (V b)). split; [done|]. split; [done|].
      intros c. rewrite writes_snoc. unfold vset. rewrite Z.eqb_sym. destruct (_ =? c); [done|apply HV].
  - intros [] s' H. cbv beta in H. rewrite zseq_length, <- (lws_length V bs), firstn_all in H. by apply HQ.
Qed.

(** ** [write_head] *)

Lemma vset_eq V b d : vset V b d b = d.
Proof. unfold vset. by rewrite Z.eqb_refl. Qed.
Lemma vset_ne V b d c : c <> b -> vset V b d c = V c.
Proof. intros H. unfold vset. by rewrite (proj2 (Z.eqb_neq _ _) H). Qed.

Lemma writes_one V b d c : writes V [(b, d)] c = vset V b d c.
Proof. unfold vset. by rewrite Z.eqb_sym. Qed.

Lemma wp_write_head P V s w k bs Q :
  cached P V s w k -> lgk k bs -> start_ok -> (length P < NBUF)%nat -> start ∉ P ->
  (forall s', cached P (writes V [(start, header (V start) bs)]) s' (w ++ [(start, header (V start) bs)]) k ->
     Q tt s') -> wp write_head Q s.
Proof.
  intros (o & bl & V0 & A & C & HV) L Hst HP Hsp HQ.
  unfold write_head. apply wp_seq. eapply wp_getlog; [exact A|]. simpl log_dev. simpl log_start. simpl lh_n.
  rewrite (lk_dev _ _ L), (lk_start _ _ L), (lk_n _ _ L), Nat2Z.id.
  rewrite u32_small by (unfold start_ok, LOGSIZE, MAXOPBLOCKS in Hst; lia).
  apply wp_seq. eapply wp_bread; [exact A|exact C|apply not_elem_of_nil|right; simpl; lia|].
  intros b bl1 s1 A1 C1. apply wp_seq. eapply wp_bdata; [exact A1|exact C1|left|]. apply wp_seq.
  eapply wp_set_bdata; [exact A1|exact C1|left|]. intros bl2 s2 A2 C2. rewrite HV in C2. apply wp_seq.
  eapply wp_mono.
  - apply (wp_mfor_idx (fun i s' => exists bl' V', at0 s' bl' w k /\ cch [(b, start)] P V' w o bl' /\
      forall c, V' c = vset V start (put_blocks (set32 (V start) 0 (Z.of_nat (length bs))) 0 (take i bs)) c)).
    + exists bl2, (vset V0 start (set32 (V start) 0 (Z.of_nat (length bs)))). split; [done|]. split; [done|].
      intros c. unfold vset. rewrite take_0. simpl. destruct (c =? start); [done|apply HV].
    + clear s2 bl2 A2 C2. intros i x s2 Hi (bl2 & V2 & A2 & C2 & HV2).
      pose proof (lookup_lt_Some _ _ _ Hi) as Hlt. rewrite length_seq in Hlt.
      rewrite lookup_seq_lt in Hi by done. injection Hi as <-.
      destruct (lookup_lt_is_Some_2 bs i Hlt) as [v Hv].
      apply wp_seq. eapply wp_lh_at; [exact A2|rewrite Nat2Z.id; by eapply lgk_at|]. apply wp_seq.
      eapply wp_bdata; [exact A2|exact C2|left|].
      eapply wp_set_bdata; [exact A2|exact C2|left|]. intros bl3 s3 A3 C3.
      exists bl3, (vset V2 start (set32 (V2 start) (S i) v)). split; [done|]. split; [done|].
      intros c. rewrite HV2, vset_eq, (take_S_app _ _ _ Hv), put_blocks_snoc. unfold vset at 1 2.
      rewrite length_take, Nat.min_l by lia. destruct (Z.eqb_spec c start); [done|].
      rewrite HV2. by apply vset_ne.
  - intros [] s3 H. cbv beta in H. rewrite length_seq, firstn_all in H. destruct H as (bl3 & V3 & A3 & C3 & HV3).
    change (put_blocks _ _ bs) with (header (V start) bs) in HV3. apply wp_seq.
    eapply wp_bwrite; [exact A3|exact C3|left|]. rewrite HV3, vset_eq. intros s4 A4 C4.
    eapply wp_brelse; [exact A4|exact C4|right; by rewrite HV3, vset_eq, content_snoc, Z.eqb_refl|].
    intros o5 bl5 s5 A5 C5. apply HQ. exists o5, bl5, V3. split; [done|]. split; [done|].
    intros c. by rewrite HV3, writes_one.
Qed.

(** ** [install_trans] *)

(** The claims of the log on the home blocks: none when recovering, the
    transaction's blocks otherwise. *)
Definition pinned (recovering : bool) (bs : list Z) : list Z := if recovering then [] else bs.

Lemma wp_install_one recovering V s w k o bl V1 bs i b Q :
  at0 s bl w k -> cch [] (pinned recovering (drop i bs)) V1 w o bl -> (forall c, V1 c = V c) ->
  lgk k bs -> start_ok -> Z.of_nat (length bs) < LOGSIZE -> Forall home_ok bs -> NoDup bs ->
  bs !! i = Some b ->
  (forall s', cached (pinned recovering (drop (S i) bs)) (writes V [(b, V (la (Z.of_nat i)))]) s'
     (w ++ [(b, V (la (Z.of_nat i)))]) k -> Q tt s') ->
  wp (install_one recovering (Z.of_nat i)) Q s.
Proof.
  intros A C HV L Hst Hn Hhome Hnd Hb HQ. pose proof (lookup_lt_Some _ _ _ Hb) as Hi.
  set (t := la (Z.of_nat i)) in *. set (P := pinned recovering (drop i bs)) in *.
  assert (Ht : in_log t) by (apply la_in_log; lia).
  assert (HPh : forall c, c ∈ P -> home_ok c).
  { intros c Hc. rewrite Forall_forall in Hhome. apply Hhome. unfold P, pinned in Hc.
    destruct recovering; [by apply not_elem_of_nil in Hc|].
    rewrite <- (take_drop i bs). apply elem_of_app. by right. }
  assert (HPn : (length P < 30)%nat).
  { unfold P, pinned. destruct recovering; simpl; [lia|]. rewrite length_drop.
    unfold LOGSIZE, MAXOPBLOCKS in Hn. lia. }
  assert (HtP : t ∉ P) by (intros H; by apply HPh in H as [_ H]).
  assert (Hbh : home_ok b) by (rewrite Forall_lookup in Hhome; by apply (Hhome i)).
  destruct Hbh as [Hb31 Hbl]. assert (Hbt : b <> t) by (by intros ->).
  assert (HPb : b ∈ P \/ (length [t] + length P < NBUF)%nat).
  { unfold P, pinned. destruct recovering; [right; simpl; unfold NBUF; lia|left].
    apply list_elem_of_lookup. exists 0%nat. rewrite lookup_drop. by rewrite Nat.add_0_r. }
  unfold install_one. apply wp_seq. eapply wp_getlog; [exact A|]. simpl log_dev. simpl log_start.
  rewrite (lk_dev _ _ L), (lk_start _ _ L), la_u32 by (done || lia). fold t.
  apply wp_seq. eapply wp_bread; [exact A|exact C|apply not_elem_of_nil|right; unfold NBUF; simpl; lia|].
  intros lb bl1 s1 A1 C1. apply wp_seq. eapply wp_lh_at; [exact A1|rewrite Nat2Z.id; by eapply lgk_at|].
  rewrite u32_small by lia. apply wp_seq.
  eapply wp_bread; [exact A1|exact C1|by apply not_elem_of_cons; split; [|apply not_elem_of_nil]|exact HPb|].
  intros db bl2 s2 A2 C2. apply wp_seq. eapply wp_bdata; [exact A2|exact C2|right; left|]. apply wp_seq.
  eapply wp_set_bdata; [exact A2|exact C2|left|]. intros bl3 s3 A3 C3. apply wp_seq.
  eapply wp_bwrite; [exact A3|exact C3|left|]. intros s4 A4 C4. rewrite vset_eq in A4, C4. rewrite HV in *.
  assert (Hpin : forall Q', (forall bl' s', at0 s' bl' (w ++ [(b, V t)]) k ->
      cch [(db, b); (lb, t)] (pinned recovering (drop (S i) bs)) (vset V1 b (V t)) (w ++ [(b, V t)]) o bl' -> Q' tt s') ->
    wp (if recovering then ret tt else bunpin db) Q' s4).
  { intros Q' HQ'. destruct recovering; [apply wp_ret; by eapply HQ'|].
    unfold P, pinned in C4. rewrite (drop_S _ _ _ Hb) in C4.
    eapply wp_bunpin; [exact A4|apply not_elem_of_nil|exact C4|left| |exact HQ'].
    rewrite <- (take_drop i bs), (drop_S _ _ _ Hb) in Hnd. apply NoDup_app in Hnd as (_ & _ & Hnd).
    by apply NoDup_cons in Hnd as [? _]. }
  apply wp_seq. apply Hpin. intros bl5 s5 A5 C5. clear Hpin.
  set (P' := pinned recovering (drop (S i) bs)) in *.
  apply wp_seq. eapply wp_brelse; [exact A5|eapply cache_perm; [apply perm_swap|exact C5]|right|].
  { rewrite vset_ne, content_snoc by done. rewrite (proj2 (Z.eqb_neq b t)) by done.
    rewrite <- (ca_clean _ _ _ _ _ _ _ _ C t HtP (not_elem_of_nil _)). done. }
  intros o6 bl6 s6 A6 C6.
  eapply wp_brelse; [exact A6|exact C6|right; by rewrite vset_eq, content_snoc, Z.eqb_refl|].
  intros o7 bl7 s7 A7 C7. apply HQ. exists o7, bl7, (vset V1 b (V t)). split; [done|]. split; [done|].
  intros c. rewrite writes_one. unfold vset. destruct (c =? b); [done|apply HV].
Qed.

(** The writes of [install_trans]: each slot to its home. *)
Definition hws (V : Z -> list Z) (bs : list Z) : list (Z * list Z) :=
  imap (fun i b => (b, V (la (Z.of_nat i)))) bs.

Lemma hws_fst V bs : (hws V bs).*1 = bs.
Proof.
  unfold hws. rewrite fmap_imap. apply list_eq. intros i. rewrite list_lookup_imap.
  by destruct (bs !! i).
Qed.

Lemma hws_lookup V bs i b : bs !! i = Some b -> hws V bs !! i = Some (b, V (la (Z.of_nat i))).
Proof. intros H. unfold hws. by rewrite list_lookup_imap, H. Qed.

Lemma writes_home_log V l i c :
  Forall home_ok l.*1 -> in_log c -> writes V (take i l) c = V c.
Proof.
  intros Hh Hc. apply writes_out. intros (x & -> & Hx)%list_elem_of_fmap.
  assert (x ∈ l) by (rewrite <- (take_drop i l); apply elem_of_app; by left).
  rewrite Forall_forall in Hh. destruct (Hh x.1) as [_ Hx2]; [|done]. apply list_elem_of_fmap. eauto.
Qed.

Lemma wp_install_trans recovering V s w k bs Q :
  cached (pinned recovering bs) V s w k -> lgk k bs -> start_ok -> Z.of_nat (length bs) < LOGSIZE ->
  Forall home_ok bs -> NoDup bs ->
  (forall s', cached [] (writes V (hws V bs)) s' (w ++ hws V bs) k -> Q tt s') ->
  wp (install_trans recovering) Q s.
Proof.
  intros Hc L Hst Hn Hhome Hnd HQ. pose proof Hc as (o & bl & V0 & A & _).
  unfold install_trans. apply wp_seq. eapply wp_getlog; [exact A|]. simpl lh_n. rewrite (lk_n _ _ L), Nat2Z.id.
  clear o bl V0 A. assert (Hl : length (hws V bs) = length bs) by apply length_imap.
  eapply wp_mono.
  - apply (wp_mfor_idx (fun i s' => cached (pinned recovering (drop i bs)) (writes V (take i (hws V bs))) s'
      (w ++ take i (hws V bs)) k)).
    + rewrite take_0, app_nil_r. done.
    + clear s Hc. intros i x s Hi (o & bl & V1 & A & C & HV).
      pose proof (lookup_lt_Some _ _ _ Hi) as Hlt. rewrite zseq_length in Hlt.
      rewrite zseq_lookup in Hi by done. injection Hi as <-. change (0 + Z.of_nat i) with (Z.of_nat i).
      destruct (lookup_lt_is_Some_2 bs i Hlt) as [b Hb].
      assert (E : writes V (take i (hws V bs)) (la (Z.of_nat i)) = V (la (Z.of_nat i))).
      { apply writes_home_log; [by rewrite hws_fst|apply la_in_log; lia]. }
      eapply wp_install_one; [exact A|exact C|exact HV|done..|exact Hb|].
      intros s' Hc'. rewrite E in Hc'.
      rewrite (take_S_app _ _ _ (hws_lookup V bs i b Hb)), app_assoc.
      destruct Hc' as (o' & bl' & V' & A' & C' & HV'). exists o', bl', V'. split; [done|]. split; [done|].
      intros c. rewrite HV', <- writes_app. done.
  - intros [] s' H. cbv beta in H. rewrite zseq_length, drop_all in H.
    rewrite <- Hl, firstn_all in H. apply HQ. by destruct recovering.
Qed.

(** ** [commit] *)

(** The disk writes of a commit. *)
Definition homes (V : Z -> list Z) (bs : list Z) : list (Z * list Z) := (fun b => (b, V b)) <$> bs.
Definition commit_writes (V : Z -> list Z) (bs : list Z) : list (Z * list Z) :=
  lws V bs ++ [(start, header (V start) bs)] ++ homes V bs ++
  [(start, header (header (V start) bs) [])].

Lemma homes_fst V bs : (homes V bs).*1 = bs.
Proof. unfold homes. rewrite <- list_fmap_compose. by apply list_fmap_id. Qed.

Lemma start_in_log : in_log start.
Proof. unfold in_log, LOGSIZE, MAXOPBLOCKS. lia. Qed.

Lemma lws_not_start V bs : start ∉ (lws V bs).*1.
Proof.
  intros (x & Hx1 & Hx)%list_elem_of_fmap. apply list_elem_of_lookup in Hx as [i Hi].
  unfold lws in Hi. rewrite list_lookup_imap in Hi. destruct (bs !! i); [|done].
  injection Hi as <-. simpl in Hx1. unfold la in Hx1. lia.
Qed.

(** The view after [write_log] and [write_head]. *)
Lemma view_logged V bs :
  Z.of_nat (length bs) < LOGSIZE ->
  let V2 := writes (writes V (lws V bs)) [(start, header (V start) bs)] in
  V2 start = header (V start) bs /\ hws V2 bs = homes V bs /\
  (forall c, home_ok c -> V2 c = V c).
Proof.
  intros Hn V2. split; [|split].
  - unfold V2. by rewrite writes_one, vset_eq.
  - unfold hws, homes. apply list_eq. intros i. rewrite list_lookup_imap, list_lookup_fmap.
    destruct (bs !! i) as [b|] eqn:Hb; [|done]. simpl. do 2 f_equal. unfold V2.
    rewrite writes_one, vset_ne by (unfold la; lia).
    apply (writes_in V (lws V bs) i); [apply lws_nodup|by apply lws_lookup].
  - intros c [Hc1 Hc2]. unfold V2. rewrite writes_one, vset_ne by (intros ->; apply Hc2, start_in_log).
    apply writes_out. intros H. by apply lws_in_log in H.
Qed.

Lemma lgk_clear k bs : lgk k bs -> lgk (klog (fun l => l.[lh_n := 0]) k) [].
Proof. intros [H1 H2 H3 [tl H4]]. split; [done|done|done|]. by exists (lh_block (lg k)). Qed.

Lemma cached_ext P V V' s w k : (forall b, V' b = V b) -> cached P V s w k -> cached P V' s w k.
Proof.
  intros H (o & bl & V0 & A & C & HV). exists o, bl, V0. split; [done|]. split; [done|].
  intros b. by rewrite H.
Qed.

Lemma wp_commit V s w k bs Q :
  cached bs V s w k -> lgk k bs -> start_ok -> 0 < Z.of_nat (length bs) < LOGSIZE ->
  Forall home_ok bs -> NoDup bs ->
  (forall s' k', cached [] (writes V (commit_writes V bs)) s' (w ++ commit_writes V bs) k' ->
     lgk k' [] -> Q tt s') -> wp commit Q s.
Proof.
  intros Hc L Hst Hn Hhome Hnd HQ. pose proof Hc as (o & bl & V0 & A & _).
  destruct (view_logged V bs ltac:(lia)) as (E1 & E2 & E3).
  assert (Hsb : start ∉ bs).
  { rewrite Forall_forall in Hhome. intros H%Hhome. apply H, start_in_log. }
  unfold commit. apply wp_seq. eapply wp_getlog; [exact A|]. simpl lh_n. rewrite (lk_n _ _ L).
  rewrite (proj2 (Z.ltb_lt 0 _)) by lia. unfold when. clear o bl V0 A.
  apply wp_seq. eapply wp_write_log; [exact Hc|exact L|done|lia|done|done|]. intros s1 H1.
  apply wp_seq. eapply wp_write_head; [exact H1|exact L|done| |done|].
  { unfold LOGSIZE, MAXOPBLOCKS in Hn. unfold NBUF. lia. }
  intros s2 H2. assert (Es : writes V (lws V bs) start = V start) by (apply writes_out, lws_not_start).
  rewrite Es in H2. set (V2 := writes (writes V (lws V bs)) _) in *.
  apply wp_seq. eapply (wp_install_trans false); [exact H2|exact L|done|lia|done|done|]. intros s3 H3.
  rewrite E2 in H3. pose proof H3 as (o & bl & V0 & A3 & C3 & HV3). apply wp_seq.
  eapply wp_modlog; [exact A3|by intros ? ?|]. intros s4 A4.
  assert (H4 : cached [] (writes V2 (homes V bs)) s4 (((w ++ lws V bs) ++ [(start, header (V start) bs)]) ++
    homes V bs) (klog (fun l => l.[lh_n := 0]) k)) by (by exists o, bl, V0).
  eapply wp_write_head; [exact H4|by eapply lgk_clear|done|simpl; unfold NBUF; lia|apply not_elem_of_nil|].
  intros s5 H5. assert (Es' : writes V2 (homes V bs) start = header (V start) bs).
  { rewrite writes_out; [exact E1|]. by rewrite homes_fst. }
  rewrite Es' in H5. eapply HQ; [|by eapply lgk_clear]. unfold commit_writes.
  rewrite !app_assoc. eapply cached_ext; [|exact H5].
  intros c. unfold V2, writes. by rewrite !foldl_app.
Qed.

(** ** Recovery *)

(** The header block lists [bs]. *)
Definition decodes (d : list Z) (bs : list Z) : Prop :=
  length d = 1024%nat /\ s32 (get32 d 0) = Z.of_nat (length bs) /\
  forall i b, bs !! i = Some b -> s32 (get32 d (S i)) = b.

Lemma header_decodes d bs :
  length d = 1024%nat -> Z.of_nat (length bs) < LOGSIZE -> Forall home_ok bs -> decodes (header d bs) bs.
Proof.
  intros Hd Hn Hb. apply header_get; [done|unfold LOGSIZE, MAXOPBLOCKS in Hn; lia|].
  eapply Forall_impl; [exact Hb|]. by intros b [? _].
Qed.

(** What recovery finds in memory: nothing but the place of the log. *)
Record booted k : Prop := {
  bt_start : log_start (lg k) = start;
  bt_dev : log_dev (lg k) = dv;
  bt_len : length (lh_block (lg k)) = 30%nat;
}.

Lemma wp_read_head V s w k bs Q :
  cached [] V s w k -> booted k -> start_ok -> Z.of_nat (length bs) < LOGSIZE -> decodes (V start) bs ->
  (forall s' k', cached [] V s' w k' -> lgk k' bs -> Q tt s') -> wp read_head Q s.
Proof.
  intros (o & bl & V0 & A & C & HV) [B1 B2 B3] Hst Hn (Hd0 & Hd1 & Hd2) HQ.
  unfold LOGSIZE, MAXOPBLOCKS in Hn.
  unfold read_head. apply wp_seq. eapply wp_getlog; [exact A|]. simpl log_dev. simpl log_start.
  rewrite B1, B2. rewrite u32_small by (unfold start_ok, LOGSIZE, MAXOPBLOCKS in Hst; lia).
  apply wp_seq. eapply wp_bread; [exact A|exact C|apply not_elem_of_nil|right; unfold NBUF; simpl; lia|].
  intros b bl1 s1 A1 C1. apply wp_seq. eapply wp_bdata; [exact A1|exact C1|left|]. apply wp_seq.
  rewrite HV, Hd1. eapply wp_modlog; [exact A1|by intros ? ?|]. intros s2 A2.
  apply wp_seq. eapply wp_getlog; [exact A2|]. simpl lh_n. rewrite Nat2Z.id. apply wp_seq. eapply wp_mono.
  - apply (wp_mfor_idx (fun i s' => exists k', at0 s' bl1 w k' /\ log_start (lg k') = start /\
      log_dev (lg k') = dv /\ lh_n (lg k') = Z.of_nat (length bs) /\
      length (lh_block (lg k')) = 30%nat /\ take i (lh_block (lg k')) = take i bs)).
    + eexists. split; [exact A2|]. by split_and!.
    + clear s2 A2. intros i x s2 Hi (k' & A2 & K1 & K2 & K3 & K4 & K5).
      pose proof (lookup_lt_Some _ _ _ Hi) as Hlt. rewrite length_seq in Hlt.
      rewrite lookup_seq_lt in Hi by done. injection Hi as <-. change (0 + i)%nat with i.
      destruct (lookup_lt_is_Some_2 bs i Hlt) as [v Hv].
      destruct (lookup_lt_is_Some_2 (lh_block (lg k')) i ltac:(lia)) as [old Hold].
      apply wp_seq. eapply wp_getlog; [exact A2|]. simpl lh_block. rewrite Hold. apply wp_seq, wp_ret.
      eapply wp_modlog; [exact A2|by intros ? ?|]. intros s3 A3. eexists. split; [exact A3|].
      rewrite (Hd2 i v Hv). rsimpl_goal. split_and!; try done; [by rewrite length_insert|].
      rewrite (take_S_app _ i v) by (apply list_lookup_insert_eq; lia).
      rewrite take_insert_ge by lia. by rewrite K5, (take_S_app _ _ _ Hv).
  - intros [] s3 H. cbv beta in H. rewrite length_seq, firstn_all in H.
    destruct H as (k' & A3 & K1 & K2 & K3 & K4 & K5).
    eapply wp_brelse; [exact A3|exact C1| |].
    { right. apply (ca_clean _ _ _ _ _ _ _ _ C); apply not_elem_of_nil. }
    intros o4 bl4 s4 A4 C4. eapply HQ; [by exists o4, bl4, V0|].
    split; [done|done|done|]. exists (drop (length bs) (lh_block (lg k'))). rewrite <- K5 at 1.
    by rewrite take_drop.
Qed.

(** The disk writes of a recovery that finds [bs] in the header. *)
Definition recover_writes (V : Z -> list Z) (bs : list Z) : list (Z * list Z) :=
  hws V bs ++ [(start, header (V start) [])].

Lemma wp_recover V s w k bs Q :
  cached [] V s w k -> booted k -> start_ok -> Z.of_nat (length bs) < LOGSIZE -> decodes (V start) bs ->
  Forall home_ok bs -> NoDup bs ->
  (forall s' k', cached [] (writes V (recover_writes V bs)) s' (w ++ recover_writes V bs) k' -> lgk k' [] ->
     Q tt s') -> wp recover_from_log Q s.
Proof.
  intros Hc B Hst Hn Hd Hhome Hnd HQ. unfold recover_from_log.
  apply wp_seq. eapply wp_read_head; [exact Hc|done..|]. intros s1 k1 H1 L1.
  apply wp_seq. eapply (wp_install_trans true); [exact H1|exact L1|done..|]. intros s2 H2.
  pose proof H2 as (o & bl & V0 & A2 & C2 & HV2). apply wp_seq.
  eapply wp_modlog; [exact A2|by intros ? ?|]. intros s3 A3.
  assert (H3 : cached [] (writes V (hws V bs)) s3 (w ++ hws V bs) (klog (fun l => l.[lh_n := 0]) k1))
    by (by exists o, bl, V0).
  assert (Es : writes V (hws V bs) start = V start).
  { rewrite <- (firstn_all (hws V bs)). apply writes_home_log; [by rewrite hws_fst|apply start_in_log]. }
  eapply wp_write_head; [exact H3|by eapply lgk_clear|done|unfold NBUF; simpl; lia|apply not_elem_of_nil|].
  intros s4 H4. rewrite Es in H4. eapply HQ; [|by eapply lgk_clear]. unfold recover_writes.
  rewrite app_assoc. eapply cached_ext; [|exact H4]. intros c. unfold writes. by rewrite foldl_app.
Qed.

Lemma wp_initlog V s w k bs sb Q :
  cached [] V s w k -> length (lh_block (lg k)) = 30%nat -> sb_logstart sb = start ->
  start_ok -> Z.of_nat (length bs) < LOGSIZE -> decodes (V start) bs -> Forall home_ok bs -> NoDup bs ->
  (forall s' k', cached [] (writes V (recover_writes V bs)) s' (w ++ recover_writes V bs) k' -> lgk k' [] ->
     Q tt s') -> wp (initlog dv sb) Q s.
Proof.
  intros (o & bl & V0 & A & C & HV) Hlen Hsb Hst Hn Hd Hhome Hnd HQ. unfold initlog.
  apply wp_seq. eapply wp_modlog; [exact A|by intros ? ?|]. intros s1 A1.
  apply wp_seq. eapply wp_modlog; [exact A1|by intros ? ?|]. intros s2 A2.
  apply wp_seq. eapply wp_modlog; [exact A2|by intros ? ?|]. intros s3 A3.
  eapply wp_recover; [by exists o, bl, V0| |done..|exact HQ].
  split; [|done|done]. unfold lg, klog. simpl. rewrite Hsb. apply s32_small.
  unfold start_ok, LOGSIZE, MAXOPBLOCKS in Hst. lia.
Qed.

(** ** Crashes *)

(** A recovery that finds nothing to install leaves the home blocks alone. *)
Lemma recover_nothing D c : home_ok c -> writes D (recover_writes D []) c = D c.
Proof.
  intros [_ Hc]. unfold recover_writes. simpl. rewrite writes_one. apply vset_ne.
  intros ->. apply Hc, start_in_log.
Qed.

Lemma home_not_start bs : Forall home_ok bs -> start ∉ bs.
Proof. rewrite Forall_forall. intros H Hs%H. apply Hs, start_in_log. Qed.

(** Blocks that a set of writes does not reach. *)
Lemma writes_sub D l L c : (forall x, x ∈ l -> x ∈ L) -> c ∉ L.*1 -> writes D l c = D c.
Proof.
  intros Hl Hc. apply writes_out. intros (x & -> & Hx)%list_elem_of_fmap. apply Hc, list_elem_of_fmap. eauto.
Qed.

(** How far a commit can have come. *)
Lemma commit_prefix V bs l1 l2 :
  commit_writes V bs = l1 ++ l2 ->
  (forall x, x ∈ l1 -> x ∈ lws V bs) \/
  (exists h, (forall x, x ∈ h -> x ∈ homes V bs) /\ l1 = lws V bs ++ [(start, header (V start) bs)] ++ h) \/
  l1 = commit_writes V bs.
Proof.
  unfold commit_writes. intros H.
  apply app_eq_inv in H as [(k & E1 & E2)|(k & E1 & E2)].
  { left. intros x Hx. rewrite E1. apply elem_of_app. by left. }
  destruct k as [|x k]; [left; intros x Hx; by rewrite E1, app_nil_r in Hx|]. right.
  simpl in E2. injection E2 as <- E2.
  apply app_eq_inv in E2 as [(q & E3 & E4)|(q & E3 & E4)].
  - left. exists k. split; [|done]. intros y Hy. rewrite E3. apply elem_of_app. by left.
  - destruct q as [|y q].
    + left. exists k. split; [|done]. intros y Hy. by rewrite E3, app_nil_r in Hy.
    + right. simpl in E4. injection E4 as <- E4. symmetry in E4. apply app_eq_nil in E4 as [-> ->].
      by rewrite E1, E3.
Qed.

(** What the disk looks like once the header has reached it. *)
Lemma committed_disk D V bs h :
  Z.of_nat (length bs) < LOGSIZE -> Forall home_ok bs -> (forall x, x ∈ h -> x ∈ homes V bs) ->
  let D1 := writes D (lws V bs ++ [(start, header (V start) bs)] ++ h) in
  D1 start = header (V start) bs /\ (forall i b, bs !! i = Some b -> D1 (la (Z.of_nat i)) = V b) /\
  (forall c, home_ok c -> c ∉ bs -> D1 c = D c).
Proof.
  intros Hn Hhome Hh D1. pose proof (home_not_start bs Hhome) as Hs.
  assert (Hout : forall D' c, c ∉ bs -> writes D' h c = D' c).
  { intros D' c Hc. apply (writes_sub _ _ _ _ Hh). by rewrite homes_fst. }
  assert (Hin : forall c, in_log c -> c ∉ bs).
  { intros c Hc Hb. rewrite Forall_forall in Hhome. by apply (Hhome c Hb). }
  unfold D1. split; [|split].
  - rewrite !writes_app, Hout by done. by rewrite writes_one, vset_eq.
  - intros i b Hb. pose proof (lookup_lt_Some _ _ _ Hb).
    rewrite !writes_app, Hout by (apply Hin, la_in_log; lia).
    rewrite writes_one, vset_ne by (unfold la; lia).
    apply (writes_in D (lws V bs) i); [apply lws_nodup|by apply lws_lookup].
  - intros c [_ Hc] Hcb. rewrite !writes_app, Hout by done.
    rewrite writes_one, vset_ne by (intros ->; apply Hc, start_in_log).
    apply writes_out. intros H. by apply lws_in_log in H.
Qed.

(** The disk after a crash that lets a prefix [l1] of the commit's writes
    reach it: what its header lists, and what a recovery makes of the home
    blocks. *)
Lemma crash_cases D V bs l1 l2 :
  Z.of_nat (length bs) < LOGSIZE -> Forall home_ok bs -> NoDup bs ->
  (forall c, c ∉ bs -> V c = D c) -> decodes (D start) [] -> commit_writes V bs = l1 ++ l2 ->
  exists hs, decodes (writes D l1 start) hs /\ Z.of_nat (length hs) < LOGSIZE /\ Forall home_ok hs /\ NoDup hs /\
    ((forall c, home_ok c -> writes (writes D l1) (recover_writes (writes D l1) hs) c = D c) \/
     (forall c, home_ok c -> writes (writes D l1) (recover_writes (writes D l1) hs) c = V c)).
Proof.
  intros Hn Hhome Hnd HV Hd Hsplit.
  assert (Hlen : length (V start) = 1024%nat) by (rewrite HV by (by apply home_not_start); apply Hd).
  assert (H0 : Z.of_nat (@length Z []) < LOGSIZE) by (unfold LOGSIZE, MAXOPBLOCKS; simpl; lia).
  destruct (commit_prefix _ _ _ _ Hsplit) as [Hl|[(h & Hh & ->)| ->]].
  - exists []. rewrite (writes_sub D l1 _ start Hl) by apply lws_not_start.
    split_and!; [done|done|by apply Forall_nil|apply NoDup_nil_2|left].
    intros c Hc. rewrite recover_nothing by done. apply (writes_sub D l1 _ c Hl).
    intros H%lws_in_log; [by apply Hc in H|done].
  - exists bs. destruct (committed_disk D V bs h Hn Hhome Hh) as (E1 & E2 & E3).
    set (D1 := writes D _) in *. rewrite E1. split_and!; [by apply header_decodes|done..|right].
    intros c Hc. unfold recover_writes.
    rewrite writes_app, writes_one, vset_ne by (intros ->; apply Hc, start_in_log).
    destruct (decide (c ∈ bs)) as [Hb|Hb].
    + apply list_elem_of_lookup in Hb as [i Hi]. rewrite <- (E2 i c Hi).
      apply (writes_in D1 (hws D1 bs) i); [by rewrite hws_fst|by apply hws_lookup].
    + rewrite writes_out by (by rewrite hws_fst). rewrite (HV c) by done. by apply E3.
  - exists []. destruct (committed_disk D V bs (homes V bs) Hn Hhome (fun x H => H)) as (E1 & E2 & E3).
    assert (Ew : forall c, writes D (commit_writes V bs) c =
      vset (writes D (lws V bs ++ [(start, header (V start) bs)] ++ homes V bs)) start
        (header (header (V start) bs) []) c).
    { intros c. unfold commit_writes. rewrite !app_assoc. rewrite writes_app, writes_one. done. }
    split_and!; [|done|by apply Forall_nil|apply NoDup_nil_2|right].
    + rewrite Ew, vset_eq. apply header_decodes; [|done|by apply Forall_nil].
      by apply (header_decodes (V start) bs).
    + intros c Hc. rewrite recover_nothing by done. rewrite Ew, vset_ne by (intros ->; apply Hc, start_in_log).
      destruct (decide (c ∈ bs)) as [Hb|Hb]; [|rewrite (HV c) by done; by apply E3].
      apply list_elem_of_lookup in Hb as [i Hi]. rewrite !writes_app.
      apply (writes_in _ (homes V bs) i); [by rewrite homes_fst|]. unfold homes. by rewrite list_lookup_fmap, Hi.
Qed.

(** ** [log_write] *)

Lemma log_slot_spec w k bs bn :
  lgk k bs -> Forall home_ok bs -> home_ok bn ->
  match list_find (eq bn) bs with
  | Some (i, _) => log_slot bn (dset w (lg k)) = i /\ bs !! i = Some bn
  | None => log_slot bn (dset w (lg k)) = length bs /\ bn ∉ bs
  end.
Proof.
  intros L Hhome [Hbn _]. unfold log_slot. simpl. rewrite (lk_n _ _ L), Nat2Z.id.
  destruct (lk_blk _ _ L) as [tl ->]. rewrite take_app_length.
  assert (Hu : forall x, x ∈ bs -> (u32 x =? bn) = bool_decide (bn = x)).
  { rewrite Forall_forall in Hhome. intros x Hx. destruct (Hhome x Hx) as [Hx31 _].
    rewrite u32_small by lia. case_bool_decide; subst; lia. }
  destruct (list_find (eq bn) bs) as [[i x]|] eqn:Hl.
  - apply list_find_Some in Hl as (Hi & -> & Hmin).
    destruct (find_idx _ bs) as [[j y]|] eqn:Hf.
    + apply find_idx_Some in Hf as (Hj & Hp & Hmin').
      rewrite Hu in Hp by by eapply list_elem_of_lookup_2. apply bool_decide_eq_true in Hp as <-.
      split; [|done]. destruct (Nat.lt_total i j) as [Hlt|[->|Hlt]]; [|done|].
      * specialize (Hmin' i x Hi Hlt). rewrite Hu, bool_decide_true in Hmin' by (done || by eapply list_elem_of_lookup_2). done.
      * by specialize (Hmin j x Hj Hlt).
    + apply find_idx_None in Hf. rewrite Forall_lookup in Hf. specialize (Hf i x Hi).
      rewrite Hu, bool_decide_true in Hf by (done || by eapply list_elem_of_lookup_2). done.
  - apply list_find_None in Hl. rewrite Forall_forall in Hl.
    destruct (find_idx _ bs) as [[j y]|] eqn:Hf.
    + apply find_idx_Some in Hf as (Hj & Hp & _). pose proof (list_elem_of_lookup_2 _ _ _ Hj) as Hy.
      rewrite Hu in Hp by done. apply bool_decide_eq_true in Hp as <-. by destruct (Hl bn Hy).
    + split; [done|]. intros H. by apply (Hl bn H).
Qed.

(** The blocks of the transaction after [bn] has been logged. *)
Definition absorb (bs : list Z) (bn : Z) : list Z := if decide (bn ∈ bs) then bs else bs ++ [bn].

(** Two states that differ in the log header only. *)
Definition hdr_step k k' : Prop := exists n l,
  k' = klog (fun g => g.[lh_n := n].[lh_block := l]) k /\ length l = length (lh_block (lg k)).

Lemma wp_log_write Hs V s bl w k o bs b bn Q :
  at0 s bl w k -> cch Hs bs V w o bl -> lgk k bs -> length (lh_block (lg k)) = 30%nat ->
  (b, bn) ∈ Hs -> home_ok bn -> Forall home_ok bs ->
  1 <= log_outstanding (lg k) -> Z.of_nat (length bs) < log_size (lg k) - 1 -> log_size (lg k) <= LOGSIZE ->
  (forall s' bl' k', at0 s' bl' w k' -> cch Hs (absorb bs bn) V w o bl' -> lgk k' (absorb bs bn) ->
     hdr_step k k' -> Q tt s') ->
  wp (log_write b) Q s.
Proof.
  intros A C L Hlen Hi Hbn Hhome Hout Hn Hsz HQ. set (n := length bs) in *.
  destruct (ca_held _ _ _ _ _ _ _ _ C b bn Hi) as (_ & x & Hx & _ & Hxb).
  unfold log_write. apply wp_seq. apply (wp_acquire _ _ _ _ _ _ _ _ A). intros s1 A1.
  apply wp_seq. eapply wp_getlog; [exact A1|]. simpl lh_n. simpl log_size. simpl log_outstanding.
  rewrite (lk_n _ _ L). fold n. unfold LOGSIZE, MAXOPBLOCKS in *.
  replace ((10 * 3 <=? Z.of_nat n) || (log_size (lg k) - 1 <=? Z.of_nat n)) with false by lia.
  replace (log_outstanding (lg k) <? 1) with false by lia.
  apply wp_seq. eapply wp_getb; [exact A1|exact Hx|]. rewrite Hxb.
  pose proof (log_slot_spec w k bs bn L Hhome Hbn) as Hslot. unfold absorb in HQ.
  assert (Hs32 : s32 bn = bn) by (destruct Hbn; apply s32_small; lia). rewrite Hs32.
  destruct (lk_blk _ _ L) as [tl Htl].
  destruct (list_find (eq bn) bs) as [[i y]|]; destruct Hslot as [Hsl Hb]; rewrite Hsl.
  - rewrite decide_True in HQ by (by eapply list_elem_of_lookup_2). pose proof (lookup_lt_Some _ _ _ Hb).
    apply wp_seq. simpl lh_block. rewrite (lgk_at _ _ _ _ L Hb). apply wp_ret.
    apply wp_seq. eapply wp_modlog; [exact A1|by intros ? ?|]. intros s2 A2. apply wp_seq.
    replace (Z.of_nat i =? Z.of_nat n) with false by (unfold n; lia). apply wp_ret.
    apply (wp_release _ _ _ _ _ _ _ _ A2). intros s3 A3. eapply HQ; [exact A3|done| |].
    { destruct L as [L1 L2 L3 L4]. split; [done|done|done|]. exists tl.
      unfold lg, klog. rsimpl_goal. fold (lg k). rewrite Htl. apply list_insert_id. by apply lookup_app_l_Some. }
    eexists (lh_n (lg k)), _. split; [unfold klog, lg, upd_field; simpl; reflexivity|apply length_insert].
  - rewrite decide_False in HQ by done. fold n.
    destruct (lookup_lt_is_Some_2 (lh_block (lg k)) n) as [old Hold]; [lia|].
    apply wp_seq. simpl lh_block. rewrite Hold. apply wp_ret.
    apply wp_seq. eapply wp_modlog; [exact A1|by intros ? ?|]. intros s2 A2. apply wp_seq.
    rewrite Z.eqb_refl. apply wp_seq. eapply wp_bpin; [exact A2| |exact C|exact Hi|exact Hb|].
    { intros ?%list_elem_of_singleton. done. }
    intros bl3 s3 A3 C3. eapply wp_modlog; [exact A3|by intros ? ?|]. intros s4 A4.
    apply (wp_release _ _ _ _ _ _ _ _ A4). intros s5 A5. eapply HQ; [exact A5|eapply cache_perm_pin; [|exact C3]; apply Permutation_cons_append| |
      eexists _, _; split; [unfold klog, lg, upd_field; simpl; reflexivity|apply length_insert]].
    destruct L as [L1 L2 L3 L4]. split; [done|done| |].
    + unfold lg, klog. rsimpl_goal. fold (lg k). rewrite L3, length_app. simpl. lia.
    + unfold lg, klog. rsimpl_goal. fold (lg k). rewrite Htl in *. rewrite length_app in Hlen.
      destruct tl as [|t0 tl]; [simpl in Hlen; unfold n in *; lia|]. exists tl.
      rewrite insert_app_r_alt by (unfold n; lia). unfold n. rewrite Nat.sub_diag. simpl.
      by rewrite <- app_assoc.
Qed.

(** [log_write] on a locked buffer adds its block to the transaction once,
    however often the block is written: a block already in the header is
    absorbed, a new one takes the next slot and is pinned in the cache; the
    header never outgrows the log. *)
Theorem log_write_absorbs Hs V s bl w k o bs b bn :
  at0 s bl w k -> cch Hs bs V w o bl -> lgk k bs -> length (lh_block (lg k)) = 30%nat ->
  (b, bn) ∈ Hs -> home_ok bn -> Forall home_ok bs ->
  1 <= log_outstanding (lg k) -> Z.of_nat (length bs) < log_size (lg k) - 1 -> log_size (lg k) <= LOGSIZE ->
  exists s' bl' k', log_write b s = Ok tt s' /\ at0 s' bl' w k' /\
    cch Hs (absorb bs bn) V w o bl' /\ lgk k' (absorb bs bn) /\
    Z.of_nat (length (absorb bs bn)) <= log_size (lg k) - 1.
Proof.
  intros A C L Hlen Hi Hbn Hhome Hout Hn Hsz.
  assert (H : wp (log_write b) (fun _ s' => exists bl' k', at0 s' bl' w k' /\
    cch Hs (absorb bs bn) V w o bl' /\ lgk k' (absorb bs bn)) s) by (eapply wp_log_write; eauto 10).
  apply wp_Ok in H as ([] & s' & E & bl' & k' & A' & C' & L'). exists s', bl', k'. split_and!; try done.
  unfold absorb. case_decide; [lia|]. rewrite length_app. simpl. lia.
Qed.

(** ** Theorems *)

(** A new transaction can be let in: its ten blocks fit beside those logged and
    those reserved by the other transactions. *)
Definition has_room (l : LogSt R) : Prop :=
  log_committing l = 0 /\ lh_n l + (log_outstanding l + 1) * MAXOPBLOCKS <= LOGSIZE.

(** From the state [s0] in which the caller last got the CPU it goes to sleep on
    the log, because there is no room; it has changed nothing but its own
    entry of the process table. *)
Definition log_waits (s0 s : St) : Prop :=
  ~ has_room (logst s0) /\ krest s = krest s0 /\ held s = [plock ci] /\
  (exists p, procs s !! ci = Some p /\ p_state p = SLEEPING /\ p_chan p = Some log_chan) /\
  forall j, j <> ci -> procs s !! j = procs s0 !! j.

(** It counts its transaction in. *)
Definition log_admits (s0 s : St) : Prop :=
  has_room (logst s0) /\ running ci pid [] s /\
  krest s = klog (fun l => l.[log_outstanding := log_outstanding l + 1]) (krest s0) /\
  forall j, j <> ci -> procs s !! j = procs s0 !! j.

Lemma log_waits_sleeps s0 s :
  running ci pid [log_lock] s -> krest s = krest s0 -> ~ has_room (logst s0) ->
  (forall j, j <> ci -> procs s !! j = procs s0 !! j) ->
  exists s1, sleep log_chan log_lock s = Switched s1 (sleep_tail ci log_lock) /\ log_waits s0 s1.
Proof.
  intros (Hlen & Hc & Hh & p & Hp & Hpid) Hk Hr Hj.
  eexists. split; [by apply (sleep_eq _ _ _ ci p)|]. split_and!; [done|done|done| |].
  - eexists. split; [by eapply list_insert_lookup_same|done].
  - intros j Hne. simpl. rewrite list_lookup_insert_ne by done. by apply Hj.
Qed.

(** C26: [begin_op] returns only after reserving space.  Between getting the
    CPU for the last time, in [s0], and returning, it finds that no commit is
    running and that ten blocks for the new transaction and for every
    transaction outstanding fit in the log beside the blocks already logged,
    and adds one to [log.outstanding]; nothing else changes.  Each time there
    is no room it goes to sleep on the log, with no lock but its own and the
    log as it was, so wakeups without effect are harmless; and with room at
    the call it returns without sleeping. *)
Theorem begin_op_reserves s :
  running ci pid [] s ->
  swp log_waits (fun _ s' => running ci pid [plock ci] s') (fun _ s0 _ s' => log_admits s0 s')
    (S patience) s (begin_op s) /\
  (has_room (logst s) -> exists s', begin_op s = Ok tt s' /\ log_admits s s').
Proof.
  intros Hrun. destruct (acquire_running ci pid log_lock s Hrun) as [Hacq Hrun1].
  unfold begin_op. split.
  2: { intros [Hcm Hsp]. erewrite bind_Ok by exact Hacq. eexists. split.
       { apply while_inr. unfold bind at 1, getlog, gets. cbn [bindO].
         change (logst (s.[held := [log_lock]])) with (logst s).
       rewrite (proj2 (Z.eqb_eq _ _) Hcm), (proj2 (Z.ltb_ge _ _) Hsp). cbn [negb].
         unfold bind at 1, modlog, modify. cbn [bindO].
         erewrite bind_Ok by (apply (release_ok log_lock []); [done|apply not_elem_of_nil]). done. }
       destruct Hrun as (Hlen & Hc & Hh & p & Hp & Hpid).
       split; [by split|]. split; [by split_and!; eauto|]. by split. }
  apply swp_bind. eapply swp_Ok; [exact Hacq|].
  eapply (swp_while _ _ (fun _ s0 s => running ci pid [log_lock] s /\ krest s = krest s0 /\
    forall j, j <> ci -> procs s !! j = procs s0 !! j)); [done|].
  clear. intros n [] s0 s1 (Hrun1 & Hk & Hj).
  assert (Hlog : logst s1 = logst s0) by (unfold logst, bio; by rewrite Hk).
  assert (Hsleep : ~ has_room (logst s0) -> forall Q,
    (forall s0 s', running ci pid [log_lock] s' -> krest s' = krest s0 ->
       (forall j, j <> ci -> procs s' !! j = procs s0 !! j) -> Q n s0 (inl tt) s') ->
    swp log_waits (fun _ s' => running ci pid [plock ci] s') Q (S n) s0
      ((sleep log_chan log_lock;;; ret (@inl unit unit tt)) s1)).
  { intros Hr Q HQ. apply swp_bind. destruct (log_waits_sleeps s0 s1 Hrun1 Hk Hr Hj) as (s2 & -> & Hw).
    split; [exact Hw|]. intros s3 Hrun3.
    destruct (sleep_tail_frame ci pid log_lock s3 Hrun3) as (s4 & -> & Hrun4 & Hk4 & Hj4). by apply HQ. }
  unfold bind at 1, getlog, gets. simpl bindO. rewrite Hlog.
  destruct (Z.eqb_spec (log_committing (logst s0)) 0) as [Hcm|Hcm]; cbn [negb];
    [|apply Hsleep; [by intros []|intros; by split_and!]].
  destruct (Z.ltb_spec LOGSIZE (lh_n (logst s0) + (log_outstanding (logst s0) + 1) * MAXOPBLOCKS)) as [Hsp|Hsp];
    [apply Hsleep; [intros []; lia|intros; by split_and!]|].
  unfold bind at 1, modlog, modify. simpl bindO. pose proof Hrun1 as (Hlen & Hc & Hh & p & Hp & Hpid).
  eapply swp_bind, swp_Ok.
  { apply (release_ok log_lock []); [exact Hh|apply not_elem_of_nil]. }
  split; [by split|]. split; [by split_and!; eauto|]. split; [|done].
  simpl. unfold logst, bio. by rewrite Hk.
Qed.

(** C1: a commit is atomic with respect to crashes.  [commit] returns, having
    written each block of the transaction to its home and left an empty log.
    Wherever a crash cuts the sequence of its disk writes, the next boot's
    [initlog] returns, and leaves on disk either, at every home block, what
    was there before the commit, or, at every home block, what the transaction
    wrote; and the log on disk is empty again. *)
Theorem commit_crash_atomic V s w k bs :
  cached bs V s w k -> lgk k bs -> start_ok -> 0 < Z.of_nat (length bs) < LOGSIZE ->
  Forall home_ok bs -> NoDup bs -> decodes (content d0 w start) [] ->
  exists s' k' cw, commit s = Ok tt s' /\ cached [] (writes V cw) s' (w ++ cw) k' /\ lgk k' [] /\
    (forall c, home_ok c -> content d0 (w ++ cw) c = V c) /\
    forall l1 l2 s1 k1 sb, cw = l1 ++ l2 ->
      cached [] (content d0 (w ++ l1)) s1 (w ++ l1) k1 -> length (lh_block (lg k1)) = 30%nat ->
      sb_logstart sb = start ->
      exists s2 k2 rw, initlog dv sb s1 = Ok tt s2 /\ cached [] (content d0 (w ++ l1 ++ rw)) s2 (w ++ l1 ++ rw) k2 /\
        lgk k2 [] /\
        ((forall c, home_ok c -> content d0 (w ++ l1 ++ rw) c = content d0 w c) \/
         (forall c, home_ok c -> content d0 (w ++ l1 ++ rw) c = V c)).
Proof.
  intros Hc L Hst Hn Hhome Hnd Hd.
  assert (HVD : forall c, c ∉ bs -> V c = content d0 w c).
  { destruct Hc as (o & bl & V0 & _ & C & HV). intros c Hcb. rewrite <- HV.
    apply (ca_clean _ _ _ _ _ _ _ _ C); [done|apply not_elem_of_nil]. }
  assert (H : wp commit (fun _ s' => exists k', cached [] (writes V (commit_writes V bs)) s'
    (w ++ commit_writes V bs) k' /\ lgk k' []) s) by (eapply wp_commit; eauto).
  apply wp_Ok in H as ([] & s' & E & k' & Hc' & L'). exists s', k', (commit_writes V bs).
  split_and!; [done|done|done| |].
  - intros c Hch. rewrite content_app.
    unfold commit_writes. rewrite !app_assoc, writes_app, writes_one,
      vset_ne by (intros ->; apply Hch, start_in_log). rewrite <- app_assoc.
    destruct (committed_disk (content d0 w) V bs (homes V bs) ltac:(lia) Hhome (fun x H => H)) as (_ & _ & E3).
    destruct (decide (c ∈ bs)) as [Hb|Hb]; [|rewrite (HVD c) by done; by apply E3].
    apply list_elem_of_lookup in Hb as [i Hi]. rewrite !writes_app.
    apply (writes_in _ (homes V bs) i); [by rewrite homes_fst|]. unfold homes. by rewrite list_lookup_fmap, Hi.
  - intros l1 l2 s1 k1 sb Hsplit H1 Hlen Hsb.
    destruct (crash_cases (content d0 w) V bs l1 l2 ltac:(lia) Hhome Hnd HVD Hd Hsplit)
      as (hs & Hdec & Hhs & Hhh & Hhn & Hcase).
    set (D1 := writes (content d0 w) l1) in *. set (rw := recover_writes D1 hs).
    assert (E1 : forall c, content d0 (w ++ l1 ++ rw) c = writes D1 rw c).
    { intros c. rewrite content_app. unfold D1, writes. by rewrite foldl_app. }
    apply (cached_ext _ _ D1) in H1; [|intros c; symmetry; apply content_app].
    assert (H : wp (initlog dv sb) (fun _ s2 => exists k2, cached [] (writes D1 rw) s2 ((w ++ l1) ++ rw) k2 /\
      lgk k2 []) s1) by (eapply wp_initlog; eauto).
    apply wp_Ok in H as ([] & s2 & E2 & k2 & Hc2 & L2). exists s2, k2, rw. rewrite <- app_assoc in Hc2.
    split_and!; [done|by eapply cached_ext; [|exact Hc2]|done|].
    destruct Hcase as [Hcase|Hcase]; [left|right]; intros c Hch; rewrite E1; by apply Hcase.
Qed.
End logthm.

(** ** Witnesses *)

Definition demo_log_disk : Z -> list Z := fun _ => replicate 1024 0.
#[local] Instance demo_log_driver : DiskDriver (LogSt (list (Z * list Z))) := sync_driver demo_log_disk.
#[local] Instance demo_log_sync : SyncDisk (LogSt (list (Z * list Z))) demo_log_disk :=
  sync_driver_ok demo_log_disk.
#[local] Instance demo_log_patience : Patience := 3%nat.

(** One transaction is open; the log is at block 2. *)
Definition demo_log_st : Kst (KMem (BioSt (LogSt (list (Z * list Z))))) :=
  KSt [] (Some 0%nat) (demo_sl_proc :: replicate 63 proc_zero) 8 None 0
    (KM ∅ 0 0 (BioS demo_bufs (LogS 2 30 1 0 1 0 (replicate 30 0) []))).

Lemma demo_log_running : running 0 7 [] demo_log_st.
Proof. split_and!; try done. by exists demo_sl_proc. Qed.
Lemma demo_log_at : at_ 0 7 [] demo_log_st demo_bufs [] (krest demo_log_st).
Proof. split; [apply demo_log_running|reflexivity]. Qed.
Lemma demo_log_cache :
  cache (d0 := demo_log_disk) 7 1 [] [] demo_log_disk [] (rev (seq 0 NBUF)) demo_bufs.
Proof. by apply cache_start; [apply demo_binit|..|]; [|apply demo_binit|]. Qed.
Lemma demo_log_lgk : lgk 1 2 (krest demo_log_st) [].
Proof. split; try done. by exists (replicate 30 0). Qed.
Lemma demo_start_ok : start_ok 2.
Proof. unfold start_ok, LOGSIZE, MAXOPBLOCKS. lia. Qed.
Lemma demo_home : home_ok 2 50.
Proof. unfold home_ok, in_log, LOGSIZE, MAXOPBLOCKS. lia. Qed.
Lemma demo_decodes : decodes (replicate 1024 0) [].
Proof. split; [done|]. split; [vm_compute; reflexivity|done]. Qed.

(** Block 50 is rewritten in the transaction. *)
Definition demo_tx : M (Kst (KMem (BioSt (LogSt (list (Z * list Z)))))) unit :=
  let* b := bread 1 50 in set_bdata b (replicate 1024 9);;; log_write b;;; brelse b.

Lemma demo_tx_ready :
  wp demo_tx (fun _ s => exists k, cached (d0 := demo_log_disk) 0 7 1 [50] (vset demo_log_disk 50 (replicate 1024 9)) s [] k /\
    lgk 1 2 k [50]) demo_log_st.
Proof.
  unfold demo_tx. apply wp_seq. eapply wp_bread;
    [exact demo_log_at|exact demo_log_cache|apply not_elem_of_nil|right; unfold NBUF; simpl; lia|].
  intros b bl1 s1 A1 C1. apply wp_seq. eapply wp_set_bdata; [exact A1|exact C1|left|].
  intros bl2 s2 A2 C2. apply wp_seq.
  eapply wp_log_write; [exact A2|exact C2|exact demo_log_lgk|done|left|exact demo_home|by apply Forall_nil|done|done|done|].
  intros s3 bl3 k3 A3 C3 L3 _. change (absorb [] 50) with [50] in *.
  eapply wp_brelse; [exact A3|exact C3|left; left|]. intros o4 bl4 s4 A4 C4. exists k3.
  split; [|done]. by exists o4, bl4, (vset demo_log_disk 50 (replicate 1024 9)).
Qed.

Lemma demo_bread :
  wp (bread 1 50) (fun b s => exists bl, at_ 0 7 [] s bl [] (krest demo_log_st) /\
    cache (d0 := demo_log_disk) 7 1 [(b, 50)] [] demo_log_disk [] (rev (seq 0 NBUF)) bl) demo_log_st.
Proof.
  eapply wp_bread; [exact demo_log_at|exact demo_log_cache|apply not_elem_of_nil|
    right; unfold NBUF; simpl; lia|eauto].
Qed.

Lemma log_write_absorbs_witness :
  exists b (s s' : Kst (KMem (BioSt (LogSt (list (Z * list Z)))))) (k' : KMem (BioSt (LogSt (list (Z * list Z))))),
    log_write b s = Ok tt s' /\ lgk 1 2 k' [50].
Proof.
  destruct (proj1 (wp_Ok _ _ _) demo_bread) as (b & s & _ & bl & A & C).
  destruct (log_write_absorbs 0 7 1 2 [(b, 50)] demo_log_disk s bl [] (krest demo_log_st) _ [] b 50 A C
    demo_log_lgk ltac:(reflexivity) ltac:(left) demo_home ltac:(by apply Forall_nil) ltac:(done) ltac:(done) ltac:(done))
    as (s' & bl' & k' & E & _ & _ & L & _). exists b, s, s', k'. exact (conj E L).
Defined.

Lemma begin_op_reserves_witness :
  exists s', begin_op demo_log_st = Ok tt s' /\ log_outstanding (logst s') = 2.
Proof.
  destruct (begin_op_reserves 0 7 demo_log_st demo_log_running) as [_ H].
  destruct H as (s' & E & _ & _ & Hk & _); [by split|].
  exists s'. split; [exact E|]. unfold logst, bio. by rewrite Hk.
Defined.

(** The transaction commits; a crash before its first write is recovered to
    the old disk or the new one. *)
Lemma commit_crash_atomic_witness :
  exists s s' cw s2, commit s = Ok tt s' /\ initlog 1 (SB 0 0 0 0 0 2 0 0) demo_log_st = Ok tt s2 /\
    content demo_log_disk ([] ++ cw) 50 = replicate 1024 9.
Proof.
  destruct (proj1 (wp_Ok _ _ _) demo_tx_ready) as ([] & s & _ & k & Hc & L).
  destruct (commit_crash_atomic 0 7 1 2 (vset demo_log_disk 50 (replicate 1024 9)) s [] k [50] Hc L demo_start_ok
    ltac:(unfold LOGSIZE, MAXOPBLOCKS; simpl; lia) ltac:(by apply Forall_singleton, demo_home)
    ltac:(apply NoDup_singleton) demo_decodes)
    as (s' & k' & cw & E & _ & _ & Hv & Hcrash).
  destruct (Hcrash [] cw demo_log_st (krest demo_log_st) (SB 0 0 0 0 0 2 0 0) eq_refl
    ltac:(by exists (rev (seq 0 NBUF)), demo_bufs, demo_log_disk; split; [exact demo_log_at|]; split; [exact demo_log_cache|])
    eq_refl eq_refl)
    as (s2 & _ & _ & E2 & _). exists s, s', cw, s2. split; [exact E|]. split; [exact E2|].
  rewrite (Hv 50 demo_home). reflexivity.
Defined.
