(* ===== verification/Fs.v ===== *)
(** Inodes, directories and path names (kernel/fs.c). *)

From S2P Require Import Prelude CInt Machine KString Sched Sleeplock Kalloc Vm Proc Bio Log.

(** ** kernel/fs.h, kernel/stat.h *)

Definition ROOTINO : Z := 1.
Definition FSMAGIC : Z := 0x10203040.
Definition NDIRECT : nat := 12.
Definition NINDIRECT : Z := 256.
Definition MAXFILE : Z := 12 + 256.
Definition DINODE_SIZE : Z := 64.
Definition IPB : Z := BSIZE / DINODE_SIZE.
Definition BPB : Z := BSIZE * 8.
Definition DIRSIZ : nat := 14.
Definition DIRENT_SIZE : Z := 16.
Definition T_DIR : Z := 1.
Definition T_FILE : Z := 2.
Definition T_DEVICE : Z := 3.

(** [struct dinode] *)
Record dinode := DInode {
  di_type : Z;
  di_major : Z;
  di_minor : Z;
  di_nlink : Z;
  di_size : Z;
  di_addrs : list Z;
}.

(** Bytes [off, off + n) of a block as an unsigned little-endian integer. *)
Definition getle (d : list Z) (off n : nat) : Z := le_combine (take n (drop off d)).

Definition decode_dinode (d : list Z) : dinode :=
  DInode (s16 (getle d 0 2)) (s16 (getle d 2 2)) (s16 (getle d 4 2)) (s16 (getle d 6 2))
    (getle d 8 4) ((fun i => getle d (12 + 4 * i) 4) <$> seq 0 (S NDIRECT)).

Definition encode_dinode (x : dinode) : list Z :=
  le_split 2 (di_type x) ++ le_split 2 (di_major x) ++ le_split 2 (di_minor x) ++
  le_split 2 (di_nlink x) ++ le_split 4 (di_size x) ++ mjoin (le_split 4 <$> di_addrs x).

(** The bytes of the inode [inum] in its block. *)
Definition dinode_off (inum : Z) : nat := Z.to_nat (inum mod IPB * DINODE_SIZE).
Definition get_dinode (d : list Z) (inum : Z) : dinode :=
  decode_dinode (take (Z.to_nat DINODE_SIZE) (drop (dinode_off inum) d)).
Definition put_dinode (d : list Z) (inum : Z) (x : dinode) : list Z :=
  splice d (dinode_off inum) (encode_dinode x).

Definition IBLOCK (i : Z) (sb : superblock) : Z := u32 (i / IPB + sb_inodestart sb).
Definition BBLOCK (b : Z) (sb : superblock) : Z := u32 (b / BPB + sb_bmapstart sb).

(** ** kernel/file.h: struct inode *)

Record inode := Inode {
  i_dev : Z;
  i_inum : Z;
  i_ref : Z;
  i_lock : sleeplock;
  i_valid : Z;
  i_type : Z;
  i_major : Z;
  i_minor : Z;
  i_nlink : Z;
  i_size : Z;
  i_addrs : list Z;
}.
#[export] Instance eta_inode : Eta inode := fun i =>
  Inode (i_dev i) (i_inum i) (i_ref i) (i_lock i) (i_valid i) (i_type i) (i_major i)
    (i_minor i) (i_nlink i) (i_size i) (i_addrs i).
Definition inode_zero : inode :=
  Inode 0 0 0 (SleepLock 0 0) 0 0 0 0 0 0 (replicate (S NDIRECT) 0).

Record FsSt (R : Type) := FsS { fs_sb : superblock; itable : list inode; fsrest : R }.
Arguments FsS {R}. Arguments fs_sb {R}. Arguments itable {R}. Arguments fsrest {R}.
#[export] Instance eta_fs R : Eta (FsSt R) := fun s => FsS (fs_sb s) (itable s) (fsrest s).

#[export] Program Instance fs_layer {A R} {L : Layer A R} : Layer A (FsSt R) := {|
  layer_get k := layer_get (fsrest k);
  layer_set a k := k.[fsrest := layer_set a (fsrest k)];
|}.
Next Obligation. intros. apply layer_get_set. Qed.
Next Obligation. intros. unfold upd_field; simpl. by rewrite layer_set_set. Qed.
Next Obligation. intros A R L []. unfold upd_field; simpl. by rewrite layer_set_get. Qed.

Definition itable_lock : kptr := KSym "itable" 0.

(** Where [readi] puts and [writei] takes data: user memory, physical memory
    the kernel owns, or a variable on the kernel stack. *)
Inductive dest := UserDst (va : Z) | KernDst (pa : Z) | BufDst.
Inductive source := UserSrc (va : Z) | BufSrc (bs : list Z).

Definition adv_dest (d : dest) (m : Z) : dest :=
  match d with
  | UserDst va => UserDst (u64 (va + m))
  | KernDst pa => KernDst (u64 (pa + m))
  | BufDst => BufDst
  end.
Definition adv_source (s : source) (m : Z) : source :=
  match s with
  | UserSrc va => UserSrc (u64 (va + m))
  | BufSrc bs => BufSrc (drop (Z.to_nat m) bs)
  end.

(** ** Names *)

(** [strncmp] of two NUL-terminated or [n]-byte arrays. *)
Fixpoint strncmp_list (n : nat) (p q : list Z) : Z :=
  match n with
  | O => 0
  | S n =>
      let a := hd 0 p in let b := hd 0 q in
      if negb (a =? 0) && (a =? b) then strncmp_list n (tl p) (tl q) else a - b
  end.

Definition namecmp (s t : list Z) : Z := strncmp_list DIRSIZ s t.

Definition slash : Z := 47.

Fixpoint skip_slashes (p : list Z) : list Z :=
  match p with
  | c :: p' => if c =? slash then skip_slashes p' else p
  | [] => []
  end.

(** The next path element and what follows it. *)
Fixpoint take_elem (p : list Z) : list Z * list Z :=
  match p with
  | c :: p' => if c =? slash then ([], p) else let '(e, r) := take_elem p' in (c :: e, r)
  | [] => ([], [])
  end.

(** A path is the bytes of a C string, its NUL excluded; the result is the
    rest of the path and the new contents of [name]. *)
Definition skipelem (path name : list Z) : option (list Z * list Z) :=
  match skip_slashes path with
  | [] => None
  | p =>
      let '(s, rest) := take_elem p in
      let name' := if (DIRSIZ <=? length s)%nat then splice name 0 (take DIRSIZ s)
                   else splice name 0 (s ++ [0]) in
      Some (skip_slashes rest, name')
  end.

Section fs.
Context {img : KernelImage} {R : Type} {dd : DiskDriver (LogSt (FsSt R))} {pt : Patience}.
Abbreviation St := (Kst (KMem (BioSt (LogSt (FsSt R))))).

Definition fsst (s : St) : FsSt R := logrest (logst s).
Definition getfs : M St (FsSt R) := gets fsst.
Definition modfs (f : FsSt R -> FsSt R) : M St unit :=
  modlog (fun l => l.[logrest := f (logrest l)]).

Definition geti (i : nat) : M St inode :=
  let* f := getfs in deref (itable f !! i).
Definition modi (i : nat) (f : inode -> inode) : M St unit :=
  let* x := geti i in modfs (fun g => g.[itable := <[i := f x]> (itable g)]).

Definition inode_lock (i : nat) : sl_ref (KMem (BioSt (LogSt (FsSt R)))) :=
  SlRef (KSym "inode" (Z.of_nat i)) (KSym "inode.lock" (Z.of_nat i))
    (fun k => i_lock <$> itable (logrest (biorest (kmrest k))) !! i)
    (fun f k => k.[kmrest := (kmrest k).[biorest := (biorest (kmrest k)).[logrest :=
       (logrest (biorest (kmrest k))).[itable :=
         alter (fun x => x.[i_lock := f (i_lock x)]) i (itable (logrest (biorest (kmrest k))))]]]]).

Definition getsb : M St superblock := let* f := getfs in ret (fs_sb f).

(** ** Blocks *)

Definition decode_sb (d : list Z) : superblock :=
  SB (get32 d 0) (get32 d 1) (get32 d 2) (get32 d 3) (get32 d 4) (get32 d 5) (get32 d 6) (get32 d 7).

Definition readsb (dev : Z) : M St superblock :=
  let* bp := bread dev 1 in
  let* d := bdata bp in
  brelse bp;;;
  ret (decode_sb d).

Definition fsinit (dev : Z) : M St unit :=
  let* sb := readsb dev in
  modfs (fun f => f.[fs_sb := sb]);;;
  if negb (sb_magic sb =? FSMAGIC) then panic "invalid file system" else
  initlog dev sb.

Definition bzero (dev bno : Z) : M St unit :=
  let* bp := bread dev bno in
  set_bdata bp (replicate (Z.to_nat BSIZE) 0);;;
  log_write bp;;;
  brelse bp.

(** Bit [bi] of a bitmap block. *)
Definition bit_mask (bi : Z) : Z := Z.shiftl 1 (bi mod 8).
Definition bit_byte (d : list Z) (bi : Z) : Z := nth (Z.to_nat (bi / 8)) d 0.
Definition bit_free (d : list Z) (bi : Z) : bool := Z.land (bit_byte d bi) (bit_mask bi) =? 0.
Definition bit_set (d : list Z) (bi : Z) : list Z :=
  <[Z.to_nat (bi / 8) := Z.lor (bit_byte d bi) (bit_mask bi)]> d.
Definition bit_clear (d : list Z) (bi : Z) : list Z :=
  <[Z.to_nat (bi / 8) := Z.land (bit_byte d bi) (u8 (Z.lnot (bit_mask bi)))]> d.

(** The inner loop of [balloc]: the first free bit of the block that stands
    for a block below [size]. *)
Definition balloc_find (d : list Z) (b size : Z) : option Z :=
  snd <$> find_idx (fun bi => bit_free d bi) (zseq 0 (Z.to_nat (Z.min BPB (size - b)))).

(** The outer loop visits [b = 0, BPB, 2 BPB, ...] below [sb.size]; the message
    printed at the end is not modelled. *)
Definition balloc (dev : Z) : M St Z :=
  let* sb := getsb in
  let* r := mloop ((fun k => k * BPB) <$> zseq 0 (Z.to_nat ((sb_size sb + BPB - 1) / BPB))) (fun b =>
    let* bp := bread dev (BBLOCK b sb) in
    let* d := bdata bp in
    match balloc_find d b (sb_size sb) with
    | Some bi =>
        set_bdata bp (bit_set d bi);;;
        log_write bp;;;
        brelse bp;;;
        bzero dev (b + bi);;;
        ret (Some (b + bi))
    | None => brelse bp;;; ret None
    end) in
  ret (default 0 r).

Definition bfree (dev b : Z) : M St unit :=
  let* sb := getsb in
  let* bp := bread dev (BBLOCK b sb) in
  let bi := b mod BPB in
  let* d := bdata bp in
  if bit_free d bi then panic "freeing free block" else
  set_bdata bp (bit_clear d bi);;;
  log_write bp;;;
  brelse bp.

(** ** Inodes *)

(** [initlock] leaves the table's lock free. *)
Definition iinit : M St unit := mfor (seq 0 NINODE) (fun i => initsleeplock (inode_lock i)).

(** The scan of [iget]: a hit, or the first free slot. *)
Fixpoint iget_scan (l : list nat) (dev inum : Z) (empty : option nat) : M St (nat + option nat) :=
  match l with
  | [] => ret (inr empty)
  | i :: l =>
      let* x := geti i in
      if (0 <? i_ref x) && (i_dev x =? dev) && (i_inum x =? inum) then ret (inl i) else
      iget_scan l dev inum
        (if bool_decide (empty = None) && (i_ref x =? 0) then Some i else empty)
  end.

Definition iget (dev inum : Z) : M St nat :=
  acquire itable_lock;;;
  let* r := iget_scan (seq 0 NINODE) dev inum None in
  match r with
  | inl i =>
      modi i (fun x => x.[i_ref := i_ref x + 1]);;;
      release itable_lock;;;
      ret i
  | inr None => panic "iget: no inodes"
  | inr (Some i) =>
      modi i (fun x => x.[i_dev := dev].[i_inum := inum].[i_ref := 1].[i_valid := 0]);;;
      release itable_lock;;;
      ret i
  end.

Definition dinode_zero : dinode := DInode 0 0 0 0 0 (replicate (S NDIRECT) 0).

Definition ialloc (dev type : Z) : M St (option nat) :=
  let* sb := getsb in
  mloop (zseq 1 (Z.to_nat (sb_ninodes sb - 1))) (fun inum =>
    let* bp := bread dev (IBLOCK inum sb) in
    let* d := bdata bp in
    if di_type (get_dinode d inum) =? 0 then
      set_bdata bp (put_dinode d inum (DInode type 0 0 0 0 (replicate (S NDIRECT) 0)));;;
      log_write bp;;;
      brelse bp;;;
      let* i := iget dev inum in
      ret (Some i)
    else brelse bp;;; ret None).

Definition inode_dinode (x : inode) : dinode :=
  DInode (i_type x) (i_major x) (i_minor x) (i_nlink x) (i_size x) (i_addrs x).

Definition iupdate (ip : nat) : M St unit :=
  let* sb := getsb in
  let* x := geti ip in
  let* bp := bread (i_dev x) (IBLOCK (i_inum x) sb) in
  let* d := bdata bp in
  set_bdata bp (put_dinode d (i_inum x) (inode_dinode x));;;
  log_write bp;;;
  brelse bp.

Definition idup (ip : nat) : M St nat :=
  acquire itable_lock;;;
  modi ip (fun x => x.[i_ref := i_ref x + 1]);;;
  release itable_lock;;;
  ret ip.

Definition ilock (ip : nat) : M St unit :=
  let* x := geti ip in
  if i_ref x <? 1 then panic "ilock" else
  acquiresleep patience (inode_lock ip);;;
  let* x := geti ip in
  if i_valid x =? 0 then
    let* sb := getsb in
    let* bp := bread (i_dev x) (IBLOCK (i_inum x) sb) in
    let* d := bdata bp in
    let di := get_dinode d (i_inum x) in
    modi ip (fun x => x.[i_type := di_type di].[i_major := di_major di].[i_minor := di_minor di]
      .[i_nlink := di_nlink di].[i_size := di_size di].[i_addrs := di_addrs di]);;;
    brelse bp;;;
    modi ip (fun x => x.[i_valid := 1]);;;
    if di_type di =? 0 then panic "ilock: no type" else ret tt
  else ret tt.

Definition iunlock (ip : nat) : M St unit :=
  let* h := holdingsleep (inode_lock ip) in
  let* x := geti ip in
  if negb h || (i_ref x <? 1) then panic "iunlock" else
  releasesleep (inode_lock ip).

(** Free the blocks listed in a block of addresses, in order. *)
Definition bfree_all (dev : Z) (l : list Z) : M St unit :=
  mfor l (fun a => if negb (a =? 0) then bfree dev a else ret tt).

Definition itrunc (ip : nat) : M St unit :=
  mfor (seq 0 NDIRECT) (fun i =>
    let* x := geti ip in
    let a := nth i (i_addrs x) 0 in
    if negb (a =? 0) then
      bfree (i_dev x) a;;;
      modi ip (fun x => x.[i_addrs := <[i := 0]> (i_addrs x)])
    else ret tt);;;
  let* x := geti ip in
  let a := nth NDIRECT (i_addrs x) 0 in
  (if negb (a =? 0) then
     let* bp := bread (i_dev x) a in
     let* d := bdata bp in
     bfree_all (i_dev x) (get32 d <$> seq 0 (Z.to_nat NINDIRECT));;;
     brelse bp;;;
     bfree (i_dev x) a;;;
     modi ip (fun x => x.[i_addrs := <[NDIRECT := 0]> (i_addrs x)])
   else ret tt);;;
  modi ip (fun x => x.[i_size := 0]);;;
  iupdate ip.

Definition iput (ip : nat) : M St unit :=
  acquire itable_lock;;;
  let* x := geti ip in
  (if (i_ref x =? 1) && negb (i_valid x =? 0) && (i_nlink x =? 0) then
     acquiresleep patience (inode_lock ip);;;
     release itable_lock;;;
     itrunc ip;;;
     modi ip (fun x => x.[i_type := 0]);;;
     iupdate ip;;;
     modi ip (fun x => x.[i_valid := 0]);;;
     releasesleep (inode_lock ip);;;
     acquire itable_lock
   else ret tt);;;
  modi ip (fun x => x.[i_ref := i_ref x - 1]);;;
  release itable_lock.

Definition iunlockput (ip : nat) : M St unit := iunlock ip;;; iput ip.

(** ** Content *)

Definition bmap (ip : nat) (bn : Z) : M St Z :=
  let* x := geti ip in
  if bn <? Z.of_nat NDIRECT then
    let addr := nth (Z.to_nat bn) (i_addrs x) 0 in
    if negb (addr =? 0) then ret addr else
    let* addr := balloc (i_dev x) in
    if addr =? 0 then ret 0 else
    modi ip (fun x => x.[i_addrs := <[Z.to_nat bn := addr]> (i_addrs x)]);;;
    ret addr
  else
    let bn := bn - Z.of_nat NDIRECT in
    if bn <? NINDIRECT then
      let addr := nth NDIRECT (i_addrs x) 0 in
      let* addr := (if negb (addr =? 0) then ret addr else
        let* addr := balloc (i_dev x) in
        if addr =? 0 then ret 0 else
        modi ip (fun x => x.[i_addrs := <[NDIRECT := addr]> (i_addrs x)]);;;
        ret addr) in
      if addr =? 0 then ret 0 else
      let* bp := bread (i_dev x) addr in
      let* d := bdata bp in
      let a := get32 d (Z.to_nat bn) in
      let* a := (if negb (a =? 0) then ret a else
        let* a := balloc (i_dev x) in
        (if negb (a =? 0) then
           let* d := bdata bp in
           set_bdata bp (set32 d (Z.to_nat bn) a);;;
           log_write bp
         else ret tt);;;
        ret a) in
      brelse bp;;;
      ret a
    else panic "bmap: out of range".

(** [struct stat] *)
Record stat := Stat { st_dev : Z; st_ino : Z; st_type : Z; st_nlink : Z; st_size : Z }.
Definition stati (ip : nat) : M St stat :=
  let* x := geti ip in
  ret (Stat (i_dev x) (i_inum x) (i_type x) (i_nlink x) (i_size x)).

(** [either_copyout] to a destination; bytes for a kernel variable are
    returned. *)
Definition copy_to (d : dest) (bs : list Z) : M St (Z * list Z) :=
  match d with
  | UserDst va => let* r := either_copyout true va bs in ret (r, [])
  | KernDst pa => let* r := either_copyout false pa bs in ret (r, [])
  | BufDst => ret (0, bs)
  end.

Definition copy_from (s : source) (m : nat) : M St (Z * list Z) :=
  match s with
  | UserSrc va => either_copyin true va m
  | BufSrc bs => ret (0, take m bs)
  end.

Definition block_bytes (d : list Z) (off m : Z) : list Z :=
  take (Z.to_nat m) (drop (Z.to_nat (off mod BSIZE)) d).

(** The result, and the bytes delivered to a kernel variable. *)
Definition readi (ip : nat) (dst : dest) (off n : Z) : M St (Z * list Z) :=
  let* x := geti ip in
  if (i_size x <? off) || (u32 (off + n) <? off) then ret (0, []) else
  let n := if i_size x <? u32 (off + n) then i_size x - off else n in
  while (S (S (S (Z.to_nat (n / BSIZE))))) (fun '(tot, off, dst, out) =>
    if negb (tot <? n) then ret (inr (s32 tot, out)) else
    let* addr := bmap ip (off / BSIZE) in
    if addr =? 0 then ret (inr (s32 tot, out)) else
    let* x := geti ip in
    let* bp := bread (i_dev x) addr in
    let m := Z.min (n - tot) (BSIZE - off mod BSIZE) in
    let* d := bdata bp in
    let* '(r, bs) := copy_to dst (block_bytes d off m) in
    brelse bp;;;
    if r =? -1 then ret (inr (-1, out)) else
    ret (inl (tot + m, off + m, adv_dest dst m, out ++ bs))) (0, off, dst, []).

Definition writei (ip : nat) (src : source) (off n : Z) : M St Z :=
  let* x := geti ip in
  if (i_size x <? off) || (u32 (off + n) <? off) then ret (-1) else
  if MAXFILE * BSIZE <? u32 (off + n) then ret (-1) else
  let* '(tot, off) := while (S (S (S (Z.to_nat (n / BSIZE))))) (fun '(tot, off, src) =>
    if negb (tot <? n) then ret (inr (tot, off)) else
    let* addr := bmap ip (off / BSIZE) in
    if addr =? 0 then ret (inr (tot, off)) else
    let* x := geti ip in
    let* bp := bread (i_dev x) addr in
    let m := Z.min (n - tot) (BSIZE - off mod BSIZE) in
    let* '(r, bs) := copy_from src (Z.to_nat m) in
    let* d := bdata bp in
    set_bdata bp (splice d (Z.to_nat (off mod BSIZE)) bs);;;
    if r =? -1 then brelse bp;;; ret (inr (tot, off)) else
    log_write bp;;;
    brelse bp;;;
    ret (inl (tot + m, off + m, adv_source src m))) (0, off, src) in
  let* x := geti ip in
  (if i_size x <? off then modi ip (fun x => x.[i_size := off]) else ret tt);;;
  iupdate ip;;;
  ret (s32 tot).

(** ** Directories *)

(** [struct dirent] *)
Definition de_inum (de : list Z) : Z := getle de 0 2.
Definition de_name (de : list Z) : list Z := take DIRSIZ (drop 2 de).
Definition mk_dirent (inum : Z) (name : list Z) : list Z := le_split 2 inum ++ name.

(** The offsets [0, 16, ...] below the size. *)
Definition dir_offs (size : Z) : list Z :=
  (fun k => k * DIRENT_SIZE) <$> zseq 0 (Z.to_nat ((size + DIRENT_SIZE - 1) / DIRENT_SIZE)).

(** The inode found, with the offset of its entry. *)
Definition dirlookup (dp : nat) (name : list Z) : M St (option (nat * Z)) :=
  let* x := geti dp in
  if negb (i_type x =? T_DIR) then panic "dirlookup not DIR" else
  mloop (dir_offs (i_size x)) (fun off =>
    let* '(r, de) := readi dp BufDst off DIRENT_SIZE in
    if negb (r =? DIRENT_SIZE) then panic "dirlookup read" else
    if de_inum de =? 0 then ret None else
    if namecmp name (de_name de) =? 0 then
      let* i := iget (i_dev x) (de_inum de) in
      ret (Some (i, off))
    else ret None).

Definition dirlink (dp : nat) (name : list Z) (inum : Z) : M St Z :=
  let* r := dirlookup dp name in
  match r with
  | Some (ip, _) => iput ip;;; ret (-1)
  | None =>
      let* x := geti dp in
      let* slot := mloop (dir_offs (i_size x)) (fun off =>
        let* '(r, de) := readi dp BufDst off DIRENT_SIZE in
        if negb (r =? DIRENT_SIZE) then panic "dirlink read" else
        ret (if de_inum de =? 0 then Some off else None)) in
      let off := default (Z.of_nat (length (dir_offs (i_size x))) * DIRENT_SIZE) slot in
      let* r := writei dp (BufSrc (mk_dirent (u16 inum) (strncpy_list DIRSIZ name))) off DIRENT_SIZE in
      ret (if negb (r =? DIRENT_SIZE) then -1 else 0)
  end.

(** ** Paths *)

(** The inode and the contents of [name]. *)
Definition namex (path : list Z) (nameiparent : bool) (name : list Z) : M St (option nat * list Z) :=
  let* ip :=
    (if bool_decide (head path = Some slash) then iget ROOTDEV ROOTINO
     else let* p := curproc in let* q := getp p in
          let* d := deref (p_cwd q) in idup d) in
  while (S (length path)) (fun '(path, name, ip) =>
    match skipelem path name with
    | None =>
        if nameiparent : bool then iput ip;;; ret (inr (None, name))
        else ret (inr (Some ip, name))
    | Some (path, name) =>
        ilock ip;;;
        let* x := geti ip in
        if negb (i_type x =? T_DIR) then iunlockput ip;;; ret (inr (None, name)) else
        if nameiparent && bool_decide (path = []) then iunlock ip;;; ret (inr (Some ip, name)) else
        let* r := dirlookup ip name in
        match r with
        | None => iunlockput ip;;; ret (inr (None, name))
        | Some (next, _) => iunlockput ip;;; ret (inl (path, name, next))
        end
    end) (path, name, ip).

(** The caller's 14-byte array starts out with arbitrary contents. *)
Definition namei (path : list Z) : M St (option nat) :=
  let* '(r, _) := namex path false (replicate DIRSIZ 0) in ret r.

Definition nameiparent (path name : list Z) : M St (option nat * list Z) :=
  namex path true name.
End fs.
