(* ===== verification/FsData.v ===== *)
(** The on-disk formats and the name handling of kernel/fs.c as pure
    functions: inodes in their blocks, directory entries, the allocation
    bitmap, and the splitting of path names. *)

From S2P Require Import Prelude CInt KString KStringThm Sleeplock Kalloc Bio Log Fs.

(** ** Inodes on disk *)

Definition s16_ok (z : Z) : Prop := - W15 <= z < W15.

(** A [struct dinode] whose fields fit their C types. *)
Definition dinode_ok (x : dinode) : Prop :=
  s16_ok (di_type x) /\ s16_ok (di_major x) /\ s16_ok (di_minor x) /\ s16_ok (di_nlink x) /\
  0 <= di_size x < W32 /\ length (di_addrs x) = S NDIRECT /\
  Forall (fun a => 0 <= a < W32) (di_addrs x).
#[export] Instance dinode_ok_dec x : Decision (dinode_ok x).
Proof. unfold dinode_ok, s16_ok. apply _. Defined.

Lemma take_drop_app {A} (l1 l2 l3 : list A) n k :
  length l1 = n -> length l2 = k -> take k (drop n (l1 ++ l2 ++ l3)) = l2.
Proof. intros <- <-. by rewrite drop_app_length, take_app_length. Qed.

Lemma take_head_app {A} (l1 l2 : list A) k : length l1 = k -> take k (drop 0 (l1 ++ l2)) = l1.
Proof. intros <-. by rewrite drop_0, take_app_length. Qed.

Lemma le_combine_split_small n z : 0 <= z < 256 ^ Z.of_nat n -> le_combine (le_split n z) = z.
Proof. intros. rewrite le_combine_split. by apply Z.mod_small. Qed.

Lemma s16_le z : s16_ok z -> s16 (le_combine (le_split 2 z)) = z.
Proof. unfold s16_ok. intros H. rewrite le_combine_split. cint_unfold. change (256 ^ Z.of_nat 2) with W16. dlia. Qed.

Lemma mjoin_le_split_length (l : list Z) : length (mjoin (le_split 4 <$> l)) = (4 * length l)%nat.
Proof.
  induction l as [|x l IH]; [done|]. rewrite fmap_cons. change (mjoin (?a :: ?b)) with (a ++ mjoin b).
  rewrite length_app, le_split_length, IH. simpl. lia.
Qed.

Lemma encode_dinode_length x : length (di_addrs x) = S NDIRECT -> length (encode_dinode x) = 64%nat.
Proof.
  intros H. unfold encode_dinode. rewrite !length_app, !le_split_length, mjoin_le_split_length, H.
  done.
Qed.

(** The [i]-th word of an array of words. *)
Lemma addr_at (l : list Z) i a :
  l !! i = Some a -> take 4 (drop (4 * i) (mjoin (le_split 4 <$> l))) = le_split 4 a.
Proof.
  revert i. induction l as [|x l IH]; intros [|i] H; [done..| |].
  - simpl in H. simplify_eq. rewrite fmap_cons. change (mjoin (?a :: ?b)) with (a ++ mjoin b).
    by rewrite take_head_app by apply le_split_length.
  - rewrite fmap_cons. change (mjoin (?a :: ?b)) with (a ++ mjoin b).
    replace (4 * S i)%nat with (4 + 4 * i)%nat by lia.
    rewrite <- drop_drop. rewrite (drop_app_length' _ _ 4) by (by rewrite le_split_length). by apply IH.
Qed.

Lemma decode_encode_dinode x : dinode_ok x -> decode_dinode (encode_dinode x) = x.
Proof.
  destruct x as [t ma mi nl sz ad]. unfold dinode_ok. simpl.
  intros (Ht & Hma & Hmi & Hnl & Hsz & Hlen & Had).
  unfold decode_dinode, encode_dinode, getle; simpl di_type; simpl di_major; simpl di_minor;
    simpl di_nlink; simpl di_size; simpl di_addrs.
  set (w := mjoin (le_split 4 <$> ad)).
  assert (forall z, length (le_split 2 z) = 2%nat) as L2 by (intros; apply le_split_length).
  assert (forall z, length (le_split 4 z) = 4%nat) as L4 by (intros; apply le_split_length).
  assert (E : forall i, (i < 13)%nat ->
    drop (12 + 4 * i) (le_split 2 t ++ le_split 2 ma ++ le_split 2 mi ++ le_split 2 nl ++
      le_split 4 sz ++ w) = drop (4 * i) w).
  { intros i _. rewrite !app_assoc, drop_app_ge by (rewrite !length_app, !L2, L4; lia).
    f_equal. rewrite !length_app, !L2, L4. lia. }
  f_equal.
  - rewrite take_head_app by done. by apply s16_le.
  - rewrite (take_drop_app _ _ _ 2 2) by done. by apply s16_le.
  - rewrite app_assoc, (take_drop_app _ _ _ 4 2) by (rewrite ?length_app, ?L2; done). by apply s16_le.
  - rewrite !app_assoc. rewrite <- !app_assoc. rewrite (app_assoc (le_split 2 t)), (app_assoc (_ ++ _)).
    rewrite (take_drop_app _ _ _ 6 2) by (rewrite ?length_app, ?L2; done). by apply s16_le.
  - rewrite (app_assoc (le_split 2 t)), (app_assoc (_ ++ _)), (app_assoc (_ ++ _)).
    rewrite (take_drop_app _ _ _ 8 4) by (rewrite ?length_app, ?L2, ?L4; done).
    by apply le_combine_split_small.
  - apply list_eq. intros i. rewrite list_lookup_fmap.
    destruct (decide (i < 13)%nat) as [Hi|Hi].
    + rewrite lookup_seq_lt by done. unfold fmap, option_fmap, option_map. change (0 + i)%nat with i. cbv beta. rewrite E by done.
      destruct (lookup_lt_is_Some_2 ad i) as [a Ha]; [rewrite Hlen; done|].
      unfold w. rewrite (addr_at _ _ _ Ha), Ha. f_equal. apply le_combine_split_small.
      rewrite Forall_lookup in Had. by apply (Had i).
    + rewrite lookup_seq_ge by (unfold NDIRECT; lia).
      symmetry. apply lookup_ge_None. rewrite Hlen. unfold NDIRECT. lia.
Qed.

Lemma dinode_off_bound inum : (dinode_off inum + 64 <= 1024)%nat.
Proof. unfold dinode_off, IPB, BSIZE, DINODE_SIZE. dlia. Qed.

Lemma dinode_off_sep i j :
  i mod IPB <> j mod IPB -> (dinode_off i + 64 <= dinode_off j \/ dinode_off j + 64 <= dinode_off i)%nat.
Proof. unfold dinode_off, IPB, BSIZE, DINODE_SIZE. dlia. Qed.

Lemma put_dinode_length d inum x :
  length d = 1024%nat -> dinode_ok x -> length (put_dinode d inum x) = 1024%nat.
Proof.
  intros Hd Hx. pose proof (dinode_off_bound inum). unfold put_dinode.
  rewrite splice_length; rewrite ?encode_dinode_length by apply Hx; lia.
Qed.

Lemma get_put_dinode d inum x :
  length d = 1024%nat -> dinode_ok x -> get_dinode (put_dinode d inum x) inum = x.
Proof.
  intros Hd Hx. pose proof (dinode_off_bound inum). unfold get_dinode, put_dinode.
  change (Z.to_nat DINODE_SIZE) with 64%nat.
  assert (length (encode_dinode x) = 64%nat) as HL by apply encode_dinode_length, Hx.
  rewrite <- HL at 1. rewrite splice_read by lia. by apply decode_encode_dinode.
Qed.

Lemma get_put_dinode_other d inum x j :
  length d = 1024%nat -> dinode_ok x -> j mod IPB <> inum mod IPB ->
  get_dinode (put_dinode d inum x) j = get_dinode d j.
Proof.
  intros Hd Hx Hj. pose proof (dinode_off_bound inum). unfold get_dinode, put_dinode.
  change (Z.to_nat DINODE_SIZE) with 64%nat.
  assert (length (encode_dinode x) = 64%nat) as HL by apply encode_dinode_length, Hx.
  pose proof (dinode_off_sep _ _ Hj). rewrite splice_read_other; [done|lia..].
Qed.

(** An inode written to its block ([iupdate], [ialloc]) is the inode read
    back from it ([ilock]), every other inode of the block is what it was, and
    the block keeps its size. *)
Theorem dinode_roundtrip d inum x :
  length d = Z.to_nat BSIZE -> dinode_ok x ->
  get_dinode (put_dinode d inum x) inum = x /\
  (forall j, j mod IPB <> inum mod IPB -> get_dinode (put_dinode d inum x) j = get_dinode d j) /\
  length (put_dinode d inum x) = Z.to_nat BSIZE.
Proof.
  intros Hd Hx. split_and!; [by apply get_put_dinode| |by apply put_dinode_length].
  intros j Hj. by apply get_put_dinode_other.
Qed.

(** ** Directory entries *)

Lemma strncmp_list_eq n p q :
  strncmp_list n p q = 0 <-> take n (cstr p) = take n (cstr q).
Proof.
  revert p q. induction n as [|n IH]; intros p q; [done|].
  destruct p as [|a p], q as [|b q]; cbn [strncmp_list hd tl cstr take]; [done|..].
  - cbn. destruct (Z.eqb_spec b 0) as [->|Hb]; [done|]. split; [lia|done].
  - destruct (Z.eqb_spec a 0) as [->|Ha]; cbn; [done|].
    destruct (Z.eqb_spec a 0); [lia|]. split; [lia|done].
  - destruct (Z.eqb_spec a 0) as [->|Ha]; cbn.
    + destruct (Z.eqb_spec b 0) as [->|Hb]; [done|]. split; [lia|done].
    + destruct (Z.eqb_spec b 0) as [->|Hb]; cbn.
      * rewrite (proj2 (Z.eqb_neq a 0)) by done. split; [lia|done].
      * destruct (Z.eqb_spec a b) as [->|Hab]; [rewrite IH; split; [by intros ->|by intros [=]]|].
        split; [lia|]. intros [=]; lia.
Qed.


Lemma cstr_app_nul l t : Forall (fun b => b <> 0) l -> cstr (l ++ 0 :: t) = l.
Proof.
  induction 1 as [|b l Hb _ IH]; simpl; [done|].
  destruct (Z.eqb_spec b 0); [done|]. by rewrite IH.
Qed.

Lemma cstr_app_zeros l n : Forall (fun b => b <> 0) l -> cstr (l ++ replicate n 0) = l.
Proof.
  intros H. destruct n; [rewrite app_nil_r; by apply cstr_all_nonzero|by apply cstr_app_nul].
Qed.

Lemma take_cstr n l : take n (cstr l) = cstr (take n l).
Proof.
  revert n. induction l as [|b l IH]; intros [|n]; simpl; [done..|].
  destruct (b =? 0); [done|]. simpl. by rewrite IH.
Qed.

Lemma cstr_strncpy_list n src : cstr (strncpy_list n src) = take n (cstr src).
Proof. unfold strncpy_list. rewrite cstr_app_zeros by apply cstr_nonzero. by rewrite take_cstr. Qed.

(** The directory entry that [dirlink] builds for [name] and [inum] is 16
    bytes, reads back as [inum], and [namecmp] finds it for exactly the names
    that agree with [name] on the first [DIRSIZ] characters. *)
Theorem dirent_roundtrip name inum other :
  0 <= inum < W16 ->
  let de := mk_dirent (u16 inum) (strncpy_list DIRSIZ name) in
  Z.of_nat (length de) = DIRENT_SIZE /\ de_inum de = inum /\
  (namecmp other (de_name de) = 0 <-> take DIRSIZ (cstr other) = take DIRSIZ (cstr name)).
Proof.
  intros Hi. cbv zeta. rewrite u16_small by done. unfold mk_dirent, de_inum, de_name, getle.
  assert (length (le_split 2 inum) = 2%nat) as HL by apply le_split_length. split; [|split].
  - rewrite length_app, HL, strncpy_list_length. done.
  - rewrite take_head_app by done. by apply le_combine_split_small.
  - rewrite (drop_app_length' _ _ 2) by done. rewrite take_ge by (by rewrite strncpy_list_length).
    unfold namecmp. rewrite strncmp_list_eq, cstr_strncpy_list, take_take, Nat.min_id. done.
Qed.

(** ** Path names *)

(** The components of a path: the non-empty pieces between slashes. *)
Fixpoint split_path (p cur : list Z) : list (list Z) :=
  match p with
  | [] => match cur with [] => [] | _ => [cur] end
  | c :: p => if c =? slash then match cur with [] => split_path p [] | _ => cur :: split_path p [] end
              else split_path p (cur ++ [c])
  end.
Definition path_elems (p : list Z) : list (list Z) := split_path p [].

Lemma path_elems_skip p : path_elems (skip_slashes p) = path_elems p.
Proof.
  induction p as [|c p IH]; simpl; [done|]. destruct (c =? slash) eqn:Hc; [|done].
  rewrite IH. unfold path_elems. simpl. by rewrite Hc.
Qed.

Lemma skip_slashes_head p c r : skip_slashes p = c :: r -> c <> slash.
Proof.
  induction p as [|x p IH]; simpl; [done|]. destruct (Z.eqb_spec x slash); [done|].
  intros [= <- <-]. done.
Qed.

Lemma skip_slashes_length p : (length (skip_slashes p) <= length p)%nat.
Proof. induction p as [|c p IH]; simpl; [done|]. destruct (c =? slash); simpl; lia. Qed.

Lemma skip_slashes_nil p : skip_slashes p = [] <-> path_elems p = [].
Proof.
  rewrite <- (path_elems_skip p). destruct (skip_slashes p) as [|c r] eqn:Hs; [done|].
  split; [done|]. apply skip_slashes_head in Hs. unfold path_elems. simpl.
  destruct (Z.eqb_spec c slash); [done|]. intros H. exfalso. clear -H.
  assert (forall q cur, cur <> [] -> split_path q cur <> []) as K.
  { induction q as [|x q IH]; intros cur Hc; simpl; [by destruct cur|].
    destruct (x =? slash); [by destruct cur|]. apply IH. by destruct cur. }
  by apply (K r [c]).
Qed.

Lemma take_elem_spec p :
  let '(e, r) := take_elem p in
  p = e ++ r /\ Forall (fun c => c <> slash) e /\ (r = [] \/ head r = Some slash).
Proof.
  induction p as [|c p IH]; simpl; [split_and!; [done|constructor|by left]|].
  destruct (Z.eqb_spec c slash) as [->|Hc].
  - split_and!; [done|constructor|by right].
  - destruct (take_elem p) as [e r]. destruct IH as (-> & He & Hr). split_and!; [done| |done].
    by constructor.
Qed.

Lemma split_path_elem e r cur :
  Forall (fun c => c <> slash) e -> (r = [] \/ head r = Some slash) -> cur ++ e <> [] ->
  split_path (e ++ r) cur = (cur ++ e) :: path_elems r.
Proof.
  intros He Hr. revert cur. induction He as [|c e Hc _ IH]; intros cur Hne.
  - rewrite app_nil_r in *. destruct cur as [|x cur]; [done|].
    destruct Hr as [->|Hr]; [done|]. destruct r as [|y r]; simpl in Hr; [done|]. simplify_eq.
    unfold path_elems. simpl. done.
  - simpl. destruct (Z.eqb_spec c slash); [done|]. rewrite IH.
    + by rewrite <- app_assoc.
    + rewrite <- app_assoc. by destruct cur.
Qed.

(** [skipelem] returns 0 exactly on a path without components; otherwise
    it puts the first component, cut to [DIRSIZ] characters, into the 14-byte
    array [name] and returns the path of the remaining components, which has
    no leading slash, is empty exactly when no component is left, and is
    shorter, so that the loop of [namex] ends. *)
Theorem skipelem_spec path name :
  Forall (fun c => c <> 0) path -> length name = DIRSIZ ->
  match skipelem path name with
  | None => path_elems path = []
  | Some (rest, name') => exists e,
      path_elems path = e :: path_elems rest /\
      cstr name' = take DIRSIZ e /\ length name' = DIRSIZ /\
      head rest <> Some slash /\ (rest = [] <-> path_elems rest = []) /\
      (length rest < length path)%nat
  end.
Proof.
  intros Hnz Hname. unfold skipelem. destruct (skip_slashes path) as [|c p] eqn:Hs.
  { by apply skip_slashes_nil. }
  pose proof (take_elem_spec (c :: p)) as Ht. destruct (take_elem (c :: p)) as [e r] eqn:He.
  destruct Ht as (Heq & Hne & Hr). pose proof (skip_slashes_head _ _ _ Hs) as Hc.
  assert (e <> []) as Hnil.
  { simpl in He. destruct (Z.eqb_spec c slash); [done|]. destruct (take_elem p). by simplify_eq. }
  assert (Hsuf : Forall (fun x => x <> 0) (skip_slashes path)).
  { clear -Hnz. induction Hnz as [|x l Hx Hl IH]; simpl; [done|].
    destruct (x =? slash); [done|by constructor]. }
  rewrite Hs, Heq in Hsuf. apply Forall_app in Hsuf as [Henz _].
  pose proof (skip_slashes_length path) as Hlen. rewrite Hs, Heq, length_app in Hlen.
  pose proof (skip_slashes_length r). assert (length e <> 0)%nat by (by destruct e).
  exists e. split; [|split; [|split; [|split; [|split]]]].
  - rewrite <- path_elems_skip, Hs, Heq, path_elems_skip. apply (split_path_elem e r []); done.
  - unfold splice. rewrite take_0. simpl app. destruct (Nat.leb_spec DIRSIZ (length e)).
    + rewrite length_take, Nat.min_l by done. rewrite drop_ge by (rewrite Hname; done).
      rewrite app_nil_r. apply cstr_all_nonzero. by apply Forall_take.
    + rewrite take_ge by lia. rewrite <- app_assoc. by apply cstr_app_nul.
  - destruct (Nat.leb_spec DIRSIZ (length e)).
    + rewrite splice_length; rewrite ?length_take, Hname; lia.
    + rewrite splice_length; rewrite ?length_app, Hname; simpl; lia.
  - destruct (skip_slashes r) as [|x y] eqn:Hr2; [done|]. apply skip_slashes_head in Hr2.
    simpl. congruence.
  - rewrite path_elems_skip. apply skip_slashes_nil.
  - lia.
Qed.

(** ** The allocation bitmap *)

(** The bit of block [bi] as the allocator reads it. *)
Definition bit_used (d : list Z) (bi : Z) : bool := negb (bit_free d bi).

Lemma bit_mask_small bi : 0 <= bi -> bit_mask bi = 2 ^ (bi mod 8).
Proof. intros. unfold bit_mask. rewrite Z.shiftl_mul_pow2 by dlia. lia. Qed.

Lemma land_pow2_eqb x k : 0 <= k -> (Z.land x (2 ^ k) =? 0) = negb (Z.testbit x k).
Proof.
  intros Hk. destruct (Z.testbit x k) eqn:Hb; simpl.
  - apply Z.eqb_neq. intros H. assert (Z.testbit (Z.land x (2 ^ k)) k = false) as H'
      by (rewrite H; apply Z.bits_0).
    rewrite Z.land_spec, Hb, Z.pow2_bits_true in H' by lia. done.
  - apply Z.eqb_eq, Z.bits_inj'. intros n Hn. rewrite Z.land_spec, Z.bits_0.
    destruct (decide (n = k)) as [->|Hne]; [by rewrite Hb|].
    rewrite Z.pow2_bits_false by lia. apply andb_false_r.
Qed.

Lemma bit_free_testbit d bi : 0 <= bi -> bit_free d bi = negb (Z.testbit (bit_byte d bi) (bi mod 8)).
Proof. intros. unfold bit_free. rewrite bit_mask_small by done. apply land_pow2_eqb. dlia. Qed.

Lemma bit_byte_insert d i v bj :
  (i < length d)%nat ->
  bit_byte (<[i := v]> d) bj = if decide (Z.to_nat (bj / 8) = i) then v else bit_byte d bj.
Proof.
  intros Hi. unfold bit_byte. rewrite !nth_lookup. case_decide as Hd.
  - rewrite Hd, list_lookup_insert_eq by done. done.
  - by rewrite list_lookup_insert_ne by done.
Qed.

Lemma lnot_mask_bit k n : 0 <= k < 8 -> 0 <= n < 8 ->
  Z.testbit (u8 (Z.lnot (2 ^ k))) n = negb (bool_decide (n = k)).
Proof.
  intros Hk Hn. unfold u8. change 0x100 with (2 ^ 8). rewrite Z.mod_pow2_bits_low by lia.
  rewrite Z.lnot_spec by lia. case_bool_decide as Hd; subst.
  - by rewrite Z.pow2_bits_true by lia.
  - by rewrite Z.pow2_bits_false by lia.
Qed.

(** The effect of the allocator's two writes on every bit of the block. *)
Lemma bit_set_used d bi bj :
  0 <= bi < 8 * Z.of_nat (length d) -> 0 <= bj ->
  bit_used (bit_set d bi) bj = bool_decide (bj = bi) || bit_used d bj.
Proof.
  intros Hbi Hbj. unfold bit_used, bit_set. rewrite !bit_free_testbit, !negb_involutive by lia.
  rewrite bit_byte_insert by dlia. case_decide as Hd.
  - rewrite Z.lor_spec, bit_mask_small by lia. replace (bit_byte d bi) with (bit_byte d bj) by (unfold bit_byte; by rewrite Hd).
    case_bool_decide as He; subst; simpl.
    + rewrite Z.pow2_bits_true by dlia. apply orb_true_r.
    + rewrite Z.pow2_bits_false by dlia. apply orb_false_r.
  - case_bool_decide; [subst; done|done].
Qed.

Lemma bit_clear_used d bi bj :
  0 <= bi < 8 * Z.of_nat (length d) -> 0 <= bj ->
  bit_used (bit_clear d bi) bj = negb (bool_decide (bj = bi)) && bit_used d bj.
Proof.
  intros Hbi Hbj. unfold bit_used, bit_clear. rewrite !bit_free_testbit, !negb_involutive by lia.
  rewrite bit_byte_insert by dlia. case_decide as Hd.
  - rewrite Z.land_spec, bit_mask_small by lia. rewrite lnot_mask_bit by dlia.
    replace (bit_byte d bi) with (bit_byte d bj) by (unfold bit_byte; by rewrite Hd).
    rewrite andb_comm. f_equal. do 2 case_bool_decide; subst; try done; exfalso; dlia.
  - case_bool_decide; [subst; done|done].
Qed.

Lemma bit_set_length d bi : length (bit_set d bi) = length d.
Proof. apply length_insert. Qed.
Lemma bit_clear_length d bi : length (bit_clear d bi) = length d.
Proof. apply length_insert. Qed.

(** The scan of [balloc] finds the lowest free bit among the blocks of the
    file system that this bitmap block stands for; setting it allocates that
    block and no other, and clearing it again ([bfree]) restores every bit.
    It reports none only when all of them are in use. *)
Theorem bitmap_alloc_lowest d b size :
  Z.of_nat (length d) = BSIZE -> 0 <= b < size ->
  match balloc_find d b size with
  | Some bi =>
      0 <= bi < BPB /\ b + bi < size /\ bit_used d bi = false /\
      (forall j, 0 <= j < bi -> bit_used d j = true) /\
      (forall j, 0 <= j -> bit_used (bit_set d bi) j = bool_decide (j = bi) || bit_used d j) /\
      (forall j, 0 <= j -> bit_used (bit_clear (bit_set d bi) bi) j = bit_used d j)
  | None => forall j, 0 <= j < BPB -> b + j < size -> bit_used d j = true
  end.
Proof.
  intros Hd Hb. unfold balloc_find.
  destruct (find_idx _ _) as [[i bi]|] eqn:Hf; simpl.
  - apply find_idx_Some in Hf as (Hi & Hfree & Hmin).
    pose proof (proj1 (elem_of_zseq _ _ _) (list_elem_of_lookup_2 _ _ _ Hi)) as Hr.
    pose proof (lookup_lt_Some _ _ _ Hi) as Hlt. rewrite zseq_length in Hlt.
    rewrite zseq_lookup in Hi by done. unfold BPB, BSIZE in *.
    assert (bit_used d bi = false) as Hu by (unfold bit_used; by rewrite Hfree).
    simplify_eq. split_and!; [lia..|done| | |].
    + intros j Hj. unfold bit_used. rewrite (Hmin (Z.to_nat j) j); [done| |lia].
      rewrite zseq_lookup by lia. f_equal. lia.
    + intros j Hj. apply bit_set_used; lia.
    + intros j Hj. rewrite bit_clear_used, bit_set_used by (rewrite ?bit_set_length; lia).
      case_bool_decide; subst; simpl; congruence.
  - apply find_idx_None in Hf. intros j Hj Hjs. rewrite Forall_lookup in Hf.
    unfold bit_used. rewrite (Hf (Z.to_nat j) j); [done|].
    rewrite zseq_lookup by lia. f_equal. lia.
Qed.

(** ** Witnesses *)

Definition demo_block : list Z := replicate 1024 7.
Definition demo_dinode : dinode := DInode 2 (-1) 0 1 1500 [45; 46; 0; 0; 0; 0; 0; 0; 0; 0; 0; 0; 4294967295].
(** "//usr/a_long_file_name/" *)
Definition demo_path : list Z :=
  [47;47;117;115;114;47;97;95;108;111;110;103;95;102;105;108;101;95;110;97;109;101;47].

Lemma dinode_roundtrip_witness :
  get_dinode (put_dinode demo_block 5 demo_dinode) 5 = demo_dinode /\
  (forall j, j mod IPB <> 5 mod IPB ->
     get_dinode (put_dinode demo_block 5 demo_dinode) j = get_dinode demo_block j) /\
  length (put_dinode demo_block 5 demo_dinode) = Z.to_nat BSIZE.
Proof.
  apply (dinode_roundtrip demo_block 5 demo_dinode); [vm_compute; reflexivity|].
  apply (bool_decide_unpack _). vm_compute. exact I.
Defined.

Lemma dirent_roundtrip_witness :
  let de := mk_dirent (u16 9) (strncpy_list DIRSIZ demo_path) in
  Z.of_nat (length de) = DIRENT_SIZE /\ de_inum de = 9 /\
  (namecmp [47; 0] (de_name de) = 0 <-> take DIRSIZ (cstr [47; 0]) = take DIRSIZ (cstr demo_path)).
Proof. apply (dirent_roundtrip demo_path 9 [47; 0]). lia. Defined.

Lemma skipelem_spec_witness :
  match skipelem demo_path (replicate 14 0) with
  | None => path_elems demo_path = []
  | Some (rest, name') => exists e,
      path_elems demo_path = e :: path_elems rest /\
      cstr name' = take DIRSIZ e /\ length name' = DIRSIZ /\
      head rest <> Some slash /\ (rest = [] <-> path_elems rest = []) /\
      (length rest < length demo_path)%nat
  end.
Proof.
  apply (skipelem_spec demo_path (replicate 14 0)); [|reflexivity].
  apply (bool_decide_unpack _). vm_compute. exact I.
Defined.

Lemma bitmap_alloc_lowest_witness :
  match balloc_find demo_block 0 100 with
  | Some bi =>
      0 <= bi < BPB /\ 0 + bi < 100 /\ bit_used demo_block bi = false /\
      (forall j, 0 <= j < bi -> bit_used demo_block j = true) /\
      (forall j, 0 <= j -> bit_used (bit_set demo_block bi) j = bool_decide (j = bi) || bit_used demo_block j) /\
      (forall j, 0 <= j -> bit_used (bit_clear (bit_set demo_block bi) bi) j = bit_used demo_block j)
  | None => forall j, 0 <= j < BPB -> 0 + j < 100 -> bit_used demo_block j = true
  end.
Proof. apply (bitmap_alloc_lowest demo_block 0 100); [vm_compute; reflexivity|lia]. Defined.
