(* ===== verification/FsThm.v ===== *)
(** Files: what [readi] and [writei] promise of the contents of an inode, over
    the buffer cache and the log.

    [fbytes] is the abstraction: the bytes of a file as its inode, its
    indirect block and its data blocks give them, in the view [V] of the disk
    that the cache and the open transaction present. *)

From S2P Require Import Prelude CInt Machine KString Sched Sleeplock Kalloc Vm Proc Bio BioRing.
From S2P Require Import BioThm Log LogThm Fs FsData.

#[export] Instance fs_disk {R} {dl : DiskLens R} : DiskLens (FsSt R).
Proof.
  refine {| dget := fun r => dget (fsrest r); dset := fun w r => r.[fsrest := dset w (fsrest r)] |}.
  - intros. apply dget_dset.
  - intros w w' []. unfold upd_field. simpl. by rewrite dset_dset.
  - intros []. unfold upd_field. simpl. by rewrite dset_dget.
Defined.

(** ** Consecutive stores *)

#[local] Transparent mwrite.
Lemma mwrite_app m a bs cs : mwrite m a (bs ++ cs) = mwrite (mwrite m a bs) (a + Z.of_nat (length bs)) cs.
Proof.
  revert m a. induction bs as [|b bs IH]; intros m a; [by rewrite Z.add_0_r|].
  cbn [app mwrite length]. rewrite IH. f_equal. lia.
Qed.
Lemma mwrite_nil m a : mwrite m a [] = m.
Proof. done. Qed.
#[local] Opaque mwrite.

Section fsthm.
Context {img : KernelImage} {R : Type} {dl : DiskLens R} {dd : DiskDriver (LogSt (FsSt R))}
  {d0 : Z -> list Z} {sd : SyncDisk (LogSt (FsSt R)) d0} {pt : Patience}.
Context (ci : nat) (pid dv start : Z).
Abbreviation St := (Kst (KMem (BioSt (LogSt (FsSt R))))).
Abbreviation at0 := (at_ ci pid []).
Abbreviation cch := (cache (d0 := d0) pid dv).
Implicit Types (s : St) (w : list (Z * list Z)) (k : KMem (BioSt (LogSt (FsSt R)))).

(** ** The rules of the layers below *)

(** Thread [ci] runs with the spin locks [h]; it holds the buffers [Hs]; the
    open transaction has pinned [P]; the blocks of the file system are [V]. *)
Definition fath (h : list kptr) Hs P V w k s : Prop :=
  exists o bl, at_ ci pid h s bl w k /\ cch Hs P V w o bl.
Definition fat Hs P V w k s : Prop := fath [] Hs P V w k s.

(** The open transaction on the blocks [bs]. *)
Record in_tx k (bs : list Z) : Prop := {
  tx_lgk : lgk dv start k bs;
  tx_hdr : length (lh_block (lg k)) = 30%nat;
  tx_home : Forall (home_ok start) bs;
  tx_nodup : NoDup bs;
  tx_out : 1 <= log_outstanding (lg k);
  tx_size : log_size (lg k) <= LOGSIZE;
}.

Lemma wp_fat_bread Hs P V w k s bn Q :
  fat Hs P V w k s -> bn ∉ Hs.*2 -> bn ∈ P \/ (length Hs + length P < NBUF)%nat ->
  (forall b s', fat ((b, bn) :: Hs) P V w k s' -> bn ∈ P \/ V bn = content d0 w bn -> Q b s') ->
  wp (bread dv bn) Q s.
Proof.
  intros (o & bl & A & C) Hn Hlen HQ. eapply wp_bread; [exact A|exact C|done|done|].
  intros b bl' s' A' C'. apply HQ; [by exists o, bl'|].
  destruct (decide (bn ∈ P)); [by left|right]. by apply (ca_clean _ _ _ _ _ _ _ _ C).
Qed.

Lemma wp_fat_bdata Hs P V w k s b bn Q :
  fat Hs P V w k s -> (b, bn) ∈ Hs -> Q (V bn) s -> wp (bdata b) Q s.
Proof. intros (o & bl & A & C) Hi HQ. by eapply wp_bdata. Qed.

Lemma wp_fat_set_bdata Hs P V w k s b bn d Q :
  fat Hs P V w k s -> (b, bn) ∈ Hs ->
  (forall s', fat Hs P (vset V bn d) w k s' -> Q tt s') -> wp (set_bdata b d) Q s.
Proof.
  intros (o & bl & A & C) Hi HQ. eapply wp_set_bdata; [exact A|exact C|exact Hi|].
  intros bl' s' A' C'. apply HQ. by exists o, bl'.
Qed.

Lemma wp_fat_brelse Hs P V w k s b bn Q :
  fat ((b, bn) :: Hs) P V w k s -> bn ∈ P \/ V bn = content d0 w bn ->
  (forall s', fat Hs P V w k s' -> Q tt s') -> wp (brelse b) Q s.
Proof.
  intros (o & bl & A & C) Hc HQ. eapply wp_brelse; [exact A|exact C|exact Hc|].
  intros o' bl' s' A' C'. apply HQ. by exists o', bl'.
Qed.

Lemma absorb_nodup bs b : NoDup bs -> NoDup (absorb bs b).
Proof.
  intros H. unfold absorb. case_decide; [done|]. apply NoDup_app. split; [done|].
  split; [|apply NoDup_singleton]. by intros x Hx ->%list_elem_of_singleton.
Qed.
Lemma absorb_elem bs b x : x ∈ absorb bs b <-> x ∈ bs \/ x = b.
Proof.
  unfold absorb. case_decide; [naive_solver|]. by rewrite elem_of_app, list_elem_of_singleton.
Qed.

Lemma wp_fat_log_write Hs V w k s bs b bn Q :
  fat Hs bs V w k s -> in_tx k bs -> (b, bn) ∈ Hs -> home_ok start bn ->
  Z.of_nat (length bs) < log_size (lg k) - 1 ->
  (forall s' k', fat Hs (absorb bs bn) V w k' s' -> in_tx k' (absorb bs bn) -> hdr_step k k' -> Q tt s') ->
  wp (log_write b) Q s.
Proof.
  intros (o & bl & A & C) [T1 T2 T3 T4 T5 T6] Hi Hb Hn HQ.
  eapply wp_log_write; [exact A|exact C|exact T1|done|exact Hi|done..|].
  intros s' bl' k' A' C' L' K. eapply HQ; [by exists o, bl'| |exact K].
  destruct K as (n & l & -> & Hl). split; simpl; try done.
  - by rewrite <- T2.
  - apply Forall_forall. intros x [Hx| ->]%absorb_elem; [|done]. rewrite Forall_forall in T3. by apply T3.
  - by apply absorb_nodup.
Qed.

(** ** The table of inodes *)

Definition fsk k : FsSt R := logrest (lg k).
(** [k] with the entry [i] of the table replaced. *)
Definition kino (i : nat) (x : inode) k : KMem (BioSt (LogSt (FsSt R))) :=
  klog (fun l => l.[logrest := (logrest l).[itable := <[i := x]> (itable (logrest l))]]) k.

Lemma hdr_step_fsk k k' : hdr_step k k' -> fsk k' = fsk k.
Proof. by intros (n & l & -> & _). Qed.
Lemma hdr_step_size k k' : hdr_step k k' -> log_size (lg k') = log_size (lg k).
Proof. by intros (n & l & -> & _). Qed.

Lemma wp_getfs h Hs P V w k s Q :
  fath h Hs P V w k s -> Q (dset w (fsk k)) s -> wp getfs Q s.
Proof.
  intros (o & bl & [_ H] & _) HQ. eapply wp_exec; [reflexivity|].
  unfold fsst, logst, bio. by rewrite H.
Qed.

Lemma wp_geti h Hs P V w k s i x Q :
  fath h Hs P V w k s -> itable (fsk k) !! i = Some x -> Q x s -> wp (geti i) Q s.
Proof.
  intros F Hx HQ. apply wp_seq. eapply wp_getfs; [exact F|]. simpl. rewrite Hx. by apply wp_ret.
Qed.

Lemma wp_getsb Hs P V w k s Q : fat Hs P V w k s -> Q (fs_sb (fsk k)) s -> wp getsb Q s.
Proof. intros F HQ. apply wp_seq. eapply wp_getfs; [exact F|]. by apply wp_ret. Qed.

Lemma wp_modi h Hs P V w k s i x f Q :
  fath h Hs P V w k s -> itable (fsk k) !! i = Some x ->
  (forall s', fath h Hs P V w (kino i (f x) k) s' -> Q tt s') -> wp (modi i f) Q s.
Proof.
  intros F Hx HQ. apply wp_seq. eapply wp_geti; [exact F|exact Hx|].
  destruct F as (o & bl & A & C). eapply wp_modlog; [exact A|by intros ? ?|].
  intros s' A'. apply HQ. by exists o, bl.
Qed.

Lemma wp_fat_acquire Hs P V w k s l Q :
  fat Hs P V w k s -> (forall s', fath [l] Hs P V w k s' -> Q tt s') -> wp (acquire l) Q s.
Proof.
  intros (o & bl & A & C) HQ. eapply wp_acquire; [exact A|]. intros s' A'. apply HQ. by exists o, bl.
Qed.

Lemma wp_fat_release Hs P V w k s l Q :
  fath [l] Hs P V w k s -> (forall s', fat Hs P V w k s' -> Q tt s') -> wp (release l) Q s.
Proof.
  intros (o & bl & A & C) HQ. eapply wp_release; [exact A|]. intros s' A'. apply HQ. by exists o, bl.
Qed.

(** ** The contents of a file *)

Definition indirect (x : inode) : Z := nth NDIRECT (i_addrs x) 0.

(** The disk block of block [bn] of a file, 0 for none. *)
Definition fblock (V : Z -> list Z) (x : inode) (bn : Z) : Z :=
  if bn <? Z.of_nat NDIRECT then nth (Z.to_nat bn) (i_addrs x) 0
  else if indirect x =? 0 then 0
  else get32 (V (indirect x)) (Z.to_nat (bn - Z.of_nat NDIRECT)).

Definition fbyte (V : Z -> list Z) (x : inode) (i : Z) : Z :=
  nth (Z.to_nat (i mod BSIZE)) (V (fblock V x (i / BSIZE))) 0.
Definition fbytes (V : Z -> list Z) (x : inode) : list Z :=
  fbyte V x <$> zseq 0 (Z.to_nat (i_size x)).

(** Every byte of the file has a block. *)
Definition mapped (V : Z -> list Z) (x : inode) : Prop :=
  forall bn, 0 <= bn -> bn * BSIZE < i_size x -> fblock V x bn <> 0.
Definition blocks_ok (V : Z -> list Z) : Prop := forall b, length (V b) = Z.to_nat BSIZE.

Lemma fbytes_length V x : length (fbytes V x) = Z.to_nat (i_size x).
Proof. unfold fbytes. by rewrite length_fmap, zseq_length. Qed.

Lemma fbytes_lookup V x i :
  (i < Z.to_nat (i_size x))%nat -> fbytes V x !! i = Some (fbyte V x (Z.of_nat i)).
Proof. intros Hi. unfold fbytes. by rewrite list_lookup_fmap, zseq_lookup. Qed.

(** A range inside one block. *)
Lemma fbytes_block V x off m :
  blocks_ok V -> 0 <= off -> 0 <= m -> off mod BSIZE + m <= BSIZE -> off + m <= i_size x ->
  block_bytes (V (fblock V x (off / BSIZE))) off m =
    take (Z.to_nat m) (drop (Z.to_nat off) (fbytes V x)).
Proof.
  intros HV Ho Hm Hb Hs. unfold BSIZE in *. unfold block_bytes, BSIZE.
  apply list_eq. intros j. destruct (decide (j < Z.to_nat m)%nat) as [Hj|Hj].
  - rewrite !lookup_take_lt, !lookup_drop, fbytes_lookup by lia. unfold fbyte, BSIZE.
    replace (Z.of_nat (Z.to_nat off + j) / 1024) with (off / 1024) by dlia.
    replace (Z.to_nat (Z.of_nat (Z.to_nat off + j) mod 1024)) with (Z.to_nat (off mod 1024) + j)%nat by dlia.
    destruct (lookup_lt_is_Some_2 (V (fblock V x (off / 1024))) (Z.to_nat (off mod 1024) + j)) as [y Hy];
      [rewrite HV; unfold BSIZE; dlia|]. by rewrite nth_lookup, Hy.
  - rewrite !lookup_take_ge by lia. done.
Qed.

Lemma wp_bmap_mapped P V w k s ip x bn Q :
  fat [] P V w k s -> itable (fsk k) !! ip = Some x -> i_dev x = dv -> (length P < NBUF)%nat ->
  0 <= bn < MAXFILE -> fblock V x bn <> 0 ->
  (forall s', fat [] P V w k s' -> Q (fblock V x bn) s') -> wp (bmap ip bn) Q s.
Proof.
  intros F Hx Hd HP Hbn Hm HQ. unfold fblock in *. fold (indirect x) in *. unfold MAXFILE in Hbn.
  unfold bmap. apply wp_seq. eapply wp_geti; [exact F|exact Hx|]. fold (indirect x).
  destruct (bn <? Z.of_nat NDIRECT) eqn:Hdir.
  { rewrite (proj2 (Z.eqb_neq _ _) Hm). simpl. by apply wp_ret, HQ. }
  unfold NDIRECT in Hdir. destruct (Z.eqb_spec (indirect x) 0) as [|Hi]; [done|].
  assert (Hlt: bn - Z.of_nat NDIRECT < NINDIRECT). { unfold NDIRECT, NINDIRECT. lia. } rewrite (proj2 (Z.ltb_lt _ _) Hlt).
  simpl negb. cbv iota. apply wp_seq, wp_ret. rewrite (proj2 (Z.eqb_neq _ _) Hi), Hd.
  apply wp_seq. eapply wp_fat_bread; [exact F|apply not_elem_of_nil|right; simpl; lia|].
  intros b s1 F1 Hc. apply wp_seq. eapply wp_fat_bdata; [exact F1|left|].
  rewrite (proj2 (Z.eqb_neq _ _) Hm). simpl negb. cbv iota. apply wp_seq, wp_ret. apply wp_seq.
  eapply wp_fat_brelse; [exact F1|exact Hc|]. intros s2 F2. by apply wp_ret, HQ.
Qed.

(** ** [readi] *)

Definition readi_body (ip : nat) (n : Z) : Z * Z * dest * list Z -> M St (Z * Z * dest * list Z + Z * list Z) :=
  fun '(tot, off, dst, out) =>
    if negb (tot <? n) then ret (inr (s32 tot, out)) else
    let* addr := bmap ip (off / BSIZE) in
    if addr =? 0 then ret (inr (s32 tot, out)) else
    let* x := geti ip in
    let* bp := bread (i_dev x) addr in
    let m := Z.min (n - tot) (BSIZE - off mod BSIZE) in
    let* d := bdata bp in
    let* '(r, bs) := copy_to dst (block_bytes d off m) in
    brelse bp;;;
    if r =? -1 then ret (inr (-1, out)) else
    ret (inl (tot + m, off + m, adv_dest dst m, out ++ bs)).

Lemma adv_dest_add dst a b : adv_dest (adv_dest dst a) b = adv_dest dst (a + b).
Proof. destruct dst; simpl; [..|done]; f_equal; cint_unfold; dlia. Qed.

(** The address is one of the machine. *)
Definition dest_ok (dst : dest) : Prop :=
  match dst with UserDst a | KernDst a => 0 <= a < W64 | BufDst => True end.
Lemma adv_dest_0 dst : dest_ok dst -> adv_dest dst 0 = dst.
Proof. intros H. destruct dst; simpl in *; [..|done]; f_equal; rewrite Z.add_0_r; by apply u64_small. Qed.

(** What reaches a variable of the caller. *)
Definition sink_out (dst : dest) (l : list Z) : list Z :=
  match dst with BufDst => l | _ => [] end.

(** The rounds a loop over the blocks of [off, off + n) still makes. *)
Definition rounds (off n tot : Z) : Z :=
  if tot <? n then (off + n - 1) / BSIZE - (off + tot) / BSIZE + 2 else 1.

(** Copying the bytes [l] to [dst] piece by piece: after [i] bytes the kernel
    is in one of the states [I i], if a piece cannot be stored in one of [E]. *)
Definition sinks P V w (dst : dest) (l : list Z) (I : Z -> KMem (BioSt (LogSt (FsSt R))) -> Prop)
    (E : KMem (BioSt (LogSt (FsSt R))) -> Prop) : Prop :=
  forall Hs i m k s, 0 <= i -> 0 < m -> i + m <= Z.of_nat (length l) -> I i k -> fat Hs P V w k s ->
    let chunk := take (Z.to_nat m) (drop (Z.to_nat i) l) in
    wp (copy_to (adv_dest dst i) chunk) (fun '(r, bs) s' =>
      (r = 0 /\ bs = sink_out dst chunk /\ exists k', I (i + m) k' /\ fat Hs P V w k' s') \/
      (r = -1 /\ exists k', E k' /\ fat Hs P V w k' s')) s.

Lemma take_slice {A} (l : list A) i m : 0 <= i -> 0 <= m ->
  take (Z.to_nat i) l ++ take (Z.to_nat m) (drop (Z.to_nat i) l) = take (Z.to_nat (i + m)) l.
Proof. intros. rewrite Z2Nat.inj_add by lia. by rewrite take_take_drop. Qed.

Lemma sink_out_app dst a b : sink_out dst a ++ sink_out dst b = sink_out dst (a ++ b).
Proof. by destruct dst. Qed.

Section readi_loop.
Context (P : list Z) (V : Z -> list Z) (w : list (Z * list Z)) (ip : nat) (x : inode) (dst : dest).
Context (I : Z -> KMem (BioSt (LogSt (FsSt R))) -> Prop) (E : KMem (BioSt (LogSt (FsSt R))) -> Prop).
Context (off n : Z) (l := take (Z.to_nat n) (drop (Z.to_nat off) (fbytes V x))).
Hypothesis (HI : forall i k, I i k -> itable (fsk k) !! ip = Some x) (Hsink : sinks P V w dst l I E).
Hypothesis (HP : (length P < NBUF)%nat) (Hd : i_dev x = dv) (HV : blocks_ok V) (Hm : mapped V x).
Hypothesis (Hoff : 0 <= off) (Hn : 0 <= n) (Hend : off + n <= i_size x) (Hmax : i_size x <= MAXFILE * BSIZE).

Lemma readi_l_length : Z.of_nat (length l) = n.
Proof. unfold l. rewrite length_take, length_drop, fbytes_length. lia. Qed.

Lemma wp_readi_loop fuel tot k s (Q : Z * list Z -> St -> Prop) :
  0 <= tot <= n -> rounds off n tot <= Z.of_nat fuel -> I tot k -> fat [] P V w k s ->
  (forall k' s', I n k' -> fat [] P V w k' s' -> Q (n, sink_out dst l) s') ->
  (forall k' s' o, E k' -> fat [] P V w k' s' -> Q (-1, o) s') ->
  wp (while fuel (readi_body ip n)
       (tot, off + tot, adv_dest dst tot, sink_out dst (take (Z.to_nat tot) l))) Q s.
Proof.
  unfold MAXFILE, BSIZE in Hmax. revert tot k s. induction fuel as [|fuel IH]; intros tot k s Ht Hf HIk F HQ HE.
  { unfold rounds, BSIZE in Hf. destruct (Z.ltb_spec tot n); [dlia|lia]. }
  cbn [while]. unfold readi_body at 1. destruct (Z.ltb_spec tot n) as [Hlt|Hge]; simpl negb; cbv iota.
  2: { apply wp_seq, wp_ret, wp_ret. assert (tot = n) as -> by lia.
       rewrite s32_small by lia. rewrite take_ge by (pose proof readi_l_length; lia). by eapply HQ. }
  set (bn := (off + tot) / BSIZE). assert (Hb : fblock V x bn <> 0) by (apply Hm; unfold bn, BSIZE; dlia).
  apply wp_seq, wp_seq. eapply wp_bmap_mapped; [exact F|by eapply HI|exact Hd|exact HP|unfold bn, BSIZE, MAXFILE; dlia|exact Hb|].
  intros s1 F1. rewrite (proj2 (Z.eqb_neq _ _) Hb). apply wp_seq.
  eapply wp_geti; [exact F1|by eapply HI|]. rewrite Hd. apply wp_seq.
  eapply wp_fat_bread; [exact F1|apply not_elem_of_nil|right; simpl; lia|]. intros b s2 F2 Hc.
  apply wp_seq. eapply wp_fat_bdata; [exact F2|left|].
  set (m := Z.min (n - tot) (BSIZE - (off + tot) mod BSIZE)).
  assert (Hm1 : 0 < m /\ tot + m <= n) by (unfold m, BSIZE; dlia).
  unfold bn. rewrite fbytes_block by (done || unfold m, BSIZE in *; dlia). fold bn.
  assert (El : take (Z.to_nat m) (drop (Z.to_nat (off + tot)) (fbytes V x)) =
    take (Z.to_nat m) (drop (Z.to_nat tot) l)).
  { unfold l. rewrite skipn_firstn_comm, drop_drop, take_take.
    f_equal; [lia|]. f_equal. lia. }
  rewrite El. apply wp_seq. eapply wp_mono.
  { eapply (Hsink _ tot m); [lia|lia|rewrite readi_l_length; lia|exact HIk|exact F2]. }
  intros [r bs] s3 [(-> & -> & k3 & HI3 & F3)|(-> & k3 & HE3 & F3)]; apply wp_seq.
  - eapply wp_fat_brelse; [exact F3|exact Hc|]. intros s4 F4. apply wp_ret.
    rewrite adv_dest_add, sink_out_app, take_slice by lia. rewrite <- Z.add_assoc.
    eapply IH; [lia| |exact HI3|exact F4|exact HQ|exact HE].
    unfold rounds in *. rewrite (proj2 (Z.ltb_lt _ _) Hlt) in Hf. unfold m, BSIZE in *.
    destruct (Z.ltb_spec (tot + Z.min (n - tot) (1024 - (off + tot) mod 1024)) n); dlia.
  - eapply wp_fat_brelse; [exact F3|exact Hc|]. intros s4 F4. apply wp_ret. by eapply HE.
Qed.
End readi_loop.

(** The bytes of [off, off + n) that the file has; [off + n] must not overflow. *)
Definition file_range (l : list Z) (off n : Z) : list Z :=
  if (Z.of_nat (length l) <? off) || (W32 <=? off + n) then []
  else take (Z.to_nat n) (drop (Z.to_nat off) l).

(** An inode on the device whose blocks all exist. *)
Record file_ok (V : Z -> list Z) (x : inode) : Prop := {
  fo_dev : i_dev x = dv;
  fo_size : 0 <= i_size x <= MAXFILE * BSIZE;
  fo_mapped : mapped V x;
}.

Lemma wp_readi P V w k s ip x dst off n I E (Q : Z * list Z -> St -> Prop) :
  fat [] P V w k s -> itable (fsk k) !! ip = Some x -> file_ok V x -> blocks_ok V ->
  (length P < NBUF)%nat -> 0 <= off < W32 -> 0 <= n < W32 ->
  (forall i k, I i k -> itable (fsk k) !! ip = Some x) -> I 0 k ->
  let l := file_range (fbytes V x) off n in
  dest_ok dst -> sinks P V w dst l I E ->
  (forall k' s', I (Z.of_nat (length l)) k' -> fat [] P V w k' s' ->
     Q (Z.of_nat (length l), sink_out dst l) s') ->
  (forall k' s' o, E k' -> fat [] P V w k' s' -> Q (-1, o) s') ->
  wp (readi ip dst off n) Q s.
Proof.
  intros F Hx [Hd Hsz Hm] HV HP Ho Hn HI HI0. cbv zeta. unfold file_range.
  rewrite fbytes_length, Z2Nat.id by lia. intros Hdst Hsink HQ HE. unfold readi. apply wp_seq.
  eapply wp_geti; [exact F|exact Hx|].
  replace (u32 (off + n) <? off) with (W32 <=? off + n) by (cint_unfold; dlia).
  destruct ((i_size x <? off) || (W32 <=? off + n)) eqn:Hr.
  { apply wp_ret. specialize (HQ k s HI0 F). by destruct dst. }
  apply orb_false_iff in Hr as [Hr1%Z.ltb_ge Hr2%Z.leb_gt]. rewrite u32_small by lia.
  set (n' := if i_size x <? off + n then i_size x - off else n).
  assert (Hn' : n' = Z.min n (i_size x - off)) by (unfold n'; destruct (Z.ltb_spec (i_size x) (off + n)); lia).
  assert (El : take (Z.to_nat n') (drop (Z.to_nat off) (fbytes V x)) =
               take (Z.to_nat n) (drop (Z.to_nat off) (fbytes V x))).
  { rewrite Hn'. destruct (Z.le_gt_cases n (i_size x - off)); [by rewrite Z.min_l|].
    rewrite Z.min_r by lia. rewrite !take_ge; [done|rewrite length_drop, fbytes_length; lia..]. }
  rewrite <- El in *.
  assert (Hlen : Z.of_nat (length (take (Z.to_nat n') (drop (Z.to_nat off) (fbytes V x)))) = n').
  { rewrite length_take, length_drop, fbytes_length. lia. }
  rewrite Hlen in HQ. change (wp (while (S (S (S (Z.to_nat (n' / BSIZE))))) (readi_body ip n') (0, off, dst, [])) Q s).
  replace off with (off + 0) at 1 by lia. rewrite <- (adv_dest_0 dst) at 1 by done.
  replace [] with (sink_out dst (take (Z.to_nat 0) (take (Z.to_nat n') (drop (Z.to_nat off) (fbytes V x))))) by by destruct dst.
  clearbody n'. eapply (wp_readi_loop P V w ip x dst I E off n');
    [exact HI|exact Hsink|exact HP|exact Hd|exact HV|exact Hm|lia..| |exact HI0|exact F|exact HQ|exact HE].
  unfold rounds, BSIZE. destruct (Z.ltb_spec 0 n'); dlia.
Qed.

(** *** Destinations in the kernel *)

(** [k] after the bytes [l] have been delivered to [dst]. *)
Definition sunk (dst : dest) (l : list Z) k : KMem (BioSt (LogSt (FsSt R))) :=
  match dst with KernDst pa => k.[mem := mwrite (mem k) pa l] | _ => k end.
Definition kernel_dest (dst : dest) (n : nat) : Prop :=
  match dst with UserDst _ => False | KernDst pa => in_ram pa (Z.of_nat n) = true | BufDst => True end.

Lemma fsk_sunk dst l k : fsk (sunk dst l k) = fsk k.
Proof. by destruct dst. Qed.

Lemma sunk_nil dst k : sunk dst [] k = k.
Proof. destruct dst; simpl; [done| |done]. rewrite mwrite_nil. by destruct k. Qed.

Lemma sinks_kernel P V w dst l k :
  kernel_dest dst (length l) ->
  sinks P V w dst l (fun i k' => k' = sunk dst (take (Z.to_nat i) l) k) (fun _ => False).
Proof.
  intros Hd Hs i m k' s Hi Hm Hl -> F. cbv zeta. destruct dst as [va|pa|]; [done|..]; simpl in *.
  2: { apply wp_ret. left. split_and!; [done|done|]. by exists k. }
  set (chunk := take (Z.to_nat m) (drop (Z.to_nat i) l)).
  assert (Hlc : length chunk = Z.to_nat m) by (unfold chunk; rewrite length_take, length_drop; lia).
  unfold in_ram, PHYSTOP, KERNBASE in Hd. apply andb_true_iff in Hd as [Hd1%Z.leb_le Hd2%Z.leb_le]. rewrite u64_small by lia.
  assert (Hr : in_ram (pa + i) (Z.of_nat (length chunk)) = true).
  { rewrite Hlc. unfold in_ram, PHYSTOP, KERNBASE. clear -Hd1 Hd2 Hi Hm Hl.
    apply andb_true_intro. split; apply Z.leb_le; lia. }

  destruct F as (o & bl & [(HA & Hc & Hh & Hp) Hk] & C). apply wp_seq, wp_seq.
  eapply wp_exec; [unfold curproc; mred; rewrite Hc; reflexivity|]. cbv iota. apply wp_seq.
  eapply wp_exec.
  { unfold pwrite. rewrite Hr. reflexivity. }
  apply wp_ret, wp_ret. left. split_and!; [done|done|]. eexists. split; [reflexivity|].
  exists o, bl. split; [|done]. split; [done|]. unfold set_mem, kmem. simpl. rewrite Hk. unfold putk, upd_field. simpl.
  f_equal. rewrite <- (take_slice l i m) by lia. fold chunk. symmetry. rewrite mwrite_app.
  f_equal. rewrite length_take. lia.
Qed.

(** C4: [readi] returns exactly the bytes of the file in the range asked for, cut
    at the end of the file (none when the offset lies behind it or the range
    overflows), whichever blocks they lie in, delivers them to the variable or
    the memory of the kernel it is given, and changes nothing else: the cache
    and the table are as before. *)
Theorem readi_reads P V w k s ip x dst off n :
  fat [] P V w k s -> itable (fsk k) !! ip = Some x -> file_ok V x -> blocks_ok V ->
  (length P < NBUF)%nat -> 0 <= off < W32 -> 0 <= n < W32 ->
  let l := file_range (fbytes V x) off n in
  dest_ok dst -> kernel_dest dst (length l) ->
  exists s', readi ip dst off n s = Ok (Z.of_nat (length l), sink_out dst l) s' /\
    fat [] P V w (sunk dst l k) s'.
Proof.
  intros F Hx Hf HV HP Ho Hn l Hd Hk.
  assert (H : wp (readi ip dst off n) (fun r s' => r = (Z.of_nat (length l), sink_out dst l) /\
    fat [] P V w (sunk dst l k) s') s).
  { eapply wp_readi; [exact F|exact Hx|exact Hf|exact HV|exact HP|exact Ho|exact Hn| | |exact Hd|
      apply (sinks_kernel P V w dst l k Hk)|..].
    - intros i k' ->. by rewrite fsk_sunk.
    - symmetry. apply sunk_nil.
    - intros k' s' -> F'. fold l in F' |- *. by rewrite Nat2Z.id, firstn_all in F'.
    - done. }
  apply wp_Ok in H as (r & s' & E & -> & F'). by exists s'.
Qed.
End fsthm.

(** ** Witnesses *)

(** A small disk: the log at block 2, inodes in block 32, the bitmap in block
    33, data from block 34 on.  Block 34 holds a directory with the entry "."
    and a free entry. *)
Definition demo_sb : superblock := SB FSMAGIC 60 26 8 30 2 32 33.
Definition demo_dir_block : list Z := [1; 0; 46] ++ replicate 1021 0.
Definition demo_bitmap : list Z := [255; 255; 255; 255; 7] ++ replicate 1019 0.
Definition demo_fs_disk : Z -> list Z := fun b =>
  if b =? 33 then demo_bitmap else if b =? 34 then demo_dir_block else replicate 1024 0.
Definition demo_dir : inode :=
  Inode 1 1 1 (SleepLock 1 7) 1 T_DIR 0 0 1 32 (34 :: replicate NDIRECT 0).

#[local] Instance demo_fs_driver : DiskDriver (LogSt (FsSt (list (Z * list Z)))) := sync_driver demo_fs_disk.
#[local] Instance demo_fs_sync : SyncDisk (LogSt (FsSt (list (Z * list Z)))) demo_fs_disk :=
  sync_driver_ok demo_fs_disk.
#[local] Instance demo_fs_patience : Patience := 3%nat.

(** A transaction is open; the directory is inode 0 of the table. *)
Definition demo_fs_k : KMem (BioSt (LogSt (FsSt (list (Z * list Z))))) :=
  KM ∅ 0 0 (BioS demo_bufs (LogS 2 30 1 0 1 0 (replicate 30 0)
    (FsS demo_sb (demo_dir :: replicate 49 inode_zero) []))).
Definition demo_fs_st : Kst (KMem (BioSt (LogSt (FsSt (list (Z * list Z)))))) :=
  KSt [] (Some 0%nat) (demo_sl_proc :: replicate 63 proc_zero) 8 None 0 demo_fs_k.

Lemma demo_fs_fat : fat (d0 := demo_fs_disk) 0 7 1 [] [] demo_fs_disk [] demo_fs_k demo_fs_st.
Proof.
  exists (rev (seq 0 NBUF)), demo_bufs. split.
  - split; [|reflexivity]. split_and!; try done. by exists demo_sl_proc.
  - by apply cache_start; [apply demo_binit|..|]; [|apply demo_binit|].
Qed.

Lemma demo_fblock i : 0 <= i -> fblock demo_fs_disk demo_dir i = if i =? 0 then 34 else 0.
Proof.
  intros Hi. unfold fblock. destruct (Z.ltb_spec i (Z.of_nat NDIRECT)) as [Hlt|Hge]; unfold NDIRECT in *.
  - assert (H : forall n, (n < 12)%nat -> nth n (i_addrs demo_dir) 0 = if (n =? 0)%nat then 34 else 0).
    { intros n Hn. do 12 (destruct n as [|n]; [done|]). lia. }
    rewrite H by lia. destruct (Z.eqb_spec i 0) as [->|Hne]; [done|].
    destruct (Nat.eqb_spec (Z.to_nat i) 0); [lia|done].
  - destruct (Z.eqb_spec i 0); [lia|done].
Qed.

Lemma demo_blocks_ok : blocks_ok demo_fs_disk.
Proof. intros b. unfold demo_fs_disk. destruct (b =? 33); [done|]. by destruct (b =? 34). Qed.

Lemma demo_file_ok : file_ok 1 demo_fs_disk demo_dir.
Proof.
  split; [done|by vm_compute|]. intros i Hi Hs. rewrite demo_fblock by done.
  unfold BSIZE in Hs. simpl in Hs. by replace i with 0 by lia.
Qed.

(** The first entry, read into a variable. *)
Lemma readi_reads_witness :
  exists s', readi 0 BufDst 0 16 demo_fs_st = Ok (16, take 16 demo_dir_block) s'.
Proof.
  destruct (readi_reads 0 7 1 [] demo_fs_disk [] demo_fs_k demo_fs_st 0 demo_dir BufDst 0 16
    demo_fs_fat eq_refl demo_file_ok demo_blocks_ok ltac:(unfold NBUF; simpl; lia) ltac:(lia) ltac:(lia) I I)
    as (s' & H & _). exists s'. exact H.
Defined.
