(* ===== verification/FsAlloc.v ===== *)
(** Allocation of disk blocks: [balloc] under the buffer cache and the log,
    and [bmap] when it has to allocate. *)

From S2P Require Import Prelude CInt Machine KString Sched Sleeplock Kalloc Vm Proc Bio BioRing.
From S2P Require Import BioThm Log LogThm Fs FsData FsThm.

(** ** The layout of the disk *)

(** Log, inodes, bitmap, data. *)
Definition nbmap (sb : superblock) : Z := (sb_size sb + BPB - 1) / BPB.
Definition meta (sb : superblock) : Z := sb_bmapstart sb + nbmap sb.

Record layout_ok (start : Z) (sb : superblock) : Prop := {
  ly_start : 0 <= start;
  ly_log : start + LOGSIZE <= sb_inodestart sb;
  ly_ino : sb_inodestart sb <= sb_bmapstart sb;
  ly_size : meta sb <= sb_size sb < W31;
}.

(** The blocks in use: everything before the data, and what the bitmap says. *)
Definition used (V : Z -> list Z) (sb : superblock) (b : Z) : bool :=
  bit_used (V (BBLOCK b sb)) (b mod BPB).
Definition meta_used (V : Z -> list Z) (sb : superblock) : Prop :=
  forall b, 0 <= b < meta sb -> used V sb b = true.

(** The view after the block [b] has been allocated: marked and zeroed. *)
Definition alloc (V : Z -> list Z) (sb : superblock) (b : Z) : Z -> list Z :=
  vset (vset V (BBLOCK b sb) (bit_set (V (BBLOCK b sb)) (b mod BPB))) b (replicate (Z.to_nat BSIZE) 0).

Definition is_bitmap (sb : superblock) (c : Z) : Prop := sb_bmapstart sb <= c < meta sb.

Section layout.
Context {start : Z} {sb : superblock} (Hly : layout_ok start sb).
Implicit Types (V : Z -> list Z).

Lemma nbmap_pos : 0 <= nbmap sb.
Proof.
  pose proof (ly_size _ _ Hly). pose proof (ly_ino _ _ Hly). pose proof (ly_log _ _ Hly).
  pose proof (ly_start _ _ Hly). unfold meta, nbmap, LOGSIZE, MAXOPBLOCKS, BPB, BSIZE in *. dlia.
Qed.


Lemma BBLOCK_eq b : 0 <= b < sb_size sb -> BBLOCK b sb = sb_bmapstart sb + b / BPB.
Proof.
  intros Hb. destruct Hly as [H1 H2 H3 H4]. unfold BBLOCK, meta, nbmap, LOGSIZE, MAXOPBLOCKS, BPB, BSIZE in *.
  rewrite u32_small; [lia|]. dlia.
Qed.
Lemma BBLOCK_bitmap b : 0 <= b < sb_size sb -> is_bitmap sb (BBLOCK b sb).
Proof.
  intros Hb. rewrite BBLOCK_eq by done. unfold is_bitmap, meta, nbmap, BPB, BSIZE. dlia.
Qed.
Lemma bitmap_home c : is_bitmap sb c -> home_ok start c.
Proof.
  intros Hc. destruct Hly as [H1 H2 H3 H4]. unfold is_bitmap, home_ok, in_log, LOGSIZE, MAXOPBLOCKS in *. lia.
Qed.
Lemma data_home b : meta sb <= b < sb_size sb -> home_ok start b.
Proof.
  intros Hb. destruct Hly as [H1 H2 H3 H4]. unfold home_ok, in_log, LOGSIZE, MAXOPBLOCKS, meta, nbmap, BPB, BSIZE in *. dlia.
Qed.
Lemma free_data V b : meta_used V sb -> 0 <= b < sb_size sb -> used V sb b = false -> meta sb <= b.
Proof. intros Hm Hb Hu. destruct (Z.le_gt_cases (meta sb) b); [done|]. by rewrite Hm in Hu by lia. Qed.

(** *** The effect of an allocation on the view *)

Lemma blocks_ok_vset V b d : blocks_ok V -> length d = Z.to_nat BSIZE -> blocks_ok (vset V b d).
Proof. intros HV Hd c. unfold vset. by destruct (c =? b). Qed.

Lemma alloc_blocks_ok V b : blocks_ok V -> blocks_ok (alloc V sb b).
Proof.
  intros HV. apply blocks_ok_vset; [|apply length_replicate].
  apply blocks_ok_vset; [done|]. by rewrite bit_set_length.
Qed.

Lemma alloc_other V b c : c <> BBLOCK b sb -> c <> b -> alloc V sb b c = V c.
Proof. intros H1 H2. unfold alloc. by rewrite !vset_ne. Qed.

Lemma alloc_new V b : alloc V sb b b = replicate (Z.to_nat BSIZE) 0.
Proof. apply vset_eq. Qed.

Lemma used_vset_data V b d c :
  meta sb <= b -> 0 <= c < sb_size sb -> used (vset V b d) sb c = used V sb c.
Proof.
  intros Hb Hc. unfold used. rewrite vset_ne; [done|].
  pose proof (BBLOCK_bitmap c Hc) as Hx. unfold is_bitmap in Hx. lia.
Qed.

Lemma used_alloc V b c :
  blocks_ok V -> meta sb <= b < sb_size sb -> 0 <= b -> 0 <= c < sb_size sb ->
  used (alloc V sb b) sb c = bool_decide (c = b) || used V sb c.
Proof.
  intros HV Hb Hb0 Hc. unfold alloc. rewrite used_vset_data by (done || lia). unfold used, vset.
  rewrite !BBLOCK_eq by lia.
  destruct (Z.eqb_spec (sb_bmapstart sb + c / BPB) (sb_bmapstart sb + b / BPB)) as [E|E].
  - rewrite E, bit_set_used.
    + f_equal. apply bool_decide_ext. unfold BPB, BSIZE in *. dlia.
    + rewrite HV. unfold BPB, BSIZE in *. dlia.
    + unfold BPB, BSIZE. dlia.
  - rewrite bool_decide_false; [done|]. intros ->. done.
Qed.

Lemma meta_used_alloc V b :
  blocks_ok V -> meta_used V sb -> meta sb <= b < sb_size sb -> 0 <= b -> meta_used (alloc V sb b) sb.
Proof.
  intros HV Hm Hb Hb0 c Hc. rewrite used_alloc by (done || lia). rewrite Hm by done. apply orb_true_r.
Qed.
End layout.

Section alloc.
Context {img : KernelImage} {R : Type} {dl : DiskLens R} {dd : DiskDriver (LogSt (FsSt R))}
  {d0 : Z -> list Z} {sd : SyncDisk (LogSt (FsSt R)) d0} {pt : Patience}.
Context (ci : nat) (pid dv start : Z).
Abbreviation St := (Kst (KMem (BioSt (LogSt (FsSt R))))).
Abbreviation fat := (fat (d0 := d0) ci pid dv).
Abbreviation in_tx := (in_tx dv start).
Implicit Types (s : St) (w : list (Z * list Z)) (k : KMem (BioSt (LogSt (FsSt R)))).

(** Two states that differ in the log header only. *)
Definition kview k : KMem (BioSt (LogSt (FsSt R))) := klog (fun g => g.[lh_n := 0].[lh_block := []]) k.
Definition hdr_eq k k' : Prop := kview k = kview k'.

Lemma hdr_step_eq k k' : hdr_step k k' -> hdr_eq k k'.
Proof. by intros (n & l & -> & _). Qed.
Lemma hdr_eq_fsk k k' : hdr_eq k k' -> fsk k' = fsk k.
Proof. intros H. exact (f_equal (fun k => logrest (lg k)) (eq_sym H)). Qed.
Lemma hdr_eq_size k k' : hdr_eq k k' -> log_size (lg k') = log_size (lg k).
Proof. intros H. exact (f_equal (fun k => log_size (lg k)) (eq_sym H)). Qed.
Lemma hdr_eq_kino i x k k' : hdr_eq k k' -> hdr_eq (kino i x k) (kino i x k').
Proof. intros H. exact (f_equal (fun k => kino i x k) H). Qed.

Lemma absorb_length bs b : (length (absorb bs b) <= S (length bs))%nat.
Proof. unfold absorb. case_decide; rewrite ?length_app; simpl; lia. Qed.

(** Reading a block, changing it and logging it. *)
Lemma wp_log_block Hs V w k s bs bn d Q :
  fat Hs bs V w k s -> in_tx k bs -> home_ok start bn -> bn ∉ Hs.*2 ->
  (length Hs + length bs < NBUF)%nat -> Z.of_nat (length bs) < log_size (lg k) - 1 ->
  (forall s' k', fat Hs (absorb bs bn) (vset V bn d) w k' s' -> in_tx k' (absorb bs bn) -> hdr_eq k k' -> Q tt s') ->
  wp (let* bp := bread dv bn in set_bdata bp d;;; log_write bp;;; brelse bp) Q s.
Proof.
  intros F T Hb Hn Hlen Hcap HQ. apply wp_seq.
  eapply wp_fat_bread; [exact F|exact Hn|by right|]. intros b s1 F1 _. apply wp_seq.
  eapply wp_fat_set_bdata; [exact F1|left|]. intros s2 F2. apply wp_seq.
  eapply wp_fat_log_write; [exact F2|exact T|left|exact Hb|exact Hcap|]. intros s3 k3 F3 T3 K3.
  eapply wp_fat_brelse; [exact F3|left; apply absorb_elem; by right|]. intros s4 F4.
  eapply HQ; [exact F4|exact T3|by apply hdr_step_eq].
Qed.

Definition balloc_body (dev : Z) (sb : superblock) (b : Z) : M St (option Z) :=
  let* bp := bread dev (BBLOCK b sb) in
  let* d := bdata bp in
  match balloc_find d b (sb_size sb) with
  | Some bi =>
      set_bdata bp (bit_set d bi);;;
      log_write bp;;;
      brelse bp;;;
      bzero dev (b + bi);;;
      ret (Some (b + bi))
  | None => brelse bp;;; ret None
  end.

(** The view and the transaction after [b] has been allocated. *)
Definition allocated Hs V w k bs (b : Z) s' k' : Prop :=
  let sb := fs_sb (fsk k) in
  0 <= b < sb_size sb /\ used V sb b = false /\ (forall c, 0 <= c < b -> used V sb c = true) /\
  let bs' := absorb (absorb bs (BBLOCK b sb)) b in
  fat Hs bs' (alloc V sb b) w k' s' /\ in_tx k' bs' /\ hdr_eq k k'.

Lemma wp_balloc_scan Hs V w k bs Q :
  let sb := fs_sb (fsk k) in
  in_tx k bs -> layout_ok start sb -> blocks_ok V -> meta_used V sb ->
  (forall c, c ∈ Hs.*2 -> meta sb <= c < sb_size sb /\ used V sb c = true) ->
  (length Hs + length bs + 1 < NBUF)%nat -> Z.of_nat (length bs) + 1 < log_size (lg k) - 1 ->
  (forall b s' k', allocated Hs V w k bs b s' k' -> Q (Some b) s') ->
  (forall s', (forall c, 0 <= c < sb_size sb -> used V sb c = true) -> fat Hs bs V w k s' -> Q None s') ->
  forall m j s, 0 <= j -> j + Z.of_nat m = nbmap sb -> fat Hs bs V w k s ->
  (forall c, 0 <= c < j * BPB -> c < sb_size sb -> used V sb c = true) ->
  wp (mloop ((fun i => i * BPB) <$> zseq j m) (balloc_body dv sb)) Q s.
Proof.
  intros sb T Hly HV Hmeta HHs Hlen Hcap HQ HN m. pose proof (ly_size _ _ Hly) as Hsz.
  induction m as [|m IH]; intros j s Hj Hm F Hbelow.
  { apply wp_ret, HN; [|done]. intros c Hc. apply Hbelow; [|lia]. unfold nbmap, BPB, BSIZE in *. dlia. }
  rewrite zseq_S, fmap_cons. cbn [mloop]. apply wp_seq. unfold balloc_body at 1.
  assert (Hbj : 0 <= j * BPB < sb_size sb) by (unfold nbmap, BPB, BSIZE in *; dlia).
  pose proof (BBLOCK_bitmap Hly _ Hbj) as Hbit.
  assert (Hno : BBLOCK (j * BPB) sb ∉ Hs.*2).
  { intros Hc%HHs. unfold is_bitmap in Hbit. lia. }
  apply wp_seq. eapply wp_fat_bread; [exact F|exact Hno|right; lia|]. intros b s1 F1 Hc. apply wp_seq.
  eapply wp_fat_bdata; [exact F1|left|].
  pose proof (bitmap_alloc_lowest (V (BBLOCK (j * BPB) sb)) (j * BPB) (sb_size sb)
    ltac:(rewrite HV; reflexivity) Hbj) as Hfind.
  assert (Hu : forall i, 0 <= i < BPB -> j * BPB + i < sb_size sb ->
    used V sb (j * BPB + i) = bit_used (V (BBLOCK (j * BPB) sb)) i).
  { intros i Hi Hs'. unfold used. rewrite !(BBLOCK_eq Hly) by lia. unfold BPB, BSIZE in *. do 2 f_equal; dlia. }
  destruct (balloc_find _ _ _) as [bi|].
  - destruct Hfind as (Hbi & Hbs & Hfree & Hmin & _). set (bn := j * BPB + bi) in *.
    assert (Hbn : 0 <= bn < sb_size sb) by (unfold bn, BPB, BSIZE in *; lia).
    assert (HB : BBLOCK bn sb = BBLOCK (j * BPB) sb).
    { rewrite !(BBLOCK_eq Hly) by lia. unfold bn, BPB, BSIZE in *. dlia. }
    assert (Hm8 : bn mod BPB = bi) by (unfold bn, BPB, BSIZE in *; dlia).
    assert (Hun : used V sb bn = false) by (unfold bn; rewrite Hu by lia; done).
    pose proof (free_data V bn Hmeta Hbn Hun) as Hdata.
    apply wp_seq. eapply wp_fat_set_bdata; [exact F1|left|]. intros s2 F2. apply wp_seq.
    eapply wp_fat_log_write; [exact F2|exact T|left|by eapply bitmap_home|lia|]. intros s3 k3 F3 T3 K3.
    apply wp_seq. eapply wp_fat_brelse; [exact F3|left; apply absorb_elem; by right|]. intros s4 F4.
    pose proof (absorb_length bs (BBLOCK (j * BPB) sb)). apply wp_seq. unfold bzero.
    eapply wp_log_block; [exact F4|exact T3|apply (data_home Hly); lia| |lia|rewrite (hdr_step_size _ _ K3); lia|].
    { intros Hc'%HHs. rewrite Hun in Hc'. by destruct Hc'. }
    intros s5 k5 F5 T5 K5. apply wp_ret, wp_ret, (HQ _ _ k5).
    split; [done|]. split; [done|]. split.
    + intros c Hc'. destruct (Z.lt_ge_cases c (j * BPB)); [apply Hbelow; lia|].
      replace c with (j * BPB + (c - j * BPB)) by lia. unfold bn in Hc'. rewrite Hu by lia. apply Hmin. lia.
    + unfold alloc. fold sb. rewrite HB, Hm8. split; [exact F5|]. split; [exact T5|].
      transitivity (kview k3); [by apply hdr_step_eq|exact K5].
  - apply wp_seq. eapply wp_fat_brelse; [exact F1|exact Hc|]. intros s2 F2. apply wp_ret.
    apply (IH (j + 1)); [lia|lia|exact F2|]. intros c Hc1 Hc2.
    destruct (Z.lt_ge_cases c (j * BPB)); [apply Hbelow; lia|].
    replace c with (j * BPB + (c - j * BPB)) by lia. rewrite Hu by lia. apply Hfind; lia.
Qed.

Lemma wp_balloc Hs V w k s bs Q :
  let sb := fs_sb (fsk k) in
  fat Hs bs V w k s -> in_tx k bs -> layout_ok start sb -> blocks_ok V -> meta_used V sb ->
  (forall c, c ∈ Hs.*2 -> meta sb <= c < sb_size sb /\ used V sb c = true) ->
  (length Hs + length bs + 1 < NBUF)%nat -> Z.of_nat (length bs) + 1 < log_size (lg k) - 1 ->
  (forall b s' k', allocated Hs V w k bs b s' k' -> Q b s') ->
  (forall s', (forall c, 0 <= c < sb_size sb -> used V sb c = true) -> fat Hs bs V w k s' -> Q 0 s') ->
  wp (balloc dv) Q s.
Proof.
  intros sb F T Hly HV Hm HHs Hlen Hcap HQ HN. unfold balloc. apply wp_seq.
  eapply wp_getsb; [exact F|]. fold sb. apply wp_seq.
  pose proof (nbmap_pos Hly) as HB.
  change (wp (mloop ((fun i => i * BPB) <$> zseq 0 (Z.to_nat (nbmap sb))) (balloc_body dv sb))
    (fun r s' => wp (ret (default 0 r)) Q s') s).
  eapply (wp_balloc_scan Hs V w k bs); [exact T|exact Hly|exact HV|exact Hm|exact HHs|exact Hlen|exact Hcap| |
    |lia|by rewrite Z2Nat.id|exact F|intros c Hc _; lia].
  - intros b s' k' H. by eapply wp_ret, HQ.
  - intros s' H F'. by apply wp_ret, HN.
Qed.
End alloc.

(** ** Inodes and the blocks they own *)

Record inode_wf (V : Z -> list Z) (sb : superblock) (x : inode) : Prop := {
  iw_len : length (i_addrs x) = S NDIRECT;
  iw_blk : forall i, 0 <= i < MAXFILE -> fblock V x i <> 0 ->
    meta sb <= fblock V x i < sb_size sb /\ used V sb (fblock V x i) = true;
  iw_ind : indirect x <> 0 -> meta sb <= indirect x < sb_size sb /\ used V sb (indirect x) = true;
  iw_inj : forall i j, 0 <= i < MAXFILE -> 0 <= j < MAXFILE -> fblock V x i <> 0 ->
    fblock V x i = fblock V x j -> i = j;
  iw_ne : forall i, 0 <= i < MAXFILE -> fblock V x i <> 0 -> fblock V x i <> indirect x;
}.

(** The inode [x] has been given more blocks: nothing that was in use has
    changed but the bitmap and the table in its indirect block. *)
Record grow (sb : superblock) (V : Z -> list Z) (x : inode) (V' : Z -> list Z) (x' : inode) : Prop := {
  gr_wf : inode_wf V' sb x';
  gr_ok : blocks_ok V';
  gr_meta : meta_used V' sb;
  gr_x : exists l, x' = x.[i_addrs := l];
  gr_blk : forall i, 0 <= i < MAXFILE -> fblock V x i <> 0 -> fblock V' x' i = fblock V x i;
  gr_ind : indirect x <> 0 -> indirect x' = indirect x;
  gr_used : forall c, 0 <= c < sb_size sb -> used V sb c = true -> used V' sb c = true;
  gr_frame : forall c, 0 <= c < sb_size sb -> used V sb c = true -> ~ is_bitmap sb c ->
    (indirect x <> 0 -> c <> indirect x) -> V' c = V c;
  gr_newb : forall i, 0 <= i < MAXFILE -> fblock V x i = 0 -> fblock V' x' i <> 0 ->
    used V sb (fblock V' x' i) = false;
  gr_newi : indirect x = 0 -> indirect x' <> 0 -> used V sb (indirect x') = false;
}.

Section grow.
Context {start : Z} {sb : superblock} (Hly : layout_ok start sb).
Implicit Types (V : Z -> list Z) (x : inode).

Lemma meta_pos : 0 < meta sb.
Proof. destruct Hly as [H1 H2 H3 H4]. unfold meta, nbmap, LOGSIZE, MAXOPBLOCKS, BPB, BSIZE in *. dlia. Qed.

Lemma grow_refl V x : inode_wf V sb x -> blocks_ok V -> meta_used V sb -> grow sb V x V x.
Proof.
  intros Hw HV Hm. split; try done. exists (i_addrs x). by destruct x.
Qed.

Lemma grow_trans V x V1 x1 V2 x2 : grow sb V x V1 x1 -> grow sb V1 x1 V2 x2 -> grow sb V x V2 x2.
Proof.
  intros G1 G2. split; try apply G2.
  - destruct (gr_x _ _ _ _ _ G1) as [l1 ->], (gr_x _ _ _ _ _ G2) as [l2 ->]. by exists l2.
  - intros i Hi Hn. pose proof (gr_blk _ _ _ _ _ G1 i Hi Hn) as E1.
    rewrite (gr_blk _ _ _ _ _ G2) by (done || congruence). done.
  - intros Hn. pose proof (gr_ind _ _ _ _ _ G1 Hn) as E1.
    rewrite (gr_ind _ _ _ _ _ G2) by congruence. done.
  - intros c Hc Hu. apply (gr_used _ _ _ _ _ G2); [done|]. by apply (gr_used _ _ _ _ _ G1).
  - intros c Hc Hu Hb Hi. rewrite (gr_frame _ _ _ _ _ G2);
      [by apply (gr_frame _ _ _ _ _ G1)|done|by apply (gr_used _ _ _ _ _ G1)|done|].
    intros Hn ->. destruct (decide (indirect x = 0)) as [E|E].
    + by rewrite (gr_newi _ _ _ _ _ G1 E Hn) in Hu.
    + by apply (Hi E), (gr_ind _ _ _ _ _ G1).
  - intros i Hi H0 Hn. destruct (decide (fblock V1 x1 i = 0)) as [E|E].
    + pose proof (gr_newb _ _ _ _ _ G2 i Hi E Hn) as H.
      destruct (used V sb (fblock V2 x2 i)) eqn:Hu; [|done].
      pose proof (iw_blk _ _ _ (gr_wf _ _ _ _ _ G2) i Hi Hn) as [Hr _]. pose proof meta_pos.
      rewrite (gr_used _ _ _ _ _ G1) in H by (done || lia). done.
    + rewrite (gr_blk _ _ _ _ _ G2) by done. by apply (gr_newb _ _ _ _ _ G1).
  - intros H0 Hn. destruct (decide (indirect x1 = 0)) as [E|E].
    + pose proof (gr_newi _ _ _ _ _ G2 E Hn) as H.
      destruct (used V sb (indirect x2)) eqn:Hu; [|done].
      pose proof (iw_ind _ _ _ (gr_wf _ _ _ _ _ G2) Hn) as [Hr _]. pose proof meta_pos.
      rewrite (gr_used _ _ _ _ _ G1) in H by (done || lia). done.
    + rewrite (gr_ind _ _ _ _ _ G2) by done. by apply (gr_newi _ _ _ _ _ G1).
Qed.

(** The bytes of blocks that the file had are what they were. *)
Lemma grow_block V x V' x' i :
  inode_wf V sb x -> grow sb V x V' x' -> 0 <= i < MAXFILE -> fblock V x i <> 0 ->
  V' (fblock V' x' i) = V (fblock V x i).
Proof.
  intros Hw G Hi Hn. rewrite (gr_blk _ _ _ _ _ G) by done.
  destruct (iw_blk _ _ _ Hw i Hi Hn) as [Hr Hu]. pose proof meta_pos.
  apply (gr_frame _ _ _ _ _ G); [lia|done|unfold is_bitmap; lia|].
  intros _. by apply Hw.
Qed.

(** One block more, in the place [slot]: a block of data or the indirect one. *)
Lemma add_block V x V' x' b slot :
  inode_wf V sb x -> blocks_ok V' -> meta_used V sb -> 0 <= b < sb_size sb -> used V sb b = false ->
  (forall i, slot = Some i -> 0 <= i < MAXFILE /\ fblock V x i = 0) -> (slot = None -> indirect x = 0) ->
  (exists l, x' = x.[i_addrs := l] /\ length l = S NDIRECT) ->
  (forall c, 0 <= c < sb_size sb -> used V' sb c = bool_decide (c = b) || used V sb c) ->
  (forall i, 0 <= i < MAXFILE -> fblock V' x' i = if decide (slot = Some i) then b else fblock V x i) ->
  indirect x' = (if decide (slot = None) then b else indirect x) ->
  (forall c, 0 <= c < sb_size sb -> used V sb c = true -> ~ is_bitmap sb c ->
    (indirect x <> 0 -> c <> indirect x) -> V' c = V c) ->
  grow sb V x V' x'.
Proof.
  intros Hw HV Hm Hb Hf Hs Hs0 (l & -> & Hl) Hu Hblk Hind Hfr.
  pose proof (free_data V b Hm Hb Hf) as Hdat. pose proof meta_pos as Hpos.
  assert (Hub : used V' sb b = true) by (rewrite Hu by done; by rewrite bool_decide_true).
  assert (Hkeep : forall c, 0 <= c < sb_size sb -> used V sb c = true -> used V' sb c = true).
  { intros c Hc H. rewrite Hu, H by done. apply orb_true_r. }
  assert (Hbne : forall c, used V sb c = true -> c <> b) by congruence.
  split; try done.
  - split; [done|..].
    + intros i Hi. rewrite Hblk by done. destruct (decide (slot = Some i)); [intros _; split; [lia|done]|].
      intros Hn. destruct (iw_blk _ _ _ Hw i Hi Hn). split; [done|]. apply Hkeep; [lia|done].
    + rewrite Hind. destruct (decide (slot = None)); [intros _; split; [lia|done]|].
      intros Hn. destruct (iw_ind _ _ _ Hw Hn). split; [done|]. apply Hkeep; [lia|done].
    + intros i j Hi Hj. rewrite !Hblk by done.
      destruct (decide (slot = Some i)), (decide (slot = Some j)); intros Hn E.
      * congruence.
      * rewrite E in Hn. by destruct (Hbne _ (proj2 (iw_blk _ _ _ Hw j Hj Hn))).
      * by destruct (Hbne _ (proj2 (iw_blk _ _ _ Hw i Hi Hn))).
      * by apply (iw_inj _ _ _ Hw).
    + intros i Hi. rewrite Hblk, Hind by done.
      destruct (decide (slot = Some i)), (decide (slot = None)); intros Hn; [congruence|..].
      * intros E. rewrite E in Hn. by destruct (Hbne _ (proj2 (iw_ind _ _ _ Hw Hn))).
      * by apply Hbne, (iw_blk _ _ _ Hw i Hi Hn).
      * by apply (iw_ne _ _ _ Hw).
  - intros c Hc. rewrite Hu, Hm by (done || lia). apply orb_true_r.
  - by exists l.
  - intros i Hi Hn. rewrite Hblk by done. destruct (decide (slot = Some i)) as [E|E]; [|done].
    by destruct (Hs i E).
  - intros Hn. rewrite Hind. destruct (decide (slot = None)) as [E|E]; [|done]. by destruct (Hs0 E).
  - intros i Hi H0. rewrite Hblk by done. by destruct (decide (slot = Some i)).
  - intros H0. rewrite Hind. by destruct (decide (slot = None)).
Qed.

Lemma fblock_ext V V' x i :
  (indirect x <> 0 -> V' (indirect x) = V (indirect x)) -> fblock V' x i = fblock V x i.
Proof.
  intros H. unfold fblock. destruct (i <? Z.of_nat NDIRECT); [done|].
  destruct (Z.eqb_spec (indirect x) 0); [done|]. by rewrite H.
Qed.

Lemma alloc_frame V b c :
  0 <= b < sb_size sb -> used V sb b = false -> 0 <= c < sb_size sb -> used V sb c = true ->
  ~ is_bitmap sb c -> alloc V sb b c = V c.
Proof.
  intros Hb Hf Hc Hu Hn. apply alloc_other; [|congruence].
  intros ->. apply Hn. by apply (BBLOCK_bitmap Hly).
Qed.

Lemma alloc_indirect V x b :
  inode_wf V sb x -> 0 <= b < sb_size sb -> used V sb b = false ->
  indirect x <> 0 -> alloc V sb b (indirect x) = V (indirect x).
Proof.
  intros Hw Hb Hf Hn. destruct (iw_ind _ _ _ Hw Hn) as [Hr Hu]. pose proof meta_pos.
  apply alloc_frame; [done|done|lia|done|]. unfold is_bitmap. lia.
Qed.

Lemma get32_zero j : (j < 256)%nat -> get32 (replicate 1024 0) j = 0.
Proof.
  intros Hj. unfold get32. rewrite drop_replicate, take_replicate.
  replace (4 `min` (1024 - 4 * j))%nat with 4%nat by lia. done.
Qed.

Section grow_steps.
Context (V : Z -> list Z) (x : inode) (b : Z).
Hypothesis (Hw : inode_wf V sb x) (HV : blocks_ok V) (Hm : meta_used V sb).
Hypothesis (Hb : 0 <= b < sb_size sb) (Hf : used V sb b = false).

Lemma free_range : meta sb <= b < sb_size sb.
Proof. split; [by eapply free_data|lia]. Qed.

Lemma add_direct n :
  0 <= n < Z.of_nat NDIRECT -> fblock V x n = 0 ->
  let x' := x.[i_addrs := <[Z.to_nat n := b]> (i_addrs x)] in
  grow sb V x (alloc V sb b) x' /\ fblock (alloc V sb b) x' n = b.
Proof.
  intros Hn H0 x'. pose proof (iw_len _ _ _ Hw) as Hl. unfold NDIRECT in Hn, Hl.
  assert (Hi : indirect x' = indirect x).
  { unfold indirect, x', upd_field. simpl. rewrite !nth_lookup, list_lookup_insert_ne; [done|unfold NDIRECT; lia]. }
  assert (Hblk : forall i, 0 <= i < MAXFILE ->
    fblock (alloc V sb b) x' i = if decide (Some n = Some i) then b else fblock V x i).
  { intros i Hr. destruct (decide (Some n = Some i)) as [[= <-]|Hne].
    - unfold fblock. destruct (Z.ltb_spec n (Z.of_nat NDIRECT)); [|unfold NDIRECT in *; lia].
      unfold x', upd_field. simpl. rewrite nth_lookup, list_lookup_insert_eq by lia. done.
    - transitivity (fblock V x' i).
      + apply fblock_ext. rewrite Hi. by apply alloc_indirect.
      + unfold fblock. rewrite Hi. destruct (Z.ltb_spec i (Z.of_nat NDIRECT)); [|done].
        unfold x', upd_field. simpl. rewrite !nth_lookup, list_lookup_insert_ne; [done|].
        intros E. apply Hne. f_equal. lia. }
  split; [|by rewrite Hblk, decide_True by (done || (unfold MAXFILE; lia))].
  pose proof free_range. apply (add_block V x _ x' b (Some n)); try done.
  - by apply alloc_blocks_ok.
  - intros i [= <-]. unfold MAXFILE. split; [lia|done].
  - eexists. split; [reflexivity|]. by rewrite length_insert.
  - intros c Hc. by apply (used_alloc Hly); [..|lia|].
  - intros c Hc Hu Hbm _. by apply alloc_frame.
Qed.

Lemma add_indirect :
  indirect x = 0 ->
  let x' := x.[i_addrs := <[NDIRECT := b]> (i_addrs x)] in
  grow sb V x (alloc V sb b) x' /\ indirect x' = b /\ alloc V sb b b = replicate 1024 0.
Proof.
  intros H0 x'. pose proof (iw_len _ _ _ Hw) as Hl. unfold NDIRECT in Hl.
  pose proof free_range as Hr. pose proof meta_pos.
  assert (Hi : indirect x' = b).
  { unfold indirect, x', upd_field. simpl. rewrite nth_lookup, list_lookup_insert_eq by (unfold NDIRECT; lia). done. }
  split; [|split; [done|apply alloc_new]].
  apply (add_block V x _ x' b None); try done.
  - by apply alloc_blocks_ok.
  - eexists. split; [reflexivity|]. by rewrite length_insert.
  - intros c Hc. by apply (used_alloc Hly); [..|lia|].
  - intros i Hin. rewrite decide_False by done. unfold fblock. rewrite Hi, H0.
    destruct (Z.ltb_spec i (Z.of_nat NDIRECT)) as [Hlt|Hge].
    + unfold x', upd_field. simpl. by rewrite !nth_lookup, list_lookup_insert_ne by lia.
    + simpl. destruct (Z.eqb_spec b 0); [done|]. rewrite alloc_new.
      apply get32_zero. unfold NDIRECT, MAXFILE in *. lia.
  - intros c Hc Hu Hbm _. by apply alloc_frame.
Qed.

Lemma add_entry n :
  Z.of_nat NDIRECT <= n < MAXFILE -> fblock V x n = 0 -> indirect x <> 0 ->
  let V' := vset (alloc V sb b) (indirect x)
    (set32 (V (indirect x)) (Z.to_nat (n - Z.of_nat NDIRECT)) b) in
  grow sb V x V' x /\ fblock V' x n = b.
Proof.
  intros Hn H0 Hi V'. pose proof free_range as Hr. pose proof meta_pos.
  destruct (iw_ind _ _ _ Hw Hi) as [Hir Hiu]. unfold NDIRECT, MAXFILE in Hn.
  assert (HL : length (V (indirect x)) = 1024%nat) by apply HV.
  assert (Hblk : forall i, 0 <= i < MAXFILE ->
    fblock V' x i = if decide (Some n = Some i) then b else fblock V x i).
  { intros i Hin. unfold MAXFILE in Hin. unfold fblock.
    destruct (Z.ltb_spec i (Z.of_nat NDIRECT)) as [Hlt|Hge]; [|destruct (Z.eqb_spec (indirect x) 0); [done|]].
    - rewrite decide_False; [done|]. intros [= ->]. unfold NDIRECT in Hlt. lia.
    - unfold V'. rewrite vset_eq, get32_set32 by (done || unfold NDIRECT in *; lia).
      destruct (decide (Some n = Some i)) as [[= <-]|Hne].
      + rewrite decide_True by done. apply u32_small. pose proof (ly_size _ _ Hly). lia.
      + rewrite decide_False; [done|]. intros E. apply Hne. f_equal. unfold NDIRECT in *. lia. }
  split; [|by rewrite Hblk, decide_True by (done || (unfold MAXFILE; lia))].
  apply (add_block V x _ x b (Some n)); try done.
  - apply blocks_ok_vset; [by apply alloc_blocks_ok|]. apply set32_length; [done|unfold NDIRECT; lia].
  - intros i [= <-]. split; [unfold MAXFILE; lia|done].
  - exists (i_addrs x). split; [by destruct x|apply Hw].
  - intros c Hc. unfold V'. rewrite (used_vset_data Hly) by (done || lia).
    by apply (used_alloc Hly); [..|lia|].
  - intros c Hc Hu Hbm Hci. unfold V'. rewrite vset_ne by auto. by apply alloc_frame.
Qed.
End grow_steps.
End grow.

(** ** [bmap] *)

(** The blocks of the transaction: those [bs0] it began with, the bitmap, the
    indirect block and the blocks [a, a + i) of the file. *)
Definition covered (sb : superblock) (bs0 : list Z) (a i : Z) (V : Z -> list Z) (x : inode) (bs : list Z) : Prop :=
  forall c, c ∈ bs -> c ∈ bs0 \/ is_bitmap sb c \/ (c <> 0 /\ c = indirect x) \/
    (exists j, a <= j < a + i /\ c <> 0 /\ c = fblock V x j).

Lemma covered_more sb bs0 a i i' V x bs : i <= i' -> covered sb bs0 a i V x bs -> covered sb bs0 a i' V x bs.
Proof. intros Hi H c Hc. destruct (H c Hc) as [?|[?|[?|(j & Hj & ?)]]]; [auto..|].
  right. right. right. exists j. split; [lia|done].
Qed.

Lemma covered_grow sb bs0 a i V x V' x' bs :
  grow sb V x V' x' -> 0 <= a -> a + i <= MAXFILE -> covered sb bs0 a i V x bs -> covered sb bs0 a i V' x' bs.
Proof.
  intros G Ha Hi H c Hc. destruct (H c Hc) as [?|[?|[[Hn ->]|(j & Hj & Hn & ->)]]]; [by left|by right; left|..].
  - right. right. left. split; [done|]. symmetry. by apply (gr_ind _ _ _ _ _ G).
  - right. right. right. exists j. split; [done|]. split; [done|]. symmetry. apply (gr_blk _ _ _ _ _ G); [lia|done].
Qed.

Lemma covered_absorb sb bs0 a i V x bs b :
  covered sb bs0 a i V x bs ->
  is_bitmap sb b \/ (b <> 0 /\ b = indirect x) \/ (exists j, a <= j < a + i /\ b <> 0 /\ b = fblock V x j) ->
  covered sb bs0 a i V x (absorb bs b).
Proof. intros H Hb c [Hc| ->]%absorb_elem; [by apply H|by right]. Qed.

Lemma covered_length sb bs0 a i V x bs :
  NoDup bs -> 0 <= i -> 0 <= nbmap sb -> covered sb bs0 a i V x bs ->
  Z.of_nat (length bs) <= Z.of_nat (length bs0) + nbmap sb + 1 + i.
Proof.
  intros Hnd Hi Hnb H.
  assert (Hle : (length bs <= length (bs0 ++ zseq (sb_bmapstart sb) (Z.to_nat (nbmap sb)) ++ [indirect x] ++
    (fblock V x <$> zseq a (Z.to_nat i))))%nat).
  { apply submseteq_length, NoDup_submseteq; [done|]. intros c Hc. rewrite !elem_of_app, list_elem_of_singleton.
    destruct (H c Hc) as [?|[Hb|[[? ?]|(j & Hj & ? & ->)]]]; [by left|right; left|by right; right; left|right; right; right].
    - unfold is_bitmap, meta in Hb. apply elem_of_zseq. lia.
    - apply list_elem_of_fmap. exists j. split; [done|]. apply elem_of_zseq. lia. }
  rewrite !length_app, length_fmap, !zseq_length in Hle. simpl in Hle. lia.
Qed.

Section bmap.
Context {img : KernelImage} {R : Type} {dl : DiskLens R} {dd : DiskDriver (LogSt (FsSt R))}
  {d0 : Z -> list Z} {sd : SyncDisk (LogSt (FsSt R)) d0} {pt : Patience}.
Context (ci : nat) (pid dv start : Z).
Abbreviation St := (Kst (KMem (BioSt (LogSt (FsSt R))))).
Abbreviation fat := (fat (d0 := d0) ci pid dv).
Abbreviation in_tx := (in_tx dv start).
Implicit Types (s : St) (w : list (Z * list Z)) (k : KMem (BioSt (LogSt (FsSt R)))).

Lemma fsk_kino ip x k :
  fsk (kino ip x k) = (fsk k).[itable := <[ip := x]> (itable (fsk k))].
Proof. done. Qed.
Lemma kino_kino ip x y k : kino ip x (kino ip y k) = kino ip x k.
Proof. unfold kino, klog, lg, upd_field. simpl. by rewrite list_insert_insert_eq. Qed.
Lemma kino_id ip x k : itable (fsk k) !! ip = Some x -> kino ip x k = k.
Proof.
  unfold fsk, lg, kino, klog, upd_field. destruct k as [? ? ? [? [? ? ? ? ? ? ? [? ? ?]]]]. simpl.
  intros H. by rewrite list_insert_id.
Qed.
Lemma in_tx_kino ip x k bs : in_tx k bs -> in_tx (kino ip x k) bs.
Proof. intros [[L1 L2 L3 L4] T2 T3 T4 T5 T6]. by split. Qed.

(** The kernel [k0] began a transaction with the blocks [bs0] and works on the
    blocks [a, ...) of the inode [ip]. *)
Context (sb : superblock) (k0 : KMem (BioSt (LogSt (FsSt R)))) (ip : nat) (w : list (Z * list Z))
  (bs0 : list Z) (a : Z).
Hypothesis (Hly : layout_ok start sb) (Hsb : fs_sb (fsk k0) = sb) (Ha : 0 <= a).
Hypothesis (Hip : (ip < length (itable (fsk k0)))%nat).

Record working (i : Z) (V : Z -> list Z) (x : inode) (bs : list Z) k s : Prop := {
  wk_fat : fat [] bs V w k s;
  wk_tx : in_tx k bs;
  wk_ok : blocks_ok V;
  wk_meta : meta_used V sb;
  wk_wf : inode_wf V sb x;
  wk_k : hdr_eq (kino ip x k0) k;
  wk_cov : covered sb bs0 a i V x bs;
  wk_dev : i_dev x = dv;
}.

(** There is room in the log for the round on block [a + i]. *)
Definition room (i : Z) : Prop :=
  0 <= i /\ a + i < MAXFILE /\ Z.of_nat (length bs0) + nbmap sb + i + 3 < log_size (lg k0) - 1.

Section working.
Context {i : Z} {V : Z -> list Z} {x : inode} {bs : list Z} {k : KMem (BioSt (LogSt (FsSt R)))} {s : St}
  (W : working i V x bs k s).

Lemma working_fsk : fsk k = (fsk k0).[itable := <[ip := x]> (itable (fsk k0))].
Proof. by rewrite (hdr_eq_fsk _ _ (wk_k _ _ _ _ _ _ W)). Qed.
Lemma working_ip : itable (fsk k) !! ip = Some x.
Proof. rewrite working_fsk. simpl. by apply list_lookup_insert_eq. Qed.
Lemma working_sb : fs_sb (fsk k) = sb.
Proof. by rewrite working_fsk. Qed.
Lemma working_size : log_size (lg k) = log_size (lg k0).
Proof. by rewrite (hdr_eq_size _ _ (wk_k _ _ _ _ _ _ W)). Qed.
Lemma working_room : room i ->
  (length bs + 2 < NBUF)%nat /\ Z.of_nat (length bs) + 2 < log_size (lg k) - 1.
Proof.
  intros (Hi & _ & Hr). pose proof (tx_size _ _ _ _ (wk_tx _ _ _ _ _ _ W)). rewrite working_size in *.
  pose proof (covered_length _ _ _ _ _ _ _ (tx_nodup _ _ _ _ (wk_tx _ _ _ _ _ _ W)) Hi (nbmap_pos Hly) (wk_cov _ _ _ _ _ _ W)).
  unfold LOGSIZE, MAXOPBLOCKS, NBUF in *. lia.
Qed.
End working.

Definition full (V : Z -> list Z) : Prop := forall c, 0 <= c < sb_size sb -> used V sb c = true.

(** [balloc] in the transaction. *)
Lemma wp_working_balloc Hs i V x bs k s Q :
  working i V x bs k s -> room i -> (length Hs <= 1)%nat ->
  (forall c, c ∈ Hs.*2 -> meta sb <= c < sb_size sb /\ used V sb c = true) ->
  forall s1, fat Hs bs V w k s1 ->
  (forall b s' k', 0 <= b < sb_size sb -> used V sb b = false ->
     fat Hs (absorb (absorb bs (BBLOCK b sb)) b) (alloc V sb b) w k' s' ->
     in_tx k' (absorb (absorb bs (BBLOCK b sb)) b) -> hdr_eq k k' -> Q b s') ->
  (forall s', full V -> fat Hs bs V w k s' -> Q 0 s') ->
  wp (balloc dv) Q s1.
Proof.
  intros W Hr Hl HHs s1 F HQ HN. destruct (working_room W Hr) as [Hr1 Hr2].
  eapply (wp_balloc ci pid dv start Hs V w k s1 bs); rewrite ?(working_sb W);
    [exact F|apply W|exact Hly|apply W|apply W|exact HHs|lia|lia| |exact HN].
  intros b s' k'. unfold allocated. rewrite (working_sb W). intros (Hb & Hu & _ & F' & T' & K').
  by apply (HQ b s' k').
Qed.

Lemma working_grow i i' V x bs k s V' x' bs' k' s' :
  working i V x bs k s -> grow sb V x V' x' -> fat [] bs' V' w k' s' -> in_tx k' bs' ->
  hdr_eq (kino ip x' k) k' -> covered sb bs0 a i' V' x' bs' -> working i' V' x' bs' k' s'.
Proof.
  intros W G F T K C. split; [exact F|exact T|apply G|apply G|apply G| |exact C|].
  - transitivity (kview (kino ip x' k)); [|exact K]. rewrite <- (kino_kino ip x' x k0).
    by apply hdr_eq_kino, W.
  - destruct (gr_x _ _ _ _ _ G) as [l ->]. exact (wk_dev _ _ _ _ _ _ W).
Qed.

Lemma wp_bmap_indirect i V x bs k s Q :
  working i V x bs k s -> room i ->
  (forall V' x' bs' k' s', grow sb V x V' x' -> working i V' x' bs' k' s' -> indirect x' <> 0 ->
     Q (indirect x') s') ->
  (forall s', full V -> working i V x bs k s' -> indirect x = 0 -> Q 0 s') ->
  wp (if negb (indirect x =? 0) then ret (indirect x) else
      let* addr := balloc dv in
      if addr =? 0 then ret 0 else
      modi ip (fun x => x.[i_addrs := <[NDIRECT := addr]> (i_addrs x)]);;;
      ret addr) Q s.
Proof.
  intros W Hr HQ HN. destruct (Z.eqb_spec (indirect x) 0) as [Hi|Hi]; simpl negb; cbv iota.
  2: { apply wp_ret. apply (HQ V x bs k); [|done|done]. by apply grow_refl; apply W. }
  apply wp_seq. eapply (wp_working_balloc [] i V x bs k s); [exact W|exact Hr|simpl; lia| |apply W|..].
  { by intros c ?%not_elem_of_nil. }
  - intros b s1 k1 Hb Hf F1 T1 K1. pose proof (meta_pos Hly).
    pose proof (free_data V b (wk_meta _ _ _ _ _ _ W) Hb Hf) as Hbm.
    destruct (add_indirect Hly V x b (wk_wf _ _ _ _ _ _ W) (wk_ok _ _ _ _ _ _ W) (wk_meta _ _ _ _ _ _ W) Hb Hf Hi)
      as (G & Hx' & _).
    set (x' := x.[i_addrs := <[NDIRECT := b]> (i_addrs x)]) in *.
    rewrite (proj2 (Z.eqb_neq b 0)) by lia. apply wp_seq.
    eapply wp_modi; [exact F1|rewrite (hdr_eq_fsk _ _ K1); apply (working_ip W)|].
    intros s2 F2. fold x' in F2. apply wp_ret. rewrite <- Hx'. eapply HQ; [exact G| |by rewrite Hx'; lia].
    eapply (working_grow i i); [exact W|exact G|exact F2|by apply in_tx_kino|by apply hdr_eq_kino|].
    assert (a + i <= MAXFILE) by (destruct Hr as (_ & ? & _); lia).
    apply covered_absorb; [apply covered_absorb|].
    + apply (covered_grow _ _ _ _ _ _ _ _ _ G); [done|done|apply W].
    + left. by apply (BBLOCK_bitmap Hly).
    + right. left. split; [lia|done].
  - intros s1 Hfull F1. rewrite Z.eqb_refl. apply wp_ret, HN; [done| |done]. destruct W. by split.
Qed.

Lemma wp_bmap_entry i V x bs k s Q :
  working i V x bs k s -> room i -> Z.of_nat NDIRECT <= a + i -> indirect x <> 0 ->
  (forall V' bs' k' s', grow sb V x V' x -> working (i + 1) V' x bs' k' s' -> fblock V' x (a + i) <> 0 ->
     Q (fblock V' x (a + i)) s') ->
  (forall s', full V -> working i V x bs k s' -> fblock V x (a + i) = 0 -> Q 0 s') ->
  wp (let* bp := bread dv (indirect x) in
      let* d := bdata bp in
      let a' := get32 d (Z.to_nat (a + i - Z.of_nat NDIRECT)) in
      let* a' := (if negb (a' =? 0) then ret a' else
        let* a' := balloc dv in
        (if negb (a' =? 0) then
           let* d := bdata bp in
           set_bdata bp (set32 d (Z.to_nat (a + i - Z.of_nat NDIRECT)) a');;;
           log_write bp
         else ret tt);;;
        ret a') in
      brelse bp;;;
      ret a') Q s.
Proof.
  intros W Hr Hn Hi HQ HN. destruct (working_room W Hr) as [Hr1 Hr2]. pose proof (meta_pos Hly).
  destruct (iw_ind _ _ _ (wk_wf _ _ _ _ _ _ W) Hi) as [Hir Hiu]. pose proof Hr as (Hi0 & Hmax & _).
  assert (Hfb : fblock V x (a + i) = get32 (V (indirect x)) (Z.to_nat (a + i - Z.of_nat NDIRECT))).
  { unfold fblock. destruct (Z.ltb_spec (a + i) (Z.of_nat NDIRECT)); [lia|].
    by rewrite (proj2 (Z.eqb_neq _ _) Hi). }
  apply wp_seq. eapply wp_fat_bread; [apply W|apply not_elem_of_nil|right; simpl; lia|].
  intros bp s1 F1 Hc. apply wp_seq. eapply wp_fat_bdata; [exact F1|left|]. rewrite <- Hfb. apply wp_seq.
  destruct (Z.eqb_spec (fblock V x (a + i)) 0) as [H0|H0]; simpl negb; cbv iota.
  2: { apply wp_ret, wp_seq. eapply wp_fat_brelse; [exact F1|exact Hc|]. intros s2 F2.
       apply wp_ret, (HQ V bs k); [by apply grow_refl; apply W| |done].
       destruct W. split; try done. eapply covered_more; [|done]. lia. }
  apply wp_seq. eapply (wp_working_balloc [(bp, indirect x)] i V x bs k s); [exact W|exact Hr|simpl; lia| |exact F1|..].
  { by intros c ->%list_elem_of_singleton. }
  - intros b s2 k2 Hb Hf F2 T2 K2. pose proof (free_data V b (wk_meta _ _ _ _ _ _ W) Hb Hf) as Hbm.
    rewrite (proj2 (Z.eqb_neq b 0)) by lia. simpl negb. cbv iota. apply wp_seq, wp_seq.
    eapply wp_fat_bdata; [exact F2|left|].
    rewrite (alloc_indirect Hly V x b (wk_wf _ _ _ _ _ _ W) Hb Hf Hi).
    destruct (add_entry Hly V x b (wk_wf _ _ _ _ _ _ W) (wk_ok _ _ _ _ _ _ W) (wk_meta _ _ _ _ _ _ W) Hb Hf (a + i)
      ltac:(lia) H0 Hi) as [G Hfb']. set (V' := vset _ _ _) in *.
    apply wp_seq. eapply wp_fat_set_bdata; [exact F2|left|]. intros s3 F3. fold V' in F3.
    pose proof (absorb_length bs (BBLOCK b sb)). pose proof (absorb_length (absorb bs (BBLOCK b sb)) b).
    eapply wp_fat_log_write; [exact F3|exact T2|left|by apply (data_home Hly)|rewrite (hdr_eq_size _ _ K2); lia|].
    intros s4 k4 F4 T4 K4%hdr_step_eq. apply wp_ret, wp_seq.
    eapply wp_fat_brelse; [exact F4|left; apply absorb_elem; by right|]. intros s5 F5.
    apply wp_ret. rewrite <- Hfb'. eapply HQ; [exact G| |by rewrite Hfb'; lia].
    eapply (working_grow i (i + 1)); [exact W|exact G|exact F5|exact T4| |].
    + rewrite (kino_id ip x k) by apply (working_ip W). by transitivity (kview k2).
    + apply covered_absorb; [apply covered_absorb; [apply covered_absorb|]|].
      * eapply covered_more; [|apply (covered_grow _ _ _ i _ _ _ _ _ G); [done|lia|apply W]]. lia.
      * left. by apply (BBLOCK_bitmap Hly).
      * right. right. exists (a + i). split; [lia|]. split; [lia|done].
      * right. by left.
  - intros s2 Hfull F2. rewrite Z.eqb_refl. simpl negb. cbv iota. apply wp_seq, wp_ret, wp_ret, wp_seq.
    eapply wp_fat_brelse; [exact F2|exact Hc|]. intros s3 F3. apply wp_ret, HN; [done| |done].
    destruct W. by split.
Qed.
(** [bmap] finds the block or allocates it, and the indirect block with it. *)
Lemma wp_bmap i V x bs k s Q :
  working i V x bs k s -> room i ->
  (forall V' x' bs' k' s', grow sb V x V' x' -> working (i + 1) V' x' bs' k' s' ->
     fblock V' x' (a + i) <> 0 -> Q (fblock V' x' (a + i)) s') ->
  (forall V' x' bs' k' s', full V' -> grow sb V x V' x' -> working i V' x' bs' k' s' -> Q 0 s') ->
  wp (bmap ip (a + i)) Q s.
Proof.
  intros W Hr HQ HN. pose proof Hr as (Hi0 & Hmax & _). unfold bmap. apply wp_seq.
  eapply wp_geti; [apply W|apply (working_ip W)|]. rewrite (wk_dev _ _ _ _ _ _ W). fold (indirect x).
  assert (Hrefl : grow sb V x V x) by (by apply grow_refl; apply W).
  destruct (Z.ltb_spec (a + i) (Z.of_nat NDIRECT)) as [Hd|Hd].
  - assert (Hfb : nth (Z.to_nat (a + i)) (i_addrs x) 0 = fblock V x (a + i)).
    { unfold fblock. by rewrite (proj2 (Z.ltb_lt _ _) Hd). }
    rewrite Hfb. destruct (Z.eqb_spec (fblock V x (a + i)) 0) as [H0|H0]; simpl negb; cbv iota.
    2: { apply wp_ret, (HQ V x bs k); [done| |done]. destruct W. split; try done.
         eapply covered_more; [|done]. lia. }
    apply wp_seq. eapply (wp_working_balloc [] i V x bs k s); [exact W|exact Hr|simpl; lia| |apply W|..].
    { by intros c ?%not_elem_of_nil. }
    + intros b s1 k1 Hb Hf F1 T1 K1. pose proof (meta_pos Hly).
      pose proof (free_data V b (wk_meta _ _ _ _ _ _ W) Hb Hf) as Hbm.
      destruct (add_direct Hly V x b (wk_wf _ _ _ _ _ _ W) (wk_ok _ _ _ _ _ _ W) (wk_meta _ _ _ _ _ _ W) Hb Hf (a + i)
        ltac:(lia) H0) as [G Hx'].
      set (x' := x.[i_addrs := <[Z.to_nat (a + i) := b]> (i_addrs x)]) in *.
      rewrite (proj2 (Z.eqb_neq b 0)) by lia. apply wp_seq.
      eapply wp_modi; [exact F1|rewrite (hdr_eq_fsk _ _ K1); apply (working_ip W)|].
      intros s2 F2. fold x' in F2. apply wp_ret. rewrite <- Hx'. eapply HQ; [exact G| |by rewrite Hx'; lia].
      eapply (working_grow i (i + 1)); [exact W|exact G|exact F2|by apply in_tx_kino|by apply hdr_eq_kino|].
      apply covered_absorb; [apply covered_absorb|].
      * eapply covered_more; [|apply (covered_grow _ _ _ i _ _ _ _ _ G); [done|lia|apply W]]. lia.
      * left. by apply (BBLOCK_bitmap Hly).
      * right. right. exists (a + i). split; [lia|]. split; [lia|done].
    + intros s1 Hfull F1. rewrite Z.eqb_refl. apply wp_ret, (HN V x bs k); [done|done|]. destruct W. by split.
  - assert (Hlt : a + i - Z.of_nat NDIRECT < NINDIRECT) by (unfold NDIRECT, NINDIRECT, MAXFILE in *; lia).
    rewrite (proj2 (Z.ltb_lt _ _) Hlt). apply wp_seq. eapply (wp_bmap_indirect i); [exact W|exact Hr|..].
    + intros V1 x1 bs1 k1 s1 G1 W1 Hi1. rewrite (proj2 (Z.eqb_neq _ _) Hi1).
      eapply (wp_bmap_entry i); [exact W1|exact Hr|exact Hd|exact Hi1|..].
      * intros V2 bs2 k2 s2 G2 W2 Hb. eapply HQ; [|exact W2|done]. by eapply (grow_trans Hly).
      * intros s2 Hfull W2 _. eapply (HN V1 x1); [done|done|exact W2].
    + intros s1 Hfull W1 _. rewrite Z.eqb_refl. apply wp_ret. by eapply (HN V x).
Qed.
End bmap.
