(* ===== verification/FsWrite.v ===== *)
(** [writei]: what is written is what is read back, files grow by blocks of
    their own, and no other file changes. *)

From S2P Require Import Prelude CInt Machine KString Sched Sleeplock Kalloc Vm Proc Bio BioRing.
From S2P Require Import BioThm Log LogThm Fs FsData FsThm FsAlloc.

(** ** Stores to blocks of the file *)

(** [b] is a block of the file, of data or the indirect one. *)
Definition owns (V : Z -> list Z) (x : inode) (b : Z) : Prop :=
  b <> 0 /\ (b = indirect x \/ exists i, 0 <= i < MAXFILE /\ b = fblock V x i).

(** The file [x] has been written to: of the blocks that were in use only
    bitmap blocks and its own have changed, and the blocks it has got were free. *)
Record wrote (sb : superblock) (V : Z -> list Z) (x : inode) (V' : Z -> list Z) (x' : inode) : Prop := {
  wr_used : forall c, 0 <= c < sb_size sb -> used V sb c = true -> used V' sb c = true;
  wr_frame : forall c, 0 <= c < sb_size sb -> used V sb c = true -> ~ is_bitmap sb c -> ~ owns V x c -> V' c = V c;
  wr_own : forall c, 0 <= c < sb_size sb -> owns V' x' c -> owns V x c \/ used V sb c = false;
  wr_x : exists l, x' = x.[i_addrs := l];
}.

Section wrote.
Context {start : Z} {sb : superblock} (Hly : layout_ok start sb).
Implicit Types (V : Z -> list Z) (x : inode).

Lemma wrote_refl V x : wrote sb V x V x.
Proof. split; try done; [by left|]. exists (i_addrs x). by destruct x. Qed.

Lemma wrote_trans V x V1 x1 V2 x2 : wrote sb V x V1 x1 -> wrote sb V1 x1 V2 x2 -> wrote sb V x V2 x2.
Proof.
  intros W1 W2. split.
  - intros c Hc Hu. apply (wr_used _ _ _ _ _ W2); [done|]. by apply (wr_used _ _ _ _ _ W1).
  - intros c Hc Hu Hb Ho. rewrite (wr_frame _ _ _ _ _ W2);
      [by apply (wr_frame _ _ _ _ _ W1)|done|by apply (wr_used _ _ _ _ _ W1)|done|].
    intros [H|H]%(wr_own _ _ _ _ _ W1); [done|congruence|done].
  - intros c Hc [Ho|Hu]%(wr_own _ _ _ _ _ W2); [by apply (wr_own _ _ _ _ _ W1)| |done].
    destruct (used V sb c) eqn:E; [|by right]. rewrite (wr_used _ _ _ _ _ W1) in Hu by done. done.
  - destruct (wr_x _ _ _ _ _ W1) as [l1 ->], (wr_x _ _ _ _ _ W2) as [l2 ->]. by exists l2.
Qed.

Lemma grow_wrote V x V' x' : grow sb V x V' x' -> wrote sb V x V' x'.
Proof.
  intros G. split; [apply G| |..|apply G].
  - intros c Hc Hu Hb Ho. apply (gr_frame _ _ _ _ _ G); try done.
    intros Hi ->. apply Ho. split; [done|]. by left.
  - intros c Hc [Hn [->|(i & Hi & ->)]].
    + destruct (decide (indirect x = 0)) as [E|E].
      * right. by apply (gr_newi _ _ _ _ _ G).
      * left. rewrite (gr_ind _ _ _ _ _ G) by done. split; [done|]. by left.
    + destruct (decide (fblock V x i = 0)) as [E|E].
      * right. by apply (gr_newb _ _ _ _ _ G).
      * left. rewrite (gr_blk _ _ _ _ _ G) by done. split; [done|]. right. by exists i.
Qed.

(** New bytes in the block [n] of the file. *)
Section store.
Context (V : Z -> list Z) (x : inode) (n : Z) (d : list Z).
Hypothesis (Hw : inode_wf V sb x) (HV : blocks_ok V) (Hm : meta_used V sb).
Hypothesis (Hn : 0 <= n < MAXFILE) (Hb : fblock V x n <> 0) (Hd : length d = Z.to_nat BSIZE).
Let V' := vset V (fblock V x n) d.

Lemma store_fblock i : fblock V' x i = fblock V x i.
Proof. apply fblock_ext. intros _. unfold V'. apply vset_ne. intros E. by apply (iw_ne _ _ _ Hw n Hn Hb). Qed.

Lemma store_used c : 0 <= c < sb_size sb -> used V' sb c = used V sb c.
Proof. intros Hc. apply (used_vset_data Hly); [|done]. by destruct (iw_blk _ _ _ Hw n Hn Hb) as [[? _] _]. Qed.

Lemma store_wf : inode_wf V' sb x.
Proof.
  pose proof (meta_pos Hly). split.
  - apply Hw.
  - intros i Hi. rewrite store_fblock. intros H0. destruct (iw_blk _ _ _ Hw i Hi H0). split; [done|].
    by rewrite store_used by lia.
  - intros H0. destruct (iw_ind _ _ _ Hw H0). split; [done|]. by rewrite store_used by lia.
  - intros i j Hi Hj. rewrite !store_fblock. by apply Hw.
  - intros i Hi. rewrite store_fblock. by apply Hw.
Qed.

Lemma store_meta : meta_used V' sb.
Proof. intros c Hc. pose proof (ly_size _ _ Hly). rewrite store_used by lia. by apply Hm. Qed.

Lemma store_wrote : wrote sb V x V' x.
Proof.
  split.
  - intros c Hc Hu. by rewrite store_used.
  - intros c Hc Hu Hbm Ho. apply vset_ne. intros ->. apply Ho. split; [done|]. right. by exists n.
  - intros c Hc [H0 Ho]. left. split; [done|]. destruct Ho as [?|(i & Hi & E)]; [by left|right].
    exists i. by rewrite <- store_fblock.
  - exists (i_addrs x). by destruct x.
Qed.

Lemma store_byte_in j : 0 <= j -> j / BSIZE = n -> fbyte V' x j = nth (Z.to_nat (j mod BSIZE)) d 0.
Proof. intros Hj E. unfold fbyte. rewrite store_fblock, E. unfold V'. by rewrite vset_eq. Qed.

Lemma store_byte_out j :
  0 <= j -> j / BSIZE <> n -> 0 <= j / BSIZE < MAXFILE -> fblock V x (j / BSIZE) <> 0 -> fbyte V' x j = fbyte V x j.
Proof.
  intros Hj Hne Hr H0. unfold fbyte. rewrite store_fblock. unfold V'. rewrite vset_ne; [done|].
  intros E. by apply Hne, (iw_inj _ _ _ Hw).
Qed.
End store.
End wrote.

Lemma nth_splice (d c : list Z) o j :
  (o + length c <= length d)%nat ->
  nth j (splice d o c) 0 = if decide (o <= j < o + length c)%nat then nth (j - o) c 0 else nth j d 0.
Proof.
  intros Ho. rewrite !nth_lookup. case_decide as Hj.
  - replace j with (o + (j - o))%nat at 1 by lia. by rewrite splice_lookup_in by lia.
  - rewrite splice_lookup_out by lia. done.
Qed.

(** ** The loop *)

(** The bytes of the file after [data] has been written at [off]. *)
Definition written (V : Z -> list Z) (x : inode) (off : Z) (data : list Z) (tot : Z) (j : Z) : Z :=
  if decide (off <= j < off + tot) then nth (Z.to_nat (j - off)) data 0 else fbyte V x j.

Section writei.
Context {img : KernelImage} {R : Type} {dl : DiskLens R} {dd : DiskDriver (LogSt (FsSt R))}
  {d0 : Z -> list Z} {sd : SyncDisk (LogSt (FsSt R)) d0} {pt : Patience}.
Context (ci : nat) (pid dv start : Z).
Abbreviation St := (Kst (KMem (BioSt (LogSt (FsSt R))))).
Abbreviation fat := (fat (d0 := d0) ci pid dv).
Abbreviation in_tx := (in_tx dv start).
Implicit Types (s : St) (w : list (Z * list Z)) (k : KMem (BioSt (LogSt (FsSt R)))).

Definition writei_body (ip : nat) (n : Z) : Z * Z * source -> M St (Z * Z * source + Z * Z) :=
  fun '(tot, off, src) =>
    if negb (tot <? n) then ret (inr (tot, off)) else
    let* addr := bmap ip (off / BSIZE) in
    if addr =? 0 then ret (inr (tot, off)) else
    let* x := geti ip in
    let* bp := bread (i_dev x) addr in
    let m := Z.min (n - tot) (BSIZE - off mod BSIZE) in
    let* '(r, bs) := copy_from src (Z.to_nat m) in
    let* d := bdata bp in
    set_bdata bp (splice d (Z.to_nat (off mod BSIZE)) bs);;;
    if r =? -1 then brelse bp;;; ret (inr (tot, off)) else
    log_write bp;;;
    brelse bp;;;
    ret (inl (tot + m, off + m, adv_source src m)).

(** Reading the source piece by piece yields [data]. *)
Definition supplies w (src : source) (data : list Z) : Prop :=
  forall Hs P V k s i m, 0 <= i -> 0 <= m -> i + m <= Z.of_nat (length data) -> fat Hs P V w k s ->
    wp (copy_from (adv_source src i) (Z.to_nat m)) (fun r s' =>
      r = (0, take (Z.to_nat m) (drop (Z.to_nat i) data)) /\ fat Hs P V w k s') s.

Lemma adv_source_add src a b : 0 <= a -> 0 <= b -> adv_source (adv_source src a) b = adv_source src (a + b).
Proof.
  intros Ha Hb. destruct src; simpl; f_equal; [cint_unfold; dlia|]. rewrite drop_drop. f_equal. lia.
Qed.

Lemma supplies_buf w data : supplies w (BufSrc data) data.
Proof. intros Hs P V k s i m Hi Hm Hl F. by apply wp_ret. Qed.

Context (sb : superblock) (k0 : KMem (BioSt (LogSt (FsSt R)))) (ip : nat) (w : list (Z * list Z)) (bs0 : list Z).
Context (V0 : Z -> list Z) (x0 : inode) (src : source) (data : list Z) (off n : Z).
Hypothesis (Hly : layout_ok start sb) (Hsb : fs_sb (fsk k0) = sb).
Hypothesis (Hip : (ip < length (itable (fsk k0)))%nat).
Hypothesis (Hsrc : supplies w src data) (Hdata : Z.of_nat (length data) = n).
Hypothesis (Hoff : 0 <= off <= i_size x0) (Hn : 0 <= n) (Hend : off + n <= MAXFILE * BSIZE).
Hypothesis (Hmax : i_size x0 <= MAXFILE * BSIZE).
(** The first block of the range and the number of blocks it touches. *)
Context (a D : Z).
Hypothesis (Ha : a = off / BSIZE) (HD : D = (off + n - 1) / BSIZE - a + 1).
Hypothesis (Hcap : Z.of_nat (length bs0) + nbmap sb + D + 3 < log_size (lg k0)).
Abbreviation working := (working (d0 := d0) ci pid dv start sb k0 ip w bs0 a).
Abbreviation room := (room sb k0 bs0 a).

(** The first [tot] bytes have been written. *)
Record progress (tot : Z) (V : Z -> list Z) (x : inode) : Prop := {
  pg_wrote : wrote sb V0 x0 V x;
  pg_bytes : forall j, 0 <= j < Z.max (i_size x0) (off + tot) -> fbyte V x j = written V0 x0 off data tot j;
  pg_map : forall b, 0 <= b -> b * BSIZE < Z.max (i_size x0) (off + tot) -> fblock V x b <> 0;
}.

Record at_byte (tot i : Z) (V : Z -> list Z) (x : inode) (bs : list Z) k s : Prop := {
  ab_work : working i V x bs k s;
  ab_prog : progress tot V x;
  ab_tot : 0 <= tot <= n;
  ab_i : 0 <= i <= D;
  ab_pos : tot < n -> a + i = (off + tot) / BSIZE;
}.

Lemma at_byte_room tot i V x bs k s : at_byte tot i V x bs k s -> tot < n -> room i.
Proof.
  intros [_ _ Ht Hi Hp] Hlt. specialize (Hp Hlt). unfold FsAlloc.room.
  assert (a + i <= (off + n - 1) / BSIZE) by (unfold BSIZE in *; dlia).
  assert (a + i < MAXFILE) by (unfold BSIZE in *; dlia). lia.
Qed.

Lemma written_more tot m j :
  0 <= m -> ~ (off + tot <= j < off + tot + m) ->
  written V0 x0 off data (tot + m) j = written V0 x0 off data tot j.
Proof.
  intros Hm Hj. unfold written.
  destruct (decide (off <= j < off + (tot + m))), (decide (off <= j < off + tot)); [done|lia|lia|done].
Qed.

(** A byte of a piece that has been stored in the block [a + i]. *)
Lemma piece_byte V1 x1 i tot m j :
  let b := fblock V1 x1 (a + i) in
  let chunk := take (Z.to_nat m) (drop (Z.to_nat tot) data) in
  let d := splice (V1 b) (Z.to_nat ((off + tot) mod BSIZE)) chunk in
  length (V1 b) = Z.to_nat BSIZE -> 0 <= tot -> tot + m <= n -> 0 < m -> (off + tot) mod BSIZE + m <= BSIZE ->
  a + i = (off + tot) / BSIZE -> 0 <= j -> j / BSIZE = a + i ->
  nth (Z.to_nat (j mod BSIZE)) d 0 =
    if decide (off + tot <= j < off + tot + m) then nth (Z.to_nat (j - off)) data 0 else fbyte V1 x1 j.
Proof.
  intros b chunk d HL Ht Htm Hm Hb Hp Hj Hjb. unfold d.
  assert (Hlc : length chunk = Z.to_nat m) by (unfold chunk; rewrite length_take, length_drop; lia).
  assert (Ho : (Z.to_nat ((off + tot) mod BSIZE) + Z.to_nat m <= Z.to_nat BSIZE)%nat)
    by (clear -Hb Hm; unfold BSIZE in *; dlia).
  rewrite nth_splice by (rewrite HL, Hlc; exact Ho). rewrite Hlc.
  assert (Hiff : (Z.to_nat ((off + tot) mod BSIZE) <= Z.to_nat (j mod BSIZE) <
    Z.to_nat ((off + tot) mod BSIZE) + Z.to_nat m)%nat <-> off + tot <= j < off + tot + m).
  { clear -Hm Hb Hp Hj Hjb. unfold BSIZE in *. dlia. }
  destruct (decide (off + tot <= j < off + tot + m)) as [Hin|Hout].
  - rewrite decide_True by by apply Hiff. unfold chunk. rewrite !nth_lookup, lookup_take_lt, lookup_drop.
    + do 2 f_equal. clear -Hin Hp Hj Hjb Ht Hoff Hn Htm. unfold BSIZE in *. dlia.
    + clear -Hin Hp Hj Hjb Ht. unfold BSIZE in *. dlia.
  - rewrite decide_False by (by rewrite Hiff). unfold fbyte. by rewrite Hjb.
Qed.

(** The blocks of the bytes written so far, and of the old ones. *)
Lemma reach_block tot j :
  tot <= n -> 0 <= j < Z.max (i_size x0) (off + tot) ->
  0 <= j / BSIZE < MAXFILE /\ j / BSIZE * BSIZE < Z.max (i_size x0) (off + tot).
Proof. intros Ht Hj. unfold BSIZE in *. dlia. Qed.
Lemma reach_max tot c :
  tot <= n -> 0 <= c -> c * BSIZE < Z.max (i_size x0) (off + tot) -> 0 <= c < MAXFILE.
Proof. intros Ht Hc Hcm. unfold BSIZE in *. dlia. Qed.

(** More blocks do not change the bytes. *)
Lemma progress_grow tot V x V1 x1 :
  progress tot V x -> tot <= n -> inode_wf V sb x -> grow sb V x V1 x1 -> progress tot V1 x1.
Proof.
  intros [Hwr Hby Hmap] Ht Hwf G. split.
  - eapply wrote_trans; [exact Hwr|by apply grow_wrote].
  - intros j Hj. rewrite <- Hby by done. destruct (reach_block tot j Ht Hj) as [Hr Hm]. unfold fbyte.
    rewrite (grow_block Hly V x V1 x1); [done|done|done|done|]. apply Hmap; [lia|done].
  - intros c Hc Hcm. pose proof (Hmap c Hc Hcm). rewrite (gr_blk _ _ _ _ _ G); [done| |done].
    by eapply reach_max.
Qed.

(** The store of one piece. *)
Lemma progress_store tot i V x m :
  progress tot V x -> inode_wf V sb x -> blocks_ok V -> 0 <= tot -> 0 <= i -> fblock V x (a + i) <> 0 -> tot < n ->
  m = Z.min (n - tot) (BSIZE - (off + tot) mod BSIZE) -> a + i = (off + tot) / BSIZE ->
  let b := fblock V x (a + i) in
  let d := splice (V b) (Z.to_nat ((off + tot) mod BSIZE)) (take (Z.to_nat m) (drop (Z.to_nat tot) data)) in
  progress (tot + m) (vset V b d) x /\ length d = Z.to_nat BSIZE /\ 0 <= a + i < MAXFILE.
Proof.
  intros [Hwr Hby Hmap] Hwf HV Ht Hi Hb Hlt Hm Hp b d.
  assert (Hmb : 0 < m /\ tot + m <= n /\ (off + tot) mod BSIZE + m <= BSIZE) by (unfold BSIZE in *; dlia).
  destruct Hmb as (Hm0 & Hmn & HmB).
  assert (Hrange : 0 <= a + i < MAXFILE) by (unfold BSIZE in *; dlia).
  assert (HL : length (V b) = Z.to_nat BSIZE) by apply HV.
  assert (Hd : length d = Z.to_nat BSIZE).
  { unfold d. rewrite splice_length; [done|]. rewrite HL, length_take, length_drop.
    clear -Hm0 HmB. unfold BSIZE in *. dlia. }
  split; [|done]. split.
  - eapply wrote_trans; [exact Hwr|]. by apply (store_wrote Hly).
  - intros j Hj. destruct (decide (j / BSIZE = a + i)) as [Hjb|Hjb].
    + rewrite (store_byte_in V x (a + i) _ Hwf) by (done || lia).
      unfold d, b. rewrite (piece_byte V x i tot m j) by (done || lia).
      destruct (decide (off + tot <= j < off + tot + m)) as [Hin|Hout].
      * unfold written. rewrite decide_True by lia. done.
      * rewrite written_more by (done || lia). apply Hby. lia.
    + assert (Hout : ~ (off + tot <= j < off + tot + m)).
      { clear -Hjb Hp HmB Hm0. unfold BSIZE in *. dlia. }
      assert (Hj' : 0 <= j < Z.max (i_size x0) (off + tot)) by lia.
      destruct (reach_block tot j ltac:(lia) Hj') as [Hq1 Hq2].
      rewrite (store_byte_out V x (a + i) _ Hwf); [|done|done|lia|done|done|apply Hmap; [lia|done]].
      rewrite written_more by (done || lia). by apply Hby.
  - intros c Hc Hcm. rewrite (store_fblock V x (a + i) _ Hwf) by done.
    destruct (decide (c = a + i)) as [->|Hne]; [done|]. apply Hmap; [done|].
    clear -Hc Hcm Hne Hp HmB Hm0. unfold BSIZE in *. dlia.
Qed.

Lemma covered_data sb' bs' c' i V x d :
  covered sb' bs0 a i V x bs' -> (forall j, fblock (vset V c' d) x j = fblock V x j) ->
  covered sb' bs0 a i (vset V c' d) x bs'.
Proof.
  intros H E c Hc. destruct (H c Hc) as [?|[?|[?|(j & Hj & H0 & ->)]]]; [by left|by right; left|by right; right; left|].
  right. right. right. exists j. by rewrite E.
Qed.

(** One round of the loop. *)
Lemma wp_writei_round tot i V x bs k s (Q : Z * Z * source + Z * Z -> St -> Prop) :
  at_byte tot i V x bs k s -> tot < n ->
  (forall m V' x' bs' k' s', m = Z.min (n - tot) (BSIZE - (off + tot) mod BSIZE) ->
     at_byte (tot + m) (i + 1) V' x' bs' k' s' ->
     Q (inl (tot + m, off + tot + m, adv_source src (tot + m))) s') ->
  (forall V' x' bs' k' s', full sb V' -> at_byte tot i V' x' bs' k' s' -> Q (inr (tot, off + tot)) s') ->
  wp (writei_body ip n (tot, off + tot, adv_source src tot)) Q s.
Proof.
  intros AB Hlt HQ HN. pose proof (at_byte_room _ _ _ _ _ _ _ AB Hlt) as Hr.
  destruct AB as [W Hpg Ht Hi Hp]. specialize (Hp Hlt). pose proof Hr as (_ & Hmx & Hcp).
  assert (Ha0 : 0 <= a) by (unfold BSIZE in *; dlia).
  assert (Hwf : inode_wf V sb x) by apply W.
  unfold writei_body. rewrite (proj2 (Z.ltb_lt _ _) Hlt). simpl negb. cbv iota. apply wp_seq.
  rewrite <- Hp. eapply (wp_bmap ci pid dv start sb k0 ip w bs0 a Hly Hsb Ha0 Hip i); [exact W|exact Hr|..].
  2: { intros V' x' bs' k' s' Hfull G W'. rewrite Z.eqb_refl. apply wp_ret. eapply HN; [exact Hfull|].
       split; [exact W'|by eapply progress_grow; [|lia|..]|done|done|done]. }
  intros V1 x1 bs1 k1 s1 G W1 Hb.
  assert (Hpg1 : progress tot V1 x1) by (by eapply progress_grow; [|lia|..]). clear W Hpg Hwf G.
  rewrite (proj2 (Z.eqb_neq _ _) Hb).
  pose proof (working_ip ci pid dv start sb k0 ip w bs0 a Hip W1) as Hip1. apply wp_seq.
  pose proof (working_size ci pid dv start sb k0 ip w bs0 a W1) as Esz.
  destruct W1 as [F1 T1 Hok1 Hm1 Hwf1 K1 C1 Hdev].
  eapply wp_geti; [exact F1|exact Hip1|]. rewrite Hdev.
  assert (Hi1 : 0 <= i + 1) by lia.
  pose proof (covered_length _ _ _ _ _ _ _ (tx_nodup _ _ _ _ T1) Hi1 (nbmap_pos Hly) C1) as Hlen.
  pose proof (tx_size _ _ _ _ T1) as Hsz.
  assert (Hnb : (length bs1 + 1 < NBUF)%nat) by (unfold LOGSIZE, MAXOPBLOCKS, NBUF in *; lia).
  apply wp_seq. eapply wp_fat_bread; [exact F1|apply not_elem_of_nil|right; simpl; lia|]. intros bp s2 F2 _.
  set (m := Z.min (n - tot) (BSIZE - (off + tot) mod BSIZE)) in *.
  destruct (progress_store tot i V1 x1 m Hpg1 Hwf1 Hok1 ltac:(lia) ltac:(lia) Hb Hlt eq_refl Hp) as (Hpg2 & Hd & Hrg).
  assert (Hm : 0 < m /\ tot + m <= n) by (clear -Hlt; unfold m, BSIZE; dlia). apply wp_seq.
  eapply wp_mono; [eapply (Hsrc _ _ _ _ _ tot m); [lia|lia|lia|exact F2]|].
  intros [r c] s3 [[= -> ->] F3]. apply wp_seq. eapply wp_fat_bdata; [exact F3|left|]. apply wp_seq.
  eapply wp_fat_set_bdata; [exact F3|left|]. intros s4 F4. simpl. apply wp_seq.
  destruct (iw_blk _ _ _ Hwf1 (a + i) Hrg Hb) as [Hbr _].
  eapply wp_fat_log_write; [exact F4|exact T1|left|by apply (data_home Hly)|lia|]. intros s5 k5 F5 T5 K5%hdr_step_eq.
  apply wp_seq. eapply wp_fat_brelse; [exact F5|left; apply absorb_elem; by right|]. intros s6 F6.
  apply wp_ret. rewrite adv_source_add by lia. eapply (HQ m); [reflexivity|].
  split; [|exact Hpg2|lia| |].
  - split; [exact F6|exact T5|by apply blocks_ok_vset|by apply (store_meta Hly)|by apply (store_wf Hly)| | |exact Hdev].
    + by transitivity (kview k1).
    + apply covered_absorb; [apply covered_data; [exact C1|intros j; by apply (store_fblock V1 x1 (a + i) _ Hwf1)]|].
      right. right. exists (a + i). split; [lia|]. rewrite (store_fblock V1 x1 (a + i) _ Hwf1) by done. done.
  - clear -Hi Hp HD Hlt. unfold BSIZE in *. dlia.
  - unfold m. clear -Hp Hlt. intros Hlt'. unfold BSIZE in *. dlia.
Qed.

Lemma wp_writei_loop fuel tot i V x bs k s (Q : Z * Z -> St -> Prop) :
  at_byte tot i V x bs k s -> rounds off n tot <= Z.of_nat fuel ->
  (forall tot' i' V' x' bs' k' s', at_byte tot' i' V' x' bs' k' s' -> tot' = n \/ full sb V' ->
     Q (tot', off + tot') s') ->
  wp (while fuel (writei_body ip n) (tot, off + tot, adv_source src tot)) Q s.
Proof.
  revert tot i V x bs k s. induction fuel as [|fuel IH]; intros tot i V x bs k s AB Hf HQ.
  { unfold rounds, BSIZE in Hf. pose proof (ab_tot _ _ _ _ _ _ _ AB). destruct (Z.ltb_spec tot n); [dlia|lia]. }
  cbn [while]. apply wp_seq. destruct (Z.lt_ge_cases tot n) as [Hlt|Hge].
  - eapply wp_writei_round; [exact AB|exact Hlt|..].
    + intros m V' x' bs' k' s' Hm AB'. rewrite <- Z.add_assoc. eapply IH; [exact AB'| |exact HQ].
      unfold rounds in *. rewrite (proj2 (Z.ltb_lt _ _) Hlt) in Hf. unfold BSIZE in *.
      destruct (Z.ltb_spec (tot + m) n); dlia.
    + intros V' x' bs' k' s' Hfull AB'. apply wp_ret. eapply HQ; [exact AB'|by right].
  - unfold writei_body. rewrite (proj2 (Z.ltb_ge _ _) Hge). apply wp_ret, wp_ret. eapply HQ; [exact AB|left].
    pose proof (ab_tot _ _ _ _ _ _ _ AB). lia.
Qed.
End writei.

(** ** Metadata *)

Lemma splice_lookup {A} (d bs : list A) off i :
  (off <= length d)%nat ->
  splice d off bs !! i = if decide (off <= i < off + length bs)%nat then bs !! (i - off)%nat else d !! i.
Proof.
  intros Ho. unfold splice. destruct (decide (i < off)%nat) as [Hlt|Hge].
  - rewrite decide_False by lia. rewrite lookup_app_l by (rewrite length_take; lia). by rewrite lookup_take_lt.
  - rewrite lookup_app_r by (rewrite length_take; lia). rewrite length_take, Nat.min_l by lia.
    case_decide; [by rewrite lookup_app_l by lia|]. rewrite lookup_app_r by lia. rewrite lookup_drop. f_equal. lia.
Qed.

Section meta.
Context {start : Z} {sb : superblock} (Hly : layout_ok start sb).
Implicit Types (V : Z -> list Z) (x : inode).

(** A store to a block before the bitmap changes no file. *)
Section store.
Context (V : Z -> list Z) (c : Z) (d : list Z).
Hypothesis (Hc : c < sb_bmapstart sb).
Let V' := vset V c d.

Lemma early_used b : 0 <= b < sb_size sb -> used V' sb b = used V sb b.
Proof.
  intros Hb. unfold used, V'. rewrite vset_ne; [done|].
  pose proof (BBLOCK_bitmap Hly b Hb) as H. unfold is_bitmap in H. lia.
Qed.

Lemma early_meta b : meta sb <= b -> V' b = V b.
Proof. intros Hb. apply vset_ne. pose proof (nbmap_pos Hly). unfold meta in Hb. lia. Qed.

Lemma early_fblock x i : inode_wf V sb x -> fblock V' x i = fblock V x i.
Proof.
  intros Hw. apply fblock_ext. intros H0. apply early_meta. by destruct (iw_ind _ _ _ Hw H0) as [[? _] _].
Qed.

Lemma early_wf x : inode_wf V sb x -> inode_wf V' sb x.
Proof.
  intros Hw. pose proof (meta_pos Hly). split.
  - apply Hw.
  - intros i Hi. rewrite early_fblock by done. intros H0. destruct (iw_blk _ _ _ Hw i Hi H0).
    split; [done|]. by rewrite early_used by lia.
  - intros H0. destruct (iw_ind _ _ _ Hw H0). split; [done|]. by rewrite early_used by lia.
  - intros i j Hi Hj. rewrite !early_fblock by done. by apply Hw.
  - intros i Hi. rewrite early_fblock by done. by apply Hw.
Qed.

Lemma early_byte x j :
  inode_wf V sb x -> 0 <= j / BSIZE < MAXFILE -> fblock V x (j / BSIZE) <> 0 -> fbyte V' x j = fbyte V x j.
Proof.
  intros Hw Hj H0. unfold fbyte. rewrite early_fblock by done. f_equal. apply early_meta.
  by destruct (iw_blk _ _ _ Hw _ Hj H0) as [[? _] _].
Qed.
End store.

(** Two files with the same bytes. *)
Lemma fbytes_ext V x V' x' :
  i_size x' = i_size x -> (forall j, 0 <= j < i_size x -> fbyte V' x' j = fbyte V x j) -> fbytes V' x' = fbytes V x.
Proof.
  intros Hs Hb. apply list_eq. intros j. destruct (decide (j < Z.to_nat (i_size x))%nat) as [Hj|Hj].
  - rewrite !fbytes_lookup by (rewrite ?Hs; done). f_equal. apply Hb. lia.
  - rewrite !lookup_ge_None_2 by (rewrite fbytes_length, ?Hs; lia). done.
Qed.

Lemma owns_range {V x c} : inode_wf V sb x -> owns V x c -> meta sb <= c < sb_size sb /\ used V sb c = true.
Proof. intros Hw [H0 [->|(i & Hi & ->)]]; [by apply Hw|by apply (iw_blk _ _ _ Hw)]. Qed.

(** The addresses of an inode are block numbers. *)
Lemma inode_wf_addrs V x : inode_wf V sb x -> Forall (fun b => 0 <= b < W32) (i_addrs x).
Proof.
  intros Hw. apply Forall_lookup. intros i b Hb. pose proof (lookup_lt_Some _ _ _ Hb) as Hi.
  rewrite (iw_len _ _ _ Hw) in Hi. destruct (decide (b = 0)) as [->|Hn]; [lia|].
  pose proof (meta_pos Hly). pose proof (ly_size _ _ Hly).
  assert (Hr : meta sb <= b < sb_size sb); [|lia].
  destruct (decide (i = NDIRECT)) as [->|Hne].
  - assert (E : indirect x = b) by (unfold indirect; by rewrite nth_lookup, Hb). rewrite <- E in *.
    by destruct (iw_ind _ _ _ Hw Hn).
  - assert (E : fblock V x (Z.of_nat i) = b).
    { unfold fblock. destruct (Z.ltb_spec (Z.of_nat i) (Z.of_nat NDIRECT)); [|lia].
      by rewrite Nat2Z.id, nth_lookup, Hb. }
    rewrite <- E in *. unfold NDIRECT in *. by destruct (iw_blk _ _ _ Hw (Z.of_nat i) ltac:(unfold MAXFILE; lia) Hn).
Qed.
End meta.

(** ** [writei] *)

(** A well-formed file system, and a file of it. *)
Record fs_ok (start : Z) (sb : superblock) (V : Z -> list Z) : Prop := {
  fs_layout : layout_ok start sb;
  fs_blocks : blocks_ok V;
  fs_meta : meta_used V sb;
}.
Record good_inode (dv : Z) (sb : superblock) (V : Z -> list Z) (x : inode) : Prop := {
  gi_file : file_ok dv V x;
  gi_wf : inode_wf V sb x;
  gi_dinode : dinode_ok (inode_dinode x);
  gi_inum : 0 <= i_inum x /\ i_inum x / IPB + sb_inodestart sb < sb_bmapstart sb;
}.

(** No block belongs to both files. *)
Definition apart (V : Z -> list Z) (x y : inode) : Prop := forall b, owns V x b -> ~ owns V y b.

(** The result of writing to [x]: the view [V'] in which the inode is [x'],
    also on disk, its bytes are [l], and every other file is what it was. *)
Record file_written (dv start : Z) (sb : superblock) (V : Z -> list Z) (x : inode)
    (V' : Z -> list Z) (x' : inode) (l : list Z) : Prop := {
  fw_ok : fs_ok start sb V';
  fw_good : good_inode dv sb V' x';
  fw_bytes : fbytes V' x' = l;
  fw_disk : get_dinode (V' (IBLOCK (i_inum x) sb)) (i_inum x) = inode_dinode x';
  fw_others : forall j, j mod IPB <> i_inum x mod IPB ->
    get_dinode (V' (IBLOCK (i_inum x) sb)) j = get_dinode (V (IBLOCK (i_inum x) sb)) j;
  fw_apart : forall y, inode_wf V sb y -> file_ok dv V y -> apart V x y -> fbytes V' y = fbytes V y;
  fw_x : exists sz l, x' = x.[i_size := sz].[i_addrs := l];
}.

Section writei_thm.
Context {img : KernelImage} {R : Type} {dl : DiskLens R} {dd : DiskDriver (LogSt (FsSt R))}
  {d0 : Z -> list Z} {sd : SyncDisk (LogSt (FsSt R)) d0} {pt : Patience}.
Context (ci : nat) (pid dv start : Z).
Abbreviation St := (Kst (KMem (BioSt (LogSt (FsSt R))))).
Abbreviation fat := (fat (d0 := d0) ci pid dv).
Abbreviation in_tx := (in_tx dv start).
Implicit Types (s : St) (w : list (Z * list Z)) (k : KMem (BioSt (LogSt (FsSt R)))).

Lemma wp_iupdate V w k s bs ip x Q :
  let sb := fs_sb (fsk k) in let ib := IBLOCK (i_inum x) sb in
  fat [] bs V w k s -> in_tx k bs -> itable (fsk k) !! ip = Some x -> i_dev x = dv -> home_ok start ib ->
  (length bs < NBUF)%nat -> Z.of_nat (length bs) < log_size (lg k) - 1 ->
  (forall s' k', fat [] (absorb bs ib) (vset V ib (put_dinode (V ib) (i_inum x) (inode_dinode x))) w k' s' ->
     in_tx k' (absorb bs ib) -> hdr_eq k k' -> Q tt s') ->
  wp (iupdate ip) Q s.
Proof.
  intros sb ib F T Hx Hd Hb Hlen Hcap HQ. unfold iupdate. apply wp_seq. eapply wp_getsb; [exact F|]. fold sb.
  apply wp_seq. eapply wp_geti; [exact F|exact Hx|]. rewrite Hd. fold ib. apply wp_seq.
  eapply wp_fat_bread; [exact F|apply not_elem_of_nil|right; simpl; lia|]. intros b s1 F1 _. apply wp_seq.
  eapply wp_fat_bdata; [exact F1|left|]. apply wp_seq. eapply wp_fat_set_bdata; [exact F1|left|]. intros s2 F2.
  apply wp_seq. eapply wp_fat_log_write; [exact F2|exact T|left|exact Hb|exact Hcap|]. intros s3 k3 F3 T3 K3%hdr_step_eq.
  eapply wp_fat_brelse; [exact F3|left; apply absorb_elem; by right|]. intros s4 F4. by apply (HQ s4 k3).
Qed.

Lemma IBLOCK_early sb x : layout_ok start sb -> 0 <= i_inum x ->
  i_inum x / IPB + sb_inodestart sb < sb_bmapstart sb ->
  IBLOCK (i_inum x) sb < sb_bmapstart sb /\ home_ok start (IBLOCK (i_inum x) sb).
Proof.
  intros [H1 H2 H3 H4] Hi Hlt. assert (E : 0 <= i_inum x / IPB) by (unfold IPB, BSIZE, DINODE_SIZE; dlia).
  assert (0 <= nbmap sb /\ sb_bmapstart sb < W31) as [Hn Hw].
  { unfold meta, nbmap, LOGSIZE, MAXOPBLOCKS, BPB, BSIZE in *. dlia. }
  unfold IBLOCK, home_ok, in_log, LOGSIZE, MAXOPBLOCKS in *. rewrite u32_small by lia. lia.
Qed.

(** The bytes of the file, from what is known of each. *)
Lemma fbytes_splice V x V' x' off data tot :
  0 <= off <= i_size x -> 0 <= tot <= Z.of_nat (length data) -> i_size x' = Z.max (i_size x) (off + tot) ->
  (forall j, 0 <= j < i_size x' -> fbyte V' x' j = written V x off data tot j) ->
  fbytes V' x' = splice (fbytes V x) (Z.to_nat off) (take (Z.to_nat tot) data).
Proof.
  intros Ho Ht Hsz Hbyte. apply list_eq. intros j.
  rewrite splice_lookup by (rewrite fbytes_length; lia). rewrite length_take.
  destruct (decide (j < Z.to_nat (i_size x'))%nat) as [Hj|Hj].
  - rewrite fbytes_lookup by done. rewrite Hbyte by lia. unfold written.
    destruct (decide (off <= Z.of_nat j < off + tot)) as [Hin|Hout].
    + rewrite decide_True by lia. rewrite lookup_take_lt by lia.
      destruct (lookup_lt_is_Some_2 data (j - Z.to_nat off)) as [y Hy]; [lia|].
      rewrite Hy, nth_lookup. replace (Z.to_nat (Z.of_nat j - off)) with (j - Z.to_nat off)%nat by lia. by rewrite Hy.
    + rewrite decide_False by lia. by rewrite fbytes_lookup by lia.
  - rewrite lookup_ge_None_2 by (rewrite fbytes_length; lia). rewrite decide_False by lia.
    by rewrite lookup_ge_None_2 by (rewrite fbytes_length; lia).
Qed.

(** A file apart from the one written keeps its bytes. *)
Lemma apart_bytes sb V x V1 x1 c d y :
  layout_ok start sb -> c < sb_bmapstart sb -> wrote sb V x V1 x1 ->
  inode_wf V sb y -> file_ok dv V y -> apart V x y -> fbytes (vset V1 c d) y = fbytes V y.
Proof.
  intros Hly Hc Hwr Hwy [Hdy Hsy Hmy] Hap. pose proof (meta_pos Hly).
  assert (Hown : forall b, owns V y b -> vset V1 c d b = V b).
  { intros b Hb. destruct (owns_range Hwy Hb) as [Hr Hu]. rewrite (early_meta Hly) by (done || lia).
    apply (wr_frame _ _ _ _ _ Hwr); [lia|done|unfold is_bitmap; lia|]. intros Hx. by apply (Hap b). }
  assert (Hfb : forall b, fblock (vset V1 c d) y b = fblock V y b).
  { intros b. apply fblock_ext. intros H0. apply Hown. split; [done|by left]. }
  apply fbytes_ext; [done|]. intros j Hj. unfold fbyte. rewrite Hfb, Hown; [done|].
  split; [apply Hmy; unfold BSIZE in *; dlia|]. right. exists (j / BSIZE).
  split; [unfold BSIZE in *; dlia|done].
Qed.

(** The metadata written after the data. *)
Lemma file_written_intro sb V x V1 x1 off data tot :
  let sz := Z.max (i_size x) (off + tot) in
  let ib := IBLOCK (i_inum x) sb in
  let x' := x1.[i_size := sz] in
  let V' := vset V1 ib (put_dinode (V1 ib) (i_inum x) (inode_dinode x')) in
  fs_ok start sb V -> blocks_ok V1 -> meta_used V1 sb -> inode_wf V1 sb x1 -> good_inode dv sb V x ->
  progress sb V x data off tot V1 x1 ->
  0 <= off <= i_size x -> 0 <= tot <= Z.of_nat (length data) -> off + tot <= MAXFILE * BSIZE ->
  file_written dv start sb V x V' x' (splice (fbytes V x) (Z.to_nat off) (take (Z.to_nat tot) data)).
Proof.
  intros sz ib x' V' [Hly _ Hm] HV1 Hm1 Hwf1 [[Hdev Hsz Hmap] Hwf Hdi [Hi1 Hi2]] [Hwr Hby Hmp] Ho Ht He.
  pose proof (wr_frame _ _ _ _ _ Hwr) as Wf. destruct (wr_x _ _ _ _ _ Hwr) as [l ->].
  destruct (IBLOCK_early sb x Hly Hi1 Hi2) as [Hib Hhome]. fold ib in Hib, Hhome.
  assert (Esz : sz = Z.max (i_size x) (off + tot)) by reflexivity. clearbody sz. rewrite <- Esz in Hby, Hmp.
  assert (Hsz' : 0 <= sz <= MAXFILE * BSIZE) by lia.
  pose proof (early_wf Hly V1 ib (put_dinode (V1 ib) (i_inum x) (inode_dinode x')) Hib _ Hwf1) as Hwf'.
  fold V' in Hwf'. pose proof (ly_size _ _ Hly) as Hlsz.
  assert (Hdi' : dinode_ok (inode_dinode x')).
  { destruct Hdi as (D1 & D2 & D3 & D4 & _ & _). refine (conj D1 (conj D2 (conj D3 (conj D4 (conj _ (conj _ _)))))).
    - unfold MAXFILE, BSIZE in Hsz'. simpl. lia.
    - apply (iw_len _ _ _ Hwf1).
    - apply (inode_wf_addrs Hly V1 _ Hwf1). }
  assert (Hrng : forall j, 0 <= j < sz -> 0 <= j / BSIZE < MAXFILE /\ j / BSIZE * BSIZE < sz).
  { intros j Hj. unfold BSIZE in *. dlia. }
  assert (Hbyte : forall j, 0 <= j < sz -> fbyte V' x' j = written V x off data tot j).
  { intros j Hj. destruct (Hrng j Hj) as [Hq1 Hq2]. rewrite <- Hby by done.
    apply (early_byte Hly V1 ib _ Hib x.[i_addrs := l]); [done|done|]. apply Hmp; [lia|done]. }
  split.
  - split; [done| |].
    + apply blocks_ok_vset; [done|]. by apply put_dinode_length.
    + intros c Hc. unfold V'. rewrite (early_used Hly) by (done || lia). by apply Hm1.
  - split.
    + split; [done|done|]. intros c Hc Hcs. simpl in Hcs.
      change (fblock V' x.[i_addrs := l] c <> 0). unfold V'. rewrite (early_fblock Hly) by done. by apply Hmp.
    + destruct Hwf'. by split.
    + exact Hdi'.
    + done.
  - by apply fbytes_splice.
  - unfold V'. rewrite vset_eq. by apply get_put_dinode.
  - intros j Hj. unfold V'. rewrite vset_eq, get_put_dinode_other by done. f_equal.
    pose proof (ly_start _ _ Hly). pose proof (ly_log _ _ Hly). pose proof (ly_ino _ _ Hly).
    pose proof (nbmap_pos Hly) as Hnb. assert (Hib' : 0 <= ib < meta sb) by (destruct Hhome; unfold meta; lia).
    apply Wf; [lia| |unfold is_bitmap; lia|].
    + by apply Hm.
    + intros [[Hr _] _]%(owns_range Hwf). lia.
  - intros y Hwy Hfy Hap. by apply (apart_bytes sb V x V1 x.[i_addrs := l] ib _ y).
  - by exists sz, l.
Qed.

(** The blocks that [off, off + n) touches. *)
Definition span (off n : Z) : Z := (off + n - 1) / BSIZE - off / BSIZE + 1.

(** The size and the inode on disk, after the loop. *)
Lemma wp_writei_end sb bs0 V w k ip x off data tot i V1 x1 bs1 k1 s1 (Q : Z -> St -> Prop) :
  let n := Z.of_nat (length data) in
  fs_sb (fsk k) = sb -> fs_ok start sb V -> good_inode dv sb V x -> (ip < length (itable (fsk k)))%nat ->
  0 <= off <= i_size x -> off + n <= MAXFILE * BSIZE ->
  Z.of_nat (length bs0) + nbmap sb + span off n + 3 < log_size (lg k) ->
  at_byte (d0 := d0) ci pid dv start sb k ip w bs0 V x data off n (off / BSIZE) (span off n) tot i V1 x1 bs1 k1 s1 ->
  (forall V' x' bs' k' s', file_written dv start sb V x V' x' (splice (fbytes V x) (Z.to_nat off) (take (Z.to_nat tot) data)) ->
     (forall c, 0 <= c < sb_size sb -> used V1 sb c = true -> used V' sb c = true) ->
     fat [] bs' V' w k' s' -> in_tx k' bs' -> hdr_eq (kino ip x' k) k' -> Q tot s') ->
  wp (let* x := geti ip in
      (if i_size x <? off + tot then modi ip (fun x => x.[i_size := off + tot]) else ret tt);;;
      iupdate ip;;;
      ret (s32 tot)) Q s1.
Proof.
  intros n Hsb Hfs Hgi Hip Ho He Hcap [W Hpg Ht Hi _] HQ. pose proof Hfs as [Hly _ _].
  pose proof (working_ip ci pid dv start sb k ip w bs0 (off / BSIZE) Hip W) as Hip1.
  pose proof (working_size ci pid dv start sb k ip w bs0 (off / BSIZE) W) as Esz.
  pose proof (working_sb ci pid dv start sb k ip w bs0 (off / BSIZE) Hsb W) as Esb.
  destruct W as [F1 T1 Hok1 Hm1 Hwf1 K1 C1 Hdev]. pose proof (gi_inum _ _ _ _ Hgi) as [Hin1 Hin2].
  destruct (IBLOCK_early sb x Hly Hin1 Hin2) as [Hib Hhome].
  pose proof (covered_length _ _ _ _ _ _ _ (tx_nodup _ _ _ _ T1) (proj1 Hi) (nbmap_pos Hly) C1) as Hlen.
  pose proof (tx_size _ _ _ _ T1) as Hsz.
  assert (Hnb : (length bs1 + 1 < NBUF)%nat) by (unfold LOGSIZE, MAXOPBLOCKS, NBUF in *; lia).
  destruct (wr_x _ _ _ _ _ (pg_wrote _ _ _ _ _ _ _ _ Hpg)) as [l Ex1].
  pose proof (file_written_intro sb V x V1 x1 off data tot Hfs Hok1 Hm1 Hwf1 Hgi Hpg Ho Ht ltac:(lia)) as FW.
  set (x' := x1.[i_size := Z.max (i_size x) (off + tot)]) in FW.
  assert (Hend : forall k2 s2, fat [] bs1 V1 w k2 s2 -> in_tx k2 bs1 -> itable (fsk k2) !! ip = Some x' ->
    fs_sb (fsk k2) = sb -> log_size (lg k2) = log_size (lg k) -> hdr_eq (kino ip x' k) k2 ->
    wp (iupdate ip;;; ret (s32 tot)) Q s2).
  { intros k2 s2 F2 T2 H2 Hs2 Hl2 K2. apply wp_seq.
    assert (Ei : i_inum x' = i_inum x) by (unfold x'; rewrite Ex1; done).
    eapply (wp_iupdate V1 w k2 s2 bs1 ip x'); rewrite ?Hs2, ?Ei;
      [exact F2|exact T2|exact H2|exact Hdev|exact Hhome|lia|lia|].
    intros s3 k3 F3 T3 K3. apply wp_ret. rewrite s32_small by (unfold MAXFILE, BSIZE in *; lia).
    eapply HQ; [exact FW| |exact F3|exact T3|by transitivity (kview k2)].
    intros c Hc Hu. by rewrite (early_used Hly) by (done || lia). }
  apply wp_seq. eapply wp_geti; [exact F1|exact Hip1|]. apply wp_seq.
  assert (Es : i_size x1 = i_size x) by by rewrite Ex1.
  destruct (Z.ltb_spec (i_size x1) (off + tot)) as [Hlt|Hge].
  - eapply wp_modi; [exact F1|exact Hip1|]. intros s2 F2.
    assert (Ex' : x1.[i_size := off + tot] = x') by (unfold x'; rewrite Z.max_r by lia; done).
    rewrite Ex' in F2. eapply Hend; [exact F2|by apply in_tx_kino| |exact Esb|exact Esz|].
    + rewrite fsk_kino. simpl. apply list_lookup_insert_eq. by apply lookup_lt_Some in Hip1.
    + rewrite <- (kino_kino ip x' x1 k). by apply hdr_eq_kino.
  - assert (Ex' : x1 = x') by (unfold x'; rewrite Z.max_l, <- Es by lia; by destruct x1).
    apply wp_ret. eapply Hend; [exact F1|exact T1|by rewrite <- Ex'|exact Esb|exact Esz|by rewrite <- Ex'].
Qed.

Lemma writei_start sb V w k s bs ip x off data n :
  fat [] bs V w k s -> in_tx k bs -> fs_ok start sb V -> itable (fsk k) !! ip = Some x ->
  good_inode dv sb V x -> 0 <= off <= i_size x -> 0 <= n ->
  at_byte (d0 := d0) ci pid dv start sb k ip w bs V x data off n (off / BSIZE) (span off n) 0 0 V x bs k s.
Proof.
  intros F T [Hly HV Hm] Hx [[Hdev Hsz Hmap] Hwf _ _] Ho Hn. split.
  - split; try done.
    + by rewrite (kino_id ip x k).
    + intros c Hc. by left.
  - split; [apply wrote_refl| |].
    + intros j Hj. unfold written. by rewrite decide_False by lia.
    + intros c Hc Hcm. apply Hmap; lia.
  - lia.
  - unfold span, BSIZE. dlia.
  - intros _. rewrite !Z.add_0_r. done.
Qed.

Lemma wp_writei sb V w k s bs ip x off data (Q : Z -> St -> Prop) :
  let n := Z.of_nat (length data) in
  fs_sb (fsk k) = sb -> fat [] bs V w k s -> in_tx k bs -> fs_ok start sb V ->
  itable (fsk k) !! ip = Some x -> good_inode dv sb V x -> 0 <= off <= i_size x ->
  off + n <= MAXFILE * BSIZE -> Z.of_nat (length bs) + nbmap sb + span off n + 3 < log_size (lg k) ->
  (forall tot V' x' bs' k' s', 0 <= tot <= n -> (tot < n -> full sb V') ->
     file_written dv start sb V x V' x' (splice (fbytes V x) (Z.to_nat off) (take (Z.to_nat tot) data)) ->
     fat [] bs' V' w k' s' -> in_tx k' bs' -> hdr_eq (kino ip x' k) k' -> Q tot s') ->
  wp (writei ip (BufSrc data) off n) Q s.
Proof.
  intros n Hsb F T Hfs Hx Hgi Ho He Hcap HQ. pose proof Hfs as [Hly HV Hm]. pose proof Hgi as [[Hdev Hsz Hmap] Hwf _ _].
  assert (Hmx : MAXFILE * BSIZE < W32) by done.
  unfold writei. apply wp_seq. eapply wp_geti; [exact F|exact Hx|]. rewrite u32_small by lia.
  replace ((i_size x <? off) || (off + n <? off)) with false by lia.
  replace (MAXFILE * BSIZE <? off + n) with false by lia. apply wp_seq.
  apply (wp_mono (while (S (S (S (Z.to_nat (n / BSIZE))))) (writei_body ip n) (0, off, BufSrc data))
    (fun r s' => exists tot i V1 x1 bs1 k1, r = (tot, off + tot) /\ (tot = n \/ full sb V1) /\
      at_byte (d0 := d0) ci pid dv start sb k ip w bs V x data off n (off / BSIZE) (span off n) tot i V1 x1 bs1 k1 s')).
  - assert (E0 : (0, off, BufSrc data) = (0, off + 0, adv_source (BufSrc data) 0)) by by rewrite Z.add_0_r.
    rewrite E0. eapply (wp_writei_loop ci pid dv start sb k ip w bs V x (BufSrc data) data off n Hly Hsb
      (lookup_lt_Some _ _ _ Hx) (supplies_buf ci pid dv w data) eq_refl);
      [lia|exact He|lia|reflexivity|reflexivity|exact Hcap|apply writei_start; try done; lia| |].
    + unfold rounds, BSIZE. destruct (Z.ltb_spec 0 n); dlia.
    + intros tot i V1 x1 bs1 k1 s1 AB Hend. by exists tot, i, V1, x1, bs1, k1.
  - intros r s1 (tot & i & V1 & x1 & bs1 & k1 & -> & Hend & AB). assert (Ht : 0 <= tot <= n) by by destruct AB.
    eapply (wp_writei_end sb bs V w k ip x off data tot i V1 x1 bs1 k1 s1); try done; [by apply lookup_lt_Some in Hx|].
    intros V' x' bs' k' s' FW Hu F' T' K'. eapply HQ; [exact Ht| |exact FW|exact F'|exact T'|exact K'].
    intros Hlt c Hc. apply Hu; [done|]. destruct Hend as [->|Hf]; [lia|by apply Hf].
Qed.

(** C3: called with data of the kernel ([user_src] is 0), [writei] stores the
    data at the offset, byte for byte, growing the file by blocks that were free
    when it is written past its end; the inode on disk agrees with the one in
    memory, every other file and every other inode is what it was, and the
    file system stays well formed.  From such a source it writes less than
    asked for only when the disk is full (a user source, which is not covered
    here, can also stop the loop by a failing [either_copyin]).  An offset behind the end of the
    file, or an end that overflows or lies beyond the largest file, gives -1
    and nothing happens. *)
Theorem writei_writes sb V w k s bs ip x off data :
  let n := Z.of_nat (length data) in
  fs_sb (fsk k) = sb -> fat [] bs V w k s -> in_tx k bs -> fs_ok start sb V ->
  itable (fsk k) !! ip = Some x -> good_inode dv sb V x -> 0 <= off < W32 -> n < W32 ->
  Z.of_nat (length bs) + nbmap sb + span off n + 3 < log_size (lg k) ->
  if decide (off <= i_size x /\ off + n <= MAXFILE * BSIZE) then
    exists tot V' x' bs' k' s', writei ip (BufSrc data) off n s = Ok tot s' /\
      0 <= tot <= n /\ (tot < n -> full sb V') /\
      file_written dv start sb V x V' x' (splice (fbytes V x) (Z.to_nat off) (take (Z.to_nat tot) data)) /\
      fat [] bs' V' w k' s' /\ in_tx k' bs' /\ hdr_eq (kino ip x' k) k'
  else writei ip (BufSrc data) off n s = Ok (-1) s.
Proof.
  intros n Hsb F T Hfs Hx Hgi Ho Hn Hcap.
  destruct (decide (off <= i_size x /\ off + n <= MAXFILE * BSIZE)) as [[Hos He]|Hno].
  - assert (E : wp (writei ip (BufSrc data) off n) (fun tot s' => exists V' x' bs' k', 0 <= tot <= n /\
      (tot < n -> full sb V') /\
      file_written dv start sb V x V' x' (splice (fbytes V x) (Z.to_nat off) (take (Z.to_nat tot) data)) /\
      fat [] bs' V' w k' s' /\ in_tx k' bs' /\ hdr_eq (kino ip x' k) k') s).
    { eapply wp_writei; [exact Hsb|exact F|exact T|exact Hfs|exact Hx|exact Hgi|lia|exact He|exact Hcap|].
      intros tot V' x' bs' k' s' H1 H2 H3 H4 H5 H6. by exists V', x', bs', k'. }
    apply wp_Ok in E as (tot & s' & E & V' & x' & bs' & k' & H). by exists tot, V', x', bs', k', s'.
  - assert (E : wp (writei ip (BufSrc data) off n) (fun r s' => r = -1 /\ s' = s) s).
    { unfold writei. apply wp_seq. eapply wp_geti; [exact F|exact Hx|].
      destruct (Z.ltb_spec (i_size x) off); simpl orb; cbv iota; [by apply wp_ret|].
      destruct (Z.ltb_spec (u32 (off + n)) off); cbv iota; [by apply wp_ret|].
      destruct (Z.ltb_spec (MAXFILE * BSIZE) (u32 (off + n))); cbv iota; [by apply wp_ret|].
      exfalso. apply Hno. split; [lia|]. unfold n in *. cint_unfold; dlia. }
    apply wp_Ok in E as (r & s' & E & -> & ->). done.
Qed.
End writei_thm.

(** ** Witnesses *)

#[local] Existing Instances demo_fs_driver demo_fs_sync.
#[local] Instance demo_write_patience : Patience := 3%nat.

Lemma demo_in_tx : in_tx 1 2 demo_fs_k [].
Proof.
  split; try done.
  - split; try done. by exists (replicate 30 0).
  - by apply NoDup_nil_2.
Qed.

Lemma demo_layout : layout_ok 2 demo_sb.
Proof. split; vm_compute; done. Qed.

Lemma demo_fs_ok : fs_ok 2 demo_sb demo_fs_disk.
Proof.
  split; [apply demo_layout|apply demo_blocks_ok|].
  assert (H : Forall (fun b => used demo_fs_disk demo_sb b = true) (zseq 0 34)).
  { apply (bool_decide_unpack _). vm_compute. exact I. }
  rewrite Forall_forall in H. intros b Hb. apply H, elem_of_zseq. change (meta demo_sb) with 34 in Hb. lia.
Qed.

Lemma demo_good_inode : good_inode 1 demo_sb demo_fs_disk demo_dir.
Proof.
  split.
  - apply demo_file_ok.
  - split; [done|..].
    + intros i Hi. rewrite demo_fblock by lia. destruct (i =? 0); [|done]. intros _. vm_compute. done.
    + done.
    + intros i j Hi Hj. rewrite !demo_fblock by lia. destruct (Z.eqb_spec i 0), (Z.eqb_spec j 0); congruence.
    + intros i Hi. rewrite demo_fblock by lia. by destruct (i =? 0).
  - apply (bool_decide_unpack _). vm_compute. exact I.
  - split; vm_compute; done.
Qed.

(** Three bytes over the free entry of the directory. *)
Lemma writei_writes_witness :
  exists tot V' x' s', writei 0 (BufSrc [1; 2; 3]) 20 3 demo_fs_st = Ok tot s' /\
    file_written 1 2 demo_sb demo_fs_disk demo_dir V' x'
      (splice (fbytes demo_fs_disk demo_dir) 20 (take (Z.to_nat tot) [1; 2; 3])).
Proof.
  pose proof (writei_writes 0 7 1 2 demo_sb demo_fs_disk [] demo_fs_k demo_fs_st [] 0 demo_dir 20 [1; 2; 3]
    eq_refl demo_fs_fat demo_in_tx demo_fs_ok eq_refl demo_good_inode ltac:(lia) ltac:(done)
    ltac:(vm_compute; done)) as H.
  rewrite decide_True in H by (vm_compute; done).
  destruct H as (tot & V' & x' & bs' & k' & s' & E & _ & _ & FW & _). exists tot, V', x', s'. exact (conj E FW).
Defined.
