(* ===== verification/FsDir.v ===== *)
(** Directories: [dirlookup] and [dirlink] as operations on the table from
    names to inode numbers that the bytes of a directory represent, and
    [iget], the table of inodes in memory. *)

From S2P Require Import Prelude CInt Machine KString KStringThm Sched Sleeplock Kalloc Vm Proc Bio.
From S2P Require Import BioRing BioThm Log LogThm Fs FsData FsThm FsAlloc FsWrite.

(** ** The table from names to inode numbers *)

(** The entry at [off]. *)
Definition dent (l : list Z) (off : Z) : list Z := take (Z.to_nat DIRENT_SIZE) (drop (Z.to_nat off) l).
Definition de_is (name de : list Z) : bool := negb (de_inum de =? 0) && (namecmp name (de_name de) =? 0).

(** The first entry in use that has the name, and the first that is free. *)
Definition dir_find (l name : list Z) : option Z :=
  snd <$> find_idx (fun off => de_is name (dent l off)) (dir_offs (Z.of_nat (length l))).
Definition dir_free (l : list Z) : option Z :=
  snd <$> find_idx (fun off => de_inum (dent l off) =? 0) (dir_offs (Z.of_nat (length l))).

(** The inode number of a name. *)
Definition dir_get (l name : list Z) : option Z := (fun off => de_inum (dent l off)) <$> dir_find l name.

(** *** Adding an entry *)

Lemma dir_offs_elem size off : size mod DIRENT_SIZE = 0 -> off ∈ dir_offs size ->
  0 <= off /\ off + DIRENT_SIZE <= size /\ off mod DIRENT_SIZE = 0.
Proof.
  intros Hs (j & -> & Hj%elem_of_zseq)%list_elem_of_fmap. unfold DIRENT_SIZE in *. dlia.
Qed.

Section add.
Context (l name : list Z) (inum : Z).
Hypothesis (Hl : Z.of_nat (length l) mod DIRENT_SIZE = 0) (Hi : 0 < inum < W16).
(** The place of the new entry, and the directory with it. *)
Definition dir_slot : Z := default (Z.of_nat (length l)) (dir_free l).
Definition new_dent : list Z := mk_dirent (u16 inum) (strncpy_list DIRSIZ name).
Definition dir_add : list Z := splice l (Z.to_nat dir_slot) new_dent.

Lemma new_dent_length : length new_dent = 16%nat.
Proof. unfold new_dent, mk_dirent. by rewrite length_app, le_split_length, strncpy_list_length. Qed.

Lemma dir_free_elem off : dir_free l = Some off ->
  off ∈ dir_offs (Z.of_nat (length l)) /\ de_inum (dent l off) = 0.
Proof.
  unfold dir_free. destruct (find_idx _ _) as [[j o]|] eqn:E; [|done]. intros [= <-].
  apply find_idx_Some in E as (Hj & Hp%Z.eqb_eq & _). split; [by eapply list_elem_of_lookup_2|done].
Qed.

Lemma dir_slot_bounds :
  0 <= dir_slot <= Z.of_nat (length l) /\ dir_slot mod DIRENT_SIZE = 0 /\
  (dir_slot = Z.of_nat (length l) \/ dir_slot + DIRENT_SIZE <= Z.of_nat (length l)).
Proof.
  unfold dir_slot. destruct (dir_free l) as [off|] eqn:E; simpl; [|lia].
  destruct (dir_free_elem _ E) as [He _]. destruct (dir_offs_elem _ _ Hl He) as (? & ? & ?).
  unfold DIRENT_SIZE in *. lia.
Qed.

Lemma dir_add_length : Z.of_nat (length dir_add) = Z.max (Z.of_nat (length l)) (dir_slot + DIRENT_SIZE).
Proof.
  pose proof dir_slot_bounds as (H1 & H2 & H3). unfold dir_add, splice.
  rewrite !length_app, length_take, length_drop, new_dent_length. unfold DIRENT_SIZE in *. lia.
Qed.

Lemma dent_add off : 0 <= off -> off mod DIRENT_SIZE = 0 ->
  dent dir_add off = if decide (off = dir_slot) then new_dent else dent l off.
Proof.
  intros Ho Hm. pose proof dir_slot_bounds as (H1 & H2 & H3). unfold DIRENT_SIZE in *.
  apply list_eq. intros j. unfold dent, DIRENT_SIZE. destruct (decide (j < Z.to_nat 16)%nat) as [Hj|Hj].
  - rewrite lookup_take_lt, lookup_drop by done. unfold dir_add. rewrite splice_lookup, new_dent_length by lia.
    destruct (decide (off = dir_slot)) as [->|Hne].
    + rewrite decide_True by lia. f_equal. lia.
    + rewrite decide_False by dlia. by rewrite lookup_take_lt, lookup_drop.
  - rewrite lookup_take_ge by lia. destruct (decide (off = dir_slot)).
    + symmetry. apply lookup_ge_None. rewrite new_dent_length. lia.
    + by rewrite lookup_take_ge by lia.
Qed.

Lemma dir_offs_add :
  dir_offs (Z.of_nat (length dir_add)) = dir_offs (Z.of_nat (length l)) \/
  dir_offs (Z.of_nat (length dir_add)) = dir_offs (Z.of_nat (length l)) ++ [dir_slot].
Proof.
  pose proof dir_slot_bounds as (H1 & H2 & H3). rewrite dir_add_length. unfold DIRENT_SIZE in *.
  destruct H3 as [E|H3]; [right|left; by rewrite Z.max_l by lia].
  rewrite E, Z.max_r by lia. unfold dir_offs, zseq, DIRENT_SIZE.
  replace (Z.to_nat ((Z.of_nat (length l) + 16 + 16 - 1) / 16)) with
    (S (Z.to_nat ((Z.of_nat (length l) + 16 - 1) / 16))) by dlia.
  rewrite seq_S, !fmap_app. f_equal. simpl. f_equal. dlia.
Qed.

Lemma dir_offs_add_elem off :
  off ∈ dir_offs (Z.of_nat (length dir_add)) -> off = dir_slot \/ off ∈ dir_offs (Z.of_nat (length l)).
Proof.
  destruct dir_offs_add as [-> | ->]; [by right|].
  intros [?|?%list_elem_of_singleton]%elem_of_app; [by right|by left].
Qed.

Lemma dir_slot_elem : dir_slot ∈ dir_offs (Z.of_nat (length dir_add)).
Proof.
  pose proof dir_slot_bounds as (H1 & H2 & H3). rewrite dir_add_length.
  apply list_elem_of_fmap. exists (dir_slot / 16). unfold DIRENT_SIZE in *. split; [dlia|].
  apply elem_of_zseq. dlia.
Qed.

(** A search that only one element satisfies, and two searches that agree. *)
Lemma find_idx_only (p : Z -> bool) L o :
  o ∈ L -> p o = true -> (forall x, x ∈ L -> p x = true -> x = o) -> snd <$> find_idx p L = Some o.
Proof.
  intros Ho Hp Huniq. destruct (find_idx p L) as [[j x]|] eqn:E; simpl.
  - apply find_idx_Some in E as (Hj & Hx & _). f_equal. apply Huniq; [by eapply list_elem_of_lookup_2|done].
  - apply find_idx_None in E. rewrite Forall_forall in E. by rewrite (E o Ho) in Hp.
Qed.

Lemma find_from_ext (p q : Z -> bool) L L' j :
  (forall x, x ∈ L -> p x = q x) -> (L' = L \/ exists o, L' = L ++ [o] /\ q o = false) ->
  find_from q L' j = find_from p L j.
Proof.
  revert L' j. induction L as [|x L IH]; intros L' j Hpq HL.
  - destruct HL as [->|(o & -> & Ho)]; simpl; [done|by rewrite Ho].
  - destruct HL as [->|(o & -> & Ho)]; simpl; rewrite <- (Hpq x) by left; destruct (p x); try done;
      apply IH; [intros; apply Hpq; by right|by left|intros; apply Hpq; by right|right; by exists o].
Qed.

Lemma de_is_new o : de_is o new_dent = bool_decide (take DIRSIZ (cstr o) = take DIRSIZ (cstr name)).
Proof.
  destruct (dirent_roundtrip name inum o ltac:(lia)) as (_ & Hin & Hn). unfold de_is. fold new_dent in Hin, Hn.
  rewrite Hin. rewrite (proj2 (Z.eqb_neq inum 0)) by lia. simpl.
  case_bool_decide as H; [by apply Z.eqb_eq, Hn|]. apply Z.eqb_neq. intros E. by apply H, Hn.
Qed.

(** The new name is found, the other names are what they were. *)
Lemma dir_get_add : dir_find l name = None -> dir_get dir_add name = Some inum.
Proof.
  intros HN. unfold dir_get. assert (E : dir_find dir_add name = Some dir_slot).
  { pose proof dir_slot_bounds as (H1 & H2 & _). apply find_idx_only; [apply dir_slot_elem| |].
    - rewrite dent_add, decide_True, de_is_new by (done || lia). by apply bool_decide_true.
    - intros off [?|Ho]%dir_offs_add_elem Hp; [done|].
      destruct (decide (off = dir_slot)) as [|Hne]; [done|]. destruct (dir_offs_elem _ _ Hl Ho) as (? & _ & ?).
      rewrite dent_add, decide_False in Hp by done. unfold dir_find in HN.
      destruct (find_idx _ _) as [|] eqn:E; [done|]. apply find_idx_None in E. rewrite Forall_forall in E.
      by rewrite (E off Ho) in Hp. }
  rewrite E. simpl. f_equal. pose proof dir_slot_bounds as (H1 & H2 & _).
  rewrite dent_add, decide_True by (done || lia).
  by destruct (dirent_roundtrip name inum name ltac:(lia)) as (_ & ? & _).
Qed.

Lemma dir_get_add_other o :
  take DIRSIZ (cstr o) <> take DIRSIZ (cstr name) -> dir_get dir_add o = dir_get l o.
Proof.
  intros Hne. pose proof dir_slot_bounds as (H1 & H2 & _).
  assert (Hnew : de_is o (dent dir_add dir_slot) = false).
  { rewrite dent_add, decide_True, de_is_new by (done || lia). by apply bool_decide_false. }
  assert (Hold : forall off, off ∈ dir_offs (Z.of_nat (length l)) ->
    de_is o (dent l off) = de_is o (dent dir_add off)).
  { intros off Ho. destruct (dir_offs_elem _ _ Hl Ho) as (? & _ & ?).
    destruct (decide (off = dir_slot)) as [->|Hn]; [|by rewrite dent_add, decide_False].
    rewrite Hnew. unfold de_is. destruct (dir_free l) as [f|] eqn:Ef; unfold dir_slot in Ho |- *; rewrite Ef in *; simpl in *.
    - by destruct (dir_free_elem _ Ef) as [_ ->].
    - destruct (dir_offs_elem _ _ Hl Ho) as (? & ? & ?). unfold DIRENT_SIZE in *. lia. }
  assert (E : dir_find dir_add o = dir_find l o).
  { unfold dir_find, find_idx. f_equal. apply find_from_ext; [done|].
    destruct dir_offs_add as [-> | ->]; [by left|right; by exists dir_slot]. }
  unfold dir_get. rewrite E. destruct (dir_find l o) as [off|] eqn:Ef; [|done]. simpl. f_equal.
  unfold dir_find in Ef. destruct (find_idx _ _) as [[j x]|] eqn:Ex; [|done]. injection Ef as ->.
  apply find_idx_Some in Ex as (Hj & Hp & _). pose proof (list_elem_of_lookup_2 _ _ _ Hj) as Ho.
  destruct (dir_offs_elem _ _ Hl Ho) as (? & _ & ?). rewrite dent_add by done.
  rewrite decide_False; [done|]. intros ->. rewrite Hold, Hnew in Hp by done. done.
Qed.
End add.

(** The inode in memory that [iget] takes, with its new contents: one that is
    in use for this inode, otherwise the first that is not in use. *)
Definition iget_slot (t : list inode) (dev inum : Z) : option (nat * inode) :=
  match find_idx (fun x => (0 <? i_ref x) && (i_dev x =? dev) && (i_inum x =? inum)) t with
  | Some (i, x) => Some (i, x.[i_ref := i_ref x + 1])
  | None =>
      match find_idx (fun x => i_ref x =? 0) t with
      | Some (i, x) => Some (i, x.[i_dev := dev].[i_inum := inum].[i_ref := 1].[i_valid := 0])
      | None => None
      end
  end.

Section dir.
Context {img : KernelImage} {R : Type} {dl : DiskLens R} {dd : DiskDriver (LogSt (FsSt R))}
  {d0 : Z -> list Z} {sd : SyncDisk (LogSt (FsSt R)) d0} {pt : Patience}.
Context (ci : nat) (pid dv start : Z).
Abbreviation St := (Kst (KMem (BioSt (LogSt (FsSt R))))).
Abbreviation fat := (fat (d0 := d0) ci pid dv).
Abbreviation fath := (fath (d0 := d0) ci pid dv).
Implicit Types (s : St) (w : list (Z * list Z)) (k : KMem (BioSt (LogSt (FsSt R)))).

(** ** [iget] *)

Lemma wp_iget_scan h Hs P V w k s dev inum Q :
  let hit := fun x => (0 <? i_ref x) && (i_dev x =? dev) && (i_inum x =? inum) in
  fath h Hs P V w k s -> forall t j e, drop j (itable (fsk k)) = t ->
  Q (match find_from hit t j with
     | Some (i, _) => inl i
     | None => inr (match e with Some i => Some i | None => fst <$> find_from (fun x => i_ref x =? 0) t j end)
     end) s ->
  wp (iget_scan (seq j (length t)) dev inum e) Q s.
Proof.
  intros hit F t. induction t as [|x t IH]; intros j e Hd HQ; simpl.
  { apply wp_ret. simpl in HQ. by destruct e. }
  assert (Hx : itable (fsk k) !! j = Some x).
  { rewrite <- (Nat.add_0_r j), <- lookup_drop, Hd. done. }
  apply wp_seq. eapply wp_geti; [exact F|exact Hx|]. simpl in HQ. unfold hit in HQ at 1.
  destruct ((0 <? i_ref x) && (i_dev x =? dev) && (i_inum x =? inum)); [by apply wp_ret|].
  apply IH.
  { by rewrite <- Nat.add_1_r, <- drop_drop, Hd. }
  destruct (find_from hit t (S j)) as [[i y]|]; [done|].
  destruct e as [e|]; [done|]. simpl. by destruct (i_ref x =? 0).
Qed.

Lemma wp_iget Hs P V w k s dev inum i x' Q :
  fat Hs P V w k s -> length (itable (fsk k)) = NINODE -> iget_slot (itable (fsk k)) dev inum = Some (i, x') ->
  (forall s', fat Hs P V w (kino i x' k) s' -> Q i s') -> wp (iget dev inum) Q s.
Proof.
  intros F Hl Hs' HQ. unfold iget. apply wp_seq. eapply wp_fat_acquire; [exact F|]. intros s1 F1.
  apply wp_seq. rewrite <- Hl. eapply (wp_iget_scan _ _ _ _ _ _ _ _ _ _ F1 (itable (fsk k)) 0 None); [done|].
  unfold iget_slot, find_idx in Hs'. destruct (find_from _ _ _) as [[j y]|] eqn:Hh.
  - injection Hs' as -> <-. apply find_idx_Some in Hh as (Hy & _).
    apply wp_seq. eapply wp_modi; [exact F1|exact Hy|]. intros s2 F2.
    apply wp_seq. eapply wp_fat_release; [exact F2|]. intros s3 F3. by apply wp_ret, HQ.
  - destruct (find_from (fun x => i_ref x =? 0) _ _) as [[j y]|] eqn:Hf; [|done]. injection Hs' as -> <-.
    apply find_idx_Some in Hf as (Hy & _). simpl.
    apply wp_seq. eapply wp_modi; [exact F1|exact Hy|]. intros s2 F2.
    apply wp_seq. eapply wp_fat_release; [exact F2|]. intros s3 F3. by apply wp_ret, HQ.
Qed.

(** ** [dirlookup] *)

(** A directory: a whole number of entries. *)
Record dir_ok (V : Z -> list Z) (x : inode) : Prop := {
  do_file : file_ok dv V x;
  do_type : i_type x = T_DIR;
  do_size : i_size x mod DIRENT_SIZE = 0;
}.

(** Reading one entry. *)
Lemma wp_read_dent P V w k s dp x off Q :
  fat [] P V w k s -> itable (fsk k) !! dp = Some x -> dir_ok V x -> blocks_ok V -> (length P < NBUF)%nat ->
  off ∈ dir_offs (i_size x) ->
  (forall s', fat [] P V w k s' -> Q (DIRENT_SIZE, dent (fbytes V x) off) s') ->
  wp (readi dp BufDst off DIRENT_SIZE) Q s.
Proof.
  intros F Hx [Hf Ht Hsz] HV HP Ho HQ. destruct (dir_offs_elem _ _ Hsz Ho) as (H1 & H2 & _).
  pose proof (fo_size _ _ _ Hf) as Hmx. unfold MAXFILE, BSIZE in Hmx.
  assert (HD : DIRENT_SIZE = 16) by reflexivity.
  set (l := file_range (fbytes V x) off DIRENT_SIZE).
  assert (El : l = dent (fbytes V x) off).
  { unfold l, file_range. rewrite fbytes_length. destruct (Z.ltb_spec (Z.of_nat (Z.to_nat (i_size x))) off); [lia|].
    destruct (Z.leb_spec W32 (off + DIRENT_SIZE)); [lia|]. done. }
  assert (Hlen : Z.of_nat (length l) = DIRENT_SIZE).
  { rewrite El. unfold dent. rewrite length_take, length_drop, fbytes_length. unfold DIRENT_SIZE in *. lia. }
  eapply (wp_readi ci pid dv P V w k s dp x BufDst off DIRENT_SIZE
    (fun i k' => k' = sunk BufDst (take (Z.to_nat i) l) k) (fun _ => False));
    [exact F|exact Hx|exact Hf|exact HV|exact HP|lia|done| |done|done|by apply sinks_kernel| |done].
  - by intros i k' ->.
  - intros k' s' -> F'. fold l. rewrite Hlen, El. by apply HQ.
Qed.

(** The loop of a scan of the entries. *)
Lemma wp_dir_scan {B} P V w k s dp x (body : Z -> M St (option B)) (p : Z -> bool) (Q : option B -> St -> Prop) :
  fat [] P V w k s ->
  (forall off s', off ∈ dir_offs (i_size x) -> fat [] P V w k s' -> p off = false ->
     wp (body off) (fun r s'' => r = None /\ fat [] P V w k s'') s') ->
  (forall off s', off ∈ dir_offs (i_size x) -> snd <$> find_idx p (dir_offs (i_size x)) = Some off ->
     fat [] P V w k s' -> wp (body off) (fun r s'' => is_Some r /\ Q r s'') s') ->
  (forall s', find_idx p (dir_offs (i_size x)) = None -> fat [] P V w k s' -> Q None s') ->
  itable (fsk k) !! dp = Some x -> wp (mloop (dir_offs (i_size x)) body) Q s.
Proof.
  intros F Hno Hyes HN _. unfold find_idx in *.
  assert (H : forall l j s, fat [] P V w k s -> (forall off, off ∈ l -> off ∈ dir_offs (i_size x)) ->
    find_from p l j = find_from p (dir_offs (i_size x)) 0 -> wp (mloop l body) Q s); [|by apply (H _ 0%nat)].
  clear s F. induction l as [|off l IH]; intros j s F Hin Hf; cbn [mloop].
  { by apply wp_ret, HN. }
  apply wp_seq. simpl in Hf. destruct (p off) eqn:Hp.
  - eapply wp_mono; [apply (Hyes off); [apply Hin; left|by rewrite <- Hf|exact F]|].
    intros r s' [[b ->] HQ]. by apply wp_ret.
  - eapply wp_mono; [apply (Hno off); [apply Hin; left|exact F|done]|].
    intros r s' [-> F']. apply (IH (S j)); [done| |done]. intros o Ho. apply Hin. by right.
Qed.

Lemma wp_dirlookup P V w k s dp x name Q :
  fat [] P V w k s -> itable (fsk k) !! dp = Some x -> dir_ok V x -> blocks_ok V -> (length P < NBUF)%nat ->
  length (itable (fsk k)) = NINODE ->
  (forall off, dir_find (fbytes V x) name = Some off ->
     exists i x', iget_slot (itable (fsk k)) dv (de_inum (dent (fbytes V x) off)) = Some (i, x') /\
     forall s', fat [] P V w (kino i x' k) s' -> Q (Some (i, off)) s') ->
  (forall s', dir_find (fbytes V x) name = None -> fat [] P V w k s' -> Q None s') ->
  wp (dirlookup dp name) Q s.
Proof.
  intros F Hx Hd HV HP Hl HQ HN. pose proof Hd as [Hf Ht Hsz]. pose proof (fo_size _ _ _ Hf) as Hmx.
  assert (HD : DIRENT_SIZE = 16) by reflexivity.
  assert (Hlen : Z.of_nat (length (fbytes V x)) = i_size x) by (rewrite fbytes_length; lia).
  unfold dir_find in HQ, HN. rewrite Hlen in *. unfold dirlookup.
  apply wp_seq. eapply wp_geti; [exact F|exact Hx|]. rewrite Ht. simpl negb. cbv iota.
  eapply (wp_dir_scan P V w k s dp x _ (fun off => de_is name (dent (fbytes V x) off))); [exact F|..|exact Hx].
  - intros off s1 Ho F1 Hp. apply wp_seq. eapply wp_read_dent; [exact F1|exact Hx|exact Hd|exact HV|exact HP|exact Ho|].
    intros s2 F2. unfold de_is in Hp. simpl negb. cbv iota. destruct (de_inum _ =? 0); [by apply wp_ret|].
    simpl in Hp. rewrite Hp. by apply wp_ret.
  - intros off s1 Ho Hfind F1. destruct (HQ off Hfind) as (i & x' & Hs & Hk).
    apply wp_seq. eapply wp_read_dent; [exact F1|exact Hx|exact Hd|exact HV|exact HP|exact Ho|].
    intros s2 F2. simpl negb. cbv iota.
    assert (Hp : de_is name (dent (fbytes V x) off) = true).
    { destruct (find_idx _ _) as [[j o]|] eqn:E; [|done]. injection Hfind as <-. by apply find_idx_Some in E as (_ & ? & _). }
    unfold de_is in Hp. destruct (de_inum _ =? 0); [done|]. simpl in Hp. rewrite Hp.
    rewrite (fo_dev _ _ _ Hf). apply wp_seq.
    eapply wp_iget; [exact F2|exact Hl|exact Hs|]. intros s3 F3. apply wp_ret. eauto.
  - intros s1 Hfind F1. apply HN; [by rewrite Hfind|done].
Qed.

(** C37: [dirlookup] finds the first entry in use whose name agrees with the one
    asked for on fourteen characters, and returns the inode in memory that
    [iget] takes for its number, with the offset of the entry; it reports
    nothing when there is none.  It changes only the table of inodes. *)
Theorem dirlookup_finds P V w k s dp x name :
  fat [] P V w k s -> itable (fsk k) !! dp = Some x -> dir_ok V x -> blocks_ok V -> (length P < NBUF)%nat ->
  length (itable (fsk k)) = NINODE ->
  match dir_find (fbytes V x) name with
  | None => exists s', dirlookup dp name s = Ok None s' /\ fat [] P V w k s'
  | Some off => forall i x', iget_slot (itable (fsk k)) dv (de_inum (dent (fbytes V x) off)) = Some (i, x') ->
      exists s', dirlookup dp name s = Ok (Some (i, off)) s' /\ fat [] P V w (kino i x' k) s'
  end.
Proof.
  intros F Hx Hd HV HP Hl. destruct (dir_find (fbytes V x) name) as [off|] eqn:Hfind.
  - intros i x' Hs. assert (H : wp (dirlookup dp name) (fun r s' => r = Some (i, off) /\ fat [] P V w (kino i x' k) s') s).
    { eapply wp_dirlookup; try done; [|congruence]. intros off' E. exists i, x'. by simplify_eq. }
    apply wp_Ok in H as (r & s' & E & -> & F'). by exists s'.
  - assert (H : wp (dirlookup dp name) (fun r s' => r = None /\ fat [] P V w k s') s).
    { eapply wp_dirlookup; try done. congruence. }
    apply wp_Ok in H as (r & s' & E & -> & F'). by exists s'.
Qed.

(** ** [dirlink] *)

(** The search for a free entry. *)
Lemma wp_dir_slot P V w k s dp x Q :
  fat [] P V w k s -> itable (fsk k) !! dp = Some x -> dir_ok V x -> blocks_ok V -> (length P < NBUF)%nat ->
  (forall s', fat [] P V w k s' -> Q (dir_free (fbytes V x)) s') ->
  wp (mloop (dir_offs (i_size x)) (fun off =>
        let* '(r, de) := readi dp BufDst off DIRENT_SIZE in
        if negb (r =? DIRENT_SIZE) then panic "dirlink read" else
        ret (if de_inum de =? 0 then Some off else None))) Q s.
Proof.
  intros F Hx Hd HV HP HQ. pose proof Hd as [Hf Ht Hsz]. pose proof (fo_size _ _ _ Hf) as Hmx.
  assert (Hlen : Z.of_nat (length (fbytes V x)) = i_size x) by (rewrite fbytes_length; lia).
  unfold dir_free in HQ. rewrite Hlen in HQ.
  assert (Hbody : forall off s1 Q1, off ∈ dir_offs (i_size x) -> fat [] P V w k s1 ->
    (forall s2, fat [] P V w k s2 -> Q1 (if de_inum (dent (fbytes V x) off) =? 0 then Some off else None) s2) ->
    wp (let* '(r, de) := readi dp BufDst off DIRENT_SIZE in
        if negb (r =? DIRENT_SIZE) then panic "dirlink read" else
        ret (if de_inum de =? 0 then Some off else None)) Q1 s1).
  { intros off s1 Q1 Ho F1 HQ1. apply wp_seq.
    eapply wp_read_dent; [exact F1|exact Hx|exact Hd|exact HV|exact HP|exact Ho|].
    intros s2 F2. by apply wp_ret, HQ1. }
  eapply (wp_dir_scan P V w k s dp x _ (fun off => de_inum (dent (fbytes V x) off) =? 0)); [exact F|..|exact Hx].
  - intros off s1 Ho F1 Hp. apply Hbody; [done|done|]. intros s2 F2. by rewrite Hp.
  - intros off s1 Ho Hfind F1. apply Hbody; [done|done|]. intros s2 F2.
    assert (Hp : (de_inum (dent (fbytes V x) off) =? 0) = true).
    { destruct (find_idx _ _) as [[j o]|] eqn:E; [|done]. injection Hfind as <-. by apply find_idx_Some in E as (_ & ? & _). }
    rewrite Hp. rewrite Hfind in HQ. eauto.
  - intros s1 Hfind F1. rewrite Hfind in HQ. by apply HQ.
Qed.

(** C5: [dirlink] of a name the directory does not have adds an entry for it, in
    the first free place or at the end: afterwards the name gives the number
    and every other name what it gave before; every other file is what it was
    and the file system stays well formed.  It fails with -1 only when the
    disk is full. *)
Theorem dirlink_adds sb V w k s bs dp x name inum :
  let l := fbytes V x in
  fs_sb (fsk k) = sb -> fat [] bs V w k s -> in_tx dv start k bs -> fs_ok start sb V ->
  itable (fsk k) !! dp = Some x -> good_inode dv sb V x -> i_type x = T_DIR -> i_size x mod DIRENT_SIZE = 0 ->
  length (itable (fsk k)) = NINODE -> 0 < inum < W16 -> dir_find l name = None ->
  i_size x + DIRENT_SIZE <= MAXFILE * BSIZE -> Z.of_nat (length bs) + nbmap sb + 4 < log_size (lg k) ->
  exists r V' x' bs' k' s', dirlink dp name inum s = Ok r s' /\
    fat [] bs' V' w k' s' /\ in_tx dv start k' bs' /\ hdr_eq (kino dp x' k) k' /\
    file_written dv start sb V x V' x' (fbytes V' x') /\
    ((r = 0 /\ dir_get (fbytes V' x') name = Some inum /\
      (forall o, take DIRSIZ (cstr o) <> take DIRSIZ (cstr name) -> dir_get (fbytes V' x') o = dir_get l o) /\
      Z.of_nat (length (fbytes V' x')) mod DIRENT_SIZE = 0) \/
     (r = -1 /\ full sb V')).
Proof.
  intros l Hsb F T Hfs Hx Hgi Ht Hsz Hl Hin HN Hmx Hcap. pose proof (gi_file _ _ _ _ Hgi) as Hf.
  pose proof (fo_size _ _ _ Hf) as Hs0.
  assert (Hd : dir_ok V x) by by split.
  assert (HP : (length bs < NBUF)%nat).
  { pose proof (tx_size _ _ _ _ T). pose proof (nbmap_pos (fs_layout _ _ _ Hfs)).
    unfold LOGSIZE, MAXOPBLOCKS, NBUF in *. lia. }
  assert (Hlen : Z.of_nat (length l) = i_size x) by (unfold l; rewrite fbytes_length; lia).
  assert (Hlm : Z.of_nat (length l) mod DIRENT_SIZE = 0) by by rewrite Hlen.
  destruct (dir_slot_bounds l Hlm) as (Hb1 & Hb2 & _).
  pose proof (new_dent_length name inum) as Hnd.
  assert (H : wp (dirlink dp name inum) (fun r s' => exists V' x' bs' k',
    fat [] bs' V' w k' s' /\ in_tx dv start k' bs' /\ hdr_eq (kino dp x' k) k' /\
    exists tot, 0 <= tot <= 16 /\ (tot < 16 -> full sb V') /\
      file_written dv start sb V x V' x' (splice l (Z.to_nat (dir_slot l)) (take (Z.to_nat tot) (new_dent name inum))) /\
      r = if negb (tot =? DIRENT_SIZE) then -1 else 0) s).
  { unfold dirlink. apply wp_seq. eapply wp_dirlookup; [exact F|exact Hx|exact Hd|apply Hfs|exact HP|exact Hl|..].
    { intros off E. fold l in E. congruence. }
    intros s1 _ F1. apply wp_seq. eapply wp_geti; [exact F1|exact Hx|]. apply wp_seq.
    eapply wp_dir_slot; [exact F1|exact Hx|exact Hd|apply Hfs|exact HP|]. intros s2 F2. fold l.
    assert (Eo : default (Z.of_nat (length (dir_offs (i_size x))) * DIRENT_SIZE) (dir_free l) = dir_slot l).
    { unfold dir_slot. destruct (dir_free l); [done|]. simpl. rewrite Hlen. unfold dir_offs.
      rewrite length_fmap, zseq_length. unfold DIRENT_SIZE in *. dlia. }
    rewrite Eo. fold (new_dent name inum). apply wp_seq.
    replace DIRENT_SIZE with (Z.of_nat (length (new_dent name inum))) at 1 by by rewrite Hnd.
    eapply wp_writei; [exact Hsb|exact F2|exact T|exact Hfs|exact Hx|exact Hgi|lia|rewrite Hnd; unfold DIRENT_SIZE in *; lia| |].
    { rewrite Hnd. unfold span, BSIZE, DIRENT_SIZE in *. dlia. }
    intros tot V' x' bs' k' s3 Htot Hfull FW F3 T3 K3. rewrite Hnd in Htot, Hfull. apply wp_ret.
    exists V', x', bs', k'. split; [exact F3|]. split; [exact T3|]. split; [exact K3|]. by exists tot. }
  apply wp_Ok in H as (r & s' & E & V' & x' & bs' & k' & F' & T' & K' & tot & Htot & Hfull & FW & ->).
  pose proof (fw_bytes _ _ _ _ _ _ _ _ FW) as Eb.
  exists (if negb (tot =? DIRENT_SIZE) then -1 else 0), V', x', bs', k', s'.
  split; [exact E|]. split; [exact F'|]. split; [exact T'|]. split; [exact K'|].
  split; [by rewrite Eb|]. assert (HD : DIRENT_SIZE = 16) by reflexivity. rewrite !HD. clear HD. destruct (Z.eqb_spec tot 16) as [Etot|Hne]; simpl; [subst tot|].
  - left. split; [done|]. rewrite Eb, take_ge by (rewrite Hnd; lia). change (splice _ _ _) with (dir_add l name inum).
    split; [by apply dir_get_add|]. split; [intros o Ho; by apply dir_get_add_other|].
    rewrite dir_add_length by done. unfold DIRENT_SIZE in *. destruct (Z.max_spec (Z.of_nat (length l)) (dir_slot l + 16)); dlia.
  - right. split; [done|]. apply Hfull. lia.
Qed.
End dir.

(** ** Witnesses *)

#[local] Existing Instances demo_fs_driver demo_fs_sync.
#[local] Instance demo_dir_patience : Patience := 3%nat.

(** "." is in the first entry; "b" is not there and goes to the second. *)
Lemma dirlookup_finds_witness :
  exists s', dirlookup 0 [46; 0] demo_fs_st = Ok (Some (0%nat, 0)) s'.
Proof.
  pose proof (dirlookup_finds 0 7 1 [] demo_fs_disk [] demo_fs_k demo_fs_st 0 demo_dir [46; 0] demo_fs_fat eq_refl
    ltac:(split; [apply demo_file_ok|done|done]) demo_blocks_ok ltac:(unfold NBUF; simpl; lia) eq_refl) as H.
  assert (E : dir_find (fbytes demo_fs_disk demo_dir) [46; 0] = Some 0) by (vm_compute; reflexivity).
  rewrite E in H.
  assert (Ei : iget_slot (itable (fsk demo_fs_k)) 1 (de_inum (dent (fbytes demo_fs_disk demo_dir) 0)) =
    Some (0%nat, demo_dir.[i_ref := 2])) by (vm_compute; reflexivity).
  destruct (H _ _ Ei) as (s' & H' & _).
  exists s'. exact H'.
Defined.

Lemma dirlink_adds_witness :
  exists r V' x' s', dirlink 0 [98; 0] 7 demo_fs_st = Ok r s' /\
    ((r = 0 /\ dir_get (fbytes V' x') [98; 0] = Some 7) \/ (r = -1 /\ full demo_sb V')).
Proof.
  destruct (dirlink_adds 0 7 1 2 demo_sb demo_fs_disk [] demo_fs_k demo_fs_st [] 0 demo_dir [98; 0] 7
    eq_refl demo_fs_fat demo_in_tx demo_fs_ok eq_refl demo_good_inode eq_refl eq_refl eq_refl ltac:(lia)
    ltac:(vm_compute; reflexivity) ltac:(vm_compute; done) ltac:(vm_compute; done))
    as (r & V' & x' & bs' & k' & s' & E & _ & _ & _ & _ & H).
  exists r, V', x', s'. split; [exact E|].
  destruct H as [(H1 & H2 & _)|H]; [left; exact (conj H1 H2)|right; exact H].
Defined.
