(* ===== verification/Pipe.v ===== *)
(** Pipes (kernel/pipe.c).  A pipe is a [struct pipe] in an allocated page; a
    blocked [pipewrite] or [piperead] sleeps on the address of [nwrite] or
    [nread]. *)

From S2P Require Import Prelude CInt Machine KString Sched Kalloc Vm VmSpec VmThm Sleeplock.

Definition PIPESIZE : Z := 512.

(** [struct pipe] on RV64: a 24-byte spinlock, then the fields in order. *)
Definition PI_data : Z := 24.
Definition PI_nread : Z := 536.
Definition PI_nwrite : Z := 540.
Definition PI_readopen : Z := 544.
Definition PI_writeopen : Z := 548.

Definition pi_lock (pi : Z) : kptr := KPhys pi.
Definition nread_chan (pi : Z) : kptr := KPhys (pi + PI_nread).
Definition nwrite_chan (pi : Z) : kptr := KPhys (pi + PI_nwrite).

Section pipe.
Context {img : KernelImage} {R : Type}.
Abbreviation St := (Kst (KMem R)).

Definition ld32 (a : Z) : M St Z := let* bs := pread a 4 in ret (le_combine bs).
Definition st32 (a v : Z) : M St unit := pwrite a (le_split 4 v).
Definition ld8 (a : Z) : M St Z := let* bs := pread a 1 in ret (le_combine bs).
Definition st8 (a v : Z) : M St unit := pwrite a (le_split 1 v).

(** The part of [pipealloc] that initialises the pipe itself. *)
Definition pipe_init (pi : Z) : M St unit :=
  st32 (pi + PI_readopen) 1;;;
  st32 (pi + PI_writeopen) 1;;;
  st32 (pi + PI_nwrite) 0;;;
  st32 (pi + PI_nread) 0.

Definition pipeclose (pi : Z) (writable : bool) : M St unit :=
  acquire (pi_lock pi);;;
  (if writable then
     st32 (pi + PI_writeopen) 0;;; wakeup (nread_chan pi)
   else
     st32 (pi + PI_readopen) 0;;; wakeup (nwrite_chan pi));;;
  let* ro := ld32 (pi + PI_readopen) in
  let* wo := ld32 (pi + PI_writeopen) in
  if (ro =? 0) && (wo =? 0) then release (pi_lock pi);;; kfree pi
  else release (pi_lock pi).

(** One iteration of the loop of [pipewrite]; [inr None] is the return of -1,
    [inr (Some i)] leaves the loop. *)
Definition pipewrite_body (pr : nat) (pi addr n i : Z) : M St (Z + option Z) :=
  if negb (i <? n) then ret (inr (Some i)) else
  let* ro := ld32 (pi + PI_readopen) in
  let* k := (if ro =? 0 then ret 1 else killed pr) in
  if negb (k =? 0) then release (pi_lock pi);;; ret (inr None) else
  let* nw := ld32 (pi + PI_nwrite) in
  let* nr := ld32 (pi + PI_nread) in
  if nw =? u32 (nr + PIPESIZE) then
    wakeup (nread_chan pi);;;
    sleep (nwrite_chan pi) (pi_lock pi);;;
    ret (inl i)
  else
    let* q := getp pr in
    let* '(r, ch) := copyin (p_pagetable q) (u64 (addr + i)) 1 in
    if r =? -1 then ret (inr (Some i)) else
    st32 (pi + PI_nwrite) (u32 (nw + 1));;;
    pwrite (pi + PI_data + nw mod PIPESIZE) ch;;;
    ret (inl (i + 1)).

(** [w] bounds how often the writer may be woken in vain. *)
Definition pipewrite (w : nat) (pi addr n : Z) : M St Z :=
  let* pr := curproc in
  acquire (pi_lock pi);;;
  let* r := while (S (w + Z.to_nat n)) (pipewrite_body pr pi addr n) 0 in
  match r with
  | None => ret (-1)
  | Some i => wakeup (nread_chan pi);;; release (pi_lock pi);;; ret i
  end.

(** The waiting loop of [piperead]; [false] is the return of -1. *)
Definition piperead_wait (pr : nat) (pi : Z) : M St (unit + bool) :=
  let* nr := ld32 (pi + PI_nread) in
  let* nw := ld32 (pi + PI_nwrite) in
  let* wo := ld32 (pi + PI_writeopen) in
  if (nr =? nw) && negb (wo =? 0) then
    let* k := killed pr in
    if negb (k =? 0) then release (pi_lock pi);;; ret (inr false) else
    sleep (nread_chan pi) (pi_lock pi);;;
    ret (inl tt)
  else ret (inr true).

(** One iteration of the copy loop; [inr i] leaves it. *)
Definition piperead_body (pr : nat) (pi addr n i : Z) : M St (Z + Z) :=
  if negb (i <? n) then ret (inr i) else
  let* nr := ld32 (pi + PI_nread) in
  let* nw := ld32 (pi + PI_nwrite) in
  if nr =? nw then ret (inr i) else
  st32 (pi + PI_nread) (u32 (nr + 1));;;
  let* ch := pread (pi + PI_data + nr mod PIPESIZE) 1 in
  let* q := getp pr in
  let* r := copyout (p_pagetable q) (u64 (addr + i)) ch in
  if r =? -1 then ret (inr i) else ret (inl (i + 1)).

Definition piperead (w : nat) (pi addr n : Z) : M St Z :=
  let* pr := curproc in
  acquire (pi_lock pi);;;
  let* go := while (S w) (fun _ => piperead_wait pr pi) tt in
  if (go : bool) then
    let* i := while (S (Z.to_nat n)) (piperead_body pr pi addr n) 0 in
    wakeup (nwrite_chan pi);;;
    release (pi_lock pi);;;
    ret i
  else ret (-1).
End pipe.

(** ** A pipe as a bounded queue *)

Definition ld32_at (m : gmap Z Z) (a : Z) : Z := le_combine (mread m a 4).

Record pipe_at (m : gmap Z Z) (pi ro wo : Z) (q : list Z) : Prop := {
  pa_nread : 0 <= ld32_at m (pi + PI_nread);
  pa_nwrite : ld32_at m (pi + PI_nwrite) = u32 (ld32_at m (pi + PI_nread) + Z.of_nat (length q));
  pa_ro : ld32_at m (pi + PI_readopen) = ro;
  pa_wo : ld32_at m (pi + PI_writeopen) = wo;
  pa_len : Z.of_nat (length q) <= PIPESIZE;
  pa_data : forall k b, q !! k = Some b ->
    mget m (pi + PI_data + (ld32_at m (pi + PI_nread) + Z.of_nat k) mod PIPESIZE) = b;
}.

Lemma ld32_at_range m a : 0 <= ld32_at m a < W32.
Proof.
  unfold ld32_at. pose proof (le_combine_range _ (mread_bytes m a 4)) as H.
  by rewrite mread_length in H.
Qed.

Lemma ld32_at_ext m m' a :
  (forall b, a <= b < a + 4 -> mget m' b = mget m b) -> ld32_at m' a = ld32_at m a.
Proof. intros H. unfold ld32_at. f_equal. apply mread_ext. intros b Hb. apply H. lia. Qed.

Lemma ld32_at_same m a v : ld32_at (mwrite m a (le_split 4 v)) a = u32 v.
Proof.
  unfold ld32_at. rewrite <- (le_split_length 4 v) at 2.
  rewrite mwrite_read by apply le_split_bytes. by rewrite (le_combine_split 4).
Qed.

Lemma ld32_at_other m a bs b :
  b + 4 <= a \/ a + Z.of_nat (length bs) <= b -> ld32_at (mwrite m a bs) b = ld32_at m b.
Proof. intros H. apply ld32_at_ext. intros c Hc. apply mwrite_frame. lia. Qed.

(** The slot of the [k]-th byte from the counter [nr]. *)
Lemma slot_range x : 0 <= x mod PIPESIZE < PIPESIZE.
Proof. apply Z.mod_pos_bound. done. Qed.

Lemma slot_u32 x : u32 x mod PIPESIZE = x mod PIPESIZE.
Proof. unfold u32, PIPESIZE. dlia. Qed.

Lemma slot_inj x i j :
  0 <= i < PIPESIZE -> 0 <= j < PIPESIZE -> (x + i) mod PIPESIZE = (x + j) mod PIPESIZE -> i = j.
Proof. unfold PIPESIZE. intros Hi Hj H. Z.to_euclidean_division_equations. lia. Qed.

Ltac pipe_unfold :=
  unfold PI_data, PI_nread, PI_nwrite, PI_readopen, PI_writeopen, in_page, PGSIZE in *.

(** The pipe only depends on its page. *)
Lemma pipe_at_frame m m' pi ro wo q :
  (forall a, in_page pi a -> mget m' a = mget m a) -> pipe_at m pi ro wo q -> pipe_at m' pi ro wo q.
Proof.
  intros Hm [H1 H2 H3 H4 H5 H6].
  assert (Hld : forall o, 0 <= o <= 4092 -> ld32_at m' (pi + o) = ld32_at m (pi + o)).
  { intros o Ho. apply ld32_at_ext. intros b Hb. apply Hm. pipe_unfold. lia. }
  split; rewrite ?Hld by (pipe_unfold; lia); try done.
  intros k b Hk. rewrite Hm; [by apply H6|].
  pose proof (slot_range (ld32_at m (pi + PI_nread) + Z.of_nat k)). pipe_unfold. unfold PIPESIZE in *. lia.
Qed.

(** Appending a byte at [nwrite]. *)
Definition pipe_push (m : gmap Z Z) (pi b : Z) : gmap Z Z :=
  let nw := ld32_at m (pi + PI_nwrite) in
  mwrite (mwrite m (pi + PI_nwrite) (le_split 4 (u32 (nw + 1)))) (pi + PI_data + nw mod PIPESIZE) [b].

Lemma pipe_push_ok m pi ro wo q b :
  byte_ok b -> pipe_at m pi ro wo q -> Z.of_nat (length q) < PIPESIZE ->
  pipe_at (pipe_push m pi b) pi ro wo (q ++ [b]).
Proof.
  intros Hb [H1 H2 H3 H4 H5 H6] Hlen. unfold pipe_push.
  set (nr := ld32_at m (pi + PI_nread)) in *. set (nw := ld32_at m (pi + PI_nwrite)) in *.
  pose proof (slot_range nw) as Hs.
  set (m1 := mwrite m (pi + PI_nwrite) (le_split 4 (u32 (nw + 1)))).
  assert (Hd : forall o, PI_nread <= o -> ld32_at (mwrite m1 (pi + PI_data + nw mod PIPESIZE) [b]) (pi + o)
                                         = ld32_at m1 (pi + o)).
  { intros o Ho. apply ld32_at_other. simpl. unfold PIPESIZE in *. pipe_unfold. lia. }
  assert (Hm1 : forall o, o <> PI_nwrite -> o mod 4 = 0 -> ld32_at m1 (pi + o) = ld32_at m (pi + o)).
  { intros o Ho Ha. apply ld32_at_other. rewrite le_split_length. pipe_unfold.
    Z.to_euclidean_division_equations. lia. }
  assert (Hnr : ld32_at (mwrite m1 (pi + PI_data + nw mod PIPESIZE) [b]) (pi + PI_nread) = nr)
    by (rewrite Hd, Hm1 by done; done).
  assert (Hpos : forall k, (nr + Z.of_nat k) mod PIPESIZE = nw mod PIPESIZE ->
                   (k <= length q)%nat -> k = length q).
  { intros k Hk Hle. rewrite H2, slot_u32 in Hk.
    apply slot_inj in Hk; [lia| |]; lia. }
  split; rewrite ?Hnr.
  - done.
  - rewrite Hd by done. unfold m1. rewrite ld32_at_same. rewrite H2, length_app. simpl.
    unfold u32. dlia.
  - by rewrite Hd, Hm1.
  - by rewrite Hd, Hm1.
  - rewrite length_app. simpl. lia.
  - intros k c Hk. destruct (decide (k = length q)) as [->|Hne].
    + rewrite lookup_app_r, Nat.sub_diag in Hk by lia. injection Hk as <-.
      rewrite <- (slot_u32 (nr + _)), <- H2.
      cbn [mwrite]. rewrite mget_mset_eq. by apply u8_small.
    + assert (k < length q)%nat.
      { apply lookup_lt_Some in Hk. rewrite length_app in Hk. simpl in Hk. lia. }
      rewrite lookup_app_l in Hk by done. rewrite mwrite_frame.
      * unfold m1. rewrite mwrite_frame; [by apply H6|]. rewrite le_split_length.
        pose proof (slot_range (nr + Z.of_nat k)). unfold PIPESIZE in *. pipe_unfold. lia.
      * simpl. assert ((nr + Z.of_nat k) mod PIPESIZE <> nw mod PIPESIZE); [|lia].
        intros Heq. apply Hne, Hpos; [done|lia].
Qed.

(** Removing the byte at [nread]. *)
Definition pipe_pop (m : gmap Z Z) (pi : Z) : gmap Z Z :=
  mwrite m (pi + PI_nread) (le_split 4 (u32 (ld32_at m (pi + PI_nread) + 1))).

Lemma pipe_pop_ok m pi ro wo b q :
  pipe_at m pi ro wo (b :: q) -> pipe_at (pipe_pop m pi) pi ro wo q.
Proof.
  intros [H1 H2 H3 H4 H5 H6]. unfold pipe_pop.
  set (nr := ld32_at m (pi + PI_nread)) in *.
  assert (Hm1 : forall o, o <> PI_nread -> o mod 4 = 0 ->
    ld32_at (mwrite m (pi + PI_nread) (le_split 4 (u32 (nr + 1)))) (pi + o) = ld32_at m (pi + o)).
  { intros o Ho Ha. apply ld32_at_other. rewrite le_split_length. pipe_unfold.
    Z.to_euclidean_division_equations. lia. }
  simpl in H2, H5. split; rewrite ?Hm1 by done; rewrite ?ld32_at_same; try done.
  - pose proof (u32_range (u32 (nr + 1))). lia.
  - rewrite H2. unfold u32. dlia.
  - lia.
  - intros k c Hk. rewrite mwrite_frame.
    + rewrite <- (H6 (S k) c) by done. do 2 f_equal. unfold u32, PIPESIZE. dlia.
    + rewrite le_split_length.
      pose proof (slot_range (u32 (u32 (nr + 1)) + Z.of_nat k)). unfold PIPESIZE in *. pipe_unfold. lia.
Qed.

(** ** Executions *)

Section pipe_exec.
Context {img : KernelImage} {imgok : KernelImageOk} {R : Type}.
Abbreviation St := (Kst (KMem R)).
Implicit Types (s : St) (T : gmap Z (nat * Z)).

Lemma in_ram_field pi o n : page_ok pi -> 0 <= o -> 0 <= n -> o + n <= PGSIZE -> in_ram (pi + o) n = true.
Proof. intros Hp Ho Hn Hb. eapply in_ram_sub; [by apply page_ok_ram|lia|lia]. Qed.

Lemma ld32_ok pi o s :
  page_ok pi -> 0 <= o -> o + 4 <= PGSIZE -> ld32 (pi + o) s = Ok (ld32_at (kmem s) (pi + o)) s.
Proof.
  intros Hp Ho Hb. unfold ld32. erewrite bind_Ok; [done|].
  apply pread_ok. apply in_ram_field; lia || done.
Qed.

Lemma pwrite_ok a bs s :
  in_ram a (Z.of_nat (length bs)) = true -> pwrite a bs s = Ok tt (set_mem (mwrite (kmem s) a bs) s).
Proof. intros H. unfold pwrite. by rewrite H. Qed.

Lemma st32_ok pi o v s :
  page_ok pi -> 0 <= o -> o + 4 <= PGSIZE ->
  st32 (pi + o) v s = Ok tt (set_mem (mwrite (kmem s) (pi + o) (le_split 4 v)) s).
Proof.
  intros Hp Ho Hb. apply pwrite_ok. rewrite le_split_length. apply in_ram_field; lia || done.
Qed.

(** What a process needs to copy to and from its memory without touching the
    pipe: its page table is well formed, its user pages are its own, and the
    pipe page is neither. *)
Record user_space (pi : Z) (root : Z) T (m : gmap Z Z) : Prop := {
  us_pt : pt_ok m root T;
  us_user : user_pages m root T;
  us_table : pi ∉ dom T;
  us_pipe : forall va pa, translate m root va = Some pa -> ~ in_page pi pa;
}.

Lemma copyin_1 root T s va :
  pt_ok (kmem s) root T -> user_pages (kmem s) root T -> 0 <= va ->
  match translate (kmem s) root va with
  | Some pa => copyin root va 1 s = Ok (0, [mget (kmem s) pa]) s
  | None => exists bs, copyin root va 1 s = Ok (-1, bs) s
  end.
Proof.
  intros Hok Hup Hva. pose proof (copyin_loop root T s 2 va 1 [] Hok Hup Hva ltac:(lia)) as H.
  simpl in H. destruct (translate (kmem s) root va); exact H.
Qed.

(** Memory updates confined to the pipe page keep every user space. *)
Lemma user_space_frame pi root T m m' :
  page_ok pi -> (forall a, ~ in_page pi a -> mget m' a = mget m a) ->
  user_space pi root T m ->
  user_space pi root T m' /\ forall va, translate m' root va = translate m root va.
Proof.
  intros Hpi Hfr [H1 H2 H3 H4].
  assert (HT : forall q a, q ∈ dom T -> in_page q a -> mget m' a = mget m a).
  { intros q a Hq Ha. apply Hfr. apply elem_of_dom in Hq as Hq'. destruct Hq' as [x Hx].
    eapply page_disjoint; [by eapply pt_ok_page|done|by intros ->|done]. }
  destruct (user_write_translate m root T m' H1 HT) as [Htr Hup]. split; [|done].
  split; [by eapply pt_ok_frame|by apply Hup|done|]. intros va pa. rewrite Htr. apply H4.
Qed.

Lemma pipe_push_frame m pi b a : ~ in_page pi a -> mget (pipe_push m pi b) a = mget m a.
Proof.
  intros Ha. unfold pipe_push. pose proof (slot_range (ld32_at m (pi + PI_nwrite))).
  rewrite !mwrite_frame; rewrite ?le_split_length; simpl; unfold PIPESIZE in *; pipe_unfold; try done; lia.
Qed.

Lemma pipe_pop_frame m pi a : ~ in_page pi a -> mget (pipe_pop m pi) a = mget m a.
Proof.
  intros Ha. unfold pipe_pop. rewrite mwrite_frame; [done|]. rewrite le_split_length. pipe_unfold. lia.
Qed.

(** What a writer of an open pipe does once it has found no reason to stop. *)
Definition pipewrite_open (pr : nat) (pi addr i nr nw : Z) : M St (Z + option Z) :=
  if nw =? u32 (nr + PIPESIZE) then
    wakeup (nread_chan pi);;;
    sleep (nwrite_chan pi) (pi_lock pi);;;
    ret (inl i)
  else
    let* q := getp pr in
    let* '(r, ch) := copyin (p_pagetable q) (u64 (addr + i)) 1 in
    if r =? -1 then ret (inr (Some i)) else
    st32 (pi + PI_nwrite) (u32 (nw + 1));;;
    pwrite (pi + PI_data + nw mod PIPESIZE) ch;;;
    ret (inl (i + 1)).

Lemma pipewrite_body_open pr p pi ro wo q addr n i s :
  page_ok pi -> procs s !! pr = Some p -> p_killed p = 0 -> plock pr ∉ held s ->
  pipe_at (kmem s) pi ro wo q -> ro <> 0 -> i < n ->
  pipewrite_body pr pi addr n i s =
    pipewrite_open pr pi addr i (ld32_at (kmem s) (pi + PI_nread)) (ld32_at (kmem s) (pi + PI_nwrite)) s.
Proof.
  intros Hpi Hp Hk Hl [_ _ H3 _ _ _] Hro Hi.
  unfold pipewrite_body. replace (i <? n) with true by lia. cbn [negb].
  erewrite bind_Ok by (apply ld32_ok; pipe_unfold; done || lia). rewrite H3.
  replace (ro =? 0) with false by lia.
  erewrite bind_Ok by by apply killed_ok. rewrite Hk. cbn [Z.eqb negb].
  erewrite bind_Ok by (apply ld32_ok; pipe_unfold; done || lia).
  by erewrite bind_Ok by (apply ld32_ok; pipe_unfold; done || lia).
Qed.

(** The full test compares the counters, which wrap around at 2^32. *)
Lemma pipe_full m pi ro wo q :
  pipe_at m pi ro wo q ->
  (ld32_at m (pi + PI_nwrite) =? u32 (ld32_at m (pi + PI_nread) + PIPESIZE)) =
  (Z.of_nat (length q) =? PIPESIZE).
Proof.
  intros [H1 H2 _ _ H5 _]. rewrite H2. pose proof (ld32_at_range m (pi + PI_nread)).
  destruct (Z.eqb_spec (Z.of_nat (length q)) PIPESIZE) as [->|Hne]; [apply Z.eqb_refl|].
  apply Z.eqb_neq. unfold u32, PIPESIZE in *. intros Heq. Z.to_euclidean_division_equations. lia.
Qed.

Lemma pipe_empty m pi ro wo q :
  pipe_at m pi ro wo q ->
  (ld32_at m (pi + PI_nread) =? ld32_at m (pi + PI_nwrite)) = bool_decide (q = []).
Proof.
  intros [H1 H2 _ _ H5 _]. rewrite H2. pose proof (ld32_at_range m (pi + PI_nread)).
  destruct q as [|b q].
  - rewrite bool_decide_true by done. apply Z.eqb_eq. unfold u32. simpl. dlia.
  - rewrite bool_decide_false by done. apply Z.eqb_neq. unfold u32, PIPESIZE in *. simpl in *.
    intros Heq. Z.to_euclidean_division_equations. lia.
Qed.

(** One iteration of [pipewrite] with room for a byte. *)
Lemma pipewrite_open_push pr p pi ro wo q T addr i pa s :
  page_ok pi -> procs s !! pr = Some p -> user_space pi (p_pagetable p) T (kmem s) ->
  pipe_at (kmem s) pi ro wo q -> Z.of_nat (length q) < PIPESIZE ->
  translate (kmem s) (p_pagetable p) (u64 (addr + i)) = Some pa ->
  pipewrite_open pr pi addr i (ld32_at (kmem s) (pi + PI_nread)) (ld32_at (kmem s) (pi + PI_nwrite)) s =
    Ok (inl (i + 1)) (set_mem (pipe_push (kmem s) pi (mget (kmem s) pa)) s).
Proof.
  intros Hpi Hp [Hpt Hup _ _] Hq Hlen Ht. unfold pipewrite_open.
  rewrite (pipe_full _ _ _ _ _ Hq). replace (_ =? _) with false by lia.
  erewrite bind_Ok by by apply getp_ok.
  pose proof (copyin_1 (p_pagetable p) T s (u64 (addr + i)) Hpt Hup (proj1 (u64_range _))) as Hc.
  rewrite Ht in Hc. rewrite (bind_Ok _ _ _ _ _ Hc). change (0 =? -1) with false. cbv iota.
  erewrite bind_Ok by (apply st32_ok; pipe_unfold; done || lia).
  pose proof (slot_range (ld32_at (kmem s) (pi + PI_nwrite))).
  erewrite bind_Ok.
  2:{ apply pwrite_ok. simpl. rewrite <- Z.add_assoc.
      apply in_ram_field; unfold PIPESIZE in *; pipe_unfold; done || lia. }
  unfold ret. kmem_simpl. done.
Qed.

(** At an unmapped address the writer leaves its loop. *)
Lemma pipewrite_open_fault pr p pi ro wo q T addr i s :
  procs s !! pr = Some p -> user_space pi (p_pagetable p) T (kmem s) ->
  pipe_at (kmem s) pi ro wo q -> Z.of_nat (length q) < PIPESIZE ->
  translate (kmem s) (p_pagetable p) (u64 (addr + i)) = None ->
  pipewrite_open pr pi addr i (ld32_at (kmem s) (pi + PI_nread)) (ld32_at (kmem s) (pi + PI_nwrite)) s =
    Ok (inr (Some i)) s.
Proof.
  intros Hp [Hpt Hup _ _] Hq Hlen Ht. unfold pipewrite_open.
  rewrite (pipe_full _ _ _ _ _ Hq). replace (_ =? _) with false by lia.
  erewrite bind_Ok by by apply getp_ok.
  pose proof (copyin_1 (p_pagetable p) T s (u64 (addr + i)) Hpt Hup (proj1 (u64_range _))) as Hc.
  rewrite Ht in Hc. destruct Hc as [bs Hc]. by rewrite (bind_Ok _ _ _ _ _ Hc).
Qed.

(** Process [pr] asleep on channel [ch], everybody on [woken] awake. *)
Definition asleep (pr : nat) (ch woken : kptr) (ps : list proc) : list proc :=
  match imap (wake_entry (Some pr) woken) ps !! pr with
  | Some p => <[pr := p.[p_chan := Some ch].[p_state := SLEEPING]]> (imap (wake_entry (Some pr) woken) ps)
  | None => ps
  end.

(** With no room the writer wakes the readers and goes to sleep. *)
Lemma pipewrite_open_full pr p pi ro wo q addr i s :
  length (procs s) = NPROC -> cproc s = Some pr -> procs s !! pr = Some p -> held s = [pi_lock pi] ->
  pipe_at (kmem s) pi ro wo q -> Z.of_nat (length q) = PIPESIZE ->
  exists k, pipewrite_open pr pi addr i
              (ld32_at (kmem s) (pi + PI_nread)) (ld32_at (kmem s) (pi + PI_nwrite)) s =
    Switched (s.[held := [plock pr]].[procs := asleep pr (nwrite_chan pi) (nread_chan pi) (procs s)]) k.
Proof.
  intros Hlp Hcp Hp Hl Hq Hlen. unfold pipewrite_open.
  rewrite (pipe_full _ _ _ _ _ Hq), Hlen, Z.eqb_refl.
  erewrite bind_Ok.
  2:{ apply wakeup_eq; [done|]. intros k _. rewrite Hl. by rewrite list_elem_of_singleton. }
  assert (Hpr : imap (wake_entry (Some pr) (nread_chan pi)) (procs s) !! pr = Some p).
  { rewrite list_lookup_imap, Hp. simpl. f_equal. unfold wake_entry. by rewrite bool_decide_true. }
  eexists. unfold bind at 1. rewrite Hcp. rewrite (sleep_eq _ _ _ pr p); [|done|exact Hpr|done|done].
  unfold asleep. rewrite Hpr. reflexivity.
Qed.

Lemma ubytes_frame pi root T m m' va n :
  user_space pi root T m -> page_ok pi -> (forall a, ~ in_page pi a -> mget m' a = mget m a) ->
  ubytes m' root va n = ubytes m root va n.
Proof.
  intros Hus Hpi Hfr. destruct (user_space_frame pi root T m m' Hpi Hfr Hus) as [_ Htr].
  revert va. induction n as [|n IH]; intros va; [done|]. simpl. rewrite Htr, IH.
  destruct (translate m root va) as [pa|] eqn:Ht; [|done].
  rewrite Hfr; [done|]. by eapply us_pipe.
Qed.

(** The loop of [pipewrite] on mapped memory. *)
Lemma pipewrite_loop pr p pi ro wo T addr n f i q s bs :
  page_ok pi -> length (procs s) = NPROC -> cproc s = Some pr ->
  procs s !! pr = Some p -> p_killed p = 0 -> held s = [pi_lock pi] ->
  user_space pi (p_pagetable p) T (kmem s) -> pipe_at (kmem s) pi ro wo q -> ro <> 0 ->
  0 <= addr -> 0 <= i -> i + Z.of_nat (length bs) = n -> (length bs < f)%nat ->
  ubytes (kmem s) (p_pagetable p) (addr + i) (length bs) = Some bs ->
  exists m', (forall a, ~ in_page pi a -> mget m' a = mget (kmem s) a) /\
    if decide (Z.of_nat (length q + length bs) <= PIPESIZE)
    then while f (pipewrite_body pr pi addr n) i s = Ok (Some n) (set_mem m' s) /\
         pipe_at m' pi ro wo (q ++ bs)
    else pipe_at m' pi ro wo (q ++ take (Z.to_nat PIPESIZE - length q) bs) /\
         exists k, while f (pipewrite_body pr pi addr n) i s =
           Switched (set_mem m' (s.[held := [plock pr]]
             .[procs := asleep pr (nwrite_chan pi) (nread_chan pi) (procs s)])) k.
Proof.
  revert i q s bs. induction f as [|f IH];
    intros i q s bs Hpi Hlp Hcp Hp Hk Hl Hus Hq Hro Ha Hi Hn Hf Hub; [lia|].
  pose proof (pa_len _ _ _ _ _ Hq) as Hql.
  destruct bs as [|b bs].
  { exists (kmem s). split; [done|]. simpl in *. rewrite Nat.add_0_r, decide_True by done.
    rewrite set_mem_id, app_nil_r. split; [|done].
    apply while_inr. unfold pipewrite_body. replace (i <? n) with false by lia.
    by replace n with i by lia. }
  cbn [length] in Hn, Hf. cbn [length ubytes] in Hub.
  destruct (translate (kmem s) (p_pagetable p) (addr + i)) as [pa|] eqn:Ht; [|done].
  destruct (ubytes (kmem s) (p_pagetable p) (addr + i + 1) (length bs)) as [bs'|] eqn:Hub'; [|done].
  injection Hub as Hb ->. rewrite <- Hb. clear Hb b.
  assert (Hu : u64 (addr + i) = addr + i).
  { apply translate_user in Ht. apply u64_small. by apply user_va_W64. }
  assert (Hbody : pipewrite_body pr pi addr n i s =
    pipewrite_open pr pi addr i (ld32_at (kmem s) (pi + PI_nread)) (ld32_at (kmem s) (pi + PI_nwrite)) s).
  { eapply pipewrite_body_open; eauto; [rewrite Hl; by rewrite list_elem_of_singleton|lia]. }
  destruct (decide (Z.of_nat (length q) = PIPESIZE)) as [Hfull|Hroom].
  - exists (kmem s). split; [done|]. rewrite decide_False by (simpl; lia). split.
    { replace (Z.to_nat PIPESIZE - length q)%nat with 0%nat by lia. rewrite take_0. by rewrite app_nil_r. }
    destruct (pipewrite_open_full pr p pi ro wo q addr i s) as [k Hk']; try done.
    eexists. cbn [while]. unfold bind. rewrite Hbody, Hk'. cbn [bindO].
    rewrite <- (set_mem_id s) at 1. reflexivity.
  - set (b := mget (kmem s) pa).
    assert (Hstep : pipewrite_body pr pi addr n i s = Ok (inl (i + 1)) (set_mem (pipe_push (kmem s) pi b) s)).
    { rewrite Hbody. eapply (pipewrite_open_push pr p pi ro wo q T); eauto; [lia|by rewrite Hu]. }
    rewrite (while_inl _ _ _ _ _ _ Hstep).
    assert (Hfr : forall a, ~ in_page pi a -> mget (pipe_push (kmem s) pi b) a = mget (kmem s) a)
      by (intros; by apply pipe_push_frame).
    destruct (user_space_frame pi (p_pagetable p) T _ _ Hpi Hfr Hus) as [Hus' _].
    destruct (IH (i + 1) (q ++ [b]) (set_mem (pipe_push (kmem s) pi b) s) bs) as (m' & Hm' & Hres); try done.
    + rewrite kmem_set_mem. apply pipe_push_ok; [apply mget_range|done|lia].
    + lia.
    + lia.
    + lia.
    + rewrite kmem_set_mem, (ubytes_frame pi _ T (kmem s)) by done. by rewrite Z.add_assoc.
    + rewrite kmem_set_mem in Hm'. rewrite !set_mem_set_mem in Hres.
      exists m'. split; [intros a Hna; by rewrite Hm', Hfr|].
      rewrite length_app in Hres. cbn [length] in *.
      destruct (decide (Z.of_nat (length q + S (length bs)) <= PIPESIZE)) as [Hd|Hd].
      * rewrite decide_True in Hres by lia. by rewrite <- app_assoc in Hres.
      * rewrite decide_False in Hres by lia. destruct Hres as [Hres [k Hk']].
        split; [|by exists k].
        replace (Z.to_nat PIPESIZE - length q)%nat with (S (Z.to_nat PIPESIZE - (length q + 1)))%nat by lia.
        cbn [take]. rewrite <- app_assoc in Hres. exact Hres.
Qed.

(** ** Reading *)

Lemma copyout_1 root T s va pa b :
  pt_ok (kmem s) root T -> user_pages (kmem s) root T -> 0 <= va -> byte_ok b ->
  translate (kmem s) root va = Some pa ->
  exists m', copyout root va [b] s = Ok 0 (set_mem m' s) /\
    mget m' pa = b /\ (forall a, a <> pa -> mget m' a = mget (kmem s) a) /\
    (forall a, translate m' root a = translate (kmem s) root a).
Proof.
  intros Hok Hup Hva Hb Ht.
  destruct (copyout_loop root T 2 va [b] s Hok Hup Hva ltac:(simpl; lia)) as (r & m' & H1 & H2 & H3 & H4).
  cbn [length ubytes] in H4. rewrite Ht in H4. destruct H4 as [-> H4]. exists m'.
  split; [exact H1|]. split; [|split].
  - rewrite H3, Ht in H4. specialize (H4 ltac:(intros a c p Ha Hc; lia) ltac:(by constructor)).
    by injection H4.
  - intros a Ha. apply H2. intros v Hv. replace v with va by (simpl in Hv; lia). congruence.
  - done.
Qed.

(** A user write to the translated byte keeps page table, user space and pipe. *)
Lemma user_write_keeps pi root T m m' va pa ro wo q :
  page_ok pi -> user_space pi root T m -> translate m root va = Some pa -> 0 <= va ->
  (forall a, a <> pa -> mget m' a = mget m a) ->
  user_space pi root T m' /\ (pipe_at m pi ro wo q -> pipe_at m' pi ro wo q).
Proof.
  intros Hpi [H1 H2 H3 H4] Ht Hva Hfr.
  assert (Hpage : exists p, page_ok p /\ p ∉ dom T /\ in_page p pa).
  { unfold translate in Ht. case_bool_decide as Hu; [|done].
    destruct (has _ PTE_V) eqn:Hv; [|done]. destruct (has _ PTE_U) eqn:HU; [|done].
    injection Ht as <-. destruct (H2 va Hu Hv HU) as [Hpo HpT]. eexists. split; [exact Hpo|].
    split; [done|]. unfold in_page, PGSIZE. dlia. }
  destruct Hpage as (p & Hpo & HpT & Hin).
  assert (HT : forall r a, r ∈ dom T -> in_page r a -> mget m' a = mget m a).
  { intros r a Hr Ha. apply Hfr. intros ->. apply elem_of_dom in Hr as Hr'. destruct Hr' as [x Hx].
    eapply (page_disjoint r p pa); [by eapply pt_ok_page|done|by intros ->|done|done]. }
  destruct (user_write_translate m root T m' H1 HT) as [Htr Hup].
  split; [split; [by eapply pt_ok_frame|by apply Hup|done|]|].
  - intros v a. rewrite Htr. apply H4.
  - apply pipe_at_frame. intros a Ha. apply Hfr. intros ->. by apply (H4 va pa).
Qed.

(** One iteration of the copy loop of [piperead]. *)
Lemma piperead_body_pop pr p pi ro wo b q T addr n i pa s :
  page_ok pi -> procs s !! pr = Some p -> user_space pi (p_pagetable p) T (kmem s) ->
  pipe_at (kmem s) pi ro wo (b :: q) -> i < n ->
  translate (kmem s) (p_pagetable p) (u64 (addr + i)) = Some pa ->
  exists m', piperead_body pr pi addr n i s = Ok (inl (i + 1)) (set_mem m' s) /\
    pipe_at m' pi ro wo q /\ user_space pi (p_pagetable p) T m' /\ mget m' pa = b /\
    (forall a, a <> pa -> ~ in_page pi a -> mget m' a = mget (kmem s) a) /\
    (forall a, translate m' (p_pagetable p) a = translate (kmem s) (p_pagetable p) a).
Proof.
  intros Hpi Hp Hus Hq Hi Ht. unfold piperead_body. replace (i <? n) with true by lia. cbn [negb].
  erewrite bind_Ok by (apply ld32_ok; pipe_unfold; done || lia).
  erewrite bind_Ok by (apply ld32_ok; pipe_unfold; done || lia).
  rewrite (pipe_empty _ _ _ _ _ Hq), bool_decide_false by done.
  erewrite bind_Ok by (apply st32_ok; pipe_unfold; done || lia).
  fold (pipe_pop (kmem s) pi). set (m1 := pipe_pop (kmem s) pi).
  pose proof (slot_range (ld32_at (kmem s) (pi + PI_nread))) as Hs.
  erewrite bind_Ok.
  2:{ apply pread_ok. rewrite <- Z.add_assoc.
      apply in_ram_field; unfold PIPESIZE in *; pipe_unfold; done || lia. }
  rewrite kmem_set_mem.
  assert (Hch : mread m1 (pi + PI_data + ld32_at (kmem s) (pi + PI_nread) mod PIPESIZE) 1 = [b]).
  { rewrite mread_S. f_equal. unfold m1, pipe_pop. rewrite mwrite_frame.
    - pose proof (pa_data _ _ _ _ _ Hq 0 b eq_refl) as Hd. by rewrite Z.add_0_r in Hd.
    - rewrite le_split_length. unfold PIPESIZE in *. pipe_unfold. lia. }
  rewrite Hch. erewrite bind_Ok by by apply getp_ok.
  assert (Hfr1 : forall a, ~ in_page pi a -> mget m1 a = mget (kmem s) a)
    by (intros; by apply pipe_pop_frame).
  destruct (user_space_frame pi _ T (kmem s) m1 Hpi Hfr1 Hus) as [Hus1 Htr1].
  assert (Hb : byte_ok b).
  { rewrite <- (pa_data _ _ _ _ _ Hq 0 b eq_refl). apply mget_range. }
  destruct (copyout_1 (p_pagetable p) T (set_mem m1 s) (u64 (addr + i)) pa b) as (m' & H1 & H2 & H3 & H4);
    rewrite ?kmem_set_mem; try apply Hus1; try done; [by apply u64_range|by rewrite Htr1|].
  rewrite kmem_set_mem in H3, H4. rewrite set_mem_set_mem in H1.
  rewrite (bind_Ok _ _ _ _ _ H1). exists m'.
  destruct (user_write_keeps pi _ T m1 m' (u64 (addr + i)) pa ro wo q Hpi Hus1) as [Hus' Hq'];
    [by rewrite Htr1|by apply u64_range|done|].
  split; [done|]. split; [apply Hq'; by eapply pipe_pop_ok|]. split; [done|]. split; [done|]. split.
  - intros a Ha1 Ha2. by rewrite H3, Hfr1.
  - intros a. by rewrite H4, Htr1.
Qed.

Lemma piperead_loop pr p pi ro wo T addr n f i q1 q2 s :
  page_ok pi -> procs s !! pr = Some p ->
  user_space pi (p_pagetable p) T (kmem s) -> pipe_at (kmem s) pi ro wo (q1 ++ q2) ->
  0 <= addr -> 0 <= i -> i + Z.of_nat (length q1) <= n ->
  (i + Z.of_nat (length q1) = n \/ q2 = []) -> (length q1 < f)%nat ->
  is_Some (ubytes (kmem s) (p_pagetable p) (addr + i) (length q1)) ->
  inj_range (kmem s) (p_pagetable p) (addr + i) (length q1) ->
  exists m', while f (piperead_body pr pi addr n) i s =
      Ok (i + Z.of_nat (length q1)) (set_mem m' s) /\
    pipe_at m' pi ro wo q2 /\
    ubytes m' (p_pagetable p) (addr + i) (length q1) = Some q1 /\
    (forall a, translate m' (p_pagetable p) a = translate (kmem s) (p_pagetable p) a) /\
    (forall a, ~ in_page pi a ->
       (forall v, addr + i <= v < addr + i + Z.of_nat (length q1) ->
          translate (kmem s) (p_pagetable p) v <> Some a) -> mget m' a = mget (kmem s) a).
Proof.
  revert i q1 s. induction f as [|f IH]; intros i q1 s Hpi Hp Hus Hq Ha Hi Hn Hend Hf Hub Hinj; [lia|].
  destruct q1 as [|b q1].
  { exists (kmem s). rewrite set_mem_id. cbn [length] in *. rewrite Z.add_0_r in *. split; [|done].
    apply while_inr. unfold piperead_body. destruct (i <? n) eqn:Hlt; [|done]. cbn [negb].
    erewrite bind_Ok by (apply ld32_ok; pipe_unfold; done || lia).
    erewrite bind_Ok by (apply ld32_ok; pipe_unfold; done || lia).
    rewrite (pipe_empty _ _ _ _ _ Hq). destruct Hend as [| ->]; [lia|]. by rewrite bool_decide_true. }
  cbn [length ubytes] in *.
  destruct (translate (kmem s) (p_pagetable p) (addr + i)) as [pa|] eqn:Ht; [|by destruct Hub].
  destruct (ubytes (kmem s) (p_pagetable p) (addr + i + 1) (length q1)) as [bs|] eqn:Hub';
    [|by destruct Hub].
  assert (Hu : u64 (addr + i) = addr + i).
  { apply translate_user in Ht. apply u64_small. by apply user_va_W64. }
  destruct (piperead_body_pop pr p pi ro wo b (q1 ++ q2) T addr n i pa s) as (m1 & H1 & H2 & H3 & H4 & H5 & H6);
    try done; [lia|by rewrite Hu|].
  destruct (IH (i + 1) q1 (set_mem m1 s)) as (m' & K1 & K2 & K3 & K4 & K5);
    rewrite ?kmem_set_mem in *; try done; try lia.
  - destruct Hend as [?|?]; [left; lia|by right].
  - apply (ubytes_is_Some_ext (kmem s)); [done|]. rewrite Z.add_assoc, Hub'. eauto.
  - intros x y z Hx Hy. rewrite !H6. apply Hinj; lia.
  - exists m'. rewrite (while_inl _ _ _ _ _ _ H1), K1. rewrite set_mem_set_mem.
    split; [f_equal; lia|]. split; [done|]. rewrite Z.add_assoc in K3.
    split; [|split].
    + rewrite K4, H6, Ht, K3. do 2 f_equal. rewrite K5; [done| |].
      * exact (us_pipe _ _ _ _ Hus _ _ Ht).
      * intros v Hv. rewrite H6. intros Hva. assert (addr + i = v); [|lia].
        eapply (Hinj _ _ pa); [lia|lia|done|done].
    + intros a. by rewrite K4, H6.
    + intros a Hna Hv. rewrite K5, H5; try done.
      * intros ->. by apply (Hv (addr + i)); [lia|].
      * intros v Hv'. rewrite H6. apply Hv. lia.
Qed.

(** ** The pipe as a bounded FIFO queue *)

(** The situation in which a system call reaches the pipe. *)
Record pipe_call (pr : nat) (p : proc) (pi : Z) T s : Prop := {
  pc_page : page_ok pi;
  pc_procs : length (procs s) = NPROC;
  pc_cur : cproc s = Some pr;
  pc_proc : procs s !! pr = Some p;
  pc_alive : p_killed p = 0;
  pc_held : held s = [];
  pc_user : user_space pi (p_pagetable p) T (kmem s);
}.

(** Processes asleep on [ch] made runnable by [pr]. *)
Definition awakened (pr : nat) (ch : kptr) s : St :=
  s.[procs := imap (wake_entry (Some pr) ch) (procs s)].

Lemma finish_call pr pi ch (r : Z) s :
  length (procs s) = NPROC -> cproc s = Some pr -> held s = [pi_lock pi] ->
  (wakeup ch;;; release (pi_lock pi);;; ret r) s = Ok r ((awakened pr ch s).[held := []]).
Proof.
  intros Hlp Hc Hl. erewrite bind_Ok.
  2:{ apply wakeup_eq; [done|]. intros k _. rewrite Hl. by rewrite list_elem_of_singleton. }
  erewrite bind_Ok by (apply (release_ok _ []); [done|apply not_elem_of_nil]). by rewrite Hc.
Qed.

(** C21: on a pipe with a reader, [pipewrite] of mapped user bytes appends them
    in order: all of them when they fit (it then wakes the readers and
    returns the count), and otherwise exactly as many as the 512-byte buffer
    takes before it wakes the readers and goes to sleep, without the pipe's
    lock, until one makes room.  Only the pipe's page changes. *)
Theorem pipewrite_spec w pr p pi ro wo q T addr bs s :
  pipe_call pr p pi T s -> pipe_at (kmem s) pi ro wo q -> ro <> 0 -> 0 <= addr ->
  ubytes (kmem s) (p_pagetable p) addr (length bs) = Some bs ->
  exists m', (forall a, ~ in_page pi a -> mget m' a = mget (kmem s) a) /\
    if decide (Z.of_nat (length q + length bs) <= PIPESIZE)
    then pipe_at m' pi ro wo (q ++ bs) /\
         pipewrite w pi addr (Z.of_nat (length bs)) s =
           Ok (Z.of_nat (length bs)) (set_mem m' (awakened pr (nread_chan pi) s))
    else pipe_at m' pi ro wo (q ++ take (Z.to_nat PIPESIZE - length q) bs) /\
         exists k, pipewrite w pi addr (Z.of_nat (length bs)) s =
           Switched (set_mem m' (s.[held := [plock pr]]
             .[procs := asleep pr (nwrite_chan pi) (nread_chan pi) (procs s)])) k.
Proof.
  intros [Hpi Hlp Hc Hp Hk Hh Hus] Hq Hro Ha Hub.
  destruct (pipewrite_loop pr p pi ro wo T addr (Z.of_nat (length bs)) (S (w + length bs)) 0 q
              (s.[held := [pi_lock pi]]) bs) as (m' & Hfr & Hres);
    try done; [lia|by rewrite Z.add_0_r|]. exists m'. split; [done|].
  unfold pipewrite. rewrite Nat2Z.id. case_decide as Hd.
  - destruct Hres as [Hrun Hq']. split; [done|].
    erewrite bind_Ok by by apply curproc_ok.
    erewrite bind_Ok by (rewrite acquire_ok by (rewrite Hh; apply not_elem_of_nil); by rewrite Hh).
    rewrite (bind_Ok _ _ _ _ _ Hrun). erewrite finish_call; [|done|exact Hc|done].
    unfold awakened, set_mem, upd_field; simpl. by rewrite Hh.
  - destruct Hres as (Hq' & k & Hrun). split; [done|].
    erewrite bind_Ok by by apply curproc_ok.
    erewrite bind_Ok by (rewrite acquire_ok by (rewrite Hh; apply not_elem_of_nil); by rewrite Hh).
    unfold bind at 1. rewrite Hrun. cbn [bindO]. eexists. reflexivity.
Qed.

(** C23: [piperead] delivers the oldest bytes of the pipe, in order, to the
    user's memory and removes exactly those, as many as were asked for and
    are there; it then wakes the writers.  On an empty pipe it returns 0 if
    there is no writer and sleeps, without the pipe's lock, if there is. *)
Theorem piperead_spec w pr p pi ro wo q1 q2 T addr n s :
  pipe_call pr p pi T s -> pipe_at (kmem s) pi ro wo (q1 ++ q2) -> 0 <= addr ->
  Z.of_nat (length q1) <= n -> (Z.of_nat (length q1) = n \/ q2 = []) ->
  is_Some (ubytes (kmem s) (p_pagetable p) addr (length q1)) ->
  inj_range (kmem s) (p_pagetable p) addr (length q1) ->
  if decide (q1 ++ q2 <> [] \/ wo = 0)
  then exists m', piperead w pi addr n s =
           Ok (Z.of_nat (length q1)) (set_mem m' (awakened pr (nwrite_chan pi) s)) /\
         pipe_at m' pi ro wo q2 /\
         ubytes m' (p_pagetable p) addr (length q1) = Some q1 /\
         (forall a, ~ in_page pi a ->
            (forall v, addr <= v < addr + Z.of_nat (length q1) ->
               translate (kmem s) (p_pagetable p) v <> Some a) -> mget m' a = mget (kmem s) a)
  else exists k, piperead w pi addr n s =
         Switched (s.[held := [plock pr]]
           .[procs := <[pr := p.[p_chan := Some (nread_chan pi)].[p_state := SLEEPING]]> (procs s)]) k.
Proof.
  intros [Hpi Hlp Hc Hp Hk Hh Hus] Hq Ha Hn Hend Hub Hinj. unfold piperead.
  set (s1 := s.[held := [pi_lock pi]]).
  assert (Hacq : acquire (pi_lock pi) s = Ok tt s1)
    by (rewrite acquire_ok by (rewrite Hh; apply not_elem_of_nil); by rewrite Hh).
  assert (Hhead : piperead_wait pr pi s1 =
    (if bool_decide (q1 ++ q2 = []) && negb (wo =? 0) then
       sleep (nread_chan pi) (pi_lock pi);;; ret (inl tt) else ret (inr true)) s1).
  { unfold piperead_wait.
    erewrite bind_Ok by (apply ld32_ok; pipe_unfold; done || lia).
    erewrite bind_Ok by (apply ld32_ok; pipe_unfold; done || lia).
    erewrite bind_Ok by (apply ld32_ok; pipe_unfold; done || lia).
    change (kmem s1) with (kmem s). rewrite (pipe_empty _ _ _ _ _ Hq), (pa_wo _ _ _ _ _ Hq).
    destruct (bool_decide _ && _); [|done].
    erewrite bind_Ok by (apply killed_ok; [done|simpl; by rewrite list_elem_of_singleton]).
    by rewrite Hk. }
  case_decide as Hd.
  - assert (Hcond : bool_decide (q1 ++ q2 = []) && negb (wo =? 0) = false).
    { destruct Hd as [Hd|Hd]; [by rewrite bool_decide_false|]. subst. by rewrite andb_false_r. }
    rewrite Hcond in Hhead.
    destruct (piperead_loop pr p pi ro wo T addr n (S (Z.to_nat n)) 0 q1 q2 s1) as (m' & K1 & K2 & K3 & K4 & K5);
      try done; try lia; try (by rewrite Z.add_0_r).
    rewrite Z.add_0_r in *. exists m'. split; [|done].
    erewrite bind_Ok by by apply curproc_ok.
    rewrite (bind_Ok _ _ _ _ _ Hacq). erewrite bind_Ok by by apply while_inr.
    cbn [bindO]. rewrite (bind_Ok _ _ _ _ _ K1). erewrite finish_call; [|done|exact Hc|done].
    unfold awakened, set_mem, upd_field; simpl. rewrite Hh. done.
  - assert (Hcond : bool_decide (q1 ++ q2 = []) && negb (wo =? 0) = true).
    { apply andb_true_intro. split; [apply bool_decide_true; by destruct (q1 ++ q2); [|exfalso; apply Hd; left]|].
      apply negb_true_iff, Z.eqb_neq. intros ->. apply Hd. by right. }
    rewrite Hcond in Hhead.
    erewrite bind_Ok by by apply curproc_ok.
    rewrite (bind_Ok _ _ _ _ _ Hacq). cbn [while].
    unfold bind at 1, bind at 1. rewrite Hhead.
    unfold bind at 1. rewrite (sleep_eq _ _ s1 pr p) by done. cbn [bindO].
    eexists. unfold s1, upd_field; simpl. reflexivity.
Qed.
End pipe_exec.

(** ** Witnesses: three bytes through an empty pipe *)

Definition dH : Z := 0x80029000.
Definition demo_pipe_mem : gmap Z Z :=
  mwrite (mwrite demo_pt_mem (dH + PI_readopen) (le_split 4 1)) (dH + PI_writeopen) (le_split 4 1).
Definition demo_pipe_proc : proc := proc_zero.[p_state := RUNNING].[p_pagetable := dR].
Definition demo_pipe_kst : Kst (KMem unit) :=
  KSt [] (Some 0%nat) (demo_pipe_proc :: replicate 63 proc_zero) 2 None 0
    (KM demo_pipe_mem dF 0 tt).

Lemma dH_page : @page_ok demo_image dH.
Proof. apply (bool_decide_unpack _). by vm_compute. Qed.

Lemma demo_translate va pa :
  translate demo_pt_mem dR va = Some pa -> 0 <= va < PGSIZE /\ pa = dP + va.
Proof.
  unfold translate. case_bool_decide as Hu; [|done]. rewrite demo_lookup by done.
  case_decide as Hz; [|by rewrite has_zero].
  change (has (leaf_pte dP 0x16) PTE_V && has (leaf_pte dP 0x16) PTE_U) with true. cbv iota.
  change (PTE2PA (leaf_pte dP 0x16)) with dP. intros [= <-].
  unfold user_va, PGSIZE in *. split; [dlia|]. rewrite Z.mod_small; [done|dlia].
Qed.

Lemma demo_translate_in va : 0 <= va < PGSIZE -> translate demo_pt_mem dR va = Some (dP + va).
Proof.
  intros Hva. assert (Hu : user_va va) by (unfold user_va, MAXVA, PGSIZE in *; lia).
  unfold translate. rewrite bool_decide_true, demo_lookup by done.
  rewrite decide_True by (unfold PGSIZE in *; dlia). rewrite Z.mod_small by done. reflexivity.
Qed.

Lemma demo_pipe_frame a : ~ in_page dH a -> mget demo_pipe_mem a = mget demo_pt_mem a.
Proof.
  intros Ha. unfold demo_pipe_mem. unfold in_page, PGSIZE in Ha.
  rewrite (mwrite_frame _ (dH + PI_writeopen)) by (rewrite le_split_length; unfold PI_writeopen; lia).
  by rewrite mwrite_frame by (rewrite le_split_length; unfold PI_readopen; lia).
Qed.

Lemma demo_user_space : @user_space demo_image dH dR demo_T demo_pipe_mem.
Proof.
  refine (proj1 (user_space_frame dH dR demo_T demo_pt_mem demo_pipe_mem dH_page demo_pipe_frame _)).
  split; [apply demo_pt_ok|apply demo_user_pages| |].
  - apply (bool_decide_unpack _). by vm_compute.
  - intros va pa [Hva ->]%demo_translate. unfold in_page, PGSIZE, dP, dH in *. lia.
Qed.

Lemma demo_pipe_translate va : translate demo_pipe_mem dR va = translate demo_pt_mem dR va.
Proof.
  refine (proj2 (user_space_frame dH dR demo_T demo_pt_mem demo_pipe_mem dH_page demo_pipe_frame _) va).
  split; [apply demo_pt_ok|apply demo_user_pages| |].
  - apply (bool_decide_unpack _). by vm_compute.
  - intros v pa [Hva ->]%demo_translate. unfold in_page, PGSIZE, dP, dH in *. lia.
Qed.

Lemma demo_pipe_call : @pipe_call demo_image unit 0 demo_pipe_proc dH demo_T demo_pipe_kst.
Proof. split; [apply dH_page|done|done|done|done|done|apply demo_user_space]. Qed.

Lemma demo_pipe_at q :
  q = [] -> pipe_at demo_pipe_mem dH 1 1 q.
Proof.
  intros ->. split; [apply ld32_at_range|by vm_compute|by vm_compute|by vm_compute|by vm_compute|].
  intros k b Hk. by rewrite lookup_nil in Hk.
Qed.

Lemma pipewrite_spec_witness :
  exists m', @pipewrite unit 1 dH 10 3 demo_pipe_kst =
      Ok 3 (set_mem m' (awakened 0 (nread_chan dH) demo_pipe_kst)) /\
    pipe_at m' dH 1 1 [0; 0; 0].
Proof.
  destruct (@pipewrite_spec demo_image demo_image_ok unit 1 0 demo_pipe_proc dH 1 1 [] demo_T 10 [0; 0; 0]
    demo_pipe_kst demo_pipe_call (demo_pipe_at [] eq_refl) ltac:(lia) ltac:(lia)) as (m' & _ & H).
  - change (kmem demo_pipe_kst) with demo_pipe_mem. change (p_pagetable demo_pipe_proc) with dR.
    cbn [length ubytes]. rewrite !demo_pipe_translate, !demo_translate_in by (unfold PGSIZE; lia).
    rewrite !demo_pipe_frame by (unfold in_page, PGSIZE, dP, dH; lia). by vm_compute.
  - rewrite decide_True in H by (by vm_compute). destruct H as [H1 H2].
    exists m'. split; [exact H2|exact H1].
Defined.

Lemma piperead_spec_witness :
  exists k, @piperead unit 1 dH 10 3 demo_pipe_kst =
    Switched (demo_pipe_kst.[held := [plock 0]]
      .[procs := <[0%nat := demo_pipe_proc.[p_chan := Some (nread_chan dH)].[p_state := SLEEPING]]>
                   (procs demo_pipe_kst)]) k.
Proof.
  pose proof (@piperead_spec demo_image demo_image_ok unit 1 0 demo_pipe_proc dH 1 1 [] [] demo_T 10 3
    demo_pipe_kst demo_pipe_call (demo_pipe_at [] eq_refl) ltac:(lia) ltac:(simpl; lia)
    (or_intror eq_refl) ltac:(simpl; eauto) ltac:(intros a b p Ha; simpl in Ha; lia)) as H.
  rewrite decide_False in H by (by intros [?|?]). exact H.
Defined.
