(* ===== verification/ProcThm.v ===== *)
(** Runs of the process and kernel-thread code on a small machine: how [fork],
    [thread_create] and [wait] behave when memory runs out or a thread exits.
    Three of them exhibit defects of the thread extension, where the pages a
    thread shares with its leader are freed under the leader. *)

From S2P Require Import Prelude CInt Machine KString Sched Kalloc Vm VmSpec VmThm Proc Pipe.

(** No files are open in these runs. *)
#[local] Instance no_files : FileLayer unit := {|
  filedup f := ret f; fileclose _ := ret tt; idup i := ret i; iput _ := ret tt;
  begin_op := ret tt; end_op := ret tt; namei _ := ret None
|}.

(** A free list of the pages [l]. *)
Fixpoint free_pages (l : list Z) (m : gmap Z Z) : gmap Z Z :=
  match l with
  | [] => m
  | [p] => mwrite m p (le_split 8 0)
  | p :: (q :: _) as l => free_pages l (mwrite m p (le_split 8 q))
  end.

(** The pages on the free list from [p] on. *)
Fixpoint on_freelist (fuel : nat) (m : gmap Z Z) (p : Z) : list Z :=
  match fuel with
  | O => []
  | S fuel => if p =? 0 then [] else p :: on_freelist fuel m (le_combine (mread m p 8))
  end.

(** Process 0 has one page, [dP], mapped writable at address 0. *)
Definition demo_leader : proc :=
  proc_zero.[p_state := RUNNING].[p_pagetable := dR].[p_sz := PGSIZE].[p_pid := 1].[p_cwd := Some 1%nat]
    .[p_trapframe := 0x80029000].
Definition demo_leader_mem : gmap Z Z :=
  mwrite (mwrite (mwrite ∅
    (dB + 8 * 0) (le_split 8 (leaf_pte dP 0x16)))
    (dA + 8 * 0) (le_split 8 (leaf_pte dB 0)))
    (dR + 8 * 0) (le_split 8 (leaf_pte dA 0)).
Definition demo_pages (n : nat) : list Z := (fun i => 0x8002A000 + PGSIZE * Z.of_nat i) <$> seq 0 n.

(** The same with [n] pages free. *)
Definition demo_threads (n : nat) : Kst (KMem unit) :=
  KSt [] (Some 0%nat) (demo_leader :: replicate 63 proc_zero) 2 (Some 5%nat) 0
    (KM (free_pages (demo_pages n) demo_leader_mem) (if n is O then 0 else 0x8002A000) 0 tt).

(** What a call returns, whether the leader's page is still mapped at address
    0, and whether it is on the free list; or the panic message. *)
Definition observe (o : outcome (Kst (KMem unit)) Z) : Z * bool * bool + string :=
  match o with
  | Ok r s => inl (r, bool_decide (translate (kmem s) dR 0 = Some dP),
                   bool_decide (dP ∈ on_freelist 64 (kmem s) (freelist (krest s))))
  | Panic m => inr m
  | _ => inr "no result"%string
  end.

(** With enough memory a thread is created, with the process id 2, and shares
    the leader's page. *)
Example thread_create_shares :
  observe (@thread_create demo_image unit no_files 0 0 0 (demo_threads 8)) = inl (2, true, false).
Proof. by vm_compute. Qed.

(** When memory runs out in [thread_create]'s stack allocation, its error path
    frees the page that the caller still has mapped: [freeproc] unmaps
    [np->sz] bytes and frees the physical pages, which are the leader's. *)
Example thread_create_failure_frees_leader_page :
  observe (@thread_create demo_image unit no_files 0 0 0 (demo_threads 6)) =
    inl (u64 (-1), true, true).
Proof. by vm_compute. Qed.

(** One page less, and the same call panics, since [freeproc] unmaps pages
    that were never shared. *)
Example thread_create_failure_panics :
  observe (@thread_create demo_image unit no_files 0 0 0 (demo_threads 5)) =
    inr "uvmunmap: walk"%string.
Proof. by vm_compute. Qed.

(** [fork], which sets [np->sz] only after the copy, fails cleanly. *)
Example fork_failure_is_clean :
  observe (@fork demo_image unit no_files (demo_threads 6)) = inl (-1, true, false) /\
  observe (@fork demo_image unit no_files (demo_threads 5)) = inl (-1, true, false).
Proof. split; by vm_compute. Qed.

(** The leader has created thread 1, which has run and become a zombie: by
    [exit] of a killed process, as a state change ... *)
Definition killed_thread (s : Kst (KMem unit)) : Kst (KMem unit) :=
  s.[procs := alter (fun q => q.[p_state := ZOMBIE]) 1%nat (procs s)].

(** ... or by [thread_exit], after which the scheduler goes back to the
    leader. *)
Definition exited_thread (s : Kst (KMem unit)) : option (Kst (KMem unit)) :=
  let s1 := s.[cproc := Some 1%nat]
             .[procs := alter (fun q => q.[p_state := RUNNING]) 1%nat (procs s)] in
  match @thread_exit demo_image unit no_files s1 with
  | Switched s2 _ => Some (s2.[held := []].[cproc := Some 0%nat])
  | _ => None
  end.

(** [wait] by the leader then reaps the thread with [freeproc], which frees
    the leader's own page ... *)
Example wait_reaps_thread_frees_leader_page :
  match @thread_create demo_image unit no_files 0 0 0 (demo_threads 8) with
  | Ok _ s =>
      match exited_thread s with
      | Some s => observe (@Proc.wait demo_image unit 1 0 s)
      | None => inr "no exit"%string
      end
  | _ => inr "no thread"%string
  end = inl (2, true, true).
Proof. by vm_compute. Qed.

(** ... or, if the thread was killed with its stack still mapped, panics. *)
Example wait_for_killed_thread_panics :
  match @thread_create demo_image unit no_files 0 0 0 (demo_threads 8) with
  | Ok _ s => observe (@Proc.wait demo_image unit 1 0 (killed_thread s))
  | _ => inr "no thread"%string
  end = inr "freewalk: leaf"%string.
Proof. by vm_compute. Qed.
