(* ===== verification/File.v ===== *)
(** Open files (kernel/file.c) and the part of kernel/pipe.c that makes them.
    This file supplies the file-system interface of [Proc]. *)

From S2P Require Import Prelude CInt Machine KString Sched Sleeplock Kalloc Vm Proc Pipe Bio Log Fs.

(** ** kernel/file.h *)

Inductive ftype := FD_NONE | FD_PIPE | FD_INODE | FD_DEVICE.
#[export] Instance ftype_eq_dec : EqDecision ftype.
Proof. solve_decision. Defined.

Record file := File {
  f_type : ftype;
  f_ref : Z;
  f_readable : Z;
  f_writable : Z;
  f_pipe : Z;
  f_ip : option nat;
  f_off : Z;
  f_major : Z;
}.
#[export] Instance eta_file : Eta file := fun f =>
  File (f_type f) (f_ref f) (f_readable f) (f_writable f) (f_pipe f) (f_ip f) (f_off f) (f_major f).
Definition file_zero : file := File FD_NONE 0 0 0 0 None 0 0.

Record FileSt (R : Type) := FileS { ftable : list file; filerest : R }.
Arguments FileS {R}. Arguments ftable {R}. Arguments filerest {R}.
#[export] Instance eta_filest R : Eta (FileSt R) := fun s => FileS (ftable s) (filerest s).

#[export] Program Instance files_layer {A R} {L : Layer A R} : Layer A (FileSt R) := {|
  layer_get k := layer_get (filerest k);
  layer_set a k := k.[filerest := layer_set a (filerest k)];
|}.
Next Obligation. intros. apply layer_get_set. Qed.
Next Obligation. intros. unfold upd_field; simpl. by rewrite layer_set_set. Qed.
Next Obligation. intros A R L []. unfold upd_field; simpl. by rewrite layer_set_get. Qed.

Definition ftable_lock : kptr := KSym "ftable" 0.

Abbreviation KState R := (Kst (KMem (BioSt (LogSt (FsSt (FileSt R)))))).

(** [devsw[]]: the read and write functions of a major number, if any, from or
    to user memory. *)
Class Devices (R : Type) := {
  devsw_read : Z -> option (Z -> Z -> M (KState R) Z);
  devsw_write : Z -> option (Z -> Z -> M (KState R) Z);
}.

Section file.
Context {img : KernelImage} {R : Type} {dd : DiskDriver (LogSt (FsSt (FileSt R)))}
  {dev : Devices R} {pt : Patience}.
Abbreviation St := (KState R).

Definition filest (s : St) : FileSt R := fsrest (fsst s).
Definition getfiles : M St (FileSt R) := gets filest.
Definition getf (f : nat) : M St file := let* t := getfiles in deref (ftable t !! f).
Definition modf (f : nat) (g : file -> file) : M St unit :=
  let* x := getf f in
  modfs (fun t => t.[fsrest := (fsrest t).[ftable := <[f := g x]> (ftable (fsrest t))]]).

(** [initlock] leaves the lock free, the initial condition. *)
Definition fileinit : M St unit := ret tt.

Definition filealloc : M St (option nat) :=
  acquire ftable_lock;;;
  let* r := mloop (seq 0 NFILE) (fun f =>
    let* x := getf f in
    if f_ref x =? 0 then
      modf f (fun x => x.[f_ref := 1]);;;
      release ftable_lock;;;
      ret (Some f)
    else ret None) in
  match r with
  | Some f => ret (Some f)
  | None => release ftable_lock;;; ret None
  end.

Definition filedup (f : nat) : M St nat :=
  acquire ftable_lock;;;
  let* x := getf f in
  if f_ref x <? 1 then panic "filedup" else
  modf f (fun x => x.[f_ref := f_ref x + 1]);;;
  release ftable_lock;;;
  ret f.

Definition fileclose (f : nat) : M St unit :=
  acquire ftable_lock;;;
  let* x := getf f in
  if f_ref x <? 1 then panic "fileclose" else
  modf f (fun x => x.[f_ref := f_ref x - 1]);;;
  let* ff := getf f in
  if 0 <? f_ref ff then release ftable_lock else
  modf f (fun x => x.[f_ref := 0]);;;
  modf f (fun x => x.[f_type := FD_NONE]);;;
  release ftable_lock;;;
  match f_type ff with
  | FD_PIPE => pipeclose (f_pipe ff) (negb (f_writable ff =? 0))
  | FD_INODE | FD_DEVICE =>
      begin_op;;;
      let* ip := deref (f_ip ff) in
      iput ip;;;
      end_op
  | FD_NONE => ret tt
  end.

(** kernel/pipe.c; the two files, or -1. *)
Definition pipealloc : M St (option (nat * nat)) :=
  let* f0 := filealloc in
  match f0 with
  | None => ret None
  | Some a =>
      let* f1 := filealloc in
      match f1 with
      | None => fileclose a;;; ret None
      | Some b =>
          let* pi := kalloc in
          if pi =? 0 then fileclose a;;; fileclose b;;; ret None else
          pipe_init pi;;;
          modf a (fun x => x.[f_type := FD_PIPE].[f_readable := 1].[f_writable := 0].[f_pipe := pi]);;;
          modf b (fun x => x.[f_type := FD_PIPE].[f_readable := 0].[f_writable := 1].[f_pipe := pi]);;;
          ret (Some (a, b))
      end
  end.

(** [struct stat] in memory; the four padding bytes are whatever the stack
    held. *)
Definition stat_bytes (st : stat) (pad : list Z) : list Z :=
  le_split 4 (u32 (st_dev st)) ++ le_split 4 (st_ino st) ++ le_split 2 (u16 (st_type st)) ++
  le_split 2 (u16 (st_nlink st)) ++ pad ++ le_split 8 (st_size st).

Definition filestat (pad : list Z) (f : nat) (addr : Z) : M St Z :=
  let* p := curproc in
  let* x := getf f in
  match f_type x with
  | FD_INODE | FD_DEVICE =>
      let* ip := deref (f_ip x) in
      ilock ip;;;
      let* st := stati ip in
      iunlock ip;;;
      let* q := getp p in
      let* r := copyout (p_pagetable q) addr (stat_bytes st pad) in
      ret (if r <? 0 then -1 else 0)
  | _ => ret (-1)
  end.

Definition fileread (f : nat) (addr n : Z) : M St Z :=
  let* x := getf f in
  if f_readable x =? 0 then ret (-1) else
  match f_type x with
  | FD_PIPE => piperead patience (f_pipe x) addr n
  | FD_DEVICE =>
      if (f_major x <? 0) || (NDEV <=? f_major x) then ret (-1) else
      match devsw_read (f_major x) with
      | None => ret (-1)
      | Some rd => rd addr n
      end
  | FD_INODE =>
      let* ip := deref (f_ip x) in
      ilock ip;;;
      let* x := getf f in
      let* '(r, _) := readi ip (UserDst addr) (f_off x) (u32 n) in
      (if 0 <? r then modf f (fun x => x.[f_off := u32 (f_off x + r)]) else ret tt);;;
      iunlock ip;;;
      ret r
  | FD_NONE => panic "fileread"
  end.

(** The largest write that fits in one transaction. *)
Definition write_max : Z := (MAXOPBLOCKS - 1 - 1 - 2) / 2 * BSIZE.

(** The loop of [filewrite] from offset [i] of the data; every iteration but
    the last writes at least one byte. *)
Definition filewrite_loop (f : nat) (addr n : Z) : M St Z :=
  while (S (S (Z.to_nat n))) (fun i =>
    if negb (i <? n) then ret (inr i) else
    let n1 := if write_max <? n - i then write_max else n - i in
    begin_op;;;
    let* x := getf f in
    let* ip := deref (f_ip x) in
    ilock ip;;;
    let* x := getf f in
    let* r := writei ip (UserSrc (u64 (addr + i))) (f_off x) (u32 n1) in
    (if 0 <? r then modf f (fun x => x.[f_off := u32 (f_off x + r)]) else ret tt);;;
    iunlock ip;;;
    end_op;;;
    if negb (r =? n1) then ret (inr i) else ret (inl (i + r))) 0.

Definition filewrite (f : nat) (addr n : Z) : M St Z :=
  let* x := getf f in
  if f_writable x =? 0 then ret (-1) else
  match f_type x with
  | FD_PIPE => pipewrite patience (f_pipe x) addr n
  | FD_DEVICE =>
      if (f_major x <? 0) || (NDEV <=? f_major x) then ret (-1) else
      match devsw_write (f_major x) with
      | None => ret (-1)
      | Some wr => wr addr n
      end
  | FD_INODE =>
      let* i := filewrite_loop f addr n in
      ret (if i =? n then n else -1)
  | FD_NONE => panic "filewrite"
  end.

(** ** The interface of [Proc] *)

#[export] Instance file_layer : FileLayer (BioSt (LogSt (FsSt (FileSt R)))) := {|
  Proc.filedup := filedup;
  Proc.fileclose := fileclose;
  Proc.idup := idup;
  Proc.iput := iput;
  Proc.begin_op := Log.begin_op;
  Proc.end_op := Log.end_op;
  Proc.namei := Fs.namei;
|}.
End file.
