(* ===== verification/Exec.v ===== *)
(** System call arguments (the first half of kernel/syscall.c) and program
    loading (kernel/exec.c, kernel/elf.h). *)

From S2P Require Import Prelude CInt Machine KString Sched Sleeplock Kalloc Vm Proc Pipe Bio Log Fs File.

Section exec.
Context {img : KernelImage} {R : Type} {dd : DiskDriver (LogSt (FsSt (FileSt R)))}
  {dev : Devices R} {pt : Patience}.
Abbreviation St := (KState R).

(** ** kernel/syscall.c: arguments *)

Definition fetchaddr (addr : Z) : M St (option Z) :=
  let* p := curproc in
  let* q := getp p in
  if (p_sz q <=? addr) || (p_sz q <? u64 (addr + 8)) then ret None else
  let* '(r, bs) := copyin (p_pagetable q) addr 8 in
  if negb (r =? 0) then ret None else ret (Some (le_combine bs)).

(** The string fetched, without its NUL; [None] is -1. *)
Definition fetchstr (addr : Z) (max : nat) : M St (option (list Z)) :=
  let* p := curproc in
  let* q := getp p in
  let* '(r, bs) := copyinstr (p_pagetable q) addr max in
  if r <? 0 then ret None else ret (Some (cstr bs)).

Definition argraw (n : Z) : M St Z :=
  let* p := curproc in
  let* q := getp p in
  if (0 <=? n) && (n <=? 5) then ld64 (p_trapframe q + TF_a n) else panic "argraw".

Definition argint (n : Z) : M St Z := let* v := argraw n in ret (s32 v).
Definition argaddr (n : Z) : M St Z := argraw n.
Definition argstr (n : Z) (max : nat) : M St (option (list Z)) :=
  let* addr := argaddr n in fetchstr addr max.

(** ** kernel/elf.h *)

Definition ELF_MAGIC : Z := 0x464C457F.
Definition ELFHDR_SIZE : Z := 64.
Definition PROGHDR_SIZE : Z := 56.
Definition ELF_PROG_LOAD : Z := 1.

Record elfhdr := ElfHdr { elf_magic : Z; elf_entry : Z; elf_phoff : Z; elf_phnum : Z }.
Definition decode_elfhdr (d : list Z) : elfhdr :=
  ElfHdr (getle d 0 4) (getle d 24 8) (getle d 32 8) (getle d 56 2).

Record proghdr := ProgHdr {
  ph_type : Z; ph_flags : Z; ph_off : Z; ph_vaddr : Z; ph_filesz : Z; ph_memsz : Z
}.
Definition decode_proghdr (d : list Z) : proghdr :=
  ProgHdr (getle d 0 4) (getle d 4 4) (getle d 8 8) (getle d 16 8) (getle d 32 8) (getle d 40 8).

(** ** kernel/exec.c *)

Definition flags2perm (flags : Z) : Z :=
  let perm := if negb (Z.land flags 1 =? 0) then PTE_X else 0 in
  if negb (Z.land flags 2 =? 0) then Z.lor perm PTE_W else perm.

Definition loadseg (pagetable va : Z) (ip : nat) (offset sz : Z) : M St Z :=
  while (S (S (Z.to_nat (sz / PGSIZE)))) (fun i =>
    if negb (i <? sz) then ret (inr 0) else
    let* pa := walkaddr pagetable (u64 (va + i)) in
    if pa =? 0 then panic "loadseg: address should exist" else
    let n := if sz - i <? PGSIZE then sz - i else PGSIZE in
    let* '(r, _) := readi ip (KernDst pa) (u32 (offset + i)) n in
    if negb (r =? n) then ret (inr (-1)) else
    ret (inl (u32 (i + PGSIZE)))) 0.

(** The program header loop, for [n] headers from file offset [off]; the
    size reached, and whether all went well. *)
Fixpoint exec_load (n : nat) (pagetable : Z) (ip : nat) (off sz : Z) : M St (Z * bool) :=
  match n with
  | O => ret (sz, true)
  | S n =>
      let* '(r, d) := readi ip BufDst (u32 off) PROGHDR_SIZE in
      if negb (r =? PROGHDR_SIZE) then ret (sz, false) else
      let ph := decode_proghdr d in
      let next := s32 (off + PROGHDR_SIZE) in
      if negb (ph_type ph =? ELF_PROG_LOAD) then exec_load n pagetable ip next sz else
      if ph_memsz ph <? ph_filesz ph then ret (sz, false) else
      if u64 (ph_vaddr ph + ph_memsz ph) <? ph_vaddr ph then ret (sz, false) else
      if negb (ph_vaddr ph mod PGSIZE =? 0) then ret (sz, false) else
      let* sz1 := uvmalloc pagetable sz (u64 (ph_vaddr ph + ph_memsz ph)) (flags2perm (ph_flags ph)) in
      if sz1 =? 0 then ret (sz, false) else
      let* r := loadseg pagetable (ph_vaddr ph) ip (u32 (ph_off ph)) (u32 (ph_filesz ph)) in
      if r <? 0 then ret (sz1, false) else
      exec_load n pagetable ip next sz1
  end.

(** Push the argument strings: the stack pointer and [ustack], or [None] on
    [goto bad]. *)
Fixpoint push_args (argv : list (list Z)) (argc : nat) (pagetable stackbase sp : Z) (ustack : list Z) :
    M St (option (Z * list Z)) :=
  match argv with
  | [] => ret (Some (sp, ustack))
  | a :: argv =>
      if (MAXARG <=? argc)%nat then ret None else
      let sp := u64 (sp - (Z.of_nat (length a) + 1)) in
      let sp := u64 (sp - sp mod 16) in
      if sp <? stackbase then ret None else
      let* r := copyout pagetable sp (a ++ [0]) in
      if r <? 0 then ret None else
      push_args argv (S argc) pagetable stackbase sp (ustack ++ [sp])
  end.

(** What follows the last slash. *)
Fixpoint last_elem (last path : list Z) : list Z :=
  match path with
  | [] => last
  | c :: path => last_elem (if c =? slash then path else last) path
  end.

Definition exec_bad (pagetable sz : Z) (ip : option nat) : M St Z :=
  (if negb (pagetable =? 0) then proc_freepagetable pagetable sz else ret tt);;;
  (match ip with
   | Some ip => iunlockput ip;;; Log.end_op
   | None => ret tt
   end);;;
  ret (-1).

(** The second half of [exec], once the image is loaded. *)
Definition exec_stack (path : list Z) (argv : list (list Z)) (entry pagetable sz : Z) : M St Z :=
  let* p := curproc in
  let* q := getp p in
  let oldsz := p_sz q in
  let sz := PGROUNDUP sz in
  let* sz1 := uvmalloc pagetable sz (u64 (sz + 2 * PGSIZE)) PTE_W in
  if sz1 =? 0 then exec_bad pagetable sz None else
  let sz := sz1 in
  uvmclear pagetable (u64 (sz - 2 * PGSIZE));;;
  let stackbase := u64 (sz - PGSIZE) in
  let* r := push_args argv 0 pagetable stackbase sz [] in
  match r with
  | None => exec_bad pagetable sz None
  | Some (sp, ustack) =>
      let argc := Z.of_nat (length ustack) in
      let ustack := ustack ++ [0] in
      let sp := u64 (sp - (argc + 1) * 8) in
      let sp := u64 (sp - sp mod 16) in
      if sp <? stackbase then exec_bad pagetable sz None else
      let* r := copyout pagetable sp (mjoin (le_split 8 <$> ustack)) in
      if r <? 0 then exec_bad pagetable sz None else
      st64 (p_trapframe q + TF_a 1) sp;;;
      modp p (fun q => q.[p_name := safestrcpy_list (p_name q) (last_elem path path ++ [0]) 16]);;;
      let* q := getp p in
      let oldpagetable := p_pagetable q in
      modp p (fun q => q.[p_pagetable := pagetable]);;;
      modp p (fun q => q.[p_sz := sz]);;;
      st64 (p_trapframe q + TF_epc) entry;;;
      st64 (p_trapframe q + TF_sp) sp;;;
      proc_freepagetable oldpagetable oldsz;;;
      ret (s32 argc)
  end.

Definition exec (path : list Z) (argv : list (list Z)) : M St Z :=
  let* p := curproc in
  Log.begin_op;;;
  let* o := namei path in
  match o with
  | None => Log.end_op;;; ret (-1)
  | Some ip =>
      ilock ip;;;
      let* '(r, d) := readi ip BufDst 0 ELFHDR_SIZE in
      if negb (r =? ELFHDR_SIZE) then exec_bad 0 0 (Some ip) else
      let elf := decode_elfhdr d in
      if negb (elf_magic elf =? ELF_MAGIC) then exec_bad 0 0 (Some ip) else
      let* pagetable := proc_pagetable p in
      if pagetable =? 0 then exec_bad 0 0 (Some ip) else
      let* '(sz, ok) := exec_load (Z.to_nat (elf_phnum elf)) pagetable ip (s32 (elf_phoff elf)) 0 in
      if negb ok then exec_bad pagetable sz (Some ip) else
      iunlockput ip;;;
      Log.end_op;;;
      exec_stack path argv (elf_entry elf) pagetable sz
  end.
End exec.
