(* ===== verification/Sysfile.v ===== *)
(** The file-system system calls (kernel/sysfile.c). *)

From S2P Require Import Prelude CInt Machine KString Sched Sleeplock Kalloc Vm Proc Pipe Bio Log Fs File Exec.

(** ** kernel/fcntl.h *)

Definition O_RDONLY : Z := 0.
Definition O_WRONLY : Z := 1.
Definition O_RDWR : Z := 2.
Definition O_CREATE : Z := 0x200.
Definition O_TRUNC : Z := 0x400.

Definition name_buf : list Z := replicate DIRSIZ 0.
Definition str_dot : list Z := [46].
Definition str_dotdot : list Z := [46; 46].

Section sysfile.
Context {img : KernelImage} {R : Type} {dd : DiskDriver (LogSt (FsSt (FileSt R)))}
  {dev : Devices R} {pt : Patience}.
Abbreviation St := (KState R).

(** ** Descriptors *)

Definition argfd (n : Z) : M St (option (nat * nat)) :=
  let* fd := argint n in
  if (fd <? 0) || (Z.of_nat NOFILE <=? fd) then ret None else
  let* p := curproc in
  let* q := getp p in
  match p_ofile q !! Z.to_nat fd with
  | Some (Some f) => ret (Some (Z.to_nat fd, f))
  | _ => ret None
  end.

Definition set_ofile (p fd : nat) (o : option nat) : M St unit :=
  modp p (fun q => q.[p_ofile := <[fd := o]> (p_ofile q)]).

Definition fdalloc (f : nat) : M St Z :=
  let* p := curproc in
  let* r := mloop (seq 0 NOFILE) (fun fd =>
    let* q := getp p in
    if bool_decide (p_ofile q !! fd = Some None) then
      set_ofile p fd (Some f);;; ret (Some (Z.of_nat fd))
    else ret None) in
  ret (default (-1) r).

Definition sys_dup : M St Z :=
  let* a := argfd 0 in
  match a with
  | None => ret (-1)
  | Some (_, f) =>
      let* fd := fdalloc f in
      if fd <? 0 then ret (-1) else
      let* f' := File.filedup f in
      ret fd
  end.

Definition sys_read : M St Z :=
  let* p := argaddr 1 in
  let* n := argint 2 in
  let* a := argfd 0 in
  match a with
  | None => ret (-1)
  | Some (_, f) => fileread f p n
  end.

Definition sys_write : M St Z :=
  let* p := argaddr 1 in
  let* n := argint 2 in
  let* a := argfd 0 in
  match a with
  | None => ret (-1)
  | Some (_, f) => filewrite f p n
  end.

Definition sys_close : M St Z :=
  let* a := argfd 0 in
  match a with
  | None => ret (-1)
  | Some (fd, f) =>
      let* p := curproc in
      set_ofile p fd None;;;
      File.fileclose f;;;
      ret 0
  end.

(** [pad]: see [stat_bytes]. *)
Definition sys_fstat (pad : list Z) : M St Z :=
  let* st := argaddr 1 in
  let* a := argfd 0 in
  match a with
  | None => ret (-1)
  | Some (_, f) => filestat pad f st
  end.

(** ** Links *)

(** The [bad:] label of [sys_link]. *)
Definition link_bad (ip : nat) : M St Z :=
  ilock ip;;;
  modi ip (fun x => x.[i_nlink := s16 (i_nlink x - 1)]);;;
  iupdate ip;;;
  iunlockput ip;;;
  Log.end_op;;;
  ret (-1).

Definition sys_link : M St Z :=
  let* old := argstr 0 (Z.to_nat MAXPATH) in
  match old with
  | None => ret (-1)
  | Some old =>
  let* new := argstr 1 (Z.to_nat MAXPATH) in
  match new with
  | None => ret (-1)
  | Some new =>
  Log.begin_op;;;
  let* o := Fs.namei old in
  match o with
  | None => Log.end_op;;; ret (-1)
  | Some ip =>
  ilock ip;;;
  let* x := geti ip in
  if i_type x =? T_DIR then iunlockput ip;;; Log.end_op;;; ret (-1) else
  modi ip (fun x => x.[i_nlink := s16 (i_nlink x + 1)]);;;
  iupdate ip;;;
  iunlock ip;;;
  let* '(o, name) := nameiparent new name_buf in
  match o with
  | None => link_bad ip
  | Some dp =>
      ilock dp;;;
      let* d := geti dp in
      let* x := geti ip in
      let* r := (if negb (i_dev d =? i_dev x) then ret (-1) else dirlink dp name (i_inum x)) in
      if r <? 0 then iunlockput dp;;; link_bad ip else
      iunlockput dp;;;
      Fs.iput ip;;;
      Log.end_op;;;
      ret 0
  end end end end.

(** Offsets from the third entry on. *)
Definition isdirempty (dp : nat) : M St bool :=
  let* x := geti dp in
  let* r := mloop (drop 2 (dir_offs (i_size x))) (fun off =>
    let* '(r, de) := readi dp BufDst off DIRENT_SIZE in
    if negb (r =? DIRENT_SIZE) then panic "isdirempty: readi" else
    ret (if negb (de_inum de =? 0) then Some tt else None)) in
  ret (bool_decide (r = None)).

(** The [bad:] label of [sys_unlink]. *)
Definition unlink_bad (dp : nat) : M St Z :=
  iunlockput dp;;; Log.end_op;;; ret (-1).

Definition sys_unlink : M St Z :=
  let* path := argstr 0 (Z.to_nat MAXPATH) in
  match path with
  | None => ret (-1)
  | Some path =>
  Log.begin_op;;;
  let* '(o, name) := nameiparent path name_buf in
  match o with
  | None => Log.end_op;;; ret (-1)
  | Some dp =>
  ilock dp;;;
  if (namecmp name str_dot =? 0) || (namecmp name str_dotdot =? 0) then unlink_bad dp else
  let* r := dirlookup dp name in
  match r with
  | None => unlink_bad dp
  | Some (ip, off) =>
  ilock ip;;;
  let* x := geti ip in
  if i_nlink x <? 1 then panic "unlink: nlink < 1" else
  let* empty := (if i_type x =? T_DIR then isdirempty ip else ret true) in
  if negb empty then iunlockput ip;;; unlink_bad dp else
  let* r := writei dp (BufSrc (replicate (Z.to_nat DIRENT_SIZE) 0)) off DIRENT_SIZE in
  if negb (r =? DIRENT_SIZE) then panic "unlink: writei" else
  (if i_type x =? T_DIR then
     modi dp (fun d => d.[i_nlink := s16 (i_nlink d - 1)]);;; iupdate dp
   else ret tt);;;
  iunlockput dp;;;
  modi ip (fun x => x.[i_nlink := s16 (i_nlink x - 1)]);;;
  iupdate ip;;;
  iunlockput ip;;;
  Log.end_op;;;
  ret 0
  end end end.

(** ** Creation *)

(** The [fail:] label of [create]. *)
Definition create_fail (ip dp : nat) : M St (option nat) :=
  modi ip (fun x => x.[i_nlink := 0]);;;
  iupdate ip;;;
  iunlockput ip;;;
  iunlockput dp;;;
  ret None.

Definition create (path : list Z) (type major minor : Z) : M St (option nat) :=
  let* '(o, name) := nameiparent path name_buf in
  match o with
  | None => ret None
  | Some dp =>
  ilock dp;;;
  let* r := dirlookup dp name in
  match r with
  | Some (ip, _) =>
      iunlockput dp;;;
      ilock ip;;;
      let* x := geti ip in
      if (type =? T_FILE) && ((i_type x =? T_FILE) || (i_type x =? T_DEVICE)) then ret (Some ip)
      else iunlockput ip;;; ret None
  | None =>
  let* d := geti dp in
  let* o := ialloc (i_dev d) type in
  match o with
  | None => iunlockput dp;;; ret None
  | Some ip =>
  ilock ip;;;
  modi ip (fun x => x.[i_major := major].[i_minor := minor].[i_nlink := 1]);;;
  iupdate ip;;;
  let* x := geti ip in
  let* r := (if type =? T_DIR then
               let* r := dirlink ip str_dot (i_inum x) in
               if r <? 0 then ret (-1) else dirlink ip str_dotdot (i_inum d)
             else ret 0) in
  if r <? 0 then create_fail ip dp else
  let* r := dirlink dp name (i_inum x) in
  if r <? 0 then create_fail ip dp else
  (if type =? T_DIR then
     modi dp (fun d => d.[i_nlink := s16 (i_nlink d + 1)]);;; iupdate dp
   else ret tt);;;
  iunlockput dp;;;
  ret (Some ip)
  end end end.

(** What [sys_open] does with the locked inode. *)
Definition open_inode (ip : nat) (omode : Z) : M St Z :=
  let* x := geti ip in
  if (i_type x =? T_DEVICE) && ((i_major x <? 0) || (NDEV <=? i_major x)) then
    iunlockput ip;;; Log.end_op;;; ret (-1)
  else
  let* o := filealloc in
  let* fd := (match o with Some f => fdalloc f | None => ret (-1) end) in
  match o with
  | None => iunlockput ip;;; Log.end_op;;; ret (-1)
  | Some f =>
      if fd <? 0 then
        File.fileclose f;;; iunlockput ip;;; Log.end_op;;; ret (-1)
      else
      (if i_type x =? T_DEVICE then
         modf f (fun y => y.[f_type := FD_DEVICE].[f_major := i_major x])
       else
         modf f (fun y => y.[f_type := FD_INODE].[f_off := 0]));;;
      modf f (fun y => y.[f_ip := Some ip]
        .[f_readable := if Z.land omode O_WRONLY =? 0 then 1 else 0]
        .[f_writable := if negb (Z.land omode O_WRONLY =? 0) || negb (Z.land omode O_RDWR =? 0)
                        then 1 else 0]);;;
      (if negb (Z.land omode O_TRUNC =? 0) && (i_type x =? T_FILE) then itrunc ip else ret tt);;;
      iunlock ip;;;
      Log.end_op;;;
      ret fd
  end.

Definition sys_open : M St Z :=
  let* omode := argint 1 in
  let* path := argstr 0 (Z.to_nat MAXPATH) in
  match path with
  | None => ret (-1)
  | Some path =>
  Log.begin_op;;;
  if negb (Z.land omode O_CREATE =? 0) then
    let* o := create path T_FILE 0 0 in
    match o with
    | None => Log.end_op;;; ret (-1)
    | Some ip => open_inode ip omode
    end
  else
    let* o := Fs.namei path in
    match o with
    | None => Log.end_op;;; ret (-1)
    | Some ip =>
        ilock ip;;;
        let* x := geti ip in
        if (i_type x =? T_DIR) && negb (omode =? O_RDONLY) then
          iunlockput ip;;; Log.end_op;;; ret (-1)
        else open_inode ip omode
    end
  end.

Definition sys_mkdir : M St Z :=
  Log.begin_op;;;
  let* path := argstr 0 (Z.to_nat MAXPATH) in
  let* o := (match path with Some path => create path T_DIR 0 0 | None => ret None end) in
  match o with
  | None => Log.end_op;;; ret (-1)
  | Some ip => iunlockput ip;;; Log.end_op;;; ret 0
  end.

(** [major] and [minor] become [short]s. *)
Definition sys_mknod : M St Z :=
  Log.begin_op;;;
  let* major := argint 1 in
  let* minor := argint 2 in
  let* path := argstr 0 (Z.to_nat MAXPATH) in
  let* o := (match path with
             | Some path => create path T_DEVICE (s16 major) (s16 minor)
             | None => ret None
             end) in
  match o with
  | None => Log.end_op;;; ret (-1)
  | Some ip => iunlockput ip;;; Log.end_op;;; ret 0
  end.

Definition sys_chdir : M St Z :=
  let* p := curproc in
  Log.begin_op;;;
  let* path := argstr 0 (Z.to_nat MAXPATH) in
  let* o := (match path with Some path => Fs.namei path | None => ret None end) in
  match o with
  | None => Log.end_op;;; ret (-1)
  | Some ip =>
      ilock ip;;;
      let* x := geti ip in
      if negb (i_type x =? T_DIR) then iunlockput ip;;; Log.end_op;;; ret (-1) else
      iunlock ip;;;
      let* q := getp p in
      let* d := deref (p_cwd q) in
      Fs.iput d;;;
      Log.end_op;;;
      modp p (fun q => q.[p_cwd := Some ip]);;;
      ret 0
  end.

(** ** exec and pipe *)

(** The loop of [sys_exec] for argument [i]: the strings, the pages they are
    in, and whether all went well. *)
Fixpoint exec_args (n : nat) (uargv i : Z) (argv : list (list Z)) (pages : list Z) :
    M St (list (list Z) * list Z * bool) :=
  match n with
  | O => ret (argv, pages, false)
  | S n =>
      let* o := fetchaddr (u64 (uargv + 8 * i)) in
      match o with
      | None => ret (argv, pages, false)
      | Some uarg =>
          if uarg =? 0 then ret (argv, pages, true) else
          let* page := kalloc in
          if page =? 0 then ret (argv, pages, false) else
          let* s := fetchstr uarg (Z.to_nat PGSIZE) in
          match s with
          | None => ret (argv, pages ++ [page], false)
          | Some s =>
              pwrite page (s ++ [0]);;;
              exec_args n uargv (i + 1) (argv ++ [s]) (pages ++ [page])
          end
      end
  end.

Definition sys_exec : M St Z :=
  let* uargv := argaddr 1 in
  let* path := argstr 0 (Z.to_nat MAXPATH) in
  match path with
  | None => ret (-1)
  | Some path =>
      let* '(argv, pages, ok) := exec_args MAXARG uargv 0 [] [] in
      let* r := (if (ok : bool) then exec path argv else ret (-1)) in
      mfor pages kfree;;;
      ret r
  end.

(** The four bytes of a descriptor. *)
Definition fd_bytes (fd : Z) : list Z := le_split 4 (u32 fd).

Definition sys_pipe : M St Z :=
  let* p := curproc in
  let* fdarray := argaddr 0 in
  let* o := pipealloc in
  match o with
  | None => ret (-1)
  | Some (rf, wf) =>
      let* fd0 := fdalloc rf in
      let* fd1 := (if fd0 <? 0 then ret (-1) else fdalloc wf) in
      if (fd0 <? 0) || (fd1 <? 0) then
        (if 0 <=? fd0 then set_ofile p (Z.to_nat fd0) None else ret tt);;;
        File.fileclose rf;;;
        File.fileclose wf;;;
        ret (-1)
      else
      let* q := getp p in
      let* r := copyout (p_pagetable q) fdarray (fd_bytes fd0) in
      let* r := (if r <? 0 then ret r
                 else copyout (p_pagetable q) (u64 (fdarray + 4)) (fd_bytes fd1)) in
      if r <? 0 then
        set_ofile p (Z.to_nat fd0) None;;;
        set_ofile p (Z.to_nat fd1) None;;;
        File.fileclose rf;;;
        File.fileclose wf;;;
        ret (-1)
      else ret 0
  end.
End sysfile.
