(* ===== verification/Ulib.v ===== *)
(** User programs: the state of a user process, the system calls it makes, and
    the C library of src/xv6-riscv/user (ulib.c, printf.c).

    A user process is its memory and whatever the operating system keeps for
    it; it enters the kernel through the assembly stubs of usys.pl, so the
    system calls are an interface here.  Pure routines over memory take fuel
    where only a terminator bounds them, as in [KString]. *)

From S2P Require Import Prelude CInt Machine KString KStringThm.

(** ** The process and its system calls *)

Record UState (R : Type) := US {
  umem : gmap Z Z;
  uenv : R;
}.
Arguments US {R}. Arguments umem {R}. Arguments uenv {R}.
#[export] Instance eta_ustate R : Eta (UState R) := fun s => US (umem s) (uenv s).

(** Results are C [int]s; [os_read] also gives the bytes stored in the buffer,
    and [os_open] takes the bytes of the path. *)
Class UserOs (R : Type) := {
  os_read : Z -> Z -> R -> Z * list Z * R;
  os_write : Z -> list Z -> R -> Z * R;
  os_open : list Z -> Z -> R -> Z * R;
  os_close : Z -> R -> Z * R;
  os_fstat : Z -> R -> Z * list Z * R;
  os_sbrk : Z -> R -> Z * R;
}.

Section ulib.
Context {R : Type} {os : UserOs R}.
Abbreviation U := (UState R).

Definition oscall {A} (f : R -> A * R) : M U A := fun s =>
  let '(a, e) := f (uenv s) in Ok a (s.[uenv := e]).

Definition uload (a : Z) : M U Z := gets (fun s => mget (umem s) a).
Definition ustore (a v : Z) : M U unit := modify (fun s => s.[umem := mset (umem s) a v]).
Definition umemory (f : gmap Z Z -> gmap Z Z) : M U unit :=
  modify (fun s => s.[umem := f (umem s)]).

(** A routine that only reads memory, run to its end. *)
Definition upure {A} (f : gmap Z Z -> option A) : M U A :=
  let* o := gets (fun s => f (umem s)) in
  match o with Some a => ret a | None => spin end.

Definition read (fd buf n : Z) : M U Z :=
  let* '(r, bs) := oscall (os_read fd n) in
  umemory (fun m => mwrite m buf bs);;;
  ret r.

Definition write (fd buf n : Z) : M U Z :=
  let* m := gets umem in
  oscall (os_write fd (mread m buf (Z.to_nat n))).
End ulib.

(** ** user/ulib.c: strings *)

(** Copies up to and including the NUL. *)
Fixpoint strcpy (fuel : nat) (m : gmap Z Z) (s t : Z) : option (gmap Z Z) :=
  match fuel with
  | O => None
  | S fuel =>
      let m := mset m s (mget m t) in
      if mget m s =? 0 then Some m else strcpy fuel m (s + 1) (t + 1)
  end.

Fixpoint strcmp (fuel : nat) (m : gmap Z Z) (p q : Z) : option Z :=
  match fuel with
  | O => None
  | S fuel =>
      if negb (mget m p =? 0) && (mget m p =? mget m q) then strcmp fuel m (p + 1) (q + 1)
      else Some (mget m p - mget m q)
  end.

Fixpoint strlen_loop (fuel : nat) (m : gmap Z Z) (s n : Z) : option Z :=
  match fuel with
  | O => None
  | S fuel => if mget m (s + n) =? 0 then Some n else strlen_loop fuel m s (s32 (n + 1))
  end.

Definition strlen (fuel : nat) (m : gmap Z Z) (s : Z) : option Z := strlen_loop fuel m s 0.

Fixpoint memset_loop (m : gmap Z Z) (cdst c i : Z) (n : nat) : gmap Z Z :=
  match n with
  | O => m
  | S n => memset_loop (mset m (cdst + i) c) cdst c (i + 1) n
  end.

Definition memset (m : gmap Z Z) (dst c n : Z) : gmap Z Z :=
  memset_loop m dst c 0 (Z.to_nat (u32 n)).

(** 0 is the null pointer. *)
Fixpoint strchr (fuel : nat) (m : gmap Z Z) (s c : Z) : option Z :=
  match fuel with
  | O => None
  | S fuel =>
      if mget m s =? 0 then Some 0 else
      if mget m s =? c then Some s else strchr fuel m (s + 1) c
  end.

Fixpoint memcmp (m : gmap Z Z) (p1 p2 : Z) (n : nat) : Z :=
  match n with
  | O => 0
  | S n => if negb (mget m p1 =? mget m p2) then mget m p1 - mget m p2
           else memcmp m (p1 + 1) (p2 + 1) n
  end.

Definition is_digit (c : Z) : bool := (48 <=? c) && (c <=? 57).

(** The running value is an [int]. *)
Fixpoint atoi_loop (fuel : nat) (m : gmap Z Z) (s n : Z) : option Z :=
  match fuel with
  | O => None
  | S fuel =>
      if is_digit (mget m s) then atoi_loop fuel m (s + 1) (s32 (n * 10 + mget m s - 48))
      else Some n
  end.

Definition atoi (fuel : nat) (m : gmap Z Z) (s : Z) : option Z := atoi_loop fuel m s 0.

(** ** user/ulib.c: input, file status *)

Section gets.
Context {R : Type} {os : UserOs R}.
Abbreviation U := (UState R).

(** [cbuf] is the address of the local [char c]. *)
Definition gets_body (cbuf buf max i : Z) : M U (Z + Z) :=
  if negb (i + 1 <? max) then ret (inr i) else
  let* cc := read 0 cbuf 1 in
  if cc <? 1 then ret (inr i) else
  let* c := uload cbuf in
  ustore (buf + i) c;;;
  if (c =? 10) || (c =? 13) then ret (inr (i + 1)) else ret (inl (i + 1)).

Definition gets (cbuf buf max : Z) : M U Z :=
  let* i := while (S (Z.to_nat max)) (gets_body cbuf buf max) 0 in
  ustore (buf + i) 0;;;
  ret buf.

(** The status is stored where [st] points. *)
Definition stat (fuel : nat) (n st : Z) : M U Z :=
  let* k := upure (fun m => strlen fuel m n) in
  let* m := Machine.gets umem in
  let* fd := oscall (os_open (mread m n (Z.to_nat k)) 0) in
  if fd <? 0 then ret (-1) else
  let* '(r, bs) := oscall (os_fstat fd) in
  umemory (fun m => mwrite m st bs);;;
  let* _ := oscall (os_close fd) in
  ret r.
End gets.

(** ** Strings in memory *)

(** The NUL-terminated string [l] stands at [a]. *)
Fixpoint str_at (m : gmap Z Z) (a : Z) (l : list Z) : Prop :=
  match l with
  | [] => mget m a = 0
  | c :: l => c <> 0 /\ mget m a = c /\ str_at m (a + 1) l
  end.

Section str_at.
Implicit Types m : gmap Z Z.

Lemma str_at_ext m m' a l :
  (forall b, a <= b <= a + Z.of_nat (length l) -> mget m b = mget m' b) ->
  str_at m a l -> str_at m' a l.
Proof.
  revert a. induction l as [|c l IH]; intros a H; simpl in *.
  - intros <-. symmetry. apply H. lia.
  - intros (Hc & Hg & Hs). split; [done|]. split; [rewrite <- Hg; symmetry; apply H; lia|].
    apply IH; [|done]. intros b Hb. apply H. lia.
Qed.

Lemma str_at_intro m a l :
  mread m a (length l) = l -> Forall (fun c => c <> 0) l -> mget m (a + Z.of_nat (length l)) = 0 ->
  str_at m a l.
Proof.
  intros Hr Hl. revert a Hr. induction Hl as [|c l Hc _ IH]; intros a Hr He; simpl in *.
  - by rewrite Z.add_0_r in He.
  - rewrite mread_S in Hr. injection Hr as Hg Hr. split; [done|]. split; [done|].
    apply IH; [done|]. rewrite <- He. f_equal. lia.
Qed.

Lemma str_at_mread m a l : str_at m a l -> mread m a (length l) = l.
Proof.
  revert a. induction l as [|c l IH]; intros a H; [done|]. destruct H as (_ & Hg & Hs).
  simpl. by rewrite mread_S, Hg, IH.
Qed.

(** [strlen] and [strchr] on strings: the fuel is the length and one more. *)
Lemma strchr_str_at fuel m a l c :
  str_at m a l -> c <> 0 -> (length l < fuel)%nat ->
  match list_find (c =.) l with
  | Some (i, _) => strchr fuel m a c = Some (a + Z.of_nat i)
  | None => strchr fuel m a c = Some 0
  end.
Proof.
  intros Hs Hc. revert a l Hs. induction fuel as [|fuel IH]; intros a l Hs Hf; [lia|].
  destruct l as [|x l]; cbn [strchr list_find].
  - simpl in Hs. by rewrite Hs.
  - destruct Hs as (Hx & Hg & Hs). rewrite Hg. destruct (Z.eqb_spec x 0); [done|].
    simpl in Hf. specialize (IH (a + 1) l Hs ltac:(lia)). case_decide as Hd.
    + destruct (Z.eqb_spec x c); [f_equal; lia|congruence].
    + destruct (Z.eqb_spec x c); [congruence|]. destruct (list_find (c =.) l) as [[i y]|]; simpl.
      * rewrite IH. f_equal. lia.
      * done.
Qed.
End str_at.

(** ** Input and output streams *)

(** What a process may rely on when it reads [fd] and writes standard output:
    [read] delivers the next bytes of the input, at most [n] of them and at
    least one unless [n] is 0 or the input is over; [write] appends. *)
Class StreamOs (R : Type) {os : UserOs R} (fd : Z) (input output : R -> list Z) := {
  stream_read n e :
    0 <= n ->
    exists bs e', os_read fd n e = (Z.of_nat (length bs), bs, e') /\
      input e = bs ++ input e' /\ Z.of_nat (length bs) <= n /\ output e' = output e /\
      (bs = [] -> n = 0 \/ input e = []);
  stream_write bs e :
    output (os_write 1 bs e).2 = output e ++ bs /\ input (os_write 1 bs e).2 = input e;
}.

Lemma str_at_mwrite m a l : Forall byte_ok l -> Forall (fun c => c <> 0) l -> 
  str_at (mset (mwrite m a l) (a + Z.of_nat (length l)) 0) a l.
Proof.
  intros Hb Hl. apply str_at_intro; [|done|by rewrite mget_mset_eq].
  rewrite mread_mset_ne by lia. by apply mwrite_read.
Qed.

Lemma str_at_app m a l1 l2 : str_at m a (l1 ++ l2) -> str_at m (a + Z.of_nat (length l1)) l2.
Proof.
  revert a. induction l1 as [|c l1 IH]; intros a H; simpl in *; [by rewrite Z.add_0_r|].
  destruct H as (_ & _ & H). apply IH in H.
  replace (a + Z.of_nat (S (length l1))) with (a + 1 + Z.of_nat (length l1)) by lia. done.
Qed.

(** A NUL stored inside a string ends it there. *)
Lemma str_at_cut m a l1 l2 :
  str_at m a (l1 ++ l2) -> str_at (mset m (a + Z.of_nat (length l1)) 0) a l1.
Proof.
  intros Hs. remember (a + Z.of_nat (length l1)) as b eqn:Hb. revert a Hs Hb.
  induction l1 as [|c l1 IH]; intros a Hs ->; simpl in *.
  - rewrite Z.add_0_r. by rewrite mget_mset_eq.
  - destruct Hs as (Hc & Hg & Hs). rewrite mget_mset_ne by lia. split; [done|]. split; [done|].
    apply IH; [done|lia].
Qed.

Lemma str_at_prefix m a l1 l2 : str_at m a (l1 ++ l2) -> mread m a (length l1) = l1.
Proof.
  revert a. induction l1 as [|c l1 IH]; intros a H; [done|]. destruct H as (_ & Hg & Hs).
  simpl. by rewrite mread_S, Hg, IH.
Qed.

Lemma str_at_nonzero m a l : str_at m a l -> Forall (fun c => c <> 0) l.
Proof.
  revert a. induction l as [|c l IH]; intros a H; constructor; [by apply H|].
  apply (IH (a + 1)), H.
Qed.
