(* ===== verification/Printf.v ===== *)
(** Formatted output of user programs (user/printf.c), with the proof that
    decimal output reads back with ulib's [atoi].

    The character buffer of [printint] is an array of 16; a store beyond it is
    a fault, so the theorems also show that it never overflows. *)

From S2P Require Import Prelude CInt Machine KString KStringThm Ulib.

(** "0123456789ABCDEF" *)
Definition udigits : list Z := [48;49;50;51;52;53;54;55;56;57;65;66;67;68;69;70].

(** [buf[i++] = c] on [char buf[16]]. *)
Definition buf_push {S} (buf : list Z) (c : Z) : M S (list Z) :=
  if (length buf <? 16)%nat then ret (buf ++ [c]) else fault.

(** The [do]-[while] of [printint]; a [uint] has at most 32 digits. *)
Definition digits_loop {S} (digits : list Z) (x base : Z) : M S (list Z) :=
  while 32 (fun '(x, buf) =>
    let* d := deref (digits !! Z.to_nat (x mod base)) in
    let* buf := buf_push buf d in
    let x := x / base in
    if negb (x =? 0) then ret (inl (x, buf)) else ret (inr buf)) (x, []).

(** "(null)" *)
Definition null_text : list Z := [40; 110; 117; 108; 108; 41].

Section printf.
Context {R : Type} {os : UserOs R}.
Abbreviation U := (UState R).

Definition putc (fd c : Z) : M U unit :=
  let* _ := oscall (os_write fd [u8 c]) in ret tt.

Definition printint (fd xx base : Z) (sgn : bool) : M U unit :=
  let neg := sgn && (xx <? 0) in
  let x := if neg then u32 (- xx) else u32 xx in
  let* buf := digits_loop udigits x base in
  let* buf := (if neg then buf_push buf 45 else ret buf) in
  mfor (rev buf) (putc fd).

Definition printptr (fd x : Z) : M U unit :=
  putc fd 48;;;
  putc fd 120;;;
  mfor (seq 0 16) (fun i =>
    let* d := deref (udigits !! Z.to_nat (u64 (Z.shiftl x (4 * Z.of_nat i)) / 2 ^ 60)) in
    putc fd d).

(** The characters of the string [s]. *)
Definition put_string (fuel : nat) (fd s : Z) : M U unit :=
  while fuel (fun s =>
    let* c := uload s in
    if c =? 0 then ret (inr tt) else putc fd c;;; ret (inl (s + 1))) s.

(** The next argument; reading past the last one is not defined by C. *)
Definition va_arg (ap : list Z) : M U (Z * list Z) :=
  match ap with
  | [] => fault
  | a :: ap => ret (a, ap)
  end.

(** One conversion, for the character after a percent sign; [fuel] bounds
    the length of a string argument. *)
Definition vprintf_conv (fuel : nat) (fd c : Z) (ap : list Z) : M U (list Z) :=
  if c =? 100 (* 'd' *) then
    let* '(a, ap) := va_arg ap in printint fd (s32 a) 10 true;;; ret ap
  else if c =? 108 (* 'l' *) then
    let* '(a, ap) := va_arg ap in printint fd (s32 a) 10 false;;; ret ap
  else if c =? 120 (* 'x' *) then
    let* '(a, ap) := va_arg ap in printint fd (s32 a) 16 false;;; ret ap
  else if c =? 112 (* 'p' *) then
    let* '(a, ap) := va_arg ap in printptr fd (u64 a);;; ret ap
  else if c =? 115 (* 's' *) then
    let* '(s, ap) := va_arg ap in
    (if s =? 0 then mfor null_text (putc fd) else put_string fuel fd s);;;
    ret ap
  else if c =? 99 (* 'c' *) then
    let* '(a, ap) := va_arg ap in putc fd (u32 a);;; ret ap
  else if c =? 37 (* '%' *) then putc fd c;;; ret ap
  else putc fd 37;;; putc fd c;;; ret ap.

(** The format is a string literal: the characters before its NUL.  [pct]
    is [state == '%']. *)
Fixpoint vprintf (fuel : nat) (fd : Z) (fmt : list Z) (pct : bool) (ap : list Z) : M U unit :=
  match fmt with
  | [] => ret tt
  | c :: fmt =>
      if pct then let* ap := vprintf_conv fuel fd c ap in vprintf fuel fd fmt false ap
      else if c =? 37 then vprintf fuel fd fmt true ap
      else putc fd c;;; vprintf fuel fd fmt false ap
  end.

Definition fprintf (fuel : nat) (fd : Z) (fmt ap : list Z) : M U unit := vprintf fuel fd fmt false ap.
Definition printf (fuel : nat) (fmt ap : list Z) : M U unit := vprintf fuel 1 fmt false ap.
End printf.

(** ** Numerals *)

(** The number a digit of [udigits] stands for. *)
Definition digit_val (c : Z) : Z := if c <? 58 then c - 48 else c - 55.

(** The number written by [ds], most significant digit first, in [base]. *)
Definition numeral (base : Z) (ds : list Z) : Z :=
  foldl (fun n c => n * base + digit_val c) 0 ds.

(** The digits of [x] in [base], least significant first, as text. *)
Fixpoint digits_of (fuel : nat) (x base : Z) : list Z :=
  match fuel with
  | O => []
  | S fuel => nth (Z.to_nat (x mod base)) udigits 0 ::
              (if x / base =? 0 then [] else digits_of fuel (x / base) base)
  end.

(** The text of an [int]. *)
Definition int_text (xx base : Z) (sgn : bool) : list Z :=
  if sgn && (xx <? 0) then 45 :: rev (digits_of 32 (u32 (- xx)) base)
  else rev (digits_of 32 (u32 xx) base).

Lemma udigits_lookup n : 0 <= n < 16 -> udigits !! Z.to_nat n = Some (nth (Z.to_nat n) udigits 0).
Proof. intros Hn. rewrite nth_lookup. destruct (udigits !! _) eqn:E; [done|].
  apply lookup_ge_None_1 in E. simpl in E. lia.
Qed.

Lemma digit_val_udigits n : 0 <= n < 16 -> digit_val (nth (Z.to_nat n) udigits 0) = n.
Proof.
  intros Hn. rewrite <- (Z2Nat.id n) at 2 by lia.
  assert (Hlt : (Z.to_nat n < 16)%nat) by lia. revert Hlt. generalize (Z.to_nat n). clear.
  intros k Hk. do 16 (destruct k as [|k]; [done|]). lia.
Qed.

Lemma numeral_app base l c : numeral base (l ++ [c]) = numeral base l * base + digit_val c.
Proof. unfold numeral. by rewrite foldl_app. Qed.

Section digits.
Context (base : Z) (Hbase : 2 <= base <= 16).

(** [k] digits are enough below [base^k]. *)
Lemma digits_of_spec k fuel x :
  0 <= x < base ^ Z.of_nat k -> (1 <= k <= fuel)%nat ->
  numeral base (rev (digits_of fuel x base)) = x /\ (1 <= length (digits_of fuel x base) <= k)%nat.
Proof.
  revert k x. induction fuel as [|fuel IH]; intros k x Hx Hk; [lia|]. cbn [digits_of rev length].
  rewrite numeral_app, digit_val_udigits by dlia.
  destruct (Z.eqb_spec (x / base) 0) as [H0|H0].
  - cbn. split; [|lia]. pose proof (Z.div_mod x base). lia.
  - destruct k as [|k]; [lia|].
    rewrite Nat2Z.inj_succ, Z.pow_succ_r in Hx by lia.
    destruct k as [|k].
    { exfalso. apply H0. apply Z.div_small. rewrite Z.pow_0_r in Hx. lia. }
    destruct (IH (S k) (x / base)) as [H1 H2]; [|lia|].
    { split; [apply Z.div_pos; lia|]. apply Z.div_lt_upper_bound; lia. }
    rewrite H1. split; [|lia]. pose proof (Z.div_mod x base). lia.
Qed.

(** For any table that has the same digits below [base]. *)
Lemma while_digits {S} (digits : list Z) k (s : S) x buf :
  (forall d, 0 <= d < base -> digits !! Z.to_nat d = udigits !! Z.to_nat d) ->
  0 <= x < base ^ Z.of_nat k -> (1 <= k)%nat -> (length buf + k <= 16)%nat ->
  forall fuel, (k <= fuel)%nat ->
  while fuel (fun '(x, buf) =>
    let* d := deref (digits !! Z.to_nat (x mod base)) in
    let* buf := buf_push buf d in
    let x := x / base in
    if negb (x =? 0) then ret (inl (x, buf)) else ret (inr buf)) (x, buf) s
  = Ok (buf ++ digits_of fuel x base) s.
Proof.
  intros Hdig. revert x buf. induction k as [|k IH]; intros x buf Hx Hk Hb fuel Hf; [lia|].
  destruct fuel as [|fuel]; [lia|]. cbn [while digits_of].
  rewrite Hdig, udigits_lookup by dlia. unfold deref, buf_push.
  rewrite (proj2 (Nat.ltb_lt _ _)) by lia. unfold bind at 1 2 3, ret. cbn [bindO].
  destruct (Z.eqb_spec (x / base) 0) as [H0|H0]; cbn [negb]; [done|].
  rewrite Nat2Z.inj_succ, Z.pow_succ_r in Hx by lia.
  assert (1 <= k)%nat.
  { destruct k; [|lia]. exfalso. apply H0. apply Z.div_small. rewrite Z.pow_0_r in Hx. lia. }
  unfold bind at 1. cbn [bindO]. rewrite IH; [by rewrite <- app_assoc| |done| |lia].
  - split; [apply Z.div_pos; lia|]. apply Z.div_lt_upper_bound; lia.
  - rewrite length_app. simpl. lia.
Qed.
End digits.

Lemma digits_loop_table {S} (digits : list Z) base x (s : S) :
  (forall d, 0 <= d < base -> digits !! Z.to_nat d = udigits !! Z.to_nat d) ->
  base = 10 \/ base = 16 -> 0 <= x < W32 -> digits_loop digits x base s = Ok (digits_of 32 x base) s.
Proof.
  intros Hd Hb Hx. unfold digits_loop.
  rewrite (while_digits base ltac:(lia) digits 10 s x []); [done|done| |lia|simpl; lia|lia].
  destruct Hb as [->| ->]; simpl; lia.
Qed.

Lemma digits_loop_eq {S} base x (s : S) :
  base = 10 \/ base = 16 -> 0 <= x < W32 -> digits_loop udigits x base s = Ok (digits_of 32 x base) s.
Proof. by apply digits_loop_table. Qed.

Lemma digits_of_bounds base x :
  base = 10 \/ base = 16 -> 0 <= x < W32 ->
  numeral base (rev (digits_of 32 x base)) = x /\ (1 <= length (digits_of 32 x base) <= 10)%nat.
Proof.
  intros Hb Hx. apply digits_of_spec; [lia| |lia]. destruct Hb as [->| ->]; simpl; lia.
Qed.

(** ** [atoi] *)

Lemma digits_of_decimal fuel x : Forall (fun c => is_digit c = true) (digits_of fuel x 10).
Proof.
  revert x. induction fuel as [|fuel IH]; intros x; cbn [digits_of]; constructor.
  - assert (Hd : 0 <= x mod 10 < 10) by dlia. revert Hd. generalize (x mod 10). clear. intros d Hd.
    rewrite <- (Z2Nat.id d) in Hd by lia. revert Hd. generalize (Z.to_nat d). intros k Hk.
    do 10 (destruct k as [|k]; [reflexivity|]). lia.
  - destruct (x / 10 =? 0); [constructor|apply IH].
Qed.

Lemma foldl_numeral_ge ds n :
  0 <= n -> Forall (fun c => is_digit c = true) ds ->
  n <= foldl (fun n c => n * 10 + digit_val c) n ds.
Proof.
  intros Hn Hds. revert n Hn. induction Hds as [|c ds Hc _ IH]; intros n Hn; simpl; [lia|].
  unfold is_digit in Hc. assert (0 <= digit_val c).
  { unfold digit_val. destruct (Z.ltb_spec c 58); lia. }
  etrans; [|apply IH]; lia.
Qed.

Lemma atoi_loop_spec fuel m s n k ds :
  mread m s k = ds -> Forall (fun c => is_digit c = true) ds -> is_digit (mget m (s + Z.of_nat k)) = false ->
  0 <= n -> foldl (fun n c => n * 10 + digit_val c) n ds < W31 -> (k < fuel)%nat ->
  atoi_loop fuel m s n = Some (foldl (fun n c => n * 10 + digit_val c) n ds).
Proof.
  revert s n k ds. induction fuel as [|fuel IH]; intros s n k ds Hr Hds Hend Hn Hlt Hk; [lia|].
  cbn [atoi_loop]. destruct k as [|k].
  - cbn in Hr. subst ds. rewrite Z.add_0_r in Hend. by rewrite Hend.
  - rewrite mread_S in Hr. subst ds. apply Forall_cons in Hds as [Hc Hds]. rewrite Hc.
    cbn [foldl] in Hlt |- *.
    assert (Hd : 0 <= digit_val (mget m s) /\ mget m s - 48 = digit_val (mget m s)).
    { unfold is_digit in Hc. unfold digit_val. destruct (Z.ltb_spec (mget m s) 58); lia. }
    pose proof (foldl_numeral_ge (mread m (s + 1) k) (n * 10 + digit_val (mget m s)) ltac:(lia) Hds).
    replace (n * 10 + mget m s - 48) with (n * 10 + digit_val (mget m s)) by lia.
    rewrite s32_small by lia. apply (IH _ _ k); [done|done| |lia|done|lia].
    rewrite <- Hend. do 2 f_equal. lia.
Qed.

(** ** Theorems *)

(** [printint] prints an [int], in decimal or hexadecimal, as text of at
    most 11 characters that denotes it: signed, a minus sign and the absolute
    value, unsigned, the value modulo 2^32.  Its buffer never overflows and
    its loops end. *)
Theorem printint_text {R} {os : UserOs R} fd xx base sgn :
  base = 10 \/ base = 16 -> - W31 <= xx < W31 ->
  (forall s : UState R, printint fd xx base sgn s = mfor (int_text xx base sgn) (putc fd) s) /\
  (length (int_text xx base sgn) <= 11)%nat /\
  (if sgn && (xx <? 0)
   then exists ds, int_text xx base sgn = 45 :: ds /\ numeral base ds = - xx
   else numeral base (int_text xx base sgn) = u32 xx).
Proof.
  intros Hb Hxx.
  pose proof (digits_of_bounds base (u32 xx) Hb (u32_range xx)) as [Hv Hl].
  pose proof (digits_of_bounds base (u32 (- xx)) Hb (u32_range _)) as [Hv' Hl'].
  unfold printint, int_text. split; [|split].
  - intros s. destruct (sgn && (xx <? 0)).
    + erewrite bind_Ok by (apply digits_loop_eq; [done|apply u32_range]).
      unfold buf_push. rewrite (proj2 (Nat.ltb_lt _ _)) by lia.
      unfold bind at 1, ret. cbn [bindO]. by rewrite rev_app_distr.
    + erewrite bind_Ok by (apply digits_loop_eq; [done|apply u32_range]). done.
  - destruct (sgn && (xx <? 0)); cbn [length]; rewrite length_rev; lia.
  - destruct sgn; cbn [andb]; [|done]. destruct (Z.ltb_spec xx 0); [|done].
    eexists. split; [done|]. rewrite Hv'. apply u32_small. lia.
Qed.

(** Decimal output reads back: the text [printint] prints for a
    non-negative [int], stored anywhere with a terminating NUL, is read by
    [atoi] as that [int]. *)
Theorem printint_atoi m a xx fuel :
  0 <= xx < W31 -> (11 <= fuel)%nat ->
  atoi fuel (mwrite m a (int_text xx 10 true ++ [0])) a = Some xx.
Proof.
  intros Hxx Hf. unfold int_text. cbn [andb]. destruct (Z.ltb_spec xx 0); [lia|].
  pose proof (digits_of_bounds 10 (u32 xx) ltac:(lia) (u32_range xx)) as [Hv Hl].
  rewrite u32_small in * by lia. set (ds := rev (digits_of 32 xx 10)) in *.
  assert (Hds : Forall (fun c => is_digit c = true) ds) by apply Forall_rev, digits_of_decimal.
  assert (Hlen : length ds = length (digits_of 32 xx 10)) by apply length_rev.
  assert (Hbytes : Forall byte_ok (ds ++ [0])).
  { apply Forall_app. split; [|repeat constructor; lia].
    eapply Forall_impl; [exact Hds|]. intros c Hc. unfold is_digit in Hc. unfold byte_ok. lia. }
  pose proof (mwrite_read m a (ds ++ [0]) Hbytes) as Hr.
  unfold numeral in Hv.
  unfold atoi. rewrite (atoi_loop_spec _ _ _ 0 (length ds) ds); [by rewrite Hv| |done| |lia|lia|lia].
  - apply (f_equal (take (length ds))) in Hr. rewrite take_app_length in Hr.
    etrans; [|exact Hr]. rewrite length_app. simpl. apply list_eq. intros i.
    destruct (decide (i < length ds)%nat).
    + rewrite lookup_take_lt, !mread_lookup by lia. done.
    + rewrite lookup_take_ge by lia. apply lookup_ge_None_2. rewrite mread_length. lia.
  - rewrite mwrite_mget_in; [|done|rewrite length_app; simpl; lia].
    replace (Z.to_nat (a + Z.of_nat (length ds) - a)) with (length ds) by lia.
    rewrite app_nth2 by lia. by rewrite Nat.sub_diag.
Qed.

(** ** Witnesses *)

(** A process whose writes are recorded and whose other calls fail. *)
#[local] Instance demo_out : UserOs (list Z) := {
  os_read _ _ e := (-1, [], e);
  os_write _ bs e := (Z.of_nat (length bs), e ++ bs);
  os_open _ _ e := (-1, e);
  os_close _ e := (-1, e);
  os_fstat _ e := (-1, [], e);
  os_sbrk _ e := (-1, e);
}.

Example printf_demo :
  printf 9 [120; 61; 37; 100; 37; 37; 37; 120] [-25; 255] (US ∅ [])
  = Ok tt (US ∅ [120; 61; 45; 50; 53; 37; 70; 70]).
Proof. reflexivity. Qed.

Lemma printint_text_witness :
  (forall s : UState (list Z), printint 1 (-25) 10 true s = mfor (int_text (-25) 10 true) (putc 1) s) /\
  (length (int_text (-25) 10 true) <= 11)%nat /\
  (exists ds, int_text (-25) 10 true = 45 :: ds /\ numeral 10 ds = 25).
Proof. apply (printint_text 1 (-25) 10 true); lia. Defined.

Lemma printint_atoi_witness : atoi 11 (mwrite ∅ 100 (int_text 2025 10 true ++ [0])) 100 = Some 2025.
Proof. apply (printint_atoi ∅ 100 2025 11); lia. Defined.
