(* ===== verification/Uart.v ===== *)
(** The serial port: kernel/uart.c, over a 16550 UART given by its registers.

    The state of the two devices of the console, [Devs], is reached through
    the interface [Layer], so that the driver does not depend on the layers
    of kernel state above and below it. *)

From S2P Require Import Prelude CInt Machine Sched Sleeplock.

(** ** The hardware *)

Definition RHR : Z := 0.
Definition THR : Z := 0.
Definition IER : Z := 1.
Definition FCR : Z := 2.
Definition LCR : Z := 3.
Definition LSR : Z := 5.
Definition LSR_RX_READY : Z := 1.
Definition LSR_TX_IDLE : Z := Z.shiftl 1 5.

(** The UART as the processor sees it: the value a read of a register returns,
    and the effect of reads and writes on the device.  [uart_latency] bounds
    how many reads of [LSR] it takes until the transmitter is idle. *)
Class UartHw (H : Type) := {
  reg_read : Z -> H -> Z * H;
  reg_write : Z -> Z -> H -> H;
  uart_latency : nat;
}.

(** What the driver relies on, in terms of the characters sent so far, those
    received and not read yet, and the [LSR] reads left until the transmitter
    is idle. *)
Class UartHwOk (H : Type) `{UartHw H} := {
  sent : H -> list Z;
  waiting : H -> list Z;
  busy : H -> nat;
  busy_bound h : (busy h <= uart_latency)%nat;
  lsr_ready h : Z.land (fst (reg_read LSR h)) LSR_RX_READY = 0 <-> waiting h = [];
  lsr_idle h : Z.land (fst (reg_read LSR h)) LSR_TX_IDLE = 0 <-> busy h <> 0%nat;
  lsr_sent h : sent (snd (reg_read LSR h)) = sent h;
  lsr_waiting h : waiting (snd (reg_read LSR h)) = waiting h;
  lsr_busy h : busy (snd (reg_read LSR h)) = pred (busy h);
  rhr_read h c w : waiting h = c :: w ->
    fst (reg_read RHR h) = c /\ 0 <= c < 256 /\ waiting (snd (reg_read RHR h)) = w /\
    sent (snd (reg_read RHR h)) = sent h;
  thr_write h c : busy h = 0%nat -> 0 <= c < 256 ->
    sent (reg_write THR c h) = sent h ++ [c] /\ waiting (reg_write THR c h) = waiting h;
}.

(** ** State *)

Definition UART_TX_BUF_SIZE : Z := 32.

(** [uart_tx_buf], [uart_tx_w], [uart_tx_r]. *)
Record uart := Uart { tx_buf : list Z; tx_w : Z; tx_r : Z }.
#[export] Instance eta_uart : Eta uart := fun u => Uart (tx_buf u) (tx_w u) (tx_r u).

(** [cons] of kernel/console.c. *)
Record console := Console { c_buf : list Z; c_r : Z; c_w : Z; c_e : Z }.
#[export] Instance eta_console : Eta console := fun c => Console (c_buf c) (c_r c) (c_w c) (c_e c).

Record Devs (H : Type) := DevS { d_uart : uart; d_cons : console; d_hw : H }.
Arguments DevS {H}. Arguments d_uart {H}. Arguments d_cons {H}. Arguments d_hw {H}.
#[export] Instance eta_devs H : Eta (Devs H) := fun d => DevS (d_uart d) (d_cons d) (d_hw d).

(** A kernel state that contains the devices. *)
Abbreviation DevLayer H R := (Layer (Devs H) R).

Definition uart_tx_lock : kptr := KSym "uart_tx_lock" 0.
Definition uart_tx_r_chan : kptr := KSym "uart_tx_r" 0.

Section uart.
Context {H R : Type} {hw : UartHw H} {L : DevLayer H R}.
Abbreviation St := (Kst R).
Implicit Types s : St.

Definition dev s : Devs H := layer_get (krest s).
Definition set_dev (d : Devs H) s : St := s.[krest := layer_set d (krest s)].

Definition getdev : M St (Devs H) := gets dev.
Definition moddev (f : Devs H -> Devs H) : M St unit := fun s => Ok tt (set_dev (f (dev s)) s).

(** [ReadReg], [WriteReg]. *)
Definition ReadReg (r : Z) : M St Z :=
  let* d := getdev in
  let '(v, h) := reg_read r (d_hw d) in
  moddev (fun d => d.[d_hw := h]);;;
  ret v.
Definition WriteReg (r v : Z) : M St unit := moddev (fun d => d.[d_hw := reg_write r (u8 v) (d_hw d)]).

(** [initlock] leaves the lock free, the initial condition. *)
Definition uartinit : M St unit :=
  WriteReg IER 0;;;
  WriteReg LCR (Z.shiftl 1 7);;;
  WriteReg 0 3;;;
  WriteReg 1 0;;;
  WriteReg LCR 3;;;
  WriteReg FCR (Z.lor 1 (Z.shiftl 3 1));;;
  WriteReg IER (Z.lor 2 1).

(** Spin until the transmitter is idle.  Interrupts are off meanwhile
    ([push_off], [pop_off]), which is not visible here; and [panicked] is never
    set in a kernel that still runs. *)
Definition uartputc_sync (c : Z) : M St unit :=
  while (S uart_latency) (fun _ : unit =>
    let* l := ReadReg LSR in
    if Z.land l LSR_TX_IDLE =? 0 then ret (inl tt) else ret (inr tt)) tt;;;
  WriteReg THR c.

(** One iteration of the loop of [uartstart]; [true] is [return]. *)
Definition uartstart_body : M St bool :=
  let* d := getdev in
  let u := d_uart d in
  if tx_w u =? tx_r u then ret true else
  let* l := ReadReg LSR in
  if Z.land l LSR_TX_IDLE =? 0 then ret true else
  let* c := deref (tx_buf u !! Z.to_nat (tx_r u mod UART_TX_BUF_SIZE)) in
  moddev (fun d => d.[d_uart := (d_uart d).[tx_r := u64 (tx_r u + 1)]]);;;
  wakeup uart_tx_r_chan;;;
  WriteReg THR c;;;
  ret false.

(** At most [UART_TX_BUF_SIZE] characters are queued. *)
Definition uartstart : M St unit :=
  while (S (Z.to_nat UART_TX_BUF_SIZE)) (fun _ : unit =>
    let* stop := uartstart_body in ret (if stop then inr tt else inl tt)) tt.

(** [n]: wakeups in vain. *)
Definition uartputc (n : nat) (c : Z) : M St unit :=
  acquire uart_tx_lock;;;
  while (S n) (fun _ : unit =>
    let* d := getdev in
    if tx_w (d_uart d) =? u64 (tx_r (d_uart d) + UART_TX_BUF_SIZE) then
      sleep uart_tx_r_chan uart_tx_lock;;; ret (inl tt)
    else ret (inr tt)) tt;;;
  moddev (fun d => d.[d_uart := (d_uart d)
    .[tx_buf := <[Z.to_nat (tx_w (d_uart d) mod UART_TX_BUF_SIZE) := u8 c]> (tx_buf (d_uart d))]
    .[tx_w := u64 (tx_w (d_uart d) + 1)]]);;;
  uartstart;;;
  release uart_tx_lock.

(** -1 when no character is waiting. *)
Definition uartgetc : M St Z :=
  let* l := ReadReg LSR in
  if negb (Z.land l LSR_RX_READY =? 0) then ReadReg RHR else ret (-1).
End uart.

(** ** The transmit queue *)

(** The ring holds the queue [q], oldest character first. *)
Record uart_q (u : uart) (q : list Z) : Prop := {
  uq_len : length (tx_buf u) = 32%nat;
  uq_r : 0 <= tx_r u < W64;
  uq_n : Z.of_nat (length q) <= UART_TX_BUF_SIZE;
  uq_w : tx_w u = u64 (tx_r u + Z.of_nat (length q));
  uq_at : forall k b, q !! k = Some b ->
    tx_buf u !! Z.to_nat ((tx_r u + Z.of_nat k) mod UART_TX_BUF_SIZE) = Some b;
  uq_byte : Forall (fun b => 0 <= b < 256) q;
}.

Ltac uart_unfold := unfold UART_TX_BUF_SIZE, u64 in *.

Lemma uart_empty u q : uart_q u q -> tx_w u = tx_r u <-> q = [].
Proof.
  intros Q. pose proof (uq_r _ _ Q). pose proof (uq_n _ _ Q). rewrite (uq_w _ _ Q).
  destruct q as [|b q]; simpl; [|split; [|done]]; uart_unfold.
  - split; [done|]. intros _. rewrite Z.add_0_r. by apply Z.mod_small.
  - intros E. exfalso. cbn [length] in *. dlia.
Qed.

Lemma uart_full u q : uart_q u q ->
  tx_w u = u64 (tx_r u + UART_TX_BUF_SIZE) <-> Z.of_nat (length q) = UART_TX_BUF_SIZE.
Proof.
  intros Q. pose proof (uq_r _ _ Q). pose proof (uq_n _ _ Q). rewrite (uq_w _ _ Q).
  split; [|by intros ->]. uart_unfold. intros E. dlia.
Qed.

(** The driver takes the oldest character out. *)
Lemma uart_pop u b q : uart_q u (b :: q) ->
  tx_buf u !! Z.to_nat (tx_r u mod UART_TX_BUF_SIZE) = Some b /\
  uart_q (u.[tx_r := u64 (tx_r u + 1)]) q.
Proof.
  intros [H1 H2 H3 H4 H5 H6]. split.
  { rewrite <- (Z.add_0_r (tx_r u)). by apply (H5 0%nat). }
  cbn [length] in *. apply Forall_cons in H6 as [_ H6]. split; simpl; [done| | | | |done].
  - uart_unfold. dlia.
  - lia.
  - rewrite H4. uart_unfold. dlia.
  - intros k c Hk. rewrite <- (H5 (S k) c Hk). do 2 f_equal. uart_unfold. dlia.
Qed.

(** A writer appends a character. *)
Lemma uart_push u q c : uart_q u q -> Z.of_nat (length q) < UART_TX_BUF_SIZE ->
  uart_q (u.[tx_buf := <[Z.to_nat (tx_w u mod UART_TX_BUF_SIZE) := u8 c]> (tx_buf u)]
           .[tx_w := u64 (tx_w u + 1)]) (q ++ [u8 c]).
Proof.
  intros [H1 H2 H3 H4 H5 H6] Hn. split; simpl; [by rewrite length_insert|done| | | |].
  - rewrite length_app. simpl. uart_unfold. lia.
  - rewrite H4, length_app. simpl. uart_unfold. dlia.
  - assert (Hslot : tx_w u mod UART_TX_BUF_SIZE = (tx_r u + Z.of_nat (length q)) mod UART_TX_BUF_SIZE)
      by (rewrite H4; uart_unfold; dlia).
    intros k b [Hk|[Hk Hb]]%lookup_app_Some.
    + rewrite list_lookup_insert_ne; [by apply H5|]. apply lookup_lt_Some in Hk.
      rewrite Hslot. uart_unfold. dlia.
    + assert (k = length q) as -> by (apply lookup_lt_Some in Hb; simpl in Hb; lia).
      rewrite Nat.sub_diag in Hb. injection Hb as <-. rewrite Hslot.
      apply list_lookup_insert_eq. uart_unfold. dlia.
  - apply Forall_app. split; [done|]. apply Forall_singleton. apply u8_range.
Qed.

(** ** Executions *)

Section uart_exec.
Context {H R : Type} {hw : UartHw H} {hwok : UartHwOk H} {L : DevLayer H R}.
Abbreviation St := (Kst R).
Implicit Types s : St.

(** The state with other devices and another process table. *)
Definition with_dev (d : Devs H) (ps : list proc) s : St :=
  KSt (held s) (cproc s) ps (nextpid s) (initproc s) (ticks s) (layer_set d (krest s)).

Lemma with_dev_twice d d' ps ps' s : with_dev d ps (with_dev d' ps' s) = with_dev d ps s.
Proof. unfold with_dev. simpl. by rewrite layer_set_set. Qed.

Lemma with_dev_id s : with_dev (dev s) (procs s) s = s.
Proof. unfold with_dev, dev. rewrite layer_set_get. by destruct s. Qed.

Lemma dev_with_dev d ps s : dev (with_dev d ps s) = d.
Proof. apply layer_get_set. Qed.

Lemma procs_with_dev d ps s : procs (with_dev d ps s) = ps.
Proof. done. Qed.

Lemma moddev_ok f s : moddev f s = Ok tt (with_dev (f (dev s)) (procs s) s).
Proof. unfold moddev, set_dev, with_dev. by destruct s. Qed.

Lemma getdev_ok s : getdev s = Ok (dev s) s.
Proof. done. Qed.

Lemma ReadReg_ok r s :
  ReadReg r s = Ok (fst (reg_read r (d_hw (dev s))))
    (with_dev ((dev s).[d_hw := snd (reg_read r (d_hw (dev s)))]) (procs s) s).
Proof.
  unfold ReadReg. rewrite (bind_Ok _ _ _ _ _ (getdev_ok s)).
  destruct (reg_read r (d_hw (dev s))) as [v h]. by rewrite (bind_Ok _ _ _ _ _ (moddev_ok _ s)).
Qed.

Lemma WriteReg_ok r v s :
  WriteReg r v s = Ok tt (with_dev ((dev s).[d_hw := reg_write r (u8 v) (d_hw (dev s))]) (procs s) s).
Proof. unfold WriteReg. by rewrite moddev_ok. Qed.

(** What a run of the driver leaves alone: everything but the devices and
    processes asleep on [ch]; the characters typed but not read. *)
Definition dev_step (ch : kptr) s s' : Prop :=
  exists d ps, s' = with_dev d ps s /\ woken (cproc s) ch (procs s) ps /\
    d_cons d = d_cons (dev s) /\ waiting (d_hw d) = waiting (d_hw (dev s)).

Lemma dev_step_refl ch s : dev_step ch s s.
Proof. exists (dev s), (procs s). rewrite with_dev_id. split_and!; [done|by left|done|done]. Qed.

Lemma dev_step_trans ch s1 s2 s3 : dev_step ch s1 s2 -> dev_step ch s2 s3 -> dev_step ch s1 s3.
Proof.
  intros (d & ps & -> & W & C & V) (d' & ps' & -> & W' & C' & V').
  rewrite dev_with_dev in C', V'. exists d', ps'. rewrite with_dev_twice.
  split_and!; [done|by eapply woken_trans|congruence|congruence].
Qed.

Lemma dev_step_can_wake ch s s' : dev_step ch s s' -> can_wake s -> can_wake s'.
Proof.
  intros (d & ps & -> & W & _) [Hl Hn]. split; [|done]. simpl. by rewrite (woken_length _ _ _ _ W).
Qed.

Lemma read_lsr s :
  exists l d, ReadReg LSR s = Ok l (with_dev d (procs s) s) /\
    d_uart d = d_uart (dev s) /\ d_cons d = d_cons (dev s) /\
    sent (d_hw d) = sent (d_hw (dev s)) /\ waiting (d_hw d) = waiting (d_hw (dev s)) /\
    busy (d_hw d) = pred (busy (d_hw (dev s))) /\
    (Z.land l LSR_RX_READY = 0 <-> waiting (d_hw (dev s)) = []) /\
    (Z.land l LSR_TX_IDLE = 0 <-> busy (d_hw (dev s)) <> 0%nat).
Proof.
  eexists _, _. split; [apply ReadReg_ok|]. simpl.
  split_and!; [done|done|apply lsr_sent|apply lsr_waiting|apply lsr_busy|apply lsr_ready|apply lsr_idle].
Qed.

(** One character sent: the effect of [uartputc_sync]. *)
Lemma uartputc_sync_ok c s :
  exists s', uartputc_sync c s = Ok tt s' /\ procs s' = procs s /\ dev_step uart_tx_r_chan s s' /\
    d_uart (dev s') = d_uart (dev s) /\ sent (d_hw (dev s')) = sent (d_hw (dev s)) ++ [u8 c].
Proof.
  unfold uartputc_sync.
  assert (Hloop : forall n s, (busy (d_hw (dev s)) < n)%nat -> exists d,
    while n (fun _ : unit => let* l := ReadReg LSR in
      if Z.land l LSR_TX_IDLE =? 0 then ret (inl tt) else ret (inr tt)) tt s
      = Ok tt (with_dev d (procs s) s) /\ d_uart d = d_uart (dev s) /\ d_cons d = d_cons (dev s) /\
    sent (d_hw d) = sent (d_hw (dev s)) /\ waiting (d_hw d) = waiting (d_hw (dev s)) /\
    busy (d_hw d) = 0%nat).
  { clear. intros n. induction n as [|n IH]; intros s Hb; [lia|].
    destruct (read_lsr s) as (l & d & Hl & D1 & D2 & D3 & D4 & D5 & _ & Hidle).
    destruct (decide (busy (d_hw (dev s)) = 0%nat)) as [H0|H0].
    - exists d. split; [|split_and!; [done|done|done|done|lia]].
      apply while_inr. erewrite bind_Ok by exact Hl.
      destruct (Z.eqb_spec (Z.land l LSR_TX_IDLE) 0) as [E|]; [|done]. by apply Hidle in E.
    - destruct (IH (with_dev d (procs s) s)) as (d' & E & E1 & E2 & E3 & E4 & E5).
      { rewrite dev_with_dev. lia. }
      rewrite dev_with_dev in E1, E2, E3, E4. rewrite with_dev_twice, procs_with_dev in E.
      exists d'. split; [|split_and!; congruence].
      rewrite <- E. erewrite while_inl; [reflexivity|]. erewrite bind_Ok by exact Hl.
      by rewrite (proj2 (Z.eqb_eq _ _) (proj2 Hidle H0)). }
  destruct (Hloop (S uart_latency) s) as (d & E & E1 & E2 & E3 & E4 & E5).
  { pose proof (busy_bound (d_hw (dev s))). lia. }
  erewrite bind_Ok by exact E. rewrite WriteReg_ok, dev_with_dev, with_dev_twice.
  destruct (thr_write (d_hw d) (u8 c) E5 (u8_range c)) as [T1 T2].
  eexists. split; [reflexivity|]. split; [done|]. rewrite !dev_with_dev. simpl.
  split; [|split; [congruence|by rewrite T1, E3]].
  eexists _, _. split; [reflexivity|]. split; [by left|]. simpl. split; [done|congruence].
Qed.

(** One round of [uartstart]. *)
Lemma uartstart_body_ok s q :
  uart_q (d_uart (dev s)) q -> can_wake s ->
  exists stop s', uartstart_body s = Ok stop s' /\ dev_step uart_tx_r_chan s s' /\
    if stop : bool then uart_q (d_uart (dev s')) q /\ sent (d_hw (dev s')) = sent (d_hw (dev s)) /\
      (q = [] \/ busy (d_hw (dev s)) <> 0%nat)
    else exists b q', q = b :: q' /\ uart_q (d_uart (dev s')) q' /\
      sent (d_hw (dev s')) = sent (d_hw (dev s)) ++ [b].
Proof.
  intros Q W. unfold uartstart_body. erewrite bind_Ok by apply getdev_ok. cbv zeta.
  destruct (Z.eqb_spec (tx_w (d_uart (dev s))) (tx_r (d_uart (dev s)))) as [E|E].
  { exists true, s. split_and!; [done|apply dev_step_refl|done|done|]. left. by apply (uart_empty _ _ Q). }
  destruct (read_lsr s) as (l & d & Hl & D1 & D2 & D3 & D4 & D5 & _ & Hidle).
  erewrite bind_Ok by exact Hl.
  assert (D : dev_step uart_tx_r_chan s (with_dev d (procs s) s)).
  { exists d, (procs s). split_and!; [done|by left|done|done]. }
  destruct (Z.eqb_spec (Z.land l LSR_TX_IDLE) 0) as [I|I].
  { exists true. eexists. split; [reflexivity|]. split; [done|].
    rewrite dev_with_dev, D1. split_and!; [done|done|]. right. by apply Hidle. }
  assert (B0 : busy (d_hw d) = 0%nat) by (destruct (decide (busy (d_hw (dev s)) = 0%nat)); [lia|tauto]).
  destruct q as [|b q]; [exfalso; by apply E, (uart_empty _ _ Q)|].
  destruct (uart_pop _ _ _ Q) as [Hb Q']. rewrite Hb. change (deref (Some b)) with (@ret St Z b).
  erewrite bind_Ok by reflexivity. erewrite bind_Ok by apply moddev_ok.
  rewrite dev_with_dev, with_dev_twice, D1, procs_with_dev. cbv zeta.
  erewrite bind_Ok by (apply wakeup_eq; apply W).
  erewrite bind_Ok by apply WriteReg_ok.
  assert (Hbyte : 0 <= b < 256) by (pose proof (uq_byte _ _ Q) as F; by inv F).
  destruct (thr_write (d_hw d) b B0 Hbyte) as [T1 T2].
  exists false. eexists. split; [reflexivity|].
  match goal with |- context [with_dev ?x _ ?y] => set (d' := x); set (s1 := y) end.
  assert (Hd : d' = d.[d_uart := (d_uart (dev s)).[tx_r := u64 (tx_r (d_uart (dev s)) + 1)]]
                     .[d_hw := reg_write THR b (d_hw d)]).
  { subst d' s1. rewrite u8_small by done.
    change (dev (upd_field procs _ ?x)) with (dev x). by rewrite dev_with_dev. }
  rewrite dev_with_dev, Hd. simpl. split.
  - subst s1. eexists _, (imap (wake_entry (cproc s) uart_tx_r_chan) (procs s)).
    split; [by unfold with_dev; simpl; rewrite layer_set_set|]. split; [by right|].
    simpl. split; congruence.
  - exists b, q. split_and!; [done|done|congruence].
Qed.

(** [uartstart] sends a prefix of the queue, and something if the transmitter
    is idle. *)
Lemma uartstart_ok s q :
  uart_q (d_uart (dev s)) q -> can_wake s ->
  exists s' q1 q2, uartstart s = Ok tt s' /\ dev_step uart_tx_r_chan s s' /\ q = q1 ++ q2 /\
    uart_q (d_uart (dev s')) q2 /\ sent (d_hw (dev s')) = sent (d_hw (dev s)) ++ q1 /\
    (q1 = [] -> q = [] \/ busy (d_hw (dev s)) <> 0%nat).
Proof.
  intros Q W. unfold uartstart.
  assert (Hn : (length q < S (Z.to_nat UART_TX_BUF_SIZE))%nat)
    by (pose proof (uq_n _ _ Q); unfold UART_TX_BUF_SIZE in *; lia).
  revert Hn. generalize (S (Z.to_nat UART_TX_BUF_SIZE)) as n. intros n Hn.
  revert s q Q W Hn. induction n as [|n IH]; intros s q Q W Hn; [lia|].
  destruct (uartstart_body_ok s q Q W) as ([] & s1 & E & D & P).
  - destruct P as (Q1 & S1 & B). exists s1, [], q. rewrite app_nil_r.
    split_and!; [|done|done|done|done|done]. apply while_inr. by erewrite bind_Ok by exact E.
  - destruct P as (b & q' & -> & Q1 & S1).
    destruct (IH s1 q' Q1 (dev_step_can_wake _ _ _ D W) ltac:(simpl in Hn; lia))
      as (s2 & q1 & q2 & E2 & D2 & -> & Q2 & S2 & _).
    exists s2, (b :: q1), q2. split_and!; [|by eapply dev_step_trans|done|done| |done].
    + erewrite while_inl; [exact E2|]. by erewrite bind_Ok by exact E.
    + rewrite S2, S1, <- app_assoc. done.
Qed.

(** ** Writing *)

(** The characters sent and those queued behind them. *)
Definition stream (q : list Z) s : list Z := sent (d_hw (dev s)) ++ q.

Context (ci : nat) (pid : Z).

(** From the state [s0] in which the writer last got the CPU it goes to sleep,
    because the ring is full; it has changed nothing but its own entry of the
    process table, and holds no lock but its own. *)
Definition uart_waits (s0 s : St) : Prop :=
  (exists q, uart_q (d_uart (dev s0)) q /\ Z.of_nat (length q) = UART_TX_BUF_SIZE) /\
  krest s = krest s0 /\ held s = [plock ci] /\
  (exists p, procs s !! ci = Some p /\ p_state p = SLEEPING /\ p_chan p = Some uart_tx_r_chan) /\
  forall j, j <> ci -> procs s !! j = procs s0 !! j.

(** It puts [c] behind the characters sent and queued in [s0] and returns:
    [q0] was queued and is not full, [q2] is left, and what was sent meanwhile
    followed by [q2] is [q0] and [c].  An idle transmitter has been given
    something, and beside the port only sleepers on the ring are touched. *)
Definition uart_puts (c : Z) (s0 s : St) : Prop :=
  running ci pid [] s /\
  (exists q0 q2, uart_q (d_uart (dev s0)) q0 /\ Z.of_nat (length q0) < UART_TX_BUF_SIZE /\
     uart_q (d_uart (dev s)) q2 /\ stream q2 s = stream q0 s0 ++ [u8 c]) /\
  (busy (d_hw (dev s0)) = 0%nat -> sent (d_hw (dev s)) <> sent (d_hw (dev s0))) /\
  d_cons (dev s) = d_cons (dev s0) /\ waiting (d_hw (dev s)) = waiting (d_hw (dev s0)) /\
  krest s = layer_set (dev s) (krest s0) /\
  forall j, j <> ci -> procs s !! j = procs s0 !! j \/
    procs s !! j = wake_entry (Some ci) uart_tx_r_chan j <$> procs s0 !! j.

(** What other threads leave when the writer runs again. *)
Definition uart_resumed (s s' : St) : Prop :=
  running ci pid [plock ci] s' /\ exists q, uart_q (d_uart (dev s')) q.

(** The writer holds the lock and has done nothing else since [s0]. *)
Definition uart_entered (s0 s : St) : Prop :=
  running ci pid [uart_tx_lock] s /\ krest s = krest s0 /\
  forall j, j <> ci -> procs s !! j = procs s0 !! j.

Lemma tx_lock_plock : uart_tx_lock <> plock ci.
Proof. done. Qed.

Lemma uart_running_wake s : running ci pid [uart_tx_lock] s -> can_wake s.
Proof.
  intros (Hl & Hc & Hh & _). split; [done|]. intros i _. rewrite Hh, list_elem_of_singleton. done.
Qed.

(** The end of [uartputc], once there is room. *)
Definition uart_append (c : Z) : M St unit :=
  moddev (fun d => d.[d_uart := (d_uart d)
    .[tx_buf := <[Z.to_nat (tx_w (d_uart d) mod UART_TX_BUF_SIZE) := u8 c]> (tx_buf (d_uart d))]
    .[tx_w := u64 (tx_w (d_uart d) + 1)]]);;;
  uartstart;;;
  release uart_tx_lock.

Lemma woken_others me ch ps ps' j : woken me ch ps ps' ->
  ps' !! j = ps !! j \/ ps' !! j = wake_entry me ch j <$> ps !! j.
Proof. intros [->| ->]; [by left|right]. apply list_lookup_imap. Qed.

Lemma uart_append_ok c s0 s q :
  uart_entered s0 s -> uart_q (d_uart (dev s0)) q -> Z.of_nat (length q) < UART_TX_BUF_SIZE ->
  exists s', uart_append c s = Ok tt s' /\ uart_puts c s0 s'.
Proof.
  intros (Hrun & Hk & Hj) Q0 Hq. unfold uart_append. erewrite bind_Ok by apply moddev_ok.
  assert (Hdev : dev s = dev s0) by (unfold dev; by rewrite Hk).
  pose proof (uart_push _ _ c Q0 Hq) as Q1. rewrite <- Hdev in Q1. pose proof (uart_running_wake s Hrun) as W.
  match goal with |- context [bind _ _ ?x] => set (s1 := x) end.
  assert (W1 : can_wake s1) by exact W.
  assert (D1 : dev s1 = (dev s).[d_uart := (d_uart (dev s))
    .[tx_buf := <[Z.to_nat (tx_w (d_uart (dev s)) mod UART_TX_BUF_SIZE) := u8 c]> (tx_buf (d_uart (dev s)))]
    .[tx_w := u64 (tx_w (d_uart (dev s)) + 1)]]) by apply dev_with_dev.
  destruct (uartstart_ok s1 (q ++ [u8 c])) as (s2 & q1 & q2 & E & D & Hqq & Q2 & S2 & B); [by rewrite D1|done|].
  erewrite bind_Ok by exact E. destruct D as (d2 & ps2 & -> & Wk & C2 & V2). rewrite D1 in C2, V2.
  destruct Hrun as (Hl & Hc & Hh & p & Hp & Hpid).
  eexists. split; [apply (release_ok uart_tx_lock []); [exact Hh|apply not_elem_of_nil]|].
  unfold uart_puts, stream. change (dev (upd_field held _ ?x)) with (dev x). rewrite dev_with_dev in *.
  split_and!; [| | |by rewrite C2, <- Hdev|by rewrite V2, <- Hdev| |].
  - split_and!; [|done|done|exists p; split; [|done]].
    + simpl. rewrite (woken_length _ _ _ _ Wk). done.
    + simpl. by rewrite (woken_me _ _ _ _ ci Wk).
  - exists q, q2. split_and!; [done|done|done|]. rewrite S2, D1, <- Hdev. simpl. by rewrite <- !app_assoc, <- Hqq.
  - intros B0 E0. rewrite <- Hdev in B0, E0. rewrite S2, D1 in E0. simpl in E0.
    rewrite <- app_nil_r in E0. apply app_inv_head in E0 as ->.
    destruct B as [B|B]; [done|by destruct q|]. by rewrite D1 in B.
  - subst s1. simpl. by rewrite layer_set_set, Hk.
  - intros j Hne. rewrite <- (Hj j Hne). simpl in Wk |- *. rewrite <- Hc. by apply woken_others.
Qed.

Lemma uart_sleeps s0 s q :
  uart_entered s0 s -> uart_q (d_uart (dev s0)) q -> Z.of_nat (length q) = UART_TX_BUF_SIZE ->
  exists s1, sleep uart_tx_r_chan uart_tx_lock s = Switched s1 (sleep_tail ci uart_tx_lock) /\ uart_waits s0 s1.
Proof.
  intros ((Hl & Hc & Hh & p & Hp & Hpid) & Hk & Hj) Q Hq.
  eexists. split; [by apply (sleep_eq _ _ _ ci p Hc Hp Hh tx_lock_plock)|].
  split_and!; [by exists q|done|done| |].
  - eexists. split; [by eapply list_insert_lookup_same|done].
  - intros j Hne. simpl. rewrite list_lookup_insert_ne by done. by apply Hj.
Qed.

(** C24: the serial port is a FIFO.  Between getting the CPU for the last time,
    in [s0], and returning, [uartputc] finds room in the ring and appends its
    character behind all characters sent or queued in [s0]: what was sent
    since then followed by what is still queued is the old queue and the new
    character; it drops, duplicates and overwrites nothing, gives an idle
    transmitter something to send, and touches nothing else.  Before that it
    sleeps exactly when it finds the ring full, leaving the port as it was,
    and only a run that has slept [n + 1] times in vain gives up; with room at
    the call it returns without sleeping. *)
Theorem uartputc_fifo n c s q :
  running ci pid [] s -> uart_q (d_uart (dev s)) q ->
  swp uart_waits uart_resumed (fun _ s0 _ s' => uart_puts c s0 s') (S n) s (uartputc n c s) /\
  (Z.of_nat (length q) < UART_TX_BUF_SIZE -> exists s', uartputc n c s = Ok tt s' /\ uart_puts c s s').
Proof.
  intros Hrun Q. destruct (acquire_running ci pid uart_tx_lock s Hrun) as [Hacq Hrun1].
  assert (Hin : uart_entered s (s.[held := [uart_tx_lock]])) by by split.
  unfold uartputc. fold (uart_append c). split.
  2: { intros Hq. erewrite bind_Ok by exact Hacq. erewrite bind_Ok; [by eapply uart_append_ok|].
       apply while_inr. erewrite bind_Ok by apply getdev_ok.
       change (dev (s.[held := [uart_tx_lock]])) with (dev s).
       rewrite (proj2 (Z.eqb_neq _ _)); [done|]. intros E. apply (uart_full _ _ Q) in E. lia. }
  apply swp_bind. eapply swp_Ok; [exact Hacq|]. apply swp_bind.
  eapply (swp_while _ _ (fun _ s0 s => uart_entered s0 s /\ exists q, uart_q (d_uart (dev s0)) q));
    [split; [done|by exists q]|].
  clear s q Hrun Q Hacq Hrun1 Hin. intros m [] s0 s (Hin & q & Q).
  assert (Hdev : dev s = dev s0) by (unfold dev; by rewrite (proj1 (proj2 Hin))).
  apply swp_bind. eapply swp_Ok; [apply getdev_ok|]. rewrite Hdev.
  destruct (Z.eqb_spec (tx_w (d_uart (dev s0))) (u64 (tx_r (d_uart (dev s0)) + UART_TX_BUF_SIZE))) as [E|E].
  - apply swp_bind. apply (uart_full _ _ Q) in E.
    destruct (uart_sleeps s0 s q Hin Q E) as (s1 & -> & Hw). split; [exact Hw|].
    intros s2 (Hrun2 & q2 & Q2).
    destruct (sleep_tail_frame ci pid uart_tx_lock s2 Hrun2) as (s3 & -> & Hrun3 & Hk & Hj).
    split; [done|]. split; [by split|by exists q2].
  - pose proof (uq_n _ _ Q).
    assert (Hq : Z.of_nat (length q) <> UART_TX_BUF_SIZE) by (intros E2; by apply E, (uart_full _ _ Q)).
    destruct (uart_append_ok c s0 s q Hin Q ltac:(lia)) as (s' & E' & P).
    eapply swp_Ok; [reflexivity|]. by eapply swp_Ok.
Qed.
End uart_exec.

(** ** A concrete port *)

(** A port that stays busy for two reads of [LSR] after each character. *)
Record demo_port := Port { port_out : list Z; port_in : list Z; port_busy : nat }.

#[export] Instance demo_hw : UartHw demo_port := {|
  reg_read r h :=
    if r =? LSR then
      (Z.lor (match port_in h with [] => 0 | _ => LSR_RX_READY end)
             (if (Nat.min (port_busy h) 2 =? 0)%nat then LSR_TX_IDLE else 0),
       Port (port_out h) (port_in h) (pred (Nat.min (port_busy h) 2)))
    else match port_in h with
         | [] => (0, h)
         | c :: w => (u8 c, Port (port_out h) w (port_busy h))
         end;
  reg_write r v h := if r =? THR then Port (port_out h ++ [v]) (port_in h) 2 else h;
  uart_latency := 2;
|}.

#[export] Instance demo_hw_ok : UartHwOk demo_port.
Proof.
  refine {| sent := port_out; waiting h := u8 <$> port_in h; busy h := Nat.min (port_busy h) 2 |}.
  - intros h. apply Nat.le_min_r.
  - intros [o [|c w] b]; simpl; destruct (Nat.min b 2 =? 0)%nat; done.
  - intros [o [|c w] b]; simpl; destruct (Nat.eqb_spec (Nat.min b 2) 0) as [E|E];
      try rewrite E; split; done.
  - done.
  - done.
  - intros [o w b]. change (Nat.min (pred (Nat.min b 2)) 2 = pred (Nat.min b 2)). lia.
  - intros [o [|c' w'] b] c w; [done|]. simpl. intros [= <- <-].
    split_and!; try done; apply u8_range.
  - intros [o w b] c _ _. done.
Defined.

Definition demo_uart : uart := Uart (10 :: 20 :: replicate 30 0) 2 0.
Definition demo_uart_st : Kst (Devs demo_port) :=
  KSt [] (Some 0%nat) (proc_zero.[p_state := RUNNING].[p_pid := 7] :: replicate 63 proc_zero) 8 None 0
    (DevS demo_uart (Console (replicate 128 0) 0 0 0) (Port [] [] 0)).

Lemma uartputc_fifo_witness :
  exists s', uartputc 5 33 demo_uart_st = Ok tt s' /\ uart_puts 0 7 33 demo_uart_st s'.
Proof.
  apply (uartputc_fifo 0 7 5 33 demo_uart_st [10; 20]).
  - split_and!; try done. by eexists.
  - split; try done.
    + intros [|[|k]] b Hb; try done; injection Hb as <-; by vm_compute.
    + apply (bool_decide_unpack _). by vm_compute.
  - done.
Defined.

(** The port in action: the queue drains while the line is idle. *)
Example uartputc_runs :
  match uartputc 5 33 demo_uart_st with
  | Ok _ s => (port_out (d_hw (krest s)), tx_r (d_uart (krest s)), tx_w (d_uart (krest s)))
  | _ => ([], 0, 0)
  end = ([10], 1, 3).
Proof. by vm_compute. Qed.
