(* ===== verification/Console.v ===== *)
(** The console: kernel/console.c, the kernel's printf (kernel/printf.c),
    [procdump] of kernel/proc.c, and the UART interrupt handler, which calls
    the console.  The end of the file installs the console in [devsw]. *)

From S2P Require Import Prelude CInt Machine KString Sched Sleeplock Kalloc Vm Proc Pipe Bio Log Fs File Printf Uart.

Definition INPUT_BUF_SIZE : Z := 128.
Definition BACKSPACE : Z := 0x100.
(** [C('D')] and the other control characters; DEL, newline, return. *)
Definition Ctrl (x : Z) : Z := x - 64.
Definition ctrl_d : Z := Ctrl 68.
Definition ctrl_h : Z := Ctrl 72.
Definition ctrl_p : Z := Ctrl 80.
Definition ctrl_u : Z := Ctrl 85.
Definition del : Z := 127.
Definition nl : Z := 10.
Definition cr : Z := 13.

Definition cons_lock : kptr := KSym "cons" 0.
Definition cons_r_chan : kptr := KSym "cons.r" 0.
Definition pr_lock : kptr := KSym "pr" 0.
Definition CONSOLE : Z := 1.

(** "0123456789abcdef" *)
Definition kdigits : list Z := [48;49;50;51;52;53;54;55;56;57;97;98;99;100;101;102].

(** An argument of the kernel's [printf]: a number or a string. *)
Inductive karg := KInt (z : Z) | KStr (s : option (list Z)).

(** The text of a string literal. *)
Definition text (s : string) : list Z :=
  (fun c => Z.of_nat (Ascii.nat_of_ascii c)) <$> String.list_ascii_of_string s.

Section console.
Context {H R : Type} {hw : UartHw H} {L : DevLayer H R}.
Abbreviation St := (Kst R).

Definition consputc (c : Z) : M St unit :=
  if c =? BACKSPACE then uartputc_sync 8;;; uartputc_sync 32;;; uartputc_sync 8
  else uartputc_sync c.

(** ** kernel/printf.c *)

(** Named apart from the user library's [printint], whose digit loop and
    16-byte buffer it shares. *)
Definition kprintint (xx base : Z) (sgn : bool) : M St unit :=
  let neg := sgn && (xx <? 0) in
  let x := if neg then u32 (- xx) else u32 xx in
  let* buf := digits_loop kdigits x base in
  let* buf := (if neg then buf_push buf 45 else ret buf) in
  mfor (rev buf) consputc.

Definition kprintptr (x : Z) : M St unit :=
  consputc 48;;;
  consputc 120;;;
  mfor (seq 0 16) (fun i =>
    let* d := deref (kdigits !! Z.to_nat (u64 (Z.shiftl x (4 * Z.of_nat i)) / 2 ^ 60)) in
    consputc d).

(** One conversion; an argument of the wrong kind is not defined by C. *)
Definition kprintf_conv (c : Z) (ap : list karg) : M St (list karg) :=
  if c =? 100 (* 'd' *) then
    match ap with KInt a :: ap => kprintint (s32 a) 10 true;;; ret ap | _ => fault end
  else if c =? 120 (* 'x' *) then
    match ap with KInt a :: ap => kprintint (s32 a) 16 true;;; ret ap | _ => fault end
  else if c =? 112 (* 'p' *) then
    match ap with KInt a :: ap => kprintptr (u64 a);;; ret ap | _ => fault end
  else if c =? 115 (* 's' *) then
    match ap with
    | KStr s :: ap => mfor (cstr (default null_text s)) consputc;;; ret ap
    | _ => fault
    end
  else if c =? 37 (* '%' *) then consputc 37;;; ret ap
  else consputc 37;;; consputc c;;; ret ap.

Fixpoint kprintf_loop (fmt : list Z) (ap : list karg) : M St unit :=
  match fmt with
  | [] => ret tt
  | c :: fmt =>
      if negb (c =? 37) then consputc c;;; kprintf_loop fmt ap else
      match fmt with
      | [] => ret tt
      | c :: fmt => let* ap := kprintf_conv c ap in kprintf_loop fmt ap
      end
  end.

(** After [printfinit]; the format is a string literal. *)
Definition kprintf (fmt : list Z) (ap : list karg) : M St unit :=
  acquire pr_lock;;;
  kprintf_loop fmt ap;;;
  release pr_lock.

(** ** kernel/proc.c: the process listing *)

Definition state_name (st : procstate) : string :=
  match st with
  | UNUSED => "unused" | USED => "used" | SLEEPING => "sleep "
  | RUNNABLE => "runble" | RUNNING => "run   " | ZOMBIE => "zombie"
  end.

Definition procdump : M St unit :=
  kprintf [nl] [];;;
  mfor (seq 0 NPROC) (fun p =>
    let* q := getp p in
    if bool_decide (p_state q = UNUSED) then ret tt else
    kprintf (text "%d %s %s") [KInt (p_pid q); KStr (Some (text (state_name (p_state q)))); KStr (Some (p_name q))];;;
    kprintf [nl] []).

(** ** kernel/console.c: input *)

Definition modcons (f : console -> console) : M St unit :=
  moddev (fun d => d.[d_cons := f (d_cons d)]).

(** The character at index [i] of the circular buffer. *)
Definition cons_at (i : Z) : M St Z :=
  let* d := getdev in deref (c_buf (d_cons d) !! Z.to_nat (i mod INPUT_BUF_SIZE)).

(** [C('U')]: erase back to the beginning of the line; at most the whole
    buffer. *)
Definition kill_line : M St unit :=
  while (S (Z.to_nat INPUT_BUF_SIZE)) (fun _ : unit =>
    let* d := getdev in
    let c := d_cons d in
    if c_e c =? c_w c then ret (inr tt) else
    let* last := cons_at (u32 (c_e c - 1)) in
    if last =? nl then ret (inr tt) else
    modcons (fun c => c.[c_e := u32 (c_e c - 1)]);;;
    consputc BACKSPACE;;;
    ret (inl tt)) tt.

Definition backspace : M St unit :=
  let* d := getdev in
  let c := d_cons d in
  if negb (c_e c =? c_w c) then
    modcons (fun c => c.[c_e := u32 (c_e c - 1)]);;;
    consputc BACKSPACE
  else ret tt.

Definition enter_char (c : Z) : M St unit :=
  let* d := getdev in
  let cs := d_cons d in
  if negb (c =? 0) && (u32 (c_e cs - c_r cs) <? INPUT_BUF_SIZE) then
    let c := if c =? cr then nl else c in
    consputc c;;;
    modcons (fun cs => cs.[c_buf := <[Z.to_nat (c_e cs mod INPUT_BUF_SIZE) := u8 c]> (c_buf cs)]
                         .[c_e := u32 (c_e cs + 1)]);;;
    let* d := getdev in
    let cs := d_cons d in
    if (c =? nl) || (c =? ctrl_d) || (u32 (c_e cs - c_r cs) =? INPUT_BUF_SIZE) then
      modcons (fun cs => cs.[c_w := c_e cs]);;;
      wakeup cons_r_chan
    else ret tt
  else ret tt.

Definition consoleintr (c : Z) : M St unit :=
  acquire cons_lock;;;
  (if c =? ctrl_p then procdump
   else if c =? ctrl_u then kill_line
   else if (c =? ctrl_h) || (c =? del) then backspace
   else enter_char c);;;
  release cons_lock.

(** kernel/uart.c; [n] bounds the characters that arrive. *)
Definition uartintr (n : nat) : M St unit :=
  while (S n) (fun _ : unit =>
    let* c := uartgetc in
    if c =? -1 then ret (inr tt) else consoleintr c;;; ret (inl tt)) tt;;;
  acquire uart_tx_lock;;;
  uartstart;;;
  release uart_tx_lock.
End console.

(** ** kernel/console.c: system calls *)

Section console_rw.
Context {img : KernelImage} {H R : Type} {hw : UartHw H} {L : DevLayer H R}.
Abbreviation St := (Kst (KMem R)).

(** [m]: wakeups in vain of one [uartputc]. *)
Definition consolewrite (m : nat) (user_src : bool) (src n : Z) : M St Z :=
  while (S (Z.to_nat n)) (fun i =>
    if negb (i <? n) then ret (inr i) else
    let* '(r, bs) := either_copyin user_src (u64 (src + i)) 1 in
    if r =? -1 then ret (inr i) else
    let* c := deref (head bs) in
    uartputc m c;;;
    ret (inl (i + 1))) 0.

(** The wait for input; [true] is [return -1]. *)
Definition consoleread_wait (m : nat) : M St bool :=
  while (S m) (fun _ : unit =>
    let* d := getdev in
    if negb (c_r (d_cons d) =? c_w (d_cons d)) then ret (inr false) else
    let* p := curproc in
    let* k := killed p in
    if negb (k =? 0) then release cons_lock;;; ret (inr true) else
    sleep cons_r_chan cons_lock;;;
    ret (inl tt)) tt.

(** One character, for the [n] bytes wanted of [target]: go on with the rest,
    or leave the loop. *)
Definition consoleread_body (m : nat) (user_dst : bool) (target dst n : Z) : M St (Z * Z + option Z) :=
  let* dead := consoleread_wait m in
  if dead then ret (inr None) else
  let* d := getdev in
  let r := c_r (d_cons d) in
  let* c := cons_at r in
  modcons (fun c => c.[c_r := u32 (r + 1)]);;;
  if c =? ctrl_d then
    (if u32 n <? target then modcons (fun c => c.[c_r := u32 (c_r c - 1)]) else ret tt);;;
    ret (inr (Some n))
  else
    let* e := either_copyout user_dst dst [c] in
    if e =? -1 then ret (inr (Some n)) else
    let dst := u64 (dst + 1) in
    let n := n - 1 in
    if c =? nl then ret (inr (Some n)) else ret (inl (dst, n)).

Definition consoleread (m : nat) (user_dst : bool) (dst n : Z) : M St Z :=
  let target := u32 n in
  acquire cons_lock;;;
  let* r := while (S (Z.to_nat n)) (fun '(dst, n) =>
    if 0 <? n then consoleread_body m user_dst target dst n else ret (inr (Some n))) (dst, n) in
  match r with
  | None => ret (-1)
  | Some n => release cons_lock;;; ret (s32 (target - u32 n))
  end.
End console_rw.

(** [consoleinit]: the entries of [devsw]. *)
#[export] Instance console_devices {img : KernelImage} {H R : Type} {hw : UartHw H}
    {L : DevLayer H R} {pt : Patience} : Devices R := {|
  devsw_read major :=
    if major =? CONSOLE then Some (fun addr n => consoleread patience true addr n) else None;
  devsw_write major :=
    if major =? CONSOLE then Some (fun addr n => consolewrite patience true addr n) else None;
|}.
