(* ===== verification/ConsoleThm.v ===== *)
(** The line discipline of the console: [consoleintr] implements a line editor
    on the characters committed to readers and the line being edited, whatever
    the position of the circular buffer's indices, wrap-around included. *)

From S2P Require Import Prelude CInt Machine KString Sched Sleeplock Kalloc Vm Proc Printf Uart Console.

(** ** The line editor *)

(** The erasing of one character on the screen. *)
Definition rubout : list Z := [8; 32; 8].

(** What typing [c] does to the committed characters [com] and the pending
    line [pend]. *)
Definition edit (c : Z) (com pend : list Z) : list Z * list Z :=
  if c =? ctrl_p then (com, pend)
  else if c =? ctrl_u then (com, [])
  else if (c =? ctrl_h) || (c =? del) then (com, removelast pend)
  else if (c =? 0) || (INPUT_BUF_SIZE <=? Z.of_nat (length com + length pend)) then (com, pend)
  else
    let c := if c =? cr then nl else c in
    let pend := pend ++ [c] in
    if (c =? nl) || (c =? ctrl_d) || (Z.of_nat (length com + length pend) =? INPUT_BUF_SIZE)
    then (com ++ pend, []) else (com, pend).

(** What it shows on the screen, the process listing apart. *)
Definition echo (c : Z) (com pend : list Z) : list Z :=
  if c =? ctrl_p then []
  else if c =? ctrl_u then mjoin (replicate (length pend) rubout)
  else if (c =? ctrl_h) || (c =? del) then (if decide (pend = []) then [] else rubout)
  else if (c =? 0) || (INPUT_BUF_SIZE <=? Z.of_nat (length com + length pend)) then []
  else [if c =? cr then nl else c].

(** ** The circular buffer *)

(** The buffer holds [com] from index [r] to [w] and [pend] from [w] to [e]. *)
Record cons_ring (c : console) (com pend : list Z) : Prop := {
  cr_len : length (c_buf c) = 128%nat;
  cr_r : 0 <= c_r c < W32;
  cr_w : c_w c = u32 (c_r c + Z.of_nat (length com));
  cr_e : c_e c = u32 (c_r c + Z.of_nat (length com + length pend));
  cr_n : Z.of_nat (length com + length pend) <= INPUT_BUF_SIZE;
  cr_at : forall k b, (com ++ pend) !! k = Some b ->
    c_buf c !! Z.to_nat ((c_r c + Z.of_nat k) mod INPUT_BUF_SIZE) = Some b;
}.

(** The pending line has no end of line, and a full buffer is committed. *)
Record cons_ok (c : console) (com pend : list Z) : Prop := {
  co_ring : cons_ring c com pend;
  co_line : nl ∉ pend;
  co_full : pend <> [] -> Z.of_nat (length com + length pend) < INPUT_BUF_SIZE;
}.

Ltac cons_unfold := unfold INPUT_BUF_SIZE, u32 in *.

Lemma cons_pending c com pend : cons_ring c com pend -> c_e c = c_w c <-> pend = [].
Proof.
  intros [H1 H2 H3 H4 H5 H6]. rewrite H3, H4. destruct pend as [|x p].
  - by rewrite Nat.add_0_r.
  - split; [|done]. cbn [length] in *. cons_unfold. intros E. exfalso. dlia.
Qed.

Lemma cons_used c com pend : cons_ring c com pend ->
  u32 (c_e c - c_r c) = Z.of_nat (length com + length pend).
Proof. intros [H1 H2 H3 H4 H5 H6]. rewrite H4. cons_unfold. dlia. Qed.

Lemma cons_erase c com p x : cons_ring c com (p ++ [x]) ->
  c_buf c !! Z.to_nat (u32 (c_e c - 1) mod INPUT_BUF_SIZE) = Some x /\
  cons_ring (c.[c_e := u32 (c_e c - 1)]) com p.
Proof.
  intros [H1 H2 H3 H4 H5 H6]. rewrite length_app in *. cbn [length] in *. split.
  - rewrite <- (H6 (length com + length p)%nat x).
    + rewrite H4. do 2 f_equal. cons_unfold. dlia.
    + rewrite app_assoc. apply lookup_app_Some. right. rewrite length_app, Nat.sub_diag. split; [lia|done].
  - split; simpl; [done|done|done| |lia|].
    + rewrite H4. cons_unfold. dlia.
    + intros k b Hk. apply H6. rewrite app_assoc. by apply lookup_app_l_Some.
Qed.

Lemma cons_enter c com pend x : cons_ring c com pend -> Z.of_nat (length com + length pend) < INPUT_BUF_SIZE ->
  cons_ring (c.[c_buf := <[Z.to_nat (c_e c mod INPUT_BUF_SIZE) := x]> (c_buf c)]
              .[c_e := u32 (c_e c + 1)]) com (pend ++ [x]).
Proof.
  intros [H1 H2 H3 H4 H5 H6] Hn.
  assert (Hslot : c_e c mod INPUT_BUF_SIZE =
    (c_r c + Z.of_nat (length com + length pend)) mod INPUT_BUF_SIZE) by (rewrite H4; cons_unfold; dlia).
  split; simpl; rewrite ?length_insert, ?length_app; cbn [length]; [done|done|done| |lia|].
  - rewrite H4. cons_unfold. dlia.
  - rewrite app_assoc. intros k b [Hk|[Hk Hb]]%lookup_app_Some.
    + rewrite list_lookup_insert_ne; [by apply H6|]. apply lookup_lt_Some in Hk.
      rewrite length_app in Hk. rewrite Hslot. cons_unfold. dlia.
    + rewrite length_app in *.
      assert (k = length com + length pend)%nat as -> by (apply lookup_lt_Some in Hb; simpl in Hb; lia).
      rewrite Nat.sub_diag in Hb. injection Hb as <-. rewrite Hslot.
      apply list_lookup_insert_eq. cons_unfold. dlia.
Qed.

Lemma cons_commit c com pend : cons_ring c com pend ->
  cons_ring (c.[c_w := c_e c]) (com ++ pend) [].
Proof.
  intros [H1 H2 H3 H4 H5 H6].
  split; simpl; rewrite ?app_nil_r, ?length_app, ?Nat.add_0_r; done.
Qed.

Lemma cons_take c x com pend : cons_ring c (x :: com) pend ->
  c_buf c !! Z.to_nat (c_r c mod INPUT_BUF_SIZE) = Some x /\
  cons_ring (c.[c_r := u32 (c_r c + 1)]) com pend.
Proof.
  intros [H1 H2 H3 H4 H5 H6]. cbn [length] in *. split.
  { rewrite <- (Z.add_0_r (c_r c)). by apply (H6 0%nat). }
  split; simpl; [done| | | |lia|].
  - cons_unfold. dlia.
  - rewrite H3. cons_unfold. dlia.
  - rewrite H4. cons_unfold. dlia.
  - intros k b Hk. rewrite <- (H6 (S k) b Hk). do 2 f_equal. cons_unfold. dlia.
Qed.

(** ** Output *)

Section console_exec.
Context {H R : Type} {hw : UartHw H} {hwok : UartHwOk H} {L : DevLayer H R}.
Abbreviation St := (Kst R).
Implicit Types s : St.

(** From [s] to [s'] the characters [out] were sent and nothing else changed. *)
Definition prints (out : list Z) s s' : Prop :=
  exists h, s' = with_dev ((dev s).[d_hw := h]) (procs s) s /\
    sent h = sent (d_hw (dev s)) ++ out /\ waiting h = waiting (d_hw (dev s)).

Lemma prints_nil s : prints [] s s.
Proof.
  exists (d_hw (dev s)). rewrite app_nil_r. split_and!; [|done|done].
  rewrite <- (with_dev_id s) at 1. by destruct (dev s).
Qed.

Lemma prints_app o1 o2 s1 s2 s3 : prints o1 s1 s2 -> prints o2 s2 s3 -> prints (o1 ++ o2) s1 s3.
Proof.
  intros (h & -> & Hs & Hw) (h' & -> & Hs' & Hw'). rewrite dev_with_dev in *. simpl in *.
  exists h'. rewrite with_dev_twice. split_and!; [by destruct (dev s1)| |congruence].
  by rewrite Hs', Hs, app_assoc.
Qed.

Lemma prints_held o h s s' : prints o (s.[held := h]) s' ->
  held s' = h /\ prints o s (s'.[held := held s]).
Proof.
  intros (h' & -> & Hs & Hw). change (dev (s.[held := h])) with (dev s) in *.
  split; [done|]. exists h'. by destruct s.
Qed.

(** The characters a [consputc] sends. *)
Definition put_out (c : Z) : list Z := if c =? BACKSPACE then rubout else [u8 c].

Lemma uartputc_sync_prints c s : exists s', uartputc_sync c s = Ok tt s' /\ prints [u8 c] s s'.
Proof.
  destruct (uartputc_sync_ok c s) as (s' & E & P & (d & ps & -> & _ & C & V) & U & S).
  exists (with_dev d ps s). split; [done|]. rewrite dev_with_dev in *. simpl in P. subst ps.
  exists (d_hw d). split_and!; [|done|done]. by destruct d, (dev s); simpl in *; subst.
Qed.

Lemma consputc_prints c s : exists s', consputc c s = Ok tt s' /\ prints (put_out c) s s'.
Proof.
  unfold consputc, put_out. destruct (c =? BACKSPACE); [|apply uartputc_sync_prints].
  destruct (uartputc_sync_prints 8 s) as (s1 & E1 & P1).
  destruct (uartputc_sync_prints 32 s1) as (s2 & E2 & P2).
  destruct (uartputc_sync_prints 8 s2) as (s3 & E3 & P3).
  exists s3. split; [by erewrite bind_Ok by exact E1; erewrite bind_Ok by exact E2|].
  exact (prints_app [8] [32; 8] _ _ _ P1 (prints_app [32] [8] _ _ _ P2 P3)).
Qed.

Lemma puts_prints l s : exists s', mfor l consputc s = Ok tt s' /\ prints (l ≫= put_out) s s'.
Proof.
  revert s. induction l as [|c l IH]; intros s; [exists s; split; [done|apply prints_nil]|].
  destruct (consputc_prints c s) as (s1 & E1 & P1). destruct (IH s1) as (s2 & E2 & P2).
  exists s2. split; [|by eapply prints_app]. simpl. by erewrite bind_Ok by exact E1.
Qed.

(** [printint] in base ten shows the digits the user library's shows: the
    tables agree up to 9. *)
Lemma kdigits_decimal d : 0 <= d < 10 -> kdigits !! Z.to_nat d = udigits !! Z.to_nat d.
Proof.
  intros Hd. rewrite <- (Z2Nat.id d) in Hd by lia. revert Hd. generalize (Z.to_nat d). intros k Hk.
  do 10 (destruct k as [|k]; [reflexivity|]). lia.
Qed.

Lemma digits_loop_decimal {T} x (s : T) :
  0 <= x < W32 -> digits_loop kdigits x 10 s = Ok (digits_of 32 x 10) s.
Proof. apply digits_loop_table; [exact kdigits_decimal|by left]. Qed.

(** Routines that print the characters [l] and do nothing else. *)
Definition emits (l : list Z) (m : M St unit) : Prop :=
  forall s, exists s', m s = Ok tt s' /\ prints (l ≫= put_out) s s'.

Lemma emits_seq l1 l2 m1 m2 : emits l1 m1 -> emits l2 m2 -> emits (l1 ++ l2) (m1;;; m2).
Proof.
  intros H1 H2 s. destruct (H1 s) as (s1 & E1 & P1). destruct (H2 s1) as (s2 & E2 & P2).
  exists s2. split; [by erewrite bind_Ok by exact E1|]. rewrite bind_app. by eapply prints_app.
Qed.

Lemma emits_puts l : emits l (mfor l consputc).
Proof. intros s. apply puts_prints. Qed.

Lemma emits_putc c : emits [c] (consputc c).
Proof. intros s. simpl. rewrite app_nil_r. apply consputc_prints. Qed.

Lemma emits_ret : emits [] (ret tt).
Proof. intros s. exists s. split; [done|apply prints_nil]. Qed.

Lemma emits_int xx sgn : emits (int_text xx 10 sgn) (kprintint xx 10 sgn).
Proof.
  intros s. unfold kprintint, int_text. cbv zeta. destruct (sgn && (xx <? 0)).
  - pose proof (digits_of_bounds 10 (u32 (- xx)) ltac:(by left) (u32_range _)) as [_ Hn].
    erewrite bind_Ok by (apply digits_loop_decimal, u32_range).
    rewrite (bind_Ok _ _ s (digits_of 32 (u32 (- xx)) 10 ++ [45]) s).
    + rewrite rev_app_distr. apply emits_puts.
    + unfold buf_push. by rewrite (proj2 (Nat.ltb_lt _ _)) by lia.
  - erewrite bind_Ok by (apply digits_loop_decimal, u32_range).
    erewrite bind_Ok by reflexivity. apply emits_puts.
Qed.

Lemma kprintf_emits fmt ap l s :
  emits l (kprintf_loop fmt ap) -> pr_lock ∉ held s ->
  exists s', kprintf fmt ap s = Ok tt s' /\ prints (l ≫= put_out) s s'.
Proof.
  intros Hm Hl. unfold kprintf. erewrite bind_Ok by (by apply acquire_ok).
  destruct (Hm (s.[held := pr_lock :: held s])) as (s1 & E & P).
  apply prints_held in P as [Hh P]. erewrite bind_Ok by exact E.
  eexists. split; [by apply (release_ok _ (held s))|exact P].
Qed.

(** A conversion that prints [m] and consumes one argument. *)
Lemma emits_conv c a ap fmt m l1 l2 :
  emits l1 m -> kprintf_conv c (a :: ap) = (m;;; ret ap) -> emits l2 (kprintf_loop fmt ap) ->
  emits (l1 ++ l2) (kprintf_loop (37 :: c :: fmt) (a :: ap)).
Proof.
  intros Hm Hc Hrest s. change (kprintf_loop (37 :: c :: fmt) (a :: ap)) with
    (let* ap := kprintf_conv c (a :: ap) in kprintf_loop fmt ap). rewrite Hc.
  destruct (Hm s) as (s1 & E1 & P1). destruct (Hrest s1) as (s2 & E2 & P2).
  exists s2. split; [|rewrite bind_app; by eapply prints_app].
  erewrite bind_Ok; [exact E2|]. by erewrite bind_Ok by exact E1.
Qed.

(** Text that is printed as it stands. *)
Lemma emits_text t fmt ap l :
  Forall (fun c => c <> 37) t -> emits l (kprintf_loop fmt ap) -> emits (t ++ l) (kprintf_loop (t ++ fmt) ap).
Proof.
  intros Ht Hm. induction Ht as [|c t Hc _ IH]; [done|].
  change (emits ([c] ++ t ++ l) (kprintf_loop (c :: t ++ fmt) ap)).
  cbn [kprintf_loop]. rewrite (proj2 (Z.eqb_neq _ _) Hc). cbn [negb]. by apply emits_seq; [apply emits_putc|].
Qed.

Lemma emits_newline : emits [nl] (kprintf_loop [nl] []).
Proof. apply (emits_text [nl] [] [] []); [by repeat constructor|apply emits_ret]. Qed.

(** The conversions the kernel's messages use. *)
Lemma emits_d z ap fmt l : emits l (kprintf_loop fmt ap) ->
  emits (int_text (s32 z) 10 true ++ l) (kprintf_loop (text "%d" ++ fmt) (KInt z :: ap)).
Proof. intros H1. eapply emits_conv; [apply emits_int|reflexivity|exact H1]. Qed.

Lemma emits_s b ap fmt l : emits l (kprintf_loop fmt ap) ->
  emits (cstr b ++ l) (kprintf_loop (text "%s" ++ fmt) (KStr (Some b) :: ap)).
Proof. intros H1. eapply emits_conv; [apply emits_puts|reflexivity|exact H1]. Qed.

Lemma emits_entry pid st name :
  emits (int_text (s32 pid) 10 true ++ [32] ++ cstr st ++ [32] ++ cstr name ++ [])
    (kprintf_loop (text "%d %s %s") [KInt pid; KStr (Some st); KStr (Some name)]).
Proof.
  apply (emits_d _ _ (text " %s %s")), (emits_text [32] (text "%s %s")); [by repeat constructor|].
  apply (emits_s _ _ (text " %s")), (emits_text [32] (text "%s")); [by repeat constructor|].
  apply (emits_s _ _ []), emits_ret.
Qed.

Lemma prints_same o s s' : prints o s s' -> procs s' = procs s /\ held s' = held s.
Proof. by intros (h & -> & _). Qed.

Lemma procdump_loop s :
  length (procs s) = NPROC -> pr_lock ∉ held s ->
  wp (mfor (seq 0 NPROC) (fun p =>
    let* q := getp p in
    if bool_decide (p_state q = UNUSED) then ret tt else
    kprintf (text "%d %s %s") [KInt (p_pid q); KStr (Some (text (state_name (p_state q)))); KStr (Some (p_name q))];;;
    kprintf [nl] [])) (fun _ s' => exists o, prints o s s') s.
Proof.
  intros Hlen Hl.
  eapply wp_mono; [apply (wp_mfor_idx (fun _ s' => exists o, prints o s s'))|]; [|..|auto].
  { exists []. apply prints_nil. }
  intros i x s1 Hx (o & P). apply lookup_seq in Hx as [-> Hi].
  apply prints_same in P as Hs. destruct Hs as [Hp Hh].
  destruct (lookup_lt_is_Some_2 (procs s1) (0 + i) ltac:(rewrite Hp, Hlen; simpl; lia)) as [q Hq].
  apply wp_seq. eapply wp_exec; [by apply getp_ok|]. case_bool_decide; [apply wp_ret; eauto|].
  destruct (kprintf_emits _ _ _ s1 (emits_entry (p_pid q) (text (state_name (p_state q))) (p_name q)))
    as (s2 & E2 & P2); [by rewrite Hh|].
  apply wp_seq. eapply wp_exec; [exact E2|].
  destruct (kprintf_emits [nl] [] _ s2 emits_newline) as (s3 & E3 & P3).
  { apply prints_same in P2 as [_ ->]. by rewrite Hh. }
  eapply wp_exec; [exact E3|]. eexists. eapply prints_app; [exact P|]. by eapply prints_app.
Qed.

Lemma procdump_prints s :
  length (procs s) = NPROC -> pr_lock ∉ held s ->
  exists o s', procdump s = Ok tt s' /\ prints o s s'.
Proof.
  intros Hlen Hl. unfold procdump.
  destruct (kprintf_emits [nl] [] _ s emits_newline Hl) as (s1 & E & P).
  erewrite bind_Ok by exact E. apply prints_same in P as Hs. destruct Hs as [Hp Hh].
  pose proof (procdump_loop s1 ltac:(congruence) ltac:(by rewrite Hh)) as W.
  apply wp_Ok in W as ([] & s' & E' & o' & P').
  exists (([nl] ≫= put_out) ++ o'), s'. split; [exact E'|by eapply prints_app].
Qed.

(** ** Input *)

(** The state after the console has printed [out] and its buffer become [c]. *)
Definition typed (c : console) (out : list Z) s s' : Prop :=
  exists h, s' = with_dev (DevS (d_uart (dev s)) c h) (procs s) s /\
    sent h = sent (d_hw (dev s)) ++ out /\ waiting h = waiting (d_hw (dev s)).

Lemma typed_id s : typed (d_cons (dev s)) [] s s.
Proof.
  exists (d_hw (dev s)). rewrite app_nil_r. split_and!; [|done|done].
  rewrite <- (with_dev_id s) at 1. by destruct (dev s).
Qed.

Lemma typed_prints o s s' : prints o s s' -> typed (d_cons (dev s)) o s s'.
Proof. intros (h & -> & Hs & Hw). exists h. split_and!; [by destruct (dev s)|done|done]. Qed.

Lemma typed_mod f s : exists s', modcons f s = Ok tt s' /\ typed (f (d_cons (dev s))) [] s s'.
Proof.
  eexists. split; [apply moddev_ok|]. exists (d_hw (dev s)). rewrite app_nil_r.
  split_and!; [by destruct (dev s)|done|done].
Qed.

Lemma typed_trans c1 c2 o1 o2 s1 s2 s3 :
  typed c1 o1 s1 s2 -> typed c2 o2 s2 s3 -> typed c2 (o1 ++ o2) s1 s3.
Proof.
  intros (h & -> & Hs & Hw) (h' & -> & Hs' & Hw'). rewrite dev_with_dev in *. simpl in *.
  exists h'. rewrite with_dev_twice. split_and!; [done| |congruence]. by rewrite Hs', Hs, app_assoc.
Qed.

Lemma typed_cons c o s s' : typed c o s s' -> d_cons (dev s') = c.
Proof. intros (h & -> & _). by rewrite dev_with_dev. Qed.

Lemma typed_same c o s s' : typed c o s s' -> procs s' = procs s /\ held s' = held s.
Proof. by intros (h & -> & _). Qed.

Lemma cons_at_ok i b s :
  c_buf (d_cons (dev s)) !! Z.to_nat (i mod INPUT_BUF_SIZE) = Some b -> cons_at i s = Ok b s.
Proof. intros Hb. unfold cons_at. erewrite bind_Ok by apply getdev_ok. by rewrite Hb. Qed.

Lemma erase_ok s com p x :
  cons_ring (d_cons (dev s)) com (p ++ [x]) ->
  exists c s', (modcons (fun c => c.[c_e := u32 (c_e c - 1)]);;; consputc BACKSPACE) s = Ok tt s' /\
    typed c rubout s s' /\ cons_ring c com p.
Proof.
  intros Hr. destruct (cons_erase _ _ _ _ Hr) as [_ Hr'].
  destruct (typed_mod (fun c => c.[c_e := u32 (c_e c - 1)]) s) as (s1 & E1 & T1).
  destruct (consputc_prints BACKSPACE s1) as (s2 & E2 & P2).
  eexists _, s2. split; [by erewrite bind_Ok by exact E1|]. split; [|exact Hr'].
  apply typed_prints in P2. rewrite (typed_cons _ _ _ _ T1) in P2.
  exact (typed_trans _ _ [] rubout _ _ _ T1 P2).
Qed.

Lemma kill_line_ok s com pend :
  cons_ring (d_cons (dev s)) com pend -> nl ∉ pend ->
  exists c s', kill_line s = Ok tt s' /\ typed c (mjoin (replicate (length pend) rubout)) s s' /\
    cons_ring c com [].
Proof.
  intros Hr Hnl. unfold kill_line.
  assert (Hn : (length pend < S (Z.to_nat INPUT_BUF_SIZE))%nat)
    by (pose proof (cr_n _ _ _ Hr); unfold INPUT_BUF_SIZE in *; lia).
  revert Hn. generalize (S (Z.to_nat INPUT_BUF_SIZE)) as n. intros n Hn.
  revert n s Hr Hn. induction pend as [|x p IH] using rev_ind; intros [|n] s Hr Hn; try lia.
  - eexists _, s. split; [|split; [apply typed_id|exact Hr]]. apply while_inr.
    erewrite bind_Ok by apply getdev_ok. cbv zeta.
    by rewrite (proj2 (Z.eqb_eq _ _) (proj2 (cons_pending _ _ _ Hr) eq_refl)).
  - apply not_elem_of_app in Hnl as [Hnl Hx]. rewrite list_elem_of_singleton in Hx.
    rewrite length_app in *. cbn [length] in *. rewrite Nat.add_1_r in *.
    destruct (cons_erase _ _ _ _ Hr) as [Hlast _].
    destruct (erase_ok s com p x Hr) as (c1 & s1 & E1 & T1 & R1).
    rewrite <- (typed_cons _ _ _ _ T1) in R1.
    destruct (IH Hnl n s1 R1 ltac:(lia)) as (c2 & s2 & E2 & T2 & R2).
    exists c2, s2. split; [|split; [exact (typed_trans _ _ _ _ _ _ _ T1 T2)|exact R2]].
    rewrite <- E2. apply while_inl. erewrite bind_Ok by apply getdev_ok. cbv zeta.
    rewrite (proj2 (Z.eqb_neq _ _)).
    2: { intros E. apply (cons_pending _ _ _ Hr) in E. by destruct p. }
    erewrite bind_Ok by (apply cons_at_ok; exact Hlast).
    rewrite (proj2 (Z.eqb_neq _ _)) by congruence.
    apply bind_Ok_inv in E1 as ([] & s0 & Ea & Eb). erewrite bind_Ok by exact Ea.
    by erewrite bind_Ok by exact Eb.
Qed.

Lemma removelast_snoc {A} (p : list A) x : removelast (p ++ [x]) = p.
Proof. rewrite removelast_app by done. simpl. apply app_nil_r. Qed.

Lemma backspace_ok s com pend :
  cons_ring (d_cons (dev s)) com pend ->
  exists c s', backspace s = Ok tt s' /\ typed c (if decide (pend = []) then [] else rubout) s s' /\
    cons_ring c com (removelast pend).
Proof.
  intros Hr. unfold backspace. erewrite bind_Ok by apply getdev_ok. cbv zeta.
  destruct (decide (pend = [])) as [->|Hp].
  - rewrite (proj2 (Z.eqb_eq _ _) (proj2 (cons_pending _ _ _ Hr) eq_refl)).
    eexists _, s. split; [done|]. split; [apply typed_id|done].
  - rewrite (proj2 (Z.eqb_neq _ _)) by (intros E; by apply Hp, (cons_pending _ _ _ Hr)).
    destruct pend as [|x p _] using rev_ind; [done|]. rewrite removelast_snoc. by apply (erase_ok s com p x).
Qed.

(** The end of an interrupt: [typed], and readers woken if [b]. *)
Definition served (b : bool) (c : console) (out : list Z) s s' : Prop :=
  exists h, s' = with_dev (DevS (d_uart (dev s)) c h)
      (if b then imap (wake_entry (cproc s) cons_r_chan) (procs s) else procs s) s /\
    sent h = sent (d_hw (dev s)) ++ out /\ waiting h = waiting (d_hw (dev s)).

Lemma typed_served c out s s' : typed c out s s' -> served false c out s s'.
Proof. done. Qed.

Lemma app_longer {A} (l p : list A) x : l ++ p ++ [x] <> l.
Proof. intros E. apply (f_equal length) in E. rewrite !length_app in E. simpl in E. lia. Qed.

Lemma enter_char_ok s com pend c :
  0 <= c < 256 -> can_wake s -> cons_ring (d_cons (dev s)) com pend ->
  c <> ctrl_p -> c <> ctrl_u -> c <> ctrl_h -> c <> del ->
  exists cs s', enter_char c s = Ok tt s' /\
    served (bool_decide ((edit c com pend).1 <> com)) cs (echo c com pend) s s' /\
    cons_ring cs (edit c com pend).1 (edit c com pend).2.
Proof.
  intros Hc W Hr Hp Hu Hh Hd. unfold enter_char, edit, echo.
  apply Z.eqb_neq in Hp, Hu, Hh, Hd. rewrite Hp, Hu, Hh, Hd. cbn [orb].
  erewrite bind_Ok by apply getdev_ok. cbv zeta. rewrite (cons_used _ _ _ Hr).
  rewrite Z.ltb_antisym.
  destruct ((c =? 0) || (INPUT_BUF_SIZE <=? Z.of_nat (length com + length pend))) eqn:Hfull.
  { rewrite <- negb_orb, Hfull. cbn [negb fst snd]. rewrite bool_decide_false by (intros E; by apply E).
    eexists _, s. split; [done|]. split; [apply typed_id|exact Hr]. }
  rewrite <- negb_orb, Hfull. cbn [negb]. apply orb_false_iff in Hfull as [_ Hfull].
  apply Z.leb_gt in Hfull.
  set (x := if c =? cr then nl else c).
  assert (Hx : 0 <= x < 256) by (unfold x, nl; destruct (c =? cr); lia).
  destruct (consputc_prints x s) as (s1 & E1 & P1). apply typed_prints in P1 as T1.
  assert (Hout : put_out x = [x]).
  { unfold put_out. rewrite (proj2 (Z.eqb_neq _ _)) by (unfold BACKSPACE; lia). by rewrite u8_small. }
  rewrite Hout in T1. erewrite bind_Ok by exact E1.
  destruct (typed_mod (fun cs => cs.[c_buf := <[Z.to_nat (c_e cs mod INPUT_BUF_SIZE) := u8 x]> (c_buf cs)]
                         .[c_e := u32 (c_e cs + 1)]) s1) as (s2 & E2 & T2).
  rewrite (typed_cons _ _ _ _ T1) in T2. pose proof (typed_trans _ _ _ _ _ _ _ T1 T2) as T.
  erewrite bind_Ok by exact E2. erewrite bind_Ok by apply getdev_ok. cbv zeta.
  pose proof (cons_enter _ _ _ (u8 x) Hr Hfull) as Hr2. rewrite u8_small in Hr2, T by done.
  rewrite (typed_cons _ _ _ _ T), (cons_used _ _ _ Hr2).
  destruct ((x =? nl) || (x =? ctrl_d) || _); cbn [fst snd].
  - rewrite bool_decide_true by apply app_longer.
    destruct (typed_mod (fun cs => cs.[c_w := c_e cs]) s2) as (s3 & E3 & T3).
    erewrite bind_Ok by exact E3. rewrite (typed_cons _ _ _ _ T) in T3.
    pose proof (typed_trans _ _ _ _ _ _ _ T T3) as (h & -> & Hs & Hw).
    eexists _, _. split; [apply wakeup_eq; [apply W|apply W]|].
    split; [exists h; split; [done|by split]|]. by apply cons_commit.
  - rewrite bool_decide_false by (intros E; by apply E).
    eexists _, s2. split; [done|]. split; [exact T|exact Hr2].
Qed.

(** The editor keeps the line well formed. *)
Lemma edit_ok c cs cs' com pend :
  cons_ok cs com pend -> cons_ring cs' (edit c com pend).1 (edit c com pend).2 ->
  cons_ok cs' (edit c com pend).1 (edit c com pend).2.
Proof.
  intros [_ Hl Hf] Hr. split; [exact Hr| |]; revert Hr; unfold edit;
    (destruct (c =? ctrl_p); [done|]);
    (destruct (c =? ctrl_u); [intros _; first [apply not_elem_of_nil|done]|]);
    (destruct ((c =? ctrl_h) || (c =? del)); [|
      destruct ((c =? 0) || _) eqn:Hb; [done|];
      destruct ((_ =? nl) || (_ =? ctrl_d) || _) eqn:Hc; [first [by intros _; apply not_elem_of_nil|done]|]]); cbn [fst snd].
  - destruct pend as [|x p _] using rev_ind; [done|]. rewrite removelast_snoc.
    intros _ Hin. apply Hl, elem_of_app. by left.
  - intros _. apply orb_false_iff in Hc as [[Hc _]%orb_false_iff _]. apply Z.eqb_neq in Hc.
    intros [Hin|Hin%list_elem_of_singleton]%elem_of_app; congruence.
  - destruct pend as [|x p _] using rev_ind; [done|]. rewrite removelast_snoc. intros _ Hp.
    rewrite length_app in Hf. specialize (Hf ltac:(by destruct p)). simpl in Hf. lia.
  - intros Hr _. apply orb_false_iff in Hc as [_ Hc%Z.eqb_neq]. pose proof (cr_n _ _ _ Hr). lia.
Qed.

(** C25: the console is a line editor. When the buffer holds the committed
    characters [com] and the unfinished line [pend], the interrupt for a typed
    character leaves exactly what [edit] prescribes: backspace removes the
    last character of the line, ^U the line, and neither touches what was
    committed; a carriage return becomes a newline; newline, ^D and a full
    buffer commit the line and wake the readers, and only then; a character
    that finds the buffer full is dropped.  The screen shows exactly the
    [echo], the ring stays well formed wherever its 32-bit indices are, the
    output queue and the characters not yet read from the port are untouched,
    and the locks held are those held before. *)
Theorem consoleintr_edits c s com pend :
  0 <= c < 256 -> can_wake s -> cons_lock ∉ held s -> pr_lock ∉ held s ->
  cons_ok (d_cons (dev s)) com pend ->
  exists cs out s', consoleintr c s = Ok tt s' /\
    cons_ok cs (edit c com pend).1 (edit c com pend).2 /\
    served (bool_decide ((edit c com pend).1 <> com)) cs out s s' /\
    (c <> ctrl_p -> out = echo c com pend).
Proof.
  intros Hc W Hl Hpl Hok. pose proof (co_ring _ _ _ Hok) as Hr. unfold consoleintr.
  erewrite bind_Ok by (by apply acquire_ok). set (s1 := s.[held := cons_lock :: held s]).
  assert (W1 : can_wake s1).
  { split; [apply W|]. intros i Hi. apply not_elem_of_cons. split; [done|]. by apply (proj2 W). }
  assert (Hend : forall b cs out s2, served b cs out s1 s2 -> cons_ring cs (edit c com pend).1 (edit c com pend).2 ->
    b = bool_decide ((edit c com pend).1 <> com) -> (c <> ctrl_p -> out = echo c com pend) ->
    exists cs out s', release cons_lock s2 = Ok tt s' /\
      cons_ok cs (edit c com pend).1 (edit c com pend).2 /\
      served (bool_decide ((edit c com pend).1 <> com)) cs out s s' /\ (c <> ctrl_p -> out = echo c com pend)).
  { intros b cs out s2 (h & -> & Hs & Hw) Hr2 -> Ho. exists cs, out. eexists.
    split; [by apply (release_ok _ (held s))|]. split; [by eapply edit_ok|].
    split; [|done]. exists h. split; [|by split]. unfold s1. by destruct s. }
  unfold edit in Hend. unfold edit. destruct (Z.eqb_spec c ctrl_p) as [->|Hp].
  { destruct (procdump_prints s1 (proj1 W1)) as (o & s2 & E & P).
    { apply not_elem_of_cons. by split. }
    erewrite bind_Ok by exact E. eapply Hend; [by apply typed_served, typed_prints|exact Hr| |done].
    by rewrite bool_decide_false by (intros X; by apply X). }
  destruct (Z.eqb_spec c ctrl_u) as [Hu|Hu].
  { destruct (kill_line_ok s1 com pend Hr (co_line _ _ _ Hok)) as (cs & s2 & E & T & R2).
    erewrite bind_Ok by exact E. eapply Hend; [by apply typed_served|exact R2| |].
    - by rewrite bool_decide_false by (intros X; by apply X).
    - intros _. unfold echo. by rewrite Hu. }
  destruct ((c =? ctrl_h) || (c =? del)) eqn:Hb.
  { destruct (backspace_ok s1 com pend Hr) as (cs & s2 & E & T & R2).
    erewrite bind_Ok by exact E. eapply Hend; [by apply typed_served|exact R2| |].
    - by rewrite bool_decide_false by (intros X; by apply X).
    - intros _. unfold echo. apply Z.eqb_neq in Hp, Hu. by rewrite Hp, Hu, Hb. }
  apply orb_false_iff in Hb as [Hb1%Z.eqb_neq Hb2%Z.eqb_neq].
  destruct (enter_char_ok s1 com pend c Hc W1 Hr Hp Hu Hb1 Hb2) as (cs & s2 & E & T & R2).
  erewrite bind_Ok by exact E. unfold edit in T, R2.
  apply Z.eqb_neq in Hp as Hp', Hu as Hu', Hb1 as Hb1', Hb2 as Hb2'.
  rewrite Hp', Hu', Hb1', Hb2' in T, R2. cbn [orb] in T, R2.
  eapply Hend; [exact T|exact R2|done|done].
Qed.
End console_exec.

(** ** Witness *)

(** A committed line across the wrap-around of the 32-bit indices, and the
    character [97] pending. *)
Definition demo_console : console :=
  Console (<[127%nat := 104]> (10 :: 97 :: replicate 126 0)) (W32 - 1) 1 2.
Definition demo_cons_st : Kst (Devs demo_port) :=
  demo_uart_st.[krest := DevS demo_uart demo_console (Port [] [] 0)].

Lemma demo_cons_ok : cons_ok demo_console [104; 10] [97].
Proof.
  split.
  - split; try done. intros [|[|[|k]]] b Hb; try done; injection Hb as <-; by vm_compute.
  - by intros [=]%list_elem_of_singleton.
  - done.
Qed.

Lemma consoleintr_edits_witness :
  exists cs s', consoleintr 13 demo_cons_st = Ok tt s' /\ cons_ok cs [104; 10; 97; 10] [] /\
    served true cs [10] demo_cons_st s'.
Proof.
  destruct (consoleintr_edits 13 demo_cons_st [104; 10] [97]) as (cs & out & s' & E & C & S & O).
  - lia.
  - split; [done|]. intros i _. apply not_elem_of_nil.
  - apply not_elem_of_nil.
  - apply not_elem_of_nil.
  - exact demo_cons_ok.
  - rewrite O in S by (unfold ctrl_p, Ctrl; lia). exists cs, s'. split; [exact E|]. split; [exact C|exact S].
Defined.

(** ^U erases the line from the screen and from the buffer. *)
Example consoleintr_kill :
  match consoleintr 21 demo_cons_st with
  | Ok _ s => (port_out (d_hw (krest s)), c_w (d_cons (krest s)), c_e (d_cons (krest s)))
  | _ => ([], 0, 0)
  end = ([8; 32; 8], 1, 1).
Proof. by vm_compute. Qed.
