(* ===== verification/Sysproc.v ===== *)
(** The process system calls (kernel/sysproc.c) and the system call
    dispatcher (the second half of kernel/syscall.c). *)

From S2P Require Import Prelude CInt Machine KString Sched Sleeplock Kalloc Vm Proc Pipe Bio Log Fs File Exec Sysfile Uart Console.

Section sysproc.
Context {img : KernelImage} {R : Type} {dd : DiskDriver (LogSt (FsSt (FileSt R)))}
  {dev : Devices R} {pt : Patience} {H : Type} {hw : UartHw H} {L : DevLayer H R}.
Abbreviation St := (KState R).

Definition sys_exit : M St Z :=
  let* n := argint 0 in Proc.exit n;;; ret 0.

Definition sys_getpid : M St Z :=
  let* p := curproc in let* q := getp p in ret (p_pid q).

Definition sys_fork : M St Z := fork.

Definition sys_wait : M St Z := let* p := argaddr 0 in Proc.wait patience p.

Definition sys_sbrk : M St Z :=
  let* n := argint 0 in
  let* p := curproc in
  let* q := getp p in
  let addr := p_sz q in
  let* r := growproc n in
  ret (if r <? 0 then u64 (-1) else addr).

(** [ticks] is a [uint]; the comparison is unsigned. *)
Definition sys_sleep : M St Z :=
  let* n := argint 0 in
  acquire tickslock;;;
  let* ticks0 := gets ticks in
  while (S patience) (fun _ : unit =>
    let* t := gets ticks in
    if negb (u32 (t - ticks0) <? u32 n) then
      release tickslock;;; ret (inr 0)
    else
      let* p := curproc in
      let* k := killed p in
      if negb (k =? 0) then release tickslock;;; ret (inr (-1)) else
      sleep (KSym "ticks" 0) tickslock;;;
      ret (inl tt)) tt.

Definition sys_kill : M St Z := let* pid := argint 0 in kill pid.

Definition sys_uptime : M St Z :=
  acquire tickslock;;;
  let* xticks := gets ticks in
  release tickslock;;;
  ret xticks.

(** [spoon] of kernel/proc.c. *)
Definition spoon (arg : Z) : M St Z :=
  kprintf (text "In spoon system call with argument %p" ++ [nl]) [KInt arg];;;
  ret 0.

Definition sys_spoon : M St Z := let* addr := argaddr 0 in spoon addr.

Definition sys_thread_create : M St Z :=
  let* fn := argaddr 0 in
  let* arg := argaddr 1 in
  let* r := argaddr 2 in
  thread_create fn arg r.

(** The result passes through an [int]. *)
Definition sys_thread_join : M St Z :=
  let* tid := argint 0 in
  let* r := thread_join patience tid in
  ret (s32 r).

Definition sys_thread_exit : M St Z := thread_exit;;; ret 0.

(** ** kernel/syscall.h, kernel/syscall.c *)

Inductive sysno :=
| SYS_fork | SYS_exit | SYS_wait | SYS_pipe | SYS_read | SYS_kill | SYS_exec | SYS_fstat
| SYS_chdir | SYS_dup | SYS_getpid | SYS_sbrk | SYS_sleep | SYS_uptime | SYS_open | SYS_write
| SYS_mknod | SYS_unlink | SYS_link | SYS_mkdir | SYS_close
| SYS_spoon | SYS_thread_create | SYS_thread_join | SYS_thread_exit.

(** [syscalls[]] is filled from number 1 on, in this order. *)
Definition syscall_numbers : list sysno :=
  [SYS_fork; SYS_exit; SYS_wait; SYS_pipe; SYS_read; SYS_kill; SYS_exec; SYS_fstat;
   SYS_chdir; SYS_dup; SYS_getpid; SYS_sbrk; SYS_sleep; SYS_uptime; SYS_open; SYS_write;
   SYS_mknod; SYS_unlink; SYS_link; SYS_mkdir; SYS_close;
   SYS_spoon; SYS_thread_create; SYS_thread_join; SYS_thread_exit].

Definition syscalls (pad : list Z) (n : sysno) : M St Z :=
  match n with
  | SYS_fork => sys_fork
  | SYS_exit => sys_exit
  | SYS_wait => sys_wait
  | SYS_pipe => sys_pipe
  | SYS_read => sys_read
  | SYS_kill => sys_kill
  | SYS_exec => sys_exec
  | SYS_fstat => sys_fstat pad
  | SYS_chdir => sys_chdir
  | SYS_dup => sys_dup
  | SYS_getpid => sys_getpid
  | SYS_sbrk => sys_sbrk
  | SYS_sleep => sys_sleep
  | SYS_uptime => sys_uptime
  | SYS_open => sys_open
  | SYS_write => sys_write
  | SYS_mknod => sys_mknod
  | SYS_unlink => sys_unlink
  | SYS_link => sys_link
  | SYS_mkdir => sys_mkdir
  | SYS_close => sys_close
  | SYS_spoon => sys_spoon
  | SYS_thread_create => sys_thread_create
  | SYS_thread_join => sys_thread_join
  | SYS_thread_exit => sys_thread_exit
  end.

Definition syscall (pad : list Z) : M St unit :=
  let* p := curproc in
  let* q := getp p in
  let* num := ld64 (p_trapframe q + TF_a 7) in
  let num := s32 num in
  match (if 0 <? num then syscall_numbers !! Z.to_nat (num - 1) else None) with
  | Some n =>
      let* r := syscalls pad n in
      let* q := getp p in
      st64 (p_trapframe q + TF_a 0) (u64 r)
  | None =>
      kprintf (text "%d %s: unknown sys call %d" ++ [nl]) [KInt (p_pid q); KStr (Some (p_name q)); KInt num];;;
      st64 (p_trapframe q + TF_a 0) (u64 (-1))
  end.
End sysproc.
