(* ===== verification/SyscallThm.v ===== *)
(** What the system call layer guarantees: the registers a system call reads
    its arguments from, the calls the kernel refuses, and the reference counts
    of the open-file table under [dup] and [close]. *)

From S2P Require Import Prelude CInt Machine KString Sched Sleeplock Kalloc Vm Proc Pipe Bio Log Fs File Exec Sysfile Printf Uart Console ConsoleThm Sysproc.

(** ** The calling process *)

(** Argument register [n] in the trapframe of [q]. *)
Definition tf_arg (m : gmap Z Z) (q : proc) (n : Z) : Z :=
  le_combine (mread m (p_trapframe q + TF_a n) 8).

(** The file open on descriptor [fd] of [q]. *)
Definition fd_file (q : proc) (fd : Z) : option (nat * nat) :=
  if (fd <? 0) || (Z.of_nat NOFILE <=? fd) then None else
  match p_ofile q !! Z.to_nat fd with
  | Some (Some f) => Some (Z.to_nat fd, f)
  | _ => None
  end.

(** The calls that take a descriptor as their first argument. *)
Definition fd_calls : list sysno := [SYS_read; SYS_write; SYS_dup; SYS_close; SYS_fstat].

(** Number [num] is none of the calls. *)
Definition unknown_call (num : Z) : Prop := ~ 1 <= num <= Z.of_nat (length syscall_numbers).

(** It is a call on descriptor [fd], which is not open. *)
Definition bad_descriptor (q : proc) (num fd : Z) : Prop :=
  exists n, 1 <= num /\ syscall_numbers !! Z.to_nat (num - 1) = Some n /\ n ∈ fd_calls /\ fd_file q fd = None.

(** What the kernel prints about an unknown call of [q]. *)
Definition unknown_msg (q : proc) (num : Z) : list Z :=
  int_text (s32 (p_pid q)) 10 true ++ text " " ++ cstr (p_name q) ++ text ": unknown sys call " ++
  int_text (s32 num) 10 true ++ [nl].

Section syscall_args.
Context {img : KernelImage} {imgok : KernelImageOk} {R : Type}
  {dd : DiskDriver (LogSt (FsSt (FileSt R)))} {dev : Devices R} {pt : Patience}
  {H : Type} {hw : UartHw H} {L : DevLayer H R}.
Abbreviation St := (KState R).
Implicit Types s : St.

Record caller (p : nat) (q : proc) s : Prop := {
  caller_cur : cproc s = Some p;
  caller_proc : procs s !! p = Some q;
  caller_tf : page_ok (p_trapframe q);
}.

Context (p : nat) (q : proc) (s : St) (C : caller p q s).

Lemma tf_ram n : 0 <= n <= 7 -> in_ram (p_trapframe q + TF_a n) 8 = true.
Proof using C imgok.
  intros Hn. apply in_ram_field; [apply C|..]; unfold TF_a, PGSIZE; lia.
Qed.

Lemma argraw_ok n : 0 <= n <= 5 -> argraw n s = Ok (tf_arg (kmem s) q n) s.
Proof using C imgok.
  intros Hn. unfold argraw. erewrite bind_Ok by (apply curproc_ok, C).
  erewrite bind_Ok by (apply getp_ok, C).
  rewrite (proj2 (Z.leb_le 0 n)), (proj2 (Z.leb_le n 5)) by lia. simpl.
  apply ld64_ok, tf_ram. lia.
Qed.

Lemma argint_ok n : 0 <= n <= 5 -> argint n s = Ok (s32 (tf_arg (kmem s) q n)) s.
Proof using C imgok. intros Hn. unfold argint. by erewrite bind_Ok by (by apply argraw_ok). Qed.

Lemma argfd_ok : argfd 0 s = Ok (fd_file q (s32 (tf_arg (kmem s) q 0))) s.
Proof using C imgok.
  unfold argfd, fd_file. erewrite bind_Ok by (apply argint_ok; lia).
  destruct ((_ <? 0) || _); [done|].
  erewrite bind_Ok by (apply curproc_ok, C). erewrite bind_Ok by (apply getp_ok, C).
  by destruct (p_ofile q !! _) as [[f|]|].
Qed.

(** The dispatcher runs the handler and stores its result in [a0]. *)
Lemma syscall_returns pad n r :
  let num := s32 (tf_arg (kmem s) q 7) in
  1 <= num -> syscall_numbers !! Z.to_nat (num - 1) = Some n ->
  syscalls pad n s = Ok r s ->
  syscall pad s = Ok tt (set_mem (mwrite (kmem s) (p_trapframe q + TF_a 0) (le_split 8 (u64 r))) s).
Proof using C imgok.
  intros num Hnum Hn Hr. unfold syscall.
  erewrite bind_Ok by (apply curproc_ok, C). erewrite bind_Ok by (apply getp_ok, C).
  erewrite bind_Ok by (apply ld64_ok, tf_ram; lia). fold (tf_arg (kmem s) q 7). fold num.
  cbv zeta. rewrite (proj2 (Z.ltb_lt 0 num)), Hn by lia.
  erewrite bind_Ok by exact Hr. erewrite bind_Ok by (apply getp_ok, C).
  apply st64_ok, tf_ram. lia.
Qed.

Lemma fd_call_refused pad n :
  n ∈ fd_calls -> fd_file q (s32 (tf_arg (kmem s) q 0)) = None -> syscalls pad n s = Ok (-1) s.
Proof using C imgok.
  intros Hn Hf. pose proof argfd_ok as Ha. rewrite Hf in Ha.
  apply list_elem_of_In in Hn. simpl in Hn. destruct_or! Hn; subst n; try done; cbn [syscalls];
    unfold sys_read, sys_write, sys_dup, sys_close, sys_fstat, argaddr;
    try (erewrite bind_Ok by (apply argraw_ok; lia)); try (erewrite bind_Ok by (apply argint_ok; lia));
    by erewrite bind_Ok by exact Ha.
Qed.

Context {hwok : UartHwOk H}.

Lemma emits_unknown num :
  emits (R := KMem (BioSt (LogSt (FsSt (FileSt R))))) (unknown_msg q num) (kprintf_loop (text "%d %s: unknown sys call %d" ++ [nl])
    [KInt (p_pid q); KStr (Some (p_name q)); KInt num]).
Proof using hwok.
  apply (emits_d _ _ (text " %s: unknown sys call %d" ++ [nl])).
  apply (emits_text (text " ") (text "%s: unknown sys call %d" ++ [nl])); [by repeat constructor|].
  apply (emits_s _ _ (text ": unknown sys call %d" ++ [nl])).
  apply (emits_text (text ": unknown sys call ") (text "%d" ++ [nl])); [by repeat constructor|].
  apply (emits_d _ _ [nl]), emits_newline.
Qed.

(** C27: the kernel refuses a system call number it does not know, and a
    [read], [write], [dup], [close] or [fstat] of a descriptor that is
    negative, at least [NOFILE] or closed, whatever is in the other registers:
    the call returns -1 in [a0] of the caller's trapframe.  An unknown number
    is reported on the console, with the caller's pid and name (no caller holds
    the lock of the kernel's [printf]); nothing else
    changes but the serial port that sends the message, and for a bad
    descriptor nothing else at all. *)
Theorem syscall_refuses pad :
  let num := s32 (tf_arg (kmem s) q 7) in
  let refused (s' : St) := set_mem (mwrite (kmem s) (p_trapframe q + TF_a 0) (le_split 8 (W64 - 1))) s' in
  (unknown_call num -> pr_lock ∉ held s ->
     exists s', prints (unknown_msg q num ≫= put_out) s s' /\ syscall pad s = Ok tt (refused s')) /\
  (bad_descriptor q num (s32 (tf_arg (kmem s) q 0)) -> syscall pad s = Ok tt (refused s)).
Proof using C imgok hwok.
  change (W64 - 1) with (u64 (-1)). intros num refused. split.
  - intros Hnum Hpr. destruct (kprintf_emits _ _ _ s (emits_unknown num) Hpr) as (s' & E & P).
    exists s'. split; [exact P|]. destruct P as (h & -> & _).
    unfold syscall. erewrite bind_Ok by (apply curproc_ok, C). erewrite bind_Ok by (apply getp_ok, C).
    erewrite bind_Ok by (apply ld64_ok, tf_ram; lia). fold (tf_arg (kmem s) q 7). fold num. cbv zeta.
    replace (if 0 <? num then syscall_numbers !! Z.to_nat (num - 1) else None) with (@None sysno).
    + erewrite bind_Ok by exact E. etrans; [apply st64_ok, tf_ram; lia|done].
    + unfold unknown_call in Hnum. destruct (Z.ltb_spec 0 num); [|done]. by rewrite lookup_ge_None_2 by lia.
  - intros (n & Hnum & Hn & Hcall & Hfd). eapply syscall_returns; [done|exact Hn|]. by apply fd_call_refused.
Qed.
End syscall_args.

(** ** Reference counts of the open-file table *)

(** How many descriptors of the processes [ps] are open on file [f]. *)
Definition fd_refs (f : nat) (ps : list proc) : nat :=
  length (filter (fun o => o = Some f) (ps ≫= p_ofile)).

(** [f->ref] counts the descriptors open on [f], and no descriptor is open
    on anything but an entry of [ftable]. *)
Record fd_table (ps : list proc) (ft : list file) : Prop := {
  fd_entries : length ft = NFILE;
  fd_slots : Forall (fun q => length (p_ofile q) = NOFILE) ps;
  fd_counts : forall f x, ft !! f = Some x -> f_ref x = Z.of_nat (fd_refs f ps);
  fd_in : forall f, Some f ∈ ps ≫= p_ofile -> (f < NFILE)%nat;
}.

(** The table of a process with descriptor [fd] set to [o]. *)
Definition with_fd (q : proc) (fd : nat) (o : option nat) : proc :=
  q.[p_ofile := <[fd := o]> (p_ofile q)].

Lemma length_filter_insert {A} (P : A -> Prop) `{!forall x, Decision (P x)} l i x y :
  l !! i = Some x ->
  (length (filter P (<[i := y]> l)) + (if decide (P x) then 1 else 0) =
   length (filter P l) + (if decide (P y) then 1 else 0))%nat.
Proof.
  revert i. induction l as [|z l IH]; intros [|i] Hi; try done; simpl in *.
  - injection Hi as ->. rewrite !filter_cons. repeat case_decide; simpl; lia.
  - specialize (IH i Hi). rewrite !filter_cons. repeat case_decide; simpl; lia.
Qed.

Lemma filter_none {A} (P : A -> Prop) `{!forall x, Decision (P x)} l :
  Forall (fun x => ~ P x) l -> filter P l = [].
Proof. induction 1 as [|x l Hx _ IH]; [done|]. by rewrite filter_cons_False. Qed.

Lemma fd_refs_set f ps p q fd o o' :
  ps !! p = Some q -> p_ofile q !! fd = Some o ->
  (fd_refs f (<[p := with_fd q fd o']> ps) + (if decide (o = Some f) then 1 else 0) =
   fd_refs f ps + (if decide (o' = Some f) then 1 else 0))%nat.
Proof.
  unfold fd_refs. revert p. induction ps as [|r ps IH]; intros [|p] Hp Ho; try done; simpl in *.
  - injection Hp as ->. rewrite !filter_app, !length_app.
    pose proof (length_filter_insert (fun o => o = Some f) (p_ofile q) fd o o' Ho) as H.
    simpl. lia.
  - specialize (IH p Hp Ho). unfold mbind in IH. simpl. rewrite !filter_app, !length_app. lia.
Qed.

Lemma fd_refs_pos f ps p q fd :
  ps !! p = Some q -> p_ofile q !! fd = Some (Some f) -> (1 <= fd_refs f ps)%nat.
Proof.
  intros Hp Ho. pose proof (fd_refs_set f ps p q fd (Some f) None Hp Ho) as H.
  rewrite decide_True, decide_False in H by done. lia.
Qed.

Lemma fd_file_Some q fd i f :
  fd_file q fd = Some (i, f) -> i = Z.to_nat fd /\ 0 <= fd < Z.of_nat NOFILE /\ p_ofile q !! i = Some (Some f).
Proof.
  unfold fd_file. destruct ((fd <? 0) || (Z.of_nat NOFILE <=? fd)) eqn:Hr; [done|].
  destruct (p_ofile q !! Z.to_nat fd) as [[g|]|] eqn:Hq; intros [= <- <-]. split_and!; [done|lia|lia|done].
Qed.

(** Changing a descriptor together with the counts it concerns. *)
Lemma fd_table_set ps ft ft' p q fd o o' :
  fd_table ps ft -> ps !! p = Some q -> p_ofile q !! fd = Some o ->
  (forall g, o' = Some g -> (g < NFILE)%nat) -> length ft' = NFILE ->
  (forall f x', ft' !! f = Some x' -> exists x, ft !! f = Some x /\
     f_ref x' + (if decide (o = Some f) then 1 else 0) = f_ref x + (if decide (o' = Some f) then 1 else 0)) ->
  fd_table (<[p := with_fd q fd o']> ps) ft'.
Proof.
  intros [H1 H2 H3 H4] Hp Ho Hin Hl' Hft. split; [done| | |].
  - apply Forall_insert; [done|]. unfold with_fd, upd_field; simpl. rewrite length_insert.
    by apply (Forall_lookup_1 _ _ p q H2).
  - intros f x' Hx'. destruct (Hft f x' Hx') as (x & Hx & Hr). rewrite (H3 _ _ Hx) in Hr.
    pose proof (fd_refs_set f ps p q fd o o' Hp Ho). repeat case_decide; lia.
  - intros f (r & Hr1 & Hr2)%list_elem_of_bind. apply list_elem_of_lookup in Hr2 as [i Hi].
    destruct (decide (i = p)) as [->|Hne].
    + rewrite list_lookup_insert_eq in Hi by (by eapply lookup_lt_Some). injection Hi as <-.
      unfold with_fd, upd_field in Hr1; simpl in Hr1. apply list_elem_of_lookup in Hr1 as [j Hj].
      destruct (decide (j = fd)) as [->|Hne].
      * rewrite list_lookup_insert_eq in Hj by (by eapply lookup_lt_Some). apply Hin. congruence.
      * rewrite list_lookup_insert_ne in Hj by done. apply H4, list_elem_of_bind.
        exists q. split; [by eapply list_elem_of_lookup_2|by eapply list_elem_of_lookup_2].
    + rewrite list_lookup_insert_ne in Hi by done. apply H4, list_elem_of_bind.
      exists r. split; [done|by eapply list_elem_of_lookup_2].
Qed.

Section syscall_files.
Context {img : KernelImage} {imgok : KernelImageOk} {R : Type}
  {dd : DiskDriver (LogSt (FsSt (FileSt R)))} {dev : Devices R} {pt : Patience}.
Abbreviation St := (KState R).
Implicit Types s : St.

(** The state with another process table and another file table. *)
Definition set_files (ps : list proc) (ft : list file) s : St :=
  s.[procs := ps].[krest := (krest s).[kmrest := (kmrest (krest s)).[biorest :=
      (logst s).[logrest := (fsst s).[fsrest := (filest s).[ftable := ft]]]]]].

Lemma set_files_id s : set_files (procs s) (ftable (filest s)) s = s.
Proof. destruct s as [? ? ? ? ? ? [? ? ? [? [? ? ? ? ? ? ? [? ? []]]]]]. reflexivity. Qed.

Lemma getf_ok f x s : ftable (filest s) !! f = Some x -> getf f s = Ok x s.
Proof. intros H. unfold getf, getfiles, bind, gets. simpl. by rewrite H. Qed.

Lemma modf_ok f x g s :
  ftable (filest s) !! f = Some x ->
  modf f g s = Ok tt (set_files (procs s) (<[f := g x]> (ftable (filest s))) s).
Proof.
  intros H. unfold modf. erewrite bind_Ok by (by apply getf_ok).
  destruct s as [? ? ? ? ? ? [? ? ? [? [? ? ? ? ? ? ? [? ? []]]]]]. reflexivity.
Qed.

(** One more or one less reference, the file staying open. *)
Definition add_ref (d : Z) (x : file) : file := x.[f_ref := f_ref x + d].

Lemma filedup_ok f x s :
  ftable_lock ∉ held s -> ftable (filest s) !! f = Some x -> 1 <= f_ref x ->
  filedup f s = Ok f (set_files (procs s) (<[f := add_ref 1 x]> (ftable (filest s))) s).
Proof.
  intros Hl Hx Hr. unfold filedup. erewrite bind_Ok by (by apply acquire_ok).
  erewrite bind_Ok by (apply getf_ok; exact Hx).
  rewrite (proj2 (Z.ltb_ge _ _)) by done.
  erewrite bind_Ok by (apply modf_ok; exact Hx).
  erewrite bind_Ok by (eapply release_ok; [reflexivity|exact Hl]).
  by destruct s as [? ? ? ? ? ? [? ? ? [? [? ? ? ? ? ? ? [? ? []]]]]].
Qed.

Lemma fileclose_shared f x s :
  ftable_lock ∉ held s -> ftable (filest s) !! f = Some x -> 2 <= f_ref x ->
  File.fileclose f s = Ok tt (set_files (procs s) (<[f := add_ref (-1) x]> (ftable (filest s))) s).
Proof.
  intros Hl Hx Hr. unfold File.fileclose. erewrite bind_Ok by (by apply acquire_ok).
  erewrite bind_Ok by (apply getf_ok; exact Hx).
  rewrite (proj2 (Z.ltb_ge _ _)) by lia.
  erewrite bind_Ok by (apply modf_ok; exact Hx).
  assert (Hf : (f < length (ftable (filest s)))%nat) by (by eapply lookup_lt_Some).
  erewrite bind_Ok by (apply getf_ok; by apply list_lookup_insert_eq).
  rewrite (proj2 (Z.ltb_lt _ _)) by (simpl; lia).
  erewrite release_ok; [|reflexivity|exact Hl].
  by destruct s as [? ? ? ? ? ? [? ? ? [? [? ? ? ? ? ? ? [? ? []]]]]].
Qed.

Lemma set_ofile_ok p q fd o s :
  procs s !! p = Some q ->
  set_ofile p fd o s = Ok tt (set_files (<[p := with_fd q fd o]> (procs s)) (ftable (filest s)) s).
Proof.
  intros H. unfold set_ofile. rewrite (modp_ok _ _ _ _ H).
  by destruct s as [? ? ? ? ? ? [? ? ? [? [? ? ? ? ? ? ? [? ? []]]]]].
Qed.

(** [fdalloc] takes the lowest free descriptor. *)
Lemma fdalloc_ok p q f s :
  cproc s = Some p -> procs s !! p = Some q -> length (p_ofile q) = NOFILE ->
  match find_idx (fun o => bool_decide (o = None)) (p_ofile q) with
  | Some (fd, _) =>
      fdalloc f s = Ok (Z.of_nat fd) (set_files (<[p := with_fd q fd (Some f)]> (procs s)) (ftable (filest s)) s)
  | None => fdalloc f s = Ok (-1) s
  end.
Proof.
  intros Hc Hp Hlen. unfold fdalloc. erewrite bind_Ok by (by apply curproc_ok).
  rewrite <- Hlen.
  epose proof (mloop_scan (p_ofile q) (fun o => bool_decide (o = None)) _ Z.of_nat
    (fun fd => set_files (<[p := with_fd q fd (Some f)]> (procs s)) (ftable (filest s)) s)) as Hl.
  destruct (find_idx _ (p_ofile q)) as [[fd o]|]; erewrite bind_Ok by (apply Hl;
    intros fd' o' Ho; erewrite bind_Ok by (by apply getp_ok); rewrite Ho;
    destruct o' as [g|]; [done|]; rewrite !bool_decide_true by done;
    by erewrite bind_Ok by (by apply set_ofile_ok)); done.
Qed.

(** C28: the file table and the descriptors stay consistent: when every
    [f->ref] is the number of descriptors open on [f], [dup] of an open
    descriptor gives the lowest free descriptor the same file, or returns -1
    with nothing changed when all [NOFILE] are in use, and [close] of a
    descriptor whose file is open elsewhere frees that descriptor only; the
    counts are exact again after both, no other process and no other file
    entry is touched, and neither call panics on a count. *)
Theorem fd_refcounts p q s :
  caller p q s -> fd_table (procs s) (ftable (filest s)) -> ftable_lock ∉ held s ->
  forall fd f x, fd_file q (s32 (tf_arg (kmem s) q 0)) = Some (fd, f) ->
  ftable (filest s) !! f = Some x ->
  match find_idx (fun o => bool_decide (o = None)) (p_ofile q) with
  | None => sys_dup s = Ok (-1) s
  | Some (fd', _) =>
      let ps' := <[p := with_fd q fd' (Some f)]> (procs s) in
      let ft' := <[f := add_ref 1 x]> (ftable (filest s)) in
      sys_dup s = Ok (Z.of_nat fd') (set_files ps' ft' s) /\ fd_table ps' ft'
  end /\
  (2 <= f_ref x ->
    let ps' := <[p := with_fd q fd None]> (procs s) in
    let ft' := <[f := add_ref (-1) x]> (ftable (filest s)) in
    sys_close s = Ok 0 (set_files ps' ft' s) /\ fd_table ps' ft').
Proof.
  intros C T Hlock fd f x Hfd Hx. pose proof (argfd_ok p q s C) as Ha. rewrite Hfd in Ha.
  apply fd_file_Some in Hfd as (_ & _ & Ho). pose proof (caller_proc _ _ _ C) as Hp.
  pose proof (fd_refs_pos f _ _ _ _ Hp Ho) as Hpos. rewrite <- Nat2Z.id in Hpos.
  rewrite <- (fd_counts _ _ T f x Hx) in Hpos.
  assert (Hupd : forall d g z,
    <[f := add_ref d x]> (ftable (filest s)) !! g = Some z ->
    exists y, ftable (filest s) !! g = Some y /\ f_ref z = f_ref y + (if decide (f = g) then d else 0)).
  { intros d g z Hz. destruct (decide (f = g)) as [<-|Hne].
    - rewrite list_lookup_insert_eq in Hz by (by eapply lookup_lt_Some). injection Hz as <-. by exists x.
    - rewrite list_lookup_insert_ne in Hz by done. exists z. split; [done|lia]. }
  split.
  - pose proof (fdalloc_ok p q f s (caller_cur _ _ _ C) Hp
      (Forall_lookup_1 _ _ _ _ (fd_slots _ _ T) Hp)) as Hal.
    destruct (find_idx _ _) as [[fd' o]|] eqn:Hfind.
    + apply find_idx_Some in Hfind as (Hfree & ->%bool_decide_eq_true & _).
      split.
      * unfold sys_dup. erewrite bind_Ok by exact Ha. cbv beta iota. erewrite bind_Ok by exact Hal.
        rewrite (proj2 (Z.ltb_ge _ _)) by lia.
        erewrite bind_Ok by (apply filedup_ok; [exact Hlock|exact Hx|lia]).
        by destruct s as [? ? ? ? ? ? [? ? ? [? [? ? ? ? ? ? ? [? ? []]]]]].
      * eapply fd_table_set; [exact T|exact Hp|exact Hfree| | |].
        -- intros g [= <-]. rewrite <- (fd_entries _ _ T). by eapply lookup_lt_Some.
        -- rewrite length_insert. apply T.
        -- intros g z (y & Hy & Hz)%Hupd. exists y. split; [done|].
           repeat case_decide; simplify_eq; lia.
    + unfold sys_dup. erewrite bind_Ok by exact Ha. cbv beta iota. by erewrite bind_Ok by exact Hal.
  - intros Hr. split.
    + unfold sys_close. erewrite bind_Ok by exact Ha. cbv beta iota.
      erewrite bind_Ok by (apply curproc_ok, C).
      erewrite bind_Ok by (by apply set_ofile_ok).
      erewrite bind_Ok by (apply fileclose_shared; [exact Hlock|exact Hx|lia]).
      by destruct s as [? ? ? ? ? ? [? ? ? [? [? ? ? ? ? ? ? [? ? []]]]]].
    + eapply fd_table_set; [exact T|exact Hp|exact Ho| | |].
      * intros g [=].
      * rewrite length_insert. apply T.
      * intros g z (y & Hy & Hz)%Hupd. exists y. split; [done|].
        repeat case_decide; simplify_eq; lia.
Qed.
End syscall_files.

(** ** Witnesses *)

Section syscall_witness.
Abbreviation DemoDevs := (Devs demo_port).
#[local] Existing Instances demo_image demo_image_ok.
#[local] Instance demo_sys_disk : DiskDriver (LogSt (FsSt (FileSt DemoDevs))) :=
  {| disk_read _ := ret (replicate 1024 0); disk_write _ _ := ret tt |}.
#[local] Instance demo_sys_dev : Devices DemoDevs :=
  {| devsw_read _ := None; devsw_write _ := None |}.
#[local] Instance demo_sys_patience : Patience := 1%nat.

(** A process with file 3 open on descriptors 0 and 2 and trapframe [dH];
    [a0] is [fd], [a7] is [num]. *)
Definition demo_caller : proc :=
  proc_zero.[p_state := RUNNING].[p_trapframe := dH]
    .[p_ofile := Some 3%nat :: None :: Some 3%nat :: replicate 13 None].
Definition demo_ftable : list file :=
  <[3%nat := File FD_INODE 2 1 1 0 None 0 0]> (replicate NFILE file_zero).
Definition demo_sys (num fd : Z) : KState DemoDevs :=
  KSt [] (Some 0%nat) (demo_caller :: replicate 63 proc_zero) 2 None 0
    (KM (mwrite (mwrite ∅ (dH + TF_a 7) (le_split 8 num)) (dH + TF_a 0) (le_split 8 fd)) 0 0
      (BioS [] (LogS 0 0 0 0 0 0 [] (FsS (SB 0 0 0 0 0 0 0 0) [] (FileS demo_ftable (DevS demo_uart (Console (replicate 128 0) 0 0 0) (Port [] [] 0))))))).

Lemma demo_sys_caller num fd : caller 0 demo_caller (demo_sys num fd).
Proof. split; [done|done|apply dH_page]. Qed.

(** Call 10 is [dup], of a closed descriptor; there is no call 99. *)
Lemma syscall_refuses_witness :
  syscall (replicate 4 0) (demo_sys 10 1) =
    Ok tt (set_mem (mwrite (kmem (demo_sys 10 1)) (dH + TF_a 0) (le_split 8 (W64 - 1))) (demo_sys 10 1)) /\
  exists s', prints (unknown_msg demo_caller 99 ≫= put_out) (demo_sys 99 0) s' /\
    syscall (replicate 4 0) (demo_sys 99 0) =
      Ok tt (set_mem (mwrite (kmem (demo_sys 99 0)) (dH + TF_a 0) (le_split 8 (W64 - 1))) s').
Proof.
  split.
  - apply (proj2 (syscall_refuses 0 demo_caller _ (demo_sys_caller 10 1) (replicate 4 0))).
    exists SYS_dup. split_and!; [by vm_compute|by vm_compute| |by vm_compute].
    apply list_elem_of_In. simpl. auto.
  - apply (proj1 (syscall_refuses 0 demo_caller _ (demo_sys_caller 99 0) (replicate 4 0))).
    + unfold unknown_call. vm_compute. intuition congruence.
    + apply not_elem_of_nil.
Defined.

Lemma demo_ofiles :
  Forall (fun o => o = None \/ o = Some 3%nat) (procs (demo_sys 10 0) ≫= p_ofile).
Proof. apply (bool_decide_unpack _). by vm_compute. Qed.

Lemma demo_fd_table : fd_table (procs (demo_sys 10 0)) (ftable (filest (demo_sys 10 0))).
Proof.
  split; [done| | |].
  - apply (bool_decide_unpack _). by vm_compute.
  - intros f x Hf. destruct (decide (f = 3%nat)) as [->|Hne]; [injection Hf as <-; by vm_compute|].
    change (demo_ftable !! f = Some x) in Hf. unfold demo_ftable in Hf.
    rewrite list_lookup_insert_ne in Hf by done. apply lookup_replicate in Hf as [-> _].
    change (f_ref file_zero) with 0. unfold fd_refs.
    rewrite filter_none; [done|].
    eapply Forall_impl; [apply demo_ofiles|]. intros o [->| ->]; congruence.
  - intros f Hf. destruct (proj1 (Forall_forall _ _) demo_ofiles _ Hf) as [[=]|[= ->]].
    unfold NFILE. lia.
Qed.

Lemma fd_refcounts_witness :
  let ps' := <[0%nat := with_fd demo_caller 1 (Some 3%nat)]> (procs (demo_sys 10 0)) in
  sys_dup (demo_sys 10 0) =
    Ok 1 (set_files ps' (<[3%nat := File FD_INODE 3 1 1 0 None 0 0]> demo_ftable) (demo_sys 10 0)) /\
  fd_table ps' (<[3%nat := File FD_INODE 3 1 1 0 None 0 0]> demo_ftable).
Proof.
  destruct (@fd_refcounts demo_image demo_image_ok DemoDevs demo_sys_disk demo_sys_patience
    0 demo_caller _ (demo_sys_caller 10 0) demo_fd_table ltac:(by apply not_elem_of_nil)
    0 3 (File FD_INODE 2 1 1 0 None 0 0) ltac:(by vm_compute) ltac:(by vm_compute)) as [H _].
  exact H.
Defined.
End syscall_witness.
