(* ===== verification/Grep.v ===== *)
(** grep (user/grep.c): the regular-expression matcher of Kernighan and Pike
    over C strings in memory, and the line loop around it.

    The matcher is related to a denotational reading of patterns; the line
    loop prints the matching lines whatever pieces [read] delivers. *)

From S2P Require Import Prelude CInt Machine KString KStringThm Ulib.

Definition c_caret : Z := 94.
Definition c_star : Z := 42.
Definition c_dot : Z := 46.
Definition c_dollar : Z := 36.
Definition c_nl : Z := 10.

(** ** The matcher *)

(** The two routines call each other; [fuel] bounds the depth of the calls
    and the iterations of [matchstar]. *)
Fixpoint matchhere (fuel : nat) (m : gmap Z Z) (re text : Z) : option bool :=
  match fuel with
  | O => None
  | S fuel =>
      if mget m re =? 0 then Some true else
      if mget m (re + 1) =? c_star then matchstar fuel m (mget m re) (re + 2) text else
      if (mget m re =? c_dollar) && (mget m (re + 1) =? 0) then Some (mget m text =? 0) else
      if negb (mget m text =? 0) && ((mget m re =? c_dot) || (mget m re =? mget m text))
      then matchhere fuel m (re + 1) (text + 1)
      else Some false
  end
with matchstar (fuel : nat) (m : gmap Z Z) (c re text : Z) : option bool :=
  match fuel with
  | O => None
  | S fuel =>
      match matchhere fuel m re text with
      | None => None
      | Some true => Some true
      | Some false =>
          if negb (mget m text =? 0) && ((mget m text =? c) || (c =? c_dot))
          then matchstar fuel m c re (text + 1)
          else Some false
      end
  end.

(** The [do]-[while] of [match]. *)
Fixpoint match_from (fuel : nat) (m : gmap Z Z) (re text : Z) : option bool :=
  match fuel with
  | O => None
  | S fuel =>
      match matchhere fuel m re text with
      | None => None
      | Some true => Some true
      | Some false => if negb (mget m text =? 0) then match_from fuel m re (text + 1) else Some false
      end
  end.

Definition match_ (fuel : nat) (m : gmap Z Z) (re text : Z) : option bool :=
  if mget m re =? c_caret then matchhere fuel m (re + 1) text else match_from fuel m re text.

(** ** The line loop *)

Section grep.
Context {R : Type} {os : UserOs R}.
Abbreviation U := (UState R).

(** [char buf[1024]], at the address [buf]. *)
Context (buf : Z).
Definition bufsize : Z := 1024.

(** The inner loop: one line of the buffer; [p] is its first character. *)
Definition grep_line (fuel : nat) (pattern fd p : Z) : M U (Z + Z) :=
  let* q := upure (fun m => strchr fuel m p c_nl) in
  if q =? 0 then ret (inr p) else
  ustore q 0;;;
  let* b := upure (fun m => match_ fuel m pattern p) in
  (if (b : bool) then
     ustore q c_nl;;;
     let* _ := write 1 p (q + 1 - p) in ret tt
   else ret tt);;;
  ret (inl (q + 1)).

(** The outer loop, with the number [m] of characters kept in the buffer. *)
Definition grep_chunk (fuel : nat) (pattern fd m : Z) : M U (Z + unit) :=
  let* n := read fd (buf + m) (bufsize - m - 1) in
  if negb (0 <? n) then ret (inr tt) else
  let m := m + n in
  ustore (buf + m) 0;;;
  let* p := while (S (Z.to_nat m)) (grep_line fuel pattern fd) buf in
  if 0 <? m then
    let m := m - (p - buf) in
    umemory (fun mem => ulib_memmove mem buf p m);;;
    ret (inl m)
  else ret (inl m).

(** [reads] bounds the calls of [read]; [fuel] bounds the string routines. *)
Definition grep (reads fuel : nat) (pattern fd : Z) : M U unit :=
  while reads (grep_chunk fuel pattern fd) 0.
End grep.

(** ** Patterns *)

(** What the characters of a pattern mean. *)
Inductive item :=
| One (c : Z)
| Star (c : Z).

(** A character, or any of them for a dot. *)
Definition stands_for (c x : Z) : Prop := c = c_dot \/ c = x.

(** The items of a pattern, and whether it ends in the end-of-line mark. *)
Fixpoint items (re : list Z) : list item * bool :=
  match re with
  | [] => ([], false)
  | c :: ((d :: re') as r) =>
      if d =? c_star then let '(its, eol) := items re' in (Star c :: its, eol)
      else let '(its, eol) := items r in (One c :: its, eol)
  | [c] => if c =? c_dollar then ([], true) else ([One c], false)
  end.

(** The strings a list of items denotes. *)
Fixpoint denotes (its : list item) (t : list Z) : Prop :=
  match its with
  | [] => t = []
  | One c :: its => exists x t', t = x :: t' /\ stands_for c x /\ denotes its t'
  | Star c :: its => exists u v, t = u ++ v /\ Forall (stands_for c) u /\ denotes its v
  end.

(** Some string of the pattern is a prefix of the text (all of it, at an
    end-of-line mark). *)
Definition matches_here (re t : list Z) : Prop :=
  let '(its, eol) := items re in
  exists u v, t = u ++ v /\ denotes its u /\ (eol = true -> v = []).

Definition matches (re t : list Z) : Prop :=
  match re with
  | c :: r => if c =? c_caret then matches_here r t
              else exists u v, t = u ++ v /\ matches_here re v
  | [] => True
  end.

(** ** The matcher finds what the pattern denotes *)

Lemma matches_here_nil t : matches_here [] t <-> True.
Proof. split; [done|]. intros _. by exists [], t. Qed.

Lemma matches_here_star c r t :
  matches_here (c :: c_star :: r) t <->
  exists u v, t = u ++ v /\ Forall (stands_for c) u /\ matches_here r v.
Proof.
  unfold matches_here. cbn [items]. rewrite Z.eqb_refl. destruct (items r) as [its eol]. cbn [denotes].
  split.
  - intros (u & v & -> & (u1 & u2 & -> & Hu & Hd) & He).
    exists u1, (u2 ++ v). rewrite app_assoc. eauto 10.
  - intros (u & v & -> & Hu & (u2 & v2 & -> & Hd & He)).
    exists (u ++ u2), v2. rewrite app_assoc. eauto 10.
Qed.

Lemma matches_here_eol t : matches_here [c_dollar] t <-> t = [].
Proof.
  unfold matches_here. cbn. split.
  - intros (u & v & -> & -> & He). by apply He.
  - intros ->. by exists [], [].
Qed.

Lemma matches_here_one c r t :
  head r <> Some c_star -> ~ (c = c_dollar /\ r = []) ->
  matches_here (c :: r) t <-> exists x t', t = x :: t' /\ stands_for c x /\ matches_here r t'.
Proof.
  intros Hs He. unfold matches_here.
  assert (Hi : items (c :: r) = (One c :: (items r).1, (items r).2)).
  { destruct r as [|d r'].
    - cbn. destruct (Z.eqb_spec c c_dollar); [naive_solver|done].
    - change (items (c :: d :: r')) with
        (if d =? c_star then let '(its, eol) := items r' in (Star c :: its, eol)
         else let '(its, eol) := items (d :: r') in (One c :: its, eol)).
      destruct (Z.eqb_spec d c_star); [by subst|].
      by destruct (items (d :: r')). }
  rewrite Hi. destruct (items r) as [its eol]. cbn [denotes fst snd]. split.
  - intros (u & v & -> & (x & t' & -> & Hx & Hd) & Hl). exists x, (t' ++ v). eauto 10.
  - intros (x & t' & -> & Hx & (u & v & -> & Hd & Hl)). exists (x :: u), v. eauto 10.
Qed.

(** A starred character followed by the rest of a pattern, one step at a time. *)
Definition star_here (c : Z) (r t : list Z) : Prop :=
  exists u v, t = u ++ v /\ Forall (stands_for c) u /\ matches_here r v.

Lemma star_here_unfold c r t :
  star_here c r t <->
  matches_here r t \/ exists x t', t = x :: t' /\ stands_for c x /\ star_here c r t'.
Proof.
  split.
  - intros ([|x u] & v & -> & Hu & Hm); [by left|]. right.
    apply Forall_cons in Hu as [Hx Hu]. exists x, (u ++ v). split; [done|]. split; [done|]. by exists u, v.
  - intros [Hm|(x & t' & -> & Hx & (u & v & -> & Hu & Hm))]; [by exists [], t|].
    exists (x :: u), v. split; [done|]. split; [by constructor|done].
Qed.

Lemma stands_for_dec c x : (c =? c_dot) || (c =? x) = true <-> stands_for c x.
Proof. unfold stands_for. lia. Qed.

(** The boolean a routine returns decides [P]. *)
Definition decides (o : option bool) (P : Prop) : Prop := exists b, o = Some b /\ (b = true <-> P).

Lemma decides_iff o P P' : (P <-> P') -> decides o P -> decides o P'.
Proof. unfold decides. naive_solver. Qed.

Lemma decides_Some (b : bool) P : (b = true <-> P) -> decides (Some b) P.
Proof. by exists b. Qed.

Lemma match_decides m fuel :
  (forall re rl text tl, str_at m re rl -> str_at m text tl ->
     (length rl + length tl < fuel)%nat ->
     decides (matchhere fuel m re text) (matches_here rl tl)) /\
  (forall c re rl text tl, str_at m re rl -> str_at m text tl ->
     (length rl + length tl + 1 < fuel)%nat ->
     decides (matchstar fuel m c re text) (star_here c rl tl)).
Proof.
  induction fuel as [|fuel [IHh IHs]]; [split; intros; lia|].
  split.
  - intros re rl text tl Hr Ht Hf. cbn [matchhere].
    destruct rl as [|c rl]; simpl in Hr.
    { rewrite Hr. apply decides_Some. by rewrite matches_here_nil. }
    destruct Hr as (Hc & -> & Hr). destruct (Z.eqb_spec c 0); [done|].
    destruct (Z.eqb_spec (mget m (re + 1)) c_star) as [Hst|Hst].
    + destruct rl as [|d rl]; simpl in Hr; [by rewrite Hr in Hst|].
      destruct Hr as (Hd & Hg & Hr). assert (d = c_star) as -> by congruence.
      eapply decides_iff; [symmetry; apply matches_here_star|].
      apply IHs; [|done|simpl in Hf; lia]. by replace (re + 2) with (re + 1 + 1) by lia.
    + assert (Hhead : head rl <> Some c_star).
      { destruct rl as [|d rl]; simpl in *; [done|]. destruct Hr as (_ & Hg & _). congruence. }
      assert (Hend : mget m (re + 1) = 0 <-> rl = []).
      { destruct rl as [|d rl]; simpl in Hr; [done|]. destruct Hr as (Hd & Hg & _). split; congruence. }
      destruct ((c =? c_dollar) && (mget m (re + 1) =? 0)) eqn:Heol.
      * assert (c = c_dollar /\ rl = []) as [-> ->] by (rewrite <- Hend; lia).
        apply decides_Some. rewrite matches_here_eol.
        destruct tl as [|x tl]; simpl in Ht; [rewrite Ht; done|].
        destruct Ht as (Hx & -> & _). split; [lia|done].
      * assert (Hne : ~ (c = c_dollar /\ rl = [])) by (rewrite <- Hend; lia).
        destruct tl as [|x tl]; simpl in Ht.
        { rewrite Ht. cbn. apply decides_Some. split; [done|].
          rewrite matches_here_one by done. naive_solver. }
        destruct Ht as (Hx & -> & Ht). destruct (Z.eqb_spec x 0); [done|]. cbn [negb andb].
        destruct ((c =? c_dot) || (c =? x)) eqn:Hcx.
        -- eapply decides_iff; [|apply (IHh (re + 1) rl (text + 1) tl); [done|done|simpl in Hf; lia]].
           rewrite matches_here_one by done. rewrite stands_for_dec in Hcx. naive_solver.
        -- apply decides_Some. split; [done|]. rewrite matches_here_one by done.
           intros (x' & t' & [= <- <-] & Hsf%stands_for_dec & _). congruence.
  - intros c re rl text tl Hr Ht Hf. cbn [matchstar].
    destruct (IHh re rl text tl Hr Ht ltac:(lia)) as (b & -> & Hb).
    destruct b.
    { apply decides_Some. rewrite star_here_unfold. naive_solver. }
    assert (Hno : ~ matches_here rl tl) by (rewrite <- Hb; done).
    destruct tl as [|x tl]; simpl in Ht.
    { rewrite Ht. cbn. apply decides_Some. rewrite star_here_unfold. naive_solver. }
    destruct Ht as (Hx & -> & Ht). destruct (Z.eqb_spec x 0); [done|]. cbn [negb andb].
    destruct ((x =? c) || (c =? c_dot)) eqn:Hcx.
    + eapply decides_iff; [|apply (IHs c re rl (text + 1) tl); [done|done|simpl in Hf; lia]].
      rewrite (star_here_unfold c rl (x :: tl)).
      assert (stands_for c x) by (unfold stands_for; lia). naive_solver.
    + apply decides_Some. split; [done|]. rewrite star_here_unfold.
      intros [?|(x' & t' & [= <- <-] & Hsf & _)]; [done|]. unfold stands_for in Hsf. lia.
Qed.

Lemma match_from_decides m fuel re rl text tl :
  str_at m re rl -> str_at m text tl -> (length rl + length tl + 1 < fuel)%nat ->
  decides (match_from fuel m re text) (exists u v, tl = u ++ v /\ matches_here rl v).
Proof.
  intros Hr. revert text tl. induction fuel as [|fuel IH]; intros text tl Ht Hf; [lia|].
  cbn [match_from].
  destruct (proj1 (match_decides m fuel) re rl text tl Hr Ht ltac:(lia)) as (b & -> & Hb).
  destruct b; [apply decides_Some; split; [|done]; intros _; exists [], tl; naive_solver|].
  assert (Hno : ~ matches_here rl tl) by (rewrite <- Hb; done).
  destruct tl as [|x tl]; simpl in Ht.
  - rewrite Ht. cbn. apply decides_Some. split; [done|].
    intros (u & v & Huv & Hm). symmetry in Huv. apply app_nil in Huv as [-> ->]. done.
  - destruct Ht as (Hx & -> & Ht). destruct (Z.eqb_spec x 0); [done|]. cbn [negb].
    eapply decides_iff; [|apply (IH (text + 1) tl); [done|simpl in Hf; lia]].
    split.
    + intros (u & v & -> & Hm). by exists (x :: u), v.
    + intros (u & v & Huv & Hm). destruct u as [|y u]; simpl in Huv; [by subst v|].
      injection Huv as -> ->. by exists u, v.
Qed.

(** [match] on two strings returns what the pattern denotes. *)
Lemma match_strings m fuel re rl text tl :
  str_at m re rl -> str_at m text tl -> (length rl + length tl + 1 < fuel)%nat ->
  decides (match_ fuel m re text) (matches rl tl).
Proof.
  intros Hr Ht Hf. unfold match_. destruct rl as [|c rl]; simpl in Hr.
  - rewrite Hr. cbn. eapply decides_iff; [|by apply (match_from_decides m fuel re [] text tl)].
    simpl. split; [done|]. intros _. exists [], tl. by rewrite matches_here_nil.
  - destruct Hr as (Hc & Hg & Hr). rewrite Hg. simpl. destruct (Z.eqb_spec c c_caret).
    + apply match_decides; [done|done|simpl in Hf; lia].
    + by apply match_from_decides.
Qed.

(** ** Lines *)

Section lines.
Context (sel : list Z -> bool).

(** What is printed for the text [l] after the unfinished line [acc], and the
    unfinished line at its end. *)
Fixpoint scan (acc l : list Z) : list Z * list Z :=
  match l with
  | [] => ([], acc)
  | c :: l =>
      if c =? c_nl then
        let '(o, acc') := scan [] l in ((if sel acc then acc ++ [c_nl] else []) ++ o, acc')
      else scan (acc ++ [c]) l
  end.

Lemma scan_app acc l1 l2 :
  scan acc (l1 ++ l2) =
    let '(o1, a1) := scan acc l1 in let '(o2, a2) := scan a1 l2 in (o1 ++ o2, a2).
Proof.
  revert acc. induction l1 as [|c l1 IH]; intros acc; simpl; [by destruct (scan acc l2)|].
  destruct (c =? c_nl); [|apply IH]. rewrite IH.
  destruct (scan [] l1) as [o1 a1], (scan a1 l2) as [o2 a2]. by rewrite <- app_assoc.
Qed.

Lemma scan_no_nl acc l : Forall (fun c => c <> c_nl) l -> scan acc l = ([], acc ++ l).
Proof.
  intros Hl. revert acc. induction Hl as [|c l Hc _ IH]; intros acc; simpl; [by rewrite app_nil_r|].
  destruct (Z.eqb_spec c c_nl); [done|]. by rewrite IH, <- app_assoc.
Qed.

Lemma scan_line acc l : 
  Forall (fun c => c <> c_nl) l ->
  scan acc (l ++ [c_nl]) = (if sel (acc ++ l) then (acc ++ l) ++ [c_nl] else [], []).
Proof.
  intros Hl. rewrite scan_app, scan_no_nl by done. simpl. by rewrite app_nil_r.
Qed.

(** The text as its lines and what follows the last newline. *)
Lemma scan_lines ls rest :
  Forall (Forall (fun c => c <> c_nl)) ls -> Forall (fun c => c <> c_nl) rest ->
  scan [] (concat (map (fun l => l ++ [c_nl]) ls) ++ rest) =
    (concat (map (fun l => l ++ [c_nl]) (List.filter sel ls)), rest).
Proof.
  intros Hls Hr. induction Hls as [|l ls Hl _ IH]; [by apply scan_no_nl|].
  cbn [map concat List.filter]. rewrite <- app_assoc, scan_app, scan_line by done.
  rewrite IH. simpl. by destruct (sel l).
Qed.
End lines.

(** ** The line loop prints the matching lines *)

Section loop.
Context {R : Type} {os : UserOs R} {fd : Z} {input output : R -> list Z}.
Context {stream : StreamOs R fd input output}.
Context (buf pattern : Z) (pat : list Z) (fuel : nat) (sel : list Z -> bool).
Context (Hbuf : 0 < buf).
Context (Hpat : pattern + Z.of_nat (length pat) < buf \/ buf + bufsize <= pattern).
Context (Hsel : forall l, sel l = true <-> matches pat l).
Context (Hfuel : Z.of_nat (length pat) + bufsize + 1 < Z.of_nat fuel).

Lemma sel_decides b l : (b = true <-> matches pat l) -> b = sel l.
Proof. rewrite <- Hsel. destruct b, (sel l); naive_solver. Qed.

Lemma find_nl l i y :
  list_find (c_nl =.) l = Some (i, y) ->
  exists l1 l2, l = l1 ++ c_nl :: l2 /\ length l1 = i /\ Forall (fun c => c <> c_nl) l1.
Proof.
  intros (Hl & <- & Hmin)%list_find_Some. exists (take i l), (drop (S i) l).
  pose proof (lookup_lt_Some _ _ _ Hl). split; [by rewrite take_drop_middle|].
  split; [rewrite length_take; lia|]. apply Forall_lookup_2. intros j x Hx.
  apply lookup_take_Some in Hx as [Hx Hj]. intros ->. by apply (Hmin j c_nl).
Qed.

Lemma nl_split_unique l1 l2 l1' l2' :
  l1 ++ c_nl :: l2 = l1' ++ c_nl :: l2' ->
  Forall (fun c => c <> c_nl) l1 -> Forall (fun c => c <> c_nl) l1' -> l1 = l1'.
Proof.
  intros Heq Hl1. revert l1' Heq. induction Hl1 as [|x l1 Hx _ IH]; intros [|y l1'] Heq Ha; simpl in *.
  - done.
  - apply Forall_cons in Ha as [Hy _]. naive_solver.
  - naive_solver.
  - injection Heq as -> Heq. apply Forall_cons in Ha as [_ Ha]. f_equal. by apply IH.
Qed.

(** One complete line. *)
Lemma grep_line_some mem e p l1 l2 :
  str_at mem p (l1 ++ c_nl :: l2) -> Forall (fun c => c <> c_nl) l1 ->
  buf <= p -> p + Z.of_nat (length (l1 ++ c_nl :: l2)) < buf + bufsize ->
  str_at mem pattern pat ->
  exists mem' e', grep_line fuel pattern fd p (US mem e)
    = Ok (inl (p + Z.of_nat (length l1) + 1)) (US mem' e') /\
  (forall a, a <> p + Z.of_nat (length l1) -> mget mem' a = mget mem a) /\
  output e' = output e ++ (if sel l1 then l1 ++ [c_nl] else []) /\ input e' = input e.
Proof.
  intros Hs Hl1 Hp Hend Hpt. rewrite length_app in Hend. cbn [length] in Hend.
  set (q := p + Z.of_nat (length l1)).
  assert (Hq : strchr fuel mem p c_nl = Some q).
  { pose proof (strchr_str_at fuel mem p _ c_nl Hs ltac:(done)) as H.
    rewrite length_app in H. cbn [length] in H. specialize (H ltac:(unfold bufsize in *; lia)).
    destruct (list_find _ _) as [[i y]|] eqn:E.
    - apply find_nl in E as (a & b & Hab & <- & Ha). rewrite H. unfold q.
      by rewrite (nl_split_unique _ _ _ _ Hab Hl1 Ha).
    - apply list_find_None in E. rewrite Forall_app, Forall_cons in E. naive_solver. }
  assert (Hcut : str_at (mset mem q 0) p l1) by by eapply str_at_cut.
  assert (Hpt' : str_at (mset mem q 0) pattern pat).
  { eapply str_at_ext; [|exact Hpt]. intros b Hb. rewrite mget_mset_ne; [done|]. unfold q; lia. }
  destruct (match_strings _ fuel pattern pat p l1 Hpt' Hcut ltac:(unfold bufsize in *; lia)) as (b & Hb & Hbm).
  apply sel_decides in Hbm. subst b.
  unfold grep_line, upure, ustore. mred. rewrite Hq.
  destruct (Z.eqb_spec q 0); [unfold q in *; lia|]. cbn [umem]. rsimpl_goal. rewrite Hb.
  destruct (sel l1); [|eexists _, _; split; [done|]; split; [|by rewrite app_nil_r]; intros a Ha; by rewrite mget_mset_ne].
  unfold write, oscall. mred. rsimpl_goal.
  destruct (stream_write (mread (mset (mset mem q 0) q c_nl) p (Z.to_nat (q + 1 - p))) e) as [Ho Hi].
  destruct (os_write 1 _ e) as [r e'] eqn:Hw. eexists _, e'. split; [reflexivity|].
  split; [intros a Ha; by rewrite !mget_mset_ne by done|]. split; [|done].
  cbn [snd] in Ho. rewrite Ho. f_equal.
  replace (Z.to_nat (q + 1 - p)) with (length (l1 ++ [c_nl])) by (rewrite length_app; unfold q; simpl; lia).
  pose proof (str_at_app _ _ _ _ Hs) as (_ & Hnl & _). fold q in Hnl.
  rewrite (mread_ext _ mem).
  - apply (str_at_prefix _ _ _ l2). by rewrite <- app_assoc.
  - intros b _. destruct (decide (b = q)) as [->|]; [by rewrite mget_mset_eq, Hnl|].
    by rewrite !mget_mset_ne.
Qed.

(** No complete line is left. *)
Lemma grep_line_none mem e p l :
  str_at mem p l -> Forall (fun c => c <> c_nl) l -> Z.of_nat (length l) < bufsize ->
  grep_line fuel pattern fd p (US mem e) = Ok (inr p) (US mem e).
Proof.
  intros Hs Hl Hlen. pose proof (strchr_str_at fuel mem p _ c_nl Hs ltac:(done)) as H.
  specialize (H ltac:(unfold bufsize in *; lia)).
  assert (E : list_find (c_nl =.) l = None).
  { apply list_find_None. eapply Forall_impl; [exact Hl|]. naive_solver. }
  rewrite E in H. unfold grep_line, upure. mred. by rewrite H.
Qed.

Lemma nl_split l :
  Forall (fun c => c <> c_nl) l \/
  exists l1 l2, l = l1 ++ c_nl :: l2 /\ Forall (fun c => c <> c_nl) l1.
Proof.
  destruct (list_find (c_nl =.) l) as [[i y]|] eqn:E.
  - apply find_nl in E as (l1 & l2 & -> & _ & H). right. eauto.
  - left. apply list_find_None in E. eapply Forall_impl; [exact E|]. naive_solver.
Qed.

(** The inner loop, on the text [l] that is left in the buffer. *)
Lemma grep_lines n mem e p l :
  str_at mem p l -> (length l < n)%nat -> buf <= p -> p + Z.of_nat (length l) < buf + bufsize ->
  str_at mem pattern pat ->
  let p' := p + Z.of_nat (length l) - Z.of_nat (length (scan sel [] l).2) in
  exists mem' e', while n (grep_line fuel pattern fd) p (US mem e) = Ok p' (US mem' e') /\
  p <= p' /\ str_at mem' p' (scan sel [] l).2 /\
  (forall a, ~ p <= a < p' -> mget mem' a = mget mem a) /\
  output e' = output e ++ (scan sel [] l).1 /\ input e' = input e.
Proof.
  revert mem e p l. induction n as [|n IH]; intros mem e p l Hs Hn Hp Hend Hpt; [lia|].
  destruct (nl_split l) as [Hl|(l1 & l2 & -> & Hl1)].
  - rewrite scan_no_nl by done. cbn [fst snd app]. exists mem, e.
    replace (p + Z.of_nat (length l) - Z.of_nat (length l)) with p by lia.
    rewrite (while_inr _ _ _ p _ (US mem e)); [|by eapply grep_line_none; [exact Hs|done|lia]].
    split; [done|]. split; [lia|]. split; [done|]. split; [done|]. by rewrite app_nil_r.
  - destruct (grep_line_some mem e p l1 l2 Hs Hl1 Hp Hend Hpt) as (mem1 & e1 & Hstep & Hm1 & Ho1 & Hi1).
    rewrite length_app in *. cbn [length] in *.
    assert (Hs2 : str_at mem1 (p + Z.of_nat (length l1) + 1) l2).
    { apply str_at_app in Hs as (_ & _ & Hs). eapply str_at_ext; [|exact Hs].
      intros a Ha. symmetry. apply Hm1. lia. }
    assert (Hpt1 : str_at mem1 pattern pat).
    { eapply str_at_ext; [|exact Hpt]. intros a Ha. symmetry. apply Hm1. lia. }
    destruct (IH mem1 e1 _ l2 Hs2 ltac:(lia) ltac:(lia) ltac:(lia) Hpt1)
      as (mem2 & e2 & Hrun & Hle & Hrest & Hm2 & Ho2 & Hi2).
    replace (l1 ++ c_nl :: l2) with ((l1 ++ [c_nl]) ++ l2) by by rewrite <- app_assoc.
    rewrite scan_app, scan_line by done. cbn [app] in *.
    destruct (scan sel [] l2) as [o2 a2] eqn:E2. cbn [fst snd] in *.
    match type of Hrun with _ = Ok ?x _ => set (p' := x) in * end.
    exists mem2, e2.
    replace (p + Z.of_nat (length l1 + S (length l2)) - Z.of_nat (length a2)) with p' by (unfold p'; lia).
    rewrite (while_inl _ _ _ _ _ _ Hstep), Hrun.
    split; [done|]. split; [lia|]. split; [done|]. split.
    + intros a Ha. rewrite Hm2 by lia. apply Hm1. lia.
    + rewrite Ho2, Ho1, Hi2, Hi1. split; [|done]. by rewrite <- app_assoc.
Qed.

Definition is_text (c : Z) : Prop := 0 < c < 256.

(** What the outer loop keeps: the unfinished line [pl] at the start of the
    buffer, the pattern where it was. *)
Definition kept (mem : gmap Z Z) (pl : list Z) : Prop :=
  mread mem buf (length pl) = pl /\ Forall (fun c => c <> 0) pl /\
  Forall (fun c => c <> c_nl) pl /\ str_at mem pattern pat.

Lemma scan_rest_no_nl l : Forall (fun c => c <> c_nl) (scan sel [] l).2.
Proof.
  assert (H : forall acc, Forall (fun c => c <> c_nl) acc -> Forall (fun c => c <> c_nl) (scan sel acc l).2).
  { induction l as [|c l IH]; intros acc Ha; simpl; [done|]. destruct (Z.eqb_spec c c_nl).
    - specialize (IH [] ltac:(constructor)). by destruct (scan sel [] l).
    - apply IH, Forall_app. by repeat constructor. }
  by apply H.
Qed.

(** The buffer after a [read] that delivered [bs]. *)
Lemma read_appends mem pl bs :
  kept mem pl -> Forall is_text bs -> Z.of_nat (length (pl ++ bs)) < bufsize ->
  let mem' := mset (mwrite mem (buf + Z.of_nat (length pl)) bs) (buf + Z.of_nat (length (pl ++ bs))) 0 in
  str_at mem' buf (pl ++ bs) /\ str_at mem' pattern pat.
Proof.
  intros (Hr & Hz & _ & Hp) Hbs Hlen mem'. rewrite length_app in *.
  assert (Hb : Forall byte_ok bs) by (eapply Forall_impl; [exact Hbs|]; unfold is_text, byte_ok; lia).
  split.
  - apply str_at_intro.
    + unfold mem'. rewrite mread_mset_ne by (rewrite length_app; lia).
      rewrite length_app. apply list_eq. intros i. destruct (decide (i < length pl)%nat) as [Hi|Hi].
      * rewrite lookup_app_l, mread_lookup, mwrite_frame by lia.
        replace (pl !! i) with (mread mem buf (length pl) !! i) by by rewrite Hr.
        by rewrite mread_lookup by done.
      * rewrite lookup_app_r by lia. destruct (decide (i < length pl + length bs)%nat).
        -- pose proof (mwrite_read mem (buf + Z.of_nat (length pl)) bs Hb) as Hw.
           apply (f_equal (fun l => l !! (i - length pl)%nat)) in Hw.
           rewrite mread_lookup in Hw by lia. rewrite <- Hw, mread_lookup by lia. do 2 f_equal. lia.
        -- rewrite (lookup_ge_None_2 bs) by lia. apply lookup_ge_None_2. rewrite mread_length. lia.
    + apply Forall_app. split; [done|]. eapply Forall_impl; [exact Hbs|]. unfold is_text. lia.
    + apply mget_mset_eq.
  - eapply str_at_ext; [|exact Hp]. intros a Ha. unfold mem'.
    rewrite mget_mset_ne, mwrite_frame by (rewrite ?length_app; lia). done.
Qed.

(** One round of the outer loop: a [read] that delivers [bs]. *)
Lemma grep_chunk_some mem e pl :
  kept mem pl -> Z.of_nat (length pl) < bufsize - 1 -> Forall is_text (input e) ->
  (input e = [] /\ exists s', grep_chunk buf fuel pattern fd (Z.of_nat (length pl)) (US mem e) = Ok (inr tt) s'
                   /\ output (uenv s') = output e) \/
  exists bs mem' e', bs <> [] /\ input e = bs ++ input e' /\
    grep_chunk buf fuel pattern fd (Z.of_nat (length pl)) (US mem e)
      = Ok (inl (Z.of_nat (length (scan sel pl bs).2))) (US mem' e') /\
    kept mem' (scan sel pl bs).2 /\ output e' = output e ++ (scan sel pl bs).1.
Proof.
  intros Hk Hlen Htext.
  destruct (stream_read (bufsize - Z.of_nat (length pl) - 1) e ltac:(lia)) as (bs & e1 & Hread & Hin & Hn & Hout & Hemp).
  assert (Hrd : read fd (buf + Z.of_nat (length pl)) (bufsize - Z.of_nat (length pl) - 1) (US mem e)
    = Ok (Z.of_nat (length bs)) (US (mwrite mem (buf + Z.of_nat (length pl)) bs) e1)).
  { unfold read, oscall, umemory. mred. by rewrite Hread. }
  unfold grep_chunk. rewrite (bind_Ok _ _ _ _ _ Hrd).
  destruct bs as [|b0 bs0].
  { left. destruct (Hemp eq_refl) as [?|He]; [lia|]. split; [done|]. simpl. by eexists. }
  right. set (bs := b0 :: bs0) in *. exists bs.
  destruct (Z.ltb_spec 0 (Z.of_nat (length bs))); [|unfold bs in *; simpl in *; lia]. cbn [negb].
  rewrite <- Nat2Z.inj_add, <- length_app.
  rewrite Hin in Htext. apply Forall_app in Htext as [Htb _].
  destruct (read_appends mem pl bs Hk Htb ltac:(rewrite length_app; lia)) as [Hs Hp].
  set (mem1 := mset _ _ _) in *. rewrite Nat2Z.id.
  destruct (grep_lines (S (length (pl ++ bs))) mem1 e1 buf (pl ++ bs) Hs ltac:(lia) ltac:(lia)
    ltac:(rewrite length_app; lia) Hp) as (mem2 & e2 & Hrun & Hle & Hrest & Hm2 & Ho2 & Hi2).
  rewrite (bind_Ok _ _ _ tt (US mem1 e1)) by done.
  rewrite (bind_Ok _ _ _ _ _ Hrun). pose proof (scan_rest_no_nl (pl ++ bs)) as Hnl.
  destruct Hk as (_ & _ & Hpl & _).
  rewrite scan_app, scan_no_nl in * by done. cbn [app] in *.
  destruct (scan sel pl bs) as [o r] eqn:Escan. cbn [fst snd app] in *.
  destruct (Z.ltb_spec 0 (Z.of_nat (length (pl ++ bs)))); [|rewrite length_app in *; lia].
  set (p' := buf + Z.of_nat (length (pl ++ bs)) - Z.of_nat (length r)) in *.
  replace (Z.of_nat (length (pl ++ bs)) - (p' - buf)) with (Z.of_nat (length r)) by (unfold p'; lia).
  exists (ulib_memmove mem2 buf p' (Z.of_nat (length r))), e2.
  split; [done|]. split; [by rewrite Hi2|]. split; [done|]. split; [|by rewrite Ho2, Hout].
  split; [|split; [|split]].
  - etrans; [|exact (str_at_mread _ _ _ Hrest)]. apply list_eq. intros i.
    destruct (decide (i < length r)%nat).
    + rewrite !mread_lookup, ulib_memmove_mget, decide_True by lia. do 2 f_equal. lia.
    + by rewrite !lookup_ge_None_2 by (rewrite mread_length; lia).
  - by eapply str_at_nonzero.
  - done.
  - eapply str_at_ext; [|exact Hp]. intros a Ha.
    assert (buf <= p' < buf + bufsize /\ Z.of_nat (length r) < bufsize)
      by (revert Hle; subst p'; rewrite length_app; lia).
    rewrite ulib_memmove_mget, decide_False, Hm2 by lia. done.
Qed.

Lemma grep_loop reads mem e pl :
  kept mem pl -> Forall is_text (input e) -> (length (input e) < reads)%nat ->
  (forall pre suf, input e = pre ++ suf -> Z.of_nat (length (scan sel pl pre).2) < bufsize - 1) ->
  exists s', while reads (grep_chunk buf fuel pattern fd) (Z.of_nat (length pl)) (US mem e) = Ok tt s' /\
  output (uenv s') = output e ++ (scan sel pl (input e)).1.
Proof.
  revert mem e pl. induction reads as [|reads IH]; intros mem e pl Hk Ht Hn Hshort; [lia|].
  destruct (grep_chunk_some mem e pl Hk (Hshort [] (input e) eq_refl) Ht)
    as [(He & s' & Hstep & Ho)|(bs & mem' & e' & Hne & Hin & Hstep & Hk' & Ho)].
  - exists s'. rewrite (while_inr _ _ _ _ _ _ Hstep). split; [done|]. by rewrite He, app_nil_r.
  - rewrite (while_inl _ _ _ _ _ _ Hstep). rewrite Hin in *.
    apply Forall_app in Ht as [_ Ht]. rewrite length_app in Hn.
    destruct bs as [|b bs]; [done|]. cbn [length] in Hn.
    edestruct (IH mem' e' _ Hk' Ht ltac:(lia)) as (s' & Hrun & Hout).
    + intros pre suf Hps. specialize (Hshort ((b :: bs) ++ pre) suf). 
      rewrite scan_app in Hshort. destruct (scan sel pl (b :: bs)) as [o1 a1]. cbn [snd] in *.
      destruct (scan sel a1 pre). apply Hshort. by rewrite Hps, app_assoc.
    + exists s'. rewrite Hrun. split; [done|]. rewrite Hout, Ho, scan_app.
      destruct (scan sel pl (b :: bs)) as [o1 a1]. cbn [fst snd]. destruct (scan sel a1 (input e')).
      by rewrite <- app_assoc.
Qed.
End loop.

(** ** A reference matcher on lists *)

Fixpoint here_b (its : list item) (eol : bool) (t : list Z) : bool :=
  match its with
  | [] => negb eol || bool_decide (t = [])
  | One c :: its =>
      match t with
      | [] => false
      | x :: t => ((c =? c_dot) || (c =? x)) && here_b its eol t
      end
  | Star c :: its =>
      (fix star t := here_b its eol t ||
         match t with
         | [] => false
         | x :: t => ((c =? c_dot) || (c =? x)) && star t
         end) t
  end.

Lemma here_b_spec its eol t :
  here_b its eol t = true <-> exists u v, t = u ++ v /\ denotes its u /\ (eol = true -> v = []).
Proof.
  revert t. induction its as [|[c|c] its IH]; intros t; cbn [here_b denotes].
  - destruct eol; simpl; rewrite ?bool_decide_eq_true.
    + split; [intros ->; by exists [], []|]. intros (u & v & -> & -> & Hv). by rewrite Hv.
    + split; [by exists [], t|done].
  - destruct t as [|x t].
    + split; [done|]. intros (u & v & Ht & (x & t' & -> & _) & _). done.
    + rewrite andb_true_iff, stands_for_dec, IH. split.
      * intros (Hx & u & v & -> & Hd & Hv). exists (x :: u), v. eauto 10.
      * intros (u & v & Ht & (y & t' & -> & Hy & Hd) & Hv). injection Ht as -> ->. eauto 10.
  - assert (Hcons : forall t, here_b (Star c :: its) eol t = true <->
      exists u v, t = u ++ v /\ Forall (stands_for c) u /\ here_b its eol v = true).
    { clear t. induction t as [|x t IHt]; cbn [here_b].
      - rewrite orb_false_r. split; [by exists [], []|].
        intros (u & v & Ht & _ & Hv). symmetry in Ht. by apply app_nil in Ht as [-> ->].
      - fold (here_b (Star c :: its) eol t). rewrite orb_true_iff, andb_true_iff, stands_for_dec, IHt.
        split.
        + intros [Hh|(Hx & u & v & -> & Hu & Hv)]; [by exists [], (x :: t)|].
          exists (x :: u), v. split; [done|]. split; [by constructor|done].
        + intros ([|y u] & v & Ht & Hu & Hv); simpl in Ht; [subst v; by left|].
          injection Ht as -> ->. apply Forall_cons in Hu as [Hy Hu]. right. eauto 10. }
    specialize (Hcons t). cbn [here_b] in Hcons. rewrite Hcons. split.
    + intros (u & v & -> & Hu & Hv). apply IH in Hv as (u' & v' & -> & Hd & He).
      exists (u ++ u'), v'. rewrite <- app_assoc. eauto 10.
    + intros (w & v & -> & (u & u' & -> & Hu & Hd) & He). exists u, (u' ++ v).
      rewrite <- app_assoc. split; [done|]. split; [done|]. apply IH. eauto 10.
Qed.

#[export] Instance matches_here_dec re t : Decision (matches_here re t).
Proof.
  refine (cast_if (decide (here_b (items re).1 (items re).2 t = true)));
    unfold matches_here; rewrite here_b_spec in *; by destruct (items re).
Defined.

#[export] Instance matches_dec re t : Decision (matches re t).
Proof.
  destruct re as [|c r]; [by left|]. simpl. destruct (c =? c_caret); [apply _|].
  induction t as [|x t IH].
  - destruct (decide (matches_here (c :: r) [])) as [H|H]; [left; by exists [], []|].
    right. intros (u & v & Ht & Hm). symmetry in Ht. by apply app_nil in Ht as [-> ->].
  - destruct (decide (matches_here (c :: r) (x :: t))) as [H|H]; [left; by exists [], (x :: t)|].
    destruct IH as [IH|IH]; [left; destruct IH as (u & v & -> & Hm); by exists (x :: u), v|].
    right. intros ([|y u] & v & Ht & Hm); simpl in Ht; [by subst v|]. injection Ht as -> ->.
    apply IH. eauto.
Defined.

(** The tail of every prefix of a text with short lines is short. *)
Lemma scan_short sel K ls rest pre suf :
  Forall (fun l => Forall (fun c => c <> c_nl) l /\ (length l <= K)%nat) (rest :: ls) ->
  concat (map (fun l => l ++ [c_nl]) ls) ++ rest = pre ++ suf ->
  (length (scan sel [] pre).2 <= K)%nat.
Proof.
  intros [[Hr Hrk] Hls]%Forall_cons. revert pre. induction Hls as [|l ls [Hl Hlk] _ IH]; intros pre Heq.
  - simpl in Heq. subst rest. apply Forall_app in Hr as [Hr _]. rewrite scan_no_nl by done.
    rewrite length_app in Hrk. simpl. lia.
  - cbn [map concat] in Heq. rewrite <- !app_assoc in Heq.
    apply app_eq_inv in Heq as [(k & -> & Heq)|(k & -> & Heq)].
    + apply Forall_app in Hl as [Hl _]. rewrite scan_no_nl by done. rewrite length_app in Hlk. simpl. lia.
    + destruct k as [|c k]; simpl in Heq.
      { rewrite app_nil_r. rewrite scan_no_nl by done. simpl. lia. }
      injection Heq as <- Heq. replace (l ++ c_nl :: k) with ((l ++ [c_nl]) ++ k) by by rewrite <- app_assoc.
      rewrite scan_app, scan_line by done. specialize (IH k Heq). by destruct (scan sel [] k).
Qed.

Lemma concat_lines_text P (ls : list (list Z)) rest :
  P c_nl -> Forall P rest -> Forall (Forall P) ls ->
  Forall P (concat (map (fun l => l ++ [c_nl]) ls) ++ rest).
Proof.
  intros Hn Hr Hls. induction Hls as [|l ls Hl _ IH]; simpl; [done|].
  rewrite <- !app_assoc. apply Forall_app. split; [done|]. by constructor.
Qed.

(** ** Theorems *)

(** C35: On NUL-terminated strings [match] terminates and returns 1 exactly when
    some part of the text (a prefix, for a pattern that starts with a caret; up
    to the end, for one that ends in a dollar) belongs to the language that the
    items of the pattern denote.  A fuel of the two lengths and two is enough. *)
Theorem match_regex m fuel re rl text tl :
  str_at m re rl -> str_at m text tl -> (length rl + length tl + 1 < fuel)%nat ->
  exists b, match_ fuel m re text = Some b /\ (b = true <-> matches rl tl).
Proof. intros Hr Ht Hf. exact (match_strings m fuel re rl text tl Hr Ht Hf). Qed.

(** C36: However [read] cuts the input into pieces, [grep] reads all of it, ends,
    and prints exactly the lines that match the pattern, in order, each with
    its newline; text after the last newline is not printed.  Lines have at
    most 1022 characters. *)
Theorem grep_prints_matches {R} {os : UserOs R} fd input output {stream : StreamOs R fd input output}
    buf pattern pat fuel reads ls rest (s : UState R) :
  0 < buf -> pattern + Z.of_nat (length pat) < buf \/ buf + bufsize <= pattern ->
  Z.of_nat (length pat) + bufsize + 1 < Z.of_nat fuel ->
  str_at (umem s) pattern pat ->
  input (uenv s) = concat (map (fun l => l ++ [c_nl]) ls) ++ rest ->
  Forall (fun l => Forall (fun c => 0 < c < 256 /\ c <> c_nl) l /\ (length l <= 1022)%nat) (rest :: ls) ->
  (length (input (uenv s)) < reads)%nat ->
  exists s', grep buf reads fuel pattern fd s = Ok tt s' /\
    output (uenv s') =
      output (uenv s) ++ concat (map (fun l => l ++ [c_nl]) (List.filter (fun l => bool_decide (matches pat l)) ls)).
Proof.
  intros Hb Hp Hf Hpat Hin Hlines Hreads. destruct s as [mem e]. cbn [umem uenv] in *.
  assert (Hsel : forall l, bool_decide (matches pat l) = true <-> matches pat l)
    by (intros l; apply bool_decide_eq_true).
  set (sel := fun l => bool_decide (matches pat l)) in *.
  assert (Hshort : Forall (fun l => Forall (fun c => c <> c_nl) l /\ (length l <= 1022)%nat) (rest :: ls)).
  { eapply Forall_impl; [exact Hlines|]. intros l [Hl ?]. split; [|done].
    eapply Forall_impl; [exact Hl|]. by intros c []. }
  assert (Htext : Forall is_text (input e)).
  { assert (Hall : Forall (Forall is_text) (rest :: ls)).
    { eapply Forall_impl; [exact Hlines|]. intros l [Hl _].
      eapply Forall_impl; [exact Hl|]. by intros c []. }
    apply Forall_cons in Hall as [Hr Hls]. rewrite Hin. by apply concat_lines_text. }
  destruct (grep_loop buf pattern pat fuel sel Hb Hp Hsel Hf reads mem e []) as (s' & Hrun & Hout); try done.
  { intros pre suf Hps. rewrite Hin in Hps.
    pose proof (scan_short sel 1022 ls rest pre suf Hshort Hps). unfold bufsize. lia. }
  exists s'. split; [exact Hrun|]. rewrite Hout, Hin, scan_lines; [done| |].
  - apply Forall_cons in Hshort as [_ Hls]. eapply Forall_impl; [exact Hls|]. by intros l [].
  - by apply Forall_cons in Hshort as [[Hr _] _].
Qed.

(** A line that fills the buffer stops the program: [read] is asked for no
    bytes, its 0 is taken for the end of the input. *)
Lemma grep_stops_on_long_line {R} {os : UserOs R} fd input output {stream : StreamOs R fd input output}
    buf pattern fuel (s : UState R) :
  exists s', grep_chunk buf fuel pattern fd 1023 s = Ok (inr tt) s' /\
    input (uenv s') = input (uenv s) /\ output (uenv s') = output (uenv s).
Proof.
  destruct s as [mem e]. unfold grep_chunk, read, oscall, umemory. mred.
  destruct (stream_read (bufsize - 1023 - 1) e ltac:(done)) as (bs & e' & Hr & Hin & Hn & Ho & _).
  rewrite Hr. destruct bs as [|b bs]; [|unfold bufsize in Hn; simpl in Hn; lia].
  simpl. eexists. split; [done|]. by rewrite Hin.
Qed.

(** ** A file read in pieces *)

(** Input and output; [read] delivers at most three bytes. *)
#[export] Instance pieces_os : UserOs (list Z * list Z) := {
  os_read _ n e := let bs := take (Z.to_nat (Z.min n 3)) e.1 in
    (Z.of_nat (length bs), bs, (drop (Z.to_nat (Z.min n 3)) e.1, e.2));
  os_write _ bs e := (Z.of_nat (length bs), (e.1, e.2 ++ bs));
  os_open _ _ e := (-1, e);
  os_close _ e := (-1, e);
  os_fstat _ e := (-1, [], e);
  os_sbrk _ e := (-1, e);
}.

#[export] Instance pieces_stream fd : StreamOs (list Z * list Z) fd fst snd.
Proof.
  split; [|done]. intros n [i o] Hn. eexists _, _. split; [reflexivity|]. cbn [fst snd].
  split; [by rewrite take_drop|]. rewrite length_take. split; [lia|]. split; [done|].
  intros H. destruct (decide (n = 0)); [by left|]. right.
  apply (f_equal length) in H. rewrite length_take in H. destruct i; [done|]. simpl in H. lia.
Qed.

(** "^a.*b" at 100, and a file of three lines. *)
Definition demo_pat : list Z := [94; 97; 46; 42; 98].
Definition demo_pat_mem : gmap Z Z := mset (mwrite ∅ 100 demo_pat) 105 0.
Definition demo_lines : list (list Z) := [[97; 120; 98; 99]; [98; 97; 98]; [97; 98]].
Definition demo_file : list Z := concat (map (fun l => l ++ [c_nl]) demo_lines) ++ [97; 98].

Example grep_demo :
  match grep 2000 20 1100 100 0 (US demo_pat_mem (demo_file, [])) with
  | Ok _ s => bool_decide ((uenv s).2 = [97; 120; 98; 99; 10; 97; 98; 10])
  | _ => false
  end = true.
Proof. vm_compute. reflexivity. Qed.

Lemma demo_pat_at : str_at demo_pat_mem 100 demo_pat.
Proof. vm_compute. repeat split; done. Qed.

Lemma match_regex_witness :
  exists b, match_ 12 (mset (mwrite demo_pat_mem 200 [97; 120; 98; 99]) 204 0) 100 200 = Some b /\
    (b = true <-> matches demo_pat [97; 120; 98; 99]).
Proof.
  apply (match_regex _ 12 100 demo_pat 200 [97; 120; 98; 99]); [| |simpl; lia];
    vm_compute; repeat split; done.
Defined.

Lemma grep_prints_matches_witness :
  exists s', grep 2000 20 1100 100 0 (US demo_pat_mem (demo_file, [])) = Ok tt s' /\
    (uenv s').2 =
      [] ++ concat (map (fun l => l ++ [c_nl]) (List.filter (fun l => bool_decide (matches demo_pat l)) demo_lines)).
Proof.
  apply (grep_prints_matches 0 fst snd 2000 100 demo_pat 1100 20 demo_lines [97; 98]).
  - lia.
  - left. simpl. lia.
  - unfold bufsize. simpl. lia.
  - apply demo_pat_at.
  - reflexivity.
  - apply (bool_decide_unpack _). vm_compute. reflexivity.
  - simpl. lia.
Defined.
