(* ===== verification/Sh.v ===== *)
(** The command parser of the shell (user/sh.c).

    A [char *] into the command line is represented by what it points to: the
    rest of the line up to [es].  Commands are built by [malloc] in the source
    and are values here; exhausted memory is not modelled. *)

From S2P Require Import Prelude CInt Machine KString.

Definition MAXARGS : nat := 10.
(** [O_RDONLY], [O_WRONLY], [O_CREATE], [O_TRUNC] of kernel/fcntl.h. *)
Definition mode_read : Z := 0.
Definition mode_write : Z := Z.lor (Z.lor 1 0x200) 0x400.
Definition mode_append : Z := Z.lor 1 0x200.

(** [struct cmd] and its variants; [W] is a word: in the source, the pair of
    pointers to its first character and behind its last. *)
Inductive cmd (W : Type) :=
| EXEC (argv : list W)
| REDIR (c : cmd W) (file : W) (mode fd : Z)
| PIPE (left right : cmd W)
| LIST (left right : cmd W)
| BACK (c : cmd W).
Arguments EXEC {W}. Arguments REDIR {W}. Arguments PIPE {W}. Arguments LIST {W}. Arguments BACK {W}.

(** The constructors. *)
Definition execcmd {W} : cmd W := EXEC [].
Definition redircmd {W} (subcmd : cmd W) (file : W) (mode fd : Z) : cmd W := REDIR subcmd file mode fd.
Definition pipecmd {W} (left right : cmd W) : cmd W := PIPE left right.
Definition listcmd {W} (left right : cmd W) : cmd W := LIST left right.
Definition backcmd {W} (subcmd : cmd W) : cmd W := BACK subcmd.

(** " \t\r\n\v" and "<|>&;()". *)
Definition whitespace : list Z := [32; 9; 13; 10; 11].
Definition symbols : list Z := [60; 124; 62; 38; 59; 40; 41].
Definition lparen : Z := 40.
Definition rparen : Z := 41.
Definition amp : Z := 38.
Definition semi : Z := 59.
Definition bar : Z := 124.
Definition less : Z := 60.
Definition greater : Z := 62.
Definition plus : Z := 43.
Definition word_tok : Z := 97.

(** ulib's [strchr] as a test: the NUL is not found. *)
Definition in_set (l : list Z) (c : Z) : bool := negb (c =? 0) && bool_decide (c ∈ l).
Definition is_word (c : Z) : bool := negb (in_set whitespace c) && negb (in_set symbols c).

(** [*s], where the string ends with a NUL. *)
Definition char_at (s : list Z) : Z := default 0 (head s).

(** [while(s < es && strchr(whitespace, *s)) s++;] *)
Fixpoint skip_ws (s : list Z) : list Z :=
  match s with
  | c :: s' => if in_set whitespace c then skip_ws s' else s
  | [] => []
  end.

Fixpoint skip_word (s : list Z) : list Z :=
  match s with
  | c :: s' => if is_word c then skip_word s' else s
  | [] => []
  end.

(** The token, its bounds [q] and [eq], and the new [*ps]. *)
Definition gettoken (s : list Z) : Z * (list Z * list Z) * list Z :=
  let s := skip_ws s in
  let q := s in
  let c := char_at s in
  let '(ret, s) :=
    if c =? 0 then (0, s)
    else if bool_decide (c ∈ [bar; lparen; rparen; semi; amp; less]) then (c, tail s)
    else if c =? greater then
      let s := tail s in
      if char_at s =? greater then (plus, tail s) else (c, s)
    else (word_tok, skip_word s) in
  (ret, (q, s), skip_ws s).

Definition peek (toks : list Z) (s : list Z) : bool * list Z :=
  let s := skip_ws s in (in_set toks (char_at s), s).

Section parser.
Abbreviation word := (list Z * list Z)%type.
Abbreviation P := (M (list Z)).

Definition get_token : P (Z * word) := fun s => let '(r, w, s') := gettoken s in Ok (r, w) s'.
Definition peek_tok (toks : list Z) : P bool := fun s => let '(b, s') := peek toks s in Ok b s'.

(** A loop that takes at least one character per iteration. *)
Definition loop {A B} (body : A -> P (A + B)) (a : A) : P B := fun s => while (S (length s)) body a s.

Definition parseredirs : cmd word -> P (cmd word) :=
  loop (fun cmd =>
    let* more := peek_tok [less; greater] in
    if negb more then ret (inr cmd) else
    let* '(tok, _) := get_token in
    let* '(t, w) := get_token in
    if negb (t =? word_tok) then panic "missing file for redirection" else
    ret (inl (if tok =? less then redircmd cmd w mode_read 0
              else if tok =? greater then redircmd cmd w mode_write 1
              else if tok =? plus then redircmd cmd w mode_append 1
              else cmd))).

(** The [execcmd] that [cmd] points to in [parseexec]: [ret] itself, or below
    the redirections wrapped around it. *)
Fixpoint exec_push {W} (w : W) (c : cmd W) : cmd W :=
  match c with
  | EXEC argv => EXEC (argv ++ [w])
  | REDIR c f m d => REDIR (exec_push w c) f m d
  | _ => c
  end.

(** The arguments, from number [argc]. *)
Definition parseargs : cmd word -> P (cmd word) := fun c =>
  loop (fun '(argc, ret_) =>
    let* stop := peek_tok [bar; rparen; amp; semi] in
    if stop then ret (inr ret_) else
    let* '(tok, w) := get_token in
    if tok =? 0 then ret (inr ret_) else
    if negb (tok =? word_tok) then panic "syntax" else
    let ret_ := exec_push w ret_ in
    let argc := S argc in
    if (MAXARGS <=? argc)%nat then panic "too many args" else
    let* ret_ := parseredirs ret_ in
    ret (inl (argc, ret_))) (0%nat, c).

(** [while(peek(ps, es, "&"))] of [parseline]. *)
Definition parseback : cmd word -> P (cmd word) :=
  loop (fun cmd =>
    let* more := peek_tok [amp] in
    if more then let* _ := get_token in ret (inl (backcmd cmd)) else ret (inr cmd)).

Fixpoint parseline (n : nat) : P (cmd word) :=
  match n with
  | O => spin
  | S n =>
      let* cmd := parsepipe n in
      let* cmd := parseback cmd in
      let* more := peek_tok [semi] in
      if more then
        let* _ := get_token in
        let* r := parseline n in
        ret (listcmd cmd r)
      else ret cmd
  end
with parsepipe (n : nat) : P (cmd word) :=
  match n with
  | O => spin
  | S n =>
      let* cmd := parseexec n in
      let* more := peek_tok [bar] in
      if more then
        let* _ := get_token in
        let* r := parsepipe n in
        ret (pipecmd cmd r)
      else ret cmd
  end
with parseexec (n : nat) : P (cmd word) :=
  match n with
  | O => spin
  | S n =>
      let* block := peek_tok [lparen] in
      if block then parseblock n else
      let* r := parseredirs execcmd in
      parseargs r
  end
with parseblock (n : nat) : P (cmd word) :=
  match n with
  | O => spin
  | S n =>
      let* open := peek_tok [lparen] in
      if negb open then panic "parseblock" else
      let* _ := get_token in
      let* cmd := parseline n in
      let* close := peek_tok [rparen] in
      if negb close then panic "syntax - missing )" else
      let* _ := get_token in
      parseredirs cmd
  end.

(** ** [nulterminate] *)

(** Write a NUL where [p] points to, in the buffer that held [line]; behind
    the line there is the NUL that ends it. *)
Definition put_nul (line p buf : list Z) : list Z := <[(length line - length p)%nat := 0]> buf.

Fixpoint nulterminate (line : list Z) (c : cmd word) (buf : list Z) : list Z :=
  match c with
  | EXEC argv => foldl (fun buf w => put_nul line (snd w) buf) buf argv
  | REDIR c f _ _ => put_nul line (snd f) (nulterminate line c buf)
  | PIPE l r | LIST l r => nulterminate line r (nulterminate line l buf)
  | BACK c => nulterminate line c buf
  end.

(** [parsecmd] on a line: the command, and the buffer it points into.  Four
    calls of the parser take at least one character. *)
Definition parsecmd (line : list Z) : outcome (list Z) (cmd word) :=
  (let* cmd := parseline (4 * length line + 4) in
   let* _ := peek_tok [] in
   fun s => if bool_decide (s = []) then Ok cmd (nulterminate line cmd (line ++ [0])) else Panic "syntax") line.
End parser.
