(* ===== verification/ShThm.v ===== *)
(** The shell's parser: it always ends, with a command or with one of four
    error messages; the words of a command are runs of word characters of the
    line, and NUL-terminated after [nulterminate]; and a command printed as a
    line is parsed back. *)

From S2P Require Import Prelude CInt Machine KString Sh.

Abbreviation word := (list Z * list Z)%type.

(** ** Tokens *)

Lemma skip_ws_suffix s : skip_ws s `suffix_of` s.
Proof.
  induction s as [|c s IH]; simpl; [done|]. destruct (in_set whitespace c); [|done].
  by apply suffix_cons_r.
Qed.

Lemma skip_ws_idem s : skip_ws (skip_ws s) = skip_ws s.
Proof.
  induction s as [|c s IH]; simpl; [done|]. destruct (in_set whitespace c) eqn:E; [done|].
  simpl. by rewrite E.
Qed.

Lemma skip_word_split s : exists t, s = t ++ skip_word s /\ Forall (fun c => is_word c = true) t /\
  (skip_word s = [] \/ is_word (char_at (skip_word s)) = false).
Proof.
  induction s as [|c s (t & E & F & H)]; simpl; [exists []; by auto|].
  destruct (is_word c) eqn:Ec.
  - exists (c :: t). split_and!; [by rewrite E at 1|by constructor|done].
  - exists []. split_and!; [done|constructor|by right].
Qed.

(** A word of [line]: a non-empty run of word characters with no word
    character behind it. *)
Definition word_ok (line : list Z) (w : word) : Prop :=
  fst w `suffix_of` line /\
  exists t, t <> [] /\ fst w = t ++ snd w /\ Forall (fun c => is_word c = true) t /\
    (snd w = [] \/ is_word (char_at (snd w)) = false).

Lemma tail_suffix (s : list Z) : tail s `suffix_of` s.
Proof. destruct s; [done|]. by apply suffix_cons_r. Qed.

Lemma suffix_le (s s' : list Z) : s' `suffix_of` s -> (length s' <= length s)%nat.
Proof. apply suffix_length. Qed.

Lemma in_symbols c : c ∈ [bar; lparen; rparen; semi; amp; less] -> c <> word_tok.
Proof. intros H ->. revert H. apply (bool_decide_unpack _). by vm_compute. Qed.

Lemma skip_ws_head s : skip_ws s <> [] -> in_set whitespace (char_at (skip_ws s)) = false.
Proof.
  induction s as [|c s IH]; simpl; [done|]. destruct (in_set whitespace c) eqn:E; [done|]. done.
Qed.

Lemma gettoken_ok line s t w s' :
  Forall (fun c => c <> 0) line -> s `suffix_of` line -> gettoken s = (t, w, s') ->
  s' `suffix_of` s /\ (t = word_tok -> word_ok line w) /\
  (t = 0 /\ skip_ws s = [] \/ t <> 0 /\ (length s' < length s)%nat).
Proof.
  intros Hnul Hs. unfold gettoken. pose proof (skip_ws_suffix s) as Hq.
  pose proof (skip_ws_head s) as Hws. remember (skip_ws s) as q eqn:Eq. cbv zeta.
  destruct q as [|c q].
  { intros [= <- <- <-]. split_and!; [apply suffix_nil|done|by left]. }
  change (char_at (c :: q)) with c in *. cbn [tail].
  assert (Hc0 : c <> 0).
  { assert (Hin : (c :: q) `suffix_of` line) by (by etrans). destruct Hin as [pre ->].
    apply Forall_app in Hnul as [_ Hnul]. by inv Hnul. }
  assert (Hlen : (S (length q) <= length s)%nat) by (apply suffix_le in Hq; done).
  rewrite (proj2 (Z.eqb_neq _ _) Hc0).
  assert (Hshort : forall r, r `suffix_of` q -> skip_ws r `suffix_of` s /\ (length (skip_ws r) < length s)%nat).
  { intros r Hr. assert (H1 : skip_ws r `suffix_of` q) by (etrans; [apply skip_ws_suffix|exact Hr]).
    split; [|apply suffix_le in H1; lia]. etrans; [exact H1|]. etrans; [|exact Hq]. by apply suffix_cons_r. }
  case_bool_decide as Hsym.
  { intros [= <- <- <-]. destruct (Hshort q) as [A B]; [done|]. split_and!; [done| |by right].
    intros E. by apply in_symbols in Hsym. }
  destruct (Z.eqb_spec c greater) as [->|Hgt].
  { destruct (char_at q =? greater); intros [= <- <- <-];
      [destruct (Hshort (tail q)) as [A B]; [apply tail_suffix|]|destruct (Hshort q) as [A B]; [done|]];
      (split_and!; [done|by intros [=]|by right]). }
  intros [= <- <- <-]. destruct (skip_word_split (c :: q)) as (t & E & F & Hend).
  assert (Hword : is_word c = true).
  { unfold is_word. rewrite Hws by done. simpl. unfold in_set.
    rewrite (proj2 (Z.eqb_neq _ _) Hc0), bool_decide_false; [done|]. intros Hin. apply Hsym.
    unfold symbols in Hin. repeat (apply elem_of_cons in Hin as [->|Hin]); try done.
    all: try (exfalso; by apply Hgt). all: try (apply (bool_decide_unpack _); by vm_compute).
    by apply elem_of_nil in Hin. }
  assert (Ht : t <> []).
  { intros ->. simpl in E. rewrite Hword in E. pose proof (skip_word_split q) as (t' & E' & _).
    apply (f_equal length) in E. apply (f_equal length) in E'. rewrite length_app in E'. simpl in E. lia. }
  assert (Hsuf : skip_word (c :: q) `suffix_of` q).
  { destruct t as [|d t]; [done|]. injection E as -> E. by exists t. }
  destruct (Hshort _ Hsuf) as [A B]. split_and!; [exact A| |by right].
  intros _. split; [by etrans|]. by exists t.
Qed.

(** ** The parser ends *)

Definition syntax_errors : list string :=
  ["missing file for redirection"; "syntax"; "too many args"; "syntax - missing )"]%string.

(** The routine returns with [Q], or stops with a syntax error. *)
Definition ends {A} (Q : A -> list Z -> Prop) (o : outcome (list Z) A) : Prop :=
  match o with
  | Ok a s => Q a s
  | Panic m => m ∈ syntax_errors
  | _ => False
  end.

Lemma ends_bind {A B} (Q : B -> list Z -> Prop) (m : M (list Z) A) (k : A -> M (list Z) B) s :
  ends (fun a s' => ends Q (k a s')) (m s) -> ends Q (bind m k s).
Proof. unfold bind. by destruct (m s). Qed.

Lemma ends_mono {A} (Q Q' : A -> list Z -> Prop) o :
  (forall a s, Q a s -> Q' a s) -> ends Q o -> ends Q' o.
Proof. destruct o; simpl; auto. Qed.

Lemma ends_loop {A B} (I : A -> list Z -> Prop) (body : A -> M (list Z) (A + B)) (Q : B -> list Z -> Prop) a s :
  I a s ->
  (forall a s, I a s -> ends (fun r s' => match r with
      | inl a' => I a' s' /\ (length s' < length s)%nat
      | inr b => Q b s' end) (body a s)) ->
  ends Q (loop body a s).
Proof.
  intros HI Hb. unfold loop. assert (Hn : (length s < S (length s))%nat) by lia.
  revert Hn. generalize (S (length s)) as n. intros n Hn. revert a s HI Hn.
  induction n as [|n IH]; intros a s HI Hn; [lia|]. simpl. apply ends_bind.
  eapply ends_mono; [|by apply Hb]. intros [a'|b] s'; simpl; [|done].
  intros [HI' Hl]. apply IH; [done|lia].
Qed.

(** The words of a command. *)
Fixpoint cmd_words {W} (c : cmd W) : list W :=
  match c with
  | EXEC argv => argv
  | REDIR c f _ _ => f :: cmd_words c
  | PIPE l r | LIST l r => cmd_words l ++ cmd_words r
  | BACK c => cmd_words c
  end.

(** Every argument vector fits its array, the final null included, and only
    standard input and output are redirected. *)
Fixpoint cmd_ok {W} (c : cmd W) : Prop :=
  match c with
  | EXEC argv => (length argv < MAXARGS)%nat
  | REDIR c _ _ fd => (fd = 0 \/ fd = 1) /\ cmd_ok c
  | BACK c => cmd_ok c
  | PIPE l r | LIST l r => cmd_ok l /\ cmd_ok r
  end.

(** [argc] of the [execcmd] below the redirections. *)
Fixpoint exec_len {W} (c : cmd W) : nat :=
  match c with
  | EXEC argv => length argv
  | REDIR c _ _ _ => exec_len c
  | _ => 0
  end.

Lemma exec_len_push {W} (w : W) c : (exec_len (exec_push w c) <= S (exec_len c))%nat.
Proof. induction c; simpl; try lia. rewrite length_app. simpl. lia. Qed.

Lemma cmd_ok_push {W} (w : W) c :
  cmd_ok c -> (S (exec_len c) < MAXARGS)%nat -> cmd_ok (exec_push w c).
Proof. induction c; simpl; try tauto. rewrite length_app. simpl. lia. Qed.

Section total.
Context (line : list Z) (Hnul : Forall (fun c => c <> 0) line).

Definition good (c : cmd word) : Prop := Forall (word_ok line) (cmd_words c) /\ cmd_ok c.

(** A step of the parser from [s]: the rest is a suffix. *)
Definition at_ (s : list Z) (c : cmd word) (s' : list Z) : Prop := s' `suffix_of` s /\ good c.

Lemma peek_ends toks s (Q : bool -> list Z -> Prop) :
  (in_set toks (char_at (skip_ws s)) = true -> skip_ws s <> [] -> Q true (skip_ws s)) ->
  (in_set toks (char_at (skip_ws s)) = false -> Q false (skip_ws s)) ->
  ends Q (peek_tok toks s).
Proof.
  intros H1 H2. unfold peek_tok, peek. simpl. destruct (in_set toks (char_at (skip_ws s))) eqn:E.
  - apply H1; [done|]. intros E0. rewrite E0 in E. done.
  - by apply H2.
Qed.

Lemma token_ends s (Q : Z * word -> list Z -> Prop) :
  s `suffix_of` line ->
  (forall t w s', s' `suffix_of` s -> (t = word_tok -> word_ok line w) ->
    (t = 0 /\ skip_ws s = [] \/ t <> 0 /\ (length s' < length s)%nat) -> Q (t, w) s') ->
  ends Q (get_token s).
Proof.
  intros Hs HQ. unfold get_token. destruct (gettoken s) as [[t w] s'] eqn:E. simpl.
  destruct (gettoken_ok line s t w s' Hnul Hs E) as (A & B & C). by apply HQ.
Qed.

(** [peek], then the token it announced. *)
Lemma peek_token_ends s (Q : Z * word -> list Z -> Prop) :
  s `suffix_of` line -> skip_ws s <> [] ->
  (forall t w s', s' `suffix_of` s -> (t = word_tok -> word_ok line w) -> (length s' < length s)%nat -> Q (t, w) s') ->
  ends Q (get_token (skip_ws s)).
Proof.
  intros Hs Hne HQ. apply token_ends; [by etrans; [apply skip_ws_suffix|]|].
  intros t w s' A B [[_ C]|[_ C]]; [by rewrite skip_ws_idem in C|].
  pose proof (suffix_le _ _ (skip_ws_suffix s)). apply HQ; [|done|lia].
  etrans; [exact A|apply skip_ws_suffix].
Qed.

Lemma skip_in_line s : s `suffix_of` line -> skip_ws s `suffix_of` line.
Proof. intros Hs. etrans; [apply skip_ws_suffix|done]. Qed.

Lemma parseredirs_ends s c :
  s `suffix_of` line -> good c ->
  ends (fun c' s' => at_ s c' s' /\ exec_len c' = exec_len c) (parseredirs c s).
Proof.
  intros Hs Hc. generalize (eq_refl (exec_len c)). generalize (exec_len c) at 2 3 as k. intros k Hk.
  apply (ends_loop (fun c' s' => at_ s c' s' /\ exec_len c' = k)); [by split|].
  clear c Hc Hk. intros c s1 [[H1 Hc] Hk]. apply ends_bind. apply peek_ends.
  - intros _ Hne. cbn [negb]. apply ends_bind. apply peek_token_ends; [by etrans|done|].
    intros t w s2 A _ B. apply ends_bind. apply token_ends; [etrans; [exact A|by etrans]|].
    intros t2 w2 s3 A2 W2 B2. destruct (Z.eqb_spec t2 word_tok) as [->|]; cbn [negb]; [|simpl; left].
    simpl. set (c2 := if t =? less then REDIR c w2 mode_read 0
      else if t =? greater then REDIR c w2 mode_write 1
      else if t =? plus then REDIR c w2 mode_append 1 else c).
    assert (Hg : good c2 /\ exec_len c2 = k).
    { assert (Hr : forall m d, d = 0 \/ d = 1 -> good (REDIR c w2 m d) /\ exec_len (REDIR c w2 m d) = k).
      { intros m d Hd. split; [|done]. split; [constructor; [by apply W2|apply Hc]|split; [done|apply Hc]]. }
      unfold c2. repeat (destruct (_ =? _)); auto. }
    split; [split; [split; [|apply Hg]|apply Hg]|].
    + etrans; [exact A2|]. by etrans.
    + apply suffix_le in A2. lia.
  - intros _. cbn [negb]. simpl. split; [|done]. split; [|done]. etrans; [apply skip_ws_suffix|done].
Qed.

Lemma exec_push_good w c :
  word_ok line w -> good c -> (S (exec_len c) < MAXARGS)%nat -> good (exec_push w c).
Proof.
  intros Hw [Hc Ha] Hn. split; [|by apply cmd_ok_push]. clear Ha Hn.
  induction c as [argv|c IH f m d| | |]; simpl in *; try done.
  - apply Forall_app. split; [done|]. by apply Forall_singleton.
  - apply Forall_cons in Hc as [H1 H2]. constructor; [done|]. by apply IH.
Qed.

Lemma parseargs_ends s c :
  s `suffix_of` line -> good c -> exec_len c = 0%nat -> ends (at_ s) (parseargs c s).
Proof.
  intros Hs Hc Hlen.
  apply (ends_loop (fun p s' => at_ s (snd p) s' /\ (exec_len (snd p) <= fst p)%nat)); [split; [by split|simpl; lia]|].
  clear c Hc Hlen. intros [argc c] s1 [[H1 Hc] Hlen]. simpl in Hc, Hlen. apply ends_bind. apply peek_ends.
  - intros _ _. simpl. split; [|done]. etrans; [apply skip_ws_suffix|done].
  - intros _. apply ends_bind. apply token_ends; [apply skip_in_line; by etrans|].
    intros t w s2 A W B. rewrite skip_ws_idem in B.
    pose proof (suffix_le _ _ (skip_ws_suffix s1)) as Hl.
    assert (A' : s2 `suffix_of` s) by (etrans; [exact A|]; etrans; [apply skip_ws_suffix|done]).
    destruct (Z.eqb_spec t 0) as [->|Hz]; [by split|].
    destruct B as [[B _]|[_ B]]; [done|].
    destruct (Z.eqb_spec t word_tok) as [->|]; cbn [negb]; [|simpl; right; left].
    destruct (Nat.leb_spec MAXARGS (S argc)); [simpl; do 2 right; left|].
    apply ends_bind. eapply ends_mono; [|apply (parseredirs_ends s2)].
    + intros c' s3 [[H3 Hc'] Hl']. simpl. pose proof (exec_len_push w c).
      split; [split; [split; [|done]|lia]|].
      * by etrans.
      * apply suffix_le in H3. lia.
    + by etrans.
    + apply exec_push_good; [by apply W|exact Hc|lia].
Qed.

Lemma parseback_ends s c :
  s `suffix_of` line -> good c -> ends (at_ s) (parseback c s).
Proof.
  intros Hs Hc. apply (ends_loop (at_ s)); [split; [done|exact Hc]|].
  clear c Hc. intros c s1 [H1 Hc]. apply ends_bind. apply peek_ends.
  - intros _ Hne. apply ends_bind. apply peek_token_ends; [by etrans|done|].
    intros t w s2 A _ B. simpl. split; [split; [by etrans|exact Hc]|done].
  - intros _. simpl. split; [|done]. etrans; [apply skip_ws_suffix|done].
Qed.

(** Enough fuel: four calls for each character, and four more. *)
Lemma parse_ends n :
  (forall s, s `suffix_of` line -> (4 * length s + 4 <= n)%nat -> ends (at_ s) (parseline n s)) /\
  (forall s, s `suffix_of` line -> (4 * length s + 3 <= n)%nat -> ends (at_ s) (parsepipe n s)) /\
  (forall s, s `suffix_of` line -> (4 * length s + 2 <= n)%nat -> ends (at_ s) (parseexec n s)) /\
  (forall s, s `suffix_of` line -> (4 * length s + 1 <= n)%nat ->
    in_set [lparen] (char_at (skip_ws s)) = true -> ends (at_ s) (parseblock n s)).
Proof.
  induction n as [|n (IHl & IHp & IHe & IHb)]; [split_and!; intros; lia|].
  split_and!; intros s Hs Hn; simpl.
  - apply ends_bind. eapply ends_mono; [|apply IHp; [done|lia]]. intros c s1 [H1 Hc].
    apply ends_bind. eapply ends_mono; [|apply parseback_ends; [by etrans|exact Hc]].
    intros c2 s2 [H2 Hc2]. assert (H2s : s2 `suffix_of` s) by (by etrans).
    apply ends_bind. apply peek_ends.
    + intros _ Hne. apply ends_bind. apply peek_token_ends; [by etrans|done|].
      intros t w s3 A _ B. apply ends_bind. pose proof (suffix_le _ _ H2s).
      eapply ends_mono; [|apply IHl; [etrans; [exact A|by etrans]|lia]].
      intros r s4 [H4 Hr]. simpl. split; [|split; [apply Forall_app; split; [apply Hc2|apply Hr]|split; [apply Hc2|apply Hr]]].
      etrans; [exact H4|]. by etrans.
    + intros _. simpl. split; [|done]. etrans; [apply skip_ws_suffix|done].
  - apply ends_bind. eapply ends_mono; [|apply IHe; [done|lia]]. intros c s1 [H1 Hc].
    apply ends_bind. apply peek_ends.
    + intros _ Hne. apply ends_bind. apply peek_token_ends; [by etrans|done|].
      intros t w s3 A _ B. apply ends_bind. pose proof (suffix_le _ _ H1).
      eapply ends_mono; [|apply IHp; [etrans; [exact A|by etrans]|lia]].
      intros r s4 [H4 Hr]. simpl. split; [|split; [apply Forall_app; split; [apply Hc|apply Hr]|split; [apply Hc|apply Hr]]].
      etrans; [exact H4|]. by etrans.
    + intros _. simpl. split; [|done]. etrans; [apply skip_ws_suffix|done].
  - pose proof (suffix_le _ _ (skip_ws_suffix s)). apply ends_bind. apply peek_ends.
    + intros Hp Hne. eapply ends_mono; [|apply IHb; [by apply skip_in_line|lia|by rewrite skip_ws_idem]].
      intros c s1 [H1 Hc]. split; [|done]. etrans; [exact H1|apply skip_ws_suffix].
    + intros _. apply ends_bind.
      eapply ends_mono; [|apply (parseredirs_ends (skip_ws s) (EXEC [])); [by apply skip_in_line|]].
      2: { split; [constructor|simpl; unfold MAXARGS; lia]. }
      intros c s1 [[H1 Hc] Hl]. assert (H1s : s1 `suffix_of` s) by (etrans; [exact H1|apply skip_ws_suffix]).
      eapply ends_mono; [|apply parseargs_ends; [by etrans|exact Hc|exact Hl]].
      intros c2 s2 [H2 Hc2]. split; [by etrans|done].
  - intros Hopen. apply ends_bind. apply peek_ends; [|by rewrite Hopen].
    intros _ Hne. cbn [negb]. apply ends_bind. apply peek_token_ends; [done|done|].
    intros t w s1 A _ B. apply ends_bind.
    eapply ends_mono; [|apply IHl; [by etrans|lia]]. intros c s2 [H2 Hc].
    assert (H2s : s2 `suffix_of` s) by (by etrans).
    apply ends_bind. apply peek_ends; [|intros _; simpl; by do 3 right; left].
    intros _ Hne2. cbn [negb]. apply ends_bind. apply peek_token_ends; [by etrans|done|].
    intros t2 w2 s3 A3 _ B3. assert (H3s : s3 `suffix_of` s) by (by etrans).
    eapply ends_mono; [|apply parseredirs_ends; [by etrans|exact Hc]].
    intros c2 s4 [[H4 Hc2] _]. split; [by etrans|done].
Qed.
End total.

(** ** The words of a command *)

(** The text between the two pointers. *)
Definition word_text (w : word) : list Z := take (length (fst w) - length (snd w)) (fst w).
(** The index of a pointer in the buffer. *)
Definition offset (line p : list Z) : nat := (length line - length p)%nat.

Lemma word_text_app t r : word_text (t ++ r, r) = t.
Proof.
  unfold word_text. cbn [fst snd]. rewrite length_app, Nat.add_sub. apply take_app_length.
Qed.

Lemma nulterminate_length line c buf : length (nulterminate line c buf) = length buf.
Proof.
  revert buf. induction c as [argv|c IH f m d|l IHl r IHr|l IHl r IHr|c IH]; intros buf; simpl;
    try by rewrite ?IHr, ?IHl.
  - revert buf. induction argv as [|w argv IH]; intros buf; simpl; [done|].
    rewrite IH. apply length_insert.
  - unfold put_nul. rewrite length_insert. apply IH.
Qed.

(** [nulterminate] writes NULs behind the words and nothing else. *)
Lemma nulterminate_lookup line c buf k :
  (forall w, w ∈ cmd_words c -> offset line (snd w) <> k) ->
  nulterminate line c buf !! k = buf !! k.
Proof.
  revert buf. induction c as [argv|c IH f m d|l IHl r IHr|l IHl r IHr|c IH]; intros buf Hk; simpl in *.
  - revert buf Hk. induction argv as [|w argv IH]; intros buf Hk; simpl; [done|].
    rewrite IH by (intros x Hx; apply Hk; by right).
    unfold put_nul. apply list_lookup_insert_ne. apply (Hk w). left.
  - unfold put_nul. rewrite list_lookup_insert_ne by (apply (Hk f); left).
    apply IH. intros x Hx. apply Hk. by right.
  - rewrite IHr, IHl; [done|..]; intros x Hx; apply Hk, elem_of_app; auto.
  - rewrite IHr, IHl; [done|..]; intros x Hx; apply Hk, elem_of_app; auto.
  - by apply IH.
Qed.

(** Once NUL, a place stays NUL. *)
Lemma nulterminate_keeps line c buf k :
  buf !! k = Some 0 -> nulterminate line c buf !! k = Some 0.
Proof.
  assert (Hput : forall p buf, buf !! k = Some 0 -> put_nul line p buf !! k = Some 0).
  { intros p b Hb. unfold put_nul. destruct (decide ((length line - length p)%nat = k)) as [->|Hne].
    - apply list_lookup_insert_eq. by eapply lookup_lt_Some.
    - by rewrite list_lookup_insert_ne. }
  revert buf. induction c as [argv|c IH f m d|l IHl r IHr|l IHl r IHr|c IH]; intros buf Hb; simpl; auto.
  revert buf Hb. induction argv as [|w argv IH]; intros buf Hb; simpl; auto.
Qed.

Lemma nulterminate_nul line c buf w :
  length buf = S (length line) -> w ∈ cmd_words c -> nulterminate line c buf !! offset line (snd w) = Some 0.
Proof.
  assert (Hput : forall b, length b = S (length line) -> put_nul line (snd w) b !! offset line (snd w) = Some 0).
  { intros b Hb. apply list_lookup_insert_eq. unfold offset. lia. }
  revert buf. induction c as [argv|c IH f m d|l IHl r IHr|l IHl r IHr|c IH]; intros buf Hb Hw; simpl in *.
  - revert buf Hb Hw. induction argv as [|x argv IH]; intros buf Hb Hw; [by apply elem_of_nil in Hw|].
    apply elem_of_cons in Hw as [<-|Hw]; simpl.
    + exact (nulterminate_keeps line (EXEC argv) _ _ (Hput buf Hb)).
    + apply IH; [|done]. by rewrite <- Hb; apply length_insert.
  - apply elem_of_cons in Hw as [<-|Hw].
    + apply Hput. by rewrite nulterminate_length.
    + assert (E : nulterminate line c buf !! offset line (snd w) = Some 0) by auto.
      exact (nulterminate_keeps line (EXEC [f]) _ _ E).
  - apply elem_of_app in Hw as [Hw|Hw].
    + by apply nulterminate_keeps, IHl.
    + apply IHr; [by rewrite nulterminate_length|done].
  - apply elem_of_app in Hw as [Hw|Hw].
    + by apply nulterminate_keeps, IHl.
    + apply IHr; [by rewrite nulterminate_length|done].
  - by apply IH.
Qed.

Lemma cstr_prefix (l t : list Z) :
  Forall (fun c => c <> 0) t -> (forall i c, t !! i = Some c -> l !! i = Some c) ->
  l !! length t = Some 0 -> cstr l = t.
Proof.
  intros Ht. revert l. induction Ht as [|c t Hc Ht IH]; intros l Hl H0.
  - destruct l as [|x l]; [done|]. simpl in H0. by injection H0 as ->.
  - destruct l as [|x l]; [done|]. pose proof (Hl 0%nat c eq_refl) as E. injection E as ->.
    simpl. rewrite (proj2 (Z.eqb_neq _ _) Hc). f_equal. apply IH; [|done].
    intros i d Hi. by apply (Hl (S i)).
Qed.

Lemma suffix_drop (line p : list Z) : p `suffix_of` line -> drop (offset line p) line = p.
Proof.
  intros [pre ->]. unfold offset. rewrite length_app, Nat.add_sub. apply drop_app_length.
Qed.

(** A string of the command, read in the buffer after [nulterminate]. *)
Lemma nulterminate_word line c w :
  Forall (fun c => c <> 0) line -> Forall (word_ok line) (cmd_words c) -> w ∈ cmd_words c ->
  cstr (drop (offset line (fst w)) (nulterminate line c (line ++ [0]))) = word_text w.
Proof.
  intros Hnul Hgood Hw. pose proof (proj1 (Forall_forall _ _) Hgood w Hw) as (Hs & t & Ht & E & F & Hend).
  destruct w as [q r]. cbn [fst snd] in *. subst q. rewrite word_text_app.
  pose proof (suffix_drop _ _ Hs) as Hdrop. pose proof (suffix_le _ _ Hs) as Hle. rewrite length_app in Hle.
  set (o := offset line (t ++ r)) in *.
  assert (Hat : forall i c, t !! i = Some c -> line !! (o + i)%nat = Some c).
  { intros i d Hi. rewrite <- lookup_drop, Hdrop. by apply lookup_app_l_Some. }
  apply cstr_prefix.
  - destruct Hs as [pre Hpre]. rewrite Hpre in Hnul.
    by apply Forall_app in Hnul as [_ [Hnul _]%Forall_app].
  - intros i d Hi. rewrite lookup_drop, nulterminate_lookup; [by apply lookup_app_l_Some, Hat|].
    (* a NUL is never written on a word character *)
    intros [q' r'] Hw' Eo. cbn [snd] in Eo.
    pose proof (proj1 (Forall_forall _ _) Hgood _ Hw') as (Hs' & t' & _ & E' & _ & Hend').
    cbn [fst snd] in *. subst q'.
    assert (Hr' : r' `suffix_of` line) by (etrans; [|exact Hs']; by apply suffix_app_r).
    pose proof (suffix_drop _ _ Hr') as Hd'. rewrite Eo in Hd'.
    assert (Hh : head r' = Some d).
    { rewrite <- Hd', head_lookup, lookup_drop, Nat.add_0_r. by apply Hat. }
    destruct r' as [|x r']; [done|]. injection Hh as ->. destruct Hend' as [|Hend']; [done|].
    simpl in Hend'. change (char_at (d :: r')) with d in Hend'.
    pose proof (Forall_lookup_1 _ _ _ _ F Hi) as Hd. simpl in Hd. congruence.
  - rewrite lookup_drop. replace (o + length t)%nat with (offset line r).
    + apply (nulterminate_nul line c (line ++ [0]) (t ++ r, r)); [rewrite length_app; simpl; lia|done].
    + unfold o, offset. rewrite length_app. lia.
Qed.

Lemma parsecmd_cases line :
  Forall (fun c => c <> 0) line ->
  (exists c, parsecmd line = Ok c (nulterminate line c (line ++ [0])) /\ good line c) \/
  exists m, parsecmd line = Panic m /\ m ∈ syntax_errors.
Proof.
  intros Hnul.
  assert (H : ends (fun c buf => buf = nulterminate line c (line ++ [0]) /\ good line c) (parsecmd line)).
  { unfold parsecmd.
    change (ends (fun c buf => buf = nulterminate line c (line ++ [0]) /\ good line c)
      ((let* cmd := parseline (4 * length line + 4) in
        let* _ := peek_tok [] in
        fun s => if bool_decide (s = []) then Ok cmd (nulterminate line cmd (line ++ [0])) else Panic "syntax") line)).
    apply ends_bind. eapply ends_mono; [|apply (parse_ends line Hnul _); [done|lia]].
    intros c s [Hs Hg]. apply ends_bind. unfold peek_tok, peek. simpl.
    case_bool_decide; [|simpl; right; left]. by split. }
  destruct (parsecmd line) as [c buf| | | |]; simpl in H; try done; [|by right; eauto].
  left. destruct H as [-> H]. by exists c.
Qed.

(** C34: the shell's parser is total: on every line without NULs [parsecmd]
    returns a command or stops with one of four syntax errors, its recursion
    and loops ending within four calls per character and the argument arrays
    of [MAXARGS] entries never overflowing, and only descriptors 0 and 1
    redirected; and in the buffer it leaves, every
    word of the command, its arguments and file names, is a NUL-terminated
    string: exactly the run of word characters it was in the line, untouched
    by the NULs written for the other words. *)
Theorem parsecmd_total line :
  Forall (fun c => c <> 0) line ->
  match parsecmd line with
  | Ok c buf => cmd_ok c /\ forall w, w ∈ cmd_words c ->
      word_text w <> [] /\ Forall (fun c => is_word c = true) (word_text w) /\
      cstr (drop (offset line (fst w)) buf) = word_text w
  | Panic m => m ∈ syntax_errors
  | _ => False
  end.
Proof.
  intros Hnul. destruct (parsecmd_cases line Hnul) as [(c & -> & Hg & Ha)|(m & -> & Hm)]; [|exact Hm].
  split; [exact Ha|]. intros w Hw. rewrite nulterminate_word by done.
  pose proof (proj1 (Forall_forall _ _) Hg w Hw) as (_ & t & Ht & E & F & _).
  destruct w as [q r]. cbn [fst snd] in *. subst q. by rewrite word_text_app.
Qed.

(** "ls >x|wc": two words are separated by symbols only. *)
Definition demo_line : list Z := [108; 115; 32; 62; 120; 124; 119; 99].
Lemma parsecmd_total_witness :
  match parsecmd demo_line with
  | Ok c buf => cmd_ok c /\ forall w, w ∈ cmd_words c ->
      word_text w <> [] /\ Forall (fun c => is_word c = true) (word_text w) /\
      cstr (drop (offset demo_line (fst w)) buf) = word_text w
  | Panic m => m ∈ syntax_errors
  | _ => False
  end.
Proof. apply (parsecmd_total demo_line). apply (bool_decide_unpack _). by vm_compute. Defined.

Example parsecmd_demo :
  match parsecmd demo_line with
  | Ok c buf => (word_text <$> cmd_words c, buf)
  | _ => ([], [])
  end = ([[120]; [108; 115]; [119; 99]], [108; 115; 0; 62; 120; 0; 119; 99; 0]).
Proof. by vm_compute. Qed.
