(* ===== verification/ShPrint.v ===== *)
(** Printing a shell command as a line, and the proof that the shell's parser
    reads it back: the grammar the parser accepts, from the other side. *)

From S2P Require Import Prelude CInt Machine KString Sh ShThm.

(** ** Commands as text *)

(** A command whose words are their texts. *)
Abbreviation tcmd := (cmd (list Z)).

Fixpoint cmd_map {A B} (f : A -> B) (c : cmd A) : cmd B :=
  match c with
  | EXEC argv => EXEC (f <$> argv)
  | REDIR c w m d => REDIR (cmd_map f c) (f w) m d
  | PIPE l r => PIPE (cmd_map f l) (cmd_map f r)
  | LIST l r => LIST (cmd_map f l) (cmd_map f r)
  | BACK c => BACK (cmd_map f c)
  end.
Definition texts (c : cmd word) : tcmd := cmd_map word_text c.

(** A word: word characters only, and no NUL. *)
Definition wf_word (w : list Z) : Prop := w <> [] /\ Forall (fun c => is_word c = true /\ c <> 0) w.

(** The three redirections the shell knows. *)
Definition redir_ok (m d : Z) : Prop :=
  (m = mode_read /\ d = 0) \/ (m = mode_write /\ d = 1) \/ (m = mode_append /\ d = 1).

Fixpoint wf_cmd (c : tcmd) : Prop :=
  match c with
  | EXEC argv => Forall wf_word argv /\ (length argv < MAXARGS)%nat
  | REDIR c f m d => wf_cmd c /\ wf_word f /\ redir_ok m d
  | PIPE l r | LIST l r => wf_cmd l /\ wf_cmd r
  | BACK c => wf_cmd c
  end.

Definition word_print (w : list Z) : list Z := w ++ [32].
Definition redir_print (f : list Z) (m : Z) : list Z :=
  (if m =? mode_read then [less] else if m =? mode_write then [greater] else [greater; greater]) ++ word_print f.
Definition parens (b : bool) (s : list Z) : list Z := if b then lparen :: s ++ [rparen] else s.

(** Level 0: what [parseexec] reads; 1: [parsepipe]; 2: a pipe and its "&"s;
    3: [parseline]. *)
Fixpoint print (lvl : nat) (c : tcmd) : list Z :=
  match c with
  | EXEC argv => argv ≫= word_print
  | REDIR c f m _ => print 0 c ++ redir_print f m
  | PIPE l r => parens (lvl <? 1)%nat (print 0 l ++ bar :: print 1 r)
  | BACK c => parens (lvl <? 2)%nat (print 2 c ++ [amp])
  | LIST l r => parens (lvl <? 3)%nat (print 2 l ++ semi :: print 3 r)
  end.

(** ** Reading tokens *)

(** A relation between concrete lists of tokens. *)
Ltac toks := apply (bool_decide_unpack _); by vm_compute.
(** From one list of tokens to a larger one. *)
Ltac widen H :=
  match type of H with ?c ∈ ?l =>
    match goal with |- c ∈ ?l' => apply ((ltac:(toks) : l ⊆ l') c H) end
  end.

(** [r] is empty or starts with one of the symbols [l]. *)
Definition starts (l : list Z) (r : list Z) : Prop := r = [] \/ exists c r', r = c :: r' /\ c ∈ l.

Lemma starts_mono l l' r : l ⊆ l' -> starts l r -> starts l' r.
Proof. intros H [->|(c & r' & -> & Hc)]; [by left|right; eauto]. Qed.

Lemma is_word_facts c : is_word c = true -> c <> 0 ->
  in_set whitespace c = false /\ in_set symbols c = false.
Proof. unfold is_word. intros H _. by apply andb_true_iff in H as [?%negb_true_iff ?%negb_true_iff]. Qed.

Lemma symbol_facts c : c ∈ symbols -> c <> 0 /\ is_word c = false /\ in_set whitespace c = false.
Proof.
  intros H. unfold symbols in H. repeat (apply elem_of_cons in H as [->|H]; [by vm_compute|]).
  by apply elem_of_nil in H.
Qed.

Lemma skip_ws_starts l r : l ⊆ symbols -> starts l r -> skip_ws r = r.
Proof.
  intros Hl [->|(c & r' & -> & Hc)]; [done|]. simpl.
  by destruct (symbol_facts c (Hl c Hc)) as (_ & _ & ->).
Qed.

Lemma skip_word_print w r : wf_word w -> skip_word (word_print w ++ r) = 32 :: r.
Proof.
  intros [_ Hw]. unfold word_print. induction Hw as [|c w [Hc _] _ IH]; [done|]. simpl in *. by rewrite Hc.
Qed.

Lemma wf_word_head w : wf_word w -> exists c w', w = c :: w' /\ is_word c = true /\ c <> 0.
Proof. intros [Hne Hw]. destruct w as [|c w]; [done|]. inv Hw. naive_solver. Qed.

Lemma skip_ws_word w r : wf_word w -> skip_ws (word_print w ++ r) = word_print w ++ r.
Proof.
  intros (c & w' & -> & H1 & H2)%wf_word_head. simpl. by destruct (is_word_facts c H1 H2) as [-> _].
Qed.

(** A word, with what is behind it brought to its first character. *)
Lemma get_word w r :
  wf_word w -> exists p, get_token (word_print w ++ r) = Ok (word_tok, p) (skip_ws r) /\ word_text p = w.
Proof.
  intros Hw. unfold get_token, gettoken. rewrite skip_ws_word by done.
  pose proof (skip_word_print w r Hw) as Hsk. pose proof (wf_word_head w Hw) as (c & w' & -> & H1 & H2).
  destruct (is_word_facts c H1 H2) as [Hws Hsym].
  change (char_at (word_print (c :: w') ++ r)) with c. cbv zeta. rewrite (proj2 (Z.eqb_neq _ _) H2).
  assert (Hn : c ∉ symbols).
  { intros Hin. unfold in_set in Hsym. rewrite (proj2 (Z.eqb_neq _ _) H2), bool_decide_true in Hsym; done. }
  rewrite bool_decide_false by (intros Hin; apply Hn; widen Hin).
  rewrite (proj2 (Z.eqb_neq c greater)) by (intros ->; apply Hn; toks).
  rewrite Hsk. eexists. split; [done|]. unfold word_print. rewrite <- app_assoc. apply word_text_app.
Qed.

Lemma peek_true toks c r : c ∈ toks -> c ∈ symbols -> peek_tok toks (c :: r) = Ok true (c :: r).
Proof.
  intros Ht Hs. unfold peek_tok, peek. destruct (symbol_facts c Hs) as (H1 & _ & H3). simpl. rewrite H3.
  unfold in_set, char_at. simpl. by rewrite (proj2 (Z.eqb_neq _ _) H1), bool_decide_true.
Qed.

Lemma peek_false toks l r :
  l ⊆ symbols -> (forall c, c ∈ l -> c ∉ toks) -> starts l r -> peek_tok toks r = Ok false r.
Proof.
  intros Hl Hd Hr. unfold peek_tok, peek. rewrite (skip_ws_starts l r Hl Hr).
  destruct Hr as [->|(c & r' & -> & Hc)]; [done|]. unfold in_set, char_at. simpl.
  rewrite bool_decide_false by auto. by rewrite andb_false_r.
Qed.

Lemma peek_word toks w r : toks ⊆ symbols -> wf_word w ->
  peek_tok toks (word_print w ++ r) = Ok false (word_print w ++ r).
Proof.
  intros Ht Hw. unfold peek_tok, peek. rewrite skip_ws_word by done.
  pose proof (wf_word_head w Hw) as (c & w' & -> & H1 & H2).
  destruct (is_word_facts c H1 H2) as [_ Hsym]. change (char_at (word_print (c :: w') ++ r)) with c.
  unfold in_set in *. rewrite (proj2 (Z.eqb_neq _ _) H2) in *. simpl in *.
  rewrite bool_decide_false; [done|]. intros Hin%Ht. by rewrite bool_decide_true in Hsym.
Qed.

(** A one-character token that is not ">". *)
Lemma get_symbol c r :
  c ∈ [bar; lparen; rparen; semi; amp; less] ->
  exists p, get_token (c :: r) = Ok (c, p) (skip_ws r).
Proof.
  intros Hc. assert (Hs : c ∈ symbols).
  { widen Hc. }
  destruct (symbol_facts c Hs) as (H1 & _ & H3). unfold get_token, gettoken. simpl. rewrite H3.
  unfold char_at. simpl. rewrite (proj2 (Z.eqb_neq _ _) H1), bool_decide_true by done. eauto.
Qed.

(** ** Redirections *)

(** What stops a loop that looks for [toks]: no white space and none of them. *)
Definition quiet (toks r : list Z) : Prop := peek_tok toks r = Ok false r.

Lemma quiet_skip toks r : quiet toks r -> skip_ws r = r.
Proof. unfold quiet, peek_tok, peek. by intros [= _ ->]. Qed.

Lemma gettoken_gt s :
  gettoken (greater :: s) =
    if char_at s =? greater then (plus, (greater :: s, tail s), skip_ws (tail s))
    else (greater, (greater :: s, s), skip_ws s).
Proof. unfold gettoken. simpl. by destruct (char_at s =? greater). Qed.

Lemma get_redir f m d r :
  wf_word f -> redir_ok m d ->
  exists tok p, get_token (redir_print f m ++ r) = Ok (tok, p) (word_print f ++ r) /\
    forall (c : cmd word) w,
      (if tok =? less then REDIR c w mode_read 0
       else if tok =? greater then REDIR c w mode_write 1
       else if tok =? plus then REDIR c w mode_append 1
       else c) = REDIR c w m d.
Proof.
  intros Hf. pose proof (skip_ws_word f r Hf) as Hskip.
  assert (Hh : char_at (word_print f ++ r) =? greater = false).
  { destruct (wf_word_head f Hf) as (c & w' & -> & H1 & H2). destruct (is_word_facts c H1 H2) as [_ Hs].
    change (char_at (word_print (c :: w') ++ r)) with c. apply Z.eqb_neq. intros ->. by vm_compute in Hs. }
  unfold redir_print. intros [[-> ->]|[[-> ->]|[-> ->]]].
  - change (mode_read =? mode_read) with true. cbn [app].
    destruct (get_symbol less (word_print f ++ r)) as [p E]; [toks|].
    exists less, p. rewrite Hskip in E. by split.
  - change ((if mode_write =? mode_read then [less] else if mode_write =? mode_write then [greater]
      else [greater; greater]) ++ word_print f) with (greater :: word_print f). cbn [app].
    unfold get_token. rewrite gettoken_gt, Hh, Hskip. eexists _, _. by split.
  - change ((if mode_append =? mode_read then [less] else if mode_append =? mode_write then [greater]
      else [greater; greater]) ++ word_print f) with (greater :: greater :: word_print f). cbn [app].
    unfold get_token. rewrite gettoken_gt.
    change (char_at (greater :: word_print f ++ r) =? greater) with true. cbn [tail].
    rewrite Hskip. eexists _, _. by split.
Qed.

Definition redir : Type := list Z * Z * Z.
Definition wrap (c : tcmd) (rs : list redir) : tcmd := foldl (fun c '(f, m, d) => REDIR c f m d) c rs.
Definition redirs_print (rs : list redir) : list Z := rs ≫= (fun '(f, m, _) => redir_print f m).
Definition wf_redirs (rs : list redir) : Prop := Forall (fun '(f, m, d) => wf_word f /\ redir_ok m d) rs.

Lemma redir_print_head f m : exists c s, redir_print f m = c :: s /\ c ∈ [less; greater].
Proof.
  unfold redir_print. destruct (m =? mode_read); [|destruct (m =? mode_write)]; simpl;
    eexists _, _; (split; [done|toks]).
Qed.

Lemma redirs_skip rs r : skip_ws r = r -> skip_ws (redirs_print rs ++ r) = redirs_print rs ++ r.
Proof.
  intros Hr. destruct rs as [|[[f m] d] rs]; [done|].
  change (redirs_print ((f, m, d) :: rs)) with (redir_print f m ++ redirs_print rs).
  destruct (redir_print_head f m) as (c & s & -> & Hin). apply (skip_ws_starts [less; greater]).
  - toks.
  - right. simpl. eauto.
Qed.

Lemma parseredirs_print rs c r :
  wf_redirs rs -> quiet [less; greater] r ->
  exists c', parseredirs c (redirs_print rs ++ r) = Ok c' r /\ texts c' = wrap (texts c) rs.
Proof.
  intros Hrs Hr. unfold parseredirs, loop.
  assert (Hn : (length (redirs_print rs ++ r) < S (length (redirs_print rs ++ r)))%nat) by lia.
  revert Hn. generalize (S (length (redirs_print rs ++ r))) as n. intros n.
  revert c n. induction Hrs as [|[[f m] d] rs [Hf Hm] _ IH]; intros c [|n] Hn; try lia.
  - exists c. split; [|done]. apply while_inr. by erewrite bind_Ok by exact Hr.
  - change (redirs_print ((f, m, d) :: rs)) with (redir_print f m ++ redirs_print rs) in *.
    rewrite <- app_assoc in *. destruct (get_redir f m d (redirs_print rs ++ r) Hf Hm) as (tok & p & E & Hc).
    destruct (get_word f (redirs_print rs ++ r) Hf) as (q & Eq & Tq).
    rewrite redirs_skip in Eq by (by eapply quiet_skip). destruct (IH (REDIR c q m d) n) as (c' & E' & T').
    { rewrite length_app in Hn. destruct (redir_print_head f m) as (c0 & s & E0 & _). rewrite E0 in Hn. simpl in Hn. lia. }
    exists c'. split.
    + rewrite <- E'. apply while_inl.
      assert (Hp : peek_tok [less; greater] (redir_print f m ++ redirs_print rs ++ r) =
        Ok true (redir_print f m ++ redirs_print rs ++ r)).
      { destruct (redir_print_head f m) as (c0 & s & -> & Hin). simpl. apply peek_true; [done|].
        widen Hin. }
      erewrite bind_Ok by exact Hp. cbn [negb]. erewrite bind_Ok by exact E. cbv beta iota.
      erewrite bind_Ok by exact Eq. cbv beta iota. change (word_tok =? word_tok) with true. cbn [negb]. by rewrite Hc.
    + rewrite T'. unfold texts. cbn [cmd_map]. by rewrite Tq.
Qed.

(** ** Arguments *)

Lemma exec_push_texts w c : texts (exec_push w c) = exec_push (word_text w) (texts c).
Proof.
  unfold texts. induction c as [argv|c IH f m d| | |]; simpl; try done; [by rewrite fmap_app|by rewrite IH].
Qed.

Definition arg_stops : list Z := [bar; rparen; amp; semi].

Lemma stops_quiet r : starts arg_stops r -> quiet [less; greater] r.
Proof.
  intros Hr. apply (peek_false _ arg_stops); [|..|done].
  - toks.
  - intros x Hx Hin. assert (Hf : Forall (fun x => x ∉ [less; greater]) arg_stops)
      by (apply (bool_decide_unpack _); by vm_compute).
    by apply (proj1 (Forall_forall _ _) Hf x Hx).
Qed.

Lemma stops_skip r : starts arg_stops r -> skip_ws r = r.
Proof. intros Hr. by eapply quiet_skip, stops_quiet. Qed.

(** The body of the loop of [parseargs]. *)
Definition arg_body : nat * cmd word -> M (list Z) (nat * cmd word + cmd word) := fun '(argc, ret_) =>
  let* stop := peek_tok arg_stops in
  if stop then ret (inr ret_) else
  let* '(tok, w) := get_token in
  if tok =? 0 then ret (inr ret_) else
  if negb (tok =? word_tok) then panic "syntax" else
  let ret_ := exec_push w ret_ in
  let argc := S argc in
  if (MAXARGS <=? argc)%nat then panic "too many args" else
  let* ret_ := parseredirs ret_ in
  ret (inl (argc, ret_)).

Lemma arg_body_stop argc c r : starts arg_stops r -> arg_body (argc, c) r = Ok (inr c) r.
Proof.
  intros [->|(x & r' & -> & Hx)]; [done|]. unfold arg_body.
  erewrite bind_Ok; [|apply peek_true; [exact Hx|]]; [done|].
  widen Hx.
Qed.

(** One argument, with what follows it up to the next word. *)
Lemma arg_body_word argc c w rest :
  wf_word w -> (S argc < MAXARGS)%nat -> skip_ws rest = rest ->
  exists p, word_text p = w /\ forall c1 s1, parseredirs (exec_push p c) rest = Ok c1 s1 ->
    arg_body (argc, c) (word_print w ++ rest) = Ok (inl (S argc, c1)) s1.
Proof.
  intros Hw Hn Hskip. destruct (get_word w rest Hw) as (p & E & Tp). rewrite Hskip in E.
  exists p. split; [done|]. intros c1 s1 Hr. unfold arg_body.
  erewrite bind_Ok by (apply peek_word; [toks|done]).
  cbv beta iota. erewrite bind_Ok by exact E. cbv beta iota. change (word_tok =? 0) with false.
  change (word_tok =? word_tok) with true. cbn [negb]. cbv beta iota zeta.
  rewrite (proj2 (Nat.leb_gt _ _)) by done. by erewrite bind_Ok by exact Hr.
Qed.

Lemma args_loop_print argv rs r n argc c w :
  Forall wf_word (w :: argv) -> wf_redirs rs -> starts arg_stops r ->
  (argc + length (w :: argv) < MAXARGS)%nat -> (length argv + 1 < n)%nat ->
  exists c', while n arg_body (argc, c) (((w :: argv) ≫= word_print) ++ redirs_print rs ++ r) = Ok c' r /\
    texts c' = wrap (foldl (fun c w => exec_push w c) (texts c) (w :: argv)) rs.
Proof.
  intros Ha Hrs Hr. revert w Ha n argc c. induction argv as [|x argv IH]; intros w Ha [|n] argc c Hc Hn; try lia;
    apply Forall_cons in Ha as [Hw Ha]; cbn [length] in Hc, Hn.
  - change ([w] ≫= word_print) with (word_print w ++ []). rewrite app_nil_r.
    destruct (arg_body_word argc c w (redirs_print rs ++ r) Hw) as (p & Tp & Hb);
      [lia|by apply redirs_skip, stops_skip|].
    destruct (parseredirs_print rs (exec_push p c) r Hrs (stops_quiet r Hr)) as (c1 & E1 & T1).
    exists c1. split.
    + erewrite while_inl by (by apply Hb). destruct n as [|n]; [lia|]. apply while_inr. by apply arg_body_stop.
    + rewrite T1, exec_push_texts, Tp. done.
  - change ((w :: x :: argv) ≫= word_print) with (word_print w ++ ((x :: argv) ≫= word_print)).
    rewrite <- app_assoc. set (rest := ((x :: argv) ≫= word_print) ++ redirs_print rs ++ r).
    assert (Hx : wf_word x) by (by apply Forall_cons in Ha as [? _]).
    assert (Er : rest = word_print x ++ (argv ≫= word_print) ++ redirs_print rs ++ r).
    { unfold rest. simpl. by rewrite <- app_assoc. }
    assert (Hq : quiet [less; greater] rest).
    { unfold quiet. rewrite Er. apply peek_word; [toks|done]. }
    destruct (arg_body_word argc c w rest Hw) as (p & Tp & Hb); [lia|by eapply quiet_skip|].
    destruct (parseredirs_print [] (exec_push p c) rest) as (c1 & E1 & T1); [constructor|done|].
    destruct (IH x Ha n (S argc) c1) as (c' & E' & T'); [simpl; lia|simpl; lia|]. exists c'. split.
    + erewrite while_inl by (by apply Hb). exact E'.
    + rewrite T', T1. cbn [foldl]. unfold wrap at 2. cbn [foldl]. by rewrite exec_push_texts, Tp.
Qed.

Lemma push_all (ws argv : list (list Z)) :
  foldl (fun c w => exec_push w c) (EXEC argv) ws = EXEC (argv ++ ws).
Proof.
  revert argv. induction ws as [|w ws IH]; intros argv; simpl; [by rewrite app_nil_r|].
  rewrite IH, <- app_assoc. done.
Qed.

Lemma peek_exec_no_block argv rs r :
  Forall wf_word argv -> starts arg_stops r ->
  let s := (argv ≫= word_print) ++ redirs_print rs ++ r in peek_tok [lparen] s = Ok false s.
Proof.
  intros Ha Hr s. unfold s. destruct argv as [|w argv].
  - cbn [mbind list_bind app]. apply (peek_false _ ([less; greater] ++ arg_stops)); [toks|..].
    + assert (Hf : Forall (fun x => x ∉ [lparen]) ([less; greater] ++ arg_stops)) by toks.
      intros x Hx. by apply (proj1 (Forall_forall _ _) Hf).
    + destruct rs as [|[[f m] d] rs]; [apply (starts_mono arg_stops); [toks|done]|].
      change (redirs_print ((f, m, d) :: rs)) with (redir_print f m ++ redirs_print rs).
      destruct (redir_print_head f m) as (c & t & -> & Hin). right. exists c. eexists. split; [done|].
      apply elem_of_app. by left.
  - change ((w :: argv) ≫= word_print) with (word_print w ++ (argv ≫= word_print)).
    rewrite <- app_assoc. apply Forall_cons in Ha as [Hw _]. apply peek_word; [toks|done].
Qed.

Lemma words_length argv : Forall wf_word argv -> (length argv <= length (argv ≫= word_print))%nat.
Proof.
  induction argv as [|x l IH]; [done|]. intros Hx. apply Forall_cons in Hx as [_ Hx%IH].
  change ((x :: l) ≫= word_print) with (word_print x ++ (l ≫= word_print)). unfold word_print at 1.
  rewrite !length_app. cbn [length]. lia.
Qed.

(** [parseexec] on a simple command and its redirections. *)
Lemma parseexec_exec n argv rs r :
  wf_cmd (EXEC argv) -> wf_redirs rs -> starts arg_stops r ->
  exists c, parseexec (S n) (print 0 (EXEC argv) ++ redirs_print rs ++ r) = Ok c r /\
    texts c = wrap (EXEC argv) rs.
Proof.
  intros [Ha Hl] Hrs Hr. cbn [parseexec print].
  pose proof (peek_exec_no_block argv rs r Ha Hr) as Hp. cbv zeta in Hp. erewrite bind_Ok by exact Hp. clear Hp.
  cbv beta iota. destruct argv as [|w argv].
  - cbn [mbind list_bind app].
    destruct (parseredirs_print rs (EXEC []) r Hrs (stops_quiet r Hr)) as (c & E & T). exists c. split; [|done].
    erewrite bind_Ok by exact E. unfold parseargs, loop. apply while_inr. by apply (arg_body_stop 0).
  - set (s := ((w :: argv) ≫= word_print) ++ redirs_print rs ++ r).
    assert (Hq : quiet [less; greater] s).
    { unfold s. change ((w :: argv) ≫= word_print) with (word_print w ++ (argv ≫= word_print)).
      rewrite <- app_assoc. apply Forall_cons in Ha as [Hw _]. apply peek_word; [toks|done]. }
    destruct (parseredirs_print [] (EXEC []) s ltac:(constructor) Hq) as (c0 & E0 & T0).
    change (redirs_print [] ++ s) with s in E0. erewrite bind_Ok by exact E0.
    destruct (args_loop_print argv rs r (S (length s)) 0 c0 w Ha Hrs Hr) as (c & E & T); [done|..].
    { pose proof (words_length (w :: argv) Ha) as Hb. unfold s. rewrite length_app. cbn [length] in Hb. lia. }
    exists c. split; [exact E|]. rewrite T, T0. unfold wrap at 2. cbn [foldl].
    change (texts (EXEC [])) with (EXEC [] : tcmd). f_equal. exact (push_all (w :: argv) []).
Qed.

(** ** The grammar *)

Lemma print_skip c : forall lvl r, wf_cmd c -> skip_ws r = r -> skip_ws (print lvl c ++ r) = print lvl c ++ r.
Proof.
  induction c as [argv|c IH f m d|l IHl r' _|l IHl r' _|c IH]; intros lvl r Hc Hr; cbn [print wf_cmd] in *.
  - destruct Hc as [Ha _]. destruct argv as [|w argv]; [done|].
    change ((w :: argv) ≫= word_print) with (word_print w ++ (argv ≫= word_print)).
    rewrite <- app_assoc. apply Forall_cons in Ha as [Hw _]. by apply skip_ws_word.
  - destruct Hc as (Hc & _ & _). rewrite <- app_assoc. apply IH; [done|].
    pose proof (redirs_skip [(f, m, d)] r Hr) as H. unfold redirs_print in H. cbn [mbind list_bind] in H.
    by rewrite app_nil_r in H.
  - destruct (lvl <? 1)%nat; cbn [parens]; [done|]. rewrite <- app_assoc. by apply IHl; [apply Hc|].
  - destruct (lvl <? 3)%nat; cbn [parens]; [done|]. rewrite <- app_assoc. by apply IHl; [apply Hc|].
  - destruct (lvl <? 2)%nat; cbn [parens]; [done|]. rewrite <- app_assoc. by apply IH.
Qed.

(** What each of the parser's levels does with the print of [c]. *)
Definition reads (p : nat -> M (list Z) (cmd word)) (k : nat) (stop s r : list Z) (c : tcmd) : Prop :=
  starts stop r -> forall n, (4 * length (s ++ r) + k <= n)%nat ->
  exists c', p n (s ++ r) = Ok c' r /\ texts c' = c.

Definition parseback_after (n : nat) : M (list Z) (cmd word) := let* c := parsepipe n in parseback c.

Definition reads0 c := forall rs, wf_redirs rs ->
  forall r, reads parseexec 2 arg_stops (print 0 c ++ redirs_print rs) r (wrap c rs).
Definition reads1 c := forall r, reads parsepipe 3 [rparen; amp; semi] (print 1 c) r c.
Definition reads2 c := forall k r,
  reads parseback_after 3 [rparen; semi] (print 2 c ++ replicate k amp) r (Nat.iter k BACK c).
Definition reads3 c := forall r, reads parseline 4 [rparen] (print 3 c) r c.


Lemma stops_sub l r : l ⊆ arg_stops -> starts l r -> skip_ws r = r.
Proof. intros Hl Hr. apply stops_skip. by apply (starts_mono l). Qed.

(** A block: [parseexec] on a printed command between parentheses. *)
Lemma reads0_block c : reads3 c -> wf_cmd c -> print 0 c = lparen :: print 3 c ++ [rparen] -> reads0 c.
Proof.
  intros H3 Hc E rs Hrs r Hr n Hn. rewrite E in *. clear E.
  set (r1 := redirs_print rs ++ r). set (s := rparen :: r1).
  assert (Es : (lparen :: (print 3 c ++ [rparen])) ++ redirs_print rs ++ r = lparen :: print 3 c ++ s).
  { unfold s, r1. cbn [app]. by rewrite <- app_assoc. }
  rewrite <- app_assoc in *. rewrite Es in *.
  destruct n as [|[|n]]; [simpl in Hn; lia..|].
  assert (Hlp : peek_tok [lparen] (lparen :: print 3 c ++ s) = Ok true (lparen :: print 3 c ++ s))
    by (apply peek_true; toks).
  cbn [parseexec]. erewrite bind_Ok by exact Hlp. cbv beta iota. cbn [parseblock].
  erewrite bind_Ok by exact Hlp. cbn [negb].
  destruct (get_symbol lparen (print 3 c ++ s)) as [p Ep]; [toks|].
  rewrite print_skip in Ep by done. erewrite bind_Ok by exact Ep.
  destruct (H3 s) with (n := n) as (c1 & E1 & T1); [right; unfold s; eexists _, _; split; [done|toks]|..].
  { cbn [length] in Hn. lia. }
  erewrite bind_Ok by exact E1.
  erewrite bind_Ok by (apply peek_true; toks). cbn [negb].
  destruct (get_symbol rparen r1) as [q Eq]; [toks|].
  unfold r1 in Eq at 2. rewrite redirs_skip in Eq by (by apply stops_skip). erewrite bind_Ok by exact Eq.
  destruct (parseredirs_print rs c1 r Hrs (stops_quiet r Hr)) as (c2 & E2 & T2).
  exists c2. split; [exact E2|]. by rewrite T2, T1.
Qed.

(** Each level passes on to the next what it does not read itself. *)
Lemma reads1_pass c : reads0 c -> print 1 c = print 0 c -> reads1 c.
Proof.
  intros H0 E r Hr [|n] Hn; [lia|]. rewrite E in *.
  destruct (H0 [] ltac:(constructor) r (starts_mono [rparen; amp; semi] arg_stops r ltac:(toks) Hr) n) as (c' & Ec & T).
  { cbn [redirs_print mbind list_bind]. rewrite app_nil_r. lia. }
  change (redirs_print []) with (@nil Z) in Ec. rewrite app_nil_r in Ec.
  exists c'. split; [|exact T]. cbn [parsepipe]. erewrite bind_Ok by exact Ec.
  assert (Hp : peek_tok [bar] r = Ok false r).
  { apply (peek_false _ [rparen; amp; semi]); [toks|..|done].
    assert (Hf : Forall (fun x => x ∉ [bar]) [rparen; amp; semi]) by toks. by apply (proj1 (Forall_forall _ _) Hf). }
  by erewrite bind_Ok by exact Hp.
Qed.

Lemma parseback_print k c r :
  starts [rparen; semi] r -> exists c', parseback c (replicate k amp ++ r) = Ok c' r /\
    texts c' = Nat.iter k BACK (texts c).
Proof.
  intros Hr. unfold parseback, loop.
  assert (Hn : (k < S (length (replicate k amp ++ r)))%nat) by (rewrite length_app, length_replicate; lia).
  revert Hn. generalize (S (length (replicate k amp ++ r))) as n. intros n. revert n c.
  induction k as [|k IH]; intros [|n] c Hn; try lia.
  - exists c. split; [|done]. apply while_inr. cbn [replicate app].
    assert (Hp : peek_tok [amp] r = Ok false r).
    { apply (peek_false _ [rparen; semi]); [toks|..|done].
      assert (Hf : Forall (fun x => x ∉ [amp]) [rparen; semi]) by toks. by apply (proj1 (Forall_forall _ _) Hf). }
    by erewrite bind_Ok by exact Hp.
  - cbn [replicate app]. destruct (IH n (BACK c)) as (c' & E & T); [lia|].
    exists c'. split; [|by rewrite T, Nat.iter_succ_r]. rewrite <- E. apply while_inl.
    erewrite bind_Ok by (apply peek_true; toks). destruct (get_symbol amp (replicate k amp ++ r)) as [p Ep]; [toks|].
    assert (Hs : skip_ws (replicate k amp ++ r) = replicate k amp ++ r).
    { destruct k; [|done]. apply (stops_sub [rparen; semi]); [toks|done]. }
    rewrite Hs in Ep. cbv beta iota. by erewrite bind_Ok by exact Ep.
Qed.

Lemma reads2_pass c : reads1 c -> print 2 c = print 1 c -> reads2 c.
Proof.
  intros H1 E k r Hr n Hn. rewrite E, <- app_assoc in *. set (r1 := replicate k amp ++ r) in *.
  assert (Hr1 : starts [rparen; amp; semi] r1).
  { destruct k; [by apply (starts_mono [rparen; semi]); [toks|]|]. right. exists amp. eexists. split; [done|toks]. }
  destruct (H1 r1 Hr1 n Hn) as (c1 & E1 & T1). destruct (parseback_print k c1 r Hr) as (c2 & E2 & T2).
  exists c2. split; [|by rewrite T2, T1]. unfold parseback_after. by erewrite bind_Ok by exact E1.
Qed.

Lemma reads2_back c : reads2 c -> reads2 (BACK c).
Proof.
  intros H2 k r Hr n Hn. specialize (H2 (S k) r Hr n). rewrite Nat.iter_succ_r in H2.
  cbn [print] in *. change (2 <? 2)%nat with false in *. cbn [parens replicate] in *.
  rewrite <- (app_assoc _ [amp]) in *. by apply H2.
Qed.

Lemma parseline_Ok n s cmd s1 :
  parseback_after n s = Ok cmd s1 ->
  parseline (S n) s =
    (let* more := peek_tok [semi] in
     if more then let* _ := get_token in let* r := parseline n in ret (LIST cmd r) else ret cmd) s1.
Proof.
  unfold parseback_after. cbn [parseline]. unfold bind. destruct (parsepipe n s) as [c s0| | | |]; cbn; try done.
  by intros ->.
Qed.

Lemma reads3_pass c : reads2 c -> print 3 c = print 2 c -> reads3 c.
Proof.
  intros H2 E r Hr [|n] Hn; [lia|]. rewrite E in *. specialize (H2 0%nat r).
  cbn [replicate Nat.iter nat_rect] in H2. rewrite app_nil_r in H2.
  destruct (H2 (starts_mono [rparen] [rparen; semi] r ltac:(toks) Hr) n) as (c' & Ec & T); [lia|].
  exists c'. split; [|exact T]. rewrite (parseline_Ok _ _ _ _ Ec).
  assert (Hp : peek_tok [semi] r = Ok false r).
  { apply (peek_false _ [rparen]); [toks|..|done].
    assert (Hf : Forall (fun x => x ∉ [semi]) [rparen]) by toks. by apply (proj1 (Forall_forall _ _) Hf). }
  by erewrite bind_Ok by exact Hp.
Qed.

Lemma reads3_list l c : reads2 l -> reads3 c -> wf_cmd c -> reads3 (LIST l c).
Proof.
  intros H2 H3 Hc r Hr [|n] Hn; [lia|]. cbn [print] in *. change (3 <? 3)%nat with false in *. cbn [parens] in *.
  rewrite <- app_assoc in *. cbn [app] in *. set (r1 := print 3 c ++ r) in *.
  specialize (H2 0%nat (semi :: r1)). cbn [replicate Nat.iter nat_rect] in H2. rewrite app_nil_r in H2.
  destruct (H2 ltac:(right; exists semi, r1; split; [done|toks]) n) as (c1 & E1 & T1); [lia|].
  rewrite length_app in Hn. cbn [length] in Hn.
  destruct (H3 r Hr n) as (c2 & E2 & T2); [fold r1; lia|].
  exists (LIST c1 c2). split; [|unfold texts in *; cbn [cmd_map]; by rewrite T1, T2].
  rewrite (parseline_Ok _ _ _ _ E1).
  erewrite bind_Ok by (apply peek_true; toks). destruct (get_symbol semi r1) as [p Ep]; [toks|].
  unfold r1 in Ep at 2. rewrite print_skip in Ep by (done || by apply (stops_sub [rparen]); [toks|]).
  cbv beta iota. erewrite bind_Ok by exact Ep. by erewrite bind_Ok by exact E2.
Qed.

Lemma reads1_pipe l c : reads0 l -> reads1 c -> wf_cmd c -> reads1 (PIPE l c).
Proof.
  intros H0 H1 Hc r Hr [|n] Hn; [lia|]. cbn [print] in *. change (1 <? 1)%nat with false in *. cbn [parens] in *.
  rewrite <- app_assoc in *. cbn [app] in *. set (r1 := print 1 c ++ r) in *.
  specialize (H0 [] ltac:(constructor) (bar :: r1)). change (redirs_print []) with (@nil Z) in H0.
  rewrite app_nil_r in H0.
  destruct (H0 ltac:(right; exists bar, r1; split; [done|toks]) n) as (c1 & E1 & T1); [lia|].
  rewrite length_app in Hn. cbn [length] in Hn.
  destruct (H1 r Hr n) as (c2 & E2 & T2); [fold r1; lia|].
  exists (PIPE c1 c2). split; [|unfold texts in *; cbn [cmd_map]; by rewrite T1, T2].
  cbn [parsepipe]. erewrite bind_Ok by exact E1.
  erewrite bind_Ok by (apply peek_true; toks). destruct (get_symbol bar r1) as [p Ep]; [toks|].
  unfold r1 in Ep at 2.
  rewrite print_skip in Ep by (done || by apply (stops_sub [rparen; amp; semi]); [toks|]).
  cbv beta iota. erewrite bind_Ok by exact Ep. by erewrite bind_Ok by exact E2.
Qed.

Lemma reads_all c : wf_cmd c -> reads0 c /\ reads1 c /\ reads2 c /\ reads3 c.
Proof.
  induction c as [argv|c IH f m d|l IHl r IHr|l IHl r IHr|c IH]; intros Hc.
  - assert (H0 : reads0 (EXEC argv)).
    { intros rs Hrs r Hr [|n] Hn; [lia|]. rewrite <- app_assoc. by apply parseexec_exec. }
    split_and!; auto using reads1_pass, reads2_pass, reads3_pass.
  - destruct Hc as (Hc & Hf & Hm). destruct (IH Hc) as (H & _).
    assert (H0 : reads0 (REDIR c f m d)).
    { intros rs Hrs r. cbn [print]. rewrite <- app_assoc.
      change (redir_print f m ++ redirs_print rs) with (redirs_print ((f, m, d) :: rs)).
      apply (H ((f, m, d) :: rs)). by constructor. }
    split_and!; auto using reads1_pass, reads2_pass, reads3_pass.
  - destruct Hc as [Hl Hr]. destruct (IHl Hl) as (? & _), (IHr Hr) as (_ & ? & _).
    assert (reads1 (PIPE l r)) by (by apply reads1_pipe).
    assert (reads2 (PIPE l r)) by (by apply reads2_pass). assert (reads3 (PIPE l r)) by (by apply reads3_pass).
    split_and!; [by apply reads0_block|done..].
  - destruct Hc as [Hl Hr]. destruct (IHl Hl) as (_ & _ & ? & _), (IHr Hr) as (_ & _ & _ & ?).
    assert (reads3 (LIST l r)) by (by apply reads3_list).
    assert (reads0 (LIST l r)) by (by apply reads0_block).
    split_and!; auto using reads1_pass, reads2_pass.
  - destruct (IH Hc) as (_ & _ & ? & _). assert (reads2 (BACK c)) by (by apply reads2_back).
    assert (reads3 (BACK c)) by (by apply reads3_pass). assert (reads0 (BACK c)) by (by apply reads0_block).
    split_and!; auto using reads1_pass.
Qed.

(** C32: the shell's grammar: every command - words, redirections, pipes,
    lists, background jobs, in any nesting - printed with parentheses where
    the levels of the grammar need them, is read back by [parsecmd] as the
    same tree with the same words. *)
Theorem parsecmd_print c :
  wf_cmd c -> exists c' buf, parsecmd (print 3 c) = Ok c' buf /\ texts c' = c.
Proof.
  intros Hc. destruct (reads_all c Hc) as (_ & _ & _ & H3).
  destruct (H3 [] ltac:(by left) (4 * length (print 3 c) + 4)%nat) as (c' & E & T); [rewrite app_nil_r; lia|].
  rewrite app_nil_r in E. exists c', (nulterminate (print 3 c) c' (print 3 c ++ [0])). split; [|done].
  unfold parsecmd. by erewrite bind_Ok by exact E.
Qed.

(** (ls >x; cat <x | wc) & *)
Definition demo_cmd : tcmd :=
  BACK (LIST (REDIR (EXEC [[108; 115]]) [120] mode_write 1)
             (PIPE (REDIR (EXEC [[99; 97; 116]]) [120] mode_read 0) (EXEC [[119; 99]]))).

Lemma parsecmd_print_witness : exists c' buf, parsecmd (print 3 demo_cmd) = Ok c' buf /\ texts c' = demo_cmd.
Proof.
  apply parsecmd_print. unfold demo_cmd, wf_cmd, wf_word, redir_ok, MAXARGS.
  repeat split; repeat constructor; (done || tauto).
Defined.
