(* ===== verification/ShRun.v ===== *)
(** How the shell runs what it has parsed: [runcmd] of user/sh.c as a program
    over system calls, and the processes and descriptor tables it makes.

    A process is named by the path of forks that leads to it from the first
    one.  What an exec'ed program does is not followed: it exits at some time. *)

From S2P Require Import Prelude CInt Machine KString Sh.

Abbreviation pid := (list nat).

Section run.
Context {W : Type}.

(** ** Programs over system calls *)

Inductive prog :=
| PExit (status : Z)
| PExec (argv : list W) (k : prog)
| PClose (fd : Z) (k : prog)
| POpen (file : W) (mode : Z) (k : Z -> prog)
| PPipe (k : option (Z * Z) -> prog)
| PDup (fd : Z) (k : Z -> prog)
| PFork (k : Z -> prog)
| PWait (k : prog)
| PPrint (msg : string) (arg : option W) (k : prog).

Definition panic (s : string) : prog := PPrint s None (PExit 1).

Definition fork1 (k : Z -> prog) : prog :=
  PFork (fun pid => if pid =? -1 then panic "fork" else k pid).

(** [runcmd] on a command; it does not return. *)
Fixpoint run (c : cmd W) : prog :=
  match c with
  | EXEC argv =>
      match argv with
      | [] => PExit 1
      | arg0 :: _ => PExec argv (PPrint "exec %s failed" (Some arg0) (PExit 0))
      end
  | REDIR c file mode fd =>
      PClose fd (POpen file mode (fun r =>
        if r <? 0 then PPrint "open %s failed" (Some file) (PExit 1) else run c))
  | LIST l r =>
      fork1 (fun pid => if pid =? 0 then run l else PWait (run r))
  | PIPE l r =>
      PPipe (fun o =>
        match o with
        | None => panic "pipe"
        | Some (p0, p1) =>
            fork1 (fun pid =>
              if pid =? 0 then PClose 1 (PDup p1 (fun _ => PClose p0 (PClose p1 (run l)))) else
            fork1 (fun pid =>
              if pid =? 0 then PClose 0 (PDup p0 (fun _ => PClose p0 (PClose p1 (run r)))) else
            PClose p0 (PClose p1 (PWait (PWait (PExit 0))))))
        end)
  | BACK c => fork1 (fun pid => if pid =? 0 then run c else PExit 0)
  end.

Definition runcmd (c : option (cmd W)) : prog :=
  match c with None => PExit 1 | Some c => run c end.

(** ** Descriptor tables *)

(** What a descriptor refers to; a pipe is named by the process that made it,
    which makes no other. *)
Inductive obj :=
| Inherited (n : nat)
| FileOf (file : W) (mode : Z)
| PipeR (maker : pid)
| PipeW (maker : pid).

Abbreviation table := (list (option obj)).

(** The lowest free descriptor. *)
Definition fdlowest (t : table) (o : obj) : option (Z * table) :=
  match list_find (fun x => x = None) t with
  | Some (i, _) => Some (Z.of_nat i, <[i := Some o]> t)
  | None => None
  end.

(** Closing what is not open changes nothing. *)
Definition fdclose (t : table) (fd : Z) : table :=
  if fd <? 0 then t else <[Z.to_nat fd := None]> t.

Definition fdget (t : table) (fd : Z) : option obj :=
  if fd <? 0 then None else mjoin (t !! Z.to_nat fd).

Definition fddup (t : table) (fd : Z) : option (Z * table) := fdget t fd ≫= fdlowest t.

Definition fdpipe (t : table) (me : pid) : option (Z * Z * table) :=
  '(p0, t) ← fdlowest t (PipeR me);
  '(p1, t) ← fdlowest t (PipeW me);
  Some (p0, p1, t).

(** ** The system *)

(** [done] is history: processes whose exit this one has waited for, or that
    had exited when it was forked. *)
Record shproc := Proc {
  code : prog;
  fds : table;
  forks : nat;
  reaped : list nat;
  done : list pid;
}.
#[export] Instance eta_proc : Eta shproc := fun p => Proc (code p) (fds p) (forks p) (reaped p) (done p).

Inductive pstate := Live (p : shproc) | Image | Gone.

Inductive event :=
| Execd (p : pid) (argv : list W) (t : table)
| Exited (p : pid).

Record sys := Sys { tab : gmap pid pstate; trace : list event; failed : bool }.
#[export] Instance eta_sys : Eta sys := fun s => Sys (tab s) (trace s) (failed s).

Definition kids (me : pid) (n : nat) : list pid := (fun i => me ++ [i]) <$> seq 0 n.

(** What happens next: the call that process [p] makes, with the outcome [r]
    (negative if it fails for a reason outside its descriptor table; the number
    of the new process; the child that [wait] takes), a kill, or the end of an
    exec'ed program. *)
Inductive choice := Act (p : pid) (r : Z) | Kill (p : pid) | Finish (p : pid).

Definition set_proc (me : pid) (p : shproc) (s : sys) : sys := s.[tab := <[me := Live p]> (tab s)].
Definition leave (me : pid) (s : sys) : sys :=
  s.[tab := <[me := Gone]> (tab s)].[trace := trace s ++ [Exited me]].
Definition fails (s : sys) : sys := s.[failed := true].

Definition wait_step (me : pid) (p : shproc) (k : prog) (i : nat) (s : sys) : option sys :=
  if decide (length (reaped p) = forks p) then Some (set_proc me (p.[code := k]) s) else
  if decide ((i < forks p)%nat /\ i ∉ reaped p) then
    match tab s !! (me ++ [i]) with
    | Some Gone =>
        Some (set_proc me (p.[code := k].[reaped := i :: reaped p]
          .[done := if decide (S (length (reaped p)) = forks p) then done p ++ kids me (forks p) else done p]) s)
    | _ => None
    end
  else None.

Definition act (me : pid) (p : shproc) (r : Z) (s : sys) : option sys :=
  match code p with
  | PExit _ => Some (leave me s)
  | PExec argv k =>
      if r <? 0 then Some (fails (set_proc me (p.[code := k]) s)) else
      Some (s.[tab := <[me := Image]> (tab s)].[trace := trace s ++ [Execd me argv (fds p)]])
  | PClose fd k => Some (set_proc me (p.[code := k].[fds := fdclose (fds p) fd]) s)
  | POpen f m k =>
      match (if r <? 0 then None else fdlowest (fds p) (FileOf f m)) with
      | Some (fd, t) => Some (set_proc me (p.[code := k fd].[fds := t]) s)
      | None => Some (fails (set_proc me (p.[code := k (-1)]) s))
      end
  | PPipe k =>
      match (if r <? 0 then None else fdpipe (fds p) me) with
      | Some (p0, p1, t) => Some (set_proc me (p.[code := k (Some (p0, p1))].[fds := t]) s)
      | None => Some (fails (set_proc me (p.[code := k None]) s))
      end
  | PDup fd k =>
      match fddup (fds p) fd with
      | Some (fd', t) => Some (set_proc me (p.[code := k fd'].[fds := t]) s)
      | None => Some (set_proc me (p.[code := k (-1)]) s)
      end
  | PFork k =>
      if r <? 0 then Some (fails (set_proc me (p.[code := k (-1)]) s)) else
      if r =? 0 then None else
      Some (set_proc (me ++ [forks p]) (Proc (k 0) (fds p) 0 [] (done p))
             (set_proc me (p.[code := k r].[forks := S (forks p)]) s))
  | PWait k => wait_step me p k (Z.to_nat r) s
  | PPrint _ _ k => Some (set_proc me (p.[code := k]) s)
  end.

Definition step (ch : choice) (s : sys) : option sys :=
  match ch with
  | Act me r => match tab s !! me with Some (Live p) => act me p r s | _ => None end
  | Kill me => match tab s !! me with Some (Live _) => Some (fails (leave me s)) | _ => None end
  | Finish me => match tab s !! me with Some Image => Some (leave me s) | _ => None end
  end.

Fixpoint steps (chs : list choice) (s : sys) : option sys :=
  match chs with
  | [] => Some s
  | ch :: chs => step ch s ≫= steps chs
  end.

(** The process that runs [c] with descriptors [t], as the shell forked it. *)
Definition launch (c : cmd W) (t : table) : sys :=
  Sys {[ [] := Live (Proc (run c) t 0 [] []) ]} [] false.
End run.
