(* ===== verification/ShRunThm.v ===== *)
(** [runcmd] runs what the command line says: in every interleaving of the
    processes, and whatever calls fail, the programs that are exec'ed are those
    of the command, each once at most, with the descriptors that the pipes and
    redirections give them, and behind a [;] only when its left side has ended. *)

From S2P Require Import Prelude CInt Machine KString Sh ShThm ShRun.

Section run_thm.
Context {W : Type}.
Implicit Types (t : list (option (@obj W))) (c : cmd W) (me : pid) (k : @prog W).

(** ** What a command means *)

(** A program to be run: by which process, with what descriptors, and which
    processes must have exited before. *)
Definition job : Type := pid * list W * list (option (@obj W)) * list pid.

(** Process [me], which has forked [n] times, runs [c] with descriptors [t]
    after the processes [dn] have exited. *)
Fixpoint jobs c me (n : nat) (dn : list pid) t : list job :=
  match c with
  | EXEC argv => match argv with [] => [] | _ => [(me, argv, t, dn)] end
  | REDIR c file mode fd => jobs c me n dn (<[Z.to_nat fd := Some (FileOf file mode)]> t)
  | LIST l r => jobs l (me ++ [n]) 0%nat dn t ++ jobs r me (S n) (dn ++ kids me (S n)) t
  | PIPE l r =>
      jobs l (me ++ [n]) 0%nat dn (<[1%nat := Some (PipeW me)]> t) ++
      jobs r (me ++ [S n]) 0%nat dn (<[0%nat := Some (PipeR me)]> t)
  | BACK c => jobs c (me ++ [n]) 0%nat dn t
  end.

(** Standard input and output are open, and two descriptors are free. *)
Definition table_ok t : Prop :=
  (exists a, t !! 0%nat = Some (Some a)) /\ (exists b, t !! 1%nat = Some (Some b)) /\
  exists i j, (i < j)%nat /\ t !! i = Some None /\ t !! j = Some None.

(** The history [tr] is made of the jobs [js], in order, each after the
    processes that had to exit. *)
Inductive explains : list (@event W) -> list job -> Prop :=
| ex_nil : explains [] []
| ex_exit tr js p : explains tr js -> explains (tr ++ [Exited p]) js
| ex_exec tr js p argv t dn :
    explains tr js -> (forall q, q ∈ dn -> Exited q ∈ tr) ->
    explains (tr ++ [Execd p argv t]) (js ++ [(p, argv, t, dn)]).

(** ** What a program would do if no call failed *)

Fixpoint will k me (n w : nat) (dn : list pid) t : list job :=
  match k with
  | PExit _ => []
  | PExec argv _ => [(me, argv, t, dn)]
  | PClose fd k => will k me n w dn (fdclose t fd)
  | POpen f m k =>
      match fdlowest t (FileOf f m) with
      | Some (fd, t) => will (k fd) me n w dn t
      | None => will (k (-1)) me n w dn t
      end
  | PPipe k =>
      match fdpipe t me with
      | Some (p0, p1, t) => will (k (Some (p0, p1))) me n w dn t
      | None => will (k None) me n w dn t
      end
  | PDup fd k =>
      match fddup t fd with
      | Some (fd', t) => will (k fd') me n w dn t
      | None => will (k (-1)) me n w dn t
      end
  | PFork k => will (k 0) (me ++ [n]) 0%nat 0%nat dn t ++ will (k 1) me (S n) w dn t
  | PWait k =>
      if decide (w = n) then will k me n w dn t else
      will k me n (S w) (if decide (S w = n) then dn ++ kids me n else dn) t
  | PPrint _ _ k => will k me n w dn t
  end.

Definition quiet k : Prop := forall me n w dn t, will k me n w dn t = [].

(** After a failed call the program runs nothing more, and it treats all
    process numbers alike. *)
Fixpoint careful k : Prop :=
  match k with
  | PExit _ => True
  | PExec _ k => quiet k /\ careful k
  | PClose _ k => careful k
  | POpen _ _ k => quiet (k (-1)) /\ forall r, careful (k r)
  | PPipe k => quiet (k None) /\ forall r, careful (k r)
  | PDup _ k => forall r, careful (k r)
  | PFork k => quiet (k (-1)) /\ (forall r, 0 < r -> k r = k 1) /\ forall r, careful (k r)
  | PWait k => careful k
  | PPrint _ _ k => careful k
  end.

Lemma quiet_panic msg : quiet (@panic W msg).
Proof. done. Qed.

Lemma careful_fork1 (k : Z -> @prog W) : (forall r, 0 < r -> k r = k 1) -> (forall r, careful (k r)) -> careful (fork1 k).
Proof.
  intros H1 H2. split; [done|]. split.
  - intros r Hr. rewrite !(proj2 (Z.eqb_neq _ _)) by lia. by apply H1.
  - intros r. by destruct (r =? -1).
Qed.

Lemma pos_neqb r : 0 < r -> (r =? 0) = false.
Proof. lia. Qed.

Lemma careful_run c : careful (run c).
Proof.
  induction c as [argv|c IH f m d|l IHl r IHr|l IHl r IHr|c IH]; cbn [run].
  - by destruct argv.
  - split; [done|]. intros x. by destruct (x <? 0).
  - split; [done|]. intros [[p0 p1]|]; [|done].
    apply careful_fork1; intros x; [|destruct (x =? 0); [by intros ?|]].
    + intros Hx. by rewrite (pos_neqb x Hx).
    + apply careful_fork1; intros y; [|destruct (y =? 0); [by intros ?|done]].
      intros Hy. by rewrite (pos_neqb y Hy).
  - apply careful_fork1; intros x; [|by destruct (x =? 0)]. intros Hx. by rewrite (pos_neqb x Hx).
  - apply careful_fork1; intros x; [|by destruct (x =? 0)]. intros Hx. by rewrite (pos_neqb x Hx).
Qed.

(** ** Descriptors *)

Lemma fdalloc_at t o i :
  t !! i = Some None -> (forall j, (j < i)%nat -> t !! j <> Some None) ->
  fdlowest t o = Some (Z.of_nat i, <[i := Some o]> t).
Proof.
  intros Hi Hlow. unfold fdlowest.
  rewrite (proj2 (list_find_Some _ _ i None)); [done|]. split_and!; [done|done|].
  intros j y Hj Hlt ->. by apply (Hlow j).
Qed.

Lemma fdalloc_some t o :
  (exists i, t !! i = Some None) ->
  exists i, fdlowest t o = Some (Z.of_nat i, <[i := Some o]> t) /\ t !! i = Some None.
Proof.
  intros [i0 Hi0]. unfold fdlowest.
  destruct (list_find_elem_of (fun x : option (@obj W) => x = None) t None) as [[i x] Hf]; [by eapply list_elem_of_lookup_2|done|].
  rewrite Hf. apply list_find_Some in Hf as (Hx & -> & _). by exists i.
Qed.

Lemma table_ok_length t i x : t !! i = Some x -> (i < length t)%nat.
Proof. apply lookup_lt_Some. Qed.

(** Descriptor 0 or 1, closed, is the one that is opened next. *)
Lemma reopen t o d :
  table_ok t -> d = 0 \/ d = 1 ->
  fdlowest (fdclose t d) o = Some (d, <[Z.to_nat d := Some o]> t) /\ table_ok (<[Z.to_nat d := Some o]> t).
Proof.
  intros ([a Ha] & [b Hb] & i & j & Hij & Hi & Hj) Hd. unfold fdclose.
  rewrite (proj2 (Z.ltb_ge d 0)) by lia. pose proof (lookup_lt_Some _ _ _ Ha). pose proof (lookup_lt_Some _ _ _ Hb).
  assert (Hdl : (Z.to_nat d < length t)%nat) by (destruct Hd; subst; simpl; lia). split.
  - rewrite (fdalloc_at _ _ (Z.to_nat d)).
    + rewrite list_insert_insert_eq. do 2 f_equal. lia.
    + by apply list_lookup_insert_eq.
    + intros x Hx. destruct Hd; subst; [lia|]. replace x with 0%nat by lia.
      rewrite list_lookup_insert_ne by done. by rewrite Ha.
  - assert (Hne : i <> 0%nat /\ i <> 1%nat /\ j <> 0%nat /\ j <> 1%nat) by (split_and!; intros ->; congruence).
    split_and!.
    + destruct Hd; subst; [exists o; by apply list_lookup_insert_eq|exists a; by rewrite list_lookup_insert_ne].
    + destruct Hd; subst; [exists b; by rewrite list_lookup_insert_ne|exists o; by apply list_lookup_insert_eq].
    + exists i, j. rewrite !list_lookup_insert_ne by (destruct Hd; subst; simpl; lia). done.
Qed.

(** The descriptors of a new pipe. *)
Lemma fdpipe_ok t me :
  table_ok t -> exists i j, fdpipe t me = Some (Z.of_nat i, Z.of_nat j, <[j := Some (PipeW me)]> (<[i := Some (PipeR me)]> t)) /\
    t !! i = Some None /\ t !! j = Some None /\ i <> j /\ (1 < i)%nat /\ (1 < j)%nat.
Proof.
  intros ([a Ha] & [b Hb] & i0 & j0 & Hij & Hi & Hj). unfold fdpipe.
  destruct (fdalloc_some t (PipeR me)) as (i & -> & Hti); [eauto|]. simpl.
  destruct (fdalloc_some (<[i := Some (PipeR me)]> t) (PipeW me)) as (j & -> & Htj).
  { destruct (decide (i = i0)) as [->|]; [exists j0|exists i0]; rewrite list_lookup_insert_ne by lia; done. }
  simpl. exists i, j. apply list_lookup_insert_Some in Htj as [(_ & ? & _)|[Hne Htj]]; [done|].
  split; [done|]. split; [done|]. split; [done|]. split; [done|].
  split; apply Nat.lt_nge; intros Hle.
  - destruct i as [|[|i]]; [congruence|congruence|lia].
  - destruct j as [|[|j]]; [congruence|congruence|lia].
Qed.

Lemma fdclose_nat t i : fdclose t (Z.of_nat i) = <[i := None]> t.
Proof. unfold fdclose. rewrite (proj2 (Z.ltb_ge _ 0)) by lia. by rewrite Nat2Z.id. Qed.

(** What a child makes of the pipe: descriptor [d] becomes its end [o], which
    was at [e]; both ends are closed. *)
Lemma pipe_end t me i j d e o :
  table_ok t -> t !! i = Some None -> t !! j = Some None -> i <> j -> (1 < i)%nat -> (1 < j)%nat ->
  d = 0 \/ d = 1 -> (e = i /\ o = PipeR me \/ e = j /\ o = PipeW me) ->
  let t2 := <[j := Some (PipeW me)]> (<[i := Some (PipeR me)]> t) in
  exists t3, fddup (fdclose t2 d) (Z.of_nat e) = Some (d, t3) /\
    fdclose (fdclose t3 (Z.of_nat i)) (Z.of_nat j) = <[Z.to_nat d := Some o]> t.
Proof.
  intros ([a Ha] & [b Hb] & _) Hi Hj Hij Hi1 Hj1 Hd He t2.
  pose proof (lookup_lt_Some _ _ _ Ha). pose proof (lookup_lt_Some _ _ _ Hb).
  pose proof (lookup_lt_Some _ _ _ Hi). pose proof (lookup_lt_Some _ _ _ Hj).
  assert (Hc : fdclose t2 d = <[Z.to_nat d := None]> t2) by (unfold fdclose; by rewrite (proj2 (Z.ltb_ge d 0)) by lia).
  assert (Hg : fdget (fdclose t2 d) (Z.of_nat e) = Some o).
  { unfold fdget. rewrite (proj2 (Z.ltb_ge _ 0)), Nat2Z.id, Hc by lia.
    rewrite list_lookup_insert_ne by (destruct Hd; subst; simpl; lia). unfold t2.
    destruct He as [[-> ->]|[-> ->]].
    - rewrite list_lookup_insert_ne by done. by rewrite list_lookup_insert_eq.
    - by rewrite list_lookup_insert_eq by (by rewrite length_insert). }
  unfold fddup. rewrite Hg. simpl. rewrite Hc. exists (<[Z.to_nat d := Some o]> t2). split.
  - rewrite (fdalloc_at _ _ (Z.to_nat d)).
    + rewrite list_insert_insert_eq. do 2 f_equal. lia.
    + apply list_lookup_insert_eq. unfold t2. rewrite !length_insert. destruct Hd; subst; simpl; lia.
    + intros x Hx. destruct Hd; subst; [lia|]. replace x with 0%nat by lia. unfold t2.
      rewrite !list_lookup_insert_ne by lia. by rewrite Ha.
  - rewrite !fdclose_nat. assert (Hdd : (Z.to_nat d <= 1)%nat) by (destruct Hd; subst; simpl; lia).
    generalize (Z.to_nat d) Hdd. intros dd Hdd'. apply list_eq. intros x. unfold t2.
    rewrite !list_lookup_insert, !length_insert.
    destruct (decide (x = j)) as [->|Hxj]; [by rewrite decide_True, decide_False by lia|].
    rewrite (decide_False (P := j = x /\ _)) by lia.
    destruct (decide (x = i)) as [->|Hxi]; [by rewrite decide_True, decide_False by lia|].
    rewrite (decide_False (P := i = x /\ _)) by lia. case_decide; [done|].
    by rewrite !decide_False by lia.
Qed.

Lemma will_run c me n dn t :
  cmd_ok c -> table_ok t -> will (run c) me n n dn t = jobs c me n dn t.
Proof.
  revert me n dn t. induction c as [argv|c IH f m d|l IHl r IHr|l IHl r IHr|c IH]; intros me n dn t Hr Ht; cbn [run jobs].
  - by destruct argv.
  - destruct Hr as [Hd Hr]. destruct (reopen t (FileOf f m) d Ht Hd) as [Hf Ht']. cbn [will]. rewrite Hf.
    rewrite (proj2 (Z.ltb_ge d 0)) by lia. by apply IH.
  - destruct Hr as [Hl Hr]. cbn [will].
    destruct (fdpipe_ok t me Ht) as (i & j & -> & Hi & Hj & Hij & Hi1 & Hj1). unfold fork1. cbn [will].
    change (0 =? -1) with false. change (1 =? -1) with false. change (0 =? 0) with true. change (1 =? 0) with false. cbv iota. cbn [will].
    change (0 =? -1) with false. change (1 =? -1) with false. change (0 =? 0) with true. change (1 =? 0) with false. cbv iota. cbn [will].
    destruct (pipe_end t me i j 1 j (PipeW me)) as (t3 & -> & ->); [done..|by right|by right|].
    destruct (pipe_end t me i j 0 i (PipeR me)) as (t4 & -> & ->); [done..|by left|by left|].
    rewrite IHl by (try done; by apply (reopen t (PipeW me) 1 Ht); right).
    rewrite IHr by (try done; by apply (reopen t (PipeR me) 0 Ht); left).
    f_equal. etransitivity; [|apply app_nil_r]. f_equal. by repeat case_decide.
  - destruct Hr as [Hl Hr]. unfold fork1. cbn [will].
    change (0 =? -1) with false. change (1 =? -1) with false. change (0 =? 0) with true. change (1 =? 0) with false. cbv iota. cbn [will].
    rewrite IHl by done. rewrite decide_False by lia. rewrite decide_True by done. by rewrite IHr.
  - unfold fork1. cbn [will].
    change (0 =? -1) with false. change (1 =? -1) with false. change (0 =? 0) with true. change (1 =? 0) with false. cbv iota. cbn [will].
    rewrite app_nil_r. by apply IH.
Qed.

(** ** The invariant of a run *)

Implicit Types (s : @sys W) (m : gmap pid (@pstate W)).

(** The jobs that process [me] still has to do, if no call fails. *)
Definition owed1 me (st : @pstate W) : list job :=
  match st with
  | Live p => will (code p) me (forks p) (length (reaped p)) (done p) (fds p)
  | _ => []
  end.
Definition owed m : list job := map_to_list m ≫= (fun x => owed1 x.1 x.2).

Lemma owed_delete m me st : m !! me = Some st -> owed m ≡ₚ owed1 me st ++ owed (delete me m).
Proof. intros H. unfold owed. by rewrite <- (map_to_list_delete m me st H). Qed.

Lemma owed_insert m me st : owed (<[me := st]> m) ≡ₚ owed1 me st ++ owed (delete me m).
Proof.
  rewrite (owed_delete _ me st) by apply lookup_insert_eq. by rewrite delete_insert_eq.
Qed.

Lemma owed_fresh m me st : m !! me = None -> owed (<[me := st]> m) ≡ₚ owed1 me st ++ owed m.
Proof. intros H. by rewrite owed_insert, delete_id. Qed.

Definition proc_ok s me (p : @shproc W) : Prop :=
  careful (code p) /\ (forall q, q ∈ done p -> Exited q ∈ trace s) /\ NoDup (reaped p) /\
  (forall i, i ∈ reaped p -> (i < forks p)%nat /\ tab s !! (me ++ [i]) = Some Gone).

Record inv (D : list job) s : Prop := {
  iv_jobs : exists js lost, explains (trace s) js /\ js ++ owed (tab s) ++ lost ≡ₚ D /\ (failed s = false -> lost = []);
  iv_live : forall me p, tab s !! me = Some (Live p) -> proc_ok s me p;
  iv_gone : forall q, tab s !! q = Some Gone -> Exited q ∈ trace s;
  iv_tree : forall q i, is_Some (tab s !! (q ++ [i])) ->
    is_Some (tab s !! q) /\ forall p, tab s !! q = Some (Live p) -> (i < forks p)%nat;
}.

(** Nothing that has happened is forgotten. *)
Definition later s s' : Prop :=
  (forall e, e ∈ trace s -> e ∈ trace s') /\ (forall q, tab s !! q = Some Gone -> tab s' !! q = Some Gone).

Lemma proc_ok_later s s' me p : later s s' -> proc_ok s me p -> proc_ok s' me p.
Proof.
  intros [Ht Hg] (H1 & H2 & H3 & H4). split; [done|]. split; [intros q Hq; by apply Ht, H2|].
  split; [done|]. intros i Hi. destruct (H4 i Hi) as [? ?]. split; [done|by apply Hg].
Qed.

(** The state of a process that is not [Gone] changes to [st]. *)
Definition change me (st : @pstate W) s : sys := s.[tab := <[me := st]> (tab s)].

Lemma later_change s me st st0 :
  tab s !! me = Some st0 -> st0 <> Gone -> later s (change me st s).
Proof.
  intros H Hne. split; [done|]. intros q Hq. simpl. rewrite lookup_insert_ne; [done|].
  intros <-. congruence.
Qed.

Lemma inv_change D s me st0 st tr fl js1 lost1 :
  inv D s -> tab s !! me = Some st0 -> st0 <> Gone ->
  let s' := s.[tab := <[me := st]> (tab s)].[trace := tr].[failed := fl] in
  (forall e, e ∈ trace s -> e ∈ tr) ->
  (forall js, explains (trace s) js -> explains tr (js ++ js1)) ->
  owed1 me st0 = js1 ++ owed1 me st ++ lost1 -> (fl = false -> failed s = false /\ lost1 = []) ->
  (forall p, st = Live p -> proc_ok s' me p /\ exists p0, st0 = Live p0 /\ forks p = forks p0) ->
  (st = Gone -> Exited me ∈ tr) ->
  inv D s'.
Proof.
  intros I H0 Hne s' Htr Hex Ho Hfl Hp Hg.
  assert (L : later s s').
  { split; [done|]. intros q Hq. simpl. rewrite lookup_insert_ne; [done|]. intros <-. congruence. }
  split.
  - destruct (iv_jobs _ _ I) as (js & lost & E & P & F). exists (js ++ js1), (lost1 ++ lost).
    split; [by apply Hex|]. split.
    + simpl. rewrite <- P, owed_insert, (owed_delete (tab s) me st0 H0), Ho. solve_Permutation.
    + intros Hfl'. destruct (Hfl Hfl') as [Hf ->]. by rewrite F.
  - intros q p. simpl. destruct (decide (me = q)) as [<-|Hq].
    + rewrite lookup_insert_eq. intros [= ->]. by apply Hp.
    + rewrite lookup_insert_ne by done. intros Hq'. eapply proc_ok_later; [exact L|]. by apply (iv_live _ _ I).
  - intros q. simpl. destruct (decide (me = q)) as [<-|Hq].
    + rewrite lookup_insert_eq. intros [= ->]. by apply Hg.
    + rewrite lookup_insert_ne by done. intros Hq'. by apply Htr, (iv_gone _ _ I).
  - intros q i. simpl. intros Hs.
    assert (Hs' : is_Some (tab s !! (q ++ [i]))).
    { destruct (decide (me = q ++ [i])) as [<-|]; [by eauto|]. by rewrite lookup_insert_ne in Hs. }
    destruct (iv_tree _ _ I q i Hs') as [H1 H2]. destruct (decide (me = q)) as [<-|Hq].
    + rewrite lookup_insert_eq. split; [eauto|]. intros p [= ->].
      destruct (Hp p eq_refl) as [_ (p0 & -> & ->)]. by apply H2.
    + by rewrite lookup_insert_ne.
Qed.

(** A step of one process that only concerns itself. *)
Lemma inv_proc D s me p p' (fl : bool) :
  inv D s -> tab s !! me = Some (Live p) -> forks p' = forks p -> proc_ok s me p' ->
  (owed1 me (Live p') = owed1 me (Live p) \/ fl = true /\ owed1 me (Live p') = []) ->
  inv D (if fl then fails (set_proc me p' s) else set_proc me p' s).
Proof.
  intros I H0 Hf Hok Ho.
  assert (Hgen : forall fl' lost1, owed1 me (Live p) = owed1 me (Live p') ++ lost1 -> (fl' = false -> failed s = false /\ lost1 = []) ->
    inv D (s.[tab := <[me := Live p']> (tab s)].[trace := trace s].[failed := fl'])).
  { intros fl' lost1 Hl Hfl. apply (inv_change D s me (Live p) (Live p') (trace s) fl' [] lost1); try done.
    - intros js Hjs. by rewrite app_nil_r.
    - intros q [= <-]. split; [|by exists p]. eapply proc_ok_later; [|exact Hok].
      exact (later_change s me (Live p') (Live p) H0 ltac:(done)). }
  destruct Ho as [Ho|[-> Ho]].
  - destruct fl; [apply (Hgen true [])|apply (Hgen (failed s) [])]; rewrite ?app_nil_r; done.
  - apply (Hgen true (owed1 me (Live p))); [by rewrite Ho|done].
Qed.

(** A process ends. *)
Lemma inv_leave D s me st0 (fl : bool) :
  inv D s -> tab s !! me = Some st0 -> st0 <> Gone -> (fl = false -> owed1 me st0 = []) ->
  inv D (if fl then fails (leave me s) else leave me s).
Proof.
  intros I H0 Hne Ho.
  assert (Hgen : forall fl', (fl' = false -> failed s = false /\ owed1 me st0 = []) ->
    inv D (s.[tab := <[me := Gone]> (tab s)].[trace := trace s ++ [Exited me]].[failed := fl'])).
  { intros fl' Hfl. apply (inv_change D s me st0 Gone (trace s ++ [Exited me]) fl' [] (owed1 me st0)); try done.
    - intros e He. apply elem_of_app. by left.
    - intros js Hjs. rewrite app_nil_r. by constructor.
    - intros _. apply elem_of_app. right. apply list_elem_of_here. }
  destruct fl; [by apply (Hgen true)|]. apply (Hgen (failed s)). intros Hf. split; [exact Hf|by apply Ho].
Qed.

Lemma inv_exec D s me p argv k :
  inv D s -> tab s !! me = Some (Live p) -> code p = PExec argv k ->
  inv D (s.[tab := <[me := Image]> (tab s)].[trace := trace s ++ [Execd me argv (fds p)]]).
Proof.
  intros I H0 Hc.
  apply (inv_change D s me (Live p) Image (trace s ++ [Execd me argv (fds p)]) (failed s) [(me, argv, fds p, done p)] []); try done.
  - intros e He. apply elem_of_app. by left.
  - intros js Hjs. constructor; [done|]. by apply (iv_live _ _ I me p H0).
  - simpl. by rewrite Hc.
Qed.

(** All children have been waited for. *)
Lemma full_reap (l : list nat) n i :
  NoDup l -> (forall x, x ∈ l -> (x < n)%nat) -> length l = n -> (i < n)%nat -> i ∈ l.
Proof.
  intros Hnd Hlt Hlen Hi.
  assert (Hs : l ⊆+ seq 0 n).
  { apply NoDup_submseteq; [done|]. intros x Hx. apply elem_of_seq. specialize (Hlt x Hx). lia. }
  apply submseteq_length_Permutation in Hs; [|rewrite length_seq; lia].
  rewrite Hs. apply elem_of_seq. lia.
Qed.

Lemma inv_wait D s me p k i s' :
  inv D s -> tab s !! me = Some (Live p) -> code p = PWait k -> wait_step me p k i s = Some s' -> inv D s'.
Proof.
  intros I H0 Hc. destruct (iv_live _ _ I me p H0) as (Hk & Hd & Hnd & Hr). rewrite Hc in Hk.
  unfold wait_step. case_decide as Hall.
  - intros [= <-]. apply (inv_proc D s me p (p.[code := k]) false I H0); [done|by split_and!|].
    left. simpl. rewrite Hc. cbn [will]. by rewrite decide_True.
  - case_decide as Hi; [|done]. destruct Hi as [Hi Hir].
    destruct (tab s !! (me ++ [i])) as [[| |]|] eqn:Hkid; try done. intros [= <-].
    apply (inv_proc D s me p _ false I H0); [done| |].
    + split; [done|]. split; [|split].
      * simpl. case_decide as Hlast; [|done]. intros q [Hq|Hq]%elem_of_app; [by apply Hd|].
        apply list_elem_of_fmap in Hq as (x & -> & Hx%elem_of_seq). apply (iv_gone _ _ I).
        assert (Hin : x ∈ i :: reaped p).
        { apply (full_reap _ (forks p)); [by constructor| |done|lia].
          intros y [->|Hy]%elem_of_cons; [done|by apply Hr]. }
        apply elem_of_cons in Hin as [->|Hin]; [done|by apply Hr].
      * simpl. by constructor.
      * simpl. intros x [->|Hx]%elem_of_cons; [done|by apply Hr].
    + left. simpl. rewrite Hc. cbn [will]. by rewrite (decide_False (P := length (reaped p) = forks p)).
Qed.

(** The tree of processes, when [me] forks. *)
Lemma fresh_kid D s me p :
  inv D s -> tab s !! me = Some (Live p) -> tab s !! (me ++ [forks p]) = None.
Proof.
  intros I H0. destruct (tab s !! (me ++ [forks p])) as [st|] eqn:Hk; [|done].
  destruct (iv_tree _ _ I me (forks p)) as [_ H]; [by eauto|]. specialize (H p H0). lia.
Qed.

Lemma app_snoc_ne (l : list nat) i : l ++ [i] <> l.
Proof. intros H%(f_equal length). rewrite length_app in H. simpl in H. lia. Qed.

Lemma inv_fork D s me p (k : Z -> @prog W) r :
  inv D s -> tab s !! me = Some (Live p) -> code p = PFork k -> 0 < r ->
  inv D (set_proc (me ++ [forks p]) (Proc (k 0) (fds p) 0 [] (done p))
          (set_proc me (p.[code := k r].[forks := S (forks p)]) s)).
Proof.
  intros I H0 Hc Hr0. set (kid := me ++ [forks p]). set (p' := p.[code := k r].[forks := S (forks p)]).
  set (q' := Proc (k 0) (fds p) 0 [] (done p)). pose proof (fresh_kid D s me p I H0) as Hfresh. fold kid in Hfresh.
  destruct (iv_live _ _ I me p H0) as (Hk & Hd & Hnd & Hr). rewrite Hc in Hk. destruct Hk as (_ & Hu & Hk).
  assert (Hne : kid <> me) by apply app_snoc_ne.
  set (s' := set_proc kid q' (set_proc me p' s)).
  assert (Htab : forall q, tab s' !! q = if decide (q = kid) then Some (Live q') else if decide (q = me) then Some (Live p') else tab s !! q).
  { intros q. unfold s', set_proc. simpl. case_decide as H1; [rewrite H1; apply lookup_insert_eq|].
    rewrite lookup_insert_ne by done. case_decide as H2; [rewrite H2; apply lookup_insert_eq|]. by rewrite lookup_insert_ne. }
  assert (L : later s s').
  { split; [done|]. intros q Hq. rewrite Htab. rewrite !decide_False; [done| |]; intros ->; congruence. }
  split.
  - destruct (iv_jobs _ _ I) as (js & lost & E & P & F). exists js, lost. split; [done|]. split; [|done].
    rewrite <- P. f_equiv. f_equiv. simpl. rewrite owed_fresh by (by rewrite lookup_insert_ne).
    rewrite owed_insert, (owed_delete (tab s) me (Live p) H0), app_assoc. f_equiv. simpl. rewrite Hc. cbn [will].
    fold kid. by rewrite (Hu r Hr0).
  - intros q x. rewrite Htab. case_decide as H1; [intros [= <-]; rewrite H1|case_decide as H2; [intros [= <-]; rewrite H2|]].
    + split; [apply Hk|]. split; [exact Hd|]. split; [constructor|]. intros i Hi. by apply not_elem_of_nil in Hi.
    + split; [apply Hk|]. split; [exact Hd|]. split; [exact Hnd|]. intros i Hi. destruct (Hr i Hi) as [? ?].
      simpl. split; [lia|]. by apply L.
    + intros Hq. eapply proc_ok_later; [exact L|]. by apply (iv_live _ _ I).
  - intros q. rewrite Htab. case_decide; [done|]. case_decide; [done|]. apply (iv_gone _ _ I).
  - intros q i. rewrite !Htab. intros Hs. destruct (decide (q ++ [i] = kid)) as [Hqi|Hqi].
    + apply app_inj_tail in Hqi as [Hq ->]. rewrite (decide_False (P := q = kid)) by (rewrite Hq; congruence).
      rewrite decide_True by exact Hq. split; [by eauto|]. intros x [= <-]. simpl. lia.
    + assert (Hs' : is_Some (tab s !! (q ++ [i]))) by (destruct (decide (q ++ [i] = me)) as [H3|]; [rewrite H3; by eauto|exact Hs]).
      clear Hs.
      destruct (iv_tree _ _ I q i Hs') as [H1 H2]. destruct (decide (q = kid)) as [H3|H3].
      { rewrite H3, Hfresh in H1. by destruct H1. }
      case_decide as H4; [|done]. rewrite H4 in H2. split; [by eauto|]. intros x [= <-]. simpl.
      specialize (H2 p H0). lia.
Qed.

Lemma inv_act D s me p r s' :
  inv D s -> tab s !! me = Some (Live p) -> act me p r s = Some s' -> inv D s'.
Proof.
  intros I H0. destruct (iv_live _ _ I me p H0) as (Hk & Hd & Hnd & Hr).
  assert (Hloc : forall p' fl, forks p' = forks p -> reaped p' = reaped p -> done p' = done p -> careful (code p') ->
    (owed1 me (Live p') = owed1 me (Live p) \/ fl = true /\ owed1 me (Live p') = []) ->
    inv D (if fl then fails (set_proc me p' s) else set_proc me p' s)).
  { intros p' fl Hf Hre Hdo Hca Ho. apply (inv_proc D s me p p' fl I H0 Hf); [|exact Ho].
    split; [done|]. rewrite Hre, Hdo, Hf. by split_and!. }
  unfold act. destruct (code p) as [st|argv k|fd k|f m k|k|fd k|k|k|msg a k] eqn:Hc.
  - intros [= <-]. apply (inv_leave D s me (Live p) false I H0); [done|]. simpl. by rewrite Hc.
  - destruct Hk as [Hq Hk]. destruct (r <? 0); intros [= <-].
    + apply (Hloc _ true); try done. right. split; [done|apply Hq].
    + by apply (inv_exec D s me p argv k).
  - intros [= <-]. apply (Hloc _ false); try done. left. simpl. by rewrite Hc.
  - destruct Hk as [Hq Hk]. destruct (r <? 0) eqn:Hneg.
    + intros [= <-]. apply (Hloc _ true); try done; [apply Hk|]. right. split; [done|apply Hq].
    + destruct (fdlowest (fds p) (FileOf f m)) as [[fd t]|] eqn:Ha; intros [= <-].
      * apply (Hloc _ false); try done; [apply Hk|]. left. simpl. rewrite Hc. cbn [will]. by rewrite Ha.
      * apply (Hloc _ true); try done; [apply Hk|]. right. split; [done|apply Hq].
  - destruct Hk as [Hq Hk]. destruct (r <? 0) eqn:Hneg.
    + intros [= <-]. apply (Hloc _ true); try done; [apply Hk|]. right. split; [done|apply Hq].
    + destruct (fdpipe (fds p) me) as [[[p0 p1] t]|] eqn:Ha; intros [= <-].
      * apply (Hloc _ false); try done; [apply Hk|]. left. simpl. rewrite Hc. cbn [will]. by rewrite Ha.
      * apply (Hloc _ true); try done; [apply Hk|]. right. split; [done|apply Hq].
  - destruct (fddup (fds p) fd) as [[fd' t]|] eqn:Ha; intros [= <-];
      (apply (Hloc _ false); try done; [apply Hk|]); left; simpl; rewrite Hc; cbn [will]; by rewrite Ha.
  - destruct (Z.ltb_spec r 0) as [Hneg|Hneg].
    + intros [= <-]. apply (Hloc _ true); try done; [apply Hk|]. right. split; [done|apply Hk].
    + destruct (Z.eqb_spec r 0) as [|Hz]; [done|]. intros [= <-]. apply inv_fork; [done|done|done|lia].
  - by apply (inv_wait D s me p k).
  - intros [= <-]. apply (Hloc _ false); try done. left. simpl. by rewrite Hc.
Qed.

Lemma inv_sys_step D ch s s' : inv D s -> step ch s = Some s' -> inv D s'.
Proof.
  intros I. destruct ch as [me r|me|me]; simpl.
  - destruct (tab s !! me) as [[p| |]|] eqn:H0; try done. by apply inv_act.
  - destruct (tab s !! me) as [[p| |]|] eqn:H0; try done. intros [= <-].
    by apply (inv_leave D s me (Live p) true I H0).
  - destruct (tab s !! me) as [[p| |]|] eqn:H0; try done. intros [= <-].
    by apply (inv_leave D s me Image false I H0).
Qed.

Lemma inv_steps D chs s s' : inv D s -> steps chs s = Some s' -> inv D s'.
Proof.
  revert s. induction chs as [|ch chs IH]; intros s I; simpl; [by intros [= <-]|].
  destruct (step ch s) as [s1|] eqn:Hs; [|done]. apply IH. by eapply inv_sys_step.
Qed.

Lemma inv_start c t : cmd_ok c -> table_ok t -> inv (jobs c [] 0 [] t) (launch c t).
Proof.
  intros Hc Ht. split; simpl.
  - exists [], []. split; [constructor|]. split; [|done].
    rewrite app_nil_r. unfold owed. rewrite map_to_list_singleton. simpl. rewrite app_nil_r. by rewrite will_run.
  - intros me p [<- [= <-]]%lookup_singleton_Some. split; [apply careful_run|].
    split; [intros q Hq; by apply not_elem_of_nil in Hq|]. split; [constructor|].
    intros i Hi. by apply not_elem_of_nil in Hi.
  - intros q [_ [=]]%lookup_singleton_Some.
  - intros q i [st [H _]%lookup_singleton_Some]. by destruct q.
Qed.

(** No process of the shell is left. *)
Definition finished s : Prop := forall me p, tab s !! me <> Some (Live p).

Lemma owed_finished s : finished s -> owed (tab s) = [].
Proof.
  intros H. unfold owed. assert (Hall : Forall (fun x => owed1 x.1 x.2 = []) (map_to_list (tab s))).
  { apply Forall_forall. intros [me st] Hin%elem_of_map_to_list. simpl. destruct st as [p| |]; [|done..]. by destruct (H me p). }
  induction Hall as [|x l Hx _ IH]; [done|]. simpl. rewrite Hx. exact IH.
Qed.

(** C12: [runcmd] runs what the command says.  Take a command the parser can
    make, a descriptor table with standard input and output open and room for a
    pipe, and any history of the shell's processes: any interleaving of their
    system calls, in which any call may fail and any process be killed.  The
    programs exec'ed so far are jobs of the command, each at most once, each
    with its arguments, with the descriptors that the redirections and pipes
    around it give it and no end of a pipe besides, and behind a [;] only when
    the child that ran the left side has exited.  Unless something failed, all
    the jobs have been run when no process of the shell is left. *)
Theorem runcmd_runs c t chs s :
  cmd_ok c -> table_ok t -> steps chs (launch c t) = Some s ->
  exists js rest, explains (trace s) js /\ js ++ rest ≡ₚ jobs c [] 0 [] t /\
    (failed s = false -> finished s -> rest = []).
Proof.
  intros Hc Ht Hs. pose proof (inv_steps _ _ _ _ (inv_start c t Hc Ht) Hs) as I.
  destruct (iv_jobs _ _ I) as (js & lost & E & P & F). exists js, (owed (tab s) ++ lost).
  split; [done|]. split; [done|]. intros Hf Hfin. by rewrite owed_finished, F.
Qed.
End run_thm.

(** ** An example *)

(** [cat | wc >f ; ls &] *)
Definition demo_line_cmd : cmd string :=
  LIST (PIPE (EXEC ["cat"]) (REDIR (EXEC ["wc"]) "f" mode_write 1)) (BACK (EXEC ["ls"])).
Definition demo_table : list (option (@obj string)) :=
  [Some (Inherited 0); Some (Inherited 1); Some (Inherited 2); None; None].
Definition demo_choices : list choice :=
  [Act [] 4; Act [0%nat] 0; Act [0%nat] 5; Act [0%nat] 6] ++
  concat (replicate 4 [Act [0%nat; 0%nat] 0; Act [0%nat; 1%nat] 0]) ++
  [Act [0%nat; 1%nat] 0; Act [0%nat; 1%nat] 0; Act [0%nat; 1%nat] 0; Act [0%nat; 0%nat] 0] ++
  [Act [0%nat] 0; Act [0%nat] 0; Finish [0%nat; 1%nat]; Act [0%nat] 1; Finish [0%nat; 0%nat]; Act [0%nat] 0; Act [0%nat] 0] ++
  [Act [] 0; Act [] 7; Act [] 0; Act [1%nat] 0; Finish [1%nat]].
Definition demo_run : @sys string :=
  match steps demo_choices (launch demo_line_cmd demo_table) with Some s => s | None => Sys ∅ [] true end.

Example demo_run_trace : trace demo_run =
  [Execd [0%nat; 1%nat] ["wc"] [Some (PipeR [0%nat]); Some (FileOf "f" mode_write); Some (Inherited 2); None; None];
   Execd [0%nat; 0%nat] ["cat"] [Some (Inherited 0); Some (PipeW [0%nat]); Some (Inherited 2); None; None];
   Exited [0%nat; 1%nat]; Exited [0%nat; 0%nat]; Exited [0%nat]; Exited [];
   Execd [1%nat] ["ls"] demo_table; Exited [1%nat]].
Proof. vm_compute. reflexivity. Qed.

Lemma runcmd_runs_witness :
  exists js rest, explains (trace demo_run) js /\ js ++ rest ≡ₚ jobs demo_line_cmd [] 0 [] demo_table /\
    (failed demo_run = false -> finished demo_run -> rest = []).
Proof.
  apply (runcmd_runs demo_line_cmd demo_table demo_choices demo_run).
  - vm_compute. repeat split; lia || (right; reflexivity).
  - split; [by eexists|]. split; [by eexists|]. exists 3%nat, 4%nat. split; [lia|]. split; reflexivity.
  - vm_compute. reflexivity.
Defined.
