(* ===== verification/ShMain.v ===== *)
(** The shell's loop: [getcmd] and [main] of user/sh.c, with the proof that it
    handles its input line by line: each line is a [cd] or is run by a child
    that the shell waits for. *)

From S2P Require Import Prelude CInt Machine KString KStringThm Ulib Printf Sh ShThm ShPrint ShRun.

#[local] Transparent mwrite.

(** ** The code *)

(** The system calls of the shell's loop that the library does not make. *)
Class ShellOs (R : Type) := {
  os_chdir : list Z -> R -> Z * R;
  os_fork : R -> Z * R;
  os_wait : R -> Z * R;
}.

(** [runcmd(parsecmd(buf))], where the line is in [buf]; the strings of the
    command are in the buffer that the parser leaves. *)
Definition run_line (line : list Z) : @prog (list Z) :=
  match parsecmd line with
  | Ok c buf => run (cmd_map (fun w => cstr (drop (offset line (fst w)) buf)) c)
  | Panic m => panic m
  | _ => PExit 1
  end.

Section main.
Context {R : Type} {os : UserOs R} {sos : ShellOs R}.
Abbreviation U := (UState R).

(** "console", "fork\n", "cannot cd %s\n" *)
Definition console_text : list Z := [99; 111; 110; 115; 111; 108; 101].
Definition fork_text : list Z := [102; 111; 114; 107; 10].
Definition cannot_cd_text : list Z := [99; 97; 110; 110; 111; 116; 32; 99; 100; 32; 37; 115; 10].

Definition getcmd (cbuf buf nbuf : Z) : M U Z :=
  let* _ := oscall (os_write 2 [36; 32]) in
  umemory (fun m => memset m buf 0 nbuf);;;
  let* _ := Ulib.gets cbuf buf nbuf in
  let* c := uload buf in
  if c =? 0 then ret (-1) else ret 0.

Definition open_console : M U unit :=
  while 4 (fun _ =>
    let* fd := oscall (os_open console_text 2) in
    if fd <? 0 then ret (inr tt) else
    if 3 <=? fd then let* _ := oscall (os_close fd) in ret (inr tt) else ret (inl tt)) tt.

(** How the process leaves [main]: it exits, or it runs a command. *)
Definition main_body (cbuf buf : Z) (_ : unit) : M U (unit + (Z + @prog (list Z))) :=
  let* r := getcmd cbuf buf 100 in
  if r <? 0 then ret (inr (inl 0)) else
  let* c0 := uload buf in
  let* c1 := uload (buf + 1) in
  let* c2 := uload (buf + 2) in
  if (c0 =? 99) && (c1 =? 100) && (c2 =? 32) then
    let* n := upure (fun m => Ulib.strlen 100 m buf) in
    ustore (buf + n - 1) 0;;;
    let* k := upure (fun m => Ulib.strlen 100 m (buf + 3)) in
    let* m := Machine.gets umem in
    let* r := oscall (os_chdir (mread m (buf + 3) (Z.to_nat k))) in
    when (r <? 0) (fprintf 100 2 cannot_cd_text [buf + 3]);;;
    ret (inl tt)
  else
    let* pid := oscall os_fork in
    if pid =? -1 then fprintf 100 2 fork_text [];;; ret (inr (inl 1)) else
    if pid =? 0 then
      let* n := upure (fun m => Ulib.strlen 100 m buf) in
      let* m := Machine.gets umem in
      ret (inr (inr (run_line (mread m buf (Z.to_nat n)))))
    else
    let* _ := oscall os_wait in
    ret (inl tt).

Definition main (fuel : nat) (cbuf buf : Z) : M U (Z + @prog (list Z)) :=
  open_console;;;
  while fuel (main_body cbuf buf) tt.
End main.

(** ** Lines *)

(** What [gets] takes from the input for a buffer of [n + 1] characters. *)
Fixpoint take_line (n : nat) (l : list Z) : list Z * list Z :=
  match n, l with
  | S n, c :: l => if (c =? 10) || (c =? 13) then ([c], l) else let '(a, b) := take_line n l in (c :: a, b)
  | _, _ => ([], l)
  end.

Lemma take_line_app n l : (take_line n l).1 ++ (take_line n l).2 = l.
Proof.
  revert l. induction n as [|n IH]; intros [|c l]; simpl; try done.
  destruct (_ || _); [done|]. specialize (IH l). destruct (take_line n l). simpl in *. by rewrite IH.
Qed.

Lemma take_line_length n l : (length (take_line n l).1 <= n)%nat.
Proof.
  revert l. induction n as [|n IH]; intros [|c l]; simpl; try lia.
  destruct (_ || _); [simpl; lia|]. specialize (IH l). destruct (take_line n l). simpl in *. lia.
Qed.

(** The lines of the input; each takes a character. *)
Fixpoint lines_of (fuel : nat) (l : list Z) : list (list Z) :=
  match fuel, l with
  | S fuel, _ :: _ => let '(a, b) := take_line 99 l in a :: lines_of fuel b
  | _, _ => []
  end.
Definition lines (l : list Z) : list (list Z) := lines_of (length l) l.

(** ** What the loop relies on *)

Inductive action := Chdir (path : list Z) | Forked (pid : Z) | Waited.

Class ShellLaws (R : Type) {os : UserOs R} {sos : ShellOs R}
    (input : R -> list Z) (acts : R -> list action) (fds : R -> list Z) := {
  law_read n e :
    0 <= n ->
    exists bs e', os_read 0 n e = (Z.of_nat (length bs), bs, e') /\
      input e = bs ++ input e' /\ Z.of_nat (length bs) <= n /\ acts e' = acts e /\
      (bs = [] -> n = 0 \/ input e = []);
  law_write bs e : input (os_write 2 bs e).2 = input e /\ acts (os_write 2 bs e).2 = acts e;
  law_open p m e :
    input (os_open p m e).2 = input e /\ acts (os_open p m e).2 = acts e /\
    ((os_open p m e).1 < 0 \/ (os_open p m e).1 ∉ fds e /\ fds (os_open p m e).2 = (os_open p m e).1 :: fds e);
  law_close fd e : input (os_close fd e).2 = input e /\ acts (os_close fd e).2 = acts e;
  law_chdir p e : input (os_chdir p e).2 = input e /\ acts (os_chdir p e).2 = acts e ++ [Chdir p];
  law_fork e :
    input (os_fork e).2 = input e /\ acts (os_fork e).2 = acts e ++ [Forked (os_fork e).1] /\ -1 <= (os_fork e).1;
  law_wait e : input (os_wait e).2 = input e /\ acts (os_wait e).2 = acts e ++ [Waited];
}.

(** A line that the shell itself acts on, with the directory. *)
Definition is_cd (l : list Z) : bool := bool_decide (take 3 l = [99; 100; 32]).
Definition cd_path (l : list Z) : list Z := drop 3 (removelast l).

(** What the shell does for one line, and for some. *)
Inductive line_acts : list Z -> list action -> Prop :=
| la_cd l : is_cd l = true -> line_acts l [Chdir (cd_path l)]
| la_run l pid : is_cd l = false -> 0 < pid -> line_acts l [Forked pid; Waited].

Definition lines_acts (ls : list (list Z)) (a : list action) : Prop :=
  exists as_, Forall2 line_acts ls as_ /\ a = concat as_.

(** ** Library routines *)

Lemma strlen_loop_str_at fuel m a l1 l2 :
  str_at m a (l1 ++ l2) -> (length l2 < fuel)%nat -> Z.of_nat (length (l1 ++ l2)) < 2 ^ 31 ->
  strlen_loop fuel m a (Z.of_nat (length l1)) = Some (Z.of_nat (length (l1 ++ l2))).
Proof.
  revert l1 l2. induction fuel as [|fuel IH]; intros l1 l2 Hs Hf Hb; [lia|]. cbn [strlen_loop].
  pose proof (str_at_app _ _ _ _ Hs) as Ht. destruct l2 as [|c l2].
  - simpl in Ht. rewrite Ht. by rewrite app_nil_r.
  - destruct Ht as (Hc & Hg & _). rewrite Hg, (proj2 (Z.eqb_neq c 0) Hc).
    rewrite length_app in Hb. cbn [length] in Hb, Hf. rewrite s32_small by lia.
    specialize (IH (l1 ++ [c]) l2). rewrite <- app_assoc, !length_app in IH. cbn [length app] in IH.
    replace (Z.of_nat (length l1) + 1) with (Z.of_nat (length l1 + 1)) by lia. rewrite IH; [|done|lia|lia].
    by rewrite length_app.
Qed.

Lemma strlen_str_at fuel m a l :
  str_at m a l -> (length l < fuel)%nat -> Z.of_nat (length l) < 2 ^ 31 ->
  Ulib.strlen fuel m a = Some (Z.of_nat (length l)).
Proof. intros. by apply (strlen_loop_str_at fuel m a [] l). Qed.

Lemma memset_loop_get n m dst c i a :
  mget (memset_loop m dst c i n) a =
    if decide (dst + i <= a < dst + i + Z.of_nat n) then u8 c else mget m a.
Proof.
  revert m i. induction n as [|n IH]; intros m i; cbn [memset_loop]; [by rewrite decide_False by lia|].
  rewrite IH. destruct (decide (a = dst + i)) as [->|].
  - rewrite decide_False by lia. rewrite mget_mset_eq. by rewrite decide_True by lia.
  - rewrite mget_mset_ne by lia. by repeat case_decide; try lia.
Qed.

Lemma mread_snoc m a pre c :
  mread m a (length pre) = pre -> mget m (a + Z.of_nat (length pre)) = c ->
  mread m a (length (pre ++ [c])) = pre ++ [c].
Proof.
  intros Hp Hg. apply list_eq. intros i. rewrite length_app. cbn [length].
  destruct (lt_dec i (length pre)) as [Hi|Hi].
  - rewrite mread_lookup by lia. rewrite lookup_app_l by done. rewrite <- Hp at 1. by rewrite mread_lookup.
  - destruct (decide (i = length pre)) as [->|Hne].
    + rewrite mread_lookup by lia. rewrite lookup_app_r, Nat.sub_diag by lia. by rewrite Hg.
    + rewrite !lookup_ge_None_2; [done|rewrite length_app; simpl; lia|rewrite mread_length; lia].
Qed.

Section laws.
Context {R : Type} {os : UserOs R} {sos : ShellOs R} {input : R -> list Z} {acts : R -> list action} {fds : R -> list Z}.
Context {laws : ShellLaws R input acts fds}.
Implicit Types (s : UState R) (e : R).

Lemma uload_ok a mem e : uload a (US mem e) = Ok (mget mem a) (US mem e).
Proof. done. Qed.
Lemma ustore_ok a v mem e : ustore a v (US mem e) = Ok tt (US (mset mem a v) e).
Proof. done. Qed.
Lemma upure_ok {A} (f : gmap Z Z -> option A) v mem e : f mem = Some v -> upure f (US mem e) = Ok v (US mem e).
Proof. intros H. unfold upure. mred. by rewrite H. Qed.
Lemma oscall_ok {A} (f : R -> A * R) v mem e e' : f e = (v, e') -> oscall f (US mem e) = Ok v (US mem e').
Proof. intros H. unfold oscall. cbn [uenv]. by rewrite H. Qed.

(** Only writes to standard error: memory, input and history stay. *)
Definition prints (m : M (UState R) unit) : Prop :=
  forall mem e, exists e', m (US mem e) = Ok tt (US mem e') /\ input e' = input e /\ acts e' = acts e.

Lemma prints_write bs (k : Z -> M (UState R) unit) :
  (forall r, prints (k r)) -> prints (let* r := oscall (os_write 2 bs) in k r).
Proof.
  intros Hk mem e. destruct (law_write bs e) as [Hi Ha]. unfold oscall, bind. cbn [umem uenv].
  destruct (os_write 2 bs e) as [r e'] eqn:Hw. cbn [snd] in *.
  destruct (Hk r mem e') as (e2 & E2 & Hi2 & Ha2). exists e2. split; [exact E2|]. split; congruence.
Qed.

Lemma prints_ret : prints (ret tt).
Proof. intros mem e. by exists e. Qed.

Lemma prints_putc c : prints (putc 2 c).
Proof. apply prints_write. intros _. apply prints_ret. Qed.

Lemma prints_seq (m m' : M (UState R) unit) : prints m -> prints m' -> prints (m;;; m').
Proof.
  intros H H' mem e. destruct (H mem e) as (e1 & E1 & Hi & Ha). destruct (H' mem e1) as (e2 & E2 & Hi2 & Ha2).
  exists e2. rewrite (bind_Ok _ _ _ _ _ E1). split; [done|]. split; congruence.
Qed.

Lemma prints_text fuel l ap : Forall (fun c => c <> 37) l -> prints (vprintf fuel 2 l false ap).
Proof.
  intros Hl. induction Hl as [|c l Hc _ IH]; simpl; [apply prints_ret|].
  rewrite (proj2 (Z.eqb_neq c 37) Hc). by apply prints_seq; [apply prints_putc|].
Qed.

(** A string argument is printed to its end. *)
Lemma put_string_prints fuel mem e a l :
  str_at mem a l -> (length l < fuel)%nat ->
  exists e', put_string fuel 2 a (US mem e) = Ok tt (US mem e') /\ input e' = input e /\ acts e' = acts e.
Proof.
  unfold put_string. revert a l e. induction fuel as [|fuel IH]; intros a l e Hs Hf; [lia|].
  destruct l as [|c l].
  - simpl in Hs. exists e. erewrite while_inr; [done|]. unfold uload. mred. by rewrite Hs.
  - destruct Hs as (Hc & Hg & Hs). destruct (prints_putc c mem e) as (e1 & E1 & Hi & Ha).
    destruct (IH (a + 1) l e1 Hs) as (e2 & E2 & Hi2 & Ha2); [simpl in Hf; lia|].
    exists e2. erewrite while_inl; [rewrite E2; split; [done|]; split; congruence|].
    unfold uload. mred. rewrite Hg, (proj2 (Z.eqb_neq c 0) Hc). by rewrite E1.
Qed.

Lemma prints_prefix fuel pre suf ap mem e :
  Forall (fun c => c <> 37) pre ->
  exists e', vprintf fuel 2 (pre ++ suf) false ap (US mem e) = vprintf fuel 2 suf false ap (US mem e') /\
    input e' = input e /\ acts e' = acts e.
Proof.
  intros Hpre. revert e. induction Hpre as [|c pre Hc _ IH]; intros e; [by exists e|].
  destruct (prints_putc c mem e) as (e1 & E1 & Hi & Ha). destruct (IH e1) as (e2 & E2 & Hi2 & Ha2).
  exists e2. cbn [app vprintf]. rewrite (proj2 (Z.eqb_neq c 37) Hc), (bind_Ok _ _ _ _ _ E1), E2.
  split; [done|]. split; congruence.
Qed.

Lemma vprintf_string fuel fd suf a ap (s s' : UState R) :
  a <> 0 -> put_string fuel fd a s = Ok tt s' ->
  vprintf fuel fd (37 :: 115 :: suf) false (a :: ap) s = vprintf fuel fd suf false ap s'.
Proof.
  intros Ha Hs. cbn [vprintf]. change (37 =? 37) with true. cbv iota.
  apply bind_Ok. unfold vprintf_conv. change (115 =? 100) with false. change (115 =? 108) with false.
  change (115 =? 120) with false. change (115 =? 112) with false. change (115 =? 115) with true. cbv iota.
  unfold va_arg. rewrite (bind_Ok _ _ _ (a, ap) s) by done. cbv iota. rewrite (proj2 (Z.eqb_neq a 0) Ha).
  by rewrite (bind_Ok _ _ _ _ _ Hs).
Qed.

Lemma cannot_cd_prints mem e a l :
  a <> 0 -> str_at mem a l -> (length l < 100)%nat ->
  exists e', fprintf 100 2 cannot_cd_text [a] (US mem e) = Ok tt (US mem e') /\ input e' = input e /\ acts e' = acts e.
Proof.
  intros Hz Hs Hl. unfold fprintf.
  destruct (prints_prefix 100 [99; 97; 110; 110; 111; 116; 32; 99; 100; 32] [37; 115; 10] [a] mem e) as (e1 & E1 & Hi1 & Ha1).
  { repeat constructor; discriminate. }
  destruct (put_string_prints 100 mem e1 a l Hs Hl) as (e2 & E2 & Hi2 & Ha2).
  destruct (prints_text 100 [10] [] ltac:(repeat constructor; discriminate) mem e2) as (e3 & E3 & Hi3 & Ha3).
  exists e3. split; [|split; congruence]. etrans; [exact E1|]. rewrite <- E3.
  exact (vprintf_string 100 2 [10] a [] _ _ Hz E2).
Qed.

(** ** Reading a line *)

Context (cbuf buf : Z) (Hbuf : 0 < buf) (Hc : cbuf < buf \/ buf + 100 <= cbuf).

Lemma gets_takes mem e i pre n f :
  (n < f)%nat ->
  Forall byte_ok (input e) -> Forall (fun c => c <> 0) (input e) ->
  mread mem buf (length pre) = pre -> Z.of_nat (length pre) = i -> i + Z.of_nat n = 99 ->
  let '(a, b) := take_line n (input e) in
  exists mem' e' i', while f (gets_body cbuf buf 100) i (US mem e) = Ok i' (US mem' e') /\
    i' = i + Z.of_nat (length a) /\ mread mem' buf (length (pre ++ a)) = pre ++ a /\
    input e' = b /\ acts e' = acts e.
Proof.
  revert mem e i pre f. induction n as [|n IH]; intros mem e i pre [|f] Hf Hb Hnz Hpre Hi Hn; [lia| |lia|].
  - simpl take_line. exists mem, e, i. rewrite app_nil_r. split; [|split; [simpl; lia|done]].
    apply while_inr. unfold gets_body. rewrite (proj2 (Z.ltb_ge _ 100)) by lia. done.
  - destruct (law_read 1 e) as (bs & e1 & Hr & Hin & Hlen & Ha & Hend); [lia|].
    assert (Hread : read 0 cbuf 1 (US mem e) = Ok (Z.of_nat (length bs)) (US (mwrite mem cbuf bs) e1)).
    { unfold read, oscall, umemory. mred. by rewrite Hr. }
    assert (Hbody : forall r s', (let* c := uload cbuf in ustore (buf + i) c;;;
        if (c =? 10) || (c =? 13) then ret (inr (i + 1)) else ret (inl (i + 1))) (US (mwrite mem cbuf bs) e1) = Ok r s' ->
      bs <> [] -> gets_body cbuf buf 100 i (US mem e) = Ok r s').
    { intros r s' H Hne. unfold gets_body. rewrite (proj2 (Z.ltb_lt _ 100)) by lia. cbn [negb].
      rewrite (bind_Ok _ _ _ _ _ Hread), (proj2 (Z.ltb_ge _ 1)) by (destruct bs; [done|simpl; lia]). exact H. }
    destruct bs as [|c bs].
    + destruct (Hend eq_refl) as [|He]; [lia|]. rewrite He. simpl take_line. rewrite He in Hin. simpl in Hin.
      exists mem, e1, i. rewrite app_nil_r. split; [|split; [simpl; lia|done]].
      apply while_inr. unfold gets_body. rewrite (proj2 (Z.ltb_lt _ 100)) by lia. cbn [negb].
      by rewrite (bind_Ok _ _ _ _ _ Hread).
    + destruct bs; [|simpl in Hlen; lia]. simpl in Hin. rewrite Hin in *. simpl take_line.
      apply Forall_cons in Hb as [Hbc Hb]. apply Forall_cons in Hnz as [Hzc Hnz].
      assert (Hg : mget (mwrite mem cbuf [c]) cbuf = c) by (simpl; rewrite mget_mset_eq; by apply u8_small).
      set (mem1 := mset (mwrite mem cbuf [c]) (buf + i) c).
      assert (Hm1 : mread mem1 buf (length (pre ++ [c])) = pre ++ [c]).
      { apply mread_snoc; [|unfold mem1; rewrite <- Hi, mget_mset_eq; by apply u8_small].
        etrans; [|exact Hpre]. apply mread_ext. intros x Hx. unfold mem1. simpl. by rewrite !mget_mset_ne by lia. }
      assert (Hs1 : gets_body cbuf buf 100 i (US mem e) =
        Ok (if (c =? 10) || (c =? 13) then inr (i + 1) else inl (i + 1)) (US mem1 e1)).
      { apply Hbody; [|done]. unfold uload, ustore. mred. change (mset mem cbuf c) with (mwrite mem cbuf [c]).
        rewrite Hg. rsimpl_goal. by destruct (_ || _). }
      destruct ((c =? 10) || (c =? 13)) eqn:Hnl.
      * exists mem1, e1, (i + 1). split; [by apply while_inr|]. by split; [simpl; lia|].
      * specialize (IH mem1 e1 (i + 1) (pre ++ [c]) f ltac:(lia) Hb Hnz Hm1). rewrite length_app in IH. cbn [length] in IH.
        specialize (IH ltac:(lia) ltac:(lia)). destruct (take_line n (input e1)) as [a b].
        destruct IH as (mem' & e' & i' & Ew & Hi' & Hm' & Hin' & Ha').
        exists mem', e', i'. split; [by rewrite (while_inl _ _ _ _ _ _ Hs1)|].
        rewrite <- app_assoc in Hm'. split; [simpl; lia|]. split; [exact Hm'|]. split; congruence.
Qed.

Definition plain (l : list Z) : Prop := Forall byte_ok l /\ Forall (fun c => c <> 0) l.

Lemma getcmd_takes mem e :
  plain (input e) ->
  let '(a, b) := take_line 99 (input e) in
  exists mem' e', getcmd cbuf buf 100 (US mem e) = Ok (if bool_decide (a = []) then -1 else 0) (US mem' e') /\
    str_at mem' buf a /\ input e' = b /\ acts e' = acts e.
Proof.
  intros [Hb Hnz]. destruct (law_write [36; 32] e) as [Hi0 Ha0].
  destruct (os_write 2 [36; 32] e) as [r0 e0] eqn:Hw. cbn [snd] in *. rewrite <- Hi0 in *.
  pose proof (gets_takes (Ulib.memset mem buf 0 100) e0 0 [] 99 101 ltac:(lia) Hb Hnz eq_refl eq_refl eq_refl) as G.
  pose proof (take_line_app 99 (input e0)) as Happ.
  destruct (take_line 99 (input e0)) as [a b]. cbn [fst snd] in Happ.
  destruct G as (mem1 & e1 & i & Ew & Hi & Hm & Hin & Ha). cbn [app] in Hm. rewrite Z.add_0_l in Hi.
  rewrite <- Happ in Hnz. apply Forall_app in Hnz as [Hza _].
  assert (Hs : str_at (mset mem1 (buf + i) 0) buf a).
  { apply str_at_intro; [|done|by rewrite Hi, mget_mset_eq]. by rewrite mread_mset_ne by lia. }
  exists (mset mem1 (buf + i) 0), e1. split; [|split; [exact Hs|split; congruence]].
  unfold getcmd, oscall, umemory. mred. rewrite Hw. rsimpl_goal. unfold Ulib.gets, bind.
  change (S (Z.to_nat 100)) with 101%nat. 
  rewrite Ew. unfold ustore, uload. mred. rsimpl_goal. cbn [umem].
  destruct a as [|c a].
  - simpl in Hs. by rewrite Hs.
  - destruct Hs as (Hc0 & -> & _). rewrite (proj2 (Z.eqb_neq c 0) Hc0). by rewrite bool_decide_eq_false_2.
Qed.

Lemma is_cd_test mem l :
  str_at mem buf l ->
  (mget mem buf =? 99) && (mget mem (buf + 1) =? 100) && (mget mem (buf + 2) =? 32) = is_cd l.
Proof.
  intros Hs. unfold is_cd. apply eq_true_iff_eq. rewrite bool_decide_eq_true, !andb_true_iff, !Z.eqb_eq.
  destruct l as [|c0 l]; simpl in Hs; [rewrite Hs; split; [lia|done]|]. destruct Hs as (_ & -> & Hs).
  destruct l as [|c1 l]; simpl in Hs; [rewrite Hs; split; [lia|done]|]. destruct Hs as (_ & -> & Hs).
  replace (buf + 2) with (buf + 1 + 1) by lia.
  destruct l as [|c2 l]; simpl in Hs; [rewrite Hs; split; [lia|done]|]. destruct Hs as (_ & -> & _).
  simpl. rewrite take_0. split; [by intros [[-> ->] ->]|by intros [= -> -> ->]].
Qed.

(** The path of a [cd], when the last character has been chopped. *)
Lemma cd_path_at mem l :
  str_at mem buf l -> is_cd l = true ->
  str_at (mset mem (buf + Z.of_nat (length l) - 1) 0) (buf + 3) (cd_path l).
Proof.
  intros Hs Hcd%bool_decide_eq_true. unfold cd_path.
  destruct (exists_last (l := l)) as (l' & c & ->); [by intros ->|]. rewrite removelast_last.
  rewrite length_app. simpl length. replace (buf + Z.of_nat (length l' + 1) - 1) with (buf + Z.of_nat (length l')) by lia.
  pose proof (str_at_cut _ _ _ _ Hs) as Hcut. destruct (decide (length l' < 3)%nat) as [Hlt|Hge].
  - rewrite drop_ge by lia. simpl.
    assert (Hlen : length (take 3 (l' ++ [c])) = 3%nat) by by rewrite Hcd.
    rewrite length_take, length_app in Hlen. cbn [length] in Hlen. rewrite mget_mset_ne by lia.
    pose proof (str_at_app mem buf (l' ++ [c]) [] ltac:(by rewrite app_nil_r)) as He. simpl in He.
    rewrite <- He. f_equal. rewrite length_app. cbn [length]. lia.
  - rewrite <- (take_drop 3 l') in Hcut at 2. apply str_at_app in Hcut.
    rewrite length_take, Nat.min_l in Hcut by lia. exact Hcut.
Qed.

(** One line. *)
Lemma main_body_line mem e :
  plain (input e) ->
  let '(a, b) := take_line 99 (input e) in
  exists r mem' e', main_body cbuf buf tt (US mem e) = Ok r (US mem' e') /\ input e' = b /\
    match r with
    | inl _ => exists l, a <> [] /\ line_acts a l /\ acts e' = acts e ++ l
    | inr (inl 0) => a = [] /\ acts e' = acts e
    | inr (inl n) => n = 1 /\ a <> [] /\ is_cd a = false /\ acts e' = acts e ++ [Forked (-1)]
    | inr (inr k) => a <> [] /\ is_cd a = false /\ k = run_line a /\ acts e' = acts e ++ [Forked 0]
    end.
Proof.
  intros Hp. pose proof (getcmd_takes mem e Hp) as G. pose proof (take_line_length 99 (input e)) as Hlen.
  destruct (take_line 99 (input e)) as [a b]. cbn [fst] in Hlen. destruct G as (m1 & e1 & Eg & Hs & Hin & Ha).
  unfold main_body. 
  assert (Hl : forall m l, str_at m buf l -> (length l <= 99)%nat -> Ulib.strlen 100 m buf = Some (Z.of_nat (length l))).
  { intros m l H Hle. apply strlen_str_at; [done|lia|]. lia. }
  destruct a as [|c a].
  { exists (inr (inl 0)), m1, e1. by rewrite (bind_Ok _ _ _ _ _ Eg). }
  set (l := c :: a) in *. pose proof (is_cd_test m1 l Hs) as Hcd.
  rewrite (bind_Ok _ _ _ _ _ Eg). change (0 <? 0) with false. cbv iota.
  destruct (is_cd l) eqn:E.
  - pose proof (cd_path_at m1 l Hs E) as Hpath. set (m2 := mset m1 (buf + Z.of_nat (length l) - 1) 0) in *.
    assert (Hpl : (length (cd_path l) < 100)%nat).
    { unfold cd_path. rewrite length_drop. destruct (exists_last (l := l)) as (l' & x & El); [done|].
      rewrite El in Hlen |- *. rewrite removelast_last, length_app in *. cbn [length] in Hlen. lia. }
    assert (Hsmall : Z.of_nat (length (cd_path l)) < 2 ^ 31) by lia.
    pose proof (str_at_mread _ _ _ Hpath) as Hr.
    destruct (law_chdir (cd_path l) e1) as [Hi2 Ha2]. destruct (os_chdir (cd_path l) e1) as [r e2] eqn:Hch. cbn [snd] in *.
    assert (Hw : exists e3, when (r <? 0) (fprintf 100 2 cannot_cd_text [buf + 3]) (US m2 e2) = Ok tt (US m2 e3) /\
      input e3 = input e2 /\ acts e3 = acts e2).
    { destruct (r <? 0); [|by exists e2]. apply (cannot_cd_prints m2 e2 _ (cd_path l)); [lia|done|done]. }
    destruct Hw as (e3 & Ew & Hi3 & Ha3). exists (inl tt), m2, e3. split; [|split; [congruence|]].
    + rewrite !(bind_Ok _ _ _ _ _ (uload_ok _ _ _)), Hcd. cbv iota.
      rewrite (bind_Ok _ _ _ _ _ (upure_ok _ _ _ _ (Hl m1 l Hs Hlen))), (bind_Ok _ _ _ _ _ (ustore_ok _ _ _ _)).
      fold m2. rewrite (bind_Ok _ _ _ _ _ (upure_ok _ _ _ _ (strlen_str_at 100 m2 (buf + 3) (cd_path l) Hpath Hpl Hsmall))).
      rewrite (bind_Ok _ _ _ m2 _) by done. rewrite Nat2Z.id, Hr, (bind_Ok _ _ _ _ _ (oscall_ok _ _ _ _ _ Hch)).
      by rewrite (bind_Ok _ _ _ _ _ Ew).
    + exists [Chdir (cd_path l)]. split; [done|]. split; [by constructor|]. congruence.
  - destruct (law_fork e1) as (Hi2 & Ha2 & Hr2). destruct (os_fork e1) as [r e2] eqn:Hf. cbn [fst snd] in *.
    rewrite !(bind_Ok _ _ _ _ _ (uload_ok _ _ _)), Hcd. cbv iota. rewrite (bind_Ok _ _ _ _ _ (oscall_ok _ _ _ _ _ Hf)).
    destruct (Z.eqb_spec r (-1)) as [->|Hn1]; [|destruct (Z.eqb_spec r 0) as [->|Hn0]].
    + destruct (prints_text 100 fork_text [] ltac:(repeat constructor; discriminate) m1 e2) as (e3 & E3 & Hi3 & Ha3).
      exists (inr (inl 1)), m1, e3. split; [by rewrite (bind_Ok _ _ _ _ _ E3)|]. split; [congruence|]. split_and!; try done. congruence.
    + exists (inr (inr (run_line l))), m1, e2. split; [|split; [congruence|]; split_and!; try done; congruence].
      rewrite (bind_Ok _ _ _ _ _ (upure_ok _ _ _ _ (Hl m1 l Hs Hlen))). rewrite (bind_Ok _ _ _ m1 _) by done.
      by rewrite Nat2Z.id, (str_at_mread _ _ _ Hs).
    + destruct (law_wait e2) as [Hi3 Ha3]. destruct (os_wait e2) as [w e3] eqn:Hw. cbn [snd] in *.
      exists (inl tt), m1, e3. split; [by rewrite (bind_Ok _ _ _ _ _ (oscall_ok _ _ _ _ _ Hw))|]. split; [congruence|].
      exists [Forked r; Waited]. split; [done|]. split; [constructor; [done|lia]|]. rewrite Ha3, Ha2, Ha. by rewrite <- app_assoc.
Qed.

Lemma console_loop f opened mem e :
  (length opened + f = 4)%nat -> NoDup opened -> Forall (fun fd => 0 <= fd < 3) opened ->
  (forall fd, fd ∈ opened -> fd ∈ fds e) ->
  exists e', while f (fun _ : unit =>
      let* fd := oscall (os_open console_text 2) in
      if fd <? 0 then ret (inr tt) else
      if 3 <=? fd then let* _ := oscall (os_close fd) in ret (inr tt) else ret (inl tt)) tt (US mem e) = Ok tt (US mem e') /\
    input e' = input e /\ acts e' = acts e.
Proof.
  revert opened e. induction f as [|f IH]; intros opened e Hlen Hnd Hr Hin.
  - assert (Hsub : opened ⊆+ [0; 1; 2]).
    { apply NoDup_submseteq; [done|]. intros x Hx. pose proof (proj1 (Forall_forall _ _) Hr x Hx) as Hx3. simpl in Hx3.
      rewrite !elem_of_cons. lia. }
    apply submseteq_length in Hsub. simpl in Hsub. lia.
  - destruct (law_open console_text 2 e) as (Hi & Ha & Ho). destruct (os_open console_text 2 e) as [r e1] eqn:Eo. cbn [fst snd] in *.
    destruct (Z.ltb_spec r 0) as [Hneg|Hneg].
    { exists e1. split; [|done]. apply while_inr. rewrite (bind_Ok _ _ _ _ _ (oscall_ok _ _ _ _ _ Eo)).
      by rewrite (proj2 (Z.ltb_lt r 0)). }
    destruct Ho as [|[Hnew Hfds]]; [lia|]. destruct (Z.leb_spec 3 r) as [H3|H3].
    { destruct (law_close r e1) as [Hi2 Ha2]. destruct (os_close r e1) as [w e2] eqn:Ec. cbn [snd] in *.
      exists e2. split; [|split; congruence]. apply while_inr. rewrite (bind_Ok _ _ _ _ _ (oscall_ok _ _ _ _ _ Eo)).
      rewrite (proj2 (Z.ltb_ge r 0)), (proj2 (Z.leb_le 3 r)) by done. by rewrite (bind_Ok _ _ _ _ _ (oscall_ok _ _ _ _ _ Ec)). }
    destruct (IH (r :: opened) e1) as (e2 & E2 & Hi2 & Ha2).
    + simpl. lia.
    + constructor; [|done]. intros Hr'. by apply Hnew, Hin.
    + by constructor.
    + intros x [->|Hx]%elem_of_cons; rewrite Hfds; [by left|right; by apply Hin].
    + exists e2. split; [|split; congruence]. rewrite <- E2. apply while_inl.
      rewrite (bind_Ok _ _ _ _ _ (oscall_ok _ _ _ _ _ Eo)).
      by rewrite (proj2 (Z.ltb_ge r 0)), (proj2 (Z.leb_gt 3 r)) by done.
Qed.

(** What a run of the shell has come to. *)
Inductive session (ls : list (list Z)) : Z + @prog (list Z) -> list action -> list Z -> Prop :=
| se_eof a : lines_acts ls a -> session ls (inl 0) a []
| se_child done l rest a :
    ls = done ++ l :: rest -> lines_acts done a -> is_cd l = false ->
    session ls (inr (run_line l)) (a ++ [Forked 0]) (concat rest)
| se_fork_failed done l rest a :
    ls = done ++ l :: rest -> lines_acts done a -> is_cd l = false ->
    session ls (inl 1) (a ++ [Forked (-1)]) (concat rest).

Lemma session_cons l ls a r b rest :
  line_acts l a -> session ls r b rest -> session (l :: ls) r (a ++ b) rest.
Proof.
  assert (Hcons : forall ls' b', line_acts l a -> lines_acts ls' b' -> lines_acts (l :: ls') (a ++ b')).
  { intros ls' b' Hl (bs & Hbs & ->). exists (a :: bs). split; [by constructor|done]. }
  intros Hl [b' Hb|dn l' rest' b' -> Hb Hcd|dn l' rest' b' -> Hb Hcd].
  - constructor. by apply Hcons.
  - rewrite app_assoc. apply (se_child _ (l :: dn) l' rest'); [done|by apply Hcons|done].
  - rewrite app_assoc. apply (se_fork_failed _ (l :: dn) l' rest'); [done|by apply Hcons|done].
Qed.

Lemma take_line_nil n l : (take_line (S n) l).1 = [] -> l = [].
Proof. destruct l as [|c l]; [done|]. simpl. destruct (_ || _); [done|]. by destruct (take_line n l). Qed.

Lemma concat_lines_of f l : (length l <= f)%nat -> concat (lines_of f l) = l.
Proof.
  revert l. induction f as [|f IH]; intros [|c l] Hf; try done; [simpl in Hf; lia|].
  cbn [lines_of]. pose proof (take_line_app 99 (c :: l)) as Happ.
  destruct (take_line 99 (c :: l)) as [a b] eqn:E. cbn [fst snd] in Happ. simpl. rewrite IH; [done|].
  apply (f_equal length) in Happ. rewrite length_app in Happ. simpl in Happ, Hf.
  destruct a as [|x a]; [|simpl in Happ; lia].
  pose proof (take_line_nil 98 (c :: l)) as Hnil. rewrite E in Hnil. by specialize (Hnil eq_refl).
Qed.

Lemma main_loop f g mem e :
  plain (input e) -> (length (input e) < f)%nat -> (length (input e) <= g)%nat ->
  exists r a s', while f (main_body cbuf buf) tt (US mem e) = Ok r s' /\
    session (lines_of g (input e)) r a (input (uenv s')) /\ acts (uenv s') = acts e ++ a.
Proof.
  revert mem e g. induction f as [|f IH]; intros mem e g Hp Hf Hg; [lia|].
  pose proof (main_body_line mem e Hp) as B. pose proof (take_line_app 99 (input e)) as Happ.
  pose proof (take_line_nil 98 (input e)) as Hnil.
  destruct (take_line 99 (input e)) as [a b] eqn:E. cbn [fst snd] in *.
  destruct B as (r & m1 & e1 & Eb & Hin & Hr).
  assert (Hls : a <> [] -> exists g', lines_of g (input e) = a :: lines_of g' b /\ (length b <= g')%nat /\ (length b < f)%nat).
  { intros Hne. destruct (input e) as [|c l] eqn:El; [simpl in E; by injection E as <- _|].
    destruct g as [|g]; [simpl in Hg; lia|]. exists g. cbn [lines_of]. rewrite E. split; [done|].
    apply (f_equal length) in Happ. rewrite length_app in Happ. destruct a; [done|]. simpl in *. lia. }
  assert (Hpb : plain (input e1)).
  { rewrite Hin. destruct Hp as [H1 H2]. rewrite <- Happ in H1, H2. apply Forall_app in H1 as [_ H1]. by apply Forall_app in H2 as [_ H2]. }
  destruct r as [[]|[n|k]].
  - destruct Hr as (la & Hne & Hla & Ha). destruct (Hls Hne) as (g' & -> & Hg' & Hf').
    rewrite <- Hin in Hg', Hf' |- *. destruct (IH m1 e1 g' Hpb Hf' Hg') as (r & a2 & s' & Er & Hs & Ha2).
    exists r, (la ++ a2), s'. split; [by rewrite (while_inl _ _ _ _ _ _ Eb)|]. split; [by apply session_cons|].
    by rewrite Ha2, Ha, <- app_assoc.
  - exists (inl n), (if n =? 0 then [] else [Forked (-1)]), (US m1 e1). split; [by apply while_inr|].
    cbn [uenv]. destruct (Z.eqb_spec n 0) as [->|Hn].
    + destruct Hr as [-> Ha]. rewrite (Hnil eq_refl) in *. rewrite Hin, app_nil_r. simpl in E. injection E as <-.
      split; [|done]. destruct g; (constructor; by exists []).
    + assert (Hr' : n = 1 /\ a <> [] /\ is_cd a = false /\ acts e1 = acts e ++ [Forked (-1)]) by (destruct n; [done|exact Hr|exact Hr]).
      destruct Hr' as (-> & Hne & Hcd & Ha). destruct (Hls Hne) as (g' & -> & Hg' & Hf'). split; [|done].
      rewrite Hin. rewrite <- (concat_lines_of g' b) at 2 by done. apply (se_fork_failed _ [] a _ []); [done|by exists []|done].
  - destruct Hr as (Hne & Hcd & -> & Ha). destruct (Hls Hne) as (g' & -> & Hg' & Hf').
    exists (inr (run_line a)), [Forked 0], (US m1 e1). split; [by apply while_inr|]. split; [|done]. cbn [uenv].
    rewrite Hin. rewrite <- (concat_lines_of g' b) at 2 by done. apply (se_child _ [] a _ []); [done|by exists []|done].
Qed.

(** C33: the shell's loop.  On an input without NULs, whatever the system
    calls answer, [main] first gets its three descriptors in at most four
    [open]s, then takes the input line by line, where a line ends behind a
    newline or carriage return or after 99 characters: for a line that starts
    with "cd " it changes directory, to what follows without the line's last
    character; for any other line it forks, and waits before it takes the next
    one.  It exits with 0 when the input is over, with 1 when a fork fails;
    and in the child of a fork it is [runcmd(parsecmd(...))] of that line. *)
Theorem main_handles_lines fuel mem e :
  plain (input e) -> (length (input e) < fuel)%nat ->
  exists r a s', main fuel cbuf buf (US mem e) = Ok r s' /\
    session (lines (input e)) r a (input (uenv s')) /\ acts (uenv s') = acts e ++ a.
Proof.
  intros Hp Hf. destruct (console_loop 4 [] mem e) as (e1 & E1 & Hi & Ha);
    [done|constructor|constructor|by intros ? ?%not_elem_of_nil|].
  rewrite <- Hi in *. rewrite <- Ha. destruct (main_loop fuel (length (input e1)) mem e1 Hp Hf) as (r & a & s' & Er & Hs); [done|].
  exists r, a, s'. split; [|exact Hs]. unfold main, open_console. by rewrite (bind_Ok _ _ _ _ _ E1).
Qed.
End laws.

(** What [runcmd(parsecmd(buf))] comes to: the command the parser made, with
    its words as they stand in the line, or a syntax error. *)
Lemma cmd_map_ext {V W} (f g : V -> W) c : (forall w, w ∈ cmd_words c -> f w = g w) -> cmd_map f c = cmd_map g c.
Proof.
  induction c as [argv|c IH fl m d|l IHl r IHr|l IHl r IHr|c IH]; simpl; intros H.
  - f_equal. apply list_fmap_ext. intros i x Hx. apply H. by eapply list_elem_of_lookup_2.
  - rewrite IH, (H fl); [done|left|intros w Hw; apply H; by right].
  - rewrite IHl, IHr; [done|intros w Hw; apply H, elem_of_app..]; auto.
  - rewrite IHl, IHr; [done|intros w Hw; apply H, elem_of_app..]; auto.
  - by rewrite IH.
Qed.

Lemma cmd_ok_map {V W} (f : V -> W) c : cmd_ok (cmd_map f c) <-> cmd_ok c.
Proof.
  induction c as [argv|c IH fl m d|l IHl r IHr|l IHl r IHr|c IH]; simpl; [by rewrite length_fmap|by rewrite IH|by rewrite IHl, IHr..|done].
Qed.

Lemma run_line_cases line :
  Forall (fun c => c <> 0) line ->
  (exists c, cmd_ok (texts c) /\ run_line line = run (texts c)) \/
  exists m, m ∈ syntax_errors /\ run_line line = panic m.
Proof.
  intros Hnul. unfold run_line. destruct (parsecmd_cases line Hnul) as [(c & -> & Hg & Ha)|(m & -> & Hm)]; [left|right; by exists m].
  exists c. split; [by apply cmd_ok_map|]. f_equal. apply cmd_map_ext. intros w Hw. by rewrite nulterminate_word.
Qed.

(** ** An example *)

Record demo_env := DE { de_in : list Z; de_acts : list action; de_fds : list Z }.
Definition demo_os : UserOs demo_env := {|
  os_read fd n e := let bs := take (Z.to_nat n) (de_in e) in
    (Z.of_nat (length bs), bs, DE (drop (Z.to_nat n) (de_in e)) (de_acts e) (de_fds e));
  os_write fd bs e := (Z.of_nat (length bs), e);
  os_open p m e := if bool_decide (3 ∈ de_fds e) then (-1, e) else (3, DE (de_in e) (de_acts e) (3 :: de_fds e));
  os_close fd e := (0, e);
  os_fstat fd e := (-1, [], e);
  os_sbrk n e := (-1, e);
|}.
Definition demo_shell_os : ShellOs demo_env := {|
  os_chdir p e := (-1, DE (de_in e) (de_acts e ++ [Chdir p]) (de_fds e));
  os_fork e := (7, DE (de_in e) (de_acts e ++ [Forked 7]) (de_fds e));
  os_wait e := (7, DE (de_in e) (de_acts e ++ [Waited]) (de_fds e));
|}.

Lemma demo_laws : @ShellLaws demo_env demo_os demo_shell_os de_in de_acts de_fds.
Proof.
  split; try done.
  - intros n [i a f] Hn. eexists _, _. split; [reflexivity|]. simpl. split; [by rewrite take_drop|].
    split; [rewrite length_take; lia|]. split; [done|].
    intros H%(f_equal length). rewrite length_take in H. simpl in H. destruct i; [by right|left]. simpl in H. lia.
  - intros p m [i a f]. cbn [os_open demo_os de_fds de_in de_acts]. case_bool_decide; simpl; (split; [done|]; split; [done|]).
    + left. lia.
    + by right.
Qed.

(** "cd /a\nls\ncd b": the last line has no newline, and its path is cut. *)
Definition demo_input : list Z := [99; 100; 32; 47; 97; 10; 108; 115; 10; 99; 100; 32; 98].

Example demo_lines : lines demo_input = [[99; 100; 32; 47; 97; 10]; [108; 115; 10]; [99; 100; 32; 98]].
Proof. reflexivity. Qed.

Example demo_main :
  match @main demo_env demo_os demo_shell_os 14 500 1000 (US ∅ (DE demo_input [] [0; 1; 2])) with
  | Ok r s => r = inl 0 /\ de_acts (uenv s) = [Chdir [47; 97]; Forked 7; Waited; Chdir []]
  | _ => False
  end.
Proof. vm_compute. by split. Qed.

Lemma main_handles_lines_witness :
  exists r a s', @main demo_env demo_os demo_shell_os 14 500 1000 (US ∅ (DE demo_input [] [0; 1; 2])) = Ok r s' /\
    session (lines demo_input) r a (de_in (uenv s')) /\ de_acts (uenv s') = a.
Proof.
  apply (main_handles_lines (laws := demo_laws) 500 1000 ltac:(lia) ltac:(by left) 14 ∅ (DE demo_input [] [0; 1; 2])).
  - split; [|repeat constructor; discriminate]. apply (bool_decide_unpack _). by vm_compute.
  - simpl. lia.
Defined.
