(* ===== verification/Umalloc.v ===== *)
(** The storage allocator of user programs (user/umalloc.c), Kernighan and
    Ritchie's circular free list in address order.

    Headers are sixteen bytes of the process's memory: the pointer to the next
    free block, and the size of the block in units of the header's size, the
    header included. *)

From S2P Require Import Prelude CInt Machine KString KStringThm Ulib.

(** ** Headers *)

(** [sizeof(Header)] *)
Definition HDR : Z := 16.

(** [p->s.ptr] and [p->s.size]. *)
Definition hptr (m : gmap Z Z) (p : Z) : Z := le_combine (mread m p 8).
Definition hsize (m : gmap Z Z) (p : Z) : Z := le_combine (mread m (p + 8) 4).
Definition set_hptr (m : gmap Z Z) (p v : Z) : gmap Z Z := mwrite m p (le_split 8 v).
Definition set_hsize (m : gmap Z Z) (p v : Z) : gmap Z Z := mwrite m (p + 8) (le_split 4 v).

Section umalloc.
Context {R : Type} {os : UserOs R}.
Abbreviation U := (UState R).

(** The addresses of the two static variables. *)
Context (base freep_ : Z).

Definition ptr (p : Z) : M U Z := Machine.gets (fun s => hptr (umem s) p).
Definition size (p : Z) : M U Z := Machine.gets (fun s => hsize (umem s) p).
Definition set_ptr (p v : Z) : M U unit := umemory (fun m => set_hptr m p v).
Definition set_size (p v : Z) : M U unit := umemory (fun m => set_hsize m p v).
Definition freep : M U Z := ptr freep_.
Definition set_freep (v : Z) : M U unit := set_ptr freep_ v.

(** The search for the place of [bp]; [n] bounds the blocks visited. *)
Definition free_find (n : nat) (bp p : Z) : M U Z :=
  while n (fun p =>
    let* nx := ptr p in
    if (p <? bp) && (bp <? nx) then ret (inr p) else
    if (nx <=? p) && ((p <? bp) || (bp <? nx)) then ret (inr p) else
    ret (inl nx)) p.

Definition free (n : nat) (ap : Z) : M U unit :=
  let bp := ap - HDR in
  let* f := freep in
  let* p := free_find n bp f in
  let* sz := size bp in
  let* nx := ptr p in
  (if bp + HDR * sz =? nx then
     let* nsz := size nx in
     set_size bp (u32 (sz + nsz));;;
     let* nnx := ptr nx in
     set_ptr bp nnx
   else set_ptr bp nx);;;
  let* psz := size p in
  (if p + HDR * psz =? bp then
     let* bsz := size bp in
     set_size p (u32 (psz + bsz));;;
     let* bnx := ptr bp in
     set_ptr p bnx
   else set_ptr p bp);;;
  set_freep p.

(** [sbrk] takes an [int]; -1 is its error. *)
Definition morecore (n : nat) (nu : Z) : M U Z :=
  let nu := if nu <? 4096 then 4096 else nu in
  let* p := oscall (os_sbrk (s32 (nu * HDR))) in
  if p =? -1 then ret 0 else
  set_size p nu;;;
  free n (p + HDR);;;
  freep.

(** One block of the search in [malloc]. *)
Definition malloc_body (n : nat) (nunits : Z) : Z * Z -> M U (Z * Z + Z) := fun '(prevp, p) =>
  let* sz := size p in
  if nunits <=? sz then
    let* r :=
      (if sz =? nunits then
         let* nx := ptr p in
         set_ptr prevp nx;;;
         ret p
       else
         set_size p (u32 (sz - nunits));;;
         let* sz := size p in
         let p := p + HDR * sz in
         set_size p nunits;;;
         ret p) in
    set_freep prevp;;;
    ret (inr (r + HDR))
  else
    let* f := freep in
    if p =? f then
      let* p := morecore n nunits in
      if p =? 0 then ret (inr 0) else
      let* nx := ptr p in ret (inl (p, nx))
    else
      let* nx := ptr p in ret (inl (p, nx)).

Definition malloc (n : nat) (nbytes : Z) : M U Z :=
  let nunits := u32 ((nbytes + HDR - 1) / HDR + 1) in
  let* f := freep in
  let* prevp :=
    (if f =? 0 then
       set_freep base;;;
       set_ptr base base;;;
       set_size base 0;;;
       ret base
     else ret f) in
  let* p := ptr prevp in
  while n (malloc_body n nunits) (prevp, p).
End umalloc.

(** ** Reading back headers *)

Lemma hptr_set_hptr m p v : 0 <= v < W64 -> hptr (set_hptr m p v) p = v.
Proof.
  intros Hv. unfold hptr, set_hptr. rewrite <- (le_split_length 8 v) at 2.
  rewrite mwrite_read by apply le_split_bytes. rewrite le_combine_split. apply Z.mod_small. lia.
Qed.

Lemma hsize_set_hsize m p v : 0 <= v < W32 -> hsize (set_hsize m p v) p = v.
Proof.
  intros Hv. unfold hsize, set_hsize. rewrite <- (le_split_length 4 v) at 2.
  rewrite mwrite_read by apply le_split_bytes. rewrite le_combine_split. apply Z.mod_small. lia.
Qed.

Lemma mget_set_hptr m p v b : ~ (p <= b < p + 8) -> mget (set_hptr m p v) b = mget m b.
Proof. intros. apply mwrite_frame. rewrite le_split_length. lia. Qed.

Lemma mget_set_hsize m p v b : ~ (p + 8 <= b < p + 12) -> mget (set_hsize m p v) b = mget m b.
Proof. intros. apply mwrite_frame. rewrite le_split_length. lia. Qed.

(** Headers depend on their own bytes only. *)
Lemma hptr_ext m m' p :
  (forall b, p <= b < p + 8 -> mget m' b = mget m b) -> hptr m' p = hptr m p.
Proof. intros H. unfold hptr. f_equal. apply mread_ext. intros. apply H. lia. Qed.

Lemma hsize_ext m m' p :
  (forall b, p + 8 <= b < p + 12 -> mget m' b = mget m b) -> hsize m' p = hsize m p.
Proof. intros H. unfold hsize. f_equal. apply mread_ext. intros. apply H. lia. Qed.

Lemma hptr_set_hptr_ne m p v q : p + 8 <= q \/ q + 8 <= p -> hptr (set_hptr m p v) q = hptr m q.
Proof. intros. apply hptr_ext. intros. apply mget_set_hptr. lia. Qed.

Lemma hsize_set_hptr m p v q : p + 8 <= q + 8 \/ q + 12 <= p -> hsize (set_hptr m p v) q = hsize m q.
Proof. intros. apply hsize_ext. intros. apply mget_set_hptr. lia. Qed.

Lemma hptr_set_hsize m p v q : p + 12 <= q \/ q + 8 <= p + 8 -> hptr (set_hsize m p v) q = hptr m q.
Proof. intros. apply hptr_ext. intros. apply mget_set_hsize. lia. Qed.

Lemma hsize_set_hsize_ne m p v q : p + 12 <= q + 8 \/ q + 12 <= p + 8 -> hsize (set_hsize m p v) q = hsize m q.
Proof. intros. apply hsize_ext. intros. apply mget_set_hsize. lia. Qed.

Lemma hptr_range m p : 0 <= hptr m p < W64.
Proof.
  pose proof (le_combine_range _ (mread_bytes m p 8)) as H. rewrite mread_length in H. exact H.
Qed.

Lemma hsize_range m p : 0 <= hsize m p < W32.
Proof.
  pose proof (le_combine_range _ (mread_bytes m (p + 8) 4)) as H. rewrite mread_length in H. exact H.
Qed.

(** A request of 2^31 bytes makes [morecore] call [sbrk] with a negative
    argument: the product is a 64-bit value, the parameter an [int]. *)
Example morecore_negative : s32 (u32 ((W31 + HDR - 1) / HDR + 1) * HDR) < 0.
Proof. reflexivity. Qed.
