(* ===== verification/UmallocThm.v ===== *)
(** Correctness of the storage allocator of user/umalloc.c.

    The free list is read back from memory as a list of blocks in address
    order ([free_list]); the blocks handed out are a map from addresses to
    sizes; [heap] says that the two share no byte and stay below the break.
    The theorems are that [malloc] and [free] keep [heap] and the contents of
    the blocks handed out. *)

From Stdlib Require Import Sorting.Sorted.
From S2P Require Import Prelude CInt Machine KString KStringThm Ulib Umalloc.

(** ** Blocks and the free list *)

(** A block: the address of its header, its size in units. *)
Abbreviation block := (Z * Z)%type.
Definition bend (b : block) : Z := b.1 + HDR * b.2.

(** The segment of the list from [p] to [q]. *)
Fixpoint lseg (m : gmap Z Z) (p : Z) (l : list block) (q : Z) : Prop :=
  match l with
  | [] => p = q
  | (a, n) :: l => p = a /\ hsize m a = n /\ lseg m (hptr m a) l q
  end.

Lemma lseg_app m p l1 l2 q :
  lseg m p (l1 ++ l2) q <-> exists r, lseg m p l1 r /\ lseg m r l2 q.
Proof.
  revert p. induction l1 as [|[a n] l1 IH]; intros p; simpl.
  - naive_solver.
  - rewrite IH. naive_solver.
Qed.

(** A change of memory that spares the headers of the segment. *)
Lemma lseg_frame m m' p l q :
  (forall b k, (b, k) ∈ l -> hptr m' b = hptr m b /\ hsize m' b = hsize m b) ->
  lseg m p l q -> lseg m' p l q.
Proof.
  revert p. induction l as [|[a n] l IH]; intros p H; [done|]. simpl. intros (-> & Hn & Hl).
  destruct (H a n ltac:(left)) as [-> ->]. split; [done|]. split; [done|].
  apply IH; [|done]. intros b k Hb. apply (H b k). by right.
Qed.

(** [l] in address order, above [lo], no two blocks adjacent. *)
Fixpoint ordered (lo : Z) (l : list block) : Prop :=
  match l with
  | [] => True
  | b :: l => lo < b.1 /\ 1 <= b.2 /\ ordered (bend b) l
  end.

Lemma ordered_app lo l1 l2 :
  ordered lo (l1 ++ l2) <-> ordered lo l1 /\ ordered (default lo (bend <$> last l1)) l2.
Proof.
  revert lo. induction l1 as [|b l1 IH]; intros lo; [simpl; naive_solver|].
  cbn [app ordered]. rewrite IH. rewrite last_cons. destruct (last l1); simpl; naive_solver.
Qed.

Lemma ordered_lower lo lo' l : lo' <= lo -> ordered lo l -> ordered lo' l.
Proof. destruct l; simpl; [done|]. intros ? (? & ? & ?). split; [lia|done]. Qed.

Lemma ordered_elem lo l b : ordered lo l -> b ∈ l -> lo < b.1 /\ 1 <= b.2.
Proof.
  revert lo. induction l as [|c l IH]; intros lo H Hb; [by apply elem_of_nil in Hb|].
  destruct H as (H1 & H2 & H3). apply elem_of_cons in Hb as [->|Hb]; [done|].
  destruct (IH _ H3 Hb). unfold bend, HDR in *. split; [|done]. lia.
Qed.

Lemma ordered_unique lo l a k i : ordered lo l -> (a, k) ∈ l -> (a, i) ∈ l -> k = i.
Proof.
  revert lo. induction l as [|c l IH]; intros lo Ho Hk Hi; [by apply elem_of_nil in Hk|].
  destruct Ho as (_ & Hc & Ho).
  assert (Hlt : forall j, (a, j) ∈ l -> c.1 < a).
  { intros j Hj. apply (ordered_elem _ _ _ Ho) in Hj as [Hj _]. unfold bend, HDR in Hj. simpl in Hj. lia. }
  apply elem_of_cons in Hk as [Hk|Hk], Hi as [Hi|Hi]; [congruence| | |by eapply IH].
  - apply Hlt in Hi. subst c. simpl in Hi. lia.
  - apply Hlt in Hk. subst c. simpl in Hk. lia.
Qed.

Lemma ordered_before lo l q c :
  ordered lo l -> default lo (bend <$> last l) < q -> c ∈ l -> bend c <= q.
Proof.
  intros Ho Hq (A & B & ->)%list_elem_of_split. apply ordered_app in Ho as [_ (_ & _ & HoB)].
  rewrite last_app_cons in Hq. induction B as [|d B' _] using rev_ind; [simpl in Hq; lia|].
  rewrite app_comm_cons, last_snoc in Hq. simpl in Hq.
  apply ordered_elem with (b := d) in HoB; [|apply elem_of_app; right; left].
  unfold bend, HDR in *. lia.
Qed.

(** ** The place of a block in the list *)

(** The exit test of the search in [free] for the block at [bp], at a block
    [p] whose successor is [nx]. *)
Definition found (bp p nx : Z) : bool :=
  (p <? bp) && (bp <? nx) || (nx <=? p) && ((p <? bp) || (bp <? nx)).

Lemma lseg_next m p l1 a n l2 q :
  lseg m p (l1 ++ (a, n) :: l2) q -> hptr m a = default q (fst <$> head l2) /\ hsize m a = n.
Proof.
  intros (r & _ & (-> & Hn & H))%lseg_app. split; [|done].
  destruct l2 as [|[b k] l2]; simpl in *; [done|]. by destruct H.
Qed.

Lemma lseg_head m p l q : lseg m p l q -> p = default q (fst <$> head l).
Proof. destruct l as [|[a n] l]; simpl; [done|]. naive_solver. Qed.

(** The cycle can be entered at any of its blocks. *)
Lemma lseg_rotate m p l1 b l2 :
  lseg m p (l1 ++ b :: l2) p -> lseg m b.1 ((b :: l2) ++ l1) b.1.
Proof.
  destruct b as [a n]. intros (r & H1 & H2)%lseg_app. apply lseg_app.
  exists p. pose proof H2 as (-> & _). done.
Qed.

Section find.
Context {R : Type} {os : UserOs R}.
Implicit Types s : UState R.

Lemma free_step s n bp p :
  free_find (Datatypes.S n) bp p s =
    if found bp p (hptr (umem s) p) then Ok p s else free_find n bp (hptr (umem s) p) s.
Proof.
  unfold free_find, found, ptr. cbn [while]. mred.
  destruct ((p <? bp) && _); [done|]. simpl. by destruct ((hptr (umem s) p <=? p) && _).
Qed.

Lemma free_walk s bp p f l q n :
  lseg (umem s) f l q -> p ∈ l.*1 -> (length l <= n)%nat ->
  (forall a k, (a, k) ∈ l -> found bp a (hptr (umem s) a) = true <-> a = p) ->
  free_find n bp f s = Ok p s.
Proof.
  revert f n. induction l as [|[a k] l IH]; intros f n Hl Hp Hn Hex; [by apply elem_of_nil in Hp|].
  destruct Hl as (-> & Hk & Hl). destruct n as [|n]; [simpl in Hn; lia|]. rewrite free_step.
  specialize (Hex a k ltac:(left)) as Ha. destruct (found bp a (hptr (umem s) a)).
  - f_equal. by apply Ha.
  - apply IH; [done| |simpl in Hn; lia|].
    + apply elem_of_cons in Hp as [->|Hp]; [discriminate (proj2 Ha eq_refl)|done].
    + intros b j Hb. apply (Hex b j). by right.
Qed.
End find.

Lemma sorted_split (L1 : list Z) a L2 :
  StronglySorted Z.lt (L1 ++ a :: L2) -> (forall x, x ∈ L1 -> x < a) /\ (forall x, x ∈ L2 -> a < x).
Proof.
  induction L1 as [|y L1 IH]; simpl; intros H.
  - apply StronglySorted_inv in H as [_ H]. rewrite Forall_forall in H. split; [|done].
    intros x Hx. by apply elem_of_nil in Hx.
  - apply StronglySorted_inv in H as [H Hy]. destruct (IH H) as [H1 H2]. split; [|done].
    rewrite Forall_forall in Hy. intros x [->|Hx]%elem_of_cons; [|by apply H1].
    apply Hy, elem_of_app. right. left.
Qed.

Lemma ordered_sorted lo l : ordered lo l -> StronglySorted Z.lt (lo :: l.*1).
Proof.
  revert lo. induction l as [|b l IH]; intros lo H; [repeat constructor|].
  destruct H as (H1 & H2 & H3). specialize (IH _ H3). apply StronglySorted_inv in IH as [IH Hb].
  rewrite fmap_cons. rewrite Forall_forall in Hb.
  assert (Hlt : forall x, x ∈ l.*1 -> b.1 < x).
  { intros x Hx. specialize (Hb x Hx). unfold bend, HDR in Hb. lia. }
  constructor; [constructor; [done|by apply Forall_forall]|].
  apply Forall_forall. intros x [->|Hx]%elem_of_cons; [done|]. specialize (Hlt x Hx). lia.
Qed.

(** The exit test holds at the last block before [bp] and nowhere else. *)
Lemma found_iff bp p base L1 L2 L3 a L4 :
  StronglySorted Z.lt (L1 ++ p :: L2) -> L1 ++ p :: L2 = L3 ++ a :: L4 ->
  base <= default p (head L1) -> p < bp -> (forall x, x ∈ L2 -> bp < x) ->
  found bp a (default base (head L4)) = true <-> a = p.
Proof.
  intros Hs Heq Hbase Hp HL2.
  pose proof (sorted_split _ _ _ Hs) as [Hlo Hhi]. pose proof Hs as Hs'. rewrite Heq in Hs'.
  pose proof (sorted_split _ _ _ Hs') as [Hlo' Hhi'].
  assert (Hb : forall x, x ∈ L1 ++ p :: L2 -> base <= x).
  { intros x Hx. destruct L1 as [|y L1]; simpl in *.
    - apply elem_of_cons in Hx as [->|Hx]; [done|]. specialize (HL2 x Hx). lia.
    - apply StronglySorted_inv in Hs as [_ Hf]. rewrite Forall_forall in Hf.
      apply elem_of_cons in Hx as [->|Hx]; [done|]. specialize (Hf x Hx). lia. }
  assert (Ha : a ∈ L1 ++ p :: L2) by (rewrite Heq; apply elem_of_app; right; left).
  pose proof (Hb _ Ha) as Hba. pose proof (Hb p ltac:(apply elem_of_app; right; left)) as Hbp.
  assert (Hpos : p ∈ L3 ++ a :: L4) by (rewrite <- Heq; apply elem_of_app; right; left).
  unfold found. destruct (Z.lt_trichotomy a p) as [Hlt|[->|Hgt]].
  - assert (p ∈ L4) as HpL4.
    { apply elem_of_app in Hpos as [H|[->|H]%elem_of_cons]; [specialize (Hlo' _ H); lia|lia|done]. }
    destruct L4 as [|r L4]; [by apply elem_of_nil in HpL4|]. simpl.
    assert (a < r) by (apply Hhi'; left).
    assert (r <= p).
    { apply elem_of_cons in HpL4 as [<-|HpL4]; [lia|].
      assert (Hs2 : StronglySorted Z.lt ((L3 ++ [a]) ++ r :: L4)) by by rewrite <- app_assoc.
      apply sorted_split in Hs2 as [_ Hr]. specialize (Hr _ HpL4). lia. }
    split; [lia|lia].
  - split; [done|intros _]. destruct L4 as [|r L4]; simpl; [lia|].
    assert (bp < r); [|lia]. apply HL2.
    assert (r ∈ L1 ++ p :: L2) as Hr by (rewrite Heq; apply elem_of_app; right; right; left).
    assert (p < r) by (apply Hhi'; left).
    apply elem_of_app in Hr as [H'|[->|H']%elem_of_cons]; [specialize (Hlo _ H'); lia|lia|done].
  - assert (bp < a).
    { apply elem_of_app in Ha as [H|[->|H]%elem_of_cons]; [specialize (Hlo _ H); lia|lia|by apply HL2]. }
    destruct L4 as [|r L4]; simpl; [split; lia|].
    assert (a < r) by (apply Hhi'; left). split; lia.
Qed.

(** ** The heap *)

Definition covers (b : block) (x : Z) : Prop := b.1 <= x < bend b.
Definition covered (l : list block) (x : Z) : Prop := exists b, b ∈ l /\ covers b x.

Lemma covered_cons b l x : covered (b :: l) x <-> covers b x \/ covered l x.
Proof. unfold covered. setoid_rewrite elem_of_cons. naive_solver. Qed.

Lemma covered_app l1 l2 x : covered (l1 ++ l2) x <-> covered l1 x \/ covered l2 x.
Proof. unfold covered. setoid_rewrite elem_of_app. naive_solver. Qed.

Lemma covered_nil x : covered [] x <-> False.
Proof. unfold covered. split; [|done]. intros (b & Hb & _). by apply elem_of_nil in Hb. Qed.

(** Two adjacent blocks as one. *)
Lemma covers_join a k b n x :
  0 <= k -> 0 <= n -> a + HDR * k = b -> covers (a, k + n) x <-> covers (a, k) x \/ covers (b, n) x.
Proof.
  intros Hk Hn <-. unfold covers, bend, HDR. cbn [fst snd].
  destruct (Z.lt_ge_cases x (a + 16 * k)); lia.
Qed.

(** Where a block that overlaps no block of the list belongs. *)
Lemma place lo l b :
  ordered lo l -> 1 <= b.2 -> (forall x, covers b x -> ~ covered l x) ->
  exists l1 l2, l = l1 ++ l2 /\ (forall c, c ∈ l1 -> bend c <= b.1) /\ (forall c, c ∈ l2 -> bend b <= c.1).
Proof.
  intros Ho Hb. revert lo Ho. induction l as [|c l IH]; intros lo Ho Hd.
  { exists [], []. split; [done|]. split; intros c Hc; by apply elem_of_nil in Hc. }
  destruct Ho as (H1 & H2 & H3).
  assert (Hc : bend c <= b.1 \/ bend b <= c.1).
  { destruct (Z.le_gt_cases (bend c) b.1); [by left|]. destruct (Z.le_gt_cases (bend b) c.1); [by right|].
    exfalso. apply (Hd (Z.max b.1 c.1)); [unfold covers, bend, HDR in *; lia|].
    apply covered_cons. left. unfold covers, bend, HDR in *. lia. }
  destruct Hc as [Hc|Hc].
  - destruct (IH _ H3) as (l1 & l2 & -> & Hl1 & Hl2).
    { intros x Hx Hcov. apply (Hd x Hx), covered_cons. by right. }
    exists (c :: l1), l2. split; [done|]. split; [|done].
    intros d [->|Hd']%elem_of_cons; [done|by apply Hl1].
  - exists [], (c :: l). split; [done|]. split; [intros d Hd'; by apply elem_of_nil in Hd'|].
    intros d [->|Hd']%elem_of_cons; [done|].
    destruct (ordered_elem _ _ _ H3 Hd'). unfold bend, HDR in *. lia.
Qed.

Section heap.
Context {R : Type} {os : UserOs R}.
Context (base freep_ lo : Z).
Implicit Types s : UState R.
Implicit Types fl : list block.

(** Where the program's static variables and its heap may lie: the heap is
    above the data segment, and a size in units fits in a [uint]. *)
Definition TOP : Z := HDR * W32.
Definition statics : Prop :=
  0 < base /\ 0 < freep_ /\ base + HDR <= lo /\ freep_ + 8 <= lo /\
  (base + HDR <= freep_ \/ freep_ + 8 <= base).

Definition is_static (a : Z) : Prop := base <= a < base + HDR \/ freep_ <= a < freep_ + 8.

(** The free list threaded through memory [m]. *)
Record free_list (m : gmap Z Z) fl : Prop := FreeList {
  fl_ring : lseg m base ((base, 0) :: fl) base;
  fl_ordered : ordered (lo - 1) fl;
  fl_freep : hptr m freep_ ∈ base :: fl.*1;
  fl_top : forall b, b ∈ fl -> bend b < TOP;
}.

Context (Hst : statics).

Lemma fl_sorted m fl : free_list m fl -> StronglySorted Z.lt (base :: fl.*1).
Proof.
  intros [_ Ho _ _]. apply ordered_sorted. eapply ordered_lower; [|exact Ho].
  destruct Hst as (? & ? & ? & _). unfold HDR in *. lia.
Qed.

(** The search finds the last block before the new one. *)
Lemma free_find_ok s fl l1 l2 bp n :
  free_list (umem s) fl -> fl = l1 ++ l2 -> lo <= bp ->
  (forall c, c ∈ l1 -> bend c <= bp) -> (forall c, c ∈ l2 -> bp < c.1) ->
  (length fl < n)%nat ->
  free_find n bp (hptr (umem s) freep_) s = Ok (default base (last (base :: l1.*1))) s.
Proof.
  intros Hfl -> Hbp Hl1 Hl2 Hn. pose proof (fl_sorted _ _ Hfl) as Hs. destruct Hfl as [Hr Ho Hf _].
  rewrite fmap_app in Hf. rewrite fmap_app in Hs.
  assert (Hsnoc : exists L p, base :: l1.*1 = L ++ [p] /\ p < bp).
  { destruct (exists_last (l := base :: l1.*1)) as (L & p & HL); [done|]. exists L, p. split; [done|].
    assert (Hp : p ∈ base :: l1.*1) by (rewrite HL; apply elem_of_app; right; left).
    apply elem_of_cons in Hp as [->|([a k] & -> & Hk)%list_elem_of_fmap].
    - destruct Hst as (? & ? & ? & _). unfold HDR in *. lia.
    - specialize (Hl1 _ Hk). apply (ordered_elem _ _ (a, k)) in Ho as [_ ?]; [|by apply elem_of_app; left].
      unfold bend, HDR in *. simpl in *. lia. }
  destruct Hsnoc as (L & p & HL & Hp).
  rewrite HL, last_snoc. simpl.
  assert (Hall : base :: l1.*1 ++ l2.*1 = L ++ p :: l2.*1).
  { change (base :: l1.*1 ++ l2.*1) with ((base :: l1.*1) ++ l2.*1). by rewrite HL, <- app_assoc. }
  rewrite Hall in Hs. 
  assert (Hfound : forall a k, (a, k) ∈ (base, 0) :: l1 ++ l2 -> found bp a (hptr (umem s) a) = true <-> a = p).
  { intros a k Hin. apply list_elem_of_split in Hin as (L3 & L4 & Heq).
    rewrite Heq in Hr. destruct (lseg_next _ _ _ _ _ _ _ Hr) as [-> _].
    assert (Heq' : L ++ p :: l2.*1 = L3.*1 ++ a :: L4.*1).
    { rewrite <- Hall. apply (f_equal (fmap fst)) in Heq. by rewrite fmap_cons, !fmap_app, fmap_cons in Heq. }
    replace (default base (fst <$> head L4)) with (default base (head L4.*1)) by by destruct L4.
    apply (found_iff bp p base L l2.*1 L3.*1 a L4.*1); [done|done| |done|].
    - clear -HL. destruct L as [|y L]; simpl in HL |- *; injection HL as HL1 HL2; simpl; lia.
    - intros x ([b j] & -> & Hx)%list_elem_of_fmap. by apply (Hl2 (b, j)). }
  assert (Hin : hptr (umem s) freep_ ∈ ((base, 0) :: l1 ++ l2).*1) by by rewrite fmap_cons, fmap_app.
  apply list_elem_of_fmap in Hin as ([f k] & Hfk & Hin). rewrite Hfk. cbn [fst].
  apply list_elem_of_split in Hin as (A & B & HAB). rewrite HAB in Hr. apply lseg_rotate in Hr. cbn [fst] in Hr.
  eapply free_walk; [exact Hr| | |].
  - assert (p ∈ ((base, 0) :: l1 ++ l2).*1) as Hpin.
    { rewrite fmap_cons, fmap_app. cbn [fst]. rewrite Hall. apply elem_of_app. right. left. }
    rewrite HAB, fmap_app, fmap_cons in Hpin. rewrite fmap_app, fmap_cons.
    apply elem_of_app in Hpin as [?|?]; apply elem_of_app; [by right|by left].
  - apply (f_equal length) in HAB. simpl in HAB |- *. rewrite !length_app in *. simpl in *. lia.
  - intros a j Hin'. apply Hfound with j. rewrite HAB.
    apply elem_of_app in Hin' as [?|?]; apply elem_of_app; [by right|by left].
Qed.

(** What [free] stores: joining the block with the next one, then with the
    one before. *)
Definition up_mem (m : gmap Z Z) (bp nx : Z) : gmap Z Z :=
  if bp + HDR * hsize m bp =? nx then
    let m' := set_hsize m bp (u32 (hsize m bp + hsize m nx)) in set_hptr m' bp (hptr m' nx)
  else set_hptr m bp nx.

Definition low_mem (m : gmap Z Z) (p bp : Z) : gmap Z Z :=
  if p + HDR * hsize m p =? bp then
    let m' := set_hsize m p (u32 (hsize m p + hsize m bp)) in set_hptr m' p (hptr m' bp)
  else set_hptr m p bp.

Lemma free_run s n ap p :
  let bp := ap - HDR in
  free_find n bp (hptr (umem s) freep_) s = Ok p s ->
  free freep_ n ap s =
    Ok tt (s.[umem := set_hptr (low_mem (up_mem (umem s) bp (hptr (umem s) p)) p bp) freep_ p]).
Proof.
  intros bp Hf. unfold free, freep, ptr. fold bp. unfold bind at 1, Machine.gets. cbn [bindO].
  rewrite (bind_Ok _ _ _ _ _ Hf). unfold up_mem, low_mem, size, set_size, set_ptr, set_freep, umemory, ptr.
  destruct s as [m e]. mred. rsimpl_goal.
  destruct (bp + HDR * hsize m bp =? hptr m p); mred; rsimpl_goal;
    match goal with |- context [if ?c then _ else _] => destruct c end; done.
Qed.

Lemma up_mem_frame m bp nx a : ~ (bp <= a < bp + 12) -> mget (up_mem m bp nx) a = mget m a.
Proof.
  intros Ha. unfold up_mem. destruct (_ =? nx); rewrite mget_set_hptr by lia; [|done].
  apply mget_set_hsize. lia.
Qed.

Lemma low_mem_frame m p bp a : ~ (p <= a < p + 12) -> mget (low_mem m p bp) a = mget m a.
Proof. apply up_mem_frame. Qed.

(** Headers outside the changed bytes. *)
Lemma header_frame m m' p q :
  (forall a, ~ (p <= a < p + 12) -> mget m' a = mget m a) -> p + 12 <= q \/ q + 12 <= p ->
  hptr m' q = hptr m q /\ hsize m' q = hsize m q.
Proof. intros H Hd. split; [apply hptr_ext|apply hsize_ext]; intros b Hb; apply H; lia. Qed.

Lemma up_ok m bp n nx l2 :
  hsize m bp = n -> 1 <= n -> lo <= bp -> bend (bp, n) < TOP ->
  lseg m nx l2 base -> ordered (lo - 1) l2 -> (forall c, c ∈ l2 -> bend (bp, n) <= c.1 /\ bend c < TOP) ->
  let m1 := up_mem m bp nx in
  exists n' l2', lseg m1 bp ((bp, n') :: l2') base /\ (n <= n' /\ (length l2' <= length l2)%nat) /\
    ordered (bp - 1) ((bp, n') :: l2') /\ (forall c, c ∈ (bp, n') :: l2' -> bend c < TOP) /\
    (forall x, covered ((bp, n') :: l2') x <-> covers (bp, n) x \/ covered l2 x).
Proof.
  intros Hn Hn1 Hbp Htop Hl Ho Hc m1. destruct Hst as (Hb0 & _ & Hblo & _).
  unfold bend, TOP, HDR in *. cbn [fst snd] in *.
  assert (Hbnx : forall m', hptr (set_hptr m' bp base) bp = base)
    by (intros m'; apply hptr_set_hptr; lia).
  destruct l2 as [|[a k] l2].
  - simpl in Hl. subst nx. unfold m1, up_mem. rewrite Hn.
    destruct (Z.eqb_spec (bp + HDR * n) base); [unfold HDR in *; lia|].
    exists n, []. split; [|split; [simpl; lia|]].
    + simpl. split; [done|]. rewrite hsize_set_hptr by lia. by rewrite Hbnx.
    + split; [simpl; unfold bend; simpl; lia|]. split; [|intros x; by rewrite covered_cons].
      intros c [->|Hc']%elem_of_cons; [simpl; lia|by apply elem_of_nil in Hc'].
  - destruct Hl as (-> & Hk & Hl). destruct (Hc (a, k) ltac:(left)) as [Ha Hak]. cbn [fst snd] in *.
    destruct Ho as (_ & Hk1 & Ho). cbn [fst snd] in *.
    assert (Hl2 : forall c, c ∈ l2 -> a + 16 * k < c.1).
    { intros c Hc'. by apply (ordered_elem _ _ _ Ho). }
    unfold m1, up_mem. rewrite Hn, Hk. unfold HDR.
    destruct (Z.eqb_spec (bp + 16 * n) a) as [Hj|Hj].
    + rewrite u32_small by lia. exists (n + k), l2.
      rewrite hptr_set_hsize by lia. split; [|split; [simpl; lia|]].
      * simpl. split; [done|]. rewrite hsize_set_hptr, hsize_set_hsize by lia. split; [done|].
        rewrite hptr_set_hptr by apply hptr_range. eapply lseg_frame; [|exact Hl].
        intros c j Hc'. specialize (Hl2 (c, j) Hc'). simpl in Hl2.
        rewrite hptr_set_hptr_ne, hptr_set_hsize, hsize_set_hptr, hsize_set_hsize_ne by lia. done.
      * split; [|split].
        -- simpl. split; [lia|]. split; [lia|]. eapply ordered_lower; [|exact Ho].
           unfold bend, HDR. simpl. lia.
        -- intros c [->|Hc']%elem_of_cons; [simpl; lia|]. apply Hc. by right.
        -- intros x. rewrite !covered_cons, (covers_join bp n a k) by (unfold HDR; lia). tauto.
    + exists n, ((a, k) :: l2). split; [|split; [simpl; lia|]].
      * cbn [lseg]. split; [done|]. rewrite hsize_set_hptr by lia. split; [done|].
        rewrite hptr_set_hptr by lia. split; [done|]. rewrite hsize_set_hptr by lia. split; [done|].
        rewrite hptr_set_hptr_ne by lia. eapply lseg_frame; [|exact Hl].
        intros c j Hc'. specialize (Hl2 (c, j) Hc'). simpl in Hl2.
        rewrite hptr_set_hptr_ne, hsize_set_hptr by lia. done.
      * split; [|split].
        -- simpl. unfold bend, HDR. simpl. split; [lia|]. split; [lia|]. split; [lia|]. split; [lia|].
           eapply ordered_lower; [|exact Ho]. unfold bend, HDR. simpl. lia.
        -- intros c [->|Hc']%elem_of_cons; [simpl; lia|]. by apply Hc.
        -- intros x. by rewrite (covered_cons (bp, n)).
Qed.

(** Joining a block [(bp, n)], already linked to what follows it, to the
    block [(p, k)] before it; [first] says that [p] is the static one. *)
Lemma low_mem_step m p k bp n l2 :
  hsize m p = k -> hsize m bp = n -> lseg m bp ((bp, n) :: l2) base ->
  p + HDR <= bp -> p + HDR * k <= bp -> 0 <= k -> 1 <= n -> bp < TOP -> p + HDR * k + HDR * n < TOP ->
  0 <= p -> (forall c, c ∈ l2 -> bp < c.1) ->
  let m2 := low_mem m p bp in
  if p + HDR * k =? bp then lseg m2 p ((p, k + n) :: l2) base
  else lseg m2 p ((p, k) :: (bp, n) :: l2) base.
Proof.
  intros Hk Hn (_ & _ & Hl) Hp1 Hp2 Hk0 Hn1 Hbp Htop Hp0 Hl2 m2. unfold m2, low_mem, TOP, HDR in *.
  rewrite Hk, Hn. destruct (Z.eqb_spec (p + 16 * k) bp) as [He|He]; cbn [lseg].
  - split; [done|]. rewrite u32_small by lia. rewrite hsize_set_hptr, hsize_set_hsize by lia.
    split; [done|]. rewrite hptr_set_hptr by apply hptr_range. rewrite hptr_set_hsize by lia.
    eapply lseg_frame; [|exact Hl]. intros c j Hc. specialize (Hl2 _ Hc). simpl in Hl2.
    rewrite hptr_set_hptr_ne, hptr_set_hsize, hsize_set_hptr, hsize_set_hsize_ne by lia. done.
  - rewrite hsize_set_hptr by lia. split; [done|]. split; [done|].
    rewrite hptr_set_hptr by lia. split; [done|]. rewrite hsize_set_hptr by lia. split; [done|].
    rewrite hptr_set_hptr_ne by lia. eapply lseg_frame; [|exact Hl].
    intros c j Hc. specialize (Hl2 _ Hc). simpl in Hl2.
    rewrite hptr_set_hptr_ne, hsize_set_hptr by lia. done.
Qed.

Lemma low_ok m l1 r bp n l2 :
  lseg m base ((base, 0) :: l1) r -> ordered (lo - 1) l1 -> (forall c, c ∈ l1 -> bend c <= bp) ->
  lo <= bp -> lseg m bp ((bp, n) :: l2) base -> ordered (bp - 1) ((bp, n) :: l2) ->
  (forall c, c ∈ l1 ++ (bp, n) :: l2 -> bend c < TOP) ->
  let p := default base (last (base :: l1.*1)) in
  let m2 := low_mem m p bp in
  exists fl', lseg m2 base ((base, 0) :: fl') base /\ ordered (lo - 1) fl' /\ p ∈ base :: fl'.*1 /\
    ((forall c, c ∈ fl' -> bend c < TOP) /\ (length fl' <= length l1 + S (length l2))%nat) /\
    (forall x, covered fl' x <-> covered l1 x \/ covered ((bp, n) :: l2) x).
Proof.
  intros H1 Ho1 Hl1 Hbp H2 Ho2 Htop p m2. destruct Hst as (Hb0 & _ & Hblo & _).
  destruct Ho2 as (_ & Hn1 & Ho2). cbn [fst snd] in *.
  pose proof H2 as (_ & Hsn & _).
  assert (Hl2 : forall c, c ∈ l2 -> bp < c.1).
  { intros c Hc. apply (ordered_elem _ _ _ Ho2) in Hc as [Hc _]. unfold bend, HDR in Hc. simpl in Hc. lia. }
  assert (Hbt : bend (bp, n) < TOP) by (apply Htop, elem_of_app; right; left).
  induction l1 as [|[q k] l1' _] using rev_ind.
  - unfold p, m2. cbn. destruct H1 as (_ & Hs0 & _).
    pose proof (low_mem_step m base 0 bp n l2 Hs0 Hsn H2) as Hstep. unfold bend, TOP, HDR in *.
    cbn [fst snd] in *. specialize (Hstep ltac:(lia) ltac:(lia) ltac:(lia) Hn1 ltac:(lia) ltac:(lia) ltac:(lia) Hl2).
    cbv zeta in Hstep. destruct (Z.eqb_spec (base + 16 * 0) bp); [lia|].
    exists ((bp, n) :: l2). split; [exact Hstep|]. split; [simpl; split; [lia|]; split; [lia|exact Ho2]|].
    split; [left|]. split; [split; [exact Htop|simpl; lia]|]. intros x. rewrite covered_nil. naive_solver.
  - assert (Hp : p = q).
    { unfold p. rewrite fmap_app, app_comm_cons. cbn [fmap list_fmap fst]. by rewrite last_snoc. }
    apply ordered_app in Ho1 as [Ho1 Hq]. cbn [ordered] in Hq. destruct Hq as (Hlq & Hk1 & _).
    cbn [fst snd] in *. rewrite app_comm_cons in H1.
    apply lseg_app in H1 as (r' & H1 & (-> & Hsq & _)).
    assert (Hqlo : lo <= q).
    { destruct (last l1') as [c|] eqn:El; simpl in Hlq; [|lia].
      apply last_Some_elem_of in El. apply (ordered_elem _ _ _ Ho1) in El. unfold bend, HDR in Hlq. lia. }
    assert (Hl1' : forall c, c ∈ l1' -> bend c <= q).
    { intros c Hc. exact (ordered_before _ _ _ _ Ho1 Hlq Hc). }
    assert (Hqk : bend (q, k) <= bp) by (apply Hl1, elem_of_app; right; left).
    pose proof (low_mem_step m q k bp n l2 Hsq Hsn H2) as Hstep.
    assert (Hframe : lseg m2 base ((base, 0) :: l1') q).
    { eapply lseg_frame; [|exact H1]. intros c j Hc. apply (header_frame _ _ p).
      - intros a. apply low_mem_frame.
      - rewrite Hp. apply elem_of_cons in Hc as [[= -> ->]|Hc].
        + unfold HDR in *. lia.
        + pose proof (ordered_elem _ _ _ Ho1 Hc) as [_ ?]. specialize (Hl1' _ Hc).
          unfold bend, HDR in *. simpl in *. lia. }
    unfold m2 in *. rewrite Hp in *. unfold bend, TOP, HDR in Hstep, Hqk, Hbt, Hblo. cbn [fst snd] in Hqk, Hbt.
    specialize (Hstep ltac:(lia) ltac:(lia) ltac:(lia) Hn1 ltac:(lia) ltac:(lia) ltac:(lia) Hl2).
    cbv zeta in Hstep. destruct (Z.eqb_spec (q + 16 * k) bp) as [He|He].
    + exists (l1' ++ (q, k + n) :: l2). rewrite app_comm_cons. split; [|split; [|split; [|split]]].
      * apply lseg_app. eauto.
      * apply ordered_app. split; [done|]. cbn [ordered fst snd]. split; [done|]. split; [lia|].
        eapply ordered_lower; [|exact Ho2]. unfold bend, HDR. simpl. lia.
      * rewrite fmap_app. right. apply elem_of_app. right. left.
      * split; [|rewrite !length_app; simpl; lia].
        intros c [Hc|[->|Hc]%elem_of_cons]%elem_of_app.
        -- apply Htop. rewrite !elem_of_app. tauto.
        -- unfold bend, TOP, HDR. simpl. lia.
        -- apply Htop. apply elem_of_app. right. by right.
      * intros x. rewrite !covered_app, !covered_cons, covered_nil, (covers_join q k bp n) by (unfold HDR; lia). tauto.
    + exists (l1' ++ (q, k) :: (bp, n) :: l2). rewrite app_comm_cons. split; [|split; [|split; [|split]]].
      * apply lseg_app. eauto.
      * apply ordered_app. split; [done|]. cbn [ordered fst snd]. split; [done|]. split; [lia|].
        split; [unfold bend, HDR; simpl; lia|]. split; [lia|done].
      * rewrite fmap_app. right. apply elem_of_app. right. left.
      * split; [|rewrite !length_app; simpl; lia].
        intros c [Hc|[->|Hc]%elem_of_cons]%elem_of_app; apply Htop; rewrite <- app_assoc; apply elem_of_app;
          [by left|right; left|right; by right].
      * intros x. rewrite !covered_app, !covered_cons, covered_nil. tauto.
Qed.

(** [free] puts the block [(bp, n)] on the list. *)
Lemma free_ok s fl bp n k :
  free_list (umem s) fl -> hsize (umem s) bp = n -> 1 <= n -> lo <= bp -> bend (bp, n) < TOP ->
  (forall x, covers (bp, n) x -> ~ covered fl x) -> (length fl < k)%nat ->
  exists m' fl', free freep_ k (bp + HDR) s = Ok tt (s.[umem := m']) /\ free_list m' fl' /\
    (length fl' <= S (length fl))%nat /\
    (forall x, covered fl' x <-> covered fl x \/ covers (bp, n) x) /\
    (forall a, ~ covered fl a -> ~ covers (bp, n) a -> ~ is_static a -> mget m' a = mget (umem s) a).
Proof.
  intros Hfl Hn Hn1 Hbp Htop Hd Hk. pose proof Hfl as [Hr Ho _ Ht].
  destruct (place _ _ (bp, n) Ho Hn1 Hd) as (l1 & l2 & -> & Hl1 & Hl2). cbn [fst snd] in *.
  assert (Hl2' : forall c, c ∈ l2 -> bp < c.1).
  { intros c Hc. specialize (Hl2 c Hc). unfold bend, HDR in Hl2. cbn [fst snd] in Hl2. lia. }
  pose proof (free_find_ok s _ l1 l2 bp k Hfl eq_refl Hbp Hl1 Hl2' Hk) as Hfind.
  set (p := default base (last (base :: l1.*1))) in *.
  rewrite app_comm_cons in Hr. apply lseg_app in Hr as (r & Hr1 & Hr2).
  (* the successor of [p] *)
  assert (Hnx : hptr (umem s) p = r).
  { clear -Hr1. unfold p. clear p. induction l1 as [|[q j] l1' _] using rev_ind.
    - destruct Hr1 as (_ & _ & <-). done.
    - rewrite fmap_app, app_comm_cons. cbn [fmap list_fmap fst]. rewrite last_snoc. simpl.
      rewrite app_comm_cons in Hr1. apply lseg_app in Hr1 as (r' & _ & (-> & _ & <-)). done. }
  apply ordered_app in Ho as [Ho1 Ho2].
  assert (Ho2' : ordered (lo - 1) l2).
  { eapply ordered_lower; [|exact Ho2]. destruct (last l1) as [c|] eqn:El; simpl; [|lia].
    apply last_Some_elem_of in El. apply (ordered_elem _ _ _ Ho1) in El. unfold bend, HDR. lia. }
  destruct (up_ok (umem s) bp n r l2 Hn Hn1 Hbp Htop Hr2 Ho2') as (n' & l2' & Hu & [Hn' Hulen] & Huo & Hut & Huc).
  { intros c Hc. split; [by apply Hl2|]. apply Ht, elem_of_app. by right. }
  set (m1 := up_mem (umem s) bp r) in *.
  assert (Hm1 : forall q, q + 12 <= bp -> hptr m1 q = hptr (umem s) q /\ hsize m1 q = hsize (umem s) q).
  { intros q Hq. apply (header_frame _ _ bp); [intros a; apply up_mem_frame|lia]. }
  assert (Hr1' : lseg m1 base ((base, 0) :: l1) r).
  { eapply lseg_frame; [|exact Hr1]. intros c j Hc. apply Hm1. destruct Hst as (_ & _ & ? & _).
    apply elem_of_cons in Hc as [[= -> ->]|Hc]; [unfold HDR in *; lia|].
    specialize (Hl1 _ Hc). pose proof (ordered_elem _ _ _ Ho1 Hc) as [_ ?].
    unfold bend, HDR in *. cbn [fst snd] in *. lia. }
  destruct (low_ok m1 l1 r bp n' l2' Hr1' Ho1 Hl1 Hbp Hu Huo) as (fl' & Hring & Hord & Hp & [Htop' Hlen] & Hcov).
  { intros c [Hc|Hc]%elem_of_app; [apply Ht, elem_of_app; by left|by apply Hut]. }
  fold p in Hring, Hp. set (m2 := low_mem m1 p bp) in *.
  pose proof Hst as (Hb0 & Hf0 & Hblo & Hflo & Hbf).
  assert (Hprange : 0 <= p < W64).
  { apply elem_of_cons in Hp as [->|([q j] & -> & Hq)%list_elem_of_fmap].
    - unfold bend, TOP, HDR in *. cbn [fst snd] in *. lia.
    - pose proof (ordered_elem _ _ _ Hord Hq). specialize (Htop' _ Hq).
      unfold bend, TOP, HDR in *. cbn [fst snd] in *. lia. }
  exists (set_hptr m2 freep_ p), fl'. split; [|split; [|split; [rewrite length_app; lia|split]]].
  - rewrite free_run with (p := p) by by replace (bp + HDR - HDR) with bp by lia.
    replace (bp + HDR - HDR) with bp by lia. by rewrite Hnx.
  - split; [|done|by rewrite hptr_set_hptr|done].
    eapply lseg_frame; [|exact Hring]. intros c j Hc.
    assert (c = base \/ lo <= c) as Hc'.
    { apply elem_of_cons in Hc as [[= -> ->]|Hc]; [by left|]. right.
      apply (ordered_elem _ _ _ Hord) in Hc. simpl in Hc. lia. }
    unfold HDR in *. rewrite hptr_set_hptr_ne, hsize_set_hptr by lia. done.
  - intros x. rewrite Hcov, Huc, covered_app. tauto.
  - intros a Ha1 Ha2 Ha3. unfold is_static in Ha3.
    rewrite mget_set_hptr by lia. unfold m2. rewrite low_mem_frame.
    + apply up_mem_frame. intros Hin. apply Ha2. unfold covers, bend, HDR. cbn [fst snd]. lia.
    + intros Hin. assert (Hpl : p ∈ base :: l1.*1).
      { unfold p. destruct (last (base :: l1.*1)) as [q|] eqn:El; [by apply last_Some_elem_of in El|left]. }
      apply elem_of_cons in Hpl as [->|([q j] & Hq1 & Hq)%list_elem_of_fmap]; [unfold HDR in *; lia|].
      apply Ha1. exists (q, j). split; [apply elem_of_app; by left|]. rewrite Hq1 in Hin.
      pose proof (ordered_elem _ _ _ Ho1 Hq). unfold covers, bend, HDR. cbn [fst snd] in *. lia.
Qed.

(** ** Allocation *)

(** The headers of the list are read only; a change of memory outside the
    list's blocks and the static variables keeps it. *)
Lemma free_list_frame m m' fl :
  (forall a, covered fl a \/ is_static a -> mget m' a = mget m a) -> free_list m fl -> free_list m' fl.
Proof.
  intros Hm [Hr Ho Hf Ht].
  assert (Hf' : hptr m' freep_ = hptr m freep_).
  { apply hptr_ext. intros a Ha. apply Hm. right. right. lia. }
  split; [|done|by rewrite Hf'|done].
  eapply lseg_frame; [|exact Hr]. intros c j Hc.
  assert (Hin : forall a, c <= a < c + 12 -> covered fl a \/ is_static a).
  { intros a Ha. apply elem_of_cons in Hc as [[= -> ->]|Hc]; [right; left; unfold HDR; lia|].
    left. exists (c, j). split; [done|]. apply (ordered_elem _ _ _ Ho) in Hc.
    unfold covers, bend, HDR. cbn [fst snd] in *. lia. }
  split; [apply hptr_ext|apply hsize_ext]; intros a Ha; apply Hm, Hin; lia.
Qed.

(** A block of the list and the block before it in the cycle. *)
Lemma pred_split m fl prevp a k :
  free_list m fl -> prevp ∈ base :: fl.*1 -> hptr m prevp = a -> (a, k) ∈ fl ->
  exists N1 j N2, (base, 0) :: fl = N1 ++ (prevp, j) :: (a, k) :: N2.
Proof.
  intros Hfl Hprev Hp Ha. pose proof (fl_sorted _ _ Hfl) as Hs. destruct Hfl as [Hr Ho _ _].
  assert (Hin : prevp ∈ ((base, 0) :: fl).*1) by done.
  apply list_elem_of_fmap in Hin as ([q j] & -> & (N1 & N2 & HN)%list_elem_of_split). cbn [fst] in *.
  rewrite HN in Hr. destruct (lseg_next _ _ _ _ _ _ _ Hr) as [Hnx _]. rewrite Hp in Hnx.
  assert (Hab : base < a).
  { apply (ordered_elem _ _ _ Ho) in Ha as [Ha _]. cbn [fst] in Ha.
    destruct Hst as (? & _ & ? & _). unfold HDR in *. lia. }
  destruct N2 as [|[b i] N2]; simpl in Hnx; [lia|]. subst b.
  assert (Hk : i = k); [|subst i; eauto].
  assert (HaN : (a, i) ∈ fl).
  { assert (Hx : (a, i) ∈ (base, 0) :: fl) by (rewrite HN; apply elem_of_app; right; right; left).
    apply elem_of_cons in Hx as [[= ? ?]|Hx]; [lia|done]. }
  exact (ordered_unique _ _ _ _ _ Ho HaN Ha).
Qed.

(** The heap: the free list, and the blocks handed out, by address. *)
Context (brk : R -> Z).

Record heap s fl (al : gmap Z Z) : Prop := Heap {
  h_list : free_list (umem s) fl;
  h_brk : lo <= brk (uenv s) < TOP;
  h_free : forall x, covered fl x -> x < brk (uenv s);
  h_alloc : forall a n, al !! a = Some n ->
    1 <= n /\ lo <= a /\ bend (a, n) <= brk (uenv s) /\ hsize (umem s) a = n;
  h_disj : forall a n b k x,
    al !! a = Some n -> al !! b = Some k -> covers (a, n) x -> covers (b, k) x -> a = b;
  h_sep : forall a n x, al !! a = Some n -> covers (a, n) x -> ~ covered fl x;
}.

(** The bytes of the blocks handed out (headers included) are the same. *)
Definition kept_bytes (al : gmap Z Z) (m m' : gmap Z Z) : Prop :=
  forall a n x, al !! a = Some n -> covers (a, n) x -> mget m' x = mget m x.

Lemma hsize_kept al m m' a n :
  kept_bytes al m m' -> al !! a = Some n -> 1 <= n -> hsize m' a = hsize m a.
Proof.
  intros Hm Ha Hn. apply hsize_ext. intros b Hb. apply (Hm a n b Ha).
  unfold covers, bend, HDR. cbn [fst snd]. lia.
Qed.

Lemma covered_lo fl m x : free_list m fl -> covered fl x -> lo <= x.
Proof.
  intros [_ Ho _ _] (b & Hb & Hx). apply (ordered_elem _ _ _ Ho) in Hb. unfold covers in Hx. lia.
Qed.

(** A change outside the blocks handed out keeps the heap, when the list it
    leaves covers no more than the old list and some space of nobody. *)
Lemma heap_frame s m' e' fl fl' al :
  heap s fl al -> free_list m' fl' -> kept_bytes al (umem s) m' ->
  brk (uenv s) <= brk e' < TOP ->
  (forall x, covered fl' x -> covered fl x \/ brk (uenv s) <= x < brk e') ->
  heap (US m' e') fl' al.
Proof.
  intros [Hl Hb Hf Ha Hd Hs] Hl' Hk Hb' Hc. split; cbn [umem uenv]; [done|lia| | |done|].
  - intros x Hx. destruct (Hc x Hx) as [Hx'|?]; [specialize (Hf _ Hx'); lia|lia].
  - intros a n Han. destruct (Ha a n Han) as (H1 & H2 & H3 & H4). split; [done|]. split; [done|].
    split; [lia|]. by rewrite (hsize_kept _ _ _ _ _ Hk Han H1).
  - intros a n x Han Hx Hcov. destruct (Hc x Hcov) as [?|?]; [by eapply Hs|].
    destruct (Ha a n Han) as (_ & _ & H3 & _). unfold covers in Hx. lia.
Qed.

Lemma ordered_apart l0 l x i y j :
  ordered l0 l -> (x, i) ∈ l -> (y, j) ∈ l -> x <> y -> bend (x, i) < y \/ bend (y, j) < x.
Proof.
  revert l0. induction l as [|c l IH]; intros l0 Ho Hx Hy Hne; [by apply elem_of_nil in Hx|].
  destruct Ho as (_ & Hc & Ho).
  assert (Hafter : forall b, b ∈ l -> bend c < b.1).
  { intros b Hb. apply (ordered_elem _ _ _ Ho) in Hb. lia. }
  apply elem_of_cons in Hx as [Hx|Hx], Hy as [Hy|Hy]; [congruence| | |by eapply IH].
  - left. apply Hafter in Hy. by rewrite Hx.
  - right. apply Hafter in Hx. by rewrite Hy.
Qed.

(** Another node of the cycle stays away from a block of the list. *)
Lemma node_apart m fl c j a k :
  free_list m fl -> (c, j) ∈ (base, 0) :: fl -> (a, k) ∈ fl -> c <> a -> c + HDR <= a \/ bend (a, k) <= c.
Proof.
  intros [_ Ho _ _] Hc Ha Hne. destruct Hst as (_ & _ & Hb & _).
  pose proof (ordered_elem _ _ _ Ho Ha) as [Hla _]. cbn [fst] in Hla.
  apply elem_of_cons in Hc as [[= -> ->]|Hc]; [left; lia|].
  pose proof (ordered_elem _ _ _ Ho Hc) as [_ Hj].
  destruct (ordered_apart _ _ _ _ _ _ Ho Hc Ha Hne); [left|right; lia]. unfold bend, HDR in *. cbn [fst snd] in *. lia.
Qed.

Lemma set_freep_ok m fl p :
  lseg m base ((base, 0) :: fl) base -> ordered (lo - 1) fl -> (forall b, b ∈ fl -> bend b < TOP) ->
  p ∈ base :: fl.*1 -> free_list (set_hptr m freep_ p) fl.
Proof.
  intros Hr Ho Ht Hp. destruct Hst as (Hb0 & Hf0 & Hblo & Hflo & Hbf).
  assert (Hrange : 0 <= p < W64 /\ (p = base \/ lo <= p)).
  { apply elem_of_cons in Hp as [->|([q j] & -> & Hq)%list_elem_of_fmap].
    - destruct fl as [|b fl]; [|pose proof (Ht b ltac:(left))]. 
      + destruct Hr as (_ & _ & Hr). simpl in Hr. pose proof (hptr_range m base). rewrite Hr in *. split; [lia|by left].
      + destruct Ho as (? & ? & _). unfold bend, TOP, HDR in *. split; [lia|by left].
    - pose proof (ordered_elem _ _ _ Ho Hq). specialize (Ht _ Hq).
      unfold bend, TOP, HDR in *. cbn [fst snd] in *. split; [lia|right; lia]. }
  destruct Hrange as [Hrange _].
  split; [|done|by rewrite hptr_set_hptr|done].
  eapply lseg_frame; [|exact Hr]. intros c j Hc.
  assert (c = base \/ lo <= c) as Hc'.
  { apply elem_of_cons in Hc as [[= -> ->]|Hc]; [by left|]. right.
    apply (ordered_elem _ _ _ Ho) in Hc. simpl in Hc. lia. }
  unfold HDR in *. rewrite hptr_set_hptr_ne, hsize_set_hptr by lia. done.
Qed.

(** The nodes on both sides of a block of the list, with its predecessor. *)
Lemma split_facts m fl N1 p j a k N2 :
  free_list m fl -> (base, 0) :: fl = N1 ++ (p, j) :: (a, k) :: N2 ->
  (a, k) ∈ fl /\ p ∈ base :: fl.*1 /\ p < a /\
  (forall c, c ∈ N1 -> c.1 < p) /\ (forall c, c ∈ N2 -> a < c.1) /\
  exists F1, (N1 ++ [(p, j)] = (base, 0) :: F1 /\ fl = F1 ++ (a, k) :: N2).
Proof.
  intros Hfl HN. pose proof (fl_sorted _ _ Hfl) as Hs.
  assert (HF : exists F1, N1 ++ [(p, j)] = (base, 0) :: F1 /\ fl = F1 ++ (a, k) :: N2).
  { destruct N1 as [|b N1]; simpl in HN.
    - injection HN as <- <- ->. by exists [].
    - injection HN as <- ->. exists (N1 ++ [(p, j)]). by rewrite <- app_assoc. }
  destruct HF as (F1 & HF1 & HF). 
  assert (Hs1 : StronglySorted Z.lt (N1.*1 ++ p :: a :: N2.*1)).
  { apply (f_equal (fmap fst)) in HN. rewrite !fmap_cons, fmap_app, !fmap_cons in HN.
    cbn [fst] in HN. by rewrite <- HN. }
  pose proof (sorted_split _ _ _ Hs1) as [H1 H2].
  assert (Hs2 : StronglySorted Z.lt ((N1.*1 ++ [p]) ++ a :: N2.*1)) by by rewrite <- app_assoc.
  apply sorted_split in Hs2 as [_ H3].
  split; [rewrite HF; apply elem_of_app; right; left|]. split.
  { assert (Hx : p ∈ ((base, 0) :: fl).*1); [|done].
    rewrite HN, fmap_app, fmap_cons. apply elem_of_app. right. left. }
  split; [apply H2; left|]. split; [|split; [|eauto]].
  - intros c Hc. apply H1. apply list_elem_of_fmap. eauto.
  - intros c Hc. apply H3. apply list_elem_of_fmap. eauto.
Qed.

Lemma nodes_spaced m fl c i d j :
  free_list m fl -> (c, i) ∈ (base, 0) :: fl -> (d, j) ∈ (base, 0) :: fl -> c <> d ->
  c + HDR <= d \/ d + HDR <= c.
Proof.
  intros Hfl Hc Hd Hne. apply elem_of_cons in Hd as [[= -> ->]|Hd].
  - apply elem_of_cons in Hc as [[= -> ->]|Hc]; [done|].
    apply (ordered_elem _ _ _ (fl_ordered _ _ Hfl)) in Hc. cbn [fst] in Hc.
    destruct Hst as (_ & _ & ? & _). lia.
  - destruct (node_apart _ _ _ _ _ _ Hfl Hc Hd Hne); [by left|].
    apply (ordered_elem _ _ _ (fl_ordered _ _ Hfl)) in Hd. unfold bend, HDR in *. cbn [fst snd] in *. lia.
Qed.

(** What a list without one block, or with a smaller one, covers. *)
Lemma covered_mid l0 F a k N x :
  ordered l0 (F ++ (a, k) :: N) ->
  covered (F ++ N) x <-> covered (F ++ (a, k) :: N) x /\ ~ covers (a, k) x.
Proof.
  intros (HoF & Hla & Hk & HoN)%ordered_app. cbn [fst snd] in *.
  rewrite !covered_app, covered_cons.
  assert (HF : covered F x -> ~ covers (a, k) x).
  { intros (b & Hb & Hx). pose proof (ordered_before _ _ _ _ HoF Hla Hb). unfold covers in *. cbn [fst] in *. lia. }
  assert (HN : covered N x -> ~ covers (a, k) x).
  { intros (b & Hb & Hx). apply (ordered_elem _ _ _ HoN) in Hb. unfold covers in *. lia. }
  tauto.
Qed.

(** Taking a whole block off the list. *)
Lemma unlink_ok m fl N1 p j a k N2 :
  free_list m fl -> (base, 0) :: fl = N1 ++ (p, j) :: (a, k) :: N2 ->
  exists fl', free_list (set_hptr (set_hptr m p (hptr m a)) freep_ p) fl' /\
    (forall x, covered fl' x <-> covered fl x /\ ~ covers (a, k) x).
Proof.
  intros Hfl HN. destruct (split_facts _ _ _ _ _ _ _ _ Hfl HN) as (Ha & Hp & Hpa & HN1 & HN2 & F1 & HF1 & HF).
  pose proof Hfl as [Hr Ho _ Ht]. exists (F1 ++ N2).
  assert (Hnodes : (base, 0) :: F1 ++ N2 = N1 ++ (p, j) :: N2).
  { by rewrite app_comm_cons, <- HF1, <- app_assoc. }
  assert (Hfr : forall c i, (c, i) ∈ N1 ++ N2 -> p + HDR <= c \/ c + HDR <= p).
  { intros c i Hc. apply (nodes_spaced _ _ p j c i Hfl).
    - rewrite HN. apply elem_of_app. right. left.
    - rewrite HN. apply elem_of_app in Hc as [?|?]; apply elem_of_app; [by left|right; by do 2 right].
    - apply elem_of_app in Hc as [Hc|Hc]; [apply HN1 in Hc|apply HN2 in Hc]; simpl in Hc; lia. }
  subst fl. split; [|intros x; by eapply covered_mid].
  apply ordered_app in Ho as [HoF (Hla & Hk & HoN)]. cbn [fst snd] in *.
  apply set_freep_ok.
  - rewrite Hnodes. rewrite HN in Hr. apply lseg_app in Hr as (r & HrN & (-> & Hj & Hpn & Hka & HrN2)).
    assert (Hstep : forall l q r, (forall c, c ∈ l -> c ∈ N1 ++ N2) -> lseg m q l r -> lseg (set_hptr m p (hptr m a)) q l r).
    { intros l q r Hin Hl. eapply lseg_frame; [|exact Hl]. intros c i Hc. specialize (Hfr c i (Hin _ Hc)).
      unfold HDR in Hfr. rewrite hptr_set_hptr_ne, hsize_set_hptr by lia. done. }
    apply lseg_app. exists p. split; [apply Hstep; [|done]; intros; apply elem_of_app; by left|].
    cbn [lseg]. split; [done|]. rewrite hsize_set_hptr by lia. split; [done|].
    rewrite hptr_set_hptr by apply hptr_range. apply Hstep; [|done]. intros; apply elem_of_app; by right.
  - apply ordered_app. split; [done|]. eapply ordered_lower; [|exact HoN].
    unfold bend at 2, HDR. cbn [fst snd]. lia.
  - intros b Hb. apply Ht. apply elem_of_app in Hb as [?|?]; apply elem_of_app; [by left|right; by right].
  - assert (Hx : p ∈ ((base, 0) :: F1 ++ N2).*1); [|done].
    rewrite Hnodes, fmap_app, fmap_cons. apply elem_of_app. right. left.
Qed.

(** Taking the tail of a block: the block keeps its first [k'] units. *)
Lemma shrink_ok m fl N1 p j a k N2 k' :
  free_list m fl -> (base, 0) :: fl = N1 ++ (p, j) :: (a, k) :: N2 -> 1 <= k' < k ->
  exists fl', free_list (set_hptr (set_hsize m a k') freep_ p) fl' /\
    (forall x, covered fl' x <-> covered fl x /\ ~ covers (a + HDR * k', k - k') x).
Proof.
  intros Hfl HN Hk'. destruct (split_facts _ _ _ _ _ _ _ _ Hfl HN) as (Ha & Hp & Hpa & HN1 & HN2 & F1 & HF1 & HF).
  pose proof Hfl as [Hr Ho _ Ht]. exists (F1 ++ (a, k') :: N2).
  assert (Hnodes : (base, 0) :: F1 ++ (a, k') :: N2 = N1 ++ (p, j) :: (a, k') :: N2).
  { by rewrite app_comm_cons, <- HF1, <- app_assoc. }
  assert (Hfr : forall c i, (c, i) ∈ (base, 0) :: fl -> c <> a -> c + HDR <= a \/ a + HDR <= c).
  { intros c i Hc Hne. apply (nodes_spaced _ _ c i a k Hfl Hc); [by right|done]. }
  assert (Hta : 0 < a /\ a + 16 * k < 16 * W32).
  { specialize (Ht _ Ha). apply (ordered_elem _ _ _ Ho) in Ha. destruct Hst as (? & _ & ? & _).
    unfold bend, TOP, HDR in *. cbn [fst snd] in *. lia. }
  subst fl. pose proof Ho as (HoF & Hla & Hk & HoN)%ordered_app. cbn [fst snd] in *.
  split.
  - apply set_freep_ok.
    + rewrite Hnodes. rewrite HN in Hr, Hfr. apply lseg_app in Hr as (r & HrN & (-> & Hj & Hpn & Hka & HrN2)).
      assert (Hstep : forall c i, (c, i) ∈ N1 ++ (p, j) :: (a, k) :: N2 -> c <> a ->
        hptr (set_hsize m a k') c = hptr m c /\ hsize (set_hsize m a k') c = hsize m c).
      { intros c i Hc Hne. specialize (Hfr c i Hc Hne). unfold HDR in Hfr.
        rewrite hptr_set_hsize, hsize_set_hsize_ne by lia. done. }
      apply lseg_app. exists p. split.
      * eapply lseg_frame; [|exact HrN]. intros c i Hc. apply (Hstep c i); [apply elem_of_app; by left|].
        apply HN1 in Hc. cbn [fst] in Hc. lia.
      * cbn [lseg]. destruct (Hstep p j ltac:(apply elem_of_app; right; left) ltac:(lia)) as [-> ->].
        split; [done|]. split; [done|]. split; [done|].
        rewrite hsize_set_hsize by lia. split; [done|].
        rewrite hptr_set_hsize by lia. eapply lseg_frame; [|exact HrN2].
        intros c i Hc. apply (Hstep c i); [apply elem_of_app; right; by do 2 right|].
        apply HN2 in Hc. cbn [fst] in Hc. lia.
    + apply ordered_app. split; [done|]. cbn [ordered fst snd]. split; [done|]. split; [lia|].
      eapply ordered_lower; [|exact HoN]. unfold bend, HDR. cbn [fst snd]. lia.
    + intros b [Hb|[->|Hb]%elem_of_cons]%elem_of_app.
      * apply Ht, elem_of_app. by left.
      * unfold bend, TOP, HDR in *. cbn [fst snd] in *. lia.
      * apply Ht, elem_of_app. right. by right.
    + assert (Hx : p ∈ ((base, 0) :: F1 ++ (a, k') :: N2).*1); [|done].
      rewrite Hnodes, fmap_app, fmap_cons. apply elem_of_app. right. left.
  - intros x. pose proof (covered_mid _ _ _ _ _ x Ho) as Hmid.
    assert (Hj1 : covers (a, k) x <-> covers (a, k') x \/ covers (a + HDR * k', k - k') x).
    { rewrite <- covers_join by (unfold HDR; lia). by replace (k' + (k - k')) with k by lia. }
    assert (Hd : covers (a, k') x -> ~ covers (a + HDR * k', k - k') x)
      by (unfold covers, bend, HDR; cbn [fst snd]; lia).
    rewrite !covered_app in Hmid |- *. rewrite !(covered_cons (a, k) N2 x) in Hmid |- *.
    rewrite (covered_cons (a, k')). clear -Hmid Hj1 Hd. tauto.
Qed.

Lemma mget_set_hptr_cong m m' p v x :
  mget m x = mget m' x -> mget (set_hptr m p v) x = mget (set_hptr m' p v) x.
Proof.
  intros H. destruct (decide (p <= x < p + 8)) as [Hin|Hout]; [|by rewrite !mget_set_hptr].
  unfold set_hptr. rewrite !mwrite_mget_in; try apply le_split_bytes; try (rewrite le_split_length; lia). done.
Qed.

(** Changes to the blocks of the list and the static variables only. *)
Lemma kept_bytes_free s m' fl al :
  heap s fl al -> (forall x, ~ covered fl x -> ~ is_static x -> mget m' x = mget (umem s) x) ->
  kept_bytes al (umem s) m'.
Proof.
  intros Hh Hm a n x Ha Hx. apply Hm; [by eapply (h_sep _ _ _ Hh)|].
  destruct (h_alloc _ _ _ Hh a n Ha) as (_ & Hlo & _). destruct Hst as (_ & _ & H1 & H2 & _).
  unfold is_static, covers in *. cbn [fst] in *. lia.
Qed.

(** A part of the list becomes a block handed out. *)
Lemma hand_out s m' fl fl' al a n :
  heap s fl al -> free_list m' fl' -> kept_bytes al (umem s) m' -> hsize m' a = n -> 1 <= n ->
  (forall x, covered fl' x -> covered fl x /\ ~ covers (a, n) x) ->
  (forall x, covers (a, n) x -> covered fl x) ->
  al !! a = None /\ heap (s.[umem := m']) fl' (<[a := n]> al).
Proof.
  intros Hh Hl' Hk Hs Hn Hc Hin. pose proof Hh as [Hl Hb Hf Ha Hd Hsep].
  assert (Hina : covers (a, n) a) by (unfold covers, bend, HDR; cbn [fst snd]; lia).
  assert (Hlast : covers (a, n) (a + HDR * n - 1)) by (unfold covers, bend, HDR; cbn [fst snd]; lia).
  assert (Hnone : al !! a = None).
  { destruct (al !! a) as [j|] eqn:E; [|done]. exfalso.
    destruct (Ha a j E) as (Hj & _). apply (Hsep a j a E); [unfold covers, bend, HDR; cbn [fst snd]; lia|].
    by apply Hin. }
  split; [done|]. split; unfold upd_field; cbn [umem uenv]; [done|done| | | |].
  - intros x Hx. apply Hf. by apply Hc.
  - intros b j [[<- <-]|[Hne Hb']]%lookup_insert_Some.
    + split; [done|]. split; [by apply (covered_lo _ _ _ Hl), Hin|]. split; [|done].
      pose proof (Hf _ (Hin _ Hlast)). unfold bend. cbn [fst snd]. lia.
    + destruct (Ha b j Hb') as (H1 & H2 & H3 & H4). split; [done|]. split; [done|]. split; [done|].
      by rewrite (hsize_kept _ _ _ _ _ Hk Hb' H1).
  - intros b1 j1 b2 j2 x [[<- <-]|[Hne1 Hb1]]%lookup_insert_Some [[<- <-]|[Hne2 Hb2]]%lookup_insert_Some H1 H2.
    + done.
    + exfalso. apply (Hsep _ _ _ Hb2 H2), Hin, H1.
    + exfalso. apply (Hsep _ _ _ Hb1 H1), Hin, H2.
    + by eapply Hd.
  - intros b j x [[<- <-]|[Hne Hb']]%lookup_insert_Some Hx Hcov; apply Hc in Hcov as [Hcov Hno]; [done|].
    by apply (Hsep _ _ _ Hb' Hx).
Qed.

(** The branch of [malloc] that has found a block large enough. *)
Lemma take_ok s fl al prevp a k nunits n :
  heap s fl al -> prevp ∈ base :: fl.*1 -> hptr (umem s) prevp = a -> (a, k) ∈ fl -> 1 <= nunits <= k ->
  exists a' m' fl', malloc_body freep_ n nunits (prevp, a) s = Ok (inr (a' + HDR)) (s.[umem := m']) /\
    al !! a' = None /\ heap (s.[umem := m']) fl' (<[a' := nunits]> al) /\ kept_bytes al (umem s) m'.
Proof.
  intros Hh Hprev Hp Ha Hk. pose proof (h_list _ _ _ Hh) as Hfl.
  destruct (pred_split _ _ _ _ _ Hfl Hprev Hp Ha) as (N1 & j & N2 & HN).
  pose proof (split_facts _ _ _ _ _ _ _ _ Hfl HN) as (_ & _ & Hpa & _).
  assert (Hsz : hsize (umem s) a = k).
  { pose proof (fl_ring _ _ Hfl) as Hr. rewrite HN in Hr.
    change ((prevp, j) :: (a, k) :: N2) with ([(prevp, j)] ++ (a, k) :: N2) in Hr.
    rewrite app_assoc in Hr. exact (proj2 (lseg_next _ _ _ _ _ _ _ Hr)). }
  assert (Hpcov : forall x, prevp <= x < prevp + 8 -> covered fl x \/ is_static x).
  { intros x Hx. apply elem_of_cons in Hprev as [->|([q i] & -> & Hq)%list_elem_of_fmap].
    - right. left. unfold HDR. lia.
    - left. exists (q, i). split; [done|]. apply (ordered_elem _ _ _ (fl_ordered _ _ Hfl)) in Hq.
      unfold covers, bend, HDR. cbn [fst snd] in *. lia. }
  assert (Hacov : forall x, covers (a, k) x -> covered fl x) by (intros x Hx; by exists (a, k)).
  assert (Halo : lo <= a /\ bend (a, k) < TOP).
  { split; [|by apply (fl_top _ _ Hfl)]. apply (covered_lo _ _ _ Hfl), Hacov.
    unfold covers, bend, HDR. cbn [fst snd]. lia. }
  destruct Halo as [Halo Hatop]. pose proof Hst as (Hb0 & Hf0 & Hblo & Hflo & _).
  unfold malloc_body, size, set_size, set_ptr, ptr, set_freep, set_ptr, umemory. mred. rsimpl_goal.
  rewrite Hsz. destruct (Z.leb_spec nunits k); [|lia].
  destruct (Z.eqb_spec k nunits) as [->|Hne].
  - destruct (unlink_ok _ _ _ _ _ _ _ _ Hfl HN) as (fl' & Hfl' & Hcov).
    set (m' := set_hptr (set_hptr (umem s) prevp (hptr (umem s) a)) freep_ prevp) in *.
    assert (Hkb : kept_bytes al (umem s) m').
    { apply (kept_bytes_free s m' fl al Hh). intros x Hx Hx'. unfold m'.
      rewrite !mget_set_hptr; [done| |unfold is_static in Hx'; lia].
      intros Hin. destruct (Hpcov x Hin); done. }
    destruct (hand_out s m' fl fl' al a nunits Hh Hfl' Hkb) as [Hnone Hh'].
    + unfold m'. rewrite !hsize_set_hptr by lia. done.
    + lia.
    + intros x. by rewrite Hcov.
    + done.
    + exists a, m', fl'. split; [|done]. mred. reflexivity.
  - rewrite u32_small by (unfold bend, TOP, HDR in *; cbn [fst snd] in *; lia).
    destruct (shrink_ok _ _ _ _ _ _ _ _ (k - nunits) Hfl HN ltac:(lia)) as (fl' & Hfl' & Hcov).
    replace (k - (k - nunits)) with nunits in Hcov by lia.
    set (a' := a + HDR * (k - nunits)) in *.
    set (m' := set_hptr (set_hsize (set_hsize (umem s) a (k - nunits)) a' nunits) freep_ prevp) in *.
    assert (Hin' : forall x, covers (a', nunits) x -> covers (a, k) x)
      by (intros x; unfold covers, bend, a', HDR; cbn [fst snd]; lia).
    assert (Hhdr : forall x, a' + 8 <= x < a' + 12 -> covers (a', nunits) x)
      by (intros x; unfold covers, bend, HDR; cbn [fst snd]; lia).
    assert (Hflm : free_list m' fl').
    { eapply free_list_frame; [|exact Hfl']. intros x Hx. unfold m'. apply mget_set_hptr_cong.
      apply mget_set_hsize. intros Hin. pose proof (Hhdr x Hin) as Hxc. destruct Hx as [Hx|Hx].
      - apply Hcov in Hx as [_ Hx]. done.
      - apply Hin' in Hxc. destruct Hst as (_ & _ & ? & ? & _).
        unfold is_static, covers in *. cbn [fst] in *. lia. }
    assert (Hkb : kept_bytes al (umem s) m').
    { apply (kept_bytes_free s m' fl al Hh). intros x Hx Hx'. unfold m'.
      rewrite mget_set_hptr by (unfold is_static in Hx'; lia).
      rewrite !mget_set_hsize; [done| |].
      - intros Hin. apply Hx, Hacov. unfold covers, bend, HDR. cbn [fst snd]. lia.
      - intros Hin. by apply Hx, Hacov, Hin', Hhdr. }
    destruct (hand_out s m' fl fl' al a' nunits Hh Hflm Hkb) as [Hnone Hh'].
    + unfold m'. rewrite hsize_set_hptr by (unfold a', HDR; lia).
      apply hsize_set_hsize. unfold bend, TOP, HDR in *. cbn [fst snd] in *. lia.
    + lia.
    + intros x. by rewrite Hcov.
    + intros x Hx. by apply Hacov, Hin'.
    + exists a', m', fl'. split; [|done]. mred. rewrite hsize_set_hsize by (unfold bend, TOP, HDR in *; cbn [fst snd] in *; lia).
      reflexivity.
Qed.

(** A block that the list covers lies in one block of it: no two are adjacent. *)
Lemma covered_block l0 l p n :
  ordered l0 l -> 1 <= n -> (forall x, covers (p, n) x -> covered l x) ->
  exists a k, (a, k) ∈ l /\ n <= k.
Proof.
  intros Ho Hn Hc. unfold covers, bend, HDR in Hc. cbn [fst snd] in Hc.
  destruct (Hc p ltac:(lia)) as ([a k] & Hb & Hp). exists a, k. split; [done|].
  unfold covers, bend, HDR in Hp. cbn [fst snd] in Hp.
  destruct (Z.le_gt_cases (p + 16 * n) (a + 16 * k)); [lia|].
  destruct (Hc (a + 16 * k) ltac:(lia)) as ([c j] & Hc' & Hx).
  unfold covers, bend, HDR in Hx. cbn [fst snd] in Hx.
  destruct (decide (a = c)) as [<-|Hne].
  - pose proof (ordered_unique _ _ _ _ _ Ho Hb Hc'). subst j. lia.
  - destruct (ordered_apart _ _ _ _ _ _ Ho Hb Hc' Hne) as [H1|H1]; unfold bend, HDR in H1; cbn [fst snd] in H1; lia.
Qed.

(** ** More memory *)

Context (sbrk_grow : forall n e, 0 < n ->
  (os_sbrk n e).1 = -1 /\ brk (os_sbrk n e).2 = brk e \/
  (os_sbrk n e).1 = brk e /\ brk (os_sbrk n e).2 = brk e + n /\ brk e + n < TOP).

(** The free list after a call of [free] starts at [freep]. *)
Lemma morecore_ok s fl al nunits n :
  heap s fl al -> 1 <= nunits -> nunits * HDR < W31 -> (length fl < n)%nat ->
  (exists e', morecore freep_ n nunits s = Ok 0 (s.[uenv := e']) /\ heap (s.[uenv := e']) fl al) \/
  (exists s' fl' a k, morecore freep_ n nunits s = Ok (hptr (umem s') freep_) s' /\
     heap s' fl' al /\ kept_bytes al (umem s) (umem s') /\ hptr (umem s') freep_ <> 0 /\
     (a, k) ∈ fl' /\ nunits <= k /\ (length fl' <= S (length fl))%nat).
Proof.
  intros Hh Hn1 Hn31 Hk. pose proof Hh as [Hl Hb Hf Ha Hd Hs]. pose proof Hst as (Hb0 & Hf0 & Hblo & Hflo & _).
  destruct s as [m e]. cbn [umem uenv] in *. unfold morecore.
  set (nu := if nunits <? 4096 then 4096 else nunits).
  assert (Hnu : nunits <= nu /\ 4096 <= nu /\ nu * HDR < W31).
  { unfold nu, HDR in *. destruct (Z.ltb_spec nunits 4096); lia. }
  rewrite s32_small by (unfold HDR in *; lia).
  pose proof (sbrk_grow (nu * HDR) e ltac:(unfold HDR in *; lia)) as Hg.
  destruct (os_sbrk (nu * HDR) e) as [r e'] eqn:Hsb. cbn [fst snd] in *.
  assert (Hos : oscall (os_sbrk (nu * HDR)) (US m e) = Ok r (US m e')).
  { unfold oscall. cbn [uenv]. by rewrite Hsb. }
  destruct Hg as [[-> Hbe]|(-> & Hbe & Htop)].
  - left. exists e'. split; [by rewrite (bind_Ok _ _ _ _ _ Hos)|]. apply (heap_frame (US m e) m e' fl fl al); [done|done|by intros ???| |].
    + cbn [uenv]. lia.
    + by left.
  - right. set (p := brk e) in *.
    set (m1 := set_hsize m p nu).
    assert (Hm1 : forall x, covered fl x \/ is_static x -> mget m1 x = mget m x).
    { intros x Hx. apply mget_set_hsize. destruct Hx as [Hx|Hx]; [apply Hf in Hx; lia|].
      unfold is_static, HDR in *. lia. }
    assert (Hl1 : free_list m1 fl) by by eapply free_list_frame.
    destruct (free_ok (US m1 e') fl p nu n Hl1) as (m2 & fl' & Hfree & Hl2 & Hlen & Hcov & Hm2).
    + apply hsize_set_hsize. unfold HDR in *. lia.
    + lia.
    + lia.
    + unfold bend. cbn [fst snd]. lia.
    + intros x Hx Hx'. apply Hf in Hx'. unfold covers in Hx. cbn [fst] in Hx. lia.
    + done.
    + assert (Hkb : kept_bytes al m m2).
      { intros a j x Haj Hx. destruct (Ha a j Haj) as (_ & Hlo & Hbr & _).
        pose proof Hx as Hx'. unfold covers in Hx'. cbn [fst] in Hx'.
        rewrite Hm2; [apply mget_set_hsize; lia|by eapply Hs| |].
        - unfold covers. cbn [fst]. lia.
        - unfold is_static. lia. }
      destruct (covered_block (lo - 1) fl' p nu) as (a & k & Hak & Hkn); [by apply Hl2|lia| |].
      { intros x Hx. apply Hcov. by right. }
      exists (US m2 e'), fl', a, k.
      split; [|split; [|split; [done|split; [|split; [done|split; [lia|done]]]]]].
      * rewrite (bind_Ok _ _ _ _ _ Hos). destruct (Z.eqb_spec p (-1)); [lia|].
        rewrite (bind_Ok _ _ _ tt (US m1 e')) by done.
        rewrite (bind_Ok _ _ _ _ _ Hfree). done.
      * apply (heap_frame (US m e) m2 e' fl fl' al); [done|done|done|cbn [uenv]; unfold HDR in *; lia|].
        intros x Hx. apply Hcov in Hx as [?|Hx]; [by left|right]. cbn [uenv]. unfold covers, bend in Hx.
        cbn [fst snd] in Hx. fold p. lia.
      * cbn [umem]. pose proof (fl_freep _ _ Hl2) as Hfp.
        apply elem_of_cons in Hfp as [Hfp|([q j] & Hfp & Hq)%list_elem_of_fmap]; rewrite Hfp; [lia|].
        apply (ordered_elem _ _ _ (fl_ordered _ _ Hl2)) in Hq. cbn [fst] in *. unfold HDR in *. lia.
Qed.

(** ** The search of [malloc] *)

(** Passing over blocks that are too small. *)
Lemma malloc_skip s nunits nn l : forall prevp p q n,
  lseg (umem s) p l q -> hptr (umem s) prevp = p ->
  (forall a k, (a, k) ∈ l -> k < nunits /\ a <> hptr (umem s) freep_) ->
  while (length l + n) (malloc_body freep_ nn nunits) (prevp, p) s =
    while n (malloc_body freep_ nn nunits) (default prevp (last l.*1), q) s /\
  hptr (umem s) (default prevp (last l.*1)) = q.
Proof.
  induction l as [|[a k] l IH]; intros prevp p q n Hl Hp Hsmall.
  - simpl in *. by subst.
  - destruct Hl as (-> & Hk & Hl). destruct (Hsmall a k ltac:(left)) as [Hka Haf].
    cbn [length Nat.add]. rewrite (while_inl _ _ _ (a, hptr (umem s) a) _ s).
    + rewrite fmap_cons, last_cons. cbn [fst].
      replace (default prevp (Some (default a (last l.*1)))) with (default a (last l.*1)) by done.
      destruct (IH a (hptr (umem s) a) q n Hl eq_refl) as [-> ?].
      { intros b j Hb. apply Hsmall. by right. }
      destruct (last l.*1); done.
    + unfold malloc_body, size, ptr, freep. mred. rewrite Hk.
      destruct (Z.leb_spec nunits k); [lia|]. unfold ptr. mred.
      destruct (Z.eqb_spec a (hptr (umem s) freep_)); done.
Qed.

(** The cycle from the block after [freep] on. *)
Lemma cycle_after m fl :
  free_list m fl ->
  let f := hptr m freep_ in
  exists D kf, lseg m (hptr m f) (D ++ [(f, kf)]) (hptr m f) /\ length D = length fl /\
    (forall b, b ∈ D ++ [(f, kf)] <-> b ∈ (base, 0) :: fl) /\ (forall a k, (a, k) ∈ D -> a <> f).
Proof.
  intros Hfl f. pose proof (fl_sorted _ _ Hfl) as Hs. pose proof Hfl as [Hr Ho Hf _].
  assert (Hin : f ∈ ((base, 0) :: fl).*1) by done.
  apply list_elem_of_fmap in Hin as ([f' kf] & Hff & (A & B & HN)%list_elem_of_split). cbn [fst] in Hff. subst f'.
  exists (B ++ A), kf. rewrite HN in Hr. apply lseg_rotate in Hr. cbn [fst] in Hr.
  destruct Hr as (_ & Hkf & Hr). split; [|split; [|split]].
  - apply lseg_app. exists f. split; [done|]. simpl. done.
  - apply (f_equal length) in HN. rewrite length_app in *. simpl in HN. lia.
  - intros b. rewrite HN, !elem_of_app, !elem_of_cons, elem_of_nil. tauto.
  - intros a k Hak ->. apply (f_equal (fmap fst)) in HN.
    rewrite fmap_cons, fmap_app, fmap_cons in HN. cbn [fst] in HN. rewrite HN in Hs.
    apply sorted_split in Hs as [H1 H2]. apply elem_of_app in Hak as [Hak|Hak].
    + specialize (H2 f). enough (f < f) by lia. apply H2, list_elem_of_fmap. by exists (f, k).
    + specialize (H1 f). enough (f < f) by lia. apply H1, list_elem_of_fmap. by exists (f, k).
Qed.

(** The first block that is large enough. *)
Lemma first_fit nunits (l : list block) a0 k0 :
  (a0, k0) ∈ l -> nunits <= k0 ->
  exists D1 a k D2, l = D1 ++ (a, k) :: D2 /\ nunits <= k /\ (forall b j, (b, j) ∈ D1 -> j < nunits).
Proof.
  induction l as [|[a k] l IH]; intros Hin Hk; [by apply elem_of_nil in Hin|].
  destruct (Z.le_gt_cases nunits k) as [?|Hlt].
  - exists [], a, k, l. split; [done|]. split; [done|]. intros b j Hb. by apply elem_of_nil in Hb.
  - apply elem_of_cons in Hin as [[= -> ->]|Hin]; [lia|].
    destruct (IH Hin Hk) as (D1 & a' & k' & D2 & -> & Hk' & HD). exists ((a, k) :: D1), a', k', D2.
    split; [done|]. split; [done|]. intros b j [[= -> ->]|Hb]%elem_of_cons; [done|by eapply HD].
Qed.

(** With a block large enough on the list, the search hands out a part of it. *)
Lemma malloc_find s fl al a0 k0 nunits n nn :
  heap s fl al -> (a0, k0) ∈ fl -> 1 <= nunits <= k0 -> (length fl < n)%nat ->
  let f := hptr (umem s) freep_ in
  exists a m' fl', while n (malloc_body freep_ nn nunits) (f, hptr (umem s) f) s = Ok (a + HDR) (s.[umem := m']) /\
    al !! a = None /\ heap (s.[umem := m']) fl' (<[a := nunits]> al) /\ kept_bytes al (umem s) m'.
Proof.
  intros Hh Hin0 Hk0 Hn f. pose proof (h_list _ _ _ Hh) as Hfl.
  destruct (cycle_after _ _ Hfl) as (D & kf & Hcyc & HlenD & HinD & HneD). fold f in Hcyc, HinD, HneD.
  destruct (first_fit nunits (D ++ [(f, kf)]) a0 k0) as (D1 & a & k & D2 & Heq & Hk & Hsmall);
    [apply HinD; by right|lia|].
  assert (HD1 : forall b, b ∈ D1 -> b ∈ D).
  { induction D2 as [|d D2 _] using rev_ind.
    - apply app_inj_tail in Heq as [<- _]. done.
    - rewrite app_comm_cons, app_assoc in Heq. apply app_inj_tail in Heq as [-> _].
      intros b Hb. apply elem_of_app. by left. }
  assert (Hlen1 : (length D1 < n)%nat).
  { apply (f_equal length) in Heq. rewrite !length_app in Heq. simpl in Heq. lia. }
  rewrite Heq in Hcyc. apply lseg_app in Hcyc as (r & Hseg & (-> & _)).
  replace n with (length D1 + S (n - length D1 - 1))%nat by lia.
  destruct (malloc_skip s nunits nn D1 f (hptr (umem s) f) a (S (n - length D1 - 1)) Hseg eq_refl) as [-> Hprev].
  { intros b j Hb. split; [by eapply Hsmall|]. by apply (HneD b j), HD1. }
  set (prevp := default f (last D1.*1)) in *.
  assert (Hfit : (a, k) ∈ fl).
  { assert (Hx : (a, k) ∈ (base, 0) :: fl) by (apply HinD; rewrite Heq; apply elem_of_app; right; left).
    apply elem_of_cons in Hx as [[= -> ->]|Hx]; [lia|done]. }
  assert (Hpin : prevp ∈ base :: fl.*1).
  { unfold prevp. destruct (last D1.*1) as [q|] eqn:El; simpl; [|apply (fl_freep _ _ Hfl)].
    apply last_Some_elem_of, list_elem_of_fmap in El as ([q' j] & -> & Hq).
    assert (Hx : (q', j) ∈ (base, 0) :: fl) by (apply HinD, elem_of_app; left; by apply HD1).
    assert (Hy : q' ∈ ((base, 0) :: fl).*1) by (apply list_elem_of_fmap; by exists (q', j)). done. }
  destruct (take_ok s fl al prevp a k nunits nn Hh Hpin Hprev Hfit ltac:(lia)) as (a' & m' & fl' & Hstep & Hrest).
  exists a', m', fl'. split; [|done]. by apply while_inr.
Qed.

(** [malloc] after the list has been set up. *)
Lemma malloc_loop s fl al nunits n :
  heap s fl al -> 1 <= nunits -> nunits * HDR < W31 -> (2 * length fl + 2 < n)%nat ->
  let f := hptr (umem s) freep_ in
  exists r s', while n (malloc_body freep_ n nunits) (f, hptr (umem s) f) s = Ok r s' /\
    kept_bytes al (umem s) (umem s') /\
    ((r = 0 /\ exists fl', heap s' fl' al) \/
     exists a fl', r = a + HDR /\ al !! a = None /\ heap s' fl' (<[a := nunits]> al)).
Proof.
  intros Hh Hn1 Hn31 Hn f. pose proof (h_list _ _ _ Hh) as Hfl.
  destruct (cycle_after _ _ Hfl) as (D & kf & Hcyc & HlenD & HinD & HneD). fold f in Hcyc, HinD, HneD.
  destruct (decide (Exists (fun b => nunits <= b.2) fl)) as [Hex|Hno].
  { apply Exists_exists in Hex as ([a0 k0] & Hin0 & Hk0). cbn [snd] in Hk0.
    destruct (malloc_find s fl al a0 k0 nunits n n Hh Hin0 ltac:(lia) ltac:(lia)) as (a & m' & fl' & Hrun & Hnone & Hh' & Hkb).
    exists (a + HDR), (s.[umem := m']). split; [done|]. split; [done|]. right. eauto. }
  assert (Hsmall : forall a k, (a, k) ∈ D ++ [(f, kf)] -> k < nunits).
  { intros a k Hak. apply HinD in Hak. apply elem_of_cons in Hak as [[= -> ->]|Hak]; [lia|].
    destruct (Z.lt_ge_cases k nunits); [done|]. exfalso. apply Hno, Exists_exists. by exists (a, k). }
  apply lseg_app in Hcyc as (r & Hseg & (-> & Hkf & _)).
  destruct (malloc_skip s nunits n D f (hptr (umem s) f) f (S (n - length D - 1)) Hseg eq_refl) as [Hskip Hprev].
  { intros a k Hak. split; [apply (Hsmall a k), elem_of_app; by left|by apply (HneD a k)]. }
  replace (length D + S (n - length D - 1))%nat with n in Hskip by lia. rewrite Hskip.
  set (prevp := default f (last D.*1)) in *.
  pose proof (Hsmall f kf ltac:(apply elem_of_app; right; left)) as Hkf1.
  assert (Hbody : malloc_body freep_ n nunits (prevp, f) s =
    (let* p := morecore freep_ n nunits in
     if p =? 0 then ret (inr 0) else let* nx := ptr p in ret (inl (p, nx))) s).
  { unfold malloc_body, size, freep, ptr. mred. rewrite Hkf. destruct (Z.leb_spec nunits kf); [lia|].
    mred. fold f. by rewrite Z.eqb_refl. }
  destruct (morecore_ok s fl al nunits n Hh Hn1 Hn31 ltac:(lia))
    as [(e' & Hmc & Hh')|(s' & fl' & a & k & Hmc & Hh' & Hkb & Hnz & Hak & Hk & Hlen)].
  - exists 0, (s.[uenv := e']). split; [|split; [by intros ???|left; eauto]].
    apply while_inr. by rewrite Hbody, (bind_Ok _ _ _ _ _ Hmc).
  - destruct (malloc_find s' fl' al a k nunits (n - length D - 1) n Hh' Hak ltac:(lia) ltac:(lia))
      as (a' & m' & fl2 & Hrun & Hnone & Hh2 & Hkb2).
    exists (a' + HDR), (s'.[umem := m']). split; [|split].
    + rewrite (while_inl _ _ _ (hptr (umem s') freep_, hptr (umem s') (hptr (umem s') freep_)) _ s'); [done|].
      rewrite Hbody, (bind_Ok _ _ _ _ _ Hmc). destruct (Z.eqb_spec (hptr (umem s') freep_) 0); done.
    + intros b j x Hb Hx. change (umem (s'.[umem := m'])) with m'. rewrite (Hkb2 b j x Hb Hx). by apply (Hkb b j).
    + right. eauto.
Qed.

(** A process that has not allocated yet, or the heap. *)
Definition ready s fl (al : gmap Z Z) : Prop :=
  heap s fl al \/
  (hptr (umem s) freep_ = 0 /\ fl = [] /\ al = ∅ /\ lo <= brk (uenv s) < TOP).

Lemma setup_ok s :
  lo <= brk (uenv s) < TOP ->
  heap (s.[umem := set_hsize (set_hptr (set_hptr (umem s) freep_ base) base base) base 0]) [] ∅.
Proof.
  intros Hb. pose proof Hst as (Hb0 & Hf0 & Hblo & Hflo & Hbf). unfold TOP, HDR in *.
  assert (Hring : free_list (set_hsize (set_hptr (set_hptr (umem s) freep_ base) base base) base 0) []).
  { split; [|done| |].
    - cbn. split; [done|]. split; [by apply hsize_set_hsize|].
      rewrite hptr_set_hsize by lia. apply hptr_set_hptr. lia.
    - rewrite hptr_set_hsize, hptr_set_hptr_ne, hptr_set_hptr by lia. left.
    - intros b Hb'. by apply elem_of_nil in Hb'. }
  split; unfold upd_field; cbn [umem uenv]; [done|unfold TOP, HDR; lia| | | |].
  - intros x Hx. by apply covered_nil in Hx.
  - intros a n Ha. by rewrite lookup_empty in Ha.
  - intros a n b k x Ha. by rewrite lookup_empty in Ha.
  - intros a n x Ha. by rewrite lookup_empty in Ha.
Qed.

(** C29: asked for at most 2^31 - 64 bytes, [malloc] terminates and either returns 0, leaving every block handed
    out as it was, or returns the address after the header of a new block that
    has room for the bytes asked for and overlaps no other block, no free
    block, nor the program's data.  It does not change a byte of the blocks
    handed out before.  The free list stays a cycle in address order with no
    two adjacent blocks.  (For the larger half of its [uint] requests [morecore]
    passes [sbrk] a negative number, and nothing is claimed.) *)
Theorem malloc_spec s fl al nbytes n :
  ready s fl al -> 0 <= nbytes <= W31 - 64 -> (2 * length fl + 2 < n)%nat ->
  exists r s', malloc base freep_ n nbytes s = Ok r s' /\ kept_bytes al (umem s) (umem s') /\
    ((r = 0 /\ exists fl', heap s' fl' al) \/
     exists a k fl', r = a + HDR /\ al !! a = None /\ nbytes <= HDR * (k - 1) /\
       heap s' fl' (<[a := k]> al)).
Proof.
  intros Hready Hn31 Hn. unfold malloc.
  set (nunits := u32 ((nbytes + HDR - 1) / HDR + 1)).
  assert (Hu : 1 <= nunits /\ nbytes <= HDR * (nunits - 1) /\ nunits * HDR < W31).
  { unfold nunits, HDR. rewrite u32_small by dlia. dlia. }
  assert (Hloop : forall s1, heap s1 fl al -> kept_bytes al (umem s) (umem s1) -> exists r s',
    while n (malloc_body freep_ n nunits) (hptr (umem s1) freep_, hptr (umem s1) (hptr (umem s1) freep_)) s1 = Ok r s' /\
    kept_bytes al (umem s) (umem s') /\
    ((r = 0 /\ exists fl', heap s' fl' al) \/
     exists a k fl', r = a + HDR /\ al !! a = None /\ nbytes <= HDR * (k - 1) /\ heap s' fl' (<[a := k]> al))).
  { intros s1 Hh Hk1. destruct (malloc_loop s1 fl al nunits n Hh ltac:(lia) ltac:(lia) Hn) as (r & s' & Hrun & Hk & Hres).
    exists r, s'. split; [done|]. split.
    - intros a j x Ha Hx. rewrite (Hk a j x Ha Hx). by apply (Hk1 a j).
    - destruct Hres as [?|(a & fl' & Hr & Hnone & Hh')]; [by left|right]. exists a, nunits, fl'. split; [done|]. split; [done|]. split; [lia|done]. }
  destruct Hready as [Hh|(Hf0 & -> & -> & Hb)].
  - pose proof (fl_freep _ _ (h_list _ _ _ Hh)) as Hf.
    assert (hptr (umem s) freep_ <> 0).
    { pose proof Hst as (? & _ & ? & _). unfold HDR in *.
      apply elem_of_cons in Hf as [Hf|([q j] & Hf & Hq)%list_elem_of_fmap]; rewrite Hf; [lia|].
      apply (ordered_elem _ _ _ (fl_ordered _ _ (h_list _ _ _ Hh))) in Hq. cbn [fst] in *. lia. }
    unfold freep, ptr. mred. destruct (Z.eqb_spec (hptr (umem s) freep_) 0); [done|].
    apply (Hloop s Hh). by intros ???.
  - set (s1 := s.[umem := set_hsize (set_hptr (set_hptr (umem s) freep_ base) base base) base 0]).
    pose proof (setup_ok s Hb) as Hh. fold s1 in Hh.
    destruct Hst as (Hb0 & Hfp0 & Hblo & Hflo & Hbf). unfold TOP, HDR in *.
    assert (Hfp : hptr (umem s1) freep_ = base).
    { unfold s1, upd_field. cbn [umem]. rewrite hptr_set_hsize, hptr_set_hptr_ne, hptr_set_hptr by lia. done. }
    specialize (Hloop s1 Hh ltac:(by intros ???)). rewrite Hfp in Hloop.
    unfold freep, ptr, set_freep, set_ptr, set_size, umemory. mred. rsimpl_goal. rewrite Hf0. cbn [Z.eqb].
    exact Hloop.
Qed.

(** C30: [free] terminates, takes back a block handed out by [malloc] and merges
    it with the free blocks next to it: it covers exactly the space it covered
    and that block, no two free blocks are adjacent, and no byte of the other
    blocks handed out is changed. *)
Theorem free_spec s fl al a k n :
  heap s fl al -> al !! a = Some k -> (length fl < n)%nat ->
  exists s' fl', free freep_ n (a + HDR) s = Ok tt s' /\ heap s' fl' (delete a al) /\
    (forall x, covered fl' x <-> covered fl x \/ covers (a, k) x) /\
    kept_bytes (delete a al) (umem s) (umem s').
Proof.
  intros Hh Ha Hn. pose proof Hh as [Hl Hb Hf Hal Hd Hs]. destruct (Hal a k Ha) as (Hk1 & Hlo & Hend & Hsz).
  destruct (free_ok s fl a k n Hl Hsz Hk1 Hlo ltac:(lia)) as (m' & fl' & Hrun & Hl' & _ & Hcov & Hm');
    [intros x Hx; by eapply Hs|done|].
  assert (Hkb : kept_bytes (delete a al) (umem s) m').
  { intros b j x [Hne Hb']%lookup_delete_Some Hx. apply Hm'.
    - by eapply Hs.
    - intros Hx'. by apply Hne, (Hd a k b j x).
    - destruct (Hal b j Hb') as (_ & Hlob & _). destruct Hst as (_ & _ & H1 & H2 & _).
      unfold is_static, covers in *. cbn [fst] in *. lia. }
  exists (s.[umem := m']), fl'. split; [done|]. split; [|by split].
  split; unfold upd_field; cbn [umem uenv]; [done|done| | | |].
  - intros x Hx. apply Hcov in Hx as [Hx|Hx]; [by apply Hf|].
    unfold covers in Hx. lia.
  - intros b j Hb'. pose proof Hb' as [Hne Hbj]%lookup_delete_Some.
    destruct (Hal b j Hbj) as (H1 & H2 & H3 & H4). split; [done|]. split; [done|]. split; [done|].
    by rewrite (hsize_kept _ _ _ _ _ Hkb Hb' H1).
  - intros b1 j1 b2 j2 x [_ H1]%lookup_delete_Some [_ H2]%lookup_delete_Some. by apply Hd.
  - intros b j x [Hne Hbj]%lookup_delete_Some Hx Hcx. apply Hcov in Hcx as [Hcx|Hcx]; [by eapply Hs|].
    by apply Hne, (Hd a k b j x).
Qed.
End heap.

(** ** A small heap *)

(** The environment is the break; [sbrk] moves it below a limit. *)
#[export] Instance brk_os : UserOs Z := {
  os_read _ _ e := (-1, [], e);
  os_write _ _ e := (-1, e);
  os_open _ _ e := (-1, e);
  os_close _ e := (-1, e);
  os_fstat _ e := (-1, [], e);
  os_sbrk n e := if e + n <? 0x100000 then (e, e + n) else (-1, e);
}.

Lemma brk_grow n e : 0 < n ->
  (os_sbrk n e).1 = -1 /\ (os_sbrk n e).2 = e \/
  (os_sbrk n e).1 = e /\ (os_sbrk n e).2 = e + n /\ e + n < TOP.
Proof.
  intros Hn. cbn [os_sbrk brk_os]. destruct (Z.ltb_spec (e + n) 0x100000); [right|by left].
  unfold TOP, HDR. cbn [fst snd]. lia.
Qed.

Lemma demo_statics : statics 1000 1016 2000.
Proof. unfold statics, HDR. lia. Qed.

(** One block of two units handed out, nothing free. *)
Definition demo_heap_mem : gmap Z Z :=
  set_hsize (set_hsize (set_hptr (set_hptr ∅ 1016 1000) 1000 1000) 1000 0) 2000 2.

Lemma demo_heap : heap 1000 1016 2000 id (US demo_heap_mem 2032) [] {[ 2000 := 2 ]}.
Proof.
  split; cbn [umem uenv].
  - split; [by vm_compute| |by vm_compute; left|].
    + done.
    + intros b Hb. by apply elem_of_nil in Hb.
  - unfold TOP, HDR, id. lia.
  - intros x Hx. by apply covered_nil in Hx.
  - intros a n [<- <-]%lookup_singleton_Some. split; [lia|]. split; [lia|]. split; [|by vm_compute].
    unfold bend, HDR, id. simpl. lia.
  - intros a n b k x [<- <-]%lookup_singleton_Some [<- <-]%lookup_singleton_Some. done.
  - intros a n x _ _ Hx. by apply covered_nil in Hx.
Qed.

Lemma malloc_spec_witness :
  exists r s', malloc 1000 1016 9 100 (US demo_heap_mem 2032) = Ok r s' /\
    kept_bytes {[ 2000 := 2 ]} demo_heap_mem (umem s') /\
    ((r = 0 /\ exists fl', heap 1000 1016 2000 id s' fl' {[ 2000 := 2 ]}) \/
     exists a k fl', r = a + HDR /\ ({[ 2000 := 2 ]} : gmap Z Z) !! a = None /\ 100 <= HDR * (k - 1) /\
       heap 1000 1016 2000 id s' fl' (<[a := k]> {[ 2000 := 2 ]})).
Proof.
  apply (malloc_spec 1000 1016 2000 demo_statics id brk_grow (US demo_heap_mem 2032) [] {[ 2000 := 2 ]} 100 9).
  - left. apply demo_heap.
  - lia.
  - simpl. lia.
Defined.

Lemma free_spec_witness :
  exists s' fl', free 1016 9 (2000 + HDR) (US demo_heap_mem 2032) = Ok tt s' /\
    heap 1000 1016 2000 id s' fl' (delete 2000 {[ 2000 := 2 ]}) /\
    (forall x, covered fl' x <-> covered [] x \/ covers (2000, 2) x) /\
    kept_bytes (delete 2000 {[ 2000 := 2 ]}) demo_heap_mem (umem s').
Proof.
  apply (free_spec 1000 1016 2000 demo_statics id (US demo_heap_mem 2032) [] {[ 2000 := 2 ]} 2000 2 9).
  - apply demo_heap.
  - by rewrite lookup_singleton_eq.
  - simpl. lia.
Defined.
