(* ===== verification/Ust.v ===== *)
(** The user-level threads library (src/ust/basic_threads.c): a fixed table of
    coroutines and a round-robin scheduler.

    A thread's code is the tree of what it does between switches, so a saved
    [ucontext_t] is the tree that is left; a tree has no infinite path, that
    is, every thread's own function terminates when it is resumed often
    enough.  [malloc] and [free] of the host's C library are an interface. *)

From Stdlib Require Import Wellfounded.
From S2P Require Import Prelude.

Definition MAX_THREADS : nat := 5.

(** ** Thread code *)

(** [S] is the state the threads share. *)
Inductive code (S : Type) : Type :=
| Return                                   (* the thread's function returns *)
| Finish                                   (* [finish_thread()] *)
| Act (f : S -> S) (k : S -> code S)       (* a computation, then go on *)
| Yield (k : code S)                       (* [yield()] *)
| Create (child k : code S).               (* [create_new_thread(child)] *)
Arguments Return {S}. Arguments Finish {S}. Arguments Act {S}. Arguments Yield {S}. Arguments Create {S}.

(** The allocator of the host: [host_malloc] returns 0 when it fails;
    [host_live] is the set of blocks not yet freed. *)
Class Host (H : Type) := {
  host_malloc : H -> Z * H;
  host_free : Z -> H -> H;
  host_live : H -> gset Z;
}.

Class HostOk (H : Type) `{Host H} : Prop := {
  malloc_live h :
    (host_malloc h).1 = 0 /\ host_live (host_malloc h).2 = host_live h \/
    (host_malloc h).1 <> 0 /\ (host_malloc h).1 ∉ host_live h /\
    host_live (host_malloc h).2 = {[ (host_malloc h).1 ]} ∪ host_live h;
  free_live p h : p ∈ host_live h -> host_live (host_free p h) = host_live h ∖ {[ p ]};
}.

(** ** The library's globals *)

Record ust (S H : Type) := Ust {
  threads : list (option (code S));        (* the saved contexts *)
  stacks : list Z;                         (* their [uc_stack.ss_sp] *)
  active : list bool;
  num_threads : nat;
  current : nat;
  shared : S;
  host : H;
}.
Arguments Ust {S H}. Arguments threads {S H}. Arguments stacks {S H}. Arguments active {S H}.
Arguments num_threads {S H}. Arguments current {S H}. Arguments shared {S H}. Arguments host {S H}.
#[export] Instance eta_ust S H : Eta (ust S H) := fun s =>
  Ust (threads s) (stacks s) (active s) (num_threads s) (current s) (shared s) (host s).

(** A routine returns or ends the program with [exit]; reading a context that
    was never made, or an array out of range, is not defined by C. *)
Inductive result (A : Type) :=
| Ok (a : A)
| Exit (status : Z)
| Undefined.
Arguments Ok {A}. Arguments Exit {A}. Arguments Undefined {A}.

Definition rbind {A B} (r : result A) (k : A -> result B) : result B :=
  match r with Ok a => k a | Exit n => Exit n | Undefined => Undefined end.

(** ** The operations *)

Section ust.
Context {S H : Type} {hst : Host H}.
Abbreviation T := (ust S H).
Implicit Types s : T.

Definition initialize_basic_threads s : T :=
  s.[active := replicate MAX_THREADS false].[num_threads := 0%nat].

(** The [while] of [find_empty], with [n] iterations left. *)
Fixpoint find_empty_from (n i : nat) (act : list bool) : result Z :=
  match n with
  | O => Undefined
  | Datatypes.S n =>
      match act !! i with
      | None => Undefined
      | Some true =>
          if (MAX_THREADS <=? i + 1)%nat then Ok (-1) else find_empty_from n (i + 1) act
      | Some false => Ok (Z.of_nat i)
      end
  end.

Definition find_empty s : result Z := find_empty_from MAX_THREADS 0 (active s).

Definition create_new_parameterized_thread (child : code S) s : result T :=
  rbind (find_empty s) (fun empty =>
    if empty =? -1 then Exit 1 else
    let empty := Z.to_nat empty in
    let '(sp, h) := host_malloc (host s) in
    let s := s.[stacks := <[empty := sp]> (stacks s)].[host := h] in
    if sp =? 0 then Exit 1 else
    let s := s.[threads := <[empty := Some child]> (threads s)] in
    let s := s.[active := <[empty := true]> (active s)] in
    Ok (if (num_threads s <=? empty)%nat then s.[num_threads := (empty + 1)%nat] else s)).

Definition create_new_thread (child : code S) s : result T :=
  create_new_parameterized_thread child s.

(** [finish_thread], up to the switch to the scheduler: nothing is left to
    run in the context it saves. *)
Definition finish_thread s : T :=
  s.[active := <[current s := false]> (active s)].[threads := <[current s := None]> (threads s)].

(** [yield], up to the switch to the scheduler. *)
Definition yield (k : code S) s : T := s.[threads := <[current s := Some k]> (threads s)].

(** The current thread from where it was resumed to its next switch;
    [thread_helper] calls [finish_thread] when the function returns. *)
Fixpoint thread_helper (c : code S) s : result T :=
  match c with
  | Return => Ok (finish_thread s)
  | Finish => Ok (finish_thread s)
  | Act f k => thread_helper (k (shared s)) (s.[shared := f (shared s)])
  | Yield k => Ok (yield k s)
  | Create child k => rbind (create_new_thread child s) (thread_helper k)
  end.

(** [swapcontext(&scheduler, &threads[i])] *)
Definition swap_to (i : nat) s : result T :=
  match threads s !! i with
  | Some (Some c) => thread_helper c s
  | _ => Undefined
  end.

(** One iteration of the [for] of [schedule_threads]. *)
Definition schedule_one (i : nat) (run : bool) s : result (bool * T) :=
  match active s !! i with
  | None => Undefined
  | Some false => Ok (run, s)
  | Some true =>
      let s := s.[current := i] in
      rbind (swap_to i s) (fun s =>
        match active s !! i, stacks s !! i with
        | Some false, Some sp => Ok (true, s.[host := host_free sp (host s)])
        | Some true, _ => Ok (true, s)
        | _, _ => Undefined
        end)
  end.

(** The [for] from [i] on; its bound is read again in each iteration. *)
Fixpoint schedule_pass (n i : nat) (run : bool) s : result (bool * T) :=
  if (i <? num_threads s)%nat then
    match n with
    | O => Undefined
    | Datatypes.S n =>
        rbind (schedule_one i run s) (fun '(run, s) => schedule_pass n (i + 1) run s)
    end
  else Ok (run, s).

(** [None] when [fuel] passes were not enough. *)
Fixpoint schedule_threads (fuel : nat) s : option (result T) :=
  match fuel with
  | O => None
  | Datatypes.S fuel =>
      match schedule_pass MAX_THREADS 0 false s with
      | Ok (run, s) => if run then schedule_threads fuel s else Some (Ok s)
      | Exit n => Some (Exit n)
      | Undefined => Some Undefined
      end
  end.
End ust.
