(* ===== verification/UstThm.v ===== *)
(** The scheduler of src/ust/basic_threads.c runs every thread to its end, in
    turns: it refines a round robin over the code the threads have still to run,
    without contexts, stacks or flags ([rr_runs]).

    Each resumption replaces a thread's code by a part of it, and new threads'
    code is a part of their creator's: the multiset of codes decreases in the
    multiset order, which is well founded. *)

From Stdlib Require Import Wellfounded Relation_Operators.
From S2P Require Import Prelude Ust.

(** ** The multiset order on lists *)

Section multiset.
Context {C : Type} (sub : C -> C -> Prop).

(** One element replaced by smaller ones. *)
Definition mstep (M N : list C) : Prop :=
  exists A c K, N ≡ₚ c :: A /\ M ≡ₚ K ++ A /\ Forall (fun k => sub k c) K.

Lemma mstep_perm M M' N N' : M ≡ₚ M' -> N ≡ₚ N' -> mstep M N -> mstep M' N'.
Proof.
  intros HM HN (A & c & K & H1 & H2 & H3). exists A, c, K. by rewrite <- HM, <- HN.
Qed.

Lemma Acc_perm M N : M ≡ₚ N -> Acc mstep M -> Acc mstep N.
Proof.
  intros HMN [H]. constructor. intros M' HM'. apply H. by eapply mstep_perm; [reflexivity|symmetry|].
Qed.

Lemma Acc_cons_aux a M0 :
  (forall b, sub b a -> forall M, Acc mstep M -> Acc mstep (b :: M)) ->
  Acc mstep M0 -> (forall M, mstep M M0 -> Acc mstep (a :: M)) -> Acc mstep (a :: M0).
Proof.
  intros Hsub HM0 Hstep. constructor. intros M (A & c & K & HN & HM & HK).
  assert (Hin : c ∈ a :: M0) by (rewrite HN; left).
  apply (Acc_perm (K ++ A)); [by symmetry|]. clear M HM.
  apply elem_of_cons in Hin as [->|Hin].
  - apply Permutation_cons_inv in HN. 
    assert (HA : Acc mstep A) by by eapply Acc_perm.
    clear HN Hstep. induction HK as [|k K Hk _ IH]; [done|]. by apply Hsub.
  - apply list_elem_of_split in Hin as (X & Y & ->).
    assert (HA : A ≡ₚ a :: X ++ Y).
    { apply (Permutation_cons_inv (a := c)). rewrite <- HN. rewrite <- Permutation_middle.
      by rewrite Permutation_swap. }
    apply (Acc_perm (a :: K ++ X ++ Y)).
    { rewrite HA. by rewrite Permutation_middle. }
    apply Hstep. exists (X ++ Y), c, K. split; [by rewrite Permutation_middle|done].
Qed.

Lemma mstep_wf : well_founded sub -> well_founded mstep.
Proof.
  intros Hwf.
  assert (Hcons : forall a M, Acc mstep M -> Acc mstep (a :: M)).
  { intros a. induction (Hwf a) as [a _ IHa]. intros M HM. induction HM as [M HM IHM].
    apply Acc_cons_aux; [done|by constructor|done]. }
  intros M. induction M as [|a M IH]; [|by apply Hcons].
  constructor. intros M (A & c & K & HN & _). by apply Permutation_nil_cons in HN.
Qed.
End multiset.

(** ** Parts of a code *)

Inductive part {S} : code S -> code S -> Prop :=
| part_act f k s : part (k s) (Act f k)
| part_yield k : part k (Yield k)
| part_child child k : part child (Create child k)
| part_create child k : part k (Create child k).

Lemma part_wf S : well_founded (@part S).
Proof.
  intros c. induction c as [| |f k IH|k IH|child IH1 k IH2]; constructor; intros c' Hc'; inversion Hc'; subst; auto.
Qed.

Definition smaller {S} : relation (code S) := clos_trans _ part.

Lemma smaller_wf S : well_founded (@smaller S).
Proof. apply wf_clos_trans, part_wf. Qed.

Lemma smaller_part {S} (c c' c'' : code S) : smaller c c' -> part c' c'' -> smaller c c''.
Proof. intros. eapply t_trans; [done|by apply t_step]. Qed.

(** ** Changing one slot *)

Lemma omap_slot {C} (g g' : nat -> option C) n i c :
  (i < n)%nat -> g i = None -> g' i = Some c -> (forall j, j <> i -> g' j = g j) ->
  omap g' (seq 0 n) ≡ₚ c :: omap g (seq 0 n).
Proof.
  intros Hi Hg Hg' Hother.
  assert (Hsplit : seq 0 n = seq 0 i ++ i :: seq (S i) (n - S i)).
  { replace n with (i + S (n - S i))%nat at 1 by lia. by rewrite seq_app. }
  assert (Hext : forall a k, (forall j, j ∈ seq a k -> j <> i) -> omap g' (seq a k) = omap g (seq a k)).
  { intros a k Hne. assert (H : Forall (fun j => g' j = g j) (seq a k)).
    { apply Forall_forall. intros j Hj. apply Hother, Hne. exact Hj. }
    clear Hne. induction H as [|j l Hj _ IH]; [done|]. cbn. by rewrite Hj, IH. }
  rewrite Hsplit, !omap_app. cbn. rewrite Hg, Hg'.
  rewrite (Hext 0%nat i), (Hext (S i) (n - S i)%nat).
  - by rewrite Permutation_middle.
  - intros j Hj%elem_of_seq. lia.
  - intros j Hj%elem_of_seq. lia.
Qed.

(** ** The round robin *)

(** What the scheduler promises, on the table of the codes that the threads
    have still to run: an entry is free when its thread has ended, or none was
    ever created there. *)
Section round_robin.
Context {S : Type}.
Abbreviation table := (list (option (code S))).

Definition is_free (o : option (code S)) : bool := match o with None => true | Some _ => false end.

(** Thread [i] goes on with [c] up to its next [yield], where it will be
    resumed, or to its end, which frees its entry; its computations act on the
    shared state; a new thread takes the first free entry, and there must be
    one. *)
Fixpoint resume (i : nat) (c : code S) (t : table) (sh : S) : option (table * S) :=
  match c with
  | Return | Finish => Some (<[i := None]> t, sh)
  | Act f k => resume i (k sh) t (f sh)
  | Yield k => Some (<[i := Some k]> t, sh)
  | Create child k =>
      match find_idx is_free t with
      | None => None
      | Some (e, _) => resume i k (<[e := Some child]> t) sh
      end
  end.

Definition rr_one (i : nat) (t : table) (sh : S) : option (table * S) :=
  match t !! i with
  | Some (Some c) => resume i c t sh
  | _ => Some (t, sh)
  end.

(** One turn for each thread among the [n] entries from [i] on, in their
    order. *)
Fixpoint rr_pass (n i : nat) (t : table) (sh : S) : option (table * S) :=
  match n with
  | O => Some (t, sh)
  | Datatypes.S n => match rr_one i t sh with Some (t, sh) => rr_pass n (i + 1) t sh | None => None end
  end.

(** Passes until all threads have ended; the shared state they leave, or
    [None] when a thread could not be created. *)
Inductive rr_runs : table -> S -> option S -> Prop :=
| rr_end t sh : Forall (fun o => o = None) t -> rr_runs t sh (Some sh)
| rr_full t sh : rr_pass MAX_THREADS 0 t sh = None -> rr_runs t sh None
| rr_next t sh t' sh' r : rr_pass MAX_THREADS 0 t sh = Some (t', sh') -> rr_runs t' sh' r -> rr_runs t sh r.

Lemma rr_one_free i t sh : t !! i <> None -> (forall c, t !! i <> Some (Some c)) -> rr_one i t sh = Some (t, sh).
Proof. unfold rr_one. destruct (t !! i) as [[c|]|]; intros H1 H2; [by destruct (H2 c)|done|done]. Qed.

Lemma rr_pass_free n i t sh :
  (forall j c, (i <= j)%nat -> t !! j <> Some (Some c)) -> rr_pass n i t sh = Some (t, sh).
Proof.
  revert i. induction n as [|n IH]; intros i H; [done|]. cbn [rr_pass].
  replace (rr_one i t sh) with (Some (t, sh)).
  - apply IH. intros j c Hj. apply H. lia.
  - unfold rr_one. destruct (t !! i) as [[c|]|] eqn:E; [|done|done]. by destruct (H i c).
Qed.
End round_robin.

(** Two scans that agree. *)
Lemma find_from_agree {A B} (p : A -> bool) (q : B -> bool) l1 l2 i :
  Forall2 (fun x y => p x = q y) l1 l2 -> fst <$> find_from p l1 i = fst <$> find_from q l2 i.
Proof.
  intros H. revert i. induction H as [|x y l1 l2 Hxy _ IH]; intros i; [done|]. simpl. rewrite Hxy.
  by destruct (q y).
Qed.

(** ** The allocator *)

Section host.
Context {H : Type} {hst : Host H}.

Inductive host_step (h : H) : H -> Prop :=
| host_step_malloc : host_step h (host_malloc h).2
| host_step_free p : p ∈ host_live h -> host_step h (host_free p h).

(** Calls of the allocator that start from [h] come to a [malloc] that fails. *)
Definition malloc_fails (h : H) : Prop := exists h', rtc host_step h h' /\ (host_malloc h').1 = 0.

Lemma malloc_fails_later h h' : rtc host_step h h' -> malloc_fails h' -> malloc_fails h.
Proof. intros Hs (h2 & Hs2 & E). exists h2. split; [by etrans|done]. Qed.
End host.

(** ** The invariant of the table *)

Section sched.
Context {S H : Type} {hst : Host H} {hok : HostOk H}.
(** The blocks that are not thread stacks. *)
Context (L0 : gset Z).
Abbreviation T := (ust S H).
Implicit Types s : T.

(** Slot [i] owns a stack: it is active, or it is the slot [x] of the thread
    that has just finished. *)
Definition owner s (x : option nat) (i : nat) : Prop := active s !! i = Some true \/ x = Some i.

Record inv (x : option nat) s : Prop := Inv {
  i_len : length (active s) = MAX_THREADS /\ length (threads s) = MAX_THREADS /\
          length (stacks s) = MAX_THREADS;
  i_num : (num_threads s <= MAX_THREADS)%nat;
  i_lt i : active s !! i = Some true -> (i < num_threads s)%nat;
  i_ctx i : active s !! i = Some true -> exists c, threads s !! i = Some (Some c);
  i_stack i : owner s x i -> exists sp, stacks s !! i = Some sp /\ sp ∉ L0;
  i_inj i j sp : owner s x i -> owner s x j -> stacks s !! i = Some sp -> stacks s !! j = Some sp -> i = j;
  i_live p : p ∈ host_live (host s) <-> p ∈ L0 \/ exists i, owner s x i /\ stacks s !! i = Some p;
}.

(** The code an active slot has still to run; all of them; all but slot [i]'s. *)
Definition slot s (i : nat) : option (code S) :=
  match active s !! i with Some true => mjoin (threads s !! i) | _ => None end.
Definition pend s : list (code S) := omap (slot s) (seq 0 MAX_THREADS).
Definition others s (i : nat) : list (code S) :=
  omap (fun j => if decide (j = i) then None else slot s j) (seq 0 MAX_THREADS).

(** The table of the round robin. *)
Definition tbl s : list (option (code S)) := slot s <$> seq 0 MAX_THREADS.

Lemma tbl_lookup s i : (i < MAX_THREADS)%nat -> tbl s !! i = Some (slot s i).
Proof. intros Hi. unfold tbl. by rewrite list_lookup_fmap, lookup_seq_lt. Qed.

Lemma tbl_some s i c : tbl s !! i = Some (Some c) -> slot s i = Some c.
Proof. unfold tbl. rewrite list_lookup_fmap. destruct (seq 0 MAX_THREADS !! i) as [j|] eqn:E; [|done].
  apply lookup_seq in E as [-> _]. by intros [=]. Qed.

Lemma tbl_insert s s' i o :
  (i < MAX_THREADS)%nat -> slot s' i = o -> (forall j, j <> i -> slot s' j = slot s j) -> tbl s' = <[i := o]> (tbl s).
Proof.
  intros Hi Ho Hj. apply list_eq. intros k. destruct (decide (k = i)) as [->|Hne].
  - rewrite tbl_lookup, list_lookup_insert_eq, Ho by (unfold tbl; rewrite ?length_fmap, ?length_seq; done). done.
  - rewrite list_lookup_insert_ne by done. unfold tbl. rewrite !list_lookup_fmap.
    destruct (seq 0 MAX_THREADS !! k) as [j|] eqn:E; [|done]. apply lookup_seq in E as [-> _].
    simpl. by rewrite Hj.
Qed.

Lemma slot_free x s i : inv x s -> (i < MAX_THREADS)%nat -> is_free (slot s i) = true <-> active s !! i = Some false.
Proof.
  intros I Hi. unfold slot. destruct (i_len _ _ I) as (Hla & _).
  destruct (lookup_lt_is_Some_2 (active s) i ltac:(lia)) as [[] E]; rewrite E; [|done].
  destruct (i_ctx _ _ I i E) as (c & ->). done.
Qed.

Lemma tbl_active x s : inv x s -> Forall2 (fun o a => is_free o = negb a) (tbl s) (active s).
Proof.
  intros I. apply Forall2_same_length_lookup. destruct (i_len _ _ I) as (Hla & _). split.
  { unfold tbl. by rewrite length_fmap, length_seq. }
  intros i o a Ho Ha. pose proof (lookup_lt_Some _ _ _ Ha) as Hi. rewrite tbl_lookup in Ho by lia.
  injection Ho as <-. unfold slot. rewrite Ha. destruct a; [|done].
  destruct (i_ctx _ _ I i Ha) as (c & ->). done.
Qed.

Lemma pend_others s i c : (i < MAX_THREADS)%nat -> slot s i = Some c -> pend s ≡ₚ c :: others s i.
Proof.
  intros Hi Hc. apply (omap_slot _ _ _ i); [done| |done|].
  - by rewrite decide_True.
  - intros j Hj. by rewrite decide_False.
Qed.

Lemma pend_others_none s i : slot s i = None -> pend s = others s i.
Proof.
  intros Hi. unfold pend, others. apply list_omap_ext. apply Forall_Forall2_diag, Forall_true.
  intros j. case_decide; [by subst|done].
Qed.

(** ** [find_empty] and thread creation *)

Lemma find_empty_from_eq n i (act : list bool) :
  length act = MAX_THREADS -> (n + i = MAX_THREADS)%nat -> (0 < n)%nat ->
  find_empty_from n i act = Ok (match find_from negb (drop i act) i with Some (e, _) => Z.of_nat e | None => -1 end).
Proof.
  intros Hlen. revert i. induction n as [|n IH]; intros i Hi Hn; [lia|]. cbn [find_empty_from].
  destruct (lookup_lt_is_Some_2 act i ltac:(lia)) as [a Ha]. rewrite Ha, (drop_S _ _ _ Ha).
  destruct a; [|done]. cbn [find_from negb].
  destruct (Nat.leb_spec MAX_THREADS (i + 1)); [by rewrite drop_ge by lia|].
  rewrite IH by lia. by rewrite Nat.add_1_r.
Qed.

(** It is the first free entry of the table. *)
Lemma find_empty_ok x s : inv x s ->
  find_idx is_free (tbl s) = None /\ find_empty s = Ok (-1) \/
  exists e o, find_idx is_free (tbl s) = Some (e, o) /\ find_empty s = Ok (Z.of_nat e) /\ active s !! e = Some false.
Proof.
  intros I. destruct (i_len _ _ I) as (Hla & _). unfold find_empty.
  rewrite find_empty_from_eq by (done || unfold MAX_THREADS; lia). rewrite drop_0.
  pose proof (find_from_agree _ _ _ _ 0 (tbl_active x s I)) as E. unfold find_idx.
  destruct (find_from negb (active s) 0) as [[e a]|] eqn:Ea, (find_from is_free (tbl s) 0) as [[e' o]|] eqn:Eo; try done.
  - injection E as ->. right. exists e, o. split_and!; [done|done|].
    apply find_idx_Some in Ea as (Ha & Hn & _). by destruct a.
  - by left.
Qed.

Lemma create_ok child s :
  inv None s ->
  (create_new_thread child s = Exit 1 /\ (find_idx is_free (tbl s) = None \/ malloc_fails (host s))) \/
  exists s' e o, create_new_thread child s = Ok s' /\ inv None s' /\ current s' = current s /\
    shared s' = shared s /\ rtc host_step (host s) (host s') /\ find_idx is_free (tbl s) = Some (e, o) /\
    (e < MAX_THREADS)%nat /\ active s !! e = Some false /\ active s' = <[e := true]> (active s) /\
    slot s' e = Some child /\ (forall j, j <> e -> slot s' j = slot s j).
Proof.
  intros I. pose proof (find_empty_ok None s I) as Hfe. destruct I as [(Hla & Hlt & Hls) Hnum Hilt Hctx Hst Hinj Hlive].
  unfold create_new_thread, create_new_parameterized_thread.
  destruct Hfe as [[Hfe ->]|(e & o & Hfe & -> & He)]; [by left; split; [|left]|]. cbn [rbind].
  destruct (Z.eqb_spec (Z.of_nat e) (-1)); [lia|]. rewrite Nat2Z.id.
  pose proof (lookup_lt_Some _ _ _ He) as Hlt_e. rewrite Hla in Hlt_e.
  pose proof (malloc_live (host s)) as Hm. pose proof (host_step_malloc (host s)) as Hstep.
  pose proof (fun E => ex_intro _ (host s) (conj (rtc_refl _ _) E) : malloc_fails (host s)) as Hfail.
  destruct (host_malloc (host s)) as [sp h]. cbn [fst snd] in Hm, Hstep, Hfail.
  destruct (Z.eqb_spec sp 0) as [E|Hsp]; [left; split; [done|right; by apply Hfail]|].
  destruct Hm as [[? _]|(_ & Hfresh & Hlive')]; [done|].
  right. set (s' := s.[stacks := <[e := sp]> (stacks s)].[host := h]
     .[threads := <[e := Some child]> (threads s)].[active := <[e := true]> (active s)]
     .[num_threads := if (num_threads s <=? e)%nat then (e + 1)%nat else num_threads s]).
  exists s', e, o. split; [unfold s'; rsimpl_goal; by destruct (num_threads s <=? e)%nat|].
  assert (Hact : forall i, active s' !! i = Some true <-> i = e \/ active s !! i = Some true).
  { intros i. unfold s'. rsimpl_goal. rewrite list_lookup_insert_Some. naive_solver lia. }
  assert (Hno : forall i, active s !! i = Some true -> i <> e) by (intros i Hi ->; congruence).
  assert (Hstk : forall i q, owner s' None i -> stacks s' !! i = Some q <->
    i = e /\ q = sp \/ active s !! i = Some true /\ stacks s !! i = Some q).
  { intros i q [Hi|]; [|done]. apply Hact in Hi. unfold s'. rsimpl_goal.
    rewrite list_lookup_insert_Some. naive_solver lia. }
  assert (Hspn : forall q, q ∈ L0 \/ (exists i, active s !! i = Some true /\ stacks s !! i = Some q) -> q <> sp).
  { intros q Hq ->. apply Hfresh, Hlive. destruct Hq as [?|(i & ? & ?)]; [by left|right]. exists i. by split; [left|]. }
  split; [|split_and!; [done|done|by apply rtc_once|done|done|done|done| |]].
  - split.
    + unfold s'. rsimpl_goal. by rewrite !length_insert.
    + unfold s'. rsimpl_goal. destruct (Nat.leb_spec (num_threads s) e); lia.
    + intros i Hi. apply Hact in Hi. unfold s'. rsimpl_goal.
      destruct (Nat.leb_spec (num_threads s) e), Hi as [->|Hi]; try lia; specialize (Hilt i Hi); lia.
    + intros i Hi. apply Hact in Hi. unfold s'. rsimpl_goal. destruct (decide (i = e)) as [->|Hne].
      * exists child. apply list_lookup_insert_eq. lia.
      * destruct Hi as [?|Hi]; [done|]. rewrite list_lookup_insert_ne by done. by apply Hctx.
    + intros i Hi. pose proof Hi as [Hi'|]; [|done]. apply Hact in Hi'. destruct Hi' as [->|Hi'].
      * exists sp. split; [apply Hstk; [done|by left]|]. intros Hin. by apply (Hspn sp); [left|].
      * destruct (Hst i (or_introl Hi')) as (q & Hq & Hq0). exists q. split; [|done].
        apply Hstk; [done|]. by right.
    + intros i j q Hi Hj Hqi Hqj. apply Hstk in Hqi, Hqj; [|done|done].
      destruct Hqi as [[-> ->]|[Hai Hqi]], Hqj as [[-> Heq]|[Haj Hqj]]; [done| | |].
      * exfalso. apply (Hspn sp); [right; eauto|done].
      * exfalso. subst q. apply (Hspn sp); [right; eauto|done].
      * by apply (Hinj i j q); [left|left| |].
    + intros p. unfold s' at 1. rsimpl_goal. rewrite Hlive', elem_of_union, elem_of_singleton, Hlive.
      split.
      * intros [->|[?|(i & [Hi|] & Hp)]]; [|by left| |done].
        -- right. exists e. assert (owner s' None e) by (left; apply Hact; by left). split; [done|]. apply Hstk; [done|by left].
        -- right. exists i. assert (owner s' None i) by (left; apply Hact; by right). split; [done|]. apply Hstk; [done|by right].
      * intros [?|(i & Ho & Hp)]; [by right; left|]. apply Hstk in Hp; [|done].
        destruct Hp as [[_ ->]|[Hi Hp]]; [by left|right; right]. exists i. by split; [left|].
  - unfold slot, s'. rsimpl_goal. by rewrite !list_lookup_insert_eq by lia.
  - intros j Hj. unfold slot, s'. rsimpl_goal. by rewrite !list_lookup_insert_ne by done.
Qed.

(** Changes that leave the table alone. *)
Lemma inv_same x s s' :
  active s' = active s -> threads s' = threads s -> stacks s' = stacks s ->
  num_threads s' = num_threads s -> host s' = host s -> inv x s -> inv x s'.
Proof. intros Ha Ht Hs Hn Hh [? ? ? ? ? ? ?]. unfold owner in *. split; unfold owner; congruence || (rewrite ?Ha, ?Ht, ?Hs, ?Hn, ?Hh; done). Qed.

(** ** One run of a thread *)

Lemma others_ext s s' i : (forall j, j <> i -> slot s' j = slot s j) -> others s' i = others s i.
Proof.
  intros Hs. unfold others. apply list_omap_ext, Forall_Forall2_diag, Forall_true.
  intros j. case_decide; [done|by apply Hs].
Qed.

(** The thread in slot [i] marks itself finished: it still owns its stack. *)
Lemma finish_ok s :
  inv None s -> active s !! current s = Some true ->
  inv (Some (current s)) (finish_thread s) /\ current (finish_thread s) = current s /\
  active (finish_thread s) !! current s = Some false /\
  others (finish_thread s) (current s) = others s (current s) /\
  tbl (finish_thread s) = <[current s := None]> (tbl s).
Proof.
  intros [(Hla & Hlt & Hls) Hnum Hilt Hctx Hst Hinj Hlive] Hcur. unfold finish_thread.
  pose proof (lookup_lt_Some _ _ _ Hcur) as Hlen.
  set (s' := _.[threads := _]).
  assert (Hown : forall i, owner s' (Some (current s)) i <-> owner s None i).
  { intros i. unfold owner, s'. rsimpl_goal. destruct (decide (i = current s)) as [->|Hne].
    - split; intros _; [by left|by right].
    - rewrite list_lookup_insert_ne by done. split; (intros [?|Heq]; [by left|congruence]). }
  assert (Hact : forall i, active s' !! i = Some true -> active s !! i = Some true /\ i <> current s).
  { intros i. unfold s'. rsimpl_goal. destruct (decide (i = current s)) as [->|Hne].
    - by rewrite list_lookup_insert_eq.
    - by rewrite list_lookup_insert_ne. }
  assert (Hother : forall j, j <> current s -> slot s' j = slot s j).
  { intros j Hj. unfold slot, s'. rsimpl_goal. by rewrite !list_lookup_insert_ne by done. }
  split; [|split_and!; [done| | |]].
  - split.
    + unfold s'. rsimpl_goal. by rewrite !length_insert.
    + done.
    + intros i Hi. apply Hilt, Hact, Hi.
    + intros i Hi. apply Hact in Hi as [Hi Hne]. unfold s'. rsimpl_goal.
      rewrite list_lookup_insert_ne by done. by apply Hctx.
    + intros i Hi. apply Hst, Hown, Hi.
    + intros i j q Hi Hj. apply Hinj; by apply Hown.
    + intros p. unfold s' at 1. rsimpl_goal. rewrite Hlive. by setoid_rewrite Hown.
  - unfold s'. rsimpl_goal. by apply list_lookup_insert_eq.
  - by apply others_ext.
  - apply tbl_insert; [lia| |exact Hother]. unfold slot, s'. rsimpl_goal. by rewrite list_lookup_insert_eq.
Qed.

(** What a run of code [c] by the current thread leaves behind. *)
Definition ran (c : code S) s s' : Prop :=
  current s' = current s /\ exists K, Forall (fun k => smaller k c) K /\
  others s' (current s) ≡ₚ K ++ others s (current s) /\
  (active s' !! current s = Some false /\ inv (Some (current s)) s' \/
   active s' !! current s = Some true /\ inv None s' /\
     exists k, slot s' (current s) = Some k /\ smaller k c) /\
  resume (current s) c (tbl s) (shared s) = Some (tbl s', shared s') /\ rtc host_step (host s) (host s').

(** Why it may end the program. *)
Definition cannot (c : code S) s : Prop :=
  resume (current s) c (tbl s) (shared s) = None \/ malloc_fails (host s).

Lemma ran_part c c' s0 s s' K :
  part c' c -> current s0 = current s -> Forall (fun k => part k c) K ->
  others s (current s) ≡ₚ K ++ others s0 (current s) ->
  resume (current s) c (tbl s0) (shared s0) = resume (current s) c' (tbl s) (shared s) ->
  rtc host_step (host s0) (host s) -> ran c' s s' -> ran c s0 s'.
Proof.
  intros Hpart Hcur HK Ho Hres Hhost (Hc & K' & HK' & Ho' & Hend & Hr & Hh). split; [congruence|]. rewrite Hcur.
  exists (K' ++ K). split_and!; [| | |by rewrite Hres|by etrans].
  - apply Forall_app. split; [|eapply Forall_impl; [exact HK|]; intros; by apply t_step].
    eapply Forall_impl; [exact HK'|]. intros k Hk. exact (smaller_part _ _ _ Hk Hpart).
  - by rewrite Ho', Ho, app_assoc.
  - destruct Hend as [?|(? & ? & k & Hk & Hkc)]; [by left|right]. split; [done|]. split; [done|].
    exists k. split; [done|]. exact (smaller_part _ _ _ Hkc Hpart).
Qed.

Lemma cannot_part c c' s0 s :
  current s0 = current s -> resume (current s) c (tbl s0) (shared s0) = resume (current s) c' (tbl s) (shared s) ->
  rtc host_step (host s0) (host s) -> cannot c' s -> cannot c s0.
Proof.
  intros Hc Hr Hh [E|E]; [left; by rewrite Hc, Hr|right; by eapply malloc_fails_later].
Qed.

Lemma finish_ran c s : inv None s -> active s !! current s = Some true ->
  resume (current s) c (tbl s) (shared s) = Some (<[current s := None]> (tbl s), shared s) ->
  ran c s (finish_thread s).
Proof.
  intros Hinv Hcur Hr. destruct (finish_ok s Hinv Hcur) as (H1 & H2 & H3 & H4 & H5).
  split; [done|]. exists []. split; [constructor|]. split; [by rewrite H4|].
  split; [by left|]. split; [by rewrite H5|done].
Qed.

Lemma yield_ran k s : inv None s -> active s !! current s = Some true -> ran (Yield k) s (yield k s).
Proof.
  intros Hinv Hcur. pose proof (lookup_lt_Some _ _ _ Hcur) as Hlen.
  destruct (i_len _ _ Hinv) as (Hla & Hlt & Hls).
  assert (Hslot : slot (yield k s) (current s) = Some k).
  { unfold slot, yield. rsimpl_goal. rewrite Hcur. by rewrite list_lookup_insert_eq by lia. }
  assert (Hother : forall j, j <> current s -> slot (yield k s) j = slot s j).
  { intros j Hj. unfold slot, yield. rsimpl_goal. by rewrite list_lookup_insert_ne by done. }
  split; [done|]. exists []. split; [constructor|]. split_and!; [by rewrite (others_ext s)| | |done].
  - right. split; [done|]. split; [|exists k; split; [done|apply t_step, part_yield]].
    destruct Hinv as [_ Hnum Hilt Hctx Hst Hinj Hlive].
    split; unfold owner, yield; rsimpl_goal; try done; [by rewrite length_insert|].
    intros i Hi. destruct (decide (i = current s)) as [->|Hne].
    + exists k. apply list_lookup_insert_eq. lia.
    + rewrite list_lookup_insert_ne by done. by apply Hctx.
  - cbn [resume]. by rewrite (tbl_insert s (yield k s) (current s) (Some k)) by (done || lia).
Qed.

Lemma thread_helper_ok c s :
  inv None s -> active s !! current s = Some true ->
  thread_helper c s = Exit 1 /\ cannot c s \/ exists s', thread_helper c s = Ok s' /\ ran c s s'.
Proof.
  revert s. induction c as [| |f k IH|k _|child _ k IH]; intros s Hinv Hcur; cbn [thread_helper].
  - right. eexists. split; [done|]. by apply finish_ran.
  - right. eexists. split; [done|]. by apply finish_ran.
  - set (s1 := s.[shared := f (shared s)]).
    assert (Hinv1 : inv None s1) by by apply (inv_same None s).
    destruct (IH (shared s) s1 Hinv1 Hcur) as [[-> Hf]|(s' & -> & Hran)].
    + left. split; [done|]. by apply (cannot_part (Act f k) (k (shared s)) s s1).
    + right. exists s'. split; [done|].
      eapply (ran_part _ _ s s1 s' []); [apply part_act|done|constructor|done|done|done|exact Hran].
  - right. eexists. split; [done|]. by apply yield_ran.
  - destruct (create_ok child s Hinv)
      as [[-> Hf]|(s1 & e & o & -> & Hinv1 & Hc1 & Hsh1 & Hh1 & Hfe & He & Hefree & Hact1 & Hse & Hsj)].
    { left. split; [done|]. destruct Hf as [Hf|Hf]; [left; cbn [resume]; by rewrite Hf|by right]. }
    cbn [rbind]. assert (Hne : e <> current s) by (intros ->; congruence).
    assert (Hcur1 : active s1 !! current s1 = Some true).
    { by rewrite Hc1, Hact1, list_lookup_insert_ne. }
    assert (Hres : resume (current s1) (Create child k) (tbl s) (shared s) = resume (current s1) k (tbl s1) (shared s1)).
    { cbn [resume]. by rewrite Hfe, Hsh1, (tbl_insert s s1 e (Some child)). }
    destruct (IH s1 Hinv1 Hcur1) as [[-> Hf]|(s' & -> & Hran)].
    { left. split; [done|]. by apply (cannot_part (Create child k) k s s1). }
    right. exists s'. split; [done|].
    eapply (ran_part _ _ s s1 s' [child]); [apply part_create|done|repeat constructor| |exact Hres|exact Hh1|exact Hran].
    rewrite Hc1. apply (omap_slot _ _ _ e); [done| | |].
    + rewrite decide_False by done. unfold slot. by rewrite Hefree.
    + by rewrite decide_False.
    + intros j Hj. case_decide; [done|by apply Hsj].
Qed.

(** ** The scheduler *)

Definition descends (M N : list (code S)) : Prop := mstep smaller M N.

Lemma descends_wf : well_founded (clos_trans _ descends).
Proof. apply wf_clos_trans, mstep_wf, smaller_wf. Qed.

(** A finished thread's stack is freed. *)
Lemma freed_ok i s sp :
  inv (Some i) s -> active s !! i = Some false -> stacks s !! i = Some sp -> sp ∉ L0 ->
  sp ∈ host_live (host s) -> inv None (s.[host := host_free sp (host s)]).
Proof.
  intros Hinv Hfin Hsp Hsp0 Hin. set (s2 := _.[host := _]).
  assert (Hown : forall j, owner s2 None j <-> owner s (Some i) j /\ j <> i).
  { intros j. unfold owner, s2. rsimpl_goal. split; [intros [?|?]; [|done]|intros [[?|[= ->]] ?]; [by left|done]].
    split; [by left|]. intros ->. congruence. }
  destruct Hinv as [Hlen Hnum Hilt Hctx Hst Hinj Hlive]. split; try done.
  - intros j Hj. apply Hown in Hj as [Hj _]. by apply Hst.
  - intros j1 j2 q H1 H2. apply Hown in H1 as [H1 _], H2 as [H2 _]. by apply Hinj.
  - intros p. unfold s2 at 1. rsimpl_goal. rewrite (free_live _ _ Hin), elem_of_difference, elem_of_singleton, Hlive.
    split.
    + intros [[?|(j & Hj & Hp)] Hne]; [by left|right]. exists j. split; [|done].
      apply Hown. split; [done|]. intros ->. congruence.
    + intros [Hp|(j & Hj & Hp)]; [split; [by left|by intros ->]|].
      apply Hown in Hj as [Hj Hne]. split; [right; eauto|]. intros ->. apply Hne.
      by apply (Hinj j i sp); [done|right| |].
Qed.

(** One entry of a pass. *)
Lemma schedule_one_ok i run s :
  inv None s -> (i < MAX_THREADS)%nat ->
  schedule_one i run s = Exit 1 /\ (rr_one i (tbl s) (shared s) = None \/ malloc_fails (host s)) \/
  exists run' s', schedule_one i run s = Ok (run', s') /\ inv None s' /\
    rr_one i (tbl s) (shared s) = Some (tbl s', shared s') /\ rtc host_step (host s) (host s') /\
    (run' = run /\ s' = s /\ active s !! i = Some false \/ run' = true /\ descends (pend s') (pend s)).
Proof.
  intros Hinv Hi. destruct (i_len _ _ Hinv) as (Hla & Hlt & Hls). unfold schedule_one.
  destruct (active s !! i) as [[]|] eqn:Ha; [| |apply lookup_ge_None_1 in Ha; lia].
  2: { right. exists run, s. split_and!; [done|done| |done|by left].
       apply rr_one_free; rewrite tbl_lookup by done; [done|]. intros c. unfold slot. by rewrite Ha. }
  destruct (i_ctx _ _ Hinv i Ha) as (c & Hc). set (s1 := s.[current := i]).
  assert (Hinv1 : inv None s1) by by apply (inv_same None s).
  assert (Hslot : slot s i = Some c) by (unfold slot; by rewrite Ha, Hc).
  assert (Hone : rr_one i (tbl s) (shared s) = resume i c (tbl s) (shared s)).
  { unfold rr_one. by rewrite tbl_lookup, Hslot. }
  rewrite Hone. unfold swap_to. change (threads s1) with (threads s). rewrite Hc.
  destruct (thread_helper_ok c s1 Hinv1 Ha) as [[-> Hf]|(s' & -> & Hcur & K & HK & Ho & Hend & Hres & Hhost)];
    [by left; split|].
  cbn [rbind]. change (current s1) with i in *.
  assert (Hpend : pend s ≡ₚ c :: others s i) by by apply pend_others.
  change (others s1 i) with (others s i) in Ho. right.
  destruct Hend as [(Hfin & Hinv')|(Hact & Hinv' & k & Hk & Hkc)].
  - destruct (i_stack _ _ Hinv' i (or_intror eq_refl)) as (sp & Hsp & Hsp0). rewrite Hfin, Hsp.
    set (s2 := s'.[host := host_free sp (host s')]). exists true, s2.
    assert (Hin : sp ∈ host_live (host s')) by (apply (i_live _ _ Hinv'); right; exists i; by split; [right|]).
    split_and!; [done|by apply (freed_ok i)|exact Hres|by eapply rtc_r; [exact Hhost|constructor]|].
    right. split; [done|]. exists (others s i), c, K. split; [done|]. split; [|done].
    change (pend s2) with (pend s'). rewrite (pend_others_none s' i); [done|]. unfold slot. by rewrite Hfin.
  - rewrite Hact. exists true, s'. split_and!; [by destruct (stacks s' !! i)|done|exact Hres|exact Hhost|].
    right. split; [done|]. exists (others s i), c, (k :: K). split; [done|]. split; [|by constructor].
    rewrite (pend_others s' i k) by done. by rewrite Ho.
Qed.

Lemma schedule_pass_ok n i run s :
  inv None s -> (n + i = MAX_THREADS)%nat ->
  schedule_pass n i run s = Exit 1 /\ (rr_pass n i (tbl s) (shared s) = None \/ malloc_fails (host s)) \/
  exists run' s', schedule_pass n i run s = Ok (run', s') /\ inv None s' /\
    rr_pass n i (tbl s) (shared s) = Some (tbl s', shared s') /\ rtc host_step (host s) (host s') /\
    (run' = run /\ s' = s /\ (forall j, (i <= j)%nat -> active s !! j <> Some true) \/
     run' = true /\ clos_trans _ descends (pend s') (pend s)).
Proof.
  revert i run s. induction n as [|n IH]; intros i run s Hinv Hn; cbn [schedule_pass].
  all: destruct (Nat.ltb_spec i (num_threads s)) as [Hlt|Hge].
  1: pose proof (i_num _ _ Hinv); lia.
  1,3: right; exists run, s; split_and!; [done|done| |done|left; split_and!; [done|done|];
    intros j Hj Ha; apply (i_lt _ _ Hinv) in Ha; lia].
  1,2: apply rr_pass_free; intros j c Hj Hc; apply tbl_some in Hc; revert Hc; unfold slot;
    destruct (active s !! j) as [[]|] eqn:Ha; [apply (i_lt _ _ Hinv) in Ha; lia|done|done].
  cbn [rr_pass].
  destruct (schedule_one_ok i run s Hinv ltac:(lia)) as [[-> Hf]|(run1 & s1 & -> & Hinv1 & Hr1 & Hh1 & Hone)].
  { left. split; [done|]. destruct Hf as [-> |]; [by left|by right]. }
  rewrite Hr1. cbn [rbind].
  destruct (IH (i + 1)%nat run1 s1 Hinv1 ltac:(lia)) as [[-> Hf]|(run2 & s2 & -> & Hinv2 & Hr2 & Hh2 & Hrest)].
  { left. split; [done|]. destruct Hf as [|Hf]; [by left|right]. by eapply malloc_fails_later. }
  right. exists run2, s2. split_and!; [done|done|done|by etrans|].
  destruct Hone as [(-> & -> & Hi)|[-> Hd]], Hrest as [(-> & -> & Hj)|[-> Hd']].
  - left. split; [done|]. split; [done|]. intros j Hij. destruct (decide (j = i)) as [->|]; [congruence|].
    apply Hj. lia.
  - by right.
  - right. split; [done|]. by apply t_step.
  - right. split; [done|]. eapply t_trans; [done|by apply t_step].
Qed.

(** The whole run: what it returns is what the round robin leaves. *)
Lemma schedule_loop s :
  inv None s -> exists fuel r, schedule_threads fuel s = Some r /\
    (r = Exit 1 /\ (rr_runs (tbl s) (shared s) None \/ malloc_fails (host s)) \/
     exists s', r = Ok s' /\ inv None s' /\ (forall i, active s' !! i <> Some true) /\
       rr_runs (tbl s) (shared s) (Some (shared s'))).
Proof.
  remember (pend s) as M eqn:HM. revert s HM. induction (descends_wf M) as [M _ IH].
  intros s -> Hinv. destruct (schedule_pass_ok MAX_THREADS 0 false s Hinv eq_refl)
    as [[Hp Hf]|(run & s' & Hp & Hinv' & Hr & Hh & [(-> & -> & Hidle)|[-> Hd]])].
  - exists 1%nat, (Exit 1). cbn [schedule_threads]. rewrite Hp. split; [done|]. left. split; [done|].
    destruct Hf; [left; by apply rr_full|by right].
  - exists 1%nat, (Ok s). cbn [schedule_threads]. rewrite Hp. split; [done|]. right. exists s.
    split_and!; [done|done|intros i; apply Hidle; lia|]. apply rr_end, Forall_forall.
    intros [c|] (i & Hi)%list_elem_of_lookup; [|done]. apply tbl_some in Hi. revert Hi. unfold slot.
    destruct (active s !! i) as [[]|] eqn:Ha; [|done|done]. exfalso. apply (Hidle i); [lia|done].
  - destruct (IH _ Hd s' eq_refl Hinv') as (fuel & r & Hrun & Hres).
    exists (Datatypes.S fuel), r. cbn [schedule_threads]. rewrite Hp. split; [done|].
    destruct Hres as [[-> [Hf|Hf]]|(s2 & -> & I2 & Hidle & Hrr)].
    + left. split; [done|]. left. by eapply rr_next.
    + left. split; [done|]. right. by eapply malloc_fails_later.
    + right. exists s2. split_and!; [done|done|done|]. by eapply rr_next.
Qed.

(** [create_new_thread] for each of [cs]. *)
Fixpoint create_all (cs : list (code S)) s : result T :=
  match cs with
  | [] => Ok s
  | c :: cs => rbind (create_new_thread c s) (create_all cs)
  end.

(** Threads created one after the other fill the free entries in order. *)
Lemma create_all_ok cs l n s :
  inv None s -> tbl s = (Some <$> l) ++ replicate n None ->
  create_all cs s = Exit 1 /\ ((n < length cs)%nat \/ malloc_fails (host s)) \/
  exists s' m, create_all cs s = Ok s' /\ inv None s' /\ shared s' = shared s /\
    tbl s' = (Some <$> l ++ cs) ++ replicate m None.
Proof.
  revert l n s. induction cs as [|c cs IH]; intros l n s Hinv Ht; cbn [create_all].
  { right. exists s, n. by rewrite app_nil_r. }
  assert (Hfull : forall e o, find_idx is_free (tbl s) = Some (e, o) -> exists m, n = Datatypes.S m /\ e = length l).
  { intros e o He. apply find_idx_Some in He as (He & Hp & Hmin). rewrite Ht in He, Hmin.
    destruct n as [|n].
    - rewrite app_nil_r in He. apply list_elem_of_lookup_2, list_elem_of_fmap in He as (x & -> & _). done.
    - exists n. split; [done|]. apply lookup_app_Some in He as [He|[He _]].
      { apply list_elem_of_lookup_2, list_elem_of_fmap in He as (x & -> & _). done. }
      rewrite length_fmap in He. destruct (decide (e = length l)) as [|Hne]; [done|].
      discriminate (Hmin (length l) None); [|lia]. by rewrite lookup_app_r, length_fmap, Nat.sub_diag by (by rewrite length_fmap). }
  destruct (create_ok c s Hinv) as [[-> Hf]|(s1 & e & o & -> & Hinv1 & _ & Hsh & Hh & Hfe & He & _ & _ & Hse & Hsj)].
  - left. split; [done|]. destruct Hf as [Hf|]; [left|by right]. destruct n as [|n]; [simpl; lia|].
    apply find_idx_None in Hf. rewrite Ht in Hf. apply Forall_app in Hf as [_ Hf]. by inv Hf.
  - destruct (Hfull e o Hfe) as (m & -> & ->). cbn [rbind].
    assert (Ht1 : tbl s1 = (Some <$> l ++ [c]) ++ replicate m None).
    { rewrite (tbl_insert s s1 (length l) (Some c)), Ht by done. rewrite insert_app_r_alt by (by rewrite length_fmap).
      by rewrite length_fmap, Nat.sub_diag, fmap_app, <- app_assoc. }
    destruct (IH (l ++ [c]) m s1 Hinv1 Ht1) as [[-> Hf]|(s' & m' & -> & Hinv' & Hsh' & Ht')].
    + left. split; [done|]. simpl. destruct Hf; [left; lia|right]. by eapply malloc_fails_later.
    + right. exists s', m'. rewrite <- app_assoc in Ht'. split_and!; [done|done|congruence|done].
Qed.

Lemma initialize_ok s :
  length (active s) = MAX_THREADS -> length (threads s) = MAX_THREADS -> length (stacks s) = MAX_THREADS ->
  host_live (host s) = L0 -> inv None (initialize_basic_threads s).
Proof.
  intros Ha Ht Hs Hl.
  assert (Hno : forall i, replicate MAX_THREADS false !! i <> Some true).
  { intros i Hi. apply lookup_replicate in Hi as [Hi _]. done. }
  assert (Hown : forall i, ~ owner (initialize_basic_threads s) None i).
  { intros i [Hi|]; [by apply (Hno i)|done]. }
  split.
  - done.
  - unfold initialize_basic_threads. rsimpl_goal. lia.
  - intros i Hi. by apply Hno in Hi.
  - intros i Hi. by apply Hno in Hi.
  - intros i Hi. by apply Hown in Hi.
  - intros i j sp Hi. by apply Hown in Hi.
  - intros p. change (host (initialize_basic_threads s)) with (host s). rewrite Hl. split; [by left|].
    intros [?|(i & Hi & _)]; [done|]. by apply Hown in Hi.
Qed.
End sched.

(** ** Theorem *)

(** C31: After [initialize_basic_threads] and the creation of threads with the
    codes [cs], each of which ends by itself if resumed often enough (see
    [code]), [schedule_threads] terminates, whatever the threads compute, share,
    yield and create, and does what the round robin does: in each pass
    the threads are resumed in the order of the table, each where it last
    yielded, until each has run to its end, and the shared state is the one the
    round robin leaves ([rr_runs]).  It never resumes a context that was not
    made or that has finished; when it returns no thread is active, and every
    stack that was allocated has been freed exactly once, so the allocator is
    as it was.  The program ends early, with status 1, only if there are more
    threads than entries of the table or [malloc] fails. *)
Theorem schedule_threads_terminates {S H} {hst : Host H} {hok : HostOk H} (s : ust S H) (cs : list (code S)) :
  length (active s) = MAX_THREADS -> length (threads s) = MAX_THREADS -> length (stacks s) = MAX_THREADS ->
  create_all cs (initialize_basic_threads s) = Exit 1 /\ ((MAX_THREADS < length cs)%nat \/ malloc_fails (host s)) \/
  exists s1, create_all cs (initialize_basic_threads s) = Ok s1 /\
  exists free fuel r, schedule_threads fuel s1 = Some r /\
    let table := (Some <$> cs) ++ replicate free None in
    length table = MAX_THREADS /\
    (r = Exit 1 /\ (rr_runs table (shared s) None \/ malloc_fails (host s1)) \/
     exists s', r = Ok s' /\ rr_runs table (shared s) (Some (shared s')) /\
       (forall i, active s' !! i <> Some true) /\ host_live (host s') = host_live (host s)).
Proof.
  intros Ha Ht Hs. pose proof (initialize_ok (host_live (host s)) s Ha Ht Hs eq_refl) as Hinit.
  destruct (create_all_ok _ cs [] MAX_THREADS _ Hinit) as [?|(s1 & m & Hc & Hinv & Hsh & Htbl)]; [done|by left|right].
  exists s1. split; [done|]. destruct (schedule_loop _ s1 Hinv) as (fuel & r & Hr & Hres).
  exists m, fuel, r. split; [done|]. cbv zeta. change (shared (initialize_basic_threads s)) with (shared s) in Hsh.
  cbn [app] in Htbl. rewrite <- Htbl, <- Hsh. split; [unfold tbl; by rewrite length_fmap, length_seq|].
  destruct Hres as [?|(s' & -> & Hinv' & Hidle & Hrr)]; [by left|right]. exists s'. split_and!; [done|done|done|].
  apply set_eq. intros p. rewrite (i_live _ _ _ Hinv'). split; [|by left].
  intros [?|(i & [Hi|] & _)]; [done|by apply Hidle in Hi|done].
Qed.

(** ** Two threads *)

(** An allocator that hands out the number after the largest in use. *)
#[export] Instance list_host : Host (list Z) := {
  host_malloc l := let p := 1 + foldr Z.max 0 l in (p, p :: l);
  host_free p l := filter (fun q => q <> p) l;
  host_live l := list_to_set l;
}.

Lemma foldr_max_ge (l : list Z) : 0 <= foldr Z.max 0 l /\ forall x, x ∈ l -> x <= foldr Z.max 0 l.
Proof.
  induction l as [|y l [IH1 IH2]]; simpl; [split; [lia|]; intros x Hx; by apply elem_of_nil in Hx|].
  split; [lia|]. intros x [->|Hx]%elem_of_cons; [lia|]. specialize (IH2 x Hx). lia.
Qed.

#[export] Instance list_host_ok : HostOk (list Z).
Proof.
  split.
  - intros l. right. cbn. destruct (foldr_max_ge l) as [H1 H2]. split; [lia|]. split; [|done].
    intros Hin%elem_of_list_to_set. apply H2 in Hin. lia.
  - intros p l _. cbn. apply set_eq. intros x.
    rewrite elem_of_difference, !elem_of_list_to_set, elem_of_singleton, list_elem_of_filter. tauto.
Qed.

(** A thread that adds one, yields, and [n] more times; a thread that starts
    one of these. *)
Fixpoint adder (n : nat) : code Z :=
  match n with
  | O => Return
  | S n => Act (fun x => x + 1) (fun _ => Yield (adder n))
  end.
Definition demo_ust : ust Z (list Z) :=
  Ust (replicate 5 None) (replicate 5 0) (replicate 5 true) 3 0 0 [7].

Example demo_schedule :
  match create_all [adder 3; Create (adder 2) (Act (fun x => x * 10) (fun _ => Finish))]
          (initialize_basic_threads demo_ust) with
  | Ok s => match schedule_threads 9 s with
            | Some (Ok s') => (shared s' =? 14) && bool_decide (host s' = [7])
            | _ => false
            end
  | _ => false
  end = true.
Proof. vm_compute. reflexivity. Qed.

(** It is what the round robin leaves. *)
Example demo_round_robin :
  rr_runs [Some (adder 1); Some (Act (fun x => x * 10) (fun _ => Finish)); None; None; None] 1 (Some 20).
Proof. eapply rr_next; [reflexivity|]. eapply rr_next; [reflexivity|]. apply rr_end. by repeat constructor. Qed.

Lemma schedule_threads_terminates_witness :
  create_all [adder 3; adder 2] (initialize_basic_threads demo_ust) = Exit 1 /\
    ((MAX_THREADS < 2)%nat \/ malloc_fails (host demo_ust)) \/
  exists s1, create_all [adder 3; adder 2] (initialize_basic_threads demo_ust) = Ok s1 /\
  exists free fuel r, schedule_threads fuel s1 = Some r /\
    let table := (Some <$> [adder 3; adder 2]) ++ replicate free None in
    length table = MAX_THREADS /\
    (r = Exit 1 /\ (rr_runs table 0 None \/ malloc_fails (host s1)) \/
     exists s', r = Ok s' /\ rr_runs table 0 (Some (shared s')) /\
       (forall i, active s' !! i <> Some true) /\ host_live (host s') = host_live (host demo_ust)).
Proof. apply (schedule_threads_terminates demo_ust [adder 3; adder 2]); reflexivity. Defined.
