(* ===== verification/Mkfs.v ===== *)
(** The builder of the initial file system (mkfs/mkfs.c), a program of the host.

    The image is the sectors written so far; [wsect] and [rsect] seek to a
    sector and transfer the whole of it, and [rsect] dies behind the end of the
    image.  [main] writes every sector once before it reads any.  That a write
    to the image fails is not modelled.  An [assert] that fails and [die] both
    end the program: they are [panic]s.  The host is little-endian. *)

From S2P Require Import Prelude CInt Machine KString Kalloc Bio Log Fs.

Definition NINODES : Z := 200.

Definition nbitmap : Z := FSSIZE / (BSIZE * 8) + 1.
Definition ninodeblocks : Z := NINODES / IPB + 1.
Definition nlog : Z := LOGSIZE.
Definition nmeta : Z := 2 + nlog + ninodeblocks + nbitmap.
Definition nblocks : Z := FSSIZE - nmeta.

(** The integer whose bytes in memory are those of [x] from the lowest up. *)
Definition xshort (x : Z) : Z := le_combine [u8 x; u8 (Z.shiftr x 8)].
Definition xint (x : Z) : Z := le_combine [u8 x; u8 (Z.shiftr x 8); u8 (Z.shiftr x 16); u8 (Z.shiftr x 24)].

(** The super block that [main] fills in. *)
Definition sb : superblock :=
  SB FSMAGIC (xint FSSIZE) (xint nblocks) (xint NINODES) (xint nlog) (xint 2) (xint (2 + nlog))
    (xint (2 + nlog + ninodeblocks)).

Record mkst := MkSt {
  fsimg : gmap Z (list Z);
  freeinode : Z;
  freeblock : Z;
}.
#[export] Instance eta_mkst : Eta mkst := fun s => MkSt (fsimg s) (freeinode s) (freeblock s).

Definition zeroes : list Z := replicate (Z.to_nat BSIZE) 0.

Abbreviation Mk := (M mkst).

Definition die {A} (s : string) : Mk A := panic s.
Definition assert (b : bool) : Mk unit := if b then ret tt else panic "assertion failed".

Definition wsect (sec : Z) (buf : list Z) : Mk unit := modify (fun s => s.[fsimg := <[sec := buf]> (fsimg s)]).

Definition rsect (sec : Z) : Mk (list Z) :=
  let* m := gets fsimg in
  match m !! sec with Some b => ret b | None => die "read" end.

Definition winode (inum : Z) (ip : dinode) : Mk unit :=
  let bn := IBLOCK inum sb in
  let* buf := rsect bn in
  wsect bn (put_dinode buf inum ip).

Definition rinode (inum : Z) : Mk dinode :=
  let bn := IBLOCK inum sb in
  let* buf := rsect bn in
  ret (get_dinode buf inum).

Definition ialloc (type : Z) : Mk Z :=
  let* inum := gets freeinode in
  modify (fun s => s.[freeinode := u32 (inum + 1)]);;;
  winode inum (DInode (s16 (xshort type)) 0 0 (s16 (xshort 1)) (xint 0) (replicate (S NDIRECT) 0));;;
  ret inum.

Definition balloc (used : Z) : Mk unit :=
  assert (used <? BSIZE * 8);;;
  wsect (sb_bmapstart sb) (foldl bit_set (replicate (Z.to_nat BSIZE) 0) (zseq 0 (Z.to_nat used))).

(** [freeblock++] *)
Definition next_block : Mk Z :=
  let* b := gets freeblock in
  modify (fun s => s.[freeblock := u32 (b + 1)]);;;
  ret b.

(** The part of [iappend] that looks up entry [slot] of the indirect block. *)
Definition append_indirect (din : dinode) (slot : nat) : Mk (Z * dinode) :=
  let ia := xint (nth NDIRECT (di_addrs din) 0) in
  let* indirect := rsect ia in
  let* indirect :=
    if get32 indirect slot =? 0 then
      let* b := next_block in
      let indirect := set32 indirect slot (xint b) in
      wsect ia indirect;;;
      ret indirect
    else ret indirect in
  ret (xint (get32 indirect slot), din).

(** The block of [iappend] that holds byte [fbn * BSIZE], allocated when it is
    not there yet, and the inode with its new addresses. *)
Definition append_block (din : dinode) (fbn : Z) : Mk (Z * dinode) :=
  let slot := Z.to_nat fbn in
  let set_addr i := let* b := next_block in
    ret (DInode (di_type din) (di_major din) (di_minor din) (di_nlink din) (di_size din)
           (<[i := xint b]> (di_addrs din))) in
  if fbn <? Z.of_nat NDIRECT then
    let* din := if xint (nth slot (di_addrs din) 0) =? 0 then set_addr slot else ret din in
    ret (xint (nth slot (di_addrs din) 0), din)
  else
    let* din := if xint (nth NDIRECT (di_addrs din) 0) =? 0 then set_addr NDIRECT else ret din in
    append_indirect din (slot - NDIRECT).

(** One iteration of the loop: the state is [(p, n, off, din)]. *)
Definition append_step : list Z * Z * Z * dinode -> Mk (list Z * Z * Z * dinode + Z * dinode) :=
  fun '(p, n, off, din) =>
    if negb (0 <? n) then ret (inr (off, din)) else
    let fbn := off / BSIZE in
    assert (fbn <? MAXFILE);;;
    let* '(x, din) := append_block din fbn in
    let n1 := Z.min n ((fbn + 1) * BSIZE - off) in
    let* buf := rsect x in
    wsect x (splice buf (Z.to_nat (off - fbn * BSIZE)) (take (Z.to_nat n1) p));;;
    ret (inl (drop (Z.to_nat n1) p, n - n1, u32 (off + n1), din)).

Definition iappend (inum : Z) (xp : list Z) (n : Z) : Mk unit :=
  let* din := rinode inum in
  let off := xint (di_size din) in
  let* '(off, din) := while (S (Z.to_nat n)) append_step (xp, n, off, din) in
  winode inum (DInode (di_type din) (di_major din) (di_minor din) (di_nlink din) (xint off) (di_addrs din)).

(** A directory entry with the zeroed [name] overwritten by a C string. *)
Definition dirent_strcpy (inum : Z) (s : list Z) : list Z :=
  mk_dirent (xshort inum) (splice (replicate DIRSIZ 0) 0 (s ++ [0])).
Definition dirent_strncpy (inum : Z) (s : list Z) : list Z :=
  mk_dirent (xshort inum) (strncpy_list DIRSIZ s).

(** "user/", "/", "_", "." *)
Definition user_dir : list Z := [117; 115; 101; 114; 47].
Definition underscore : Z := 95.
Definition dot : Z := 46.

Definition shortname (arg : list Z) : list Z :=
  if strncmp_list 5 arg user_dir =? 0 then drop 5 arg else arg.

(** An argument, and what [open] and then each [read] of it return. *)
Definition hostfile : Type := list Z * option (list (list Z)).

(** [while((cc = read(fd, buf, sizeof(buf))) > 0) iappend(inum, buf, cc);] *)
Fixpoint append_chunks (inum : Z) (chunks : list (list Z)) : Mk unit :=
  match chunks with
  | [] => ret tt
  | buf :: chunks =>
      let cc := Z.of_nat (length buf) in
      if 0 <? cc then iappend inum buf cc;;; append_chunks inum chunks else ret tt
  end.

(** One iteration of the loop over the arguments. *)
Definition add_file (rootino : Z) (f : hostfile) : Mk unit :=
  let '(arg, content) := f in
  let shortname := shortname arg in
  assert (bool_decide (slash ∉ shortname));;;
  match content with
  | None => die "open"
  | Some chunks =>
      let shortname := if bool_decide (head shortname = Some underscore) then tail shortname else shortname in
      let* inum := ialloc T_FILE in
      iappend rootino (dirent_strncpy inum shortname) DIRENT_SIZE;;;
      append_chunks inum chunks
  end.

(** The bytes of [struct superblock], in a block. *)
Definition sb_block : list Z :=
  splice zeroes 0 (mjoin (le_split 4 <$>
    [sb_magic sb; sb_size sb; sb_nblocks sb; sb_ninodes sb; sb_nlog sb; sb_logstart sb; sb_inodestart sb;
     sb_bmapstart sb])).

Definition mkfs_init : mkst := MkSt ∅ 1 0.

(** [main], from the opened image on. *)
Definition main (files : list hostfile) : Mk unit :=
  assert (BSIZE mod DINODE_SIZE =? 0);;;
  assert (BSIZE mod DIRENT_SIZE =? 0);;;
  modify (fun s => s.[freeblock := nmeta]);;;
  mfor (zseq 0 (Z.to_nat FSSIZE)) (fun i => wsect i zeroes);;;
  wsect 1 sb_block;;;
  let* rootino := ialloc T_DIR in
  assert (rootino =? ROOTINO);;;
  iappend rootino (dirent_strcpy rootino [dot]) DIRENT_SIZE;;;
  iappend rootino (dirent_strcpy rootino [dot; dot]) DIRENT_SIZE;;;
  mfor files (add_file rootino);;;
  let* din := rinode rootino in
  let off := xint (di_size din) in
  let off := u32 ((off / BSIZE + 1) * BSIZE) in
  winode rootino (DInode (di_type din) (di_major din) (di_minor din) (di_nlink din) (xint off) (di_addrs din));;;
  let* used := gets freeblock in
  balloc used.
