(* ===== verification/MkfsThm.v ===== *)
(** The image that mkfs builds: which block belongs to which file, what each
    file holds, and that [main] lays out a file system with exactly the files
    it was given. *)

From S2P Require Import Prelude CInt Machine KString KStringThm Kalloc Bio Log LogThm Fs FsData Mkfs.

(** ** Block addresses *)

(** The addresses of a file: its indirect block, or its data block [k]. *)
Inductive slot := Ind | Data (k : nat).
#[export] Instance slot_eq_dec : EqDecision slot.
Proof. solve_decision. Defined.

Definition slot_ok (x : slot) : Prop := match x with Ind => True | Data k => Z.of_nat k < MAXFILE end.

Definition addr_of (img : gmap Z (list Z)) (d : dinode) (x : slot) : Z :=
  let ia := nth NDIRECT (di_addrs d) 0 in
  match x with
  | Ind => ia
  | Data k =>
      if (k <? NDIRECT)%nat then nth k (di_addrs d) 0
      else if ia =? 0 then 0 else get32 (img !!! ia) (k - NDIRECT)
  end.

#[local] Arguments addr_of : simpl never.

(** Ownership of the blocks from [nmeta] to [fb]: [A] gives the addresses of the
    files in [dom], of which [B] data blocks are allocated, in order. *)
Record Own (A : Z -> slot -> Z) (dom : Z -> Prop) (fb : Z) (B : Z -> nat) (I : Z -> bool) : Prop := {
  own_range : forall i x, dom i -> slot_ok x -> A i x <> 0 -> nmeta <= A i x < fb;
  own_inj : forall i x j y, dom i -> slot_ok x -> dom j -> slot_ok y ->
    A i x <> 0 -> A i x = A j y -> i = j /\ x = y;
  own_data : forall i k, dom i -> Z.of_nat k < MAXFILE -> (A i (Data k) <> 0 <-> (k < B i)%nat);
  own_ind : forall i, dom i -> (A i Ind <> 0 <-> I i = true);
}.

Definition setf {T} (f : Z -> T) (i : Z) (v : T) : Z -> T := fun j => if decide (j = i) then v else f j.

Lemma setf_eq {T} (f : Z -> T) i v : setf f i v i = v.
Proof. unfold setf. by rewrite decide_True. Qed.
Lemma setf_ne {T} (f : Z -> T) i j v : j <> i -> setf f i v j = f j.
Proof. intros. unfold setf. by rewrite decide_False. Qed.

(** A new block for one slot. *)
Lemma own_extend A A' dom fb B I i x :
  Own A dom fb B I -> nmeta <= fb -> dom i -> slot_ok x ->
  match x with Ind => I i = false | Data k => k = B i end ->
  (forall j y, dom j -> slot_ok y -> A' j y = if decide (j = i /\ y = x) then fb else A j y) ->
  Own A' dom (fb + 1)
    (match x with Data k => setf B i (S k) | Ind => B end) (match x with Data _ => I | Ind => setf I i true end).
Proof.
  intros [Hr Hi Hd Hn] Hfb Di Hx Hnew HA.
  assert (0 < nmeta) by (vm_compute; done).
  split.
  - intros j y Dj Hy. rewrite HA by done. case_decide; [lia|]. intros H'. pose proof (Hr j y Dj Hy H'). lia.
  - intros j y l z Dj Hy Dl Hz. rewrite !HA by done. case_decide as E1; case_decide as E2.
    + intros _ _. destruct E1 as [-> ->], E2 as [-> ->]. done.
    + intros _ E. assert (A l z <> 0) as H' by lia. pose proof (Hr l z Dl Hz H'). lia.
    + intros H' E. pose proof (Hr j y Dj Hy H'). lia.
    + intros H' E. by apply Hi.
  - intros j k Dj Hk. rewrite HA by done. destruct (decide (j = i)) as [->|Hne].
    + destruct x as [|k0].
      * rewrite decide_False by naive_solver. by apply Hd.
      * subst k0. rewrite setf_eq. case_decide as E; [destruct E as [_ [= ->]]; lia|].
        rewrite Hd by done. assert (k <> B i) by naive_solver. lia.
    + rewrite decide_False by naive_solver. rewrite Hd by done. destruct x; [done|]. by rewrite setf_ne.
  - intros j Dj. rewrite HA by done. destruct (decide (j = i)) as [->|Hne].
    + destruct x as [|k0]; [rewrite decide_True, setf_eq by done; lia|].
      rewrite decide_False by naive_solver. by apply Hn.
    + rewrite decide_False by naive_solver. rewrite Hn by done. destruct x; [by rewrite setf_ne|done].
Qed.

(** ** Images under construction *)

Definition dom (n : Z) : Z -> Prop := fun i => 1 <= i < n.

(** The sectors [img], with the inodes [F] below [n] (on the disk or in the
    hands of [iappend]) and the blocks from [fb] on free. *)
Record image (img : gmap Z (list Z)) (F : Z -> dinode) (n fb : Z) (B : Z -> nat) (I : Z -> bool) : Prop := {
  im_fb : nmeta <= fb <= FSSIZE;
  im_sect : forall a, 0 <= a < FSSIZE -> exists b, img !! a = Some b /\ length b = 1024%nat;
  im_fresh : forall a, fb <= a < FSSIZE -> img !! a = Some zeroes;
  im_len : forall i, dom n i -> length (di_addrs (F i)) = S NDIRECT;
  im_own : Own (fun i => addr_of img (F i)) (dom n) fb B I;
}.

(** The data blocks that were there are still there, the metadata too. *)
Definition kept n (img : gmap Z (list Z)) (F : Z -> dinode) (B : Z -> nat) (img' : gmap Z (list Z)) (F' : Z -> dinode) : Prop :=
  (forall a, a < nmeta -> img' !! a = img !! a) /\
  forall j k, dom n j -> (k < B j)%nat -> Z.of_nat k < MAXFILE ->
    addr_of img' (F' j) (Data k) = addr_of img (F j) (Data k) /\
    img' !!! addr_of img (F j) (Data k) = img !!! addr_of img (F j) (Data k).

Lemma kept_refl n img F B : kept n img F B img F.
Proof. done. Qed.

Lemma kept_trans n img F B img1 F1 B1 img2 F2 :
  (forall j, (B j <= B1 j)%nat) -> kept n img F B img1 F1 -> kept n img1 F1 B1 img2 F2 ->
  kept n img F B img2 F2.
Proof.
  intros HB [M1 K1] [M2 K2]. split.
  - intros a Ha. by rewrite M2, M1.
  - intros j k Hj Hk Hm. destruct (K1 j k Hj Hk Hm) as [E1 E1'].
    destruct (K2 j k Hj ltac:(specialize (HB j); lia) Hm) as [E2 E2'].
    rewrite E1 in E2, E2'. split; congruence.
Qed.

(** The inode with address [i] set, as [append_block] builds it. *)
Definition set_addr (d : dinode) (i : nat) (b : Z) : dinode :=
  DInode (di_type d) (di_major d) (di_minor d) (di_nlink d) (di_size d) (<[i := b]> (di_addrs d)).

Lemma nth_insert (l : list Z) i v j :
  (i < length l)%nat -> nth j (<[i := v]> l) 0 = if decide (j = i) then v else nth j l 0.
Proof.
  intros Hi. rewrite !nth_lookup. case_decide as E.
  - subst. by rewrite list_lookup_insert_eq.
  - by rewrite list_lookup_insert_ne.
Qed.

Lemma get32_zeroes i : (i < 256)%nat -> get32 zeroes i = 0.
Proof.
  intros Hi. unfold get32, zeroes. rewrite drop_replicate, take_replicate. apply le_combine_zeros.
Qed.

Section grow.
Context {img : gmap Z (list Z)} {F : Z -> dinode} {n fb : Z} {B : Z -> nat} {I : Z -> bool}.
Context (Him : image img F n fb B I).
Let A := fun i => addr_of img (F i).

Lemma ind_owned i : dom n i -> (nth NDIRECT (di_addrs (F i)) 0 <> 0 <-> I i = true).
Proof. apply (own_ind _ _ _ _ _ (im_own _ _ _ _ _ _ Him)). Qed.

Lemma data_owned i k : dom n i -> Z.of_nat k < MAXFILE -> (A i (Data k) <> 0 <-> (k < B i)%nat).
Proof. apply (own_data _ _ _ _ _ (im_own _ _ _ _ _ _ Him)). Qed.

(** A direct block is allocated. *)
Lemma grow_direct i k :
  dom n i -> B i = k -> (k < NDIRECT)%nat -> fb < FSSIZE ->
  image img (setf F i (set_addr (F i) k fb)) n (fb + 1) (setf B i (S k)) I /\
  kept n img F B img (setf F i (set_addr (F i) k fb)).
Proof.
  intros Hi Hk Hlt Hfb. pose proof (im_len _ _ _ _ _ _ Him i Hi) as HL.
  assert (HA : forall j y, dom n j -> slot_ok y ->
    addr_of img (setf F i (set_addr (F i) k fb) j) y = if decide (j = i /\ y = Data k) then fb else A j y).
  { intros j y Hj Hy. destruct (decide (j = i)) as [->|Hne].
    2: { rewrite setf_ne by done. by rewrite decide_False by naive_solver. }
    rewrite setf_eq. unfold A, addr_of. cbn [set_addr di_addrs].
    rewrite !(nth_insert (di_addrs (F i)) k) by lia.
    rewrite (decide_False (P := NDIRECT = k)) by lia.
    destruct y as [|l]; [by rewrite decide_False by naive_solver|].
    destruct (decide (l = k)) as [->|Hlk].
    - rewrite (proj2 (Nat.ltb_lt _ _) Hlt), nth_insert by lia. by rewrite !decide_True by done.
    - rewrite (nth_insert _ k _ l) by lia. rewrite (decide_False (P := l = k)) by done. by rewrite decide_False by naive_solver. }
  pose proof (im_fb _ _ _ _ _ _ Him). split.
  - split; [lia|apply Him|intros a Ha; apply (im_fresh _ _ _ _ _ _ Him); lia|..].
    + intros j Hj. destruct (decide (j = i)) as [->|Hne]; [|rewrite setf_ne by done; by apply Him].
      rewrite setf_eq. cbn. by rewrite length_insert.
    + apply (own_extend A _ _ _ _ _ i (Data k)); [apply Him|lia|done| |done|exact HA].
      unfold slot_ok, MAXFILE, NDIRECT in *. lia.
  - split; [done|]. intros j l Hj Hl Hm. rewrite HA by done. rewrite decide_False; [done|].
    intros [-> [= ->]]. lia.
Qed.

(** The indirect block is allocated. *)
Lemma grow_ind i :
  dom n i -> I i = false -> fb < FSSIZE ->
  image img (setf F i (set_addr (F i) NDIRECT fb)) n (fb + 1) B (setf I i true) /\
  kept n img F B img (setf F i (set_addr (F i) NDIRECT fb)).
Proof.
  intros Hi HI Hfb. pose proof (im_len _ _ _ _ _ _ Him i Hi) as HL. pose proof (im_fb _ _ _ _ _ _ Him) as Hf.
  assert (Hia : nth NDIRECT (di_addrs (F i)) 0 = 0).
  { destruct (decide (nth NDIRECT (di_addrs (F i)) 0 = 0)) as [E|E]; [done|].
    apply (ind_owned i Hi) in E. congruence. }
  assert (Hn : nmeta = 46) by by vm_compute.
  assert (HA : forall j y, dom n j -> slot_ok y ->
    addr_of img (setf F i (set_addr (F i) NDIRECT fb) j) y = if decide (j = i /\ y = Ind) then fb else A j y).
  { intros j y Hj Hy. destruct (decide (j = i)) as [->|Hne].
    2: { rewrite setf_ne by done. by rewrite decide_False by naive_solver. }
    rewrite setf_eq. unfold A, addr_of. cbn [set_addr di_addrs].
    rewrite !(nth_insert (di_addrs (F i)) NDIRECT) by lia. rewrite (decide_True (P := NDIRECT = NDIRECT)) by done.
    destruct y as [|l]; [by rewrite decide_True|]. rewrite decide_False by naive_solver.
    destruct (Nat.ltb_spec l NDIRECT); [by rewrite nth_insert, decide_False by lia|].
    rewrite Hia. change (0 =? 0) with true. rewrite (proj2 (Z.eqb_neq fb 0)) by lia.
    rewrite lookup_total_alt, (im_fresh _ _ _ _ _ _ Him) by lia. cbn [default].
    apply get32_zeroes. unfold slot_ok, MAXFILE, NDIRECT in *. lia. }
  split.
  - split; [lia|apply Him|intros a Ha; apply (im_fresh _ _ _ _ _ _ Him); lia|..].
    + intros j Hj. destruct (decide (j = i)) as [->|Hne]; [|rewrite setf_ne by done; by apply Him].
      rewrite setf_eq. cbn. by rewrite length_insert.
    + by apply (own_extend A _ _ _ _ _ i Ind); [apply Him|lia|..].
  - split; [done|]. intros j l Hj Hl Hm. rewrite HA by done. by rewrite decide_False by naive_solver.
Qed.

(** Writing a block leaves the indirect blocks alone that it is not. *)
Lemma addr_insert a b j y :
  dom n j -> (forall k, y = Data k -> nth NDIRECT (di_addrs (F j)) 0 <> a) ->
  addr_of (<[a := b]> img) (F j) y = A j y.
Proof.
  intros Hj Ha. unfold A, addr_of. destruct y as [|l]; [done|]. destruct (l <? NDIRECT)%nat; [done|].
  destruct (Z.eqb_spec (nth NDIRECT (di_addrs (F j)) 0) 0); [done|].
  rewrite lookup_total_insert_ne; [done|]. intros E. by apply (Ha l).
Qed.

Lemma owned_inj i x j y :
  dom n i -> slot_ok x -> dom n j -> slot_ok y -> A i x <> 0 -> A i x = A j y -> i = j /\ x = y.
Proof. apply (own_inj _ _ _ _ _ (im_own _ _ _ _ _ _ Him)). Qed.

Lemma owned_range i x : dom n i -> slot_ok x -> A i x <> 0 -> nmeta <= A i x < fb.
Proof. apply (own_range _ _ _ _ _ (im_own _ _ _ _ _ _ Him)). Qed.

Lemma sect_ok a b : length b = 1024%nat -> 0 <= a ->
  forall c, 0 <= c < FSSIZE -> exists b', <[a := b]> img !! c = Some b' /\ length b' = 1024%nat.
Proof.
  intros Hb Ha c Hc. destruct (decide (a = c)) as [->|Hne].
  - exists b. by rewrite lookup_insert_eq.
  - rewrite lookup_insert_ne by done. by apply Him.
Qed.

(** A block is entered into the indirect block. *)
Lemma grow_indirect i k :
  let ia := nth NDIRECT (di_addrs (F i)) 0 in
  let img' := <[ia := set32 (img !!! ia) (k - NDIRECT) fb]> img in
  dom n i -> I i = true -> B i = k -> (NDIRECT <= k)%nat -> Z.of_nat k < MAXFILE -> fb < FSSIZE ->
  image img' F n (fb + 1) (setf B i (S k)) I /\ kept n img F B img' F.
Proof.
  intros ia img' Hi HI Hk Hge Hmax Hfb. pose proof (im_fb _ _ _ _ _ _ Him) as Hf.
  assert (Hia : A i Ind <> 0) by by apply (ind_owned i Hi).
  pose proof (owned_range i Ind Hi Logic.I Hia) as Hr. change (A i Ind) with ia in Hia, Hr.
  assert (Hn : nmeta = 46) by by vm_compute. assert (HF : FSSIZE = 2000) by done.
  destruct (im_sect _ _ _ _ _ _ Him ia ltac:(lia)) as (ib & Eib & Lib).
  assert (Et : img !!! ia = ib) by (rewrite lookup_total_alt, Eib; done).
  assert (HA : forall j y, dom n j -> slot_ok y ->
    addr_of img' (F j) y = if decide (j = i /\ y = Data k) then fb else A j y).
  { intros j y Hj Hy. destruct (decide (j = i)) as [->|Hne].
    - destruct y as [|l]; [by rewrite decide_False by naive_solver|]. unfold A, addr_of. fold ia.
      destruct (Nat.ltb_spec l NDIRECT); [rewrite decide_False; [done|intros [_ [= ->]]; lia]|].
      rewrite (proj2 (Z.eqb_neq ia 0)) by done. unfold img'. rewrite lookup_total_insert_eq, Et.
      unfold slot_ok, MAXFILE, NDIRECT in *. rewrite get32_set32 by lia.
      destruct (decide (l = k)) as [->|Hlk].
      + rewrite !decide_True by done. apply u32_small. cint_unfold. lia.
      + rewrite decide_False by lia. by rewrite decide_False by naive_solver.
    - rewrite decide_False by naive_solver. apply addr_insert; [done|]. intros l -> E.
      apply Hne. symmetry. by apply (owned_inj i Ind j Ind). }
  split.
  - split; [lia|..].
    + apply sect_ok; [|lia]. rewrite Et. apply set32_length; [done|]. unfold MAXFILE, NDIRECT in *. lia.
    + intros a Ha. unfold img'. rewrite lookup_insert_ne by lia. apply (im_fresh _ _ _ _ _ _ Him). lia.
    + apply Him.
    + by apply (own_extend A _ _ _ _ _ i (Data k)); [apply Him|lia|..].
  - split; [intros a Ha; unfold img'; by rewrite lookup_insert_ne by lia|].
    intros j l Hj Hl Hm. rewrite HA by done. rewrite decide_False by (intros [-> [= ->]]; lia). split; [done|].
    unfold img'. rewrite lookup_total_insert_ne; [done|]. intros E.
    assert (Hc : A i Ind <> 0) by done.
    destruct (owned_inj i Ind j (Data l) Hi Logic.I Hj Hm Hc E) as [_ [=]].
Qed.

(** A data block is written. *)
Lemma write_data i k b :
  let a := A i (Data k) in
  dom n i -> (k < B i)%nat -> Z.of_nat k < MAXFILE -> length b = 1024%nat ->
  image (<[a := b]> img) F n fb B I /\
  (forall j y, dom n j -> slot_ok y -> addr_of (<[a := b]> img) (F j) y = A j y) /\
  nmeta <= a.
Proof.
  intros a Hi Hk Hm Hb. assert (Ha : a <> 0) by by apply data_owned.
  pose proof (owned_range i (Data k) Hi Hm Ha) as Hr. fold a in Hr.
  assert (HA : forall j y, dom n j -> slot_ok y -> addr_of (<[a := b]> img) (F j) y = A j y).
  { intros j y Hj Hy. apply addr_insert; [done|]. intros l -> E.
    destruct (owned_inj i (Data k) j Ind Hi Hm Hj Logic.I Ha) as [_ [=]]. by symmetry. }
  assert (Hn : nmeta = 46) by by vm_compute. pose proof (im_fb _ _ _ _ _ _ Him) as Hf.
  split; [|split; [exact HA|lia]]. split; [done|apply sect_ok; [done|lia]|..].
  - intros c Hc. rewrite lookup_insert_ne by lia. by apply (im_fresh _ _ _ _ _ _ Him).
  - apply Him.
  - destruct (im_own _ _ _ _ _ _ Him) as [H1 H2 H3 H4]. split.
    + intros j y Hj Hy. rewrite HA by done. by apply H1.
    + intros j y l z Hj Hy Hl Hz. rewrite !HA by done. by apply H2.
    + intros j l Hj Hl. rewrite HA by done. by apply H3.
    + intros j Hj. rewrite HA by done. by apply H4.
Qed.
End grow.

Lemma addr_of_addrs img d d' x : di_addrs d' = di_addrs d -> addr_of img d' x = addr_of img d x.
Proof. intros H. unfold addr_of. by rewrite H. Qed.

Lemma image_ext img F F' n fb B B' I I' :
  (forall i, dom n i -> di_addrs (F' i) = di_addrs (F i) /\ B' i = B i /\ I' i = I i) ->
  image img F n fb B I -> image img F' n fb B' I'.
Proof.
  intros E [H1 H2 H3 H4 [O1 O2 O3 O4]].
  assert (EA : forall i x, dom n i -> addr_of img (F' i) x = addr_of img (F i) x).
  { intros i x Hi. apply addr_of_addrs, E, Hi. }
  split; try done.
  - intros i Hi. destruct (E i Hi) as (-> & _). by apply H4.
  - split.
    + intros i x Hi. rewrite EA by done. by apply O1.
    + intros i x j y Hi Hx Hj Hy. rewrite !EA by done. by apply O2.
    + intros i k Hi. destruct (E i Hi) as (_ & -> & _). rewrite EA by done. by apply O3.
    + intros i Hi. destruct (E i Hi) as (_ & _ & ->). rewrite EA by done. by apply O4.
Qed.

Lemma kept_ext n img F F0 B img' F' : (forall i, dom n i -> F' i = F0 i) -> kept n img F B img' F0 -> kept n img F B img' F'.
Proof. intros E [K1 K2]. split; [done|]. intros j k Hj Hk Hm. rewrite E by done. by apply K2. Qed.

Lemma xint_id x : 0 <= x < W32 -> xint x = x.
Proof.
  intros Hx. transitivity (le_combine (le_split 4 x)); [|by apply le_combine_split_small].
  unfold xint. f_equal. rewrite !Z.shiftr_div_pow2 by lia. cint_unfold.
  change (le_split 4 x) with [x mod 256; x / 256 mod 256; x / 256 / 256 mod 256; x / 256 / 256 / 256 mod 256].
  rewrite !Z.div_div by lia. reflexivity.
Qed.

Lemma xshort_id x : 0 <= x < W16 -> xshort x = x.
Proof.
  intros Hx. transitivity (le_combine (le_split 2 x)); [|by apply le_combine_split_small].
  unfold xshort. f_equal. rewrite !Z.shiftr_div_pow2 by lia. cint_unfold.
  change (le_split 2 x) with [x mod 256; x / 256 mod 256]. reflexivity.
Qed.

(** ** [append_block] *)

(** The blocks taken to hold data block [k] of a file with [B] blocks. *)
Definition cost (B k : nat) : Z := if (k <? B)%nat then 0 else if (k =? NDIRECT)%nat then 2 else 1.
Definition has_ind (B : Z -> nat) : Z -> bool := fun j => (NDIRECT <? B j)%nat.

Lemma next_block_ok s : 0 <= freeblock s < FSSIZE -> next_block s = Ok (freeblock s) (s.[freeblock := freeblock s + 1]).
Proof.
  intros H. unfold next_block, gets, modify, bind, ret. simpl. rewrite u32_small; [done|].
  unfold FSSIZE in H. cint_unfold. lia.
Qed.

Lemma rsect_ok s a b : fsimg s !! a = Some b -> rsect a s = Ok b s.
Proof. intros H. unfold rsect, gets, bind. simpl. by rewrite H. Qed.

Lemma fb_pos img F n fb B I : image img F n fb B I -> 0 <= fb.
Proof. intros H. pose proof (im_fb _ _ _ _ _ _ H). assert (nmeta = 46) by by vm_compute. lia. Qed.

Section append.
Context {s : mkst} {F : Z -> dinode} {n : Z} {B : Z -> nat} {i : Z}.
Context (Him : image (fsimg s) F n (freeblock s) B (has_ind B)) (Hi : dom n i).
Let A := addr_of (fsimg s) (F i).

Lemma addr_small x : slot_ok x -> 0 <= A x < W32.
Proof.
  intros Hx. destruct (decide (A x = 0)) as [->|H]; [done|].
  pose proof (owned_range Him i x Hi Hx H) as Hr. cbv beta zeta in Hr. change (addr_of (fsimg s) (F i) x) with (A x) in Hr. pose proof (im_fb _ _ _ _ _ _ Him) as Hf.
  assert (nmeta = 46) by by vm_compute. assert (FSSIZE = 2000) by done. cint_unfold. lia.
Qed.

Definition after_block (k : nat) (s' : mkst) (d : dinode) : Prop :=
  freeinode s' = freeinode s /\ freeblock s' = freeblock s + cost (B i) k /\
  image (fsimg s') (setf F i d) n (freeblock s') (setf B i (Nat.max (B i) (S k)))
    (has_ind (setf B i (Nat.max (B i) (S k)))) /\
  kept n (fsimg s) F B (fsimg s') (setf F i d) /\
  (B i = k -> fsimg s' !!! addr_of (fsimg s') d (Data k) = zeroes) /\
  exists ad, d = DInode (di_type (F i)) (di_major (F i)) (di_minor (F i)) (di_nlink (F i)) (di_size (F i)) ad.

(** The block is there. *)
Lemma append_block_there k :
  (k < B i)%nat -> Z.of_nat k < MAXFILE ->
  append_block (F i) (Z.of_nat k) s = Ok (A (Data k), F i) s /\ after_block k s (F i).
Proof.
  intros Hk Hm. assert (Hd : A (Data k) <> 0) by by apply (data_owned Him). split.
  - unfold append_block. rewrite Nat2Z.id. pose proof (addr_small (Data k) Hm) as Hsm.
    destruct (Nat.ltb_spec k NDIRECT) as [Hlt|Hge].
    + rewrite (proj2 (Z.ltb_lt _ _)) by lia.
      assert (EA : nth k (di_addrs (F i)) 0 = A (Data k)).
      { unfold A, addr_of. by rewrite (proj2 (Nat.ltb_lt _ _) Hlt). }
      rewrite EA, xint_id, (proj2 (Z.eqb_neq _ _)) by done. unfold bind, ret. cbn [bindO]. by rewrite EA, xint_id.
    + rewrite (proj2 (Z.ltb_ge _ _)) by lia.
      assert (Hia : A Ind <> 0). { apply (ind_owned Him i Hi). apply Nat.ltb_lt. lia. }
      pose proof (addr_small Ind Logic.I) as Hia'. change (A Ind) with (nth NDIRECT (di_addrs (F i)) 0) in Hia, Hia'.
      set (ia := nth NDIRECT (di_addrs (F i)) 0) in *.
      rewrite xint_id, (proj2 (Z.eqb_neq _ _)) by done. unfold bind at 1, ret at 1. cbn [bindO]. unfold append_indirect. cbv zeta.
      rewrite xint_id by done.
      pose proof (owned_range Him i Ind Hi Logic.I Hia) as Hr. cbv beta zeta in Hr.
      change (addr_of (fsimg s) (F i) Ind) with ia in Hr.
      pose proof (im_fb _ _ _ _ _ _ Him). assert (nmeta = 46) by by vm_compute.
      destruct (im_sect _ _ _ _ _ _ Him ia ltac:(lia)) as (ib & Eib & Lib).
      erewrite bind_Ok by (by apply rsect_ok).
      assert (EA : get32 ib (k - NDIRECT) = A (Data k)).
      { unfold A, addr_of. fold ia. rewrite (proj2 (Nat.ltb_ge _ _)) by lia.
        rewrite (proj2 (Z.eqb_neq ia 0)) by done. by rewrite lookup_total_alt, Eib. }
      rewrite EA, (proj2 (Z.eqb_neq _ 0)) by done. unfold bind, ret. cbn [bindO]. by rewrite EA, xint_id.
  - unfold after_block, cost. rewrite (proj2 (Nat.ltb_lt _ _)) by done. rewrite Z.add_0_r.
    assert (Hmax : Nat.max (B i) (S k) = B i) by lia. rewrite Hmax.
    assert (EB : forall j, setf B i (B i) j = B j).
    { intros j. unfold setf. case_decide; congruence. }
    assert (EF : forall j, setf F i (F i) j = F j).
    { intros j. unfold setf. case_decide; congruence. }
    split_and!; [done..| | |lia|].
    + apply (image_ext _ F _ _ _ B _ (has_ind B)); [|exact Him]. intros j _. unfold has_ind. by rewrite EB, EF.
    + apply (kept_ext _ _ _ F); [by intros; apply EF|apply kept_refl].
    + exists (di_addrs (F i)). by destruct (F i).
Qed.

(** A direct block is taken. *)
Lemma append_block_direct k :
  B i = k -> (k < NDIRECT)%nat -> freeblock s < FSSIZE ->
  exists x d s', append_block (F i) (Z.of_nat k) s = Ok (x, d) s' /\ x = addr_of (fsimg s') d (Data k) /\
    after_block k s' d.
Proof.
  intros Hk Hlt Hfb. assert (Hm : Z.of_nat k < MAXFILE) by (unfold MAXFILE, NDIRECT in *; lia).
  pose proof (fb_pos _ _ _ _ _ _ Him) as Hp. pose proof (im_len _ _ _ _ _ _ Him i Hi) as HL.
  destruct (grow_direct Him i k Hi Hk Hlt Hfb) as [Hg Kg].
  exists (freeblock s), (set_addr (F i) k (freeblock s)), (s.[freeblock := freeblock s + 1]). split; [|split].
  - unfold append_block. rewrite Nat2Z.id, (proj2 (Z.ltb_lt _ _)) by lia.
    assert (EA : nth k (di_addrs (F i)) 0 = A (Data k)).
    { unfold A, addr_of. by rewrite (proj2 (Nat.ltb_lt _ _) Hlt). }
    assert (E0 : A (Data k) = 0).
    { destruct (decide (A (Data k) = 0)) as [E|E]; [done|]. apply (data_owned Him) in E; [lia|done..]. }
    rewrite EA, E0. change (xint 0 =? 0) with true. cbv beta iota zeta.
    unfold bind at 1. erewrite bind_Ok by (apply next_block_ok; lia). unfold ret. cbn [bindO set_addr di_addrs].
    rewrite (xint_id (freeblock s)) by (cint_unfold; unfold FSSIZE in Hfb; lia). rewrite nth_insert, decide_True by (done || lia).
    by rewrite xint_id by (cint_unfold; unfold FSSIZE in Hfb; lia).
  - unfold addr_of. rewrite (proj2 (Nat.ltb_lt _ _) Hlt). cbn [set_addr di_addrs]. by rewrite nth_insert, decide_True by (done || lia).
  - unfold after_block, cost. rewrite Hk, (proj2 (Nat.ltb_ge _ _)), (proj2 (Nat.eqb_neq _ _)) by lia.
    replace (Nat.max k (S k)) with (S k) by lia.
    split_and!; [done..| |exact Kg| |by exists (<[k := freeblock s]> (di_addrs (F i)))].
    2: { intros _. unfold addr_of. rewrite (proj2 (Nat.ltb_lt _ _) Hlt). cbn [set_addr di_addrs].
      rewrite nth_insert, decide_True by (done || lia). rsimpl_goal.
      by rewrite lookup_total_alt, (im_fresh _ _ _ _ _ _ Him) by lia. }
    refine (image_ext _ _ _ _ _ _ _ _ _ _ Hg). intros j _. split_and!; [done..|]. unfold has_ind.
    destruct (decide (j = i)) as [->|Hne]; [|by rewrite setf_ne]. rewrite setf_eq, Hk.
    rewrite !(proj2 (Nat.ltb_ge _ _)) by lia. done.
Qed.
End append.

(** An entry of the indirect block is taken. *)
Lemma append_indirect_new s F n B I i k d :
  image (fsimg s) F n (freeblock s) B I -> dom n i -> I i = true -> B i = k -> (NDIRECT <= k)%nat ->
  Z.of_nat k < MAXFILE -> freeblock s < FSSIZE -> d = F i ->
  exists x s', append_indirect d (k - NDIRECT) s = Ok (x, d) s' /\ x = addr_of (fsimg s') d (Data k) /\
    freeinode s' = freeinode s /\ freeblock s' = freeblock s + 1 /\
    image (fsimg s') F n (freeblock s') (setf B i (S k)) I /\ kept n (fsimg s) F B (fsimg s') F /\
    fsimg s' !!! x = zeroes.
Proof.
  intros Him Hi HI Hk Hge Hm Hfb ->. destruct (grow_indirect Him i k Hi HI Hk Hge Hm Hfb) as [Hg Kg].
  pose proof (fb_pos _ _ _ _ _ _ Him) as Hp. set (ia := nth NDIRECT (di_addrs (F i)) 0) in *.
  assert (Hia : ia <> 0) by by apply (ind_owned Him i Hi).
  pose proof (owned_range Him i Ind Hi Logic.I Hia) as Hr. cbv beta zeta in Hr.
  change (addr_of (fsimg s) (F i) Ind) with ia in Hr. pose proof (im_fb _ _ _ _ _ _ Him) as Hf.
  assert (Hn : nmeta = 46) by by vm_compute. assert (HF : FSSIZE = 2000) by done.
  destruct (im_sect _ _ _ _ _ _ Him ia ltac:(lia)) as (ib & Eib & Lib).
  assert (Et : fsimg s !!! ia = ib) by (rewrite lookup_total_alt, Eib; done). rewrite Et in *.
  assert (E0 : get32 ib (k - NDIRECT) = 0).
  { destruct (decide (addr_of (fsimg s) (F i) (Data k) = 0)) as [E|E]; [|apply (data_owned Him) in E; [lia|done..]].
    revert E. unfold addr_of. fold ia. rewrite (proj2 (Nat.ltb_ge _ _)) by lia.
    by rewrite (proj2 (Z.eqb_neq ia 0)), Et by done. }
  assert (Hsm : 0 <= ia < W32) by (cint_unfold; lia). assert (Hsm' : 0 <= freeblock s < W32) by (cint_unfold; lia).
  set (ib' := set32 ib (k - NDIRECT) (freeblock s)) in *.
  exists (freeblock s), ((s.[freeblock := freeblock s + 1]).[fsimg := <[ia := ib']> (fsimg s)]).
  assert (Eg : get32 ib' (k - NDIRECT) = freeblock s).
  { unfold ib', MAXFILE, NDIRECT in *. rewrite get32_set32, decide_True by (done || lia). by apply u32_small. }
  split_and!; [..|done|done|exact Hg|exact Kg|].
  - unfold append_indirect. fold ia. rewrite xint_id by done. cbv zeta.
    erewrite bind_Ok by (by apply rsect_ok). rewrite E0. change (0 =? 0) with true. cbv beta iota.
    unfold bind at 1. erewrite bind_Ok by (apply next_block_ok; lia). rewrite xint_id by done. fold ib'.
    unfold bind, ret, wsect, modify. cbn [bindO]. by rewrite Eg, xint_id.
  - unfold addr_of. fold ia. rewrite (proj2 (Nat.ltb_ge _ _)), (proj2 (Z.eqb_neq ia 0)) by (done || lia).
    cbn [fsimg upd_field]. rsimpl_goal. by rewrite lookup_total_insert_eq.
  - rsimpl_goal. rewrite lookup_total_insert_ne by lia.
    by rewrite lookup_total_alt, (im_fresh _ _ _ _ _ _ Him) by lia.
Qed.

Lemma append_block_indirect s F n B i k :
  image (fsimg s) F n (freeblock s) B (has_ind B) -> dom n i -> B i = k -> (NDIRECT <= k)%nat ->
  Z.of_nat k < MAXFILE -> freeblock s + cost (B i) k <= FSSIZE ->
  exists x d s', append_block (F i) (Z.of_nat k) s = Ok (x, d) s' /\ x = addr_of (fsimg s') d (Data k) /\
    @after_block s F n B i k s' d.
Proof.
  intros Him Hi Hk Hge Hm Hfb. pose proof (im_len _ _ _ _ _ _ Him i Hi) as HL.
  pose proof (fb_pos _ _ _ _ _ _ Him) as Hp.
  unfold after_block, cost in *. rewrite Hk, (proj2 (Nat.ltb_ge k k)) in * by lia.
  replace (Nat.max k (S k)) with (S k) by lia.
  unfold append_block. rewrite Nat2Z.id, (proj2 (Z.ltb_ge _ _)) by lia. cbv zeta.
  assert (Hsm := addr_small Him Hi Ind Logic.I). change (addr_of (fsimg s) (F i) Ind) with (nth NDIRECT (di_addrs (F i)) 0) in Hsm.
  rewrite xint_id by done. destruct (Nat.eqb_spec k NDIRECT) as [E12|Hne].
  - assert (HI : has_ind B i = false) by (apply Nat.ltb_ge; lia).
    assert (E0 : nth NDIRECT (di_addrs (F i)) 0 = 0).
    { destruct (decide (nth NDIRECT (di_addrs (F i)) 0 = 0)) as [E|E]; [done|].
      apply (ind_owned Him i Hi) in E. congruence. }
    rewrite E0. change (0 =? 0) with true. cbv beta iota.
    destruct (grow_ind Him i Hi HI ltac:(lia)) as [Hg Kg].
    set (d := set_addr (F i) NDIRECT (freeblock s)) in *. set (s1 := s.[freeblock := freeblock s + 1]).
    destruct (append_indirect_new s1 (setf F i d) n B (setf (has_ind B) i true) i k d) as (x & s' & E & Ex & E1 & E2 & Hg' & Kg' & Z0);
      [exact Hg|done|by rewrite setf_eq|done..|unfold s1; rsimpl_goal; lia|by rewrite setf_eq|].
    exists x, d, s'. split; [|split; [exact Ex|]].
    + unfold bind at 1. erewrite bind_Ok by (apply next_block_ok; lia). unfold ret. cbn [bindO].
      rewrite xint_id by (cint_unfold; unfold FSSIZE in Hfb; lia). exact E.
    + split_and!.
      * rewrite E1. done.
      * rewrite E2. unfold s1. rsimpl_goal. lia.
      * refine (image_ext _ _ _ _ _ _ _ _ _ _ Hg'). intros j _. split_and!; [done..|]. unfold has_ind.
        destruct (decide (j = i)) as [->|Hne]; [|by rewrite !setf_ne]. rewrite !setf_eq. apply Nat.ltb_lt. lia.
      * apply (kept_trans _ _ _ _ (fsimg s1) (setf F i d) B); [done|exact Kg|exact Kg'].
      * intros _. by rewrite <- Ex.
      * by exists (<[NDIRECT := freeblock s]> (di_addrs (F i))).
  - assert (HI : has_ind B i = true) by (apply Nat.ltb_lt; lia).
    assert (Hia : nth NDIRECT (di_addrs (F i)) 0 <> 0) by by apply (ind_owned Him i Hi).
    rewrite (proj2 (Z.eqb_neq _ 0)) by done. cbv beta iota. erewrite bind_Ok by reflexivity.
    destruct (append_indirect_new s F n B (has_ind B) i k (F i)) as (x & s' & E & Ex & E1 & E2 & Hg & Kg & Z0);
      [done..|lia|done|].
    exists x, (F i), s'. split; [exact E|split; [exact Ex|]].
    assert (EF : forall j, setf F i (F i) j = F j) by (intros j; unfold setf; case_decide; congruence).
    split_and!; [done..| | |by rewrite <- Ex|].
    + refine (image_ext _ _ _ _ _ _ _ _ _ _ Hg). intros j _. rewrite EF. split_and!; [done..|]. unfold has_ind.
      destruct (decide (j = i)) as [->|Hne']; [|by rewrite !setf_ne]. rewrite !setf_eq, Hk.
      rewrite !(proj2 (Nat.ltb_lt _ _)) by lia. done.
    + apply (kept_ext _ _ _ F); [by intros; apply EF|exact Kg].
    + exists (di_addrs (F i)). by destruct (F i).
Qed.

Lemma append_block_ok s F n B i k :
  image (fsimg s) F n (freeblock s) B (has_ind B) -> dom n i -> (k <= B i)%nat ->
  Z.of_nat k < MAXFILE -> freeblock s + cost (B i) k <= FSSIZE ->
  exists x d s', append_block (F i) (Z.of_nat k) s = Ok (x, d) s' /\ x = addr_of (fsimg s') d (Data k) /\
    @after_block s F n B i k s' d.
Proof.
  intros Him Hi Hk Hm Hfb. destruct (decide (k < B i)%nat) as [Hlt|Hge].
  - destruct (append_block_there Him Hi k Hlt Hm) as [E H]. by exists (addr_of (fsimg s) (F i) (Data k)), (F i), s.
  - assert (B i = k) by lia. destruct (decide (k < NDIRECT)%nat).
    + apply (append_block_direct Him Hi); [done..|]. revert Hfb. unfold cost. destruct (k <? B i)%nat eqn:E; [|].
      * apply Nat.ltb_lt in E. lia.
      * destruct (k =? NDIRECT)%nat; lia.
    + apply append_block_indirect; (done || lia).
Qed.

(** ** The bytes of a file *)

Definition fbyte (img : gmap Z (list Z)) (d : dinode) (o : Z) : Z :=
  nth (Z.to_nat (o mod BSIZE)) (img !!! addr_of img d (Data (Z.to_nat (o / BSIZE)))) 0.

Definition bytes (img : gmap Z (list Z)) (d : dinode) (sz : Z) : list Z := fbyte img d <$> zseq 0 (Z.to_nat sz).

(** The blocks of a file of [sz] bytes, without and with its indirect block. *)
Definition nb (sz : Z) : nat := Z.to_nat ((sz + BSIZE - 1) / BSIZE).
Definition need (sz : Z) : Z := Z.of_nat (nb sz) + (if (NDIRECT <? nb sz)%nat then 1 else 0).

Lemma bytes_ext img d img' d' sz :
  (forall o, 0 <= o < sz -> fbyte img' d' o = fbyte img d o) -> bytes img' d' sz = bytes img d sz.
Proof.
  intros H. unfold bytes. apply list_fmap_ext. intros i x Hx.
  assert (Hi : x ∈ zseq 0 (Z.to_nat sz)) by (by eapply list_elem_of_lookup_2). apply elem_of_zseq in Hi. apply H. lia.
Qed.

Lemma bytes_length img d sz : 0 <= sz -> Z.of_nat (length (bytes img d sz)) = sz.
Proof. intros H. unfold bytes. rewrite length_fmap, zseq_length. lia. Qed.

Lemma bytes_app img d sz (p : list Z) :
  0 <= sz -> (forall i, (i < length p)%nat -> p !! i = Some (fbyte img d (sz + Z.of_nat i))) ->
  bytes img d (sz + Z.of_nat (length p)) = bytes img d sz ++ p.
Proof.
  intros Hsz Hp. unfold bytes. apply list_eq. intros i.
  destruct (decide (i < Z.to_nat sz)%nat) as [H1|H1].
  - rewrite lookup_app_l by (rewrite length_fmap, zseq_length; lia).
    rewrite !list_lookup_fmap, !zseq_lookup by lia. done.
  - rewrite lookup_app_r by (rewrite length_fmap, zseq_length; lia). rewrite length_fmap, zseq_length.
    destruct (decide (i < Z.to_nat sz + length p)%nat) as [H2|H2].
    + rewrite list_lookup_fmap, zseq_lookup by lia. rewrite Hp by lia. cbn. do 2 f_equal. lia.
    + rewrite (lookup_ge_None_2 p) by lia. apply lookup_ge_None_2. rewrite length_fmap, zseq_length. lia.
Qed.

Lemma kept_bytes n img F B img' F' j sz :
  kept n img F B img' F' -> dom n j -> sz <= BSIZE * Z.of_nat (B j) -> (Z.of_nat (B j) <= MAXFILE) ->
  bytes img' (F' j) sz = bytes img (F j) sz.
Proof.
  intros [_ K] Hj Hsz Hm. apply bytes_ext. intros o Ho. unfold fbyte.
  unfold BSIZE, MAXFILE in *.
  destruct (K j (Z.to_nat (o / 1024)) Hj) as [E1 E2]; [dlia|unfold MAXFILE; dlia|].
  by rewrite E1, E2.
Qed.

(** The length of the piece that [append_step] writes. *)
Definition piece (m off : Z) : Z := Z.min m ((off / BSIZE + 1) * BSIZE - off).

Lemma piece_blocks m off :
  0 <= off -> 0 < m ->
  let k := Z.to_nat (off / BSIZE) in
  0 < piece m off <= m /\ Z.of_nat k = off / BSIZE /\ nb (off + piece m off) = S k /\ (nb off = k \/ nb off = S k) /\
  cost (nb off) k = need (off + piece m off) - need off.
Proof.
  intros Ho Hm. cbv zeta. unfold piece, nb, BSIZE in *.
  assert (H1 : Z.to_nat ((off + Z.min m ((off / 1024 + 1) * 1024 - off) + 1024 - 1) / 1024) = S (Z.to_nat (off / 1024))) by dlia.
  assert (H2 : Z.to_nat ((off + 1024 - 1) / 1024) = Z.to_nat (off / 1024) \/
    Z.to_nat ((off + 1024 - 1) / 1024) = S (Z.to_nat (off / 1024))) by dlia.
  split_and!; [dlia..|exact H1|exact H2|]. unfold need, nb, cost, BSIZE. rewrite H1.
  destruct H2 as [->| ->]; destruct (Nat.ltb_spec (Z.to_nat (off / 1024)) (Z.to_nat (off / 1024)));
    destruct (Nat.ltb_spec (Z.to_nat (off / 1024)) (S (Z.to_nat (off / 1024)))); try lia.
  destruct (Nat.eqb_spec (Z.to_nat (off / 1024)) NDIRECT);
    destruct (Nat.ltb_spec NDIRECT (S (Z.to_nat (off / 1024))));
    destruct (Nat.ltb_spec NDIRECT (Z.to_nat (off / 1024))); lia.
Qed.

(** The last block of a file is zero behind its end. *)
Definition tail_zero (img : gmap Z (list Z)) (d : dinode) (sz : Z) : Prop :=
  forall o, sz <= o < BSIZE * Z.of_nat (nb sz) -> fbyte img d o = 0.

(** What one or more iterations make of file [i], grown from [off] to [off']. *)
Record grown (n : Z) (i : Z) (s : mkst) (F : Z -> dinode) (B : Z -> nat) (off : Z)
    (s' : mkst) (d : dinode) (off' : Z) (p : list Z) : Prop := {
  gr_inode : freeinode s' = freeinode s;
  gr_free : freeblock s' = freeblock s + need off' - need off;
  gr_image : image (fsimg s') (setf F i d) n (freeblock s') (setf B i (nb off')) (has_ind (setf B i (nb off')));
  gr_meta : forall a, a < nmeta -> fsimg s' !! a = fsimg s !! a;
  gr_other : forall j sz, dom n j -> j <> i -> sz <= BSIZE * Z.of_nat (B j) ->
    bytes (fsimg s') (F j) sz = bytes (fsimg s) (F j) sz;
  gr_bytes : bytes (fsimg s') d off' = bytes (fsimg s) (F i) off ++ p;
  gr_tail : tail_zero (fsimg s) (F i) off -> tail_zero (fsimg s') d off';
  gr_head : exists ad, d = DInode (di_type (F i)) (di_major (F i)) (di_minor (F i)) (di_nlink (F i)) (di_size (F i)) ad;
}.

Section step.
Context (s : mkst) (F : Z -> dinode) (n : Z) (B : Z -> nat) (i : Z).
Context (Him : image (fsimg s) F n (freeblock s) B (has_ind B)) (Hi : dom n i).
Context (HB : forall j, dom n j -> Z.of_nat (B j) <= MAXFILE).

(** The write of one piece, in the block that [append_block] returned. *)
Lemma write_piece (off : Z) (p : list Z) d s1 buf :
  let k := Z.to_nat (off / BSIZE) in
  let x := addr_of (fsimg s1) d (Data k) in
  let o := Z.to_nat (off - off / BSIZE * BSIZE) in
  let s' := s1.[fsimg := <[x := splice buf o p]> (fsimg s1)] in
  0 <= off -> Z.of_nat k < MAXFILE -> (o + length p <= 1024)%nat -> (0 < length p)%nat ->
  (k <= B i <= S k)%nat -> nb off = B i -> nb (off + Z.of_nat (length p)) = S k ->
  @after_block s F n B i k s1 d ->
  freeblock s1 = freeblock s + need (off + Z.of_nat (length p)) - need off ->
  fsimg s1 !! x = Some buf ->
  grown n i s F B off s' d (off + Z.of_nat (length p)) p.
Proof.
  intros k x o s' Hoff Hm Hp Hp0 Hk Hnb Hnb' (A1 & A2 & A3 & A4 & A6 & A5) Hfb Hbuf.
  assert (Ek : Z.of_nat k = off / BSIZE) by (unfold k, BSIZE; dlia).
  assert (Eo : Z.of_nat o = off mod BSIZE) by (unfold o, BSIZE; dlia).
  rewrite (Nat.max_r (B i) (S k)) in A3 by lia.
  destruct (im_sect _ _ _ _ _ _ A3 x) as (buf' & E & Lb).
  { assert (Hx : x <> 0).
    { pose proof (proj2 (data_owned A3 i k Hi Hm)) as H. cbv beta zeta in H. rewrite !setf_eq in H. apply H. lia. }
    pose proof (owned_range A3 i (Data k) Hi Hm) as H. cbv beta zeta in H. rewrite setf_eq in H.
    specialize (H Hx). fold x in H. pose proof (im_fb _ _ _ _ _ _ A3). assert (nmeta = 46) by by vm_compute. lia. }
  assert (buf' = buf) as -> by congruence.
  assert (Lsp : length (splice buf o p) = 1024%nat) by (rewrite splice_length; lia).
  destruct (write_data A3 i k (splice buf o p) Hi ltac:(rewrite setf_eq; lia) Hm Lsp) as (W1 & W2 & W3).
  rewrite setf_eq in W1, W2, W3. fold x in W1, W2, W3.
  assert (Hother : forall j l, dom n j -> Z.of_nat l < MAXFILE -> (j <> i \/ l <> k) ->
    addr_of (fsimg s1) (setf F i d j) (Data l) <> x).
  { intros j l Hj Hl Hne E'. assert (Hx : addr_of (fsimg s1) (setf F i d i) (Data k) <> 0).
    { apply (data_owned A3 i k Hi Hm). rewrite setf_eq. lia. }
    rewrite setf_eq in Hx.
    destruct (owned_inj A3 i (Data k) j (Data l) Hi Hm Hj Hl) as [<- [= ->]]; [by rewrite setf_eq|by rewrite setf_eq|].
    by destruct Hne. }
  assert (Hblock : forall j l, dom n j -> Z.of_nat l < MAXFILE -> (j <> i \/ l <> k) ->
    fsimg s' !!! addr_of (fsimg s') (setf F i d j) (Data l) = fsimg s1 !!! addr_of (fsimg s1) (setf F i d j) (Data l)).
  { intros j l Hj Hl Hne. unfold s'. rsimpl_goal. rewrite W2 by done.
    rewrite lookup_total_insert_ne; [done|]. intros E'. by apply (Hother j l Hj Hl Hne). }
  split.
  - by rewrite <- A1.
  - exact Hfb.
  - rewrite Hnb'. exact W1.
  - intros a Ha. unfold s'. rsimpl_goal. rewrite lookup_insert_ne by lia. by apply A4.
  - intros j sz Hj Hne Hsz. transitivity (bytes (fsimg s1) (F j) sz).
    + apply bytes_ext. intros o' Ho'. unfold fbyte. specialize (HB j Hj).
      assert (Hl : Z.of_nat (Z.to_nat (o' / BSIZE)) < MAXFILE) by (unfold BSIZE, MAXFILE in *; dlia).
      specialize (Hblock j (Z.to_nat (o' / BSIZE)) Hj Hl (or_introl Hne)). rewrite setf_ne in Hblock by done.
      by rewrite Hblock.
    + rewrite <- (kept_bytes n _ F B _ (setf F i d) j sz A4 Hj Hsz (HB j Hj)). by rewrite setf_ne.
  - rewrite bytes_app; [|done|].
    + f_equal. apply bytes_ext. intros o' Ho'. unfold fbyte.
      assert (Hl : Z.of_nat (Z.to_nat (o' / BSIZE)) < MAXFILE) by (unfold BSIZE, MAXFILE in *; dlia).
      assert (Hlt : (Z.to_nat (o' / BSIZE) < B i)%nat) by (rewrite <- Hnb; unfold nb, BSIZE in *; dlia).
      destruct (proj2 A4 i _ Hi Hlt Hl) as [K1 K2]. rewrite setf_eq in K1.
      destruct (decide (Z.to_nat (o' / BSIZE) = k)) as [Hk'|Hk'].
      * rewrite Hk' in *. unfold s' at 1. rsimpl_goal. pose proof (W2 i (Data k) Hi Hm) as W2'. rewrite setf_eq in W2'.
        rewrite W2'. fold x. rewrite lookup_total_insert_eq. fold x in K1. rewrite <- K1 in *.
        rewrite <- K2, lookup_total_alt, Hbuf. cbn [default]. rewrite !nth_lookup. f_equal.
        unfold id. apply splice_lookup_out; [lia|]. left. unfold o, k, BSIZE in *. dlia.
      * specialize (Hblock i _ Hi Hl (or_intror Hk')). rewrite setf_eq in Hblock. rewrite Hblock, K1. by rewrite K2.
    + intros l Hl. unfold fbyte.
      assert (E1 : Z.to_nat ((off + Z.of_nat l) / BSIZE) = k) by (unfold k, o, BSIZE in *; dlia).
      assert (E2 : Z.to_nat ((off + Z.of_nat l) mod BSIZE) = (o + l)%nat) by (unfold k, o, BSIZE in *; dlia).
      rewrite E1, E2. unfold s'. rsimpl_goal. pose proof (W2 i (Data k) Hi Hm) as W2'. rewrite setf_eq in W2'.
      rewrite W2'. fold x. rewrite lookup_total_insert_eq, nth_lookup, splice_lookup_in by lia.
      destruct (lookup_lt_is_Some_2 p l Hl) as [v ->]. done.
  - intros Ht o' Ho'. unfold tail_zero, fbyte in *. rewrite Hnb' in Ho'.
    assert (E1 : Z.to_nat (o' / BSIZE) = k) by (unfold k, o, BSIZE in *; dlia).
    assert (E2 : (o + length p <= Z.to_nat (o' mod BSIZE) < 1024)%nat) by (unfold k, o, BSIZE in *; dlia).
    rewrite E1. unfold s'. rsimpl_goal. pose proof (W2 i (Data k) Hi Hm) as W2'. rewrite setf_eq in W2'.
    rewrite W2'. fold x. rewrite lookup_total_insert_eq, nth_lookup, splice_lookup_out by lia.
    assert (Et : fsimg s1 !!! x = buf) by (rewrite lookup_total_alt, Hbuf; done).
    destruct (decide (B i = k)) as [EB|EB].
    + specialize (A6 EB). fold x in A6. rewrite Et in A6. subst buf.
      unfold zeroes. rewrite lookup_replicate_2; [done|]. change (Z.to_nat BSIZE) with 1024%nat. lia.
    + destruct (proj2 A4 i k Hi ltac:(lia) Hm) as [K1 K2]. rewrite setf_eq in K1. fold x in K1.
      rewrite <- K1, Et in K2. specialize (Ht o'). rewrite Hnb in Ht. rewrite E1, <- K1, <- K2, nth_lookup in Ht.
      apply Ht. unfold BSIZE in *. lia.
  - exact A5.
Qed.

Lemma append_step_ok off m p :
  B i = nb off -> 0 <= off -> 0 < m -> off + m <= MAXFILE * BSIZE -> Z.of_nat (length p) = m ->
  freeblock s + need (off + piece m off) - need off <= FSSIZE ->
  exists d s', append_step (p, m, off, F i) s =
      Ok (inl (drop (Z.to_nat (piece m off)) p, m - piece m off, off + piece m off, d)) s' /\
    grown n i s F B off s' d (off + piece m off) (take (Z.to_nat (piece m off)) p).
Proof.
  intros HBi Ho Hm Hmax Hp Hfb. destruct (piece_blocks m off Ho Hm) as (H1 & H2 & H3 & H4 & H5).
  set (k := Z.to_nat (off / BSIZE)) in *. assert (Hk : Z.of_nat k < MAXFILE) by (unfold BSIZE, MAXFILE in *; dlia).
  destruct (append_block_ok s F n B i k Him Hi ltac:(lia) Hk) as (x & d & s1 & E & Ex & HA).
  { rewrite HBi, H5. lia. }
  pose proof HA as (A1 & A2 & A3 & A4 & _ & A5). rewrite HBi, H5 in A2.
  assert (Hlen : Z.of_nat (length (take (Z.to_nat (piece m off)) p)) = piece m off) by (rewrite length_take; lia).
  assert (Hx : nmeta <= x < FSSIZE).
  { assert (Hx0 : x <> 0).
    { pose proof (proj2 (data_owned A3 i k Hi Hk)) as H. cbv beta zeta in H. rewrite !setf_eq in H. rewrite Ex. apply H. lia. }
    pose proof (owned_range A3 i (Data k) Hi Hk) as H. cbv beta zeta in H. rewrite setf_eq, <- Ex in H.
    specialize (H Hx0). pose proof (im_fb _ _ _ _ _ _ A3). lia. }
  assert (nmeta = 46) by by vm_compute.
  destruct (im_sect _ _ _ _ _ _ A3 x ltac:(lia)) as (buf & Eb & Lb).
  pose proof (write_piece off (take (Z.to_nat (piece m off)) p) d s1 buf) as W. cbv zeta in W.
  fold k in W. rewrite <- Ex, Hlen in W. eexists d, _. split; [|apply W; clear W; try done; try lia].
  - unfold append_step. rewrite (proj2 (Z.ltb_lt _ _)) by done. cbn [negb]. cbv zeta.
    rewrite (proj2 (Z.ltb_lt _ _)) by lia. erewrite bind_Ok by reflexivity. rewrite <- H2.
    erewrite bind_Ok by exact E. cbv beta iota. erewrite bind_Ok by (by apply rsect_ok). rewrite H2.
    change (Z.min m ((off / BSIZE + 1) * BSIZE - off)) with (piece m off).
    rewrite u32_small by (unfold MAXFILE, BSIZE in *; cint_unfold; lia). reflexivity.
  - unfold piece, BSIZE in *. dlia.
Qed.
End step.

Lemma need_mono a b : 0 <= a <= b -> need a <= need b.
Proof.
  intros H. unfold need, nb, BSIZE. assert (H' : (Z.to_nat ((a + 1024 - 1) / 1024) <= Z.to_nat ((b + 1024 - 1) / 1024))%nat) by dlia.
  destruct (Nat.ltb_spec NDIRECT (Z.to_nat ((a + 1024 - 1) / 1024)));
    destruct (Nat.ltb_spec NDIRECT (Z.to_nat ((b + 1024 - 1) / 1024))); lia.
Qed.

Lemma nb_max a : a <= MAXFILE * BSIZE -> Z.of_nat (nb a) <= MAXFILE.
Proof. unfold nb, MAXFILE, BSIZE. intros. dlia. Qed.

Lemma grown_trans n i s F B off s1 d1 off1 p1 s2 d2 off2 p2 :
  dom n i -> grown n i s F B off s1 d1 off1 p1 ->
  grown n i s1 (setf F i d1) (setf B i (nb off1)) off1 s2 d2 off2 p2 -> grown n i s F B off s2 d2 off2 (p1 ++ p2).
Proof.
  intros Hi [] [].
  assert (EF : forall j, setf (setf F i d1) i d2 j = setf F i d2 j) by (intros j; unfold setf; by case_decide).
  assert (EB : forall j, setf (setf B i (nb off1)) i (nb off2) j = setf B i (nb off2) j) by (intros j; unfold setf; by case_decide).
  rewrite setf_eq in *. split.
  - congruence.
  - lia.
  - refine (image_ext _ _ _ _ _ _ _ _ _ _ gr_image1). intros j _. unfold has_ind. by rewrite EF, EB.
  - intros a Ha. by rewrite gr_meta1, gr_meta0.
  - intros j sz Hj Hne Hsz. rewrite <- gr_other0 by done. specialize (gr_other1 j sz Hj Hne).
    rewrite !setf_ne in gr_other1 by done. by apply gr_other1.
  - rewrite gr_bytes1, gr_bytes0. by rewrite app_assoc.
  - auto.
  - destruct gr_head0 as [ad ->], gr_head1 as [ad' ->]. by exists ad'.
Qed.

Lemma append_loop n i fuel : forall s F B off m p,
  image (fsimg s) F n (freeblock s) B (has_ind B) -> dom n i -> (forall j, dom n j -> Z.of_nat (B j) <= MAXFILE) ->
  B i = nb off -> 0 <= off -> 0 <= m -> off + m <= MAXFILE * BSIZE -> Z.of_nat (length p) = m ->
  freeblock s + need (off + m) - need off <= FSSIZE -> (Z.to_nat m < fuel)%nat ->
  exists d s', while fuel append_step (p, m, off, F i) s = Ok (off + m, d) s' /\
    grown n i s F B off s' d (off + m) p.
Proof.
  induction fuel as [|fuel IH]; intros s F B off m p Him Hi HB HBi Ho Hm Hmax Hp Hfb Hf; [lia|].
  destruct (decide (m = 0)) as [->|Hne].
  - exists (F i), s. rewrite Z.add_0_r. split; [by apply while_inr|]. destruct p; [|simpl in Hp; lia].
    assert (EB : forall j, setf B i (nb off) j = B j) by (intros j; unfold setf; case_decide; congruence).
    assert (EF : forall j, setf F i (F i) j = F j) by (intros j; unfold setf; case_decide; congruence).
    split; [done|lia|..]; [|done..| |done|].
    + refine (image_ext _ _ _ _ _ _ _ _ _ _ Him). intros j _. unfold has_ind. by rewrite EF, EB.
    + by rewrite app_nil_r.
    + exists (di_addrs (F i)). by destruct (F i).
  - destruct (piece_blocks m off Ho ltac:(lia)) as (H1 & _ & H3 & _).
    pose proof (need_mono (off + piece m off) (off + m) ltac:(lia)) as Hn.
    destruct (append_step_ok s F n B i Him Hi HB off m p HBi Ho ltac:(lia) Hmax Hp ltac:(lia)) as (d & s1 & E & G).
    pose proof (gr_free _ _ _ _ _ _ _ _ _ _ G) as Gf.
    destruct (IH s1 (setf F i d) (setf B i (nb (off + piece m off))) (off + piece m off) (m - piece m off)
      (drop (Z.to_nat (piece m off)) p)) as (d' & s' & E' & G').
    + apply (gr_image _ _ _ _ _ _ _ _ _ _ G).
    + done.
    + intros j Hj. unfold setf. case_decide; [|by apply HB]. apply nb_max. lia.
    + by rewrite setf_eq.
    + lia.
    + lia.
    + lia.
    + rewrite length_drop. lia.
    + replace (off + piece m off + (m - piece m off)) with (off + m) by lia. lia.
    + lia.
    + replace (off + piece m off + (m - piece m off)) with (off + m) in * by lia. rewrite setf_eq in E'.
      exists d', s'. split; [erewrite while_inl by exact E; exact E'|].
      rewrite <- (take_drop (Z.to_nat (piece m off)) p). by eapply grown_trans.
Qed.

(** ** Inodes on the image *)

(** The inode blocks hold 208 inodes. *)
Definition MAXINODE : Z := 208.
Definition dinode_at (img : gmap Z (list Z)) (i : Z) : dinode := get_dinode (img !!! IBLOCK i sb) i.

#[local] Arguments dinode_at : simpl never.

Lemma iblock_range i : 0 <= i < MAXINODE -> IBLOCK i sb = i / IPB + 32 /\ 32 <= IBLOCK i sb < 45.
Proof.
  intros Hi. unfold MAXINODE in *. unfold IBLOCK. change (sb_inodestart sb) with 32. change IPB with 16.
  assert (0 <= i / 16 < 13) by dlia. rewrite u32_small by (cint_unfold; lia). lia.
Qed.

Lemma inode_put img i x b :
  0 <= i < MAXINODE -> dinode_ok x -> img !! IBLOCK i sb = Some b -> length b = 1024%nat ->
  forall j, 0 <= j < MAXINODE -> dinode_at (<[IBLOCK i sb := put_dinode b i x]> img) j = setf (dinode_at img) i x j.
Proof.
  intros Hi Hx Hb Lb j Hj. unfold dinode_at.
  destruct (iblock_range i Hi) as [Ei _], (iblock_range j Hj) as [Ej _].
  destruct (decide (j = i)) as [->|Hne].
  { rewrite setf_eq, lookup_total_insert_eq. by apply get_put_dinode. }
  rewrite setf_ne by done. destruct (decide (IBLOCK j sb = IBLOCK i sb)) as [E|E].
  - rewrite E, lookup_total_insert_eq, lookup_total_alt, Hb. cbn [default]. unfold id.
    apply get_put_dinode_other; [done..|]. rewrite Ei, Ej in E. change IPB with 16 in *. dlia.
  - by rewrite lookup_total_insert_ne.
Qed.

(** A sector that no file owns is written. *)
Lemma image_meta img F n fb B a b :
  image img F n fb B (has_ind B) -> 0 < a < nmeta -> length b = 1024%nat ->
  image (<[a := b]> img) F n fb B (has_ind B) /\
  (forall j, dom n j -> Z.of_nat (B j) <= MAXFILE ->
    forall o, 0 <= o < BSIZE * Z.of_nat (B j) -> fbyte (<[a := b]> img) (F j) o = fbyte img (F j) o).
Proof.
  intros Him Ha Hb.
  assert (HA : forall j y, dom n j -> slot_ok y -> addr_of (<[a := b]> img) (F j) y = addr_of img (F j) y).
  { intros j y Hj Hy. apply (addr_insert (F := F) (n := n)); [done|]. intros l -> E.
    pose proof (owned_range Him j Ind Hj Logic.I) as Hr. cbv beta zeta in Hr. unfold addr_of in Hr. lia. }
  split.
  - split; [apply Him|apply (sect_ok Him); [done|lia]|..].
    + intros c Hc. pose proof (im_fb _ _ _ _ _ _ Him). rewrite lookup_insert_ne by lia. by apply Him.
    + apply Him.
    + destruct (im_own _ _ _ _ _ _ Him) as [H1 H2 H3 H4]. split.
      * intros j y Hj Hy. rewrite HA by done. by apply H1.
      * intros j y l z Hj Hy Hl Hz. rewrite !HA by done. by apply H2.
      * intros j l Hj Hl. rewrite HA by done. by apply H3.
      * intros j Hj. rewrite HA by done. by apply H4.
  - intros j Hj HB o Ho. unfold fbyte.
    assert (Hl : Z.of_nat (Z.to_nat (o / BSIZE)) < MAXFILE) by (unfold BSIZE, MAXFILE in *; dlia).
    rewrite HA by done. rewrite lookup_total_insert_ne; [done|]. intros E.
    assert (H0 : addr_of img (F j) (Data (Z.to_nat (o / BSIZE))) <> 0) by lia.
    pose proof (owned_range Him j (Data (Z.to_nat (o / BSIZE))) Hj Hl H0) as Hr. cbv beta zeta in Hr. lia.
Qed.

(** The state between two calls of [main]. *)
Definition blocks_of (img : gmap Z (list Z)) : Z -> nat := fun i => nb (di_size (dinode_at img i)).
Definition file_bytes (img : gmap Z (list Z)) (i : Z) : list Z := bytes img (dinode_at img i) (di_size (dinode_at img i)).

Record built (s : mkst) : Prop := {
  bu_inodes : 1 <= freeinode s <= MAXINODE;
  bu_image : image (fsimg s) (dinode_at (fsimg s)) (freeinode s) (freeblock s) (blocks_of (fsimg s))
    (has_ind (blocks_of (fsimg s)));
  bu_ok : forall i, dom (freeinode s) i -> dinode_ok (dinode_at (fsimg s) i) /\
    di_size (dinode_at (fsimg s) i) <= MAXFILE * BSIZE /\
    tail_zero (fsimg s) (dinode_at (fsimg s) i) (di_size (dinode_at (fsimg s) i));
}.

Lemma winode_ok s i x b :
  fsimg s !! IBLOCK i sb = Some b ->
  winode i x s = Ok tt (s.[fsimg := <[IBLOCK i sb := put_dinode b i x]> (fsimg s)]).
Proof. intros Hb. unfold winode. cbv zeta. by erewrite bind_Ok by (by apply rsect_ok). Qed.

Lemma fbyte_addrs img d d' o : di_addrs d' = di_addrs d -> fbyte img d' o = fbyte img d o.
Proof. intros H. unfold fbyte. by rewrite (addr_of_addrs _ d d'). Qed.

Lemma bytes_addrs img d d' sz : di_addrs d' = di_addrs d -> bytes img d' sz = bytes img d sz.
Proof. intros H. apply bytes_ext. intros o _. by apply fbyte_addrs. Qed.

Lemma addrs_small img F n fb B I i :
  image img F n fb B I -> dom n i -> Forall (fun a => 0 <= a < W32) (di_addrs (F i)).
Proof.
  intros Him Hi. apply Forall_lookup. intros k a Hk.
  assert (Hsm : forall x, slot_ok x -> 0 <= addr_of img (F i) x < W32).
  { intros x Hx. destruct (decide (addr_of img (F i) x = 0)) as [->|H]; [done|].
    pose proof (owned_range Him i x Hi Hx H) as Hr. cbv beta zeta in Hr. pose proof (im_fb _ _ _ _ _ _ Him).
    assert (nmeta = 46) by by vm_compute. assert (FSSIZE = 2000) by done. cint_unfold. lia. }
  pose proof (im_len _ _ _ _ _ _ Him i Hi) as HL. pose proof (lookup_lt_Some _ _ _ Hk) as Hlt.
  assert (Hn : nth k (di_addrs (F i)) 0 = a) by (by rewrite nth_lookup, Hk).
  destruct (decide (k = NDIRECT)) as [->|Hne].
  - specialize (Hsm Ind Logic.I). unfold addr_of in Hsm. by rewrite Hn in Hsm.
  - assert (Hk12 : (k < NDIRECT)%nat) by lia. specialize (Hsm (Data k)). unfold addr_of in Hsm.
    rewrite (proj2 (Nat.ltb_lt _ _) Hk12), Hn in Hsm. apply Hsm. unfold slot_ok, MAXFILE, NDIRECT in *. lia.
Qed.

(** What [iappend] makes of an image: [p] behind the bytes of file [i]. *)
Record appended (s : mkst) (i : Z) (p : list Z) (s' : mkst) : Prop := {
  ap_built : built s';
  ap_inode : freeinode s' = freeinode s;
  ap_free : freeblock s' = freeblock s +
    need (di_size (dinode_at (fsimg s) i) + Z.of_nat (length p)) - need (di_size (dinode_at (fsimg s) i));
  ap_bytes : file_bytes (fsimg s') i = file_bytes (fsimg s) i ++ p;
  ap_head : exists ad, let d := dinode_at (fsimg s) i in
    dinode_at (fsimg s') i = DInode (di_type d) (di_major d) (di_minor d) (di_nlink d) (di_size d + Z.of_nat (length p)) ad;
  ap_other : forall j, dom (freeinode s) j -> j <> i ->
    dinode_at (fsimg s') j = dinode_at (fsimg s) j /\ file_bytes (fsimg s') j = file_bytes (fsimg s) j;
  ap_meta : fsimg s' !! 1 = fsimg s !! 1;
}.

Lemma iappend_ok s i p :
  built s -> dom (freeinode s) i ->
  let sz := di_size (dinode_at (fsimg s) i) in
  sz + Z.of_nat (length p) <= MAXFILE * BSIZE ->
  freeblock s + need (sz + Z.of_nat (length p)) - need sz <= FSSIZE ->
  exists s', iappend i p (Z.of_nat (length p)) s = Ok tt s' /\ appended s i p s'.
Proof.
  intros [Hni Him Hok] Hi sz Hmax Hfb. destruct (Hok i Hi) as (Hd & Hsz & Ht). fold sz in Hsz, Ht.
  assert (H0 : 0 <= sz) by (destruct Hd as (_ & _ & _ & _ & Hs & _); fold sz in Hs; lia).
  assert (Hi' : forall j, dom (freeinode s) j -> 0 <= j < MAXINODE) by (unfold dom; lia).
  assert (HF : FSSIZE = 2000) by done. assert (Hn : nmeta = 46) by by vm_compute.
  destruct (iblock_range i (Hi' i Hi)) as [_ Hbl].
  destruct (im_sect _ _ _ _ _ _ Him (IBLOCK i sb) ltac:(lia)) as (b & Eb & Lb).
  assert (HB : forall j, dom (freeinode s) j -> Z.of_nat (blocks_of (fsimg s) j) <= MAXFILE).
  { intros j Hj. apply nb_max, Hok, Hj. }
  destruct (append_loop (freeinode s) i (S (length p)) s (dinode_at (fsimg s)) (blocks_of (fsimg s)) sz
    (Z.of_nat (length p)) p Him Hi HB) as (d & s1 & E & G); [done|lia..|].
  set (off' := sz + Z.of_nat (length p)) in *.
  pose proof (gr_image _ _ _ _ _ _ _ _ _ _ G) as G3. destruct (gr_head _ _ _ _ _ _ _ _ _ _ G) as [ad Ed].
  set (d' := DInode (di_type d) (di_major d) (di_minor d) (di_nlink d) (xint off') (di_addrs d)).
  assert (Ex : xint off' = off') by (apply xint_id; unfold MAXFILE, BSIZE in *; cint_unfold; lia).
  assert (Hd' : dinode_ok d').
  { pose proof (addrs_small _ _ _ _ _ _ i G3 Hi) as Ha. pose proof (im_len _ _ _ _ _ _ G3 i Hi) as Hl.
    rewrite setf_eq in Ha, Hl. unfold d'. rewrite Ed in *. unfold dinode_ok in *. simpl in *.
    destruct Hd as (? & ? & ? & ? & _ & _ & _). rewrite Ex. split_and!; try done;
    unfold MAXFILE, BSIZE in *; cint_unfold; try lia; apply Hd. }
  assert (Eb1 : fsimg s1 !! IBLOCK i sb = Some b) by (rewrite (gr_meta _ _ _ _ _ _ _ _ _ _ G) by lia; done).
  set (img' := <[IBLOCK i sb := put_dinode b i d']> (fsimg s1)).
  assert (EI : forall j, 0 <= j < MAXINODE -> dinode_at img' j = setf (dinode_at (fsimg s)) i d' j).
  { intros j Hj. unfold img'. rewrite (inode_put (fsimg s1) i d' b (Hi' i Hi) Hd' Eb1 Lb j Hj). unfold setf. case_decide; [done|].
    unfold dinode_at. destruct (iblock_range j Hj). by rewrite !lookup_total_alt, (gr_meta _ _ _ _ _ _ _ _ _ _ G) by lia. }
  destruct (image_meta _ _ _ _ _ (IBLOCK i sb) (put_dinode b i d') G3 ltac:(lia)) as [M1 M2];
    [by apply put_dinode_length|]. fold img' in M1, M2.
  assert (Nb : Z.of_nat (nb off') <= MAXFILE) by by apply nb_max.
  exists (s1.[fsimg := img']). split.
  { unfold iappend, rinode. cbv zeta. unfold bind at 1. erewrite bind_Ok by (by apply rsect_ok).
    unfold ret at 1. cbn [bindO].
    assert (Eg : get_dinode b i = dinode_at (fsimg s) i) by (unfold dinode_at; by rewrite lookup_total_alt, Eb).
    rewrite Eg. fold sz. rewrite (xint_id sz) by (unfold MAXFILE, BSIZE in *; cint_unfold; lia).
    rewrite Nat2Z.id. erewrite bind_Ok by exact E. cbv beta iota. by apply winode_ok. }
  assert (E1 : dinode_at img' i = d') by (rewrite EI by (by apply Hi'); by rewrite setf_eq).
  assert (Ej : forall j, dom (freeinode s) j -> j <> i -> dinode_at img' j = dinode_at (fsimg s) j).
  { intros j Hj Hne. rewrite EI by (by apply Hi'). by rewrite setf_ne. }
  assert (Es : di_size d' = off') by exact Ex.
  assert (Ebi : bytes img' d' off' = bytes (fsimg s1) d off').
  { rewrite (bytes_addrs _ d d') by done. apply bytes_ext. intros o Ho. specialize (M2 i Hi).
    rewrite !setf_eq in M2. apply M2; [done|]. unfold nb, BSIZE in *. dlia. }
  set (s2 := s1.[fsimg := img']).
  assert (S1 : fsimg s2 = img') by done. assert (S2 : freeinode s2 = freeinode s1) by done.
  assert (S3 : freeblock s2 = freeblock s1) by done. clearbody s2.
  split; rewrite ?S1, ?S2, ?S3.
  - split; rewrite ?S1, ?S2, ?S3.
    + by rewrite (gr_inode _ _ _ _ _ _ _ _ _ _ G).
    + rewrite (gr_inode _ _ _ _ _ _ _ _ _ _ G). refine (image_ext _ _ _ _ _ _ _ _ _ _ M1). intros j Hj.
      assert (EBj : blocks_of img' j = setf (blocks_of (fsimg s)) i (nb off') j).
      { unfold blocks_of. destruct (decide (j = i)) as [->|Hne]; [rewrite E1, setf_eq; simpl; by rewrite Ex|].
        by rewrite setf_ne, Ej by done. }
      split_and!; [|exact EBj|unfold has_ind; by rewrite EBj]. rewrite EI by (by apply Hi'). unfold setf. by case_decide.
    + rewrite (gr_inode _ _ _ _ _ _ _ _ _ _ G). intros j Hj. destruct (decide (j = i)) as [->|Hne].
      * rewrite E1, Es. split_and!; [done|done|].
        intros o Ho. rewrite (fbyte_addrs _ d d') by done. specialize (M2 i Hi). rewrite !setf_eq in M2.
        rewrite M2 by (done || lia). by apply (gr_tail _ _ _ _ _ _ _ _ _ _ G).
      * rewrite Ej by done. destruct (Hok j Hj) as (Q1 & Q2 & Q3). split_and!; [done..|].
        intros o Ho. specialize (M2 j Hj). rewrite !setf_ne in M2 by done.
        assert (Ho0 : 0 <= o). { destruct Q1 as (_ & _ & _ & _ & Hs & _). lia. }
        rewrite M2; [|by apply HB|unfold blocks_of; lia]. rewrite <- (Q3 o Ho).
        pose proof (gr_other _ _ _ _ _ _ _ _ _ _ G j (BSIZE * Z.of_nat (blocks_of (fsimg s) j)) Hj Hne ltac:(lia)) as Hb.
        apply (f_equal (fun l => l !! Z.to_nat o)) in Hb. unfold bytes in Hb.
        rewrite !list_lookup_fmap, zseq_lookup in Hb by (unfold blocks_of, BSIZE in *; lia). simpl in Hb.
        replace (Z.of_nat (Z.to_nat o)) with o in Hb by lia. by injection Hb.
  - apply (gr_inode _ _ _ _ _ _ _ _ _ _ G).
  - apply (gr_free _ _ _ _ _ _ _ _ _ _ G).
  - unfold file_bytes. rewrite E1, Es, Ebi.
    apply (gr_bytes _ _ _ _ _ _ _ _ _ _ G).
  - exists (di_addrs d). cbv zeta. fold sz off'. rewrite E1. unfold d'. by rewrite Ex, Ed.
  - intros j Hj Hne. split; [by apply Ej|]. unfold file_bytes. rewrite Ej by done.
    rewrite <- (gr_other _ _ _ _ _ _ _ _ _ _ G j) by (try done; unfold blocks_of, nb, BSIZE; dlia).
    apply bytes_ext. intros o Ho. specialize (M2 j Hj). rewrite !setf_ne in M2 by done.
    apply M2; [by apply HB|]. unfold blocks_of, nb, BSIZE. dlia.
  - unfold img'. rewrite lookup_insert_ne by lia. apply (gr_meta _ _ _ _ _ _ _ _ _ _ G). lia.
Qed.

(** ** [ialloc] *)

Lemma image_new img F F' n fb B :
  image img F n fb B (has_ind B) -> 1 <= n -> (forall i, dom n i -> F' i = F i) ->
  di_addrs (F' n) = replicate (S NDIRECT) 0 -> B n = 0%nat -> image img F' (n + 1) fb B (has_ind B).
Proof.
  intros [H1 H2 H3 H4 [O1 O2 O3 O4]] Hn HF Hz HB.
  assert (Hd : forall i, dom (n + 1) i -> dom n i \/ i = n) by (unfold dom; lia).
  assert (E : forall i x, dom n i -> addr_of img (F' i) x = addr_of img (F i) x) by (intros; by rewrite HF).
  assert (E0 : forall x, slot_ok x -> addr_of img (F' n) x = 0).
  { intros x Hx. unfold addr_of. rewrite Hz. change (nth NDIRECT (replicate (S NDIRECT) 0) 0) with 0.
    destruct x as [|k]; [done|]. destruct (Nat.ltb_spec k NDIRECT); [|done].
    rewrite nth_lookup. by destruct (replicate (S NDIRECT) 0 !! k) eqn:Hk; [apply lookup_replicate in Hk as [-> _]|]. }
  split; try done.
  - intros i [Hi| ->]%Hd; [rewrite HF by done; by apply H4|by rewrite Hz].
  - split.
    + intros i x [Hi| ->]%Hd Hx; [rewrite E by done; by apply O1|by rewrite E0].
    + intros i x j y [Hi| ->]%Hd Hx [Hj| ->]%Hd Hy; rewrite ?E, ?E0 by done; try done.
      * by apply O2.
    + intros i k [Hi| ->]%Hd Hk; [rewrite E by done; by apply O3|]. rewrite E0 by done. lia.
    + intros i [Hi| ->]%Hd; [rewrite E by done; by apply O4|]. rewrite E0 by done.
      unfold has_ind. by rewrite HB.
Qed.

Record allocated (s : mkst) (type : Z) (s' : mkst) : Prop := {
  al_built : built s';
  al_inode : freeinode s' = freeinode s + 1;
  al_free : freeblock s' = freeblock s;
  al_new : dinode_at (fsimg s') (freeinode s) = DInode type 0 0 1 0 (replicate (S NDIRECT) 0);
  al_other : forall j, dom (freeinode s) j ->
    dinode_at (fsimg s') j = dinode_at (fsimg s) j /\ file_bytes (fsimg s') j = file_bytes (fsimg s) j;
  al_meta : fsimg s' !! 1 = fsimg s !! 1;
}.

Lemma ialloc_ok s type :
  built s -> freeinode s < MAXINODE -> 0 <= type < W15 ->
  exists s', ialloc type s = Ok (freeinode s) s' /\ allocated s type s'.
Proof.
  intros [Hni Him Hok] Hlt Hty. set (i := freeinode s) in *.
  set (x := DInode type 0 0 1 0 (replicate (S NDIRECT) 0)).
  assert (Hn : nmeta = 46) by by vm_compute. assert (HF : FSSIZE = 2000) by done.
  destruct (iblock_range i ltac:(lia)) as [_ Hbl].
  destruct (im_sect _ _ _ _ _ _ Him (IBLOCK i sb) ltac:(lia)) as (b & Eb & Lb).
  assert (Hx : dinode_ok x).
  { unfold dinode_ok, x, s16_ok. simpl. split_and!; try done; try (cint_unfold; lia).
    repeat constructor; done. }
  set (img' := <[IBLOCK i sb := put_dinode b i x]> (fsimg s)).
  assert (EI : forall j, 0 <= j < MAXINODE -> dinode_at img' j = setf (dinode_at (fsimg s)) i x j).
  { intros j Hj. by apply inode_put; [lia|..]. }
  destruct (image_meta _ _ _ _ _ (IBLOCK i sb) (put_dinode b i x) Him ltac:(lia)) as [M1 M2];
    [by apply put_dinode_length|]. fold img' in M1, M2.
  assert (En : dinode_at img' i = x) by (rewrite EI by lia; by rewrite setf_eq).
  assert (Ej : forall j, dom i j -> dinode_at img' j = dinode_at (fsimg s) j).
  { intros j Hj. unfold dom in Hj. rewrite EI by lia. rewrite setf_ne by lia. done. }
  assert (HB : forall j, dom i j -> Z.of_nat (blocks_of (fsimg s) j) <= MAXFILE).
  { intros j Hj. apply nb_max, Hok, Hj. }
  exists (MkSt img' (i + 1) (freeblock s)). split.
  { unfold ialloc. unfold bind at 1. cbn [gets bindO]. fold i. unfold bind at 1. cbn [modify bindO].
    rewrite xshort_id by (cint_unfold; lia). rewrite (xshort_id 1) by done. rewrite xint_id by done.
    assert (Es : s16 type = type) by (unfold s16; cint_unfold; dlia). rewrite Es. change (s16 1) with 1. fold x.
    rewrite u32_small by (unfold MAXINODE in *; cint_unfold; lia).
    erewrite bind_Ok by (by apply winode_ok). done. }
  split; cbn [fsimg freeinode freeblock].
  - split; cbn [fsimg freeinode freeblock].
    + lia.
    + apply (image_new _ (dinode_at (fsimg s))); [|lia|exact Ej|by rewrite En|unfold blocks_of; by rewrite En].
      refine (image_ext _ _ _ _ _ _ _ _ _ _ M1). intros j Hj.
      assert (E : blocks_of img' j = blocks_of (fsimg s) j) by (unfold blocks_of; by rewrite Ej).
      split_and!; [done|done|]. unfold has_ind. by rewrite E.
    + intros j Hj. destruct (decide (j = i)) as [->|Hne].
      * rewrite En. split_and!; [done| |].
        -- unfold x, MAXFILE, BSIZE. simpl. lia.
        -- intros o Ho. unfold x in Ho. simpl in Ho. change (nb 0) with 0%nat in Ho. lia.
      * assert (Hj' : dom i j) by (unfold dom in *; lia). rewrite Ej by done.
        destruct (Hok j Hj') as (Q1 & Q2 & Q3). split_and!; [done..|]. intros o Ho.
        assert (Ho0 : 0 <= o). { destruct Q1 as (_ & _ & _ & _ & Hs & _). lia. }
        rewrite M2 by (try done; try (by apply HB); unfold blocks_of; lia). by apply Q3.
  - done.
  - done.
  - exact En.
  - intros j Hj. split; [by apply Ej|]. unfold file_bytes. rewrite Ej by done. apply bytes_ext. intros o Ho.
    apply M2; [done|by apply HB|]. unfold blocks_of, nb, BSIZE. dlia.
  - unfold img'. by rewrite lookup_insert_ne by lia.
Qed.

(** ** [main] *)

(** The name that [add_file] enters for an argument. *)
Definition entry_name (arg : list Z) : list Z :=
  let n := shortname arg in if bool_decide (head n = Some underscore) then tail n else n.

(** The entries of the root directory for files with these names. *)
Definition root_entries (names : list (list Z)) : list Z :=
  dirent_strcpy ROOTINO [dot] ++ dirent_strcpy ROOTINO [dot; dot] ++
  mjoin (imap (fun k name => dirent_strncpy (2 + Z.of_nat k) name) names).

Definition root_size (n : nat) : Z := DIRENT_SIZE * (2 + Z.of_nat n).

(** The blocks of all files with these contents, the root directory's too. *)
Definition file_need (c : list Z) : Z := need (Z.of_nat (length c)).
Definition all_need (contents : list (list Z)) : Z :=
  need (root_size (length contents)) + foldr (fun c n => file_need c + n) 0 contents.

(** The files [fs], names and contents, are on the image. *)
Record layout (s : mkst) (fs : list (list Z * list Z)) : Prop := {
  la_built : built s;
  la_inodes : freeinode s = 2 + Z.of_nat (length fs);
  la_root : file_bytes (fsimg s) ROOTINO = root_entries fs.*1;
  la_root_head : exists ad, dinode_at (fsimg s) ROOTINO = DInode T_DIR 0 0 1 (root_size (length fs)) ad;
  la_file : forall k name c, fs !! k = Some (name, c) ->
    file_bytes (fsimg s) (2 + Z.of_nat k) = c /\
    exists ad, dinode_at (fsimg s) (2 + Z.of_nat k) = DInode T_FILE 0 0 1 (Z.of_nat (length c)) ad;
  la_free : freeblock s = nmeta + all_need fs.*2;
  la_sb : fsimg s !! 1 = Some sb_block;
}.

Lemma dirent_strncpy_length i name : length (dirent_strncpy i name) = 16%nat.
Proof. unfold dirent_strncpy, mk_dirent. by rewrite length_app, le_split_length, strncpy_list_length. Qed.

Lemma need_nonneg sz : 0 <= need sz.
Proof. unfold need. destruct (_ <? _)%nat; lia. Qed.

Lemma need_sum_app l1 l2 :
  foldr (fun c n => file_need c + n) 0 (l1 ++ l2) =
  foldr (fun c n => file_need c + n) 0 l1 + foldr (fun c n => file_need c + n) 0 l2.
Proof. induction l1 as [|c l1 IH]; simpl; [done|]. rewrite IH. lia. Qed.

Lemma need_sum_nonneg l : 0 <= foldr (fun c n => file_need c + n) 0 l.
Proof.
  induction l as [|c l IH]; [done|]. apply Z.add_nonneg_nonneg; [apply need_nonneg|exact IH].
Qed.

Lemma appended_len s i p s' :
  appended s i p s' -> di_size (dinode_at (fsimg s') i) = di_size (dinode_at (fsimg s) i) + Z.of_nat (length p).
Proof. intros H. by destruct (ap_head _ _ _ _ H) as [ad ->]. Qed.

(** The chunks of one file, one [read] each. *)
Lemma append_chunks_ok i chunks : forall s,
  built s -> dom (freeinode s) i -> Forall (fun c => c <> []) chunks ->
  let sz := di_size (dinode_at (fsimg s) i) in let p := mjoin chunks in
  sz + Z.of_nat (length p) <= MAXFILE * BSIZE ->
  freeblock s + need (sz + Z.of_nat (length p)) - need sz <= FSSIZE ->
  exists s', append_chunks i chunks s = Ok tt s' /\ appended s i p s'.
Proof.
  induction chunks as [|c chunks IH]; intros s Hb Hi Hc sz p Hmax Hfb.
  - exists s. split; [done|]. unfold p in *. cbn [mjoin list_join] in *. split; try done; fold sz.
    + change (Z.of_nat (length [])) with 0. rewrite Z.add_0_r. lia.
    + by rewrite app_nil_r.
    + exists (di_addrs (dinode_at (fsimg s) i)). cbv zeta. fold sz. change (Z.of_nat (length [])) with 0. rewrite Z.add_0_r.
      unfold sz. by destruct (dinode_at (fsimg s) i).
  - apply Forall_cons in Hc as [Hc Hcs]. unfold p in *. cbn [mjoin list_join] in *.
    set (q := mjoin chunks) in *. rewrite length_app in Hmax, Hfb.
    assert (Hs0 : 0 <= sz). { destruct (bu_ok _ Hb i Hi) as ((_ & _ & _ & _ & Hs & _) & _). unfold sz. lia. }
    pose proof (need_mono (sz + Z.of_nat (length c)) (sz + Z.of_nat (length c + length q)) ltac:(lia)).
    destruct (iappend_ok s i c Hb Hi) as (s1 & E1 & G1); [fold sz; lia|fold sz; lia|].
    pose proof (appended_len _ _ _ _ G1) as L1. fold sz in L1. pose proof (ap_free _ _ _ _ G1) as F1. fold sz in F1.
    assert (Hi1 : dom (freeinode s1) i) by (by rewrite (ap_inode _ _ _ _ G1)).
    destruct (IH s1 (ap_built _ _ _ _ G1) Hi1 Hcs) as (s' & E' & G'); cbv zeta; fold q.
    { rewrite L1. lia. }
    { rewrite L1, F1. replace (sz + Z.of_nat (length c) + Z.of_nat (length q)) with
        (sz + Z.of_nat (length c + length q)) by lia. lia. }
    exists s'. split.
    + simpl. assert (0 < length c)%nat by (destruct c; [done|simpl; lia]).
      rewrite (proj2 (Z.ltb_lt _ _)) by lia. by erewrite bind_Ok by exact E1.
    + fold q in G'. pose proof (ap_free _ _ _ _ G') as F'. rewrite L1 in F'. split.
      * apply G'.
      * rewrite (ap_inode _ _ _ _ G'). apply G1.
      * fold sz. rewrite length_app, F', F1, Nat2Z.inj_add, Z.add_assoc. lia.
      * rewrite (ap_bytes _ _ _ _ G'), (ap_bytes _ _ _ _ G1). by rewrite app_assoc.
      * destruct (ap_head _ _ _ _ G1) as [a1 H1], (ap_head _ _ _ _ G') as [a2 H2]. cbv zeta in *.
        rewrite H1 in H2. exists a2. rewrite length_app, Nat2Z.inj_add, Z.add_assoc. exact H2.
      * intros j Hj Hne. 
        destruct (ap_other _ _ _ _ G1 j Hj Hne) as [Q1 Q2].
        destruct (ap_other _ _ _ _ G' j) as [Q3 Q4]; [by rewrite (ap_inode _ _ _ _ G1)|done|].
        split; congruence.
      * rewrite (ap_meta _ _ _ _ G'). apply G1.
Qed.

Lemma root_entries_snoc names name :
  root_entries (names ++ [name]) = root_entries names ++ dirent_strncpy (2 + Z.of_nat (length names)) name.
Proof.
  unfold root_entries. rewrite imap_app. cbn [imap]. rewrite join_app. cbn [mjoin list_join].
  rewrite Nat.add_0_r, app_nil_r, <- !app_assoc. done.
Qed.

Lemma all_need_snoc l c :
  all_need (l ++ [c]) = all_need l + file_need c + (need (root_size (S (length l))) - need (root_size (length l))).
Proof.
  unfold all_need. rewrite need_sum_app, length_app. cbn [length foldr]. rewrite Nat.add_comm. change (1 + length l)%nat with (S (length l)). lia.
Qed.

Lemma all_need_mono l l' : all_need l <= all_need (l ++ l').
Proof.
  unfold all_need. rewrite need_sum_app, length_app. pose proof (need_sum_nonneg l').
  pose proof (need_mono (root_size (length l)) (root_size (length l + length l'))) as H1.
  unfold root_size, DIRENT_SIZE in *. lia.
Qed.

Lemma assert_ok b s : b = true -> assert b s = Ok tt s.
Proof. by intros ->. Qed.

Lemma add_file_ok s fs arg chunks :
  let c := mjoin chunks in
  layout s fs -> slash ∉ shortname arg -> 2 + Z.of_nat (length fs) < NINODES ->
  Forall (fun c => c <> []) chunks -> Z.of_nat (length c) <= MAXFILE * BSIZE ->
  nmeta + all_need (fs.*2 ++ [c]) <= FSSIZE ->
  exists s', add_file ROOTINO (arg, Some chunks) s = Ok tt s' /\ layout s' (fs ++ [(entry_name arg, c)]).
Proof.
  intros c [Lb Li Lr [ra Lh] Lf Lfree Lsb] Hs Hn Hc Hmax Hfb.
  rewrite all_need_snoc, length_fmap in Hfb. set (m := length fs) in *. unfold NINODES in Hn.
  pose proof (need_nonneg (Z.of_nat (length c))) as N1.
  pose proof (need_mono (root_size m) (root_size (S m)) ltac:(unfold root_size, DIRENT_SIZE; lia)) as N2.
  destruct (ialloc_ok s T_FILE Lb ltac:(rewrite Li; unfold MAXINODE; lia) ltac:(done)) as (s1 & E1 & G1). rewrite Li in *.
  set (name := entry_name arg) in *. set (de := dirent_strncpy (2 + Z.of_nat m) name).
  assert (D1 : dom (2 + Z.of_nat m) ROOTINO) by (unfold dom, ROOTINO; lia).
  assert (Lde : length de = 16%nat) by apply dirent_strncpy_length.
  destruct (al_other _ _ _ G1 ROOTINO ltac:(by rewrite Li)) as [O1 O2]. rewrite Lh in O1.
  assert (S1 : di_size (dinode_at (fsimg s1) ROOTINO) = root_size m) by (by rewrite O1).
  assert (Er : root_size m + Z.of_nat (length de) = root_size (S m)) by (rewrite Lde; unfold root_size, DIRENT_SIZE; lia).
  destruct (iappend_ok s1 ROOTINO de (al_built _ _ _ G1)) as (s2 & E2 & G2).
  { rewrite (al_inode _ _ _ G1), Li. unfold dom, ROOTINO. lia. }
  { rewrite S1, Er. unfold root_size, DIRENT_SIZE, MAXFILE, BSIZE. lia. }
  { rewrite S1, Er, (al_free _ _ _ G1), Lfree. unfold file_need in Hfb. lia. }
  assert (I2 : freeinode s2 = 2 + Z.of_nat (S m)) by (rewrite (ap_inode _ _ _ _ G2), (al_inode _ _ _ G1), Li; lia).
  assert (D2 : dom (freeinode s1) (2 + Z.of_nat m)) by (rewrite (al_inode _ _ _ G1), Li; unfold dom; lia).
  destruct (ap_other _ _ _ _ G2 (2 + Z.of_nat m) D2) as [P1 P2]; [unfold ROOTINO; lia|].
  pose proof (al_new _ _ _ G1) as Hnew. rewrite Li in Hnew. rewrite Hnew in P1.
  assert (S2 : di_size (dinode_at (fsimg s2) (2 + Z.of_nat m)) = 0) by (by rewrite P1).
  pose proof (ap_free _ _ _ _ G2) as F2. rewrite S1, Er, (al_free _ _ _ G1), Lfree in F2.
  destruct (append_chunks_ok (2 + Z.of_nat m) chunks s2 (ap_built _ _ _ _ G2)) as (s3 & E3 & G3); [|done|..].
  { rewrite I2. unfold dom. lia. }
  { cbv zeta. rewrite S2. exact Hmax. }
  { cbv zeta. rewrite S2, F2. change (0 + Z.of_nat (length (mjoin chunks))) with (Z.of_nat (length c)).
    change (need 0) with 0. unfold file_need in Hfb. lia. }
  exists s3. split.
  { unfold add_file. rewrite bool_decide_true by done. erewrite bind_Ok by (by apply assert_ok).
    erewrite bind_Ok by exact E1.
    change (if bool_decide (head (shortname arg) = Some underscore) then tail (shortname arg) else shortname arg) with name.
    fold de. change DIRENT_SIZE with 16. rewrite Lde in E2. change (Z.of_nat 16) with 16 in E2.
    by erewrite bind_Ok by exact E2. }
  pose proof (appended_len _ _ _ _ G3) as L3. rewrite S2 in L3.
  split.
  - apply G3.
  - rewrite (ap_inode _ _ _ _ G3), I2, length_app. cbn [length]. lia.
  - destruct (ap_other _ _ _ _ G3 ROOTINO) as [Q1 Q2]; [rewrite I2; unfold dom, ROOTINO; lia|unfold ROOTINO; lia|].
    rewrite Q2, (ap_bytes _ _ _ _ G2), O2, Lr, fmap_app. cbn [fmap list_fmap fst].
    rewrite root_entries_snoc, length_fmap. done.
  - destruct (ap_other _ _ _ _ G3 ROOTINO) as [Q1 Q2]; [rewrite I2; unfold dom, ROOTINO; lia|unfold ROOTINO; lia|].
    destruct (ap_head _ _ _ _ G2) as [ad H2]. cbv zeta in H2. rewrite Q1, H2, O1. cbn [di_type di_major di_minor di_nlink di_size].
    exists ad. rewrite Er, length_app. cbn [length]. f_equal. unfold root_size. lia.
  - intros k nm c' Hk. apply lookup_app_Some in Hk as [Hk|[Hge Hk]].
    + assert (Hlt : (k < m)%nat) by (by eapply lookup_lt_Some). destruct (Lf k nm c' Hk) as [B1 [ad B2]].
      assert (Hd : dom (2 + Z.of_nat m) (2 + Z.of_nat k)) by (unfold dom; lia).
      destruct (al_other _ _ _ G1 (2 + Z.of_nat k)) as [Q1 Q2]; [by rewrite Li|].
      destruct (ap_other _ _ _ _ G2 (2 + Z.of_nat k)) as [Q3 Q4];
        [rewrite (al_inode _ _ _ G1), Li; unfold dom in *; lia|unfold ROOTINO; lia|].
      destruct (ap_other _ _ _ _ G3 (2 + Z.of_nat k)) as [Q5 Q6]; [rewrite I2; unfold dom in *; lia|lia|].
      split; [congruence|]. exists ad. congruence.
    + assert (k = m) as ->. { apply lookup_lt_Some in Hk. cbn [length] in Hk. fold m in Hge, Hk. lia. }
      fold m in Hk. rewrite Nat.sub_diag in Hk. simpl in Hk. injection Hk as <- <-.
      split.
      * rewrite (ap_bytes _ _ _ _ G3). unfold file_bytes. rewrite S2. done.
      * destruct (ap_head _ _ _ _ G3) as [ad H3]. cbv zeta in H3. rewrite H3, P1. by exists ad.
  - rewrite (ap_free _ _ _ _ G3), S2, F2, fmap_app. cbn [fmap list_fmap snd]. rewrite all_need_snoc, length_fmap.
    change (0 + Z.of_nat (length (mjoin chunks))) with (Z.of_nat (length c)). change (need 0) with 0. unfold file_need. fold m c. lia.
  - rewrite (ap_meta _ _ _ _ G3), (ap_meta _ _ _ _ G2), (al_meta _ _ _ G1). done.
Qed.

Lemma fill_ok n : forall a s, exists m,
  mfor (zseq a n) (fun i => wsect i zeroes) s = Ok tt (s.[fsimg := m]) /\
  forall c, m !! c = if decide (a <= c < a + Z.of_nat n) then Some zeroes else fsimg s !! c.
Proof.
  induction n as [|n IH]; intros a s.
  - exists (fsimg s). split; [by destruct s|]. intros c. by rewrite decide_False by lia.
  - rewrite zseq_S. destruct (IH (a + 1) (s.[fsimg := <[a := zeroes]> (fsimg s)])) as (m & E & H).
    exists m. split.
    + cbn [mfor]. erewrite bind_Ok by reflexivity. rewrite E. by destruct s.
    + intros c. rewrite H. rsimpl_goal. destruct (decide (c = a)) as [->|Hne].
      * rewrite decide_False by lia. rewrite decide_True by lia. by rewrite lookup_insert_eq.
      * rewrite lookup_insert_ne by done. do 2 case_decide; (done || lia).
Qed.

(** The root directory with its entries for itself. *)
Lemma root_ok s :
  freeinode s = 1 -> freeblock s = nmeta -> fsimg s !! 1 = Some sb_block ->
  (forall a, 0 <= a < FSSIZE -> exists b, fsimg s !! a = Some b /\ length b = 1024%nat) ->
  (forall a, nmeta <= a < FSSIZE -> fsimg s !! a = Some zeroes) ->
  exists s1 s2 s3, ialloc T_DIR s = Ok ROOTINO s1 /\
    iappend ROOTINO (dirent_strcpy ROOTINO [dot]) DIRENT_SIZE s1 = Ok tt s2 /\
    iappend ROOTINO (dirent_strcpy ROOTINO [dot; dot]) DIRENT_SIZE s2 = Ok tt s3 /\ layout s3 [].
Proof.
  intros Hi Hf Hsb Hsec Hz. assert (Hn : nmeta = 46) by by vm_compute. assert (HF : FSSIZE = 2000) by done.
  assert (Hdom : forall i, ~ dom 1 i) by (unfold dom; lia).
  assert (Hb : built s).
  { split; rewrite ?Hi; [unfold MAXINODE; lia|split|intros i Hd; by apply Hdom in Hd].
    - lia. - done. - by rewrite Hf. - intros i Hd. by apply Hdom in Hd.
    - split; intros i; intros; exfalso; eapply Hdom; eauto. }
  destruct (ialloc_ok s T_DIR Hb ltac:(rewrite Hi; unfold MAXINODE; lia) ltac:(done)) as (s1 & E1 & G1). rewrite Hi in *.
  pose proof (al_new _ _ _ G1) as N1. rewrite Hi in N1. change 1 with ROOTINO in N1 at 1.
  assert (D1 : dom (freeinode s1) ROOTINO) by (rewrite (al_inode _ _ _ G1), Hi; unfold dom, ROOTINO; lia).
  pose proof (al_free _ _ _ G1) as F1.
  assert (S1 : di_size (dinode_at (fsimg s1) ROOTINO) = 0) by (by rewrite N1).
  set (d1 := dirent_strcpy ROOTINO [dot]). set (d2 := dirent_strcpy ROOTINO [dot; dot]).
  assert (L1 : Z.of_nat (length d1) = 16) by by vm_compute. assert (L2 : Z.of_nat (length d2) = 16) by by vm_compute.
  destruct (iappend_ok s1 ROOTINO d1 (al_built _ _ _ G1) D1) as (s2 & E2 & G2).
  { rewrite S1, L1. done. }
  { rewrite S1, L1, F1, Hf. by vm_compute. }
  pose proof (appended_len _ _ _ _ G2) as S2. rewrite S1, L1 in S2.
  pose proof (ap_free _ _ _ _ G2) as F2. rewrite S1, L1, F1, Hf in F2.
  assert (D2 : dom (freeinode s2) ROOTINO) by (by rewrite (ap_inode _ _ _ _ G2)).
  destruct (iappend_ok s2 ROOTINO d2 (ap_built _ _ _ _ G2) D2) as (s3 & E3 & G3).
  { rewrite S2, L2. done. }
  { rewrite S2, L2, F2. by vm_compute. }
  pose proof (ap_free _ _ _ _ G3) as F3. rewrite S2, L2, F2 in F3.
  exists s1, s2, s3. split_and!; [exact E1|by rewrite L1 in E2|by rewrite L2 in E3|].
  split.
  - apply G3.
  - by rewrite (ap_inode _ _ _ _ G3), (ap_inode _ _ _ _ G2), (al_inode _ _ _ G1), Hi.
  - rewrite (ap_bytes _ _ _ _ G3), (ap_bytes _ _ _ _ G2). unfold file_bytes. rewrite S1.
    change (bytes (fsimg s1) (dinode_at (fsimg s1) ROOTINO) 0) with (@nil Z). unfold root_entries. cbn [imap mjoin list_join].
    cbn [app fmap list_fmap imap]. by rewrite app_nil_r.
  - destruct (ap_head _ _ _ _ G2) as [a2 H2], (ap_head _ _ _ _ G3) as [a3 H3]. cbv zeta in *.
    rewrite H3, S2, L2, H2, N1. by exists a3.
  - intros k name c Hk. by rewrite lookup_nil in Hk.
  - rewrite F3. by vm_compute.
  - by rewrite (ap_meta _ _ _ _ G3), (ap_meta _ _ _ _ G2), (al_meta _ _ _ G1).
Qed.

Lemma balloc_bits n b :
  Z.of_nat n <= BSIZE * 8 -> 0 <= b < BSIZE * 8 ->
  bit_used (foldl bit_set zeroes (zseq 0 n)) b = bool_decide (b < Z.of_nat n) /\
  length (foldl bit_set zeroes (zseq 0 n)) = 1024%nat.
Proof.
  intros Hn Hb. induction n as [|n IH].
  - change (foldl bit_set zeroes (zseq 0 0)) with zeroes. split; [|done]. rewrite bool_decide_false by lia. unfold bit_used, bit_free, bit_byte.
    rewrite nth_lookup. unfold zeroes. rewrite lookup_replicate_2; [done|]. unfold BSIZE in *. dlia.
  - destruct (IH ltac:(lia)) as [IH1 IH2].
    assert (E : zseq 0 (S n) = zseq 0 n ++ [Z.of_nat n]).
    { unfold zseq. rewrite seq_S, fmap_app. done. }
    rewrite E, foldl_snoc. split; [|by rewrite bit_set_length].
    rewrite bit_set_used by (rewrite ?IH2; unfold BSIZE in *; lia). rewrite IH1.
    repeat case_bool_decide; (done || lia).
Qed.

(** The finished image. *)
Record fs_layout (img : gmap Z (list Z)) (fs : list (list Z * list Z)) : Prop := {
  fl_sb : decode_sb (img !!! 1) = sb;
  fl_root : exists ad, dinode_at img ROOTINO =
    DInode T_DIR 0 0 1 ((root_size (length fs) / BSIZE + 1) * BSIZE) ad;
  fl_entries : bytes img (dinode_at img ROOTINO) (root_size (length fs)) = root_entries fs.*1 /\
    tail_zero img (dinode_at img ROOTINO) (root_size (length fs));
  fl_files : forall k name c, fs !! k = Some (name, c) ->
    bytes img (dinode_at img (2 + Z.of_nat k)) (Z.of_nat (length c)) = c /\
    exists ad, dinode_at img (2 + Z.of_nat k) = DInode T_FILE 0 0 1 (Z.of_nat (length c)) ad;
  fl_own : exists B, Own (fun i => addr_of img (dinode_at img i)) (dom (2 + Z.of_nat (length fs)))
    (nmeta + all_need fs.*2) B (has_ind B);
  fl_bitmap : forall b, 0 <= b < BSIZE * 8 ->
    bit_used (img !!! sb_bmapstart sb) b = bool_decide (b < nmeta + all_need fs.*2);
}.

(** The inode of the root directory as [main] leaves it. *)
Definition root_final (d : dinode) (n : nat) : dinode :=
  DInode (di_type d) (di_major d) (di_minor d) (di_nlink d) ((root_size n / BSIZE + 1) * BSIZE) (di_addrs d).

Lemma layout_final s fs b bm :
  layout s fs -> 2 + Z.of_nat (length fs) <= NINODES -> fsimg s !! IBLOCK ROOTINO sb = Some b ->
  length b = 1024%nat -> length bm = 1024%nat ->
  let d' := root_final (dinode_at (fsimg s) ROOTINO) (length fs) in
  (forall c, 0 <= c < BSIZE * 8 -> bit_used bm c = bool_decide (c < nmeta + all_need fs.*2)) ->
  fs_layout (<[sb_bmapstart sb := bm]> (<[IBLOCK ROOTINO sb := put_dinode b ROOTINO d']> (fsimg s))) fs.
Proof.
  intros [[Hni Him Hok] Li Lr [ra Lh] Lf Lfree Lsb] Hn Eb Lb Lbm d' Hbm.
  set (m := length fs) in *. set (img := fsimg s) in *. rewrite Li in *. rewrite Lfree in Him.
  assert (Hmeta : nmeta = 46) by by vm_compute. change (IBLOCK ROOTINO sb) with 32 in *. change (sb_bmapstart sb) with 45 in *.
  unfold NINODES in Hn. assert (D1 : dom (2 + Z.of_nat m) ROOTINO) by (unfold dom, ROOTINO; lia).
  assert (Hd' : dinode_ok d').
  { destruct (Hok ROOTINO D1) as (Hd & _). unfold d', root_final. unfold dinode_ok in *. simpl.
    split_and!; try apply Hd; unfold root_size, DIRENT_SIZE, BSIZE; cint_unfold; dlia. }
  set (img1 := <[32 := put_dinode b ROOTINO d']> img).
  destruct (image_meta _ _ _ _ _ 32 (put_dinode b ROOTINO d') Him ltac:(lia)) as [M1 M2]; [by apply put_dinode_length|].
  fold img1 in M1, M2. destruct (image_meta _ _ _ _ _ 45 bm M1 ltac:(lia) Lbm) as [M3 M4].
  set (img2 := <[45 := bm]> img1) in *.
  assert (EI : forall j, 0 <= j < MAXINODE -> dinode_at img2 j = setf (dinode_at img) ROOTINO d' j).
  { intros j Hj. rewrite <- (inode_put img ROOTINO d' b ltac:(unfold ROOTINO, MAXINODE; lia) Hd' Eb Lb j Hj).
    unfold dinode_at, img2, img1. destruct (iblock_range j Hj). by rewrite lookup_total_insert_ne by lia. }
  assert (EA : forall j, dom (2 + Z.of_nat m) j -> di_addrs (dinode_at img2 j) = di_addrs (dinode_at img j)).
  { intros j Hj. rewrite EI by (unfold dom, MAXINODE in *; lia). unfold setf. by case_decide; [subst|]. }
  assert (EB : forall j o, dom (2 + Z.of_nat m) j -> 0 <= o < BSIZE * Z.of_nat (nb (di_size (dinode_at img j))) ->
    fbyte img2 (dinode_at img2 j) o = fbyte img (dinode_at img j) o).
  { intros j o Hj Ho. rewrite (fbyte_addrs _ (dinode_at img j)) by by apply EA.
    assert (HB : Z.of_nat (blocks_of img j) <= MAXFILE) by apply nb_max, Hok, Hj.
    unfold img2. rewrite M4 by done. by apply M2. }
  assert (Es : di_size (dinode_at img ROOTINO) = root_size m) by (by rewrite Lh).
  split.
  - unfold img2, img1. rewrite !lookup_total_insert_ne by done. rewrite lookup_total_alt, Lsb. by vm_compute.
  - rewrite EI, setf_eq by done. unfold d', root_final. rewrite Lh. by exists ra.
  - fold m. split.
    + rewrite <- Lr. unfold file_bytes. rewrite Es. apply bytes_ext. intros o Ho. apply EB; [done|].
      rewrite Es. unfold nb, BSIZE. dlia.
    + intros o Ho. rewrite EB; [|done|rewrite Es; unfold root_size, DIRENT_SIZE in *; lia].
      destruct (Hok ROOTINO D1) as (_ & _ & Ht). apply Ht. by rewrite Es.
  - intros k name c Hk. destruct (Lf k name c Hk) as [B1 [ad B2]].
    assert (Hd : dom (2 + Z.of_nat m) (2 + Z.of_nat k)) by (apply lookup_lt_Some in Hk; unfold dom; fold m in Hk; lia).
    split.
    + rewrite <- B1 at 2. unfold file_bytes. rewrite B2. cbn [di_size]. apply bytes_ext. intros o Ho. rewrite <- B2.
      apply EB; [done|]. rewrite B2. cbn [di_size]. unfold nb, BSIZE. dlia.
    + exists ad. rewrite EI by (unfold dom, MAXINODE in *; lia). by rewrite setf_ne by (unfold ROOTINO; lia).
  - fold m. exists (blocks_of img). apply (im_own img2 _ _ _ _ _).
    by apply (image_ext _ (dinode_at img) _ _ _ (blocks_of img) _ (has_ind (blocks_of img))); [intros j Hj; rewrite EA|].
  - unfold img2. rewrite lookup_total_insert_eq. exact Hbm.
Qed.

(** The size of the root directory is rounded up, and the bitmap is written. *)
Lemma main_finish_ok s fs :
  layout s fs -> 2 + Z.of_nat (length fs) <= NINODES ->
  exists s', (let* din := rinode ROOTINO in
    let off := xint (di_size din) in
    let off := u32 ((off / BSIZE + 1) * BSIZE) in
    winode ROOTINO (DInode (di_type din) (di_major din) (di_minor din) (di_nlink din) (xint off) (di_addrs din));;;
    let* used := gets freeblock in
    balloc used) s = Ok tt s' /\ fs_layout (fsimg s') fs.
Proof.
  intros Hl Hn. assert (Hmeta : nmeta = 46) by by vm_compute. assert (HF : FSSIZE = 2000) by done.
  destruct (im_sect _ _ _ _ _ _ (bu_image _ (la_built _ _ Hl)) (IBLOCK ROOTINO sb)) as (b & Eb & Lb); [done|].
  pose proof (im_fb _ _ _ _ _ _ (bu_image _ (la_built _ _ Hl))) as Hfb.
  destruct (la_root_head _ _ Hl) as [ra Lh].
  assert (Es : di_size (dinode_at (fsimg s) ROOTINO) = root_size (length fs)) by (by rewrite Lh).
  set (used := freeblock s) in *. set (bm := foldl bit_set zeroes (zseq 0 (Z.to_nat used))).
  eexists (MkSt (<[sb_bmapstart sb := bm]> (<[IBLOCK ROOTINO sb :=
    put_dinode b ROOTINO (root_final (dinode_at (fsimg s) ROOTINO) (length fs))]> (fsimg s))) (freeinode s) used). split.
  - unfold rinode. cbv zeta. unfold bind at 1. erewrite bind_Ok by (by apply rsect_ok). unfold ret at 1. cbn [bindO].
    assert (Eg : get_dinode b ROOTINO = dinode_at (fsimg s) ROOTINO) by (unfold dinode_at; by rewrite lookup_total_alt, Eb).
    rewrite Eg, Es. unfold NINODES in Hn. rewrite (xint_id (root_size _)) by (unfold root_size, DIRENT_SIZE; cint_unfold; lia).
    rewrite u32_small by (unfold root_size, DIRENT_SIZE, BSIZE; cint_unfold; dlia).
    rewrite xint_id by (unfold root_size, DIRENT_SIZE, BSIZE; cint_unfold; dlia).
    erewrite bind_Ok by (by apply winode_ok). unfold bind at 1. cbn [gets bindO].
    change (freeblock (s.[fsimg := _])) with used. unfold balloc.
    erewrite bind_Ok by (apply assert_ok, Z.ltb_lt; unfold BSIZE; lia). done.
  - apply (layout_final s fs b bm Hl Hn Eb Lb).
    + apply (balloc_bits _ 0); unfold BSIZE; lia.
    + intros c Hc. rewrite <- (la_free _ _ Hl). fold used. unfold bm.
      rewrite (proj1 (balloc_bits (Z.to_nat used) c ltac:(unfold BSIZE; lia) Hc)). apply bool_decide_ext. lia.
Qed.

(** A file that [main] can take: its argument, and what the [read]s return. *)
Definition input_ok (f : list Z * list (list Z)) : Prop :=
  slash ∉ shortname f.1 /\ Forall (fun c => c <> []) f.2 /\ Z.of_nat (length (mjoin f.2)) <= MAXFILE * BSIZE.
#[export] Instance input_ok_dec f : Decision (input_ok f).
Proof. unfold input_ok. apply _. Defined.
Definition host_file (f : list Z * list (list Z)) : hostfile := (f.1, Some f.2).
Definition image_file (f : list Z * list (list Z)) : list Z * list Z := (entry_name f.1, mjoin f.2).

Lemma add_files_ok files : forall s fs,
  layout s fs -> Forall input_ok files -> 2 + Z.of_nat (length fs + length files) <= NINODES ->
  nmeta + all_need (fs ++ (image_file <$> files)).*2 <= FSSIZE ->
  exists s', mfor (host_file <$> files) (add_file ROOTINO) s = Ok tt s' /\ layout s' (fs ++ (image_file <$> files)).
Proof.
  induction files as [|[arg chunks] files IH]; intros s fs Hl Hf Hn Hfb.
  - exists s. split; [done|]. by rewrite app_nil_r.
  - apply Forall_cons in Hf as [(F1 & F2 & F3) Hf]. cbn [fst snd] in *. cbn [length] in Hn.
    assert (Ea : fs ++ (image_file <$> (arg, chunks) :: files) =
      (fs ++ [(entry_name arg, mjoin chunks)]) ++ (image_file <$> files)) by (by rewrite <- app_assoc).
    rewrite Ea in *. clear Ea.
    destruct (add_file_ok s fs arg chunks Hl F1 ltac:(lia) F2 F3) as (s1 & E1 & L1).
    { rewrite fmap_app in Hfb. pose proof (all_need_mono (fs ++ [(entry_name arg, mjoin chunks)]).*2 (image_file <$> files).*2) as H.
      rewrite (fmap_app snd fs) in H at 1. cbn [fmap list_fmap snd] in H. cbv zeta. lia. }
    destruct (IH s1 _ L1 Hf) as (s' & E' & L'); [rewrite length_app; cbn [length]; lia|done|].
    exists s'. split; [|done]. cbn [fmap list_fmap mfor]. change (host_file (arg, chunks)) with (arg, Some chunks).
    by erewrite bind_Ok by exact E1.
Qed.

(** C22: [main] of mkfs on files that fit builds the file system that holds
    them: the super block decodes to [sb]; the root directory holds "." and
    ".." and one entry per file, in order, and nothing behind them; inode
    [2 + k] is a file with the bytes that [read] delivered for file [k], in
    whatever pieces; no block belongs to two files or to a file and the
    metadata; and the bitmap marks the blocks in use, no others. *)
Theorem main_builds files :
  Forall input_ok files -> 2 + Z.of_nat (length files) <= NINODES ->
  nmeta + all_need (image_file <$> files).*2 <= FSSIZE ->
  exists s, main (host_file <$> files) mkfs_init = Ok tt s /\ fs_layout (fsimg s) (image_file <$> files).
Proof.
  intros Hf Hn Hfb. destruct (fill_ok (Z.to_nat FSSIZE) 0 (mkfs_init.[freeblock := nmeta])) as (m & E & Hm).
  set (s0 := (mkfs_init.[freeblock := nmeta]).[fsimg := <[1 := sb_block]> m]).
  assert (Hm' : forall a, 0 <= a < FSSIZE -> m !! a = Some zeroes).
  { intros a Ha. rewrite Hm. apply decide_True. unfold FSSIZE in *. lia. }
  destruct (root_ok s0) as (s1 & s2 & s3 & E1 & E2 & E3 & L); [done|done|apply lookup_insert_eq|..].
  { intros a Ha. unfold s0. rsimpl_goal. destruct (decide (a = 1)) as [->|Hne].
    - exists sb_block. split; [apply lookup_insert_eq|by vm_compute].
    - exists zeroes. split; [|apply length_replicate]. rewrite lookup_insert_ne by done. by apply Hm'. }
  { intros a Ha. assert (nmeta = 46) by by vm_compute. unfold s0. rsimpl_goal.
    rewrite lookup_insert_ne by lia. apply Hm'. lia. }
  destruct (add_files_ok files s3 [] L Hf) as (s4 & E4 & L4); [simpl; lia|done|]. cbn [app] in L4.
  destruct (main_finish_ok s4 _ L4) as (s5 & E5 & L5); [by rewrite length_fmap|].
  exists s5. split; [|exact L5]. unfold main. erewrite bind_Ok by reflexivity. erewrite bind_Ok by reflexivity.
  erewrite bind_Ok by reflexivity. erewrite bind_Ok by exact E. erewrite bind_Ok by reflexivity. fold s0.
  erewrite bind_Ok by exact E1. erewrite bind_Ok by (by apply assert_ok). erewrite bind_Ok by exact E2.
  erewrite bind_Ok by exact E3. by erewrite bind_Ok by exact E4.
Qed.

(** mkfs fs.img user/_a R *)
Definition demo_files : list (list Z * list (list Z)) :=
  [([117; 115; 101; 114; 47; 95; 97], [replicate 100 65; replicate 1024 66]); ([82], [[1; 2; 3]])].

Lemma main_builds_witness :
  exists s, main (host_file <$> demo_files) mkfs_init = Ok tt s /\ fs_layout (fsimg s) (image_file <$> demo_files).
Proof.
  apply main_builds; [|done|by vm_compute]. apply (bool_decide_unpack _). by vm_compute.
Defined.

(** The inode behind the last inode block is in the bitmap: [ialloc] does not
    compare [freeinode] with the number of inodes. *)
Example inode_208_in_bitmap : IBLOCK MAXINODE sb = sb_bmapstart sb.
Proof. by vm_compute. Qed.
