(* ===== verification/Riscv.v ===== *)
(** The registers of a hart and the access routines of kernel/riscv.h, and the
    memory-mapped interrupt controllers (kernel/memlayout.h).

    A control register is a 64-bit word here: that some bits of the real ones
    are read-only, or change by themselves (such as [sip]), is not modelled;
    neither are the cycle counter [r_time] and the registers [sp] and [ra]. *)

From S2P Require Import Prelude CInt Machine Sched.

Record hart := Hart {
  mhartid : Z;
  mstatus : Z;
  mepc : Z;
  mie : Z;
  medeleg : Z;
  mideleg : Z;
  mtvec : Z;
  mscratch : Z;
  mcounteren : Z;
  pmpcfg0 : Z;
  pmpaddr0 : Z;
  sstatus : Z;
  sie : Z;
  sip : Z;
  sepc : Z;
  scause : Z;
  stval : Z;
  stvec : Z;
  satp : Z;
  tp : Z;
}.
#[export] Instance eta_hart : Eta hart := fun h =>
  Hart (mhartid h) (mstatus h) (mepc h) (mie h) (medeleg h) (mideleg h) (mtvec h) (mscratch h) (mcounteren h) (pmpcfg0 h) (pmpaddr0 h) (sstatus h) (sie h) (sip h) (sepc h) (scause h) (stval h) (stvec h) (satp h) (tp h).

(** The interrupt controllers PLIC and CLINT as memory: a read returns a value;
    both may change the device. *)
Class IrqHw (H : Type) := {
  irq_read : Z -> H -> Z * H;
  irq_write : Z -> Z -> H -> H;
}.

(** The registers of this hart, the controllers, and [first] of [forkret]. *)
Record HartSt (H : Type) := HartS { h_regs : hart; h_irq : H; h_first : bool }.
Arguments HartS {H}. Arguments h_regs {H}. Arguments h_irq {H}. Arguments h_first {H}.
#[export] Instance eta_hartst H : Eta (HartSt H) := fun s => HartS (h_regs s) (h_irq s) (h_first s).

(** ** Bits *)

Definition MSTATUS_MPP_MASK : Z := Z.shiftl 3 11.
Definition MSTATUS_MPP_S : Z := Z.shiftl 1 11.
Definition MSTATUS_MIE : Z := Z.shiftl 1 3.
Definition SSTATUS_SPP : Z := Z.shiftl 1 8.
Definition SSTATUS_SPIE : Z := Z.shiftl 1 5.
Definition SSTATUS_SIE : Z := Z.shiftl 1 1.
Definition SIE_SEIE : Z := Z.shiftl 1 9.
Definition SIE_STIE : Z := Z.shiftl 1 5.
Definition SIE_SSIE : Z := Z.shiftl 1 1.
Definition MIE_MTIE : Z := Z.shiftl 1 7.
Definition SATP_SV39 : Z := Z.shiftl 8 60.
Definition MAKE_SATP (pagetable : Z) : Z := Z.lor SATP_SV39 (Z.shiftr (u64 pagetable) 12).

Definition UART0_IRQ : Z := 10.
Definition VIRTIO0_IRQ : Z := 1.
Definition CLINT : Z := 0x2000000.
Definition CLINT_MTIMECMP (hartid : Z) : Z := CLINT + 0x4000 + 8 * hartid.
Definition CLINT_MTIME : Z := CLINT + 0xBFF8.
Definition PLIC_SENABLE (hart : Z) : Z := PLIC + 0x2080 + hart * 0x100.
Definition PLIC_SPRIORITY (hart : Z) : Z := PLIC + 0x201000 + hart * 0x2000.
Definition PLIC_SCLAIM (hart : Z) : Z := PLIC + 0x201004 + hart * 0x2000.

(** [x & ~m] on a 64-bit word. *)
Definition andnot (x m : Z) : Z := Z.land x (u64 (Z.lnot m)).

Section riscv.
Context {H R : Type} {hw : IrqHw H} {L : Layer (HartSt H) R}.
Abbreviation St := (Kst R).
Implicit Types s : St.

Definition hartst s : HartSt H := layer_get (krest s).
Definition set_hartst (t : HartSt H) s : St := s.[krest := layer_set t (krest s)].
Definition r_csr (f : hart -> Z) : M St Z := gets (fun s => f (h_regs (hartst s))).
Definition w_csr (f : hart -> hart) : M St unit := modify (fun s => set_hartst ((hartst s).[h_regs := f (h_regs (hartst s))]) s).

(** Loads and stores of 32-bit and 64-bit device registers. *)
Definition mmio_get (a : Z) : M St Z := fun s =>
  let '(v, h) := irq_read a (h_irq (hartst s)) in Ok v (set_hartst ((hartst s).[h_irq := h]) s).
Definition mmio_put (a v : Z) : M St unit := modify (fun s =>
  set_hartst ((hartst s).[h_irq := irq_write a v (h_irq (hartst s))]) s).

(** ** Access routines *)

Definition r_mhartid : M St Z := r_csr mhartid.
Definition r_mstatus : M St Z := r_csr mstatus.
Definition w_mstatus (x : Z) : M St unit := w_csr (fun h => h.[mstatus := u64 x]).
Definition w_mepc (x : Z) : M St unit := w_csr (fun h => h.[mepc := u64 x]).
Definition r_sstatus : M St Z := r_csr sstatus.
Definition w_sstatus (x : Z) : M St unit := w_csr (fun h => h.[sstatus := u64 x]).
Definition r_sip : M St Z := r_csr sip.
Definition w_sip (x : Z) : M St unit := w_csr (fun h => h.[sip := u64 x]).
Definition r_sie : M St Z := r_csr sie.
Definition w_sie (x : Z) : M St unit := w_csr (fun h => h.[sie := u64 x]).
Definition r_mie : M St Z := r_csr mie.
Definition w_mie (x : Z) : M St unit := w_csr (fun h => h.[mie := u64 x]).
Definition w_sepc (x : Z) : M St unit := w_csr (fun h => h.[sepc := u64 x]).
Definition r_sepc : M St Z := r_csr sepc.
Definition r_medeleg : M St Z := r_csr medeleg.
Definition w_medeleg (x : Z) : M St unit := w_csr (fun h => h.[medeleg := u64 x]).
Definition r_mideleg : M St Z := r_csr mideleg.
Definition w_mideleg (x : Z) : M St unit := w_csr (fun h => h.[mideleg := u64 x]).
Definition w_stvec (x : Z) : M St unit := w_csr (fun h => h.[stvec := u64 x]).
Definition r_stvec : M St Z := r_csr stvec.
Definition w_mtvec (x : Z) : M St unit := w_csr (fun h => h.[mtvec := u64 x]).
Definition w_pmpcfg0 (x : Z) : M St unit := w_csr (fun h => h.[pmpcfg0 := u64 x]).
Definition w_pmpaddr0 (x : Z) : M St unit := w_csr (fun h => h.[pmpaddr0 := u64 x]).
Definition w_satp (x : Z) : M St unit := w_csr (fun h => h.[satp := u64 x]).
Definition r_satp : M St Z := r_csr satp.
Definition w_mscratch (x : Z) : M St unit := w_csr (fun h => h.[mscratch := u64 x]).
Definition r_scause : M St Z := r_csr scause.
Definition r_stval : M St Z := r_csr stval.
Definition w_mcounteren (x : Z) : M St unit := w_csr (fun h => h.[mcounteren := u64 x]).
Definition r_mcounteren : M St Z := r_csr mcounteren.
Definition r_tp : M St Z := r_csr tp.
Definition w_tp (x : Z) : M St unit := w_csr (fun h => h.[tp := u64 x]).

Definition intr_on : M St unit := let* x := r_sstatus in w_sstatus (Z.lor x SSTATUS_SIE).
Definition intr_off : M St unit := let* x := r_sstatus in w_sstatus (andnot x SSTATUS_SIE).
Definition intr_get : M St bool := let* x := r_sstatus in ret (negb (Z.land x SSTATUS_SIE =? 0)).

(** The core number is kept in [tp]. *)
Definition cpuid : M St Z := let* x := r_tp in ret (s32 x).

(** ** kernel/plic.c *)

Definition plicinit : M St unit :=
  mmio_put (PLIC + UART0_IRQ * 4) 1;;;
  mmio_put (PLIC + VIRTIO0_IRQ * 4) 1.

Definition plicinithart : M St unit :=
  let* hart := cpuid in
  mmio_put (PLIC_SENABLE hart) (Z.lor (Z.shiftl 1 UART0_IRQ) (Z.shiftl 1 VIRTIO0_IRQ));;;
  mmio_put (PLIC_SPRIORITY hart) 0.

Definition plic_claim : M St Z :=
  let* hart := cpuid in
  let* irq := mmio_get (PLIC_SCLAIM hart) in
  ret (s32 irq).

Definition plic_complete (irq : Z) : M St unit :=
  let* hart := cpuid in
  mmio_put (PLIC_SCLAIM hart) (u32 irq).
End riscv.

(** ** Bits of a word *)

Lemma u64_testbit x i : 0 <= i < 64 -> Z.testbit (u64 x) i = Z.testbit x i.
Proof. intros. change (u64 x) with (x mod 2 ^ 64). apply Z.mod_pow2_bits_low. lia. Qed.

Lemma andnot_testbit x m i : 0 <= i < 64 -> Z.testbit (andnot x m) i = Z.testbit x i && negb (Z.testbit m i).
Proof. intros. unfold andnot. by rewrite Z.land_spec, u64_testbit, Z.lnot_spec by lia. Qed.

Lemma lor_testbit x y i : Z.testbit (Z.lor x y) i = Z.testbit x i || Z.testbit y i.
Proof. apply Z.lor_spec. Qed.

(** Evaluates the bits, at literal positions below 64, of words built with
    masks. *)
Ltac bits :=
  repeat (progress (rewrite ?u64_testbit, ?lor_testbit, ?andnot_testbit by lia));
  repeat match goal with
  | |- context [Z.testbit ?m ?i] =>
      let b := eval vm_compute in (Z.testbit m i) in
      match b with
      | true => change (Z.testbit m i) with true
      | false => change (Z.testbit m i) with false
      end
  end;
  rewrite ?andb_false_r, ?orb_false_r, ?orb_true_r.

#[global] Arguments Z.testbit : simpl never.
