(* ===== verification/Trap.v ===== *)
(** Traps: kernel/trap.c, and [forkret] of kernel/proc.c, in which a new process
    first runs.

    The way from and to user mode in trampoline.S is outside: [usertrap] is what
    uservec jumps to, and a run of [usertrapret] ends with the page table that
    is handed to userret. *)

From S2P Require Import Prelude CInt Machine KString Sched Sleeplock Kalloc Vm Proc Pipe Bio Log Fs File Exec Sysfile Sysproc Uart Console Virtio Riscv.

(** Addresses that the linker chooses. *)
Class TrapImage := {
  kernelvec : Z;
  uservec : Z;
  userret : Z;
  usertrap_addr : Z;
}.

(** Values of [scause]; an external interrupt is told by its lowest byte. *)
Definition CAUSE_SYSCALL : Z := 8.
Definition CAUSE_EXTERNAL : Z := 9.
Definition CAUSE_TIMER : Z := 0x8000000000000001.

Section trap.
Context {img : KernelImage} {timg : TrapImage} {R HU HV HP : Type}.
Context {dd : DiskDriver (LogSt (FsSt (FileSt R)))} {dev : Devices R} {pt : Patience}.
Context {uhw : UartHw HU} {vhw : VirtioHw HV} {ihw : IrqHw HP}.
Context {LU : Layer (Devs HU) R} {LV : Layer (VioSt HV) R} {LH : Layer (HartSt HP) R}.
Abbreviation St := (KState R).

(** [initlock] leaves the lock free. *)
Definition trapinit : M St unit := ret tt.

Definition trapinithart : M St unit := w_stvec kernelvec.

(** Also run by the scheduler's timer interrupts when no process runs. *)
Definition clockintr : M St unit :=
  acquire tickslock;;;
  modify (fun s => s.[ticks := u32 (ticks s + 1)]);;;
  wakeup (KSym "ticks" 0);;;
  release tickslock.

(** [nchars] bounds the characters that wait in the UART. *)
Definition devintr (nchars : nat) : M St Z :=
  let* scause := r_scause in
  if negb (Z.land scause 0x8000000000000000 =? 0) && (Z.land scause 0xff =? CAUSE_EXTERNAL) then
    let* irq := plic_claim in
    (if irq =? UART0_IRQ then uartintr nchars
     else if irq =? VIRTIO0_IRQ then virtio_disk_intr
     else if negb (irq =? 0) then
       kprintf (text "unexpected interrupt irq=%d" ++ [nl]) [KInt irq]
     else ret tt);;;
    when (negb (irq =? 0)) (plic_complete irq);;;
    ret 1
  else if scause =? CAUSE_TIMER then
    let* id := cpuid in
    when (id =? 0) clockintr;;;
    let* x := r_sip in
    w_sip (andnot x 2);;;
    ret 2
  else ret 0.

(** The result is what is passed to userret, in [a0]. *)
Definition usertrapret : M St Z :=
  let* p := curproc in
  intr_off;;;
  let trampoline_uservec := u64 (TRAMPOLINE + (uservec - trampoline)) in
  w_stvec trampoline_uservec;;;
  let* q := getp p in
  let tf := p_trapframe q in
  let* satp := r_satp in
  st64 (tf + TF_kernel_satp) satp;;;
  st64 (tf + TF_kernel_sp) (u64 (p_kstack q + PGSIZE));;;
  st64 (tf + TF_kernel_trap) usertrap_addr;;;
  let* tp := r_tp in
  st64 (tf + TF_kernel_hartid) tp;;;
  let* x := r_sstatus in
  let x := andnot x SSTATUS_SPP in
  let x := Z.lor x SSTATUS_SPIE in
  w_sstatus x;;;
  let* epc := ld64 (tf + TF_epc) in
  w_sepc epc;;;
  ret (MAKE_SATP (p_pagetable q)).

(** [exit] does not return. *)
Definition usertrap (pad : list Z) (nchars : nat) : M St Z :=
  let* x := r_sstatus in
  if negb (Z.land x SSTATUS_SPP =? 0) then panic "usertrap: not from user mode" else
  w_stvec kernelvec;;;
  let* p := curproc in
  let* q := getp p in
  let* pc := r_sepc in
  st64 (p_trapframe q + TF_epc) pc;;;
  let* scause := r_scause in
  let* which_dev :=
    (if scause =? CAUSE_SYSCALL then
       let* k := killed p in
       when (negb (k =? 0)) (Proc.exit (-1));;;
       let* epc := ld64 (p_trapframe q + TF_epc) in
       st64 (p_trapframe q + TF_epc) (u64 (epc + 4));;;
       intr_on;;;
       syscall pad;;;
       ret 0
     else
       let* which_dev := devintr nchars in
       if negb (which_dev =? 0) then ret which_dev else
       let* q := getp p in
       let* sepc := r_sepc in
       let* stval := r_stval in
       kprintf (text "usertrap(): unexpected scause %p pid=%d" ++ [nl]) [KInt scause; KInt (p_pid q)];;;
       kprintf (text "            sepc=%p stval=%p" ++ [nl]) [KInt sepc; KInt stval];;;
       setkilled p;;;
       ret 0) in
  let* k := killed p in
  when (negb (k =? 0)) (Proc.exit (-1));;;
  when (which_dev =? 2) yield;;;
  usertrapret.

(** [myproc() != 0 && myproc()->state == RUNNING] *)
Definition a_process_runs : M St bool :=
  let* o := myproc in
  match o with
  | None => ret false
  | Some p => let* q := getp p in ret (bool_decide (p_state q = RUNNING))
  end.

Definition kerneltrap (nchars : nat) : M St unit :=
  let* sepc := r_sepc in
  let* sstatus := r_sstatus in
  let* scause := r_scause in
  if Z.land sstatus SSTATUS_SPP =? 0 then panic "kerneltrap: not from supervisor mode" else
  let* on := intr_get in
  if (on : bool) then panic "kerneltrap: interrupts enabled" else
  let* which_dev := devintr nchars in
  if which_dev =? 0 then
    kprintf (text "scause %p" ++ [nl]) [KInt scause];;;
    let* pc := r_sepc in
    let* stval := r_stval in
    kprintf (text "sepc=%p stval=%p" ++ [nl]) [KInt pc; KInt stval];;;
    panic "kerneltrap"
  else
  let* runs := (if which_dev =? 2 then a_process_runs else ret false) in
  when runs yield;;;
  w_sepc sepc;;;
  w_sstatus sstatus.

(** kernel/proc.c; the result is that of [usertrapret]. *)
Definition forkret_body : M St Z :=
  let* p := curproc in
  release (plock p);;;
  let* first := gets (fun s => h_first (hartst s)) in
  when first
    (modify (fun s => set_hartst ((hartst s).[h_first := false]) s);;;
     fsinit ROOTDEV);;;
  usertrapret.
End trap.
