(* ===== verification/TrapThm.v ===== *)
(** Timer interrupts: they advance the clock and preempt whatever runs, and the
    interrupted code - a user program or the kernel - goes on, when it is
    scheduled again, as if nothing had happened. *)

From S2P Require Import Prelude CInt Machine KString KStringThm Sched Sleeplock Kalloc Vm Proc Pipe Bio Log Fs File Exec Sysfile Sysproc Uart Console SyscallThm Virtio Riscv Trap.

Section trap_exec.
Context {img : KernelImage} {imgok : KernelImageOk} {timg : TrapImage} {R HU HV HP : Type}.
Context {dd : DiskDriver (LogSt (FsSt (FileSt R)))} {dev : Devices R} {pt : Patience}.
Context {uhw : UartHw HU} {vhw : VirtioHw HV} {ihw : IrqHw HP}.
Context {LU : Layer (Devs HU) R} {LV : Layer (VioSt HV) R} {LH : Layer (HartSt HP) R}.
Abbreviation St := (KState R).
Implicit Types s : St.

(** ** Registers *)

Definition regs s : hart := h_regs (hartst s).
Definition setr (f : hart -> hart) s : St := set_hartst ((hartst s).[h_regs := f (h_regs (hartst s))]) s.

Lemma w_csr_ok f s : w_csr f s = Ok tt (setr f s).
Proof. done. Qed.
Lemma r_csr_ok f s : r_csr f s = Ok (f (regs s)) s.
Proof. done. Qed.

Lemma intr_on_ok s : intr_on s = Ok tt (setr (fun h => h.[sstatus := u64 (Z.lor (sstatus h) SSTATUS_SIE)]) s).
Proof. done. Qed.

Lemma regs_setr f s : regs (setr f s) = f (regs s).
Proof. unfold regs, setr, hartst, set_hartst, upd_field. simpl. by rewrite layer_get_set. Qed.

Lemma kmem_setr f s : kmem (setr f s) = kmem s.
Proof. done. Qed.
Lemma regs_set_mem m s : regs (set_mem m s) = regs s.
Proof. done. Qed.

(** ** The clock *)

(** A tick, with the processes woken that sleep on it. *)
Definition tick s : St :=
  s.[ticks := u32 (ticks s + 1)].[procs := imap (wake_entry (cproc s) (KSym "ticks" 0)) (procs s)].

Lemma clockintr_ok s :
  held s = [] -> length (procs s) = NPROC -> clockintr s = Ok tt (tick s).
Proof.
  intros Hh Hl. unfold clockintr. erewrite bind_Ok by (apply acquire_ok; rewrite Hh; set_solver).
  erewrite bind_Ok by reflexivity.
  erewrite bind_Ok by (apply wakeup_eq; [done|intros i _; simpl; rewrite Hh; set_solver]).
  rewrite (release_ok tickslock []) by (simpl; rewrite ?Hh; done || set_solver).
  unfold tick. by destruct s; simpl in *; subst.
Qed.

Definition timer_state s : St :=
  let s1 := if s32 (tp (regs s)) =? 0 then tick s else s in
  setr (fun h => h.[sip := u64 (andnot (sip h) 2)]) s1.

Lemma devintr_timer n s :
  scause (regs s) = CAUSE_TIMER -> held s = [] -> length (procs s) = NPROC ->
  devintr n s = Ok 2 (timer_state s).
Proof.
  intros Hc Hh Hl. unfold devintr, r_scause. erewrite bind_Ok by apply r_csr_ok. rewrite Hc.
  change (negb (Z.land CAUSE_TIMER 0x8000000000000000 =? 0) && (Z.land CAUSE_TIMER 255 =? CAUSE_EXTERNAL)) with false.
  change (CAUSE_TIMER =? CAUSE_TIMER) with true. cbv beta iota.
  unfold cpuid, r_tp. unfold bind at 1. erewrite bind_Ok by apply r_csr_ok. unfold ret at 1. cbn [bindO].
  unfold timer_state. destruct (s32 (tp (regs s)) =? 0); cbn [when].
  - erewrite bind_Ok by (by apply clockintr_ok). done.
  - done.
Qed.

(** ** The way back to user mode *)

Lemma setr_setr f g s : setr f (setr g s) = setr (fun h => f (g h)) s.
Proof.
  unfold setr, hartst, set_hartst, upd_field. simpl. by rewrite layer_get_set, layer_set_set.
Qed.
Lemma set_mem_setr m f s : set_mem m (setr f s) = setr f (set_mem m s).
Proof. done. Qed.

Definition user_stvec : Z := u64 (u64 (TRAMPOLINE + (uservec - trampoline))).

(** The kernel's part of the trapframe. *)
Definition ret_mem (m : gmap Z Z) (q : proc) (h : hart) : gmap Z Z :=
  let tf := p_trapframe q in
  mwrite (mwrite (mwrite (mwrite m (tf + TF_kernel_satp) (le_split 8 (satp h)))
    (tf + TF_kernel_sp) (le_split 8 (u64 (p_kstack q + PGSIZE))))
    (tf + TF_kernel_trap) (le_split 8 usertrap_addr))
    (tf + TF_kernel_hartid) (le_split 8 (tp h)).

(** [sstatus] with interrupts off, then prepared for sret. *)
Definition off_sstatus (x : Z) : Z := u64 (andnot x SSTATUS_SIE).
Definition ret_sstatus (x : Z) : Z := u64 (Z.lor (andnot (off_sstatus x) SSTATUS_SPP) SSTATUS_SPIE).
Definition ret_regs (epc : Z) (h : hart) : hart :=
  h.[sepc := u64 epc].[sstatus := ret_sstatus (sstatus h)].[stvec := user_stvec].

Definition tf_word (m : gmap Z Z) (q : proc) (o : Z) : Z := le_combine (mread m (p_trapframe q + o) 8).

Lemma tf_field q o : page_ok (p_trapframe q) -> 0 <= o <= 280 -> in_ram (p_trapframe q + o) 8 = true.
Proof. intros. apply in_ram_field; [done|lia..|unfold PGSIZE; lia]. Qed.

Lemma usertrapret_ok p q s :
  cproc s = Some p -> procs s !! p = Some q -> page_ok (p_trapframe q) ->
  usertrapret s = Ok (MAKE_SATP (p_pagetable q))
    (setr (ret_regs (tf_word (ret_mem (kmem s) q (regs s)) q TF_epc)) (set_mem (ret_mem (kmem s) q (regs s)) s)).
Proof.
  intros Hc Hp Htf. unfold usertrapret. erewrite bind_Ok by (by apply curproc_ok).
  unfold intr_off, w_sstatus, r_sstatus. unfold bind at 1. erewrite bind_Ok by apply r_csr_ok. rewrite w_csr_ok. cbn [bindO].
  unfold w_stvec. erewrite bind_Ok by apply w_csr_ok. erewrite bind_Ok by (by apply getp_ok). cbv zeta.
  unfold r_satp. erewrite bind_Ok by apply r_csr_ok.
  erewrite bind_Ok by (apply st64_ok, tf_field; [done|unfold TF_kernel_satp; lia]).
  erewrite bind_Ok by (apply st64_ok, tf_field; [done|unfold TF_kernel_sp; lia]).
  erewrite bind_Ok by (apply st64_ok, tf_field; [done|unfold TF_kernel_trap; lia]).
  unfold r_tp. erewrite bind_Ok by apply r_csr_ok.
  erewrite bind_Ok by (apply st64_ok, tf_field; [done|unfold TF_kernel_hartid; lia]).
  erewrite bind_Ok by apply r_csr_ok. erewrite bind_Ok by apply w_csr_ok.
  erewrite bind_Ok by (apply ld64_ok, tf_field; [done|unfold TF_epc; lia]). unfold w_sepc.
  erewrite bind_Ok by apply w_csr_ok. unfold ret. f_equal.
  rewrite !kmem_setr, !kmem_set_mem, !regs_set_mem, !regs_setr.
  rewrite !set_mem_setr, !set_mem_set_mem, !setr_setr.
  unfold ret_mem. f_equal.

Qed.

(** ** Giving up the CPU *)

Definition yielded p q s : St :=
  s.[held := [plock p]].[procs := <[p := q.[p_state := RUNNABLE]]> (procs s)].

Lemma yield_eq p q s :
  cproc s = Some p -> procs s !! p = Some q -> held s = [] ->
  yield s = Switched (yielded p q s) (fun s' => bindO (Ok tt s') (fun _ => release (plock p))).
Proof.
  intros Hc Hp Hh. unfold yield. erewrite bind_Ok by (by apply curproc_ok).
  erewrite bind_Ok by (apply acquire_ok; rewrite Hh; set_solver).
  erewrite bind_Ok by (eapply modp_ok; exact Hp).
  apply bind_Switched. unfold sched. erewrite bind_Ok by (by apply curproc_ok).
  rewrite Hh. unfold bind at 1, holding, gets; simpl.
  rewrite bool_decide_true by apply list_elem_of_here. simpl. unfold bind at 1; simpl.
  erewrite bind_Ok by (apply getp_ok; simpl; by eapply list_insert_lookup_same).
  by rewrite bool_decide_false.
Qed.

Lemma timer_state_me p q s :
  cproc s = Some p -> procs s !! p = Some q -> procs (timer_state s) !! p = Some q.
Proof.
  intros Hc Hp. unfold timer_state. destruct (_ =? 0); [|done].
  unfold tick. simpl. rewrite list_lookup_imap, Hp. simpl. unfold wake_entry. rewrite Hc.
  by rewrite bool_decide_true.
Qed.

Lemma timer_state_held s : held (timer_state s) = held s.
Proof. unfold timer_state. by destruct (_ =? 0). Qed.
Lemma timer_state_cproc s : cproc (timer_state s) = cproc s.
Proof. unfold timer_state. by destruct (_ =? 0). Qed.
Lemma timer_state_kmem s : kmem (timer_state s) = kmem s.
Proof. unfold timer_state. by destruct (_ =? 0). Qed.
Lemma timer_state_regs s : regs (timer_state s) = (regs s).[sip := u64 (andnot (sip (regs s)) 2)].
Proof. unfold timer_state. rewrite regs_setr. by destruct (_ =? 0). Qed.

(** ** The trapframe *)

Lemma ret_mem_frame m q h a :
  ~ p_trapframe q <= a < p_trapframe q + 24 -> ~ p_trapframe q + 32 <= a < p_trapframe q + 40 ->
  mget (ret_mem m q h) a = mget m a.
Proof.
  intros H1 H2. unfold ret_mem, TF_kernel_satp, TF_kernel_sp, TF_kernel_trap, TF_kernel_hartid.
  rewrite !mwrite_frame; rewrite ?le_split_length; lia || done.
Qed.

Lemma tf_word_ext m m' q o :
  (forall a, p_trapframe q + o <= a < p_trapframe q + o + 8 -> mget m a = mget m' a) ->
  tf_word m q o = tf_word m' q o.
Proof. intros H. unfold tf_word. f_equal. apply mread_ext. intros. apply H. lia. Qed.

Lemma ret_mem_epc m q h : tf_word (ret_mem m q h) q TF_epc = tf_word m q TF_epc.
Proof. apply tf_word_ext. unfold TF_epc. intros a Ha. apply ret_mem_frame; lia. Qed.

Lemma tf_word_write m q o v : tf_word (mwrite m (p_trapframe q + o) (le_split 8 v)) q o = u64 v.
Proof.
  unfold tf_word. rewrite mwrite_read by (rewrite ?le_split_length; apply le_split_bytes || done).
  apply le_combine_split64.
Qed.

(** ** What sret finds *)

(** To user mode, with interrupts on there and off until then. *)
Definition sret_to_user (x : Z) : Prop :=
  Z.testbit x 8 = false /\ Z.testbit x 5 = true /\ Z.testbit x 1 = false.

Lemma ret_sstatus_user x : sret_to_user (ret_sstatus x).
Proof. unfold sret_to_user, ret_sstatus, off_sstatus. split_and!; by bits. Qed.

(** The trap entry: the kernel's vector is installed and the pc saved. *)
Definition entered q s : St :=
  set_mem (mwrite (kmem s) (p_trapframe q + TF_epc) (le_split 8 (sepc (regs s))))
    (setr (fun h => h.[stvec := u64 kernelvec]) s).

(** From the entry of [usertrap] to the test of [scause]. *)
Ltac enter_trap s q Hspp :=
  unfold usertrap, r_sstatus, w_stvec, r_sepc, r_scause;
  erewrite bind_Ok by apply r_csr_ok; change (h_regs (hartst s)) with (regs s); rewrite Hspp;
  change (negb (0 =? 0)) with false; cbv iota;
  erewrite bind_Ok by apply w_csr_ok; erewrite bind_Ok by (by apply curproc_ok);
  erewrite bind_Ok by (by apply getp_ok); erewrite bind_Ok by apply r_csr_ok;
  rewrite regs_setr; change (sepc (regs s).[stvec := u64 kernelvec]) with (sepc (regs s));
  erewrite bind_Ok by (apply st64_ok, tf_field; [done|unfold TF_epc; lia]); rewrite kmem_setr;
  change (set_mem (mwrite (kmem s) (p_trapframe q + TF_epc) (le_split 8 (sepc (regs s)))) (setr (fun h => h.[stvec := u64 kernelvec]) s)) with (entered q s);
  erewrite bind_Ok by apply r_csr_ok;
  assert (He : regs (entered q s) = (regs s).[stvec := u64 kernelvec])
    by (unfold entered; by rewrite regs_set_mem, regs_setr);
  rewrite He; change (scause (regs s).[stvec := u64 kernelvec]) with (scause (regs s)).

Lemma timer_to_yield pad n p q s :
  scause (regs s) = CAUSE_TIMER -> Z.land (sstatus (regs s)) SSTATUS_SPP = 0 ->
  held s = [] -> length (procs s) = NPROC ->
  cproc s = Some p -> procs s !! p = Some q -> p_killed q = 0 -> page_ok (p_trapframe q) ->
  usertrap pad n s = Switched (yielded p q (timer_state (entered q s)))
    (fun s' => bindO (bindO (Ok tt s') (fun _ => release (plock p))) (fun _ => usertrapret)).
Proof.
  intros Hc Hspp Hh Hl Hcp Hp Hk Htf. enter_trap s q Hspp.
  rewrite Hc. change (CAUSE_TIMER =? CAUSE_SYSCALL) with false. cbv iota.
  assert (Hd : devintr n (entered q s) = Ok 2 (timer_state (entered q s))).
  { apply devintr_timer; [by rewrite He|done|done]. }
  assert (Hq : procs (timer_state (entered q s)) !! p = Some q) by (by apply timer_state_me).
  unfold bind at 1. erewrite bind_Ok by exact Hd. change (negb (2 =? 0)) with true. cbv iota.
  unfold ret at 1. cbn [bindO].
  erewrite bind_Ok by (apply killed_ok; [exact Hq|rewrite timer_state_held; simpl; rewrite Hh; set_solver]).
  rewrite Hk. change (negb (0 =? 0)) with false. unfold when at 1. erewrite bind_Ok by reflexivity.
  change (2 =? 2) with true. unfold when at 1. apply bind_Switched.
  apply yield_eq; [by rewrite timer_state_cproc|done|by rewrite timer_state_held].
Qed.

(** From the end of [yield] to user mode. *)
Lemma resumed_returns p q s :
  cproc s = Some p -> procs s !! p = Some q -> held s = [plock p] -> page_ok (p_trapframe q) ->
  bindO (bindO (Ok tt s) (fun _ => release (plock p))) (fun _ => usertrapret) =
  Ok (MAKE_SATP (p_pagetable q))
    (setr (ret_regs (tf_word (kmem s) q TF_epc)) (set_mem (ret_mem (kmem s) q (regs s)) (s.[held := []]))).
Proof.
  intros Hc Hp Hh Htf. cbn [bindO]. rewrite (release_ok (plock p) []) by (done || set_solver). cbn [bindO].
  etransitivity; [by apply (usertrapret_ok p q (s.[held := []]))|]. f_equal.
  change (kmem (s.[held := []])) with (kmem s). change (regs (s.[held := []])) with (regs s).
  by rewrite ret_mem_epc.
Qed.

(** C16: A timer interrupt in user mode: the clock advances (on hart 0), the
    interrupt is acknowledged, and the process gives up the CPU, runnable and
    holding only its lock.  Whenever the scheduler comes back to it, on any
    hart, with its trapframe untouched, it returns to user mode: interrupts
    stay off until sret turns them on, the pc is the interrupted one, and the
    saved user registers are those at the interrupt. *)
Theorem timer_preempts pad n p q s :
  scause (regs s) = CAUSE_TIMER -> Z.land (sstatus (regs s)) SSTATUS_SPP = 0 ->
  held s = [] -> length (procs s) = NPROC ->
  cproc s = Some p -> procs s !! p = Some q -> p_killed q = 0 -> page_ok (p_trapframe q) ->
  exists s1 resume,
    usertrap pad n s = Switched s1 resume /\
    held s1 = [plock p] /\ procs s1 !! p = Some (q.[p_state := RUNNABLE]) /\
    ticks s1 = (if s32 (tp (regs s)) =? 0 then u32 (ticks s + 1) else ticks s) /\
    Z.testbit (sip (regs s1)) 1 = false /\
    forall s2 q2,
      cproc s2 = Some p -> held s2 = [plock p] -> procs s2 !! p = Some q2 ->
      p_trapframe q2 = p_trapframe q ->
      (forall a, in_page (p_trapframe q) a -> mget (kmem s2) a = mget (kmem s1) a) ->
      exists s3,
        resume s2 = Ok (MAKE_SATP (p_pagetable q2)) s3 /\ held s3 = [] /\
        sepc (regs s3) = u64 (sepc (regs s)) /\ sret_to_user (sstatus (regs s3)) /\
        stvec (regs s3) = user_stvec /\
        (forall a, p_trapframe q + TF_ra <= a < p_trapframe q + PGSIZE -> mget (kmem s3) a = mget (kmem s) a).
Proof.
  intros Hc Hspp Hh Hl Hcp Hp Hk Htf.
  eexists _, _. split; [by apply timer_to_yield|]. 
  assert (Hq : procs (timer_state (entered q s)) !! p = Some q) by (by apply timer_state_me).
  split; [done|]. split; [by apply (list_insert_lookup_same _ _ _ q)|].
  assert (Hr : regs (entered q s) = (regs s).[stvec := u64 kernelvec]).
  { unfold entered. by rewrite regs_set_mem, regs_setr. }
  assert (Hm : kmem (timer_state (entered q s)) =
    mwrite (kmem s) (p_trapframe q + TF_epc) (le_split 8 (sepc (regs s)))) by apply timer_state_kmem.
  split; [|split].
  - unfold timer_state. rewrite Hr. simpl. by destruct (_ =? 0).
  - change (regs (yielded p q (timer_state (entered q s)))) with (regs (timer_state (entered q s))).
    rewrite timer_state_regs, Hr.
    change (Z.testbit (u64 (andnot (sip (regs s)) 2)) 1 = false). rewrite u64_testbit, andnot_testbit by lia. apply andb_false_r.
  - intros s2 q2 Hc2 Hh2 Hp2 Ht2 Hmem. change (kmem (yielded _ _ _)) with (kmem (timer_state (entered q s))) in Hmem.
    rewrite Hm in Hmem. eexists. split; [apply resumed_returns; by rewrite ?Ht2|].
    split; [done|]. rewrite regs_setr. split; [|split; [apply ret_sstatus_user|split; [done|]]].
    + simpl. rewrite (tf_word_ext _ (mwrite (kmem s) (p_trapframe q + TF_epc) (le_split 8 (sepc (regs s))))).
      * rewrite <- Ht2, tf_word_write. unfold u64. by rewrite Z.mod_mod.
      * rewrite Ht2. intros a Ha. apply Hmem. unfold in_page, TF_epc, PGSIZE in *. lia.
    + rewrite kmem_setr. intros a Ha. unfold TF_ra in Ha.
      rewrite kmem_set_mem, ret_mem_frame by (rewrite Ht2; lia).
      change (kmem (s2.[held := []])) with (kmem s2). rewrite Hmem by (unfold in_page; lia).
      apply mwrite_frame. rewrite le_split_length. unfold TF_epc. lia.
Qed.

(** ** Interrupts of the kernel *)

Definition kernel_back pc st s : St :=
  setr (fun h => h.[sepc := u64 pc].[sstatus := u64 st]) s.

Lemma kerneltrap_timer_head n s :
  scause (regs s) = CAUSE_TIMER -> Z.land (sstatus (regs s)) SSTATUS_SPP <> 0 ->
  Z.land (sstatus (regs s)) SSTATUS_SIE = 0 -> held s = [] -> length (procs s) = NPROC ->
  kerneltrap n s =
    (let* runs := a_process_runs in
     when runs yield;;; w_sepc (sepc (regs s));;; w_sstatus (sstatus (regs s))) (timer_state s).
Proof.
  intros Hc Hspp Hsie Hh Hl. unfold kerneltrap, r_sepc, r_sstatus, r_scause.
  do 3 erewrite bind_Ok by apply r_csr_ok. change (h_regs (hartst s)) with (regs s).
  rewrite (proj2 (Z.eqb_neq _ _) Hspp).
  unfold intr_get, r_sstatus. unfold bind at 1. erewrite bind_Ok by apply r_csr_ok.
  change (h_regs (hartst s)) with (regs s). rewrite Hsie.
  unfold ret at 1. cbn [bindO]. change (negb (0 =? 0)) with false. cbv iota.
  by erewrite bind_Ok by (by apply devintr_timer).
Qed.

(** The process that runs on this hart. *)
Definition running s : option (nat * proc) :=
  p ← cproc s; q ← procs s !! p; if decide (p_state q = RUNNING) then Some (p, q) else None.

Lemma running_inv p q s :
  running s = Some (p, q) -> cproc s = Some p /\ procs s !! p = Some q /\ p_state q = RUNNING.
Proof.
  unfold running. intros (p' & Hc & (q' & Hq & H)%bind_Some)%bind_Some. by case_decide; simplify_eq.
Qed.

Lemma a_process_runs_ok s :
  (forall p, cproc s = Some p -> (p < length (procs s))%nat) ->
  a_process_runs s = Ok (bool_decide (is_Some (running s))) s.
Proof.
  intros Hp. unfold a_process_runs, running, myproc. unfold bind at 1, gets. cbn [bindO].
  destruct (cproc s) as [p|] eqn:Hc; [|done]. simpl.
  destruct (lookup_lt_is_Some_2 (procs s) p) as [q Hq]; [by apply Hp|].
  erewrite bind_Ok by (by apply getp_ok). rewrite Hq. simpl. unfold ret. f_equal.
  case_decide; [by rewrite !bool_decide_true by eauto|by rewrite !bool_decide_false by (done || by intros [])].
Qed.

Lemma running_timer s : running (timer_state s) = running s.
Proof.
  unfold running. rewrite timer_state_cproc. destruct (cproc s) as [p|] eqn:Hc; [|done]. simpl.
  unfold timer_state. destruct (_ =? 0); [|done]. unfold tick. simpl. rewrite list_lookup_imap.
  destruct (procs s !! p) as [q|] eqn:Hq; [|done]. simpl. unfold wake_entry. by rewrite bool_decide_true.
Qed.

(** A timer interrupt in the kernel gives up the CPU exactly when a process
    runs on this hart; in both cases the interrupted code goes on with the
    [sepc] and [sstatus] it had, whatever ran meanwhile. *)
Theorem kerneltrap_timer n s :
  scause (regs s) = CAUSE_TIMER -> Z.land (sstatus (regs s)) SSTATUS_SPP <> 0 ->
  Z.land (sstatus (regs s)) SSTATUS_SIE = 0 -> held s = [] -> length (procs s) = NPROC ->
  (forall p, cproc s = Some p -> (p < NPROC)%nat) ->
  match running s with
  | None => kerneltrap n s = Ok tt (kernel_back (sepc (regs s)) (sstatus (regs s)) (timer_state s))
  | Some (p, q) =>
      exists resume, kerneltrap n s = Switched (yielded p q (timer_state s)) resume /\
        forall s2, held s2 = [plock p] ->
          resume s2 = Ok tt (kernel_back (sepc (regs s)) (sstatus (regs s)) (s2.[held := []]))
  end.
Proof.
  intros Hc Hspp Hsie Hh Hl Hcp. rewrite kerneltrap_timer_head by done.
  assert (Hlen : length (procs (timer_state s)) = length (procs s)).
  { unfold timer_state. destruct (_ =? 0); [|done]. apply length_imap. }
  erewrite bind_Ok by (apply a_process_runs_ok; rewrite timer_state_cproc, Hlen, Hl; exact Hcp).
  rewrite running_timer. destruct (running s) as [[p q]|] eqn:Hr.
  - rewrite bool_decide_true by eauto. rewrite <- running_timer in Hr.
    apply running_inv in Hr as (Hcp' & Hq' & _).
    eexists. split.
    + unfold when. apply bind_Switched, yield_eq; [exact Hcp'|exact Hq'|by rewrite timer_state_held].
    + intros s2 Hh2. cbn [bindO]. rewrite (release_ok (plock p) []) by (done || set_solver). cbn [bindO].
      unfold w_sepc, w_sstatus, kernel_back. erewrite bind_Ok by apply w_csr_ok. rewrite w_csr_ok. by rewrite setr_setr.
  - rewrite bool_decide_false by (by intros []). unfold when, kernel_back.
    unfold w_sepc, w_sstatus. erewrite bind_Ok by reflexivity. erewrite bind_Ok by apply w_csr_ok.
    rewrite w_csr_ok. by rewrite setr_setr.
Qed.

(** ** System calls *)

(** The state in which a system call runs: the trapframe's pc is past the
    ecall, and interrupts are on. *)
Definition in_call q s : St :=
  let pc := u64 (u64 (sepc (regs s)) + 4) in
  setr (fun h => h.[sstatus := u64 (Z.lor (sstatus h) SSTATUS_SIE)].[stvec := u64 kernelvec])
    (set_mem (mwrite (mwrite (kmem s) (p_trapframe q + TF_epc) (le_split 8 (sepc (regs s))))
                (p_trapframe q + TF_epc) (le_split 8 pc)) s).

Lemma usertrap_call pad n p q s s2 q2 :
  scause (regs s) = CAUSE_SYSCALL -> Z.land (sstatus (regs s)) SSTATUS_SPP = 0 ->
  held s = [] -> cproc s = Some p -> procs s !! p = Some q -> p_killed q = 0 -> page_ok (p_trapframe q) ->
  syscall pad (in_call q s) = Ok tt s2 ->
  held s2 = [] -> cproc s2 = Some p -> procs s2 !! p = Some q2 -> p_killed q2 = 0 -> page_ok (p_trapframe q2) ->
  usertrap pad n s = Ok (MAKE_SATP (p_pagetable q2))
    (setr (ret_regs (tf_word (kmem s2) q2 TF_epc)) (set_mem (ret_mem (kmem s2) q2 (regs s2)) s2)).
Proof.
  intros Hc Hspp Hh Hcp Hp Hk Htf Hs Hh2 Hcp2 Hp2 Hk2 Htf2. enter_trap s q Hspp.
  rewrite Hc. change (CAUSE_SYSCALL =? CAUSE_SYSCALL) with true. cbv iota.
  unfold bind at 1. erewrite bind_Ok by (apply killed_ok; [done|simpl; rewrite Hh; set_solver]).
  rewrite Hk. change (negb (0 =? 0)) with false. unfold when at 1. erewrite bind_Ok by reflexivity.
  erewrite bind_Ok by (apply ld64_ok, tf_field; [done|unfold TF_epc; lia]).
  erewrite bind_Ok by (apply st64_ok, tf_field; [done|unfold TF_epc; lia]).
  erewrite bind_Ok by apply intr_on_ok.
  assert (Hin : forall m, setr (fun h => h.[sstatus := u64 (Z.lor (sstatus h) SSTATUS_SIE)]) (set_mem m (entered q s)) =
    setr (fun h => h.[sstatus := u64 (Z.lor (sstatus h) SSTATUS_SIE)].[stvec := u64 kernelvec]) (set_mem m s)).
  { intros m. unfold entered. by rewrite set_mem_set_mem, set_mem_setr, setr_setr. }
  rewrite Hin. change (kmem (entered q s)) with (mwrite (kmem s) (p_trapframe q + TF_epc) (le_split 8 (sepc (regs s)))).
  fold (tf_word (mwrite (kmem s) (p_trapframe q + TF_epc) (le_split 8 (sepc (regs s)))) q TF_epc).
  rewrite tf_word_write. fold (in_call q s).
  erewrite bind_Ok by exact Hs. unfold ret at 1. cbn [bindO].
  erewrite bind_Ok by (apply killed_ok; [done|rewrite Hh2; set_solver]).
  rewrite Hk2. change (negb (0 =? 0)) with false. unfold when at 1. erewrite bind_Ok by reflexivity.
  change (0 =? 2) with false. unfold when at 1. erewrite bind_Ok by reflexivity.
  rewrite (usertrapret_ok p q2 s2) by done. by rewrite ret_mem_epc.
Qed.

Lemma in_call_frame q s a :
  ~ p_trapframe q + 24 <= a < p_trapframe q + 32 -> mget (kmem (in_call q s)) a = mget (kmem s) a.
Proof.
  intros H. unfold in_call. rewrite kmem_setr, kmem_set_mem, !mwrite_frame; rewrite ?le_split_length; unfold TF_epc; lia || done.
Qed.

Lemma in_call_epc q s : tf_word (kmem (in_call q s)) q TF_epc = u64 (sepc (regs s) + 4).
Proof.
  unfold in_call. rewrite kmem_setr, kmem_set_mem, tf_word_write. unfold u64.
  by rewrite Z.mod_mod, Zplus_mod_idemp_l.
Qed.

(** C18: A system call whose handler gives [r] without changing the kernel state
    comes back to the instruction after the ecall with [r] in [a0]; no other
    user register changes, and sret turns interrupts on. *)
Theorem ecall_returns pad n p q s nr r :
  scause (regs s) = CAUSE_SYSCALL -> Z.land (sstatus (regs s)) SSTATUS_SPP = 0 ->
  held s = [] -> caller p q s -> p_killed q = 0 ->
  let num := s32 (tf_arg (kmem s) q 7) in
  1 <= num -> syscall_numbers !! Z.to_nat (num - 1) = Some nr ->
  syscalls pad nr (in_call q s) = Ok r (in_call q s) ->
  exists s3,
    usertrap pad n s = Ok (MAKE_SATP (p_pagetable q)) s3 /\
    held s3 = [] /\ procs s3 = procs s /\
    sepc (regs s3) = u64 (sepc (regs s) + 4) /\ sret_to_user (sstatus (regs s3)) /\
    stvec (regs s3) = user_stvec /\ tf_arg (kmem s3) q 0 = u64 r /\
    (forall a, p_trapframe q + TF_ra <= a < p_trapframe q + PGSIZE ->
       ~ p_trapframe q + TF_a 0 <= a < p_trapframe q + TF_a 1 -> mget (kmem s3) a = mget (kmem s) a).
Proof.
  intros Hc Hspp Hh C Hk num Hnum Hnr Hr. pose proof C as [Hcp Hp Htf].
  assert (C' : caller p q (in_call q s)) by (by constructor).
  assert (H7 : tf_arg (kmem (in_call q s)) q 7 = tf_arg (kmem s) q 7).
  { unfold tf_arg. f_equal. apply mread_ext. unfold TF_a. intros a Ha. apply in_call_frame. lia. }
  pose proof (syscall_returns p q (in_call q s) C' pad nr r) as Hs. rewrite H7 in Hs.
  specialize (Hs Hnum Hnr Hr).
  eexists. split; [by eapply usertrap_call|].
  rewrite regs_setr, !kmem_setr, !kmem_set_mem.
  set (mr := mwrite (kmem (in_call q s)) (p_trapframe q + TF_a 0) (le_split 8 (u64 r))).
  set (h := regs _). split; [done|]. split; [done|]. split; [|split; [apply ret_sstatus_user|split; [done|split]]].
  - change (u64 (tf_word mr q TF_epc) = u64 (sepc (regs s) + 4)).
    rewrite (tf_word_ext mr (kmem (in_call q s))), in_call_epc; [unfold u64; by rewrite Z.mod_mod|].
    intros a Ha. apply mwrite_frame. rewrite le_split_length. unfold TF_epc, TF_a in *. lia.
  - change (tf_word (ret_mem mr q h) q (TF_a 0) = u64 r).
    transitivity (tf_word mr q (TF_a 0)).
    + apply tf_word_ext. unfold TF_a. intros a Ha. apply ret_mem_frame; lia.
    + unfold mr. rewrite tf_word_write. unfold u64. by rewrite Z.mod_mod.
  - intros a Ha Ha0. unfold TF_ra, TF_a in *. rewrite ret_mem_frame by lia. unfold mr.
    rewrite mwrite_frame by (rewrite le_split_length; unfold TF_a; lia). apply in_call_frame. lia.
Qed.
End trap_exec.

(** ** Witnesses *)

Section trap_witness.
Abbreviation Rest := (Devs unit * (VioSt unit * HartSt unit))%type.
#[local] Instance demo_trap_disk : DiskDriver (LogSt (FsSt (FileSt Rest))) :=
  {| disk_read _ := ret (replicate 1024 0); disk_write _ _ := ret tt |}.
#[local] Instance demo_trap_dev : Devices Rest := {| devsw_read _ := None; devsw_write _ := None |}.
#[local] Instance demo_trap_patience : Patience := 1%nat.
#[local] Instance demo_trap_uart : UartHw unit := {| reg_read _ h := (0, h); reg_write _ _ h := h; uart_latency := 0 |}.
#[local] Instance demo_trap_virtio : VirtioHw unit := {| mmio_read _ h := (0, h); mmio_write _ _ h := h |}.
#[local] Instance demo_trap_irq : IrqHw unit := {| irq_read _ h := (0, h); irq_write _ _ h := h |}.
#[local] Instance demo_trap_image : TrapImage :=
  {| kernelvec := 0x80005000; uservec := 0x80007000; userret := 0x8000709c; usertrap_addr := 0x80002000 |}.
#[local, program] Instance demo_layer_uart : Layer (Devs unit) Rest :=
  {| layer_get r := fst r; layer_set a r := (a, snd r) |}.
Next Obligation. done. Qed.
Next Obligation. done. Qed.
Next Obligation. by intros []. Qed.
#[local, program] Instance demo_layer_vio : Layer (VioSt unit) Rest :=
  {| layer_get r := fst (snd r); layer_set a r := (fst r, (a, snd (snd r))) |}.
Next Obligation. done. Qed.
Next Obligation. done. Qed.
Next Obligation. by intros [? []]. Qed.
#[local, program] Instance demo_layer_hart : Layer (HartSt unit) Rest :=
  {| layer_get r := snd (snd r); layer_set a r := (fst r, (fst (snd r), a)) |}.
Next Obligation. done. Qed.
Next Obligation. done. Qed.
Next Obligation. by intros [? []]. Qed.

(** Hart 0 with cause [c], in [sstatus] [st], interrupted at 0x1000. *)
Definition demo_hart (c st : Z) : hart :=
  Hart 0 0 0 0 0 0 0 0 0 0 0 st 0x222 2 0x1000 c 0 0 0 0.
Definition demo_trap_rest (c st : Z) : Rest :=
  (DevS (Uart [] 0 0) (Console [] 0 0 0) tt, (VioS (VDisk [] [] 0 [] 0 [] 0 [] []) tt, HartS (demo_hart c st) tt false)).
(** A process whose registers hold zero but for [a7]. *)
Definition demo_trap_proc : proc := demo_caller.[p_pid := 7].
Definition demo_trap (c st num : Z) : KState Rest :=
  KSt [] (Some 0%nat) (demo_trap_proc :: replicate 63 proc_zero) 8 None 41
    (KM (mwrite ∅ (dH + TF_a 7) (le_split 8 num)) 0 0
      (BioS [] (LogS 0 0 0 0 0 0 [] (FsS (SB 0 0 0 0 0 0 0 0) [] (FileS demo_ftable (demo_trap_rest c st)))))).

Lemma timer_preempts_witness :
  exists s1 resume,
    @usertrap demo_image demo_trap_image Rest unit unit unit demo_trap_disk demo_trap_dev demo_trap_patience _ _ _ _ _ _
      [] 3 (demo_trap CAUSE_TIMER 0 0) = Switched s1 resume /\
    ticks s1 = 42 /\ procs s1 !! 0%nat = Some (demo_trap_proc.[p_state := RUNNABLE]).
Proof.
  destruct (@timer_preempts demo_image demo_image_ok demo_trap_image Rest unit unit unit
    demo_trap_disk demo_trap_dev demo_trap_patience _ _ _ _ _ _ [] 3 0 demo_trap_proc (demo_trap CAUSE_TIMER 0 0))
    as (s1 & resume & H1 & _ & H2 & H3 & _); [by vm_compute..|apply dH_page|].
  - exists s1, resume. split; [exact H1|split; [rewrite H3; by vm_compute|exact H2]].
Defined.

Lemma ecall_returns_witness :
  exists s3,
    @usertrap demo_image demo_trap_image Rest unit unit unit demo_trap_disk demo_trap_dev demo_trap_patience _ _ _ _ _ _
      [] 3 (demo_trap CAUSE_SYSCALL 0 11) = Ok (MAKE_SATP 0) s3 /\
    sepc (@regs Rest unit _ s3) = 0x1004 /\ @tf_arg (kmem s3) demo_trap_proc 0 = 7.
Proof.
  pose proof (@ecall_returns demo_image demo_image_ok demo_trap_image Rest unit unit unit
    demo_trap_disk demo_trap_dev demo_trap_patience _ _ _ _ _ _ [] 3 0 demo_trap_proc (demo_trap CAUSE_SYSCALL 0 11) SYS_getpid 7) as H.
  assert (C : @caller demo_image Rest 0 demo_trap_proc (demo_trap CAUSE_SYSCALL 0 11))
    by (split; [by vm_compute|by vm_compute|apply dH_page]).
  destruct H as (s3 & H1 & _ & _ & H2 & _ & _ & H3 & _); [by vm_compute|by vm_compute|by vm_compute|exact C|by vm_compute|by vm_compute|by vm_compute|reflexivity|].
  - exists s3. split; [exact H1|split; [rewrite H2; by vm_compute|rewrite H3; by vm_compute]].
Defined.

Lemma kerneltrap_timer_witness :
  exists resume,
    kerneltrap 3 (demo_trap CAUSE_TIMER 256 0) =
      Switched (yielded 0 demo_trap_proc (timer_state (demo_trap CAUSE_TIMER 256 0))) resume.
Proof.
  pose proof (@kerneltrap_timer demo_image demo_image_ok Rest unit unit unit _ _ _ _ _ _
    3 (demo_trap CAUSE_TIMER 256 0)) as H.
  change (running (demo_trap CAUSE_TIMER 256 0)) with (Some (0%nat, demo_trap_proc)) in H.
  destruct H as (resume & H & _); [by vm_compute|by vm_compute|by vm_compute|by vm_compute|by vm_compute| |].
  - intros p [= <-]. unfold NPROC. lia.
  - exists resume. exact H.
Defined.
End trap_witness.
