(* ===== verification/Boot.v ===== *)
(** From the reset of a hart to the scheduler: kernel/start.c and
    kernel/main.c. *)

From S2P Require Import Prelude CInt Machine KString Sched Sleeplock Kalloc Vm Proc Pipe Bio Log Fs File Exec Sysfile Sysproc Uart Console Virtio Riscv Trap.

(** Addresses that the linker chooses: [main], [timervec], [timer_scratch]. *)
Class BootImage := {
  main_addr : Z;
  timervec : Z;
  timer_scratch : Z;
}.

(** ** kernel/start.c *)

Section start.
Context {bimg : BootImage} {H R : Type} {hw : IrqHw H} {L : Layer (HartSt H) R}.
Abbreviation St := (Kst (KMem R)).

(** The scratch area is ordinary memory; paging is off. *)
Definition timerinit `{KernelImage} : M St unit :=
  let* id := r_mhartid in
  let id := s32 id in
  let interval := 1000000 in
  let* mtime := mmio_get CLINT_MTIME in
  mmio_put (CLINT_MTIMECMP id) (u64 (mtime + interval));;;
  let scratch := timer_scratch + id * 40 in
  st64 (scratch + 8 * 3) (CLINT_MTIMECMP id);;;
  st64 (scratch + 8 * 4) interval;;;
  w_mscratch scratch;;;
  w_mtvec timervec;;;
  let* x := r_mstatus in
  w_mstatus (Z.lor x MSTATUS_MIE);;;
  let* x := r_mie in
  w_mie (Z.lor x MIE_MTIE).

(** Up to [mret], which jumps to [mepc] in the mode of [mstatus]. *)
Definition start `{KernelImage} : M St unit :=
  let* x := r_mstatus in
  let x := andnot x MSTATUS_MPP_MASK in
  let x := Z.lor x MSTATUS_MPP_S in
  w_mstatus x;;;
  w_mepc main_addr;;;
  w_satp 0;;;
  w_medeleg 0xffff;;;
  w_mideleg 0xffff;;;
  let* x := r_sie in
  w_sie (Z.lor x (Z.lor (Z.lor SIE_SEIE SIE_STIE) SIE_SSIE));;;
  w_pmpaddr0 0x3fffffffffffff;;;
  w_pmpcfg0 0xf;;;
  timerinit;;;
  let* id := r_mhartid in
  w_tp (s32 id).
End start.

(** ** kernel/main.c *)

Section main.
Context {img : KernelImage} {timg : TrapImage} {R HU HV HP : Type}.
Context {dd : DiskDriver (LogSt (FsSt (FileSt R)))} {dev : Devices R} {pt : Patience}.
Context {uhw : UartHw HU} {vhw : VirtioHw HV} {ihw : IrqHw HP}.
Context {LU : Layer (Devs HU) R} {LV : Layer (VioSt HV) R} {LH : Layer (HartSt HP) R}.
Abbreviation St := (KState R).

(** kernel/console.c and kernel/printf.c: the locks are left free, [devsw] is
    the interface [Devices]. *)
Definition consoleinit : M St unit := uartinit.
Definition printfinit : M St unit := ret tt.

(** kernel/vm.c; the fences are not visible here. *)
Definition kvminithart : M St unit :=
  let* kpgtbl := gets (fun s => kernel_pagetable (krest s)) in
  w_satp (MAKE_SATP kpgtbl).

(** Up to the call of [scheduler]; [started] tells the other harts when the
    first is done. *)
Definition main (started : bool) : M St bool :=
  let* id := cpuid in
  if id =? 0 then
    consoleinit;;;
    printfinit;;;
    kprintf [nl] [];;;
    kprintf (text "xv6 kernel is booting" ++ [nl]) [];;;
    kprintf [nl] [];;;
    kinit;;;
    kvminit;;;
    kvminithart;;;
    procinit;;;
    trapinit;;;
    trapinithart;;;
    plicinit;;;
    plicinithart;;;
    binit;;;
    iinit;;;
    fileinit;;;
    virtio_disk_init;;;
    userinit;;;
    ret true
  else if negb started then spin else
    kprintf (text "hart %d starting" ++ [nl]) [KInt id];;;
    kvminithart;;;
    trapinithart;;;
    plicinithart;;;
    ret started.
End main.
