(* ===== verification/BootThm.v ===== *)
(** From reset to supervisor mode: [start] leaves a hart ready for [mret] to
    enter [main], with its clock interrupt armed. *)

From S2P Require Import Prelude CInt Machine KString KStringThm Sched Kalloc Riscv Boot.

Section start_exec.
Context {img : KernelImage} {bimg : BootImage}.
Context {H R : Type} {hw : IrqHw H} {L : Layer (HartSt H) R}.
Abbreviation St := (Kst (KMem R)).
Implicit Types s : St.

(** A state with the registers, the controllers and the memory given. *)
Definition hst (h : hart) (d : H) (m : gmap Z Z) s : St :=
  set_hartst ((hartst s).[h_regs := h].[h_irq := d]) (set_mem m s).

Lemma hst_eta s : s = hst (h_regs (hartst s)) (h_irq (hartst s)) (kmem s) s.
Proof.
  unfold hst, hartst, set_hartst, upd_field. destruct s as [? ? ? ? ? ? [m ? ? r]]. simpl. f_equal.
  unfold set_mem, upd_field. simpl. f_equal. destruct (layer_get r) eqn:E. simpl. by rewrite <- E, layer_set_get.
Qed.

Lemma hartst_hst h d m s : hartst (hst h d m s) = (hartst s).[h_regs := h].[h_irq := d].
Proof. unfold hst, hartst, set_hartst. simpl. by rewrite layer_get_set. Qed.
Lemma kmem_hst h d m s : kmem (hst h d m s) = m.
Proof. done. Qed.

Lemma hst_hst h d m h' d' m' s : hst h d m (hst h' d' m' s) = hst h d m s.
Proof.
  unfold hst at 1. rewrite hartst_hst. unfold hst, set_hartst, upd_field. simpl.
  unfold set_mem, upd_field. simpl. by rewrite layer_set_set.
Qed.

Lemma r_csr_hst f h d m s : r_csr f (hst h d m s) = Ok (f h) (hst h d m s).
Proof. unfold r_csr, gets. by rewrite hartst_hst. Qed.

Lemma set_hartst_first h d m s h' d' :
  set_hartst ((hartst s).[h_regs := h'].[h_irq := d']) (hst h d m s) = hst h' d' m s.
Proof. unfold hst, set_hartst, upd_field. simpl. unfold set_mem, upd_field. simpl. by rewrite layer_set_set. Qed.

Lemma w_csr_hst f h d m s : w_csr f (hst h d m s) = Ok tt (hst (f h) d m s).
Proof.
  unfold w_csr, modify. f_equal. rewrite hartst_hst. exact (set_hartst_first h d m s (f h) d).
Qed.

Lemma mmio_get_hst a h d m s :
  mmio_get a (hst h d m s) = Ok (fst (irq_read a d)) (hst h (snd (irq_read a d)) m s).
Proof.
  unfold mmio_get. rewrite hartst_hst. change (h_irq ((hartst s).[h_regs := h].[h_irq := d])) with d. destruct (irq_read a d) as [v d'].
  f_equal. exact (set_hartst_first h d m s h d').
Qed.

Lemma mmio_put_hst a v h d m s : mmio_put a v (hst h d m s) = Ok tt (hst h (irq_write a v d) m s).
Proof.
  unfold mmio_put, modify. f_equal. rewrite hartst_hst. exact (set_hartst_first h d m s h (irq_write a v d)).
Qed.

Lemma st64_hst a v h d m s :
  in_ram a 8 = true -> st64 a v (hst h d m s) = Ok tt (hst h d (mwrite m a (le_split 8 v)) s).
Proof. intros Ha. rewrite st64_ok by done. done. Qed.

(** One step of a run over such a state. *)
Ltac hart_step := first
  [erewrite bind_Ok by apply r_csr_hst | erewrite bind_Ok by apply w_csr_hst
  |erewrite bind_Ok by apply mmio_get_hst | erewrite bind_Ok by apply mmio_put_hst
  |erewrite bind_Ok by (apply st64_hst; assumption)].

(** ** The timer *)

Definition scratch_of (id : Z) : Z := timer_scratch + id * 40.
Definition mtime_of (d : H) : Z := fst (irq_read CLINT_MTIME d).
Definition armed (id : Z) (d : H) : H :=
  irq_write (CLINT_MTIMECMP id) (u64 (mtime_of d + 1000000)) (snd (irq_read CLINT_MTIME d)).
Definition scratch_mem (id : Z) (m : gmap Z Z) : gmap Z Z :=
  mwrite (mwrite m (scratch_of id + 8 * 3) (le_split 8 (CLINT_MTIMECMP id))) (scratch_of id + 8 * 4) (le_split 8 1000000).
Definition timer_regs (id : Z) (h : hart) : hart :=
  h.[mscratch := u64 (scratch_of id)].[mtvec := u64 timervec]
    .[mstatus := u64 (Z.lor (mstatus h) MSTATUS_MIE)].[mie := u64 (Z.lor (mie h) MIE_MTIE)].

Lemma timerinit_hst h d m s :
  in_ram timer_scratch (8 * 40) = true -> 0 <= mhartid h < 8 ->
  timerinit (hst h d m s) = Ok tt (hst (timer_regs (mhartid h) h) (armed (mhartid h) d) (scratch_mem (mhartid h) m) s).
Proof.
  intros Hr Hid. unfold timerinit, r_mhartid, r_mstatus, r_mie, w_mscratch, w_mtvec, w_mstatus, w_mie.
  hart_step. cbv zeta. rewrite s32_small by lia.
  assert (in_ram (timer_scratch + mhartid h * 40 + 8 * 3) 8 = true) by (unfold in_ram in *; lia).
  assert (in_ram (timer_scratch + mhartid h * 40 + 8 * 4) 8 = true) by (unfold in_ram in *; lia).
  repeat hart_step. by rewrite w_csr_hst.
Qed.

(** ** [start] *)

(** What [mret] and the supervisor-mode kernel rely on. *)
Record booted (id : Z) (h h' : hart) : Prop := {
  bt_mode : Z.testbit (mstatus h') 12 = false /\ Z.testbit (mstatus h') 11 = true;
  bt_entry : mepc h' = u64 main_addr;
  bt_paging : satp h' = 0;
  bt_traps : medeleg h' = 0xffff /\ mideleg h' = 0xffff;
  bt_sie : Z.testbit (sie h') 9 = true /\ Z.testbit (sie h') 5 = true /\ Z.testbit (sie h') 1 = true;
  bt_pmp : pmpaddr0 h' = 2 ^ 54 - 1 /\ pmpcfg0 h' = 0xf;
  bt_clock : Z.testbit (mstatus h') 3 = true /\ Z.testbit (mie h') 7 = true /\ mtvec h' = u64 timervec;
  bt_scratch : mscratch h' = u64 (scratch_of id);
  bt_tp : tp h' = id;
  bt_others : mhartid h' = mhartid h /\ stvec h' = stvec h /\ sstatus h' = sstatus h;
}.

Definition start_regs (h : hart) : hart :=
  (timer_regs (mhartid h)
    (h.[mstatus := u64 (Z.lor (andnot (mstatus h) MSTATUS_MPP_MASK) MSTATUS_MPP_S)].[mepc := u64 main_addr]
      .[satp := u64 0].[medeleg := u64 0xffff].[mideleg := u64 0xffff]
      .[sie := u64 (Z.lor (sie h) (Z.lor (Z.lor SIE_SEIE SIE_STIE) SIE_SSIE))]
      .[pmpaddr0 := u64 0x3fffffffffffff].[pmpcfg0 := u64 0xf])).[tp := u64 (s32 (mhartid h))].

Lemma start_hst h d m s :
  in_ram timer_scratch (8 * 40) = true -> 0 <= mhartid h < 8 ->
  start (hst h d m s) = Ok tt (hst (start_regs h) (armed (mhartid h) d) (scratch_mem (mhartid h) m) s).
Proof.
  intros Hr Hid. unfold start, r_mhartid, r_mstatus, w_mstatus, w_mepc, w_satp, w_medeleg, w_mideleg, r_sie, w_sie, w_pmpaddr0, w_pmpcfg0, w_tp.
  repeat (hart_step; cbv zeta).
  erewrite bind_Ok by (by apply timerinit_hst). hart_step. by rewrite w_csr_hst.
Qed.

Lemma start_regs_booted h : 0 <= mhartid h < 8 -> booted (mhartid h) h (start_regs h).
Proof.
  intros Hid. split; unfold start_regs, timer_regs; simpl; try done.
  - split; by bits.
  - split_and!; by bits.
  - split_and!; [by bits|by bits|done].
  - unfold u64. rewrite s32_small by lia. apply Z.mod_small. lia.
Qed.

(** C40: [start], on any hart with its scratch area in memory: mret will enter
    [main] in supervisor mode with paging off, all traps delegated and all of
    memory accessible; the next clock interrupt is 1000000 cycles away and
    [timervec] finds the address of the compare register and the interval in
    the hart's own scratch words; [tp] holds the hart number; no other memory
    changes. *)
Theorem start_to_main s :
  let id := mhartid (h_regs (hartst s)) in
  in_ram timer_scratch (8 * 40) = true -> 0 <= id < 8 ->
  exists s', start s = Ok tt s' /\
    booted id (h_regs (hartst s)) (h_regs (hartst s')) /\
    h_irq (hartst s') = armed id (h_irq (hartst s)) /\
    kmem s' = scratch_mem id (kmem s) /\
    le_combine (mread (kmem s') (scratch_of id + 24) 8) = CLINT_MTIMECMP id /\
    le_combine (mread (kmem s') (scratch_of id + 32) 8) = 1000000 /\
    (forall a, ~ scratch_of id + 24 <= a < scratch_of id + 40 -> mget (kmem s') a = mget (kmem s) a).
Proof.
  intros id Hr Hid. eexists. split; [rewrite (hst_eta s) at 1; by apply start_hst|].
  rewrite hartst_hst, kmem_hst. split; [by apply start_regs_booted|]. split; [done|]. split; [done|]. fold id.
  unfold scratch_mem. split; [|split].
  - rewrite mread_mwrite_ne by (rewrite ?le_split_length; lia).
    rewrite mwrite_read by (rewrite ?le_split_length; apply le_split_bytes || done).
    rewrite le_combine_split64. unfold u64, CLINT_MTIMECMP, CLINT. apply Z.mod_small. lia.
  - rewrite mwrite_read by (rewrite ?le_split_length; apply le_split_bytes || done). done.
  - intros a Ha. rewrite !mwrite_frame by (rewrite le_split_length; lia). done.
Qed.
End start_exec.

(** ** Witness *)

Section boot_witness.
#[local] Instance demo_boot_image : BootImage :=
  {| main_addr := 0x80000e00; timervec := 0x80005a00; timer_scratch := 0x80009000 |}.
#[local] Instance demo_clint : IrqHw (list (Z * Z)) :=
  {| irq_read _ h := (500, h); irq_write a v h := h ++ [(a, v)] |}.
(** Hart 2 after reset, in machine mode. *)
Definition demo_reset : Kst (KMem (HartSt (list (Z * Z)))) :=
  KSt [] None [] 1 None 0 (KM ∅ 0 0
    (HartS (Hart 2 0x1800 0 0 0 0 0 0 0 0 0 0 0 0 0 0 0 0 0 0) [] true)).

Lemma start_to_main_witness :
  exists s', @start _ _ _ _ _ demo_image demo_reset = Ok tt s' /\
    tp (h_regs (hartst s')) = 2 /\ h_irq (hartst s') = [(0x2004010, 1000500)].
Proof.
  destruct (@start_to_main demo_image demo_boot_image _ _ demo_clint _ demo_reset)
    as (s' & H1 & H2 & H3 & _); [by vm_compute|split; by vm_compute|].
  exists s'. split; [exact H1|]. split; [exact (bt_tp _ _ _ H2)|exact H3].
Defined.
End boot_witness.
