(* ===== verification/Pthread.v ===== *)
(** Programs over the threads of the host: one mutex, condition variables and
    shared variables.  Their steps, and a rule for showing that what they
    protect with the mutex stays in order and that they do not get stuck. *)

From S2P Require Import Prelude.

(** ** Programs *)

Section pthread.
Context {G L : Type}.

(** A thread's code over the shared variables [G] and its own [L].  An action
    with no result is undefined behaviour, such as an index outside its array.
    [Wait] and [Signal] name the condition variable by its number. *)
Inductive stmt :=
| Act (f : G -> L -> option (G * L))
| Print (msg : string)
| Sleep
| Lock
| Unlock
| Wait (cv : L -> nat)
| Signal (cv : G -> L -> nat)
| Broadcast (cv : nat)
| If (b : G -> L -> bool) (s t : list stmt)
| While (b : G -> L -> bool) (s : list stmt).

Definition assign (f : G -> G) : stmt := Act (fun g l => Some (f g, l)).
Definition assign_local (f : L -> L) : stmt := Act (fun g l => Some (g, f l)).

(** [sleeping]: the condition variable that the thread waits on; it then has
    the mutex still to take. *)
Record thread := Th { code : list stmt; loc : L; sleeping : option nat }.

Record world := World {
  glob : G;
  owner : option nat;
  ths : list thread;
  out : list (nat * string);
  ub : bool;
}.
#[export] Instance eta_thread : Eta thread := fun t => Th (code t) (loc t) (sleeping t).
#[export] Instance eta_world : Eta world := fun w => World (glob w) (owner w) (ths w) (out w) (ub w).

(** ** Steps *)

(** A thread runs its next statement, where a [Signal] wakes thread [j]; or a
    waiting thread wakes for no reason, as POSIX allows. *)
Inductive choice := Run (i j : nat) | Spurious (i : nat).

Definition wake (cv : nat) (t : thread) : thread :=
  if decide (sleeping t = Some cv) then t.[sleeping := None] else t.

Definition waits_on (cv : nat) (t : thread) : bool := bool_decide (sleeping t = Some cv).

Definition signal (cv j : nat) (ts : list thread) : option (list thread) :=
  if existsb (waits_on cv) ts then
    t ← ts !! j; if waits_on cv t then Some (<[j := wake cv t]> ts) else None
  else Some ts.

Definition run_stmt (i j : nat) (t : thread) (s : stmt) (k : list stmt) (w : world) : option world :=
  let goes k := Some (w.[ths := <[i := t.[code := k]]> (ths w)]) in
  match s with
  | Act f =>
      match f (glob w) (loc t) with
      | Some (g, l) => Some (w.[glob := g].[ths := <[i := t.[code := k].[loc := l]]> (ths w)])
      | None => Some (w.[ub := true])
      end
  | Print msg => Some (w.[out := out w ++ [(i, msg)]].[ths := <[i := t.[code := k]]> (ths w)])
  | Sleep => goes k
  | Lock =>
      match owner w with
      | None => Some (w.[owner := Some i].[ths := <[i := t.[code := k]]> (ths w)])
      | Some _ => None
      end
  | Unlock =>
      if decide (owner w = Some i) then Some (w.[owner := None].[ths := <[i := t.[code := k]]> (ths w)])
      else Some (w.[ub := true])
  | Wait cv =>
      if decide (owner w = Some i) then
        Some (w.[owner := None].[ths := <[i := t.[code := Lock :: k].[sleeping := Some (cv (loc t))]]> (ths w)])
      else Some (w.[ub := true])
  | Signal cv =>
      ts ← signal (cv (glob w) (loc t)) j (<[i := t.[code := k]]> (ths w));
      Some (w.[ths := ts])
  | Broadcast cv => Some (w.[ths := wake cv <$> <[i := t.[code := k]]> (ths w)])
  | If b s1 s2 => goes ((if b (glob w) (loc t) then s1 else s2) ++ k)
  | While b s1 => goes (if b (glob w) (loc t) then s1 ++ While b s1 :: k else k)
  end.

Definition step (c : choice) (w : world) : option world :=
  match c with
  | Run i j =>
      t ← ths w !! i;
      match sleeping t, code t with
      | None, s :: k => run_stmt i j t s k w
      | _, _ => None
      end
  | Spurious i =>
      t ← ths w !! i;
      match sleeping t with
      | Some cv => Some (w.[ths := <[i := wake cv t]> (ths w)])
      | None => None
      end
  end.

Fixpoint steps (cs : list choice) (w : world) : option world :=
  match cs with
  | [] => Some w
  | c :: cs => step c w ≫= steps cs
  end.

Definition reachable (w0 w : world) : Prop := exists cs, steps cs w0 = Some w.

(** No thread can go on by itself. *)
Definition stuck (w : world) : Prop := forall i j, step (Run i j) w = None.
Definition finished (w : world) : Prop := forall t, t ∈ ths w -> code t = [].

(** The threads [cl] before they have run. *)
Definition begin (g : G) (cl : list (list stmt * L)) : world :=
  World g None ((fun p => Th p.1 p.2 None) <$> cl) [] false.
End pthread.
Arguments stmt : clear implicits.
Arguments thread : clear implicits.
Arguments world : clear implicits.
