(* ===== verification/PthreadThm.v ===== *)
(** A proof rule for the programs of [Pthread], sound for every interleaving:
    an invariant of the shared variables that holds when the mutex is free. *)

From S2P Require Import Prelude Pthread.

(** ** Counting *)

Fixpoint countb {A} (f : A -> bool) (xs : list A) : Z :=
  match xs with [] => 0 | x :: xs => Z.b2z (f x) + countb f xs end.

Lemma countb_nonneg {A} (f : A -> bool) xs : 0 <= countb f xs.
Proof. induction xs as [|x xs IH]; simpl; [done|]. destruct (f x); simpl; lia. Qed.

Lemma countb_insert {A} (f : A -> bool) xs i a b :
  xs !! i = Some a -> countb f (<[i := b]> xs) = countb f xs - Z.b2z (f a) + Z.b2z (f b).
Proof.
  revert i. induction xs as [|x xs IH]; intros [|i] Hi; simpl in *; try done.
  - injection Hi as ->. lia.
  - rewrite (IH i Hi). lia.
Qed.

Lemma countb_pos {A} (f : A -> bool) xs a : a ∈ xs -> f a = true -> 0 < countb f xs.
Proof.
  intros Ha Hf. induction xs as [|x xs IH]; simpl; [by apply elem_of_nil in Ha|]. pose proof (countb_nonneg f xs).
  apply elem_of_cons in Ha as [<-|Ha]; [rewrite Hf; simpl; lia|]. specialize (IH Ha). destruct (f x); simpl; lia.
Qed.

Lemma countb_zero {A} (f : A -> bool) xs a : countb f xs = 0 -> a ∈ xs -> f a = false.
Proof. intros H Ha. destruct (f a) eqn:Hf; [|done]. pose proof (countb_pos f xs a Ha Hf). lia. Qed.

Lemma countb_ex {A} (f : A -> bool) xs : 0 < countb f xs -> exists a, a ∈ xs /\ f a = true.
Proof.
  induction xs as [|x xs IH]; simpl; [done|]. destruct (f x) eqn:Hf; simpl; intros H.
  - exists x. split; [left|done].
  - destruct IH as (a & Ha & Hfa); [lia|]. exists a. split; [by right|done].
Qed.

Lemma countb_one {A} (f : A -> bool) xs i j a b :
  countb f xs <= 1 -> xs !! i = Some a -> xs !! j = Some b -> f a = true -> f b = true -> i = j.
Proof.
  revert i j. induction xs as [|x xs IH]; intros [|i] [|j] H Hi Hj Ha Hb; simpl in *; try done.
  - injection Hi as ->. rewrite Ha in H. simpl in H. apply list_elem_of_lookup_2 in Hj. pose proof (countb_pos f xs b Hj Hb). lia.
  - injection Hj as ->. rewrite Hb in H. simpl in H. apply list_elem_of_lookup_2 in Hi. pose proof (countb_pos f xs a Hi Ha). lia.
  - f_equal. apply IH; try done. destruct (f x); simpl in H; lia.
Qed.

Section rule.
Context {G L R P : Type}.
Implicit Types (g : G) (l : L) (p : P) (ro : list R) (ws : list (option nat)).

(** What the other threads may know of a thread's own variables. *)
Context (role : L -> R).
(** The part of the shared variables that is changed with the mutex only. *)
Context (prot : G -> P).
(** What holds when the mutex is free, of the shared variables, the roles of
    the threads and the condition variables they wait on; what holds of the
    roles at all times; and the roles in which a thread may end. *)
Context (Inv : P -> list R -> list (option nat) -> Prop).
Context (Good : list R -> Prop).
Context (Fin : R -> Prop).

Abbreviation stmt := (stmt G L).
Abbreviation thread := (thread G L).
Abbreviation world := (world G L).
Implicit Types (t : thread) (ts : list thread) (w : world).

(** [ws] when some threads have woken up. *)
Definition woken : list (option nat) -> list (option nat) -> Prop :=
  Forall2 (fun a b => a = None \/ a = b).

Context (Inv_woken : forall p ro ws ws', woken ws' ws -> Inv p ro ws -> Inv p ro ws').

(** ** Safe code *)

(** Where a thread holds the mutex: the protected variables, the roles, and who
    waits, unless it has woken up meanwhile. *)
Abbreviation held := (option (P * list R * list (option nat))).

(** Thread [i] can run [n] steps of [c] as the rule asks: it changes the
    protected variables with the mutex only, and [Inv] holds when it gives the mutex up. *)
Fixpoint safe_n (n i : nat) (c : list stmt) l (h : held) {struct n} : Prop :=
  match n with
  | O => True
  | S n =>
  match h with
  | None =>
      match c with
      | [] => Fin (role l)
      | s :: k =>
          match s with
          | Act f => forall g, match f g l with
                     | Some (g', l') => prot g' = prot g /\ role l' = role l /\ safe_n n i k l' None
                     | None => False
                     end
          | Print _ | Sleep | Signal _ | Broadcast _ => safe_n n i k l None
          | Lock => forall p ro ws, Inv p ro ws -> ro !! i = Some (role l) -> ws !! i = Some None ->
                    safe_n n i k l (Some (p, ro, ws))
          | Unlock | Wait _ => False
          | If b s1 s2 => forall g, safe_n n i ((if b g l then s1 else s2) ++ k) l None
          | While b s1 => forall g, safe_n n i (if b g l then s1 ++ c else k) l None
          end
      end
  | Some (p, ro, ws) => Good ro /\
      match c with
      | [] => False
      | s :: k =>
          match s with
          | Act f => forall g, prot g = p ->
                     match f g l with
                     | Some (g', l') => safe_n n i k l' (Some (prot g', <[i := role l']> ro, ws))
                     | None => False
                     end
          | Print _ | Sleep => safe_n n i k l h
          | Lock => False
          | Unlock => Inv p ro ws /\ safe_n n i k l None
          | Wait cv => Inv p ro (<[i := Some (cv l)]> ws) /\ safe_n n i (Lock :: k) l None
          | Signal cv => forall g, prot g = p ->
              (Some (cv g l) ∉ ws -> safe_n n i k l h) /\
              (forall j, ws !! j = Some (Some (cv g l)) -> safe_n n i k l (Some (p, ro, <[j := None]> ws)))
          | Broadcast cv => safe_n n i k l (Some (p, ro, (fun a => if decide (a = Some cv) then None else a) <$> ws))
          | If b s1 s2 => forall g, prot g = p -> safe_n n i ((if b g l then s1 else s2) ++ k) l h
          | While b s1 => forall g, prot g = p -> safe_n n i (if b g l then s1 ++ c else k) l h
          end
      end
  end end.

Definition safe i c l h : Prop := forall n, safe_n n i c l h.

(** ** Soundness *)

Definition roles (w : world) : list R := (fun t => role (loc t)) <$> ths w.
Definition waits (w : world) : list (option nat) := sleeping <$> ths w.

Definition thread_ok (w : world) (i : nat) (t : thread) : Prop :=
  if decide (owner w = Some i) then
    sleeping t = None /\ exists ws, woken (waits w) ws /\ ws !! i = Some None /\
      safe i (code t) (loc t) (Some (prot (glob w), roles w, ws))
  else safe i (code t) (loc t) None.

Record ok (w : world) : Prop := {
  ok_ub : ub w = false;
  ok_good : Good (roles w);
  ok_inv : owner w = None -> Inv (prot (glob w)) (roles w) (waits w);
  ok_owner : forall i, owner w = Some i -> is_Some (ths w !! i);
  ok_ths : forall i t, ths w !! i = Some t -> thread_ok w i t;
}.

Lemma woken_refl ws : woken ws ws.
Proof. unfold woken. rewrite Forall2_lookup. intros i. destruct (ws !! i); constructor. by right. Qed.

Lemma awake_trans a b c : woken a b -> woken b c -> woken a c.
Proof.
  unfold woken. rewrite !Forall2_lookup. intros H1 H2 i. specialize (H1 i). specialize (H2 i).
  destruct H1 as [x y H1|]; inversion H2; subst; constructor. naive_solver.
Qed.

Lemma woken_insert a b i x y : woken a b -> x = None \/ x = y -> woken (<[i := x]> a) (<[i := y]> b).
Proof. intros H Hx. by apply Forall2_insert. Qed.

(** A thread whose role and sleep do not change leaves the rest as it was. *)
Lemma list_insert_fmap {A B} (f : A -> B) (ls : list A) i x y :
  ls !! i = Some y -> f x = f y -> f <$> <[i := x]> ls = f <$> ls.
Proof. intros Hi Hf. rewrite list_fmap_insert, Hf. apply list_insert_id. by rewrite list_lookup_fmap, Hi. Qed.

(** [t'] is [t], woken up at most. *)
Definition woke (t' t : thread) : Prop :=
  code t' = code t /\ loc t' = loc t /\ (sleeping t' = None \/ sleeping t' = sleeping t).
Definition wokes : list thread -> list thread -> Prop := Forall2 woke.

Lemma woke_refl t : woke t t.
Proof. split; [done|]. split; [done|]. by right. Qed.
Lemma wokes_refl ts : wokes ts ts.
Proof. unfold wokes. rewrite Forall2_lookup. intros i. destruct (ts !! i); constructor. apply woke_refl. Qed.
Lemma wake_woke cv t : woke (wake cv t) t.
Proof. unfold wake. case_decide; [|apply woke_refl]. split; [done|]. split; [done|]. by left. Qed.

Lemma wokes_roles ts' ts : wokes ts' ts -> (fun t => role (loc t)) <$> ts' = (fun t => role (loc t)) <$> ts.
Proof. intros H. induction H as [|t' t ts' ts (_ & E & _) _ IH]; [done|]. csimpl. by rewrite E, IH. Qed.

Lemma wokes_waits ts' ts : wokes ts' ts -> woken (sleeping <$> ts') (sleeping <$> ts).
Proof. intros H. induction H as [|t' t ts' ts (_ & _ & E) _ IH]; [constructor|]. csimpl. by constructor. Qed.

Lemma signal_wokes cv j ts ts' : signal cv j ts = Some ts' -> wokes ts' ts.
Proof.
  unfold signal. destruct (existsb (waits_on cv) ts); [|intros [= <-]; apply wokes_refl].
  destruct (ts !! j) as [t|] eqn:Hj; [|done]. simpl. destruct (waits_on cv t); [|done]. intros [= <-].
  rewrite <- (list_insert_id ts j t) at 2 by done. apply Forall2_insert; [apply wokes_refl|apply wake_woke].
Qed.

Lemma broadcast_wokes cv ts : wokes (wake cv <$> ts) ts.
Proof. induction ts as [|t ts IH]; [constructor|]. csimpl. constructor; [apply wake_woke|done]. Qed.

(** What one thread may do to the rest. *)
Lemma ok_change w w' i t t' :
  ok w -> ths w !! i = Some t -> wokes (ths w') (<[i := t']> (ths w)) ->
  ub w' = false -> Good (roles w') ->
  (owner w' = owner w \/ owner w = Some i /\ owner w' = None \/ owner w = None /\ owner w' = Some i) ->
  (owner w = Some i \/ prot (glob w') = prot (glob w) /\ role (loc t') = role (loc t) /\ (sleeping t' = None \/ sleeping t' = sleeping t)) ->
  (owner w' = None -> Inv (prot (glob w')) (roles w') (waits w')) ->
  thread_ok w' i t' -> ok w'.
Proof.
  intros O Hi Hw Hub Hgood Hown Hkeep Hinv Hok.
  assert (Hlen : length (ths w') = length (ths w)) by (rewrite (Forall2_length _ _ _ Hw); apply length_insert).
  split; [done|done|done| |].
  - intros k Hk. apply lookup_lt_is_Some. rewrite Hlen. apply lookup_lt_is_Some.
    destruct Hown as [E|[[_ E]|[_ E]]]; [|congruence|].
    + apply (ok_owner w O). congruence.
    + assert (k = i) as -> by congruence. by eexists.
  - intros k u Hk. destruct (Forall2_lookup_l _ _ _ _ _ Hw Hk) as (u0 & Hu0 & Hc & Hl & Hs).
    unfold thread_ok in *. rewrite Hc, Hl. destruct (decide (k = i)) as [->|Hne].
    + rewrite list_lookup_insert_eq in Hu0 by (by eapply lookup_lt_Some). injection Hu0 as <-.
      case_decide; [|done]. destruct Hok as [Hsl Hok]. split; [destruct Hs; congruence|done].
    + rewrite list_lookup_insert_ne in Hu0 by done. pose proof (ok_ths w O k u0 Hu0) as Hthis. unfold thread_ok in Hthis.
      destruct (decide (owner w' = Some k)) as [Hk'|Hk'].
      * assert (Hwk : owner w = Some k) by (destruct Hown as [|[[? ?]|[? ?]]]; congruence).
        rewrite decide_True in Hthis by done. destruct Hthis as (Hsl & ws & H1 & H2 & H3).
        destruct Hkeep as [|(Hg & Hr & Hsi)]; [congruence|].
        split; [destruct Hs; congruence|]. exists ws. split; [|split; [done|]].
        { eapply awake_trans; [exact (wokes_waits _ _ Hw)|]. eapply awake_trans; [|exact H1].
          rewrite list_fmap_insert. rewrite <- (list_insert_id (waits w) i (sleeping t)).
          - apply woken_insert; [apply woken_refl|done].
          - unfold waits. by rewrite list_lookup_fmap, Hi. }
        rewrite Hg. replace (roles w') with (roles w); [done|].
        unfold roles. rewrite (wokes_roles _ _ Hw). symmetry. by apply (list_insert_fmap _ _ _ _ t).
      * rewrite decide_False in Hthis; [done|]. intros Hwk. destruct Hown as [|[[? ?]|[? ?]]]; congruence.
Qed.

(** ** Each step *)

Lemma safe_good i c l p ro ws : safe i c l (Some (p, ro, ws)) -> Good ro.
Proof. intros H. specialize (H 1%nat). by destruct H. Qed.

(** The thread that holds the mutex keeps it. *)
Lemma held_step w w' i t t' ws :
  ok w -> ths w !! i = Some t -> owner w = Some i -> owner w' = Some i ->
  wokes (ths w') (<[i := t']> (ths w)) -> ub w' = false -> sleeping t' = None ->
  woken (waits w') ws -> ws !! i = Some None ->
  safe i (code t') (loc t') (Some (prot (glob w'), <[i := role (loc t')]> (roles w), ws)) -> ok w'.
Proof.
  intros O Hi Ho Ho' Hw Hub Hsl Hws Hwsi Hsafe.
  assert (Hro : roles w' = <[i := role (loc t')]> (roles w)).
  { unfold roles. by rewrite (wokes_roles _ _ Hw), list_fmap_insert. }
  apply (ok_change w w' i t t' O Hi Hw Hub).
  - rewrite Hro. exact (safe_good _ _ _ _ _ _ Hsafe).
  - left. congruence.
  - by left.
  - congruence.
  - unfold thread_ok. rewrite decide_True by done. split; [done|]. exists ws. by rewrite Hro.
Qed.

(** A thread without the mutex goes on without it. *)
Lemma unlocked_step w w' i t t' :
  ok w -> ths w !! i = Some t -> owner w <> Some i -> owner w' = owner w -> prot (glob w') = prot (glob w) ->
  wokes (ths w') (<[i := t']> (ths w)) -> ub w' = false -> role (loc t') = role (loc t) ->
  (sleeping t' = None \/ sleeping t' = sleeping t) -> safe i (code t') (loc t') None -> ok w'.
Proof.
  intros O Hi Ho Ho' Hg Hw Hub Hr Hsl Hsafe.
  assert (Hro : roles w' = roles w).
  { unfold roles. rewrite (wokes_roles _ _ Hw). by apply (list_insert_fmap _ _ _ _ t). }
  apply (ok_change w w' i t t' O Hi Hw Hub).
  - rewrite Hro. apply (ok_good w O).
  - by left.
  - by right.
  - intros Hn. rewrite Hg, Hro. apply (Inv_woken _ _ (waits w)); [|apply (ok_inv w O); congruence].
    eapply awake_trans; [exact (wokes_waits _ _ Hw)|]. rewrite list_fmap_insert.
    rewrite <- (list_insert_id (waits w) i (sleeping t)) by (unfold waits; by rewrite list_lookup_fmap, Hi).
    by apply woken_insert; [apply woken_refl|].
  - unfold thread_ok. by rewrite decide_False by congruence.
Qed.

Lemma insert_role w i t l : ths w !! i = Some t -> role l = role (loc t) -> <[i := role l]> (roles w) = roles w.
Proof. intros Hi Hl. apply list_insert_id. unfold roles. by rewrite list_lookup_fmap, Hi, Hl. Qed.

Lemma wokes_insert w i t t' : ths w !! i = Some t -> sleeping t = None -> sleeping t' = None ->
  forall ts', wokes ts' (<[i := t']> (ths w)) -> woken (sleeping <$> ts') (waits w).
Proof.
  intros Hi Hs Hs' ts' Hw. eapply awake_trans; [exact (wokes_waits _ _ Hw)|].
  rewrite list_fmap_insert, list_insert_id; [apply woken_refl|]. by rewrite list_lookup_fmap, Hi, Hs', <- Hs.
Qed.

Lemma waits_run w i t k :
  ths w !! i = Some t -> sleeping t = None -> woken (sleeping <$> <[i := t.[code := k]]> (ths w)) (waits w).
Proof. intros Hi Hs. apply (wokes_insert w i t (t.[code := k]) Hi Hs); [exact Hs|apply wokes_refl]. Qed.

(** A statement of a thread without the mutex. *)
Lemma run_free w i j t s k w' :
  ok w -> ths w !! i = Some t -> sleeping t = None -> code t = s :: k -> owner w <> Some i ->
  run_stmt i j t s k w = Some w' -> ok w'.
Proof.
  intros O Hi Hsl Hc Ho. pose proof (ok_ths w O i t Hi) as Hsafe. unfold thread_ok in Hsafe.
  rewrite decide_False in Hsafe by done. rewrite Hc in Hsafe. pose proof (ok_ub w O) as Hub.
  assert (Hgo : forall w' t', ths w' = <[i := t']> (ths w) -> owner w' = owner w -> prot (glob w') = prot (glob w) -> ub w' = false ->
    role (loc t') = role (loc t) -> sleeping t' = None -> safe i (code t') (loc t') None -> ok w').
  { intros w2 t' Ht H1 H2 H3 H4 H5 H6. apply (unlocked_step w w2 i t t' O Hi Ho H1 H2); try done; [|by left].
    rewrite Ht. apply wokes_refl. }
  assert (Hn : forall n, safe_n (S n) i (s :: k) (loc t) None) by (intros n; apply Hsafe).
  destruct s as [f|msg| | | |cv|cv|cv|b s1 s2|b s1]; cbn [run_stmt safe_n] in *.
  - pose proof (Hn 0%nat (glob w)) as H0. destruct (f (glob w) (loc t)) as [[g' l']|] eqn:Hf; [|done].
    destruct H0 as (Hp & Hr & _). intros [= <-]. apply (Hgo _ (t.[code := k].[loc := l'])); try done.
    intros n. specialize (Hn n (glob w)). rewrite Hf in Hn. by apply Hn.
  - intros [= <-]. by apply (Hgo _ (t.[code := k])).
  - intros [= <-]. by apply (Hgo _ (t.[code := k])).
  - destruct (owner w) eqn:How; [done|]. intros [= <-]. set (w' := w.[owner := Some i].[ths := _]).
    apply (ok_change w w' i t (t.[code := k]) O Hi); try done.
    + apply wokes_refl.
    + unfold roles, w'. simpl. rewrite (list_insert_fmap _ _ _ _ t) by done. apply (ok_good w O).
    + right. right. by rewrite How.
    + right. split; [done|]. split; [done|]. by right.
    + unfold thread_ok. rewrite decide_True by done. split; [done|].
      exists (waits w). split; [|split].
      * exact (waits_run w i t k Hi Hsl).
      * unfold waits. by rewrite list_lookup_fmap, Hi, <- Hsl.
      * intros n. assert (Hro : roles w' = roles w) by (unfold roles, w'; simpl; by apply (list_insert_fmap _ _ _ _ t)).
        rewrite Hro. apply Hn.
        -- by apply (ok_inv w O).
        -- unfold roles. by rewrite list_lookup_fmap, Hi.
        -- unfold waits. by rewrite list_lookup_fmap, Hi, <- Hsl.
  - by destruct (Hn 0%nat).
  - by destruct (Hn 0%nat).
  - destruct (signal _ j _) as [ts|] eqn:Hs; [|done]. intros [= <-].
    apply (unlocked_step w _ i t (t.[code := k]) O Hi Ho); try done; [by eapply signal_wokes|by left].
  - intros [= <-]. apply (unlocked_step w _ i t (t.[code := k]) O Hi Ho); try done; [apply broadcast_wokes|by left].
  - intros [= <-]. apply (Hgo _ (t.[code := (if b (glob w) (loc t) then s1 else s2) ++ k])); try done. intros n. apply (Hn n).
  - intros [= <-]. apply (Hgo _ (t.[code := if b (glob w) (loc t) then s1 ++ While b s1 :: k else k])); try done. intros n. apply (Hn n).
Qed.

Lemma signal_spec cv j ts ts' :
  signal cv j ts = Some ts' ->
  ts' = ts /\ (forall t, t ∈ ts -> sleeping t <> Some cv) \/
  exists t, ts !! j = Some t /\ sleeping t = Some cv /\ ts' = <[j := t.[sleeping := None]]> ts.
Proof.
  unfold signal. destruct (existsb (waits_on cv) ts) eqn:He.
  - destruct (ts !! j) as [t|]; [|done]. simpl. unfold waits_on, wake. case_bool_decide as Hs; [|done].
    intros [= <-]. right. exists t. by rewrite decide_True.
  - intros [= <-]. left. split; [done|]. intros t Ht Hs.
    assert (Hex : existsb (waits_on cv) ts = true); [|congruence].
    apply existsb_exists. exists t. split; [by apply list_elem_of_In|]. unfold waits_on. by rewrite bool_decide_true.
Qed.

(** A signal on what is known of the sleepers. *)
Lemma signal_woken cv j ts ts' ws (Q : list (option nat) -> Prop) :
  signal cv j ts = Some ts' -> woken (sleeping <$> ts) ws ->
  (Some cv ∉ ws -> Q ws) -> (forall j, ws !! j = Some (Some cv) -> Q (<[j := None]> ws)) ->
  exists ws', woken (sleeping <$> ts') ws' /\ Q ws' /\ forall i, ws !! i = Some None -> ws' !! i = Some None.
Proof.
  intros Hs Hw H0 H1. destruct (signal_spec _ _ _ _ Hs) as [[-> Hno]|(t & Hj & Hst & ->)].
  - destruct (decide (Some cv ∈ ws)) as [Hin|Hin]; [|exists ws; by auto].
    apply list_elem_of_lookup_1 in Hin as [x Hx]. exists (<[x := None]> ws). split; [|split; [by apply H1|]].
    + unfold woken in *. rewrite Forall2_lookup in *. intros i. specialize (Hw i).
      destruct (decide (i = x)) as [->|Hne]; [|by rewrite list_lookup_insert_ne].
      rewrite list_lookup_insert_eq by (by eapply lookup_lt_Some). rewrite Hx in Hw. inversion Hw as [a b Hab Ha|]; subst.
      constructor. left. destruct Hab as [|Hab]; [done|]. subst a. exfalso.
      symmetry in Ha. apply list_lookup_fmap_Some in Ha as (u & Hu & Hxu). apply (Hno u); [by eapply list_elem_of_lookup_2|done].
    + intros i Hi. destruct (decide (i = x)) as [->|]; [congruence|]. by rewrite list_lookup_insert_ne.
  - assert (Hwj : ws !! j = Some (Some cv)).
    { unfold woken in Hw. rewrite Forall2_lookup in Hw. specialize (Hw j). rewrite list_lookup_fmap, Hj in Hw. simpl in Hw.
      rewrite Hst in Hw. inversion Hw as [a b Hab|]; subst. destruct Hab as [|<-]; done. }
    exists (<[j := None]> ws). split; [|split; [by apply H1|]].
    + rewrite list_fmap_insert. apply woken_insert; [done|by left].
    + intros i Hi. destruct (decide (i = j)) as [->|]; [congruence|]. by rewrite list_lookup_insert_ne.
Qed.

Definition wake_all (cv : nat) ws : list (option nat) := (fun a => if decide (a = Some cv) then None else a) <$> ws.

Lemma broadcast_waits cv ts : sleeping <$> (wake cv <$> ts) = wake_all cv (sleeping <$> ts).
Proof. induction ts as [|t ts IH]; [done|]. csimpl. rewrite IH. unfold wake. by case_decide. Qed.

Lemma wake_all_woken cv ws ws' : woken ws ws' -> woken (wake_all cv ws) (wake_all cv ws').
Proof.
  intros H. induction H as [|a b ws ws' H _ IH]; [constructor|]. unfold wake_all in *. csimpl. constructor; [|done].
  destruct H as [->|<-]; [|by right]. left. by case_decide.
Qed.

(** A statement of the thread that holds the mutex. *)
Lemma run_held w i j t s k w' :
  ok w -> ths w !! i = Some t -> sleeping t = None -> code t = s :: k -> owner w = Some i ->
  run_stmt i j t s k w = Some w' -> ok w'.
Proof.
  intros O Hi Hsl Hc Ho. pose proof (ok_ths w O i t Hi) as Hsafe. unfold thread_ok in Hsafe.
  rewrite decide_True in Hsafe by done. destruct Hsafe as (_ & ws & Hws & Hwsi & Hsafe).
  rewrite Hc in Hsafe. pose proof (ok_ub w O) as Hub.
  assert (Hro : forall l, role l = role (loc t) -> <[i := role l]> (roles w) = roles w) by (intros l; by apply insert_role).
  assert (Hgo : forall w' t', ths w' = <[i := t']> (ths w) -> owner w' = owner w -> ub w' = false ->
    sleeping t' = None -> safe i (code t') (loc t') (Some (prot (glob w'), <[i := role (loc t')]> (roles w), ws)) -> ok w').
  { intros w2 t' Ht H1 H2 H3 H4. apply (held_step w w2 i t t' ws O Hi Ho); try done; [congruence|rewrite Ht; apply wokes_refl|].
    eapply awake_trans; [|exact Hws]. unfold waits. apply (wokes_insert w i t t' Hi Hsl H3). rewrite Ht. apply wokes_refl. }
  assert (Hn : forall n, safe_n (S n) i (s :: k) (loc t) (Some (prot (glob w), roles w, ws))) by (intros n; apply Hsafe).
  assert (Hfree : forall w' t', ths w' = <[i := t']> (ths w) -> owner w' = None -> ub w' = false -> glob w' = glob w ->
    loc t' = loc t -> Inv (prot (glob w)) (roles w) (waits w') -> safe i (code t') (loc t') None -> ok w').
  { intros w2 t' Ht H1 H2 H3 H4 H5 H6.
    assert (Hr : roles w2 = roles w).
    { unfold roles. rewrite Ht. apply (list_insert_fmap _ _ _ _ t); [done|]. by rewrite H4. }
    apply (ok_change w w2 i t t' O Hi); try done; [rewrite Ht; apply wokes_refl|rewrite Hr; apply (ok_good w O)|by right; left|by left|by rewrite H3, Hr|].
    unfold thread_ok. by rewrite decide_False by congruence. }
  destruct s as [f|msg| | | |cv|cv|cv|b s1 s2|b s1]; cbn [run_stmt safe_n] in *.
  - pose proof (Hn 0%nat) as [_ H0]. specialize (H0 (glob w) eq_refl).
    destruct (f (glob w) (loc t)) as [[g' l']|] eqn:Hf; [|done].
    intros [= <-]. apply (Hgo _ (t.[code := k].[loc := l'])); try done. intros n. destruct (Hn n) as [_ H1].
    specialize (H1 (glob w) eq_refl). by rewrite Hf in H1.
  - intros [= <-]. apply (Hgo _ (t.[code := k])); try done. simpl. rewrite Hro by done. intros n. apply (Hn n).
  - intros [= <-]. apply (Hgo _ (t.[code := k])); try done. simpl. rewrite Hro by done. intros n. apply (Hn n).
  - by destruct (Hn 0%nat).
  - rewrite decide_True by done. intros [= <-]. destruct (Hn 0%nat) as (_ & HI & _).
    apply (Hfree _ (t.[code := k])); try done; [|intros n; apply (Hn n)].
    apply (Inv_woken _ _ ws); [|done]. eapply awake_trans; [|exact Hws]. unfold waits.
    exact (waits_run w i t k Hi Hsl).
  - rewrite decide_True by done. intros [= <-]. destruct (Hn 0%nat) as (_ & HI & _).
    apply (Hfree _ (t.[code := Lock :: k].[sleeping := Some (cv (loc t))])); try done; [|intros n; apply (Hn n)].
    apply (Inv_woken _ _ (<[i := Some (cv (loc t))]> ws)); [|done]. unfold waits. simpl. rewrite list_fmap_insert.
    apply woken_insert; [done|by right].
  - destruct (signal _ j _) as [ts|] eqn:Hs; [|done]. intros [= <-].
    assert (Hws' : woken (sleeping <$> <[i := t.[code := k]]> (ths w)) ws).
    { eapply awake_trans; [|exact Hws]. exact (waits_run w i t k Hi Hsl). }
    destruct (signal_woken _ _ _ _ ws (fun ws => safe i k (loc t) (Some (prot (glob w), roles w, ws))) Hs Hws') as (ws' & H1 & H2 & H3).
    + intros Hno n. by apply (proj2 (Hn n) (glob w)).
    + intros x Hx n. by apply (proj2 (Hn n) (glob w)).
    + apply (held_step w _ i t (t.[code := k]) ws' O Hi Ho); try done; [by eapply signal_wokes|by apply H3|].
      simpl. by rewrite Hro.
  - intros [= <-]. apply (held_step w _ i t (t.[code := k]) (wake_all cv ws) O Hi Ho); try done.
    + apply broadcast_wokes.
    + unfold waits. simpl. rewrite broadcast_waits. apply wake_all_woken. eapply awake_trans; [|exact Hws].
      exact (waits_run w i t k Hi Hsl).
    + unfold wake_all. by rewrite list_lookup_fmap, Hwsi.
    + simpl. rewrite Hro by done. intros n. apply (Hn n).
  - intros [= <-]. apply (Hgo _ (t.[code := (if b (glob w) (loc t) then s1 else s2) ++ k])); try done. simpl. rewrite Hro by done. intros n. by apply (proj2 (Hn n) (glob w)).
  - intros [= <-]. apply (Hgo _ (t.[code := if b (glob w) (loc t) then s1 ++ While b s1 :: k else k])); try done. simpl. rewrite Hro by done. intros n. by apply (proj2 (Hn n) (glob w)).
Qed.

Lemma step_ok c w w' : ok w -> step c w = Some w' -> ok w'.
Proof.
  intros O. destruct c as [i j|i]; simpl; destruct (ths w !! i) as [t|] eqn:Hi; try done; simpl.
  - destruct (sleeping t) eqn:Hs; [done|]. destruct (code t) as [|s k] eqn:Hc; [done|].
    destruct (decide (owner w = Some i)); [by eapply run_held|by eapply run_free].
  - destruct (sleeping t) as [cv|] eqn:Hs; [|done]. intros [= <-].
    assert (Ho : owner w <> Some i).
    { intros Ho. pose proof (ok_ths w O i t Hi) as H. unfold thread_ok in H. rewrite decide_True in H by done. destruct H. congruence. }
    pose proof (ok_ths w O i t Hi) as H. unfold thread_ok in H. rewrite decide_False in H by done.
    destruct (wake_woke cv t) as (H1 & H2 & H3).
    apply (unlocked_step w _ i t (wake cv t) O Hi Ho); try done; [apply wokes_refl|apply (ok_ub w O)|by rewrite H2|by rewrite H1, H2].
Qed.

Lemma steps_ok cs w w' : ok w -> steps cs w = Some w' -> ok w'.
Proof.
  revert w. induction cs as [|c cs IH]; intros w O; simpl; [by intros [= <-]|].
  destruct (step c w) as [w1|] eqn:E; [|done]. apply IH. by eapply step_ok.
Qed.

(** A thread that is not asleep and not at its end can run, unless it wants
    the mutex while another thread has it. *)
Lemma runnable w i t s k :
  ths w !! i = Some t -> sleeping t = None -> code t = s :: k -> (s = Lock -> owner w = None) -> ~ stuck w.
Proof.
  intros Hi Hs Hc Hl St.
  assert (Hrun : forall j, run_stmt i j t s k w = None).
  { intros j. specialize (St i j). simpl in St. rewrite Hi in St. simpl in St. by rewrite Hs, Hc in St. }
  destruct s as [f|msg| | | |cv|cv|cv|b s1 s2|b s1]; simpl in Hrun; try by specialize (Hrun 0%nat).
  - specialize (Hrun 0%nat). by destruct (f (glob w) (loc t)) as [[]|].
  - specialize (Hrun 0%nat). by rewrite Hl in Hrun.
  - specialize (Hrun 0%nat). by case_decide.
  - specialize (Hrun 0%nat). by case_decide.
  - set (ts := <[i := t.[code := k]]> (ths w)) in *. set (c := cv (glob w) (loc t)) in *.
    assert (Hj : exists j ts', signal c j ts = Some ts').
    { unfold signal. destruct (existsb (waits_on c) ts) eqn:He; [|by exists 0%nat, ts].
      apply existsb_exists in He as (u & Hu & Hw). apply list_elem_of_In, list_elem_of_lookup_1 in Hu as [j Hj].
      exists j. rewrite Hj. simpl. rewrite Hw. by eexists. }
    destruct Hj as (j & ts' & Hj). specialize (Hrun j). by rewrite Hj in Hrun.
Qed.

Lemma ok_stuck w :
  ok w -> stuck w -> Inv (prot (glob w)) (roles w) (waits w) /\
  forall t, t ∈ ths w -> sleeping t = None -> code t = [] /\ Fin (role (loc t)).
Proof.
  intros O St. assert (Hown : owner w = None).
  { destruct (owner w) as [i|] eqn:Ho; [|done]. exfalso. destruct (ok_owner w O i Ho) as [t Hi].
    pose proof (ok_ths w O i t Hi) as H. unfold thread_ok in H. rewrite decide_True in H by done.
    destruct H as (Hs & ws & _ & _ & Hsafe). specialize (Hsafe 1%nat). simpl in Hsafe. destruct Hsafe as [_ Hsafe].
    destruct (code t) as [|s k] eqn:Hc; [done|].
    apply (runnable w i t s k Hi Hs Hc); [|done]. by intros ->. }
  split; [by apply (ok_inv w O)|]. intros t [i Hi]%list_elem_of_lookup_1 Hs.
  pose proof (ok_ths w O i t Hi) as H. unfold thread_ok in H. rewrite decide_False in H by congruence.
  destruct (code t) as [|s k] eqn:Hc; [split; [done|apply (H 1%nat)]|].
  exfalso. by apply (runnable w i t s k Hi Hs Hc).
Qed.

Lemma step_length c w w' : step c w = Some w' -> length (ths w') = length (ths w).
Proof.
  destruct c as [i j|i]; simpl; destruct (ths w !! i) as [t|]; try done; simpl.
  - destruct (sleeping t); [done|]. destruct (code t) as [|s k]; [done|].
    destruct s as [f|msg| | | |cv|cv|cv|b s1 s2|b s1]; simpl; try (intros [= <-]; simpl; by rewrite ?length_fmap, length_insert).
    + destruct (f (glob w) (loc t)) as [[]|]; intros [= <-]; simpl; by rewrite ?length_insert.
    + destruct (owner w); intros [= <-]; simpl; by rewrite length_insert.
    + case_decide; intros [= <-]; simpl; by rewrite ?length_insert.
    + case_decide; intros [= <-]; simpl; by rewrite ?length_insert.
    + destruct (signal _ j _) as [ts|] eqn:Hs; [|done]. intros [= <-]. simpl.
      rewrite (Forall2_length _ _ _ (signal_wokes _ _ _ _ Hs)). apply length_insert.
  - destruct (sleeping t); [|done]. intros [= <-]. simpl. apply length_insert.
Qed.

Lemma steps_length cs w w' : steps cs w = Some w' -> length (ths w') = length (ths w).
Proof.
  revert w. induction cs as [|c cs IH]; intros w; simpl; [by intros [= <-]|].
  destruct (step c w) as [w1|] eqn:E; [|done]. intros H. rewrite <- (step_length _ _ _ E). by apply IH.
Qed.

(** The rule: for threads whose code is safe, from a state in order. *)
Lemma monitor_rule g cl w :
  Inv (prot g) ((fun c => role c.2) <$> cl) ((fun _ => None) <$> cl) -> Good ((fun c => role c.2) <$> cl) ->
  (forall i c, cl !! i = Some c -> safe i c.1 c.2 None) ->
  reachable (begin g cl) w ->
  ub w = false /\ length (ths w) = length cl /\ Good (roles w) /\
  (stuck w -> Inv (prot (glob w)) (roles w) (waits w) /\
     forall t, t ∈ ths w -> sleeping t = None -> code t = [] /\ Fin (role (loc t))).
Proof.
  intros HI HG Hs [cs Hcs].
  assert (O : ok w).
  { apply (steps_ok cs _ _) in Hcs; [done|]. split; simpl.
    - done.
    - unfold roles. simpl. by rewrite <- list_fmap_compose.
    - intros _. unfold roles, waits. simpl. by rewrite <- !list_fmap_compose.
    - done.
    - intros i t Hi. apply list_lookup_fmap_Some in Hi as (p & -> & Hp). unfold thread_ok. simpl. by apply Hs. }
  split; [apply (ok_ub w O)|]. split; [rewrite (steps_length _ _ _ Hcs); apply length_fmap|].
  split; [apply (ok_good w O)|]. by apply ok_stuck.
Qed.

(** ** Proving code safe *)

Lemma safe_n_mono n i c l h : safe_n (S n) i c l h -> safe_n n i c l h.
Proof.
  revert i c l h. induction n as [|n IH]; intros i c l h H; [done|].
  destruct h as [[[p ro] ws]|]; (destruct c as [|s k]; [exact H|]); [destruct H as [HG H]; split; [exact HG|]|];
    destruct s as [f|msg| | | |cv|cv|cv|b s1 s2|b s1]; try exact H; try (by apply IH);
    try (destruct H as [H1 H2]; split; [exact H1|by apply IH]).
  - intros g Hg. specialize (H g Hg). destruct (f g l) as [[g' l']|]; [by apply IH|done].
  - intros g Hg. destruct (H g Hg) as [H1 H2]. split; [intros Hn; by apply IH, H1|intros j Hj; by apply IH, H2].
  - intros g Hg. by apply IH, H.
  - intros g Hg. by apply IH, H.
  - intros g. specialize (H g). destruct (f g l) as [[g' l']|]; [|done]. destruct H as (? & ? & H). by split_and!; try apply IH.
  - intros p ro ws H1 H2 H3. by apply IH, H.
  - intros g. by apply IH, H.
  - intros g. by apply IH, H.
Qed.

Lemma safe_n_le n m i c l h : (m <= n)%nat -> safe_n n i c l h -> safe_n m i c l h.
Proof. intros Hle. induction Hle as [|n Hle IH]; [done|]. intros H. by apply IH, safe_n_mono. Qed.

(** The mutex has been taken in order. *)
Definition entered i l p ro ws : Prop :=
  Inv p ro ws /\ ro !! i = Some (role l) /\ ws !! i = Some None.

(** A loop that is left only when its condition fails, and is back at its head
    in order: [while (b) { ...; pthread_cond_wait(cv, mutex); }] *)
Lemma safe_held_loop n i b s k l p ro ws :
  (forall p ro ws, Inv p ro ws -> Good ro) ->
  (forall m g ro ws, (m < n)%nat ->
     (forall p ro ws, entered i l p ro ws -> safe_n m i (While b s :: k) l (Some (p, ro, ws))) ->
     entered i l (prot g) ro ws -> b g l = true -> safe_n m i (s ++ While b s :: k) l (Some (prot g, ro, ws))) ->
  (forall m g ro ws, (m <= n)%nat -> entered i l (prot g) ro ws -> b g l = false -> safe_n m i k l (Some (prot g, ro, ws))) ->
  entered i l p ro ws -> safe_n n i (While b s :: k) l (Some (p, ro, ws)).
Proof.
  intros HG. revert p ro ws. induction n as [|n IH]; intros p ro ws Hs Hk E; [done|].
  assert (IH' : forall p ro ws, entered i l p ro ws -> safe_n n i (While b s :: k) l (Some (p, ro, ws))).
  { intros p' ro' ws' E'. apply IH; [|intros m g ro2 ws2 Hm; apply Hk; lia|exact E'].
    intros m g ro2 ws2 Hm. apply Hs. lia. }
  split; [by eapply HG, E|]. intros g <-. destruct (b g l) eqn:Hb; [|apply Hk; [lia|done|done]].
  apply Hs; [lia|exact IH'|exact E|exact Hb].
Qed.

(** [while (b) pthread_cond_wait(cv, mutex);] *)
Lemma safe_wait_while n i b cv k l p ro ws :
  (forall p ro ws, Inv p ro ws -> Good ro) ->
  (forall g ro ws, entered i l (prot g) ro ws -> b g l = true -> Inv (prot g) ro (<[i := Some (cv l)]> ws)) ->
  (forall m g ro ws, (m <= n)%nat -> entered i l (prot g) ro ws -> b g l = false -> safe_n m i k l (Some (prot g, ro, ws))) ->
  entered i l p ro ws -> safe_n n i (While b [Wait cv] :: k) l (Some (p, ro, ws)).
Proof.
  intros HG Hw. apply safe_held_loop; [exact HG|]. intros m g ro' ws' _ IH E Hb. simpl.
  destruct m as [|m]; [done|]. split; [by eapply HG, E|]. split; [by apply Hw|].
  destruct m as [|m]; [done|]. intros p2 ro2 ws2 H1 H2 H3. do 2 apply safe_n_mono. by apply IH.
Qed.

(** A loop, from the states [Q]. *)
Lemma safe_loop i c (Q : L -> held -> Prop) :
  (forall n, (forall m l h, (m < n)%nat -> Q l h -> safe_n m i c l h) -> forall l h, Q l h -> safe_n n i c l h) ->
  forall l h, Q l h -> safe i c l h.
Proof.
  intros H l h HQ n. revert l h HQ. induction n as [n IH] using lt_wf_ind. intros l h HQ. apply H; [|done].
  intros m l' h' Hm. by apply IH.
Qed.
End rule.

(** ** Computing runs *)

Section runs.
Context {G L : Type}.
Implicit Types (w : world G L).

Definition halted (t : thread G L) : bool :=
  match sleeping t, code t with Some _, _ | None, [] => true | None, _ => false end.

Lemma stuck_halted w : forallb halted (ths w) = true -> stuck w.
Proof.
  intros H i j. simpl. destruct (ths w !! i) as [t|] eqn:Hi; [|done]. simpl.
  rewrite forallb_forall in H. specialize (H t). unfold halted in H.
  destruct (sleeping t); [done|]. destruct (code t); [done|].
  discriminate H. by apply list_elem_of_In, list_elem_of_lookup_2 with i.
Qed.

Definition asleep_some w : bool := existsb (fun t => match sleeping t with Some _ => true | None => false end) (ths w).

(** A run to a state that a test picks out. *)
Lemma run_to (b : world G L -> bool) cs w0 :
  match steps cs w0 with Some w => b w | None => false end = true -> exists w, reachable w0 w /\ b w = true.
Proof. destruct (steps cs w0) as [w|] eqn:E; [|done]. intros H. exists w. split; [by exists cs|done]. Qed.

Lemma run_out l cs w0 :
  match steps cs w0 with Some w => bool_decide (out w = l) | None => false end = true -> exists w, reachable w0 w /\ out w = l.
Proof. intros H. destruct (run_to _ _ _ H) as (w & Hr & Hw%bool_decide_eq_true). by exists w. Qed.

(** A run to where everything has come to rest, with a thread asleep. *)
Lemma run_to_stuck cs w0 :
  match steps cs w0 with Some w => forallb halted (ths w) && asleep_some w | None => false end = true ->
  exists w, reachable w0 w /\ stuck w /\ exists t cv, t ∈ ths w /\ sleeping t = Some cv.
Proof.
  intros H. destruct (run_to (fun w => forallb halted (ths w) && asleep_some w) cs w0 H) as (w & Hr & [Hh Hs]%andb_true_iff).
  exists w. split; [done|]. split; [by apply stuck_halted|].
  apply existsb_exists in Hs as (t & Ht & Hs). destruct (sleeping t) as [cv|] eqn:Hcv; [|done].
  exists t, cv. split; [by apply list_elem_of_In|done].
Qed.
(** A schedule: always the first thread that can run. *)
Definition enabled w : option choice :=
  head (filter (fun c => is_Some (step c w)) (i ← seq 0 (length (ths w)); j ← seq 0 (length (ths w)); [Run i j])).
Fixpoint schedule (n : nat) w : list choice :=
  match n with
  | O => []
  | S n => match enabled w with
           | Some c => match step c w with Some w' => c :: schedule n w' | None => [] end
           | None => []
           end
  end.
End runs.

(** Thread [i] runs [n] statements. *)
Definition burst (n i : nat) : list choice := replicate n (Run i 0).

(** One statement at a time. *)
Ltac go := lazymatch goal with
  | |- safe_n _ _ _ _ _ ?n _ _ _ _ => destruct n as [|n]; [exact I|]; cbn [safe_n assign assign_local app]; simpl
  end.

(** The same where the mutex is held and [t] shows that the roles are good. *)
Tactic Notation "held" "by" tactic3(t) := go; (split; [solve [t]|]); try (intros ? ->); simpl.
