(* ===== verification/Condvar.v ===== *)
(** The condition variable programs of the course: src/condvar_basics,
    src/condvar_challenge, the readers and writers of src/activities, and
    exercises of src/exam2 and src/sample_exams/exam2.

    The shared variables are a record and a thread's own ones another.  A
    field [role] is auxiliary: what the thread is doing, set together with the
    counters.  [main] starts the threads and joins them. *)

From S2P Require Import Prelude CInt Pthread.

(** Threads of one kind run the same code with the same start. *)
Definition group {G L} (n : nat) (code : list (stmt G L)) (l : L) : list (list (stmt G L) * L) := replicate n (code, l).

(** ** condvar_challenge/threeJobs.c *)

Module Jobs.
Record G := { active_job : Z; active_count : Z }.
#[export] Instance eta : Eta G := fun g => Build_G (active_job g) (active_count g).
Record L := { type : Z; role : option Z }.
#[export] Instance eta_l : Eta L := fun l => Build_L (type l) (role l).

(** [carpenter], [painter] and [decorator] differ in the type and the texts. *)
Definition worker (starting finished : string) : list (stmt G L) := [
  Lock;
  While (fun g l => negb (type l =? active_job g) && negb (active_count g =? 0)) [Wait (fun _ => 0%nat)];
  Act (fun g l => Some (g.[active_job := type l], l));
  Act (fun g l => Some (g.[active_count := active_count g + 1], l.[role := Some (type l)]));
  Unlock;
  Print starting;
  Sleep;
  Lock;
  Print finished;
  Act (fun g l => Some (g.[active_count := active_count g - 1], l.[role := None]));
  If (fun g _ => active_count g =? 0) [
    assign (fun g => g.[active_job := 0]);
    Broadcast 0
  ] [];
  Unlock
].
Definition carpenter := worker "starting carpentry" "finished carpentry".
Definition painter := worker "starting painter" "finished painter".
Definition decorator := worker "starting decorator" "finished decorator".

Definition jobs_main (carp pain deco : nat) : world G L :=
  begin {| active_job := 0; active_count := 0 |}
    (group carp carpenter {| type := 1; role := None |} ++
     group pain painter {| type := 2; role := None |} ++
     group deco decorator {| type := 3; role := None |}).
End Jobs.

(** ** activities/readers_writers/reader_writer_final.c *)

Module ReadersWriters.
Record P := { writer_active : Z; writers_waiting : Z; readers_active : Z }.
#[export] Instance eta_p : Eta P := fun p => Build_P (writer_active p) (writers_waiting p) (readers_active p).
Record G := { data : Z; lk : P }.
#[export] Instance eta : Eta G := fun g => Build_G (data g) (lk g).
Inductive what := Idle | Reading | Queued | Writing.
#[export] Instance what_eq_dec : EqDecision what.
Proof. solve_decision. Defined.

(** Condition variables: 0 is [time_to_read], 1 [time_to_write]. *)
Definition locked (f : P -> P) (r : what -> what) : stmt G what := Act (fun g l => Some (g.[lk := f (lk g)], r l)).

Definition reader : list (stmt G what) := [
  While (fun _ _ => true) [
    Lock;
    While (fun g _ => negb (writer_active (lk g) =? 0) || negb (writers_waiting (lk g) =? 0)) [Wait (fun _ => 0%nat)];
    locked (fun p => p.[readers_active := readers_active p + 1]) (fun _ => Reading);
    Unlock;
    Print "Data read by the reader %d is %d";
    Sleep;
    Lock;
    locked (fun p => p.[readers_active := readers_active p - 1]) (fun _ => Idle);
    If (fun g _ => readers_active (lk g) =? 0) [Signal (fun _ _ => 1%nat)] [];
    Unlock;
    Sleep
  ]
].

Definition writer : list (stmt G what) := [
  While (fun _ _ => true) [
    Lock;
    locked (fun p => p.[writers_waiting := writers_waiting p + 1]) (fun _ => Queued);
    While (fun g _ => negb (readers_active (lk g) =? 0) || negb (writer_active (lk g) =? 0)) [Wait (fun _ => 1%nat)];
    locked (fun p => p.[writers_waiting := writers_waiting p - 1]) (fun r => r);
    locked (fun p => p.[writer_active := 1]) (fun _ => Writing);
    Unlock;
    Print "Writer %d starts to write..";
    assign (fun g => g.[data := data g + 1]);
    Sleep;
    Print "Writer %d finishes to write %d";
    Lock;
    locked (fun p => p.[writer_active := 0]) (fun _ => Idle);
    If (fun g _ => negb (writers_waiting (lk g) =? 0)) [Signal (fun _ _ => 1%nat)] [Broadcast 0];
    Unlock;
    Sleep
  ]
].

Definition rw_main (writers readers : nat) : world G what :=
  begin {| data := 0; lk := {| writer_active := 0; writers_waiting := 0; readers_active := 0 |} |}
    (group writers writer Idle ++ group readers reader Idle).
End ReadersWriters.

(** ** condvar_challenge/littleredhen.c *)

Module Hen.
(** The loaves that a thread has baked or eaten: auxiliary, counted under the
    mutex; [count] is [batch] or [numLoavesEaten]. *)
Inductive who := Baked (batches : Z) | Ate (loaves : Z).
Record L := { count : Z; role : who }.
#[export] Instance eta_l : Eta L := fun l => Build_L (count l) (role l).

(** The shared variable is [numLoaves]; 0 is [need_more_bread], 1 [bread_ready]. *)
Definition littleRedHenThread : list (stmt Z L) := [
  assign_local (fun l => l.[count := 1]);
  While (fun _ l => count l <=? 6) [
    Lock;
    While (fun g _ => 0 <? g) [Wait (fun _ => 0%nat)];
    Sleep;
    Act (fun g l => Some (g + 7, l.[role := match role l with Baked b => Baked (b + 1) | r => r end]));
    Print "A fresh batch of bread is ready.";
    Broadcast 1;
    Unlock;
    assign_local (fun l => l.[count := count l + 1])
  ];
  Print "I'm fed up with feeding you lazy animals! No more bread!";
  Lock;
  Broadcast 1;
  Unlock
].

Definition otherAnimalThread : list (stmt Z L) := [
  assign_local (fun l => l.[count := 0]);
  While (fun _ l => count l <? 14) [
    Lock;
    While (fun g _ => g =? 0) [
      Signal (fun _ _ => 0%nat);
      Wait (fun _ => 1%nat)
    ];
    If (fun g _ => g <=? 0) [Print "Hey, Little Red Hen, make some more bread!"] [];
    Act (fun g l => Some (g - 1, l.[role := match role l with Ate n => Ate (n + 1) | r => r end]));
    Unlock;
    Print "Mmm, this loaf is delicious.";
    assign_local (fun l => l.[count := count l + 1]);
    Sleep
  ];
  Print "I've had my fill of bread. Thanks, Little Red Hen!"
].

Definition hen_main : world Z L :=
  begin 0 (group 3 otherAnimalThread {| count := 0; role := Ate 0 |} ++
           group 1 littleRedHenThread {| count := 0; role := Baked 0 |}).
End Hen.

(** ** condvar_basics/inorder.c *)

Module InOrder.
Record L := { num : Z; passed : bool }.
#[export] Instance eta_l : Eta L := fun l => Build_L (num l) (passed l).

(** The shared variable is [done]. *)
Definition inorder_thread : list (stmt Z L) := [
  Lock;
  Print "%d wants to enter the critical section";
  While (fun g l => negb (g =? num l)) [Wait (fun _ => 0%nat)];
  Print "Thread %d in critical section";
  Act (fun g l => Some (g + 1, l.[passed := true]));
  Broadcast 0;
  Unlock;
  Print "%d is finished with the critical section"
].

Definition inorder_main (nums : list Z) : world Z L :=
  begin 1 ((fun n => (inorder_thread, {| num := n; passed := false |})) <$> nums).
End InOrder.

(** ** condvar_basics/max.c, tunnel.c and rooms.c *)

Module Max.
(** The shared variable is [number]; a thread's own one, auxiliary, says
    whether it is in the critical section. *)
Definition max_thread : list (stmt Z bool) := [
  Lock;
  assign (fun number => number + 1);
  Print "%c wants to enter the critical section";
  While (fun number _ => 3 <? number) [
    Print "%c is waiting to enter the critical section";
    Wait (fun _ => 0%nat)
  ];
  assign_local (fun _ => true);
  Print "%c is in the critical section";
  Sleep;
  Act (fun number _ => Some (number - 1, false));
  Broadcast 0;
  Unlock;
  Print "%c has left the critical section"
].
Definition max_main (n : nat) : world Z bool := begin 0 (group n max_thread false).
End Max.

Module Tunnel.
Record G := { count_ew : Z; count_we : Z; amb : Z; amb_waiting : Z }.
#[export] Instance eta : Eta G := fun g => Build_G (count_ew g) (count_we g) (amb g) (amb_waiting g).

(** Condition variables: 0 is [cond_ew], 1 [cond_we], 2 [cond_amb]; the own
    variable says whether the vehicle is in the tunnel. *)
Definition ewcar : list (stmt G bool) := [
  Lock;
  While (fun g _ => (3 <=? count_ew g) || (0 <? amb g) || (0 <? amb_waiting g)) [
    Print "car (%d) waiting to enter tunnel in EW direction have %d car in ew, %d amb, %d amb_waiting";
    Wait (fun _ => 0%nat)
  ];
  Act (fun g _ => Some (g.[count_ew := count_ew g + 1], true));
  Print "Car (%d) entered tunnel in EW direction...";
  Sleep;
  Act (fun g _ => Some (g.[count_ew := count_ew g - 1], false));
  Signal (fun _ _ => 0%nat);
  Unlock;
  Print "Car (%d) exited tunnel in EW direction..."
].
Definition wecar : list (stmt G bool) := [
  Lock;
  While (fun g _ => (1 <=? count_we g) || (0 <? amb g) || (0 <? amb_waiting g)) [
    Print "car (%d) waiting to enter tunnel in WE direction have %d car in we, %d amb, %d amb_waiting";
    Wait (fun _ => 1%nat)
  ];
  Act (fun g _ => Some (g.[count_we := count_we g + 1], true));
  Print "Car (%d) entered tunnel in WE direction...";
  Sleep;
  Act (fun g _ => Some (g.[count_we := count_we g - 1], false));
  Signal (fun _ _ => 1%nat);
  Unlock;
  Print "Car (%d) exited tunnel in WE direction..."
].
(** [direction] is always [EW_DIRECTION]. *)
Definition ambulance : list (stmt G bool) := [
  Lock;
  assign (fun g => g.[amb_waiting := amb_waiting g + 1]);
  While (fun g _ => (4 <=? amb g) || ((3 <=? count_ew g) && (1 <=? count_we g))) [
    Print "amb (%d) waiting to enter tunnel in EW direction";
    Wait (fun _ => 2%nat)
  ];
  assign (fun g => g.[amb_waiting := amb_waiting g - 1]);
  Act (fun g _ => Some (g.[amb := amb g + 1], true));
  Broadcast 2;
  Broadcast 0;
  Broadcast 1;
  Print "Ambulance %d entered the tunnel in EW direction";
  Sleep;
  Print "Ambulance %d exited the tunnel in EW direction";
  Act (fun g _ => Some (g.[amb := amb g - 1], false));
  Broadcast 2;
  Broadcast 0;
  Broadcast 1;
  Unlock
].
Definition empty : G := {| count_ew := 0; count_we := 0; amb := 0; amb_waiting := 0 |}.
Definition tunnel_main (ew we am : nat) : world G bool :=
  begin empty (group ew ewcar false ++ group we wecar false ++ group am ambulance false).
End Tunnel.

Module Rooms.
Record G := { num_left_customers : Z; first_room : Z; second_room : Z; waiting_room : Z }.
#[export] Instance eta : Eta G := fun g => Build_G (num_left_customers g) (first_room g) (second_room g) (waiting_room g).

(** The own variable says whether the customer is in one of the rooms. *)
Definition served : list (stmt G bool) := [
  assign_local (fun _ => true);
  Sleep;
  Act (fun g _ => Some (g.[second_room := second_room g - 1], false));
  Signal (fun _ _ => 0%nat);
  Unlock;
  Print "[Customer %ld] Left second room..."
].
Definition customer : list (stmt G bool) := [
  Lock;
  Print "[Customer %ld] Just arrived at first room...";
  While (fun g _ => 5 <=? first_room g) [Wait (fun _ => 0%nat)];
  Act (fun g _ => Some (g.[first_room := first_room g + 1], true));
  Print "[Customer %ld] Entered first room...";
  Sleep;
  Act (fun g _ => Some (g.[first_room := first_room g - 1], false));
  Signal (fun _ _ => 0%nat);
  Unlock;
  Print "[Customer %ld] Left first room...";
  Lock;
  Print "[Customer %ld] Entered second room...";
  If (fun g _ => second_room g <? 2)
    (assign (fun g => g.[second_room := second_room g + 1]) :: served)
    [If (fun g _ => waiting_room g <? 2)
       ([assign (fun g => g.[waiting_room := waiting_room g + 1]);
         While (fun g _ => 2 <=? second_room g) [Wait (fun _ => 0%nat)];
         assign (fun g => g.[waiting_room := waiting_room g - 1])] ++ served)
       [assign (fun g => g.[num_left_customers := num_left_customers g + 1]);
        Print "[Customer %ld] Left unhappy because second room is full...";
        Unlock]]
].
Definition empty : G := {| num_left_customers := 0; first_room := 0; second_room := 0; waiting_room := 0 |}.
Definition rooms_main (n : nat) : world G bool := begin empty (group n customer false).
End Rooms.

(** ** exam2/problem3.c *)

Module Requests.
Record G := { prepo : Z; isdv : Z; total : Z }.
#[export] Instance eta : Eta G := fun g => Build_G (prepo g) (isdv g) (total g).

(** Condition variables: 0 is [cvre], 1 [cvwo]; the own variable says whether
    the request is being preprocessed. *)
Definition request_fn : list (stmt G bool) := [
  Print "Request [ %d ] arrived...";
  Lock;
  While (fun g _ => 2 <=? prepo g) [Wait (fun _ => 0%nat)];
  Act (fun g _ => Some (g.[prepo := prepo g + 1], true));
  Unlock;
  Sleep;
  Print "Request [ %d ] finished preprocessing...";
  Lock;
  Act (fun g _ => Some (g.[prepo := prepo g - 1], false));
  If (fun g _ => prepo g <? 2) [Broadcast 0] [];
  assign (fun g => g.[isdv := isdv g + 1]);
  Broadcast 1;
  Unlock
].
Definition worker_fn : list (stmt G bool) := [
  Print "Worker thread started...";
  While (fun g _ => total g <? 10) [
    Lock;
    While (fun g _ => isdv g =? 0) [Wait (fun _ => 1%nat)];
    assign (fun g => g.[isdv := isdv g - 1]);
    Unlock;
    Sleep;
    Print "Worker thread delivered a new job, total deliveries: %d";
    Lock;
    assign (fun g => g.[total := total g + 1]);
    Unlock
  ];
  Print "Worker thread delivered all jobs..."
].
Definition idle : G := {| prepo := 0; isdv := 0; total := 0 |}.
Definition requests_main (workers requests : nat) : world G bool :=
  begin idle (group workers worker_fn false ++ group requests request_fn false).
End Requests.

(** ** condvar_challenge/band.c *)

Module Band.
Record G := { waiting : list Z; working : list Z; use : bool; band_members : Z }.
#[export] Instance eta : Eta G := fun g => Build_G (waiting g) (working g) (use g) (band_members g).

(** 0 is [DRUM], 1 [SING], 2 [GUIT]. *)
Definition at_kind (k : nat) (a : list Z) : Z := default 0 (a !! k).
Definition add_kind (k : nat) (d : Z) (a : list Z) : list Z := alter (Z.add d) k a.

(** [!waiting[k] > 0] is [(!waiting[k]) > 0]. *)
Definition friend : list (stmt G nat) := [
  Print "%s arrived";
  Lock;
  Act (fun g k => Some (g.[waiting := add_kind k 1 (waiting g)], k));
  While (fun g k => (at_kind 0 (waiting g) =? 0) || (at_kind 1 (waiting g) =? 0) || (at_kind 2 (waiting g) =? 0) ||
      negb (at_kind k (working g) =? 0)) [Wait (fun _ => 0%nat)];
  Act (fun g k => Some (g.[working := add_kind k 1 (working g)], k));
  assign (fun g => g.[band_members := band_members g + 1]);
  If (fun g _ => negb (use g)) [assign (fun g => g.[use := true]); Broadcast 0] [];
  Unlock;
  Print "%s playing";
  Sleep;
  Print "%s finished playing";
  Lock;
  Act (fun g k => Some (g.[working := add_kind k (-1) (working g)], k));
  Act (fun g k => Some (g.[waiting := add_kind k (-1) (waiting g)], k));
  assign (fun g => g.[band_members := band_members g - 1]);
  If (fun g _ => band_members g =? 0) [assign (fun g => g.[use := false]); Broadcast 0] [];
  Unlock
].
Definition band_main (drummers singers guitarists : nat) : world G nat :=
  begin {| waiting := [0; 0; 0]; working := [0; 0; 0]; use := false; band_members := 0 |}
    (group drummers friend 0%nat ++ group singers friend 1%nat ++ group guitarists friend 2%nat).
End Band.

(** ** condvar_challenge/priority.c *)

Module Priority.
Record G := { use : bool; waiting : list Z }.
#[export] Instance eta : Eta G := fun g => Build_G (use g) (waiting g).
(** [read] is the value of [waiting[i]] when it was last read. *)
Record L := { num : nat; i : Z; read : Z }.
#[export] Instance eta_l : Eta L := fun l => Build_L (num l) (i l) (read l).

(** There is no [waiting[i]] below 0. *)
Definition read_waiting : stmt G L := Act (fun g l =>
  if i l <? 0 then None else x ← waiting g !! Z.to_nat (i l); Some (g, l.[read := x])).

Definition priority_thread : list (stmt G L) := [
  Print "%d wants to enter the critical section";
  Lock;
  Act (fun g l => Some (g.[waiting := alter (Z.add 1) (num l - 1)%nat (waiting g)], l));
  While (fun g _ => use g) [Wait (fun l => (num l - 1)%nat)];
  assign (fun g => g.[use := true]);
  Unlock;
  Print "%d has entered the critical section";
  Sleep;
  Print "%d is finished with the critical section";
  Lock;
  Act (fun g l => Some (g.[waiting := alter (Z.add (-1)) (num l - 1)%nat (waiting g)], l));
  read_waiting;
  While (fun _ l => read l =? 0) [
    assign_local (fun l => l.[i := i l - 1]);
    read_waiting
  ];
  assign (fun g => g.[use := false]);
  Signal (fun _ l => Z.to_nat (i l));
  Unlock
].
Definition priority_main (nums : list nat) : world G L :=
  begin {| use := false; waiting := [0; 0; 0; 0; 0; 0] |} ((fun n => (priority_thread, {| num := n; i := 5; read := 0 |})) <$> nums).
End Priority.

(** ** sample_exams/exam2/shower.c *)

Module Shower.
Record G := { waiting : Z; wash : Z }.
#[export] Instance eta : Eta G := fun g => Build_G (waiting g) (wash g).

(** The own variable is false behind the [break]. *)
Definition shower_thread : list (stmt G bool) := [
  Print "thread %d wants to use the shower";
  Lock;
  assign (fun g => g.[waiting := waiting g + 1]);
  While (fun g _ => 0 <? wash g) [
    Print "we have %d waiting threads";
    Wait (fun _ => 0%nat)
  ];
  assign (fun g => g.[waiting := waiting g - 1]);
  Unlock;
  Print "thread %d is using shower";
  assign (fun g => g.[wash := wash g + 1]);
  While (fun _ go_on => go_on) [
    Sleep;
    If (fun g _ => waiting g =? 0)
      [Print "thread %d decides to stay in the shower a little longer"]
      [Lock;
       Print "thread %d is finished with shower";
       assign (fun g => g.[wash := wash g - 1]);
       Signal (fun _ _ => 0%nat);
       Unlock;
       assign_local (fun _ => false)]
  ]
].
Definition shower_main (n : nat) : world G bool := begin {| waiting := 0; wash := 0 |} (group n shower_thread true).
End Shower.

(** ** sample_exams/exam2/stoplight.c *)

Module Stoplight.
Record G := { light : Z; nscar : Z; ewcar : Z }.
#[export] Instance eta : Eta G := fun g => Build_G (light g) (nscar g) (ewcar g).

(** Condition variables: 0 is [cvns], 1 [cvew], 2 [lightcv]. *)
Definition north_south : list (stmt G unit) := [
  Print "northsouth car nearing intersection";
  Lock;
  While (fun g _ => negb (light g =? 1)) [Wait (fun _ => 0%nat)];
  assign (fun g => g.[nscar := nscar g + 1]);
  Unlock;
  Print "northsouth car entering intersection";
  Sleep;
  Print "northsouth car leaving intersection";
  Lock;
  assign (fun g => g.[nscar := nscar g - 1]);
  If (fun g _ => (nscar g =? 0) && (light g =? 0)) [Signal (fun _ _ => 2%nat)] [];
  Unlock
].
Definition east_west : list (stmt G unit) := [
  Print "eastwest car nearing intersection";
  Lock;
  While (fun g _ => negb (light g =? 1)) [Wait (fun _ => 0%nat)];
  assign (fun g => g.[ewcar := ewcar g + 1]);
  Unlock;
  Print "eastwest car entering intersection";
  Sleep;
  Print "eastwest car leaving intersection";
  Lock;
  assign (fun g => g.[ewcar := ewcar g - 1]);
  If (fun g _ => (ewcar g =? 0) && (light g =? 0)) [Signal (fun _ _ => 2%nat)] [];
  Unlock
].
Definition stoplight : list (stmt G unit) := [
  While (fun _ _ => true) [
    Sleep;
    Print "yellow";
    Lock;
    assign (fun g => g.[light := 0]);
    While (fun g _ => 0 <? nscar g) [Wait (fun _ => 2%nat)];
    Print "green in eastwest direction";
    assign (fun g => g.[light := 2]);
    Broadcast 1;
    Unlock;
    Sleep;
    Print "yellow";
    Lock;
    assign (fun g => g.[light := 0]);
    While (fun g _ => 0 <? ewcar g) [Wait (fun _ => 2%nat)];
    Print "green in northsouth direction";
    assign (fun g => g.[light := 1]);
    Broadcast 0;
    Unlock
  ]
].
Definition stoplight_main (ns ew : nat) : world G unit :=
  begin {| light := 1; nscar := 0; ewcar := 0 |}
    (group 1 stoplight tt ++ group ns north_south tt ++ group ew east_west tt).
End Stoplight.

(** ** exam2/problem2.c *)

Module ThreeTypes.
Record G := { nowtype : Z; activity : Z; waiting : list Z }.
#[export] Instance eta : Eta G := fun g => Build_G (nowtype g) (activity g) (waiting g).
(** [waiting] holds [waitingA], [waitingB] and [waitingC]; [tmp] is what was
    read of one of them: the increment has no lock around it. *)
Record L := { tmp : Z }.

Definition at_type (k : nat) (g : G) : Z := default 0 (waiting g !! k).

(** [threadA], [threadB] and [threadC]: the type from 0, whom to look at when
    the last thread leaves, and whom to wake if nobody waits there. *)
Definition types_thread (k first second : nat) : list (stmt G L) := [
  Print "Thread [%d] started...";
  Act (fun g _ => Some (g, {| tmp := at_type k g |}));
  Act (fun g l => Some (g.[waiting := <[k := tmp l + 1]> (waiting g)], l));
  Lock;
  While (fun g _ => negb (nowtype g =? Z.of_nat k + 1) && negb (nowtype g =? 0)) [Wait (fun _ => k)];
  assign (fun g => g.[nowtype := Z.of_nat k + 1]);
  assign (fun g => g.[waiting := alter (Z.add (-1)) k (waiting g)]);
  assign (fun g => g.[activity := activity g + 1]);
  Unlock;
  Print "Thread [%d] hanging out in critical section.";
  Sleep;
  Print "Thread [%d] has left the critical section.";
  Lock;
  assign (fun g => g.[activity := activity g - 1]);
  If (fun g _ => activity g =? 0) [
    assign (fun g => g.[nowtype := 0]);
    If (fun g _ => 0 <? at_type first g) [Broadcast first] [Broadcast second]
  ] [];
  Unlock
].
Definition threadA := types_thread 0 1 2.
Definition threadB := types_thread 1 0 2.
Definition threadC := types_thread 2 0 1.

Definition types_main (a b c : nat) : world G L :=
  begin {| nowtype := 0; activity := 0; waiting := [0; 0; 0] |}
    (group a threadA {| tmp := 0 |} ++ group b threadB {| tmp := 0 |} ++ group c threadC {| tmp := 0 |}).
End ThreeTypes.
