(* ===== verification/CondvarThm.v ===== *)
(** What the programs of [Condvar] guarantee, in every interleaving and with
    spurious wakeups; and runs in which some of them go wrong. *)

From S2P Require Import Prelude CInt Pthread PthreadThm Condvar.

Lemma elem_of_insert {A} (xs : list A) i a b x : xs !! i = Some a -> x ∈ <[i := b]> xs -> x = b \/ x ∈ xs.
Proof.
  intros Hi [j Hj]%list_elem_of_lookup_1. apply list_lookup_insert_Some in Hj as [(_ & -> & _)|[_ Hj]]; [by left|right].
  by eapply list_elem_of_lookup_2.
Qed.

(** A thread that sleeps now slept before. *)
Lemma woken_elem ws' ws cv : woken ws' ws -> Some cv ∈ ws' -> Some cv ∈ ws.
Proof.
  intros Hw [j Hj]%list_elem_of_lookup_1. destruct (Forall2_lookup_l _ _ _ _ _ Hw Hj) as (b & Hb & [|<-]); [done|].
  by eapply list_elem_of_lookup_2.
Qed.

Lemma woken_lookup ws' ws j cv : woken ws' ws -> ws' !! j = Some (Some cv) -> ws !! j = Some (Some cv).
Proof. intros Hw Hj. destruct (Forall2_lookup_l _ _ _ _ _ Hw Hj) as (b & Hb & [|<-]); done. Qed.

Lemma woken_all ws cv : woken ((fun a => if decide (a = Some cv) then None else a) <$> ws) ws.
Proof. induction ws as [|a ws IH]; [constructor|]. csimpl. constructor; [|done]. case_decide; [by left|by right]. Qed.

(** The role [a] of all sleepers, kept when one thread goes to sleep in that
    role, and when one that is awake changes its role. *)
Definition sleepers {A} (P : nat -> A -> Prop) (ro : list A) (ws : list (option nat)) : Prop :=
  forall j cv, ws !! j = Some (Some cv) -> exists a, ro !! j = Some a /\ P cv a.

Lemma sleepers_woken {A} P (ro : list A) ws ws' : woken ws' ws -> sleepers P ro ws -> sleepers P ro ws'.
Proof. intros Hw H j cv Hj. eapply H, woken_lookup; eauto. Qed.

Lemma sleepers_sleep {A} P (ro : list A) ws i cv a :
  sleepers P ro ws -> ro !! i = Some a -> P cv a -> sleepers P ro (<[i := Some cv]> ws).
Proof. intros H Hi HP j cv' [(<- & [= ->] & _)|[_ Hj]]%list_lookup_insert_Some; [by exists a|by apply H]. Qed.

Lemma sleepers_role {A} P (ro : list A) ws i b : sleepers P ro ws -> ws !! i = Some None -> sleepers P (<[i := b]> ro) ws.
Proof.
  intros H Hi j cv Hj. destruct (decide (i = j)) as [->|]; [congruence|]. rewrite list_lookup_insert_ne by done. by apply H.
Qed.

Lemma sleepers_wake_all {A} P (ro : list A) ws cv :
  sleepers P ro ws -> sleepers P ro ((fun a => if decide (a = Some cv) then None else a) <$> ws).
Proof.
  intros H j c Hj. apply list_lookup_fmap_Some in Hj as (a & Ha & Hj). case_decide; [done|]. subst a. by apply H.
Qed.

(** No thread sleeps when all that are awake are done and all that sleep do so
    for one that is neither. *)
Lemma all_awake {G L R} (role : L -> R) (w : world G L) (busy : R -> Prop) (P : nat -> R -> Prop) :
  (forall t, t ∈ ths w -> sleeping t = None -> code t = [] /\ ~ busy (role (loc t))) ->
  sleepers P (roles role w) (waits w) -> (forall cv a, P cv a -> ~ busy a) ->
  (forall cv, Some cv ∈ waits w -> exists a, a ∈ roles role w /\ busy a) -> finished w.
Proof.
  intros Hdone Hs Hidle Hw t Ht. destruct (sleeping t) as [cv|] eqn:Hst; [|by apply Hdone].
  exfalso. destruct (Hw cv) as (a & Ha & Hb); [apply list_elem_of_fmap; by exists t|].
  apply list_elem_of_lookup_1 in Ha as [j Hj]. apply list_lookup_fmap_Some in Hj as (u & -> & Hu).
  destruct (sleeping u) as [c|] eqn:Hsu.
  - destruct (Hs j c) as (a & Ha & HP); [unfold waits; by rewrite list_lookup_fmap, Hu, <- Hsu|].
    unfold roles in Ha. rewrite list_lookup_fmap, Hu in Ha. injection Ha as <-. by apply (Hidle c _ HP).
  - apply list_elem_of_lookup_2 in Hu. by apply (Hdone u Hu Hsu).
Qed.

Lemma group_elem {G L} n (code : list (stmt G L)) l p : p ∈ group n code l -> p = (code, l).
Proof. by intros [-> _]%elem_of_replicate. Qed.

(** ** threeJobs *)

Module JobsThm.
Import Jobs.
Definition is_busy (r : option Z) : bool := bool_decide (is_Some r).
Definition one_kind (ro : list (option Z)) : Prop := forall k k', Some k ∈ ro -> Some k' ∈ ro -> k = k'.
Record Inv (g : G) (ro : list (option Z)) (ws : list (option nat)) : Prop := {
  i_count : active_count g = countb is_busy ro;
  i_job : forall k, Some k ∈ ro -> active_job g = k;
  i_wait : forall cv, Some cv ∈ ws -> cv = 0%nat /\ active_count g <> 0;
  i_idle : sleepers (fun _ r => r = None) ro ws;
}.
Definition Fin (r : option Z) : Prop := r = None.

Lemma jobs_woken g ro ws ws' : woken ws' ws -> Inv g ro ws -> Inv g ro ws'.
Proof. intros Hw [H1 H2 H3 H4]. split; [done|done| |by eapply sleepers_woken]. intros cv Hcv. eapply H3, woken_elem; eauto. Qed.

Lemma inv_good g ro ws : Inv g ro ws -> one_kind ro.
Proof. intros I k k' Hk Hk'. rewrite <- (i_job _ _ _ I k Hk). by apply (i_job _ _ _ I). Qed.

Lemma worker_safe i ty st fi :
  safe role (fun g => g) Inv one_kind Fin i (worker st fi) {| type := ty; role := None |} None.
Proof.
  intros n. unfold worker. go. intros g ro ws I Hi Hwi. apply safe_wait_while; [exact inv_good| | |by split_and!].
  - clear. intros g ro ws (I & Hi & Hwi) Hb. destruct I as [H1 H2 H3 H4]. split; [done|done| |by eapply sleepers_sleep].
    intros cv [[= ->]|Hin]%(elem_of_insert _ _ _ _ _ Hwi); [split; [done|lia]|by eapply H3].
  - intros m. clear. intros g ro ws _ (I & Hi & Hwi) Hb. simpl in Hi, Hb.
    assert (Hjob : forall k, Some k ∈ ro -> k = ty).
    { intros k Hk. rewrite <- (i_job _ _ _ I k Hk). pose proof (countb_pos is_busy ro _ Hk eq_refl).
      rewrite <- (i_count _ _ _ I) in *. lia. }
    assert (Henter : Inv (g.[active_job := ty].[active_count := active_count g + 1]) (<[i := Some ty]> ro) ws).
    { split; simpl.
      - rewrite (countb_insert _ _ _ None) by done. rewrite (i_count _ _ _ I). cbn. lia.
      - intros k [[= ->]|Hk]%(elem_of_insert _ _ _ _ _ Hi); [done|symmetry; by apply Hjob].
      - intros cv Hcv. destruct (i_wait _ _ _ I cv Hcv) as [-> _]. split; [done|].
        rewrite (i_count _ _ _ I). pose proof (countb_nonneg is_busy ro). lia.
      - by apply sleepers_role; [apply I|]. }
    held by (by eapply inv_good). held by (rewrite (list_insert_id ro i None Hi); by eapply inv_good).
    rewrite (list_insert_id ro i None Hi). held by (by eapply inv_good). split; [exact Henter|].
    go. go. go. clear. intros g ro ws I Hi Hwi. simpl in Hi.
    held by (by eapply inv_good). held by (by eapply inv_good).
    assert (Hleave : forall g', active_job g' = active_job g -> active_count g' = active_count g - 1 ->
      one_kind (<[i := None]> ro) /\ countb is_busy (<[i := None]> ro) = active_count g').
    { intros g' H1 H2. split.
      - intros k k' [|Hk]%(elem_of_insert _ _ _ _ _ Hi) [|Hk']%(elem_of_insert _ _ _ _ _ Hi); try done. by apply (inv_good _ _ _ I).
      - rewrite (countb_insert _ _ _ (Some ty)) by done. rewrite H2, (i_count _ _ _ I). cbn. lia. }
    destruct (Hleave (g.[active_count := active_count g - 1]) ltac:(done) ltac:(done)) as [HG Hc]. simpl in Hc.
    held by (exact HG). destruct (Z.eqb_spec (active_count g - 1) 0) as [Hz|Hz]; simpl.
    + held by (exact HG). rewrite list_insert_insert_eq. held by (exact HG). held by (exact HG). split; [|by go].
      split; simpl.
      * done.
      * intros k Hk. exfalso. rewrite Hz in Hc. pose proof (countb_zero _ _ _ Hc Hk) as Hf. done.
      * intros cv (a & Ha & Hin)%list_elem_of_fmap. case_decide; [done|]. subst a.
        destruct (i_wait _ _ _ I cv Hin) as [-> _]. done.
      * by apply sleepers_wake_all, sleepers_role; [apply I|].
    + held by (exact HG). split; [|by go]. split; simpl.
      * done.
      * intros k [|Hk]%(elem_of_insert _ _ _ _ _ Hi); [done|]. by apply (i_job _ _ _ I).
      * intros cv Hcv. split; [by apply (i_wait _ _ _ I cv Hcv)|done].
      * by apply sleepers_role; [apply I|].
Qed.

Lemma jobs_main_elem carp pain deco p :
  p ∈ ((group carp carpenter {| type := 1; role := None |} ++ group pain painter {| type := 2; role := None |}) ++
       group deco decorator {| type := 3; role := None |}) ->
  exists st fi ty, p = (worker st fi, {| type := ty; role := None |}).
Proof.
  rewrite !elem_of_app. intros [[H%group_elem|H%group_elem]|H%group_elem]; rewrite H; by do 3 eexists.
Qed.

(** threeJobs.c.  With any numbers of carpenters, painters and decorators,
    in every interleaving and whenever threads wake up, all that are at work do
    the same kind of job, and nobody is left waiting: when no thread can go on,
    all have finished. *)
Theorem threeJobs_one_kind carp pain deco w :
  reachable (jobs_main carp pain deco) w ->
  ub w = false /\ one_kind (roles role w) /\ (stuck w -> finished w).
Proof.
  unfold jobs_main. rewrite app_assoc. set (cl := (_ ++ _) ++ _). intros Hr.
  assert (Hcl : forall p, p ∈ cl -> role p.2 = None) by (intros p (st & fi & ty & ->)%jobs_main_elem; done).
  assert (Hro : forall k, Some k ∈ (fun p => role p.2) <$> cl -> False).
  { intros k (p & Hp & Hin)%list_elem_of_fmap. by rewrite Hcl in Hp. }
  assert (Hws : forall cv : nat, Some cv ∈ (fun _ => None) <$> cl -> False) by (intros cv (p & Hp & _)%list_elem_of_fmap; done).
  destruct (monitor_rule role (fun g => g) Inv one_kind Fin jobs_woken {| active_job := 0; active_count := 0 |} cl w) with (4 := Hr) as (H1 & _ & H2 & H3).
  - split; simpl.
    + clear Hro Hws Hr. induction cl as [|p cl IH]; [done|]. csimpl. rewrite Hcl by left. rewrite <- IH; [done|].
      intros q Hq. apply Hcl. by right.
    + intros k Hk. by destruct (Hro k).
    + intros cv Hcv. by destruct (Hws cv).
    + intros j cv Hj%list_elem_of_lookup_2. by destruct (Hws cv).
  - intros k k' Hk. by destruct (Hro k).
  - intros i p Hi%list_elem_of_lookup_2. destruct (jobs_main_elem _ _ _ _ Hi) as (st & fi & ty & ->). apply worker_safe.
  - split; [done|]. split; [done|]. intros St. destruct (H3 St) as [I Hd].
    apply (all_awake role w (fun r => r <> None) (fun _ r => r = None)); [|apply I|naive_solver|].
    + intros t Ht Hs. destruct (Hd t Ht Hs) as [? Hf]. split; [done|]. intros Hb. by apply Hb, Hf.
    + intros cv Hcv. destruct (i_wait _ _ _ I cv Hcv) as [_ Hc]. rewrite (i_count _ _ _ I) in Hc.
      pose proof (countb_nonneg is_busy (roles role w)). destruct (countb_ex is_busy (roles role w)) as (a & Ha & Hb); [lia|].
      exists a. split; [done|]. intros ->. done.
Qed.

(** Two carpenters and a painter, until nothing can go on. *)
Lemma threeJobs_one_kind_witness : exists w, reachable (jobs_main 2 1 0) w /\ forallb halted (ths w) = true /\
  ub w = false /\ one_kind (roles role w) /\ (stuck w -> finished w).
Proof.
  destruct (run_to (fun w => forallb halted (ths w)) (schedule 100 (jobs_main 2 1 0)) (jobs_main 2 1 0)) as (w & Hr & Hw);
    [vm_compute; reflexivity|].
  exists w. split; [exact Hr|]. split; [exact Hw|]. exact (threeJobs_one_kind 2 1 0 w Hr).
Defined.
End JobsThm.

(** ** Readers and writers *)

Module ReadersWritersThm.
Import ReadersWriters.
Definition plays (r x : what) : bool :=
  match r, x with
  | Idle, Idle | Reading, Reading | Queued, Queued | Writing, Writing => true
  | _, _ => false
  end.
Abbreviation cnt r ro := (countb (plays r) ro).

Definition exclusive (ro : list what) : Prop := cnt Writing ro <= 1 /\ (cnt Writing ro = 0 \/ cnt Reading ro = 0).
Record Core (p : P) (ro : list what) (ws : list (option nat)) : Prop := {
  c_readers : readers_active p = cnt Reading ro;
  c_queued : writers_waiting p = cnt Queued ro;
  c_writers : writer_active p = cnt Writing ro;
  c_excl : exclusive ro;
  c_sleep : sleepers (fun cv r => cv = 0%nat /\ r = Idle \/ cv = 1%nat /\ r = Queued) ro ws;
}.
(** Readers sleep while there are writers; writers sleep while the data is in
    use, or when one of them has been woken up for all. *)
Definition read_ok (p : P) (ws : list (option nat)) : Prop :=
  Some 0%nat ∈ ws -> writer_active p <> 0 \/ writers_waiting p <> 0.
Definition write_ok (p : P) (ro : list what) (ws : list (option nat)) : Prop :=
  Some 1%nat ∈ ws -> writer_active p <> 0 \/ readers_active p <> 0 \/
    exists j, ro !! j = Some Queued /\ ws !! j = Some None.
Definition Inv p ro ws : Prop := Core p ro ws /\ read_ok p ws /\ write_ok p ro ws.
Abbreviation rw_safe := (safe_n (fun r : what => r) lk Inv exclusive (fun _ => False)).

Lemma rw_woken p ro ws ws' : woken ws' ws -> Inv p ro ws -> Inv p ro ws'.
Proof.
  intros Hw ([C1 C2 C3 C4 C5] & Hr & Hwr). split; [|split].
  - split; try done. by eapply sleepers_woken.
  - intros H. eapply Hr, woken_elem; eauto.
  - intros H. destruct Hwr as [|[|(j & Hj & Hwj)]]; [eapply woken_elem; eauto|by left|by right; left|].
    right. right. exists j. split; [done|]. destruct (Forall2_lookup_r _ _ _ _ _ Hw Hwj) as (b & Hb & [-> | ->]); done.
Qed.

Lemma inv_excl p ro ws : Inv p ro ws -> exclusive ro.
Proof. intros [C _]. apply C. Qed.

(** How the counts change with one role. *)
Lemma cnt_insert ro i a b r : ro !! i = Some a -> cnt r (<[i := b]> ro) = cnt r ro - Z.b2z (plays r a) + Z.b2z (plays r b).
Proof. apply countb_insert. Qed.

Lemma core_change p p' ro ws i a b :
  Core p ro ws -> ro !! i = Some a -> ws !! i = Some None ->
  readers_active p' = readers_active p - Z.b2z (plays Reading a) + Z.b2z (plays Reading b) ->
  writers_waiting p' = writers_waiting p - Z.b2z (plays Queued a) + Z.b2z (plays Queued b) ->
  writer_active p' = writer_active p - Z.b2z (plays Writing a) + Z.b2z (plays Writing b) ->
  exclusive (<[i := b]> ro) -> Core p' (<[i := b]> ro) ws.
Proof.
  intros C Hi Hwi H1 H2 H3 He. split; try done; rewrite ?(cnt_insert _ _ a) by done; rewrite <- ?(c_readers _ _ _ C), <- ?(c_queued _ _ _ C), <- ?(c_writers _ _ _ C); try done.
  by apply sleepers_role; [apply C|].
Qed.

(** The roles stay exclusive when a thread leaves the data, and when it enters
    as the code lets it. *)
Lemma excl_change p ro ws i a b :
  Core p ro ws -> ro !! i = Some a -> a <> Writing \/ b <> Reading ->
  (b = Reading -> writer_active p = 0) -> (b = Writing -> writer_active p = 0 /\ readers_active p = 0) ->
  exclusive (<[i := b]> ro).
Proof.
  intros [C1 C2 C3 [C4 C4'] C5] Hi Hab Hr Hw. unfold exclusive. rewrite !(cnt_insert _ _ a) by done.
  pose proof (countb_nonneg (plays Reading) ro). pose proof (countb_nonneg (plays Writing) ro).
  assert (Ha : cnt a ro > 0).
  { pose proof (countb_pos (plays a) ro a (list_elem_of_lookup_2 _ _ _ Hi)) as Hp.
    specialize (Hp ltac:(by destruct a)). lia. }
  destruct a, b; cbn in *; try lia; try (by destruct Hab); try (specialize (Hr eq_refl)); try (specialize (Hw eq_refl)); lia.
Qed.

(** A signal to the writers makes up for whatever they slept for. *)
Lemma write_ok_signal p ro ws j :
  sleepers (fun cv r => cv = 0%nat /\ r = Idle \/ cv = 1%nat /\ r = Queued) ro ws ->
  ws !! j = Some (Some 1%nat) -> write_ok p ro (<[j := None]> ws).
Proof.
  intros Hs Hj _. right. right. exists j. destruct (Hs j _ Hj) as (r & Hr & [[? _]|[_ ->]]); [done|]. split; [done|].
  apply list_lookup_insert_eq. by eapply lookup_lt_Some.
Qed.

(** A thread that changes its role and is not queued. *)
Lemma write_ok_role p p' ro ws i a b :
  write_ok p ro ws -> ro !! i = Some a -> a <> Queued \/ b = Writing ->
  (writer_active p <> 0 -> writer_active p' <> 0) -> (readers_active p <> 0 -> readers_active p' <> 0) ->
  (b = Writing -> writer_active p' <> 0) -> write_ok p' (<[i := b]> ro) ws.
Proof.
  intros H Hi Ha H1 H2 H3 Hin. destruct (decide (b = Writing)) as [Hb|Hb]; [left; by apply H3|].
  destruct (H Hin) as [|[|(j & Hj & Hwj)]]; [left; auto|right; left; auto|].
  right. right. exists j. split; [|done]. destruct (decide (i = j)) as [->|]; [|by rewrite list_lookup_insert_ne].
  rewrite Hi in Hj. injection Hj as ->. by destruct Ha.
Qed.

Lemma write_ok_sleep p ro ws i cv :
  write_ok p ro ws -> cv = 0%nat \/ writer_active p <> 0 \/ readers_active p <> 0 ->
  ro !! i = Some Idle \/ writer_active p <> 0 \/ readers_active p <> 0 -> ws !! i = Some None ->
  write_ok p ro (<[i := Some cv]> ws).
Proof.
  intros H Hcv Hri Hwi Hin. destruct Hri as [Hri|[|]]; [|by left|by right; left].
  destruct Hcv as [-> |[|]]; [|by left|by right; left].
  apply (elem_of_insert _ _ _ _ _ Hwi) in Hin as [|Hin]; [done|]. destruct (H Hin) as [|[|(j & Hj & Hwj)]]; [by left|by right; left|].
  right. right. exists j. split; [done|]. rewrite list_lookup_insert_ne; [done|]. intros <-. congruence.
Qed.

Lemma reader_safe n i : rw_safe n i reader Idle None.
Proof.
  apply (safe_loop _ lk _ _ _ i reader (fun l h => l = Idle /\ h = None)); [|done].
  clear. intros n IH l h [-> ->]. unfold reader at 1. go. intros _. go. intros p ro ws I Hi Hwi.
  apply safe_wait_while; [exact inv_excl| | |by split_and!].
  - clear. intros g ro ws ((C & Hr & Hw) & Hi & Hwi) Hb. split; [|split].
    + split; try apply C. eapply sleepers_sleep; [apply C|done|by left].
    + intros _. destruct (Z.eqb_spec (writer_active (lk g)) 0); [right; lia|by left].
    + apply write_ok_sleep; auto.
  - intros m g ro' ws' Hm (I' & Hi' & Hwi') Hb. clear p ro ws I Hi Hwi. unfold locked.
    destruct I' as (C & Hr & Hw). assert (Hwa : writer_active (lk g) = 0) by lia.
    assert (He : exclusive (<[i := Reading]> ro')) by (by apply (excl_change (lk g) ro' ws' i Idle); [..|by left| |]).
    held by (exact (c_excl _ _ _ C)). held by (exact He). split.
    { split; [|split].
      - apply (core_change (lk g) _ ro' ws' i Idle Reading C Hi' Hwi'); [simpl; lia..|exact He].
      - intros H. by apply Hr.
      - eapply (write_ok_role (lk g) _ _ _ _ Idle); [exact Hw|done|by left|done|simpl; intros _|done].
        rewrite (c_readers _ _ _ C). pose proof (countb_nonneg (plays Reading) ro'). lia. }
    go. go. go. clear g ro' ws' C Hr Hw Hi' Hwi' Hb Hwa He. intros p ro ws (C & Hr & Hw) Hi Hwi.
    assert (He : exclusive (<[i := Idle]> ro)) by (by apply (excl_change p ro ws i Reading); [..|by left| |]).
    held by (exact (c_excl _ _ _ C)).
    set (p' := p.[readers_active := readers_active p - 1]).
    assert (C' : Core p' (<[i := Idle]> ro) ws) by (apply (core_change p _ ro ws i Reading Idle C Hi Hwi); [simpl; lia..|exact He]).
    assert (Hr' : read_ok p' ws) by (intros H; by apply Hr).
    assert (Hend : forall m p ro ws, (m <= n)%nat -> Inv p ro ws -> rw_safe m i [Unlock; Sleep; While (fun _ _ => true) (match reader with [While _ s] => s | _ => [] end)] Idle (Some (p, ro, ws))).
    { clear - IH. intros m p ro ws Hm I. held by (by eapply inv_excl). split; [done|]. go. apply IH; [lia|done]. }
    held by (exact He). destruct (Z.eqb_spec (readers_active p - 1) 0) as [Hz|Hz]; simpl.
    + go. split; [exact He|]. intros g2 _. split.
      * intros Hno. apply Hend; [lia|]. split_and!; try done. by intros Hin.
      * intros j Hj. apply Hend; [lia|]. split; [|split].
        -- split; try apply C'. eapply sleepers_woken; [|apply C'].
           rewrite <- (list_insert_id ws j (Some 1%nat)) at 2 by done. by apply woken_insert; [apply woken_refl|left].
        -- intros [|H]%(elem_of_insert _ _ _ _ _ Hj); [done|]. by apply Hr'.
        -- by apply write_ok_signal; [apply C'|].
    + apply Hend; [lia|]. split_and!; try done. intros _. right. left. exact Hz.
Qed.

Lemma writer_safe n i : rw_safe n i writer Idle None.
Proof.
  apply (safe_loop _ lk _ _ _ i writer (fun l h => l = Idle /\ h = None)); [|done].
  clear. intros n IH l h [-> ->]. unfold writer at 1, locked. go. intros _. go. intros p ro ws (C & Hr & Hw) Hi Hwi.
  assert (He : exclusive (<[i := Queued]> ro)) by (by apply (excl_change p ro ws i Idle); [..|by left| |]).
  held by (exact (c_excl _ _ _ C)).
  apply safe_wait_while; [exact inv_excl| | |].
  - clear. intros g ro ws ((C & Hr & Hw) & Hi & Hwi) Hb. split; [|split].
    + split; try apply C. eapply sleepers_sleep; [apply C|done|by right].
    + intros [|H]%(elem_of_insert _ _ _ _ _ Hwi); [done|]. by apply Hr.
    + apply write_ok_sleep; [done|right; lia..|done].
  - clear g. intros m g ro' ws' Hm ((C' & Hr' & Hw') & Hi' & Hwi') Hb. clear p ro ws C Hr Hw Hi Hwi He. simpl in Hi'.
    held by (exact (c_excl _ _ _ C')). held by (rewrite (list_insert_id ro' i Queued Hi'); exact (c_excl _ _ _ C')).
    rewrite list_insert_insert_eq.
    assert (He : exclusive (<[i := Writing]> ro')).
    { apply (excl_change (lk g) ro' ws' i Queued); [done|done|by left|done|]. intros _. lia. }
    held by (exact He). split.
    { split; [|split].
      - apply (core_change (lk g) _ ro' ws' i Queued Writing C' Hi' Hwi'); [simpl; lia..|exact He].
      - intros _. by left.
      - intros _. by left. }
    go. go. intros g3. split; [done|]. split; [done|]. go. go. go. clear g ro' ws' C' Hr' Hw' Hi' Hwi' Hb He.
    intros p ro ws (C & Hr & Hw) Hi Hwi.
    assert (He : exclusive (<[i := Idle]> ro)) by (by apply (excl_change p ro ws i Writing); [..|by right| |]).
    held by (exact (c_excl _ _ _ C)).
    set (p' := p.[writer_active := 0]).
    assert (Hone : writer_active p = 1).
    { rewrite (c_writers _ _ _ C). destruct (c_excl _ _ _ C) as [H1 _].
      pose proof (countb_pos (plays Writing) ro Writing (list_elem_of_lookup_2 _ _ _ Hi) eq_refl). lia. }
    assert (C' : Core p' (<[i := Idle]> ro) ws) by (apply (core_change p _ ro ws i Writing Idle C Hi Hwi); [simpl; lia..|exact He]).
    assert (Hend : forall m p ro ws, (m <= n)%nat -> Inv p ro ws -> rw_safe m i [Unlock; Sleep; While (fun _ _ => true) (match writer with [While _ s] => s | _ => [] end)] Idle (Some (p, ro, ws))).
    { clear - IH. intros m p ro ws Hm I. held by (by eapply inv_excl). split; [done|]. go. apply IH; [lia|done]. }
    held by (exact He). destruct (Z.eqb_spec (writers_waiting p) 0) as [Hz|Hz]; simpl.
    + go. split; [exact He|]. apply Hend; [lia|]. split; [|split].
      * split; try apply C'. apply sleepers_wake_all, C'.
      * intros (x & Hx & _)%list_elem_of_fmap. by case_decide.
      * intros (x & Hx & Hin)%list_elem_of_fmap. exfalso. case_decide; [done|]. subst x.
        apply list_elem_of_lookup_1 in Hin as [j Hj]. destruct (c_sleep _ _ _ C j _ Hj) as (r & Hrj & [[? _]|[_ ->]]); [done|].
        rewrite (c_queued _ _ _ C) in Hz. pose proof (countb_pos (plays Queued) ro Queued (list_elem_of_lookup_2 _ _ _ Hrj) eq_refl). lia.
    + go. split; [exact He|]. intros g4 _.
      assert (Hr' : read_ok p' ws) by (intros _; by right). split.
      * intros Hno. apply Hend; [lia|]. split_and!; try done. by intros Hin.
      * intros j Hj. apply Hend; [lia|]. split; [|split].
        -- split; try apply C'. eapply sleepers_woken; [|apply C'].
           rewrite <- (list_insert_id ws j (Some 1%nat)) at 2 by done. by apply woken_insert; [apply woken_refl|left].
        -- intros _. by right.
        -- by apply write_ok_signal; [apply C'|].
  - split; [split; [|split]|split].
    + apply (core_change p _ ro ws i Idle Queued C Hi Hwi); [simpl; lia..|exact He].
    + intros H. destruct (Hr H); [by left|right]. simpl. rewrite (c_queued _ _ _ C). pose proof (countb_nonneg (plays Queued) ro). lia.
    + by apply (write_ok_role p _ ro ws i Idle); [..|by left| | |].
    + apply list_lookup_insert_eq. by eapply lookup_lt_Some.
    + done.
Qed.

Lemma replicate_cnt r n ro : r <> Idle -> cnt r (replicate n Idle ++ ro) = cnt r ro.
Proof. intros Hr. induction n as [|n IH]; [done|]. simpl. rewrite IH. by destruct r. Qed.

(** Some thread is awake. *)
Lemma not_all_asleep p ro ws :
  Inv p ro ws -> (forall j r, ro !! j = Some r -> exists cv, ws !! j = Some (Some cv)) -> ~ ro <> [].
Proof.
  intros (C & Hrd & Hwr) Hsl Hne.
  assert (Hrole : forall j x, ro !! j = Some x -> ws !! j = Some (Some 0%nat) /\ x = Idle \/ ws !! j = Some (Some 1%nat) /\ x = Queued).
  { intros j x Hj. destruct (Hsl j x Hj) as [cv Hcv]. destruct (c_sleep _ _ _ C j cv Hcv) as (y & Hy & Hyy).
    assert (y = x) as -> by congruence. destruct Hyy as [[-> ->]|[-> ->]]; [by left|by right]. }
  assert (Hcnt : forall r, 0 < cnt r ro -> exists j, ro !! j = Some r).
  { intros r Hpos. destruct (countb_ex (plays r) ro Hpos) as (x & [j Hj]%list_elem_of_lookup_1 & Hx).
    exists j. rewrite Hj. by destruct r, x. }
  assert (Hno : forall r, r = Reading \/ r = Writing -> cnt r ro = 0).
  { intros r Hrr. pose proof (countb_nonneg (plays r) ro). destruct (Z.eq_dec (cnt r ro) 0) as [|Hpos]; [done|]. exfalso.
    destruct (Hcnt r) as [j Hj]; [lia|]. destruct (Hrole j r Hj) as [[_ ->]|[_ ->]]; by destruct Hrr. }
  assert (H1no : Some 1%nat ∉ ws).
  { intros Hin. destruct (Hwr Hin) as [Hx|[Hx|(j & Hj & Hwj)]].
    - apply Hx. rewrite (c_writers _ _ _ C). by apply Hno; right.
    - apply Hx. rewrite (c_readers _ _ _ C). by apply Hno; left.
    - destruct (Hsl j _ Hj). congruence. }
  destruct ro as [|x ro]; [done|].
  destruct (Hrole 0%nat x eq_refl) as [[H0 _]|[H1 _]]; [|by apply H1no, list_elem_of_lookup_2 with 0%nat].
  destruct (Hrd (list_elem_of_lookup_2 _ _ _ H0)) as [Hx|Hx].
  - apply Hx. rewrite (c_writers _ _ _ C). by apply Hno; right.
  - rewrite (c_queued _ _ _ C) in Hx. pose proof (countb_nonneg (plays Queued) (x :: ro)).
    destruct (Hcnt Queued) as [j Hj]; [lia|]. destruct (Hrole j _ Hj) as [[_ ?]|[H1 _]]; [done|].
    by apply H1no, list_elem_of_lookup_2 with j.
Qed.

(** C39: readers and writers.  With any numbers of them, in every interleaving,
    and however threads wake up, nobody reads or writes while a writer writes;
    no thread runs into undefined behaviour; and there is always a thread that
    can go on. *)
Theorem readers_writers_exclusive writers readers w :
  reachable (rw_main writers readers) w ->
  ub w = false /\
  (forall i j r, roles (fun r => r) w !! i = Some Writing -> roles (fun r => r) w !! j = Some r ->
     r = Writing \/ r = Reading -> i = j) /\
  ((0 < writers + readers)%nat -> ~ stuck w).
Proof.
  unfold rw_main. intros Hr.
  assert (Hro : (fun c => c.2) <$> (group writers writer Idle ++ group readers reader Idle) = replicate (writers + readers) Idle).
  { rewrite fmap_app. unfold group. rewrite !fmap_replicate. by rewrite replicate_add. }
  destruct (monitor_rule (fun r : what => r) lk Inv exclusive (fun _ => False) rw_woken
    (glob (rw_main writers readers)) (group writers writer Idle ++ group readers reader Idle) w) with (4 := Hr) as (H1 & Hlen & [H2 H2'] & H3).
  - rewrite Hro. assert (Hc : forall r, r <> Idle -> cnt r (replicate (writers + readers) Idle) = 0).
    { intros r Hne. rewrite <- (app_nil_r (replicate _ _)). by rewrite replicate_cnt. }
    assert (Hws : forall cv : nat, Some cv ∈ (fun _ => None) <$> (group writers writer Idle ++ group readers reader Idle) -> False).
    { by intros cv (p & Hp & _)%list_elem_of_fmap. }
    split; [split|split].
    + by rewrite Hc.
    + by rewrite Hc.
    + by rewrite Hc.
    + split; [rewrite Hc; done|left; by rewrite Hc].
    + intros j cv Hj%list_elem_of_lookup_2. by destruct (Hws cv).
    + intros H. by destruct (Hws 0%nat).
    + intros H. by destruct (Hws 1%nat).
  - rewrite Hro. rewrite <- (app_nil_r (replicate _ _)). split; [|left]; by rewrite replicate_cnt.
  - intros i c Hi%list_elem_of_lookup_2 n.
    apply elem_of_app in Hi as [->%group_elem | ->%group_elem]; [apply writer_safe|apply reader_safe].
  - split; [done|]. split.
    + intros i j r Hi Hj Hrj. destruct Hrj as [-> | ->].
      * by apply (countb_one (plays Writing) _ i j Writing Writing H2).
      * exfalso. apply list_elem_of_lookup_2 in Hi, Hj.
        pose proof (countb_pos (plays Writing) _ Writing Hi eq_refl). pose proof (countb_pos (plays Reading) _ Reading Hj eq_refl).
        cbn in *. lia.
    + intros Hn St. destruct (H3 St) as [(C & Hrd & Hwr) Hd].
      assert (Hsl : forall j r, roles (fun r => r) w !! j = Some r -> exists cv, waits w !! j = Some (Some cv)).
      { intros j r Hj. unfold roles in Hj. apply list_lookup_fmap_Some in Hj as (t & -> & Ht).
        destruct (sleeping t) as [cv|] eqn:Hs; [|exfalso; by apply (Hd t); [eapply list_elem_of_lookup_2|]].
        exists cv. unfold waits. by rewrite list_lookup_fmap, Ht, <- Hs. }
      apply (not_all_asleep _ _ _ (conj C (conj Hrd Hwr)) Hsl).
      intros Hnil%(f_equal length). unfold roles in Hnil. rewrite length_fmap, Hlen, length_app in Hnil.
      unfold group in Hnil. rewrite !length_replicate in Hnil. simpl in Hnil. lia.
Qed.

(** A writer writes while a reader and another writer wait. *)
Lemma readers_writers_exclusive_witness : exists w, reachable (rw_main 2 1) w /\ writer_active (lk (glob w)) = 1 /\
  waits w = [None; Some 1%nat; Some 0%nat] /\ ub w = false /\
  (forall i j r, roles (fun r => r) w !! i = Some Writing -> roles (fun r => r) w !! j = Some r ->
     r = Writing \/ r = Reading -> i = j) /\
  ((0 < 2 + 1)%nat -> ~ stuck w).
Proof.
  destruct (run_to (fun w => (writer_active (lk (glob w)) =? 1) && bool_decide (waits w = [None; Some 1%nat; Some 0%nat]))
    (burst 9 0 ++ burst 5 1 ++ burst 4 2) (rw_main 2 1)) as (w & Hr & [Hw%Z.eqb_eq Hs%bool_decide_eq_true]%andb_true_iff);
    [vm_compute; reflexivity|].
  exists w. split; [exact Hr|]. split; [exact Hw|]. split; [exact Hs|]. exact (readers_writers_exclusive 2 1 w Hr).
Defined.
End ReadersWritersThm.

(** ** The little red hen *)

Module HenThm.
Import Hen.
Definition is_hen (r : who) : bool := match r with Baked _ => true | Ate _ => false end.
(** Loaves that a role has put on the table. *)
Definition gives (r : who) : Z := match r with Baked b => 7 * b | Ate n => - n end.
Definition within (r : who) : Prop := match r with Baked b => 0 <= b <= 6 | Ate n => 0 <= n <= 14 end.
Definition gives_all (ro : list who) : Z := foldr (fun r z => gives r + z) 0 ro.
Definition asleep (cv : nat) (r : who) : Prop :=
  match r with Baked b => cv = 0%nat /\ b < 6 | Ate n => cv = 1%nat /\ n < 14 end.

Record Inv (numLoaves : Z) (ro : list who) (ws : list (option nat)) : Prop := {
  i_who : is_hen <$> ro = [false; false; false; true];
  i_loaves : numLoaves = gives_all ro;
  i_some : 0 <= numLoaves;
  i_within : Forall within ro;
  i_sleep : sleepers asleep ro ws;
  i_hungry : Some 1%nat ∈ ws -> numLoaves = 0 /\ Some 0%nat ∉ ws;
}.
Definition Fin (r : who) : Prop := r = Baked 6 \/ r = Ate 14.
Abbreviation hen_safe := (safe_n role (fun g => g) Inv (Forall within) Fin).

Lemma hen_woken g ro ws ws' : woken ws' ws -> Inv g ro ws -> Inv g ro ws'.
Proof.
  intros Hw I. split; try apply I.
  - eapply sleepers_woken; [exact Hw|apply I].
  - intros H. destruct (i_hungry _ _ _ I) as [H1 H2]; [eapply woken_elem; eauto|]. split; [done|].
    intros H0. by eapply H2, woken_elem.
Qed.

Lemma gives_insert ro i a b : ro !! i = Some a -> gives_all (<[i := b]> ro) = gives_all ro - gives a + gives b.
Proof.
  revert i. induction ro as [|r ro IH]; intros [|i] Hi; simpl in *; try done; [injection Hi as ->; lia|]. rewrite (IH i Hi). lia.
Qed.

(** Only the hen waits for the loaves to be eaten. *)
Lemma one_hen ro i j b b' : is_hen <$> ro = [false; false; false; true] -> ro !! i = Some (Baked b) -> ro !! j = Some (Baked b') -> i = j.
Proof.
  intros H Hi Hj. assert (Hk : forall k c, ro !! k = Some (Baked c) -> k = 3%nat); [|by rewrite (Hk i b Hi), (Hk j b' Hj)].
  intros k c Hk. pose proof (f_equal (fun l => l !! k) H) as E. simpl in E. rewrite list_lookup_fmap, Hk in E. simpl in E.
  by destruct k as [|[|[|[|k]]]].
Qed.

Lemma inv_role g g' ro ws ws' i a b :
  Inv g ro ws -> ro !! i = Some a -> ws !! i = Some None -> is_hen b = is_hen a -> within b ->
  g' = g - gives a + gives b -> 0 <= g' -> woken ws' ws ->
  (Some 1%nat ∈ ws' -> g' = 0 /\ Some 0%nat ∉ ws') -> Inv g' (<[i := b]> ro) ws'.
Proof.
  intros I Hi Hwi Hh Hb Hg H0 Hw Hhungry. split; try done.
  - rewrite list_fmap_insert, Hh, list_insert_id; [apply I|]. by rewrite list_lookup_fmap, Hi.
  - rewrite (gives_insert _ _ a), <- (i_loaves _ _ _ I) by done. exact Hg.
  - apply Forall_insert; [apply I|done].
  - eapply sleepers_woken; [exact Hw|]. by apply sleepers_role; [apply I|].
Qed.

Lemma hen_thread_safe n i : hen_safe n i littleRedHenThread {| count := 0; role := Baked 0 |} None.
Proof.
  unfold littleRedHenThread. go. intros g0. split; [done|]. split; [done|]. revert n. simpl.
  set (loop := While _ _). set (rest := [Print _; Lock; _; _]).
  apply (safe_loop _ _ _ _ _ i (loop :: rest) (fun l h => exists b, b <= 6 /\ l = {| count := b + 1; role := Baked b |} /\ h = None)); [|by exists 0].
  intros n IH l h (b & Hb6 & -> & ->). unfold loop at 1. go. intros _. destruct (Z.leb_spec (b + 1) 6) as [Hb|Hb]; simpl; fold loop.
  - go. intros g ro ws I Hi Hwi. simpl in Hi. apply safe_wait_while; [apply i_within| | |by split_and!].
    + clear - Hb. intros g ro ws (I & Hi & Hwi) Hg. split; try apply I.
      * eapply sleepers_sleep; [apply I|done|simpl; lia].
      * intros [|H]%(elem_of_insert _ _ _ _ _ Hwi); [done|]. destruct (i_hungry _ _ _ I H). lia.
    + intros m. clear g ro ws I Hi Hwi. intros g ro ws Hm (I & Hi & Hwi) Hg. simpl in Hi.
      pose proof (i_some _ _ _ I) as H0. assert (g = 0) as -> by lia.
      assert (Hw : Forall within (<[i := Baked (b + 1)]> ro)).
      { apply Forall_insert; [apply I|]. pose proof (Forall_lookup_1 _ _ _ _ (i_within _ _ _ I) Hi) as Hin. simpl in *. lia. }
      held by (apply I). held by (apply I). held by (exact Hw). held by (exact Hw). held by (exact Hw).
      split; [|go; intros g1; split; [done|]; split; [done|]; apply IH; [lia|exists (b + 1); split_and!; [lia|done|done]]].
      apply (inv_role 0 _ ro ws _ i (Baked b)); try done.
      * apply (Forall_lookup_1 _ _ i _ Hw). apply list_lookup_insert_eq. by eapply lookup_lt_Some.
      * simpl. lia.
      * apply woken_all.
      * intros (x & Hx & _)%list_elem_of_fmap. by case_decide.
  - assert (b = 6) as -> by lia. unfold rest. go. go. intros g ro ws I Hi Hwi. simpl in Hi. held by (apply I). held by (apply I). split; [|by go; left].
    rewrite <- (list_insert_id ro i (Baked 6)) by done. apply (inv_role g g ro ws _ i (Baked 6)); try done; [lia|apply I|apply woken_all|].
    intros (x & Hx & _)%list_elem_of_fmap. by case_decide.
Qed.
(** An animal that finds no bread wakes the hen and goes to sleep. *)
Lemma animal_waits ro ws ws' i n :
  Inv 0 ro ws -> ro !! i = Some (Ate n) -> n < 14 -> ws !! i = Some None ->
  woken ws' ws -> Some 0%nat ∉ ws' -> Inv 0 ro (<[i := Some 1%nat]> ws').
Proof.
  intros I Hi Hn Hwi Hw Hno. split; try apply I.
  - eapply sleepers_sleep; [eapply sleepers_woken; [exact Hw|apply I]|done|done].
  - intros _. split; [done|]. intros H. destruct (Forall2_lookup_r _ _ _ _ _ Hw Hwi) as (x & Hx & Hxx).
    by apply (elem_of_insert _ _ _ _ _ Hx) in H as [|H].
Qed.

Lemma signal_hen ro ws j :
  is_hen <$> ro = [false; false; false; true] -> sleepers asleep ro ws -> ws !! j = Some (Some 0%nat) ->
  Some 0%nat ∉ <[j := None]> ws /\ woken (<[j := None]> ws) ws.
Proof.
  intros Hk Hs Hj.
  assert (Hhen : forall k, ws !! k = Some (Some 0%nat) -> exists b, ro !! k = Some (Baked b)).
  { intros k H. destruct (Hs k _ H) as ([b|n] & Hr & Ha); [by exists b|]. by destruct Ha. }
  split.
  - intros [k Hk']%list_elem_of_lookup_1. apply list_lookup_insert_Some in Hk' as [(_ & ? & _)|[Hne Hk']]; [done|].
    destruct (Hhen j Hj) as [b Hb], (Hhen k Hk') as [b' Hb']. by apply Hne, (one_hen ro j k b b').
  - rewrite <- (list_insert_id ws j (Some 0%nat)) at 2 by done. by apply woken_insert; [apply woken_refl|left].
Qed.

Lemma animal_safe n i : hen_safe n i otherAnimalThread {| count := 0; role := Ate 0 |} None.
Proof.
  unfold otherAnimalThread. go. intros g0. split; [done|]. split; [done|]. revert n. simpl.
  set (loop := While _ _). set (rest := [Print _]).
  apply (safe_loop _ _ _ _ _ i (loop :: rest) (fun l h => exists a, a <= 14 /\ l = {| count := a; role := Ate a |} /\ h = None)); [|by exists 0].
  intros n IH l h (a & Ha14 & -> & ->). unfold loop at 1. go. intros g1. destruct (Z.ltb_spec a 14) as [Ha|Ha]; simpl; fold loop.
  - go. intros g ro ws I Hi Hwi. simpl in Hi. apply safe_held_loop; [apply i_within| | |by split_and!].
    + intros m. clear g ro ws I Hi Hwi. intros g ro ws Hm IHw (I & Hi & Hwi) Hg. simpl in Hi. assert (g = 0) as -> by lia. simpl.
      assert (Hw : forall m' ws', (m' <= m)%nat -> woken ws' ws -> Some 0%nat ∉ ws' ->
        hen_safe m' i (Wait (fun _ => 1%nat) :: While (fun g _ => g =? 0) [Signal (fun _ _ => 0%nat); Wait (fun _ => 1%nat)] :: drop 2 (match loop with While _ s => s | _ => [] end) ++ loop :: rest)
          {| count := a; role := Ate a |} (Some (0, ro, ws'))).
      { intros m' ws' Hm' Hww Hno. held by (apply I). split; [by eapply animal_waits|]. go. intros g2 ro2 ws2 I2 Hi2 Hwi2.
        eapply safe_n_le; [|apply IHw; by split_and!]. lia. }
      held by (apply I). split; [intros Hno; apply Hw; [lia|apply woken_refl|done]|]. intros j Hj.
      destruct (signal_hen ro ws j (i_who _ _ _ I) (i_sleep _ _ _ I) Hj) as [H1 H2]. apply Hw; [lia|done|done].
    + intros m. clear g ro ws I Hi Hwi. intros g ro ws Hm (I & Hi & Hwi) Hg. simpl in Hi.
      pose proof (i_some _ _ _ I) as H0.
      assert (Hw : Forall within (<[i := Ate (a + 1)]> ro)).
      { apply Forall_insert; [apply I|]. pose proof (Forall_lookup_1 _ _ _ _ (i_within _ _ _ I) Hi) as Hin. simpl in *. lia. }
      held by (apply I). destruct (Z.leb_spec g 0); [lia|]. simpl. held by (apply I). held by (exact Hw).
      split; [|go; go; intros g2; split; [done|]; split; [done|]; go; apply IH; [lia|exists (a + 1); split_and!; [lia|done|done]]].
      apply (inv_role g _ ro ws _ i (Ate a)); try done.
      * apply (Forall_lookup_1 _ _ i _ Hw). apply list_lookup_insert_eq. by eapply lookup_lt_Some.
      * simpl. lia.
      * lia.
      * apply woken_refl.
      * intros Hin. destruct (i_hungry _ _ _ I Hin). lia.
  - assert (a = 14) as -> by lia. unfold rest. go. go. by right.
Qed.

(** When all that are awake are done, all are. *)
Lemma all_fed g ro ws :
  Inv g ro ws -> length ws = 4%nat -> (forall j r, ro !! j = Some r -> ws !! j = Some None -> Fin r) ->
  (forall x, x ∈ ws -> x = None) /\ g = 0 /\ ro = [Ate 14; Ate 14; Ate 14; Baked 6].
Proof.
  intros [Hk Hg H0 Hw Hs Hh] Hlen Hf.
  destruct ro as [|[?|a] [|[?|b] [|[?|c] [|[d|?] [|? ?]]]]]; try done. clear Hk.
  destruct ws as [|x0 [|x1 [|x2 [|x3 [|? ?]]]]]; try done. clear Hlen. simpl in Hg.
  rewrite !Forall_cons in Hw. destruct Hw as (Ha & Hb & Hc & Hd & _). simpl in Ha, Hb, Hc, Hd.
  assert (Hani : forall j n x, [Ate a; Ate b; Ate c; Baked d] !! j = Some (Ate n) -> [x0; x1; x2; x3] !! j = Some x ->
    x = None /\ n = 14 \/ x = Some 1%nat /\ n < 14).
  { intros j n [cv|] Hr Hx; [right|left; split; [done|]].
    - destruct (Hs j cv Hx) as (r & Hr' & Has). rewrite Hr in Hr'. injection Hr' as <-. by destruct Has as [-> ?].
    - destruct (Hf j _ Hr Hx) as [|[= ->]]; done. }
  pose proof (Hani 0%nat a x0 eq_refl eq_refl) as A0. pose proof (Hani 1%nat b x1 eq_refl eq_refl) as A1.
  pose proof (Hani 2%nat c x2 eq_refl eq_refl) as A2. clear Hani.
  assert (A3 : x3 = None /\ d = 6 \/ x3 = Some 0%nat /\ d < 6).
  { destruct x3 as [cv|]; [right|left; split; [done|]].
    - destruct (Hs 3%nat cv eq_refl) as (r & [= <-] & Has). by destruct Has as [-> ?].
    - by destruct (Hf 3%nat _ eq_refl eq_refl) as [[= ->]|]. }
  assert (Hx : forall x, x = Some 1%nat -> x ∈ [x0; x1; x2] -> g = 0 /\ x3 <> Some 0%nat).
  { intros x -> Hin. destruct Hh as [-> Hno]; [|split; [done|]].
    - change [x0; x1; x2; x3] with ([x0; x1; x2] ++ [x3]). apply elem_of_app. by left.
    - intros ->. apply Hno. do 3 right. left. }
  assert (Hd6 : x3 = None /\ d = 6).
  { destruct A3 as [?|[-> ?]]; [done|]. exfalso.
    destruct A0 as [[_ ->]|[E _]]; [|by destruct (Hx _ E); [left|]].
    destruct A1 as [[_ ->]|[E _]]; [|by destruct (Hx _ E); [right; left|]].
    destruct A2 as [[_ ->]|[E _]]; [|by destruct (Hx _ E); [right; right; left|]]. lia. }
  destruct Hd6 as [-> ->].
  destruct A0 as [[-> ->]|[E ?]]; [|destruct (Hx _ E); [left|lia]].
  destruct A1 as [[-> ->]|[E ?]]; [|destruct (Hx _ E); [right; left|lia]].
  destruct A2 as [[-> ->]|[E ?]]; [|destruct (Hx _ E); [right; right; left|lia]].
  split; [|split; [lia|done]]. intros x. rewrite !elem_of_cons. by intros [->|[->|[->|[->|H%elem_of_nil]]]].
Qed.

(** C38: the little red hen and the three animals.  In every interleaving the
    animals never eat more than 14 loaves each and the hen never bakes more than
    six batches; and nobody is left waiting: when no thread can go on, all have
    finished, and the 42 loaves have been baked and eaten. *)
Theorem hen_feeds_all w :
  reachable hen_main w ->
  ub w = false /\ Forall within (roles role w) /\
  (stuck w -> finished w /\ glob w = 0 /\ roles role w = [Ate 14; Ate 14; Ate 14; Baked 6]).
Proof.
  intros Hr. set (cl := group 3 otherAnimalThread {| count := 0; role := Ate 0 |} ++ group 1 littleRedHenThread {| count := 0; role := Baked 0 |}).
  destruct (monitor_rule role (fun g => g) Inv (Forall within) Fin hen_woken 0 cl w) with (4 := Hr) as (H1 & Hlen & H2 & H3).
  - split; try done.
    + repeat (constructor; [simpl; lia|]). constructor.
    + intros j cv Hj. by apply list_lookup_fmap_Some in Hj as (? & ? & _).
    + intros H. exfalso. apply list_elem_of_fmap in H as (? & ? & _). done.
  - repeat (constructor; [simpl; lia|]). constructor.
  - intros i c Hi%list_elem_of_lookup_2 n. apply elem_of_app in Hi as [->%group_elem | ->%group_elem]; [apply animal_safe|apply hen_thread_safe].
  - split; [done|]. split; [done|]. intros St. destruct (H3 St) as [I Hd].
    destruct (all_fed _ _ _ I) as (Hws & Hg & Hro).
    + unfold waits. by rewrite length_fmap, Hlen.
    + intros j r Hj Hwj. apply list_lookup_fmap_Some in Hj as (t & -> & Ht).
      unfold waits in Hwj. rewrite list_lookup_fmap, Ht in Hwj. injection Hwj as Hwj. apply Hd; [by eapply list_elem_of_lookup_2|done].
    + split; [|done]. intros t Ht. apply (Hd t Ht), Hws. apply list_elem_of_fmap. by exists t.
Qed.

Lemma hen_feeds_all_witness : exists w, reachable hen_main w /\ forallb halted (ths w) = true /\
  ub w = false /\ Forall within (roles role w) /\
  (stuck w -> finished w /\ glob w = 0 /\ roles role w = [Ate 14; Ate 14; Ate 14; Baked 6]).
Proof.
  destruct (run_to (fun w => forallb halted (ths w)) (schedule 1000 hen_main) hen_main) as (w & Hr & Hw);
    [vm_compute; reflexivity|].
  exists w. split; [exact Hr|]. split; [exact Hw|]. exact (hen_feeds_all w Hr).
Defined.
End HenThm.

(** ** In order *)

Module InOrderThm.
Import InOrder.
Abbreviation rl := (fun l : L => (num l, passed l)).
Definition upto (d : Z) (ro : list (Z * bool)) : Prop := forall n b, (n, b) ∈ ro -> b = true <-> n < d.
Definition ordered (ro : list (Z * bool)) : Prop := exists d, upto d ro.

Section in_order.
Context (nums : list Z) (Hnd : NoDup nums) (Hpos : Forall (fun n => 1 <= n) nums).

Record Inv (turn : Z) (ro : list (Z * bool)) (ws : list (option nat)) : Prop := {
  i_nums : fst <$> ro = nums;
  i_upto : upto turn ro;
  i_pos : 1 <= turn;
  i_sleep : sleepers (fun cv r => cv = 0%nat /\ r.2 = false) ro ws;
  i_other : forall j cv, ws !! j = Some (Some cv) -> nums !! j <> Some turn;
}.
Abbreviation order_safe := (safe_n rl (fun g => g) Inv ordered (fun r => r.2 = true)).

Lemma inorder_woken g ro ws ws' : woken ws' ws -> Inv g ro ws -> Inv g ro ws'.
Proof.
  intros Hw I. split; try apply I; [eapply sleepers_woken; [exact Hw|apply I]|].
  intros j cv Hj. eapply (i_other _ _ _ I), woken_lookup; eauto.
Qed.

Lemma inv_ordered g ro ws : Inv g ro ws -> ordered ro.
Proof. intros I. exists g. apply I. Qed.

Lemma inv_pass turn ro ws ws' i :
  Inv turn ro ws -> ro !! i = Some (turn, false) -> ws !! i = Some None -> woken ws' ws ->
  (forall j cv, ws' !! j <> Some (Some cv)) -> Inv (turn + 1) (<[i := (turn, true)]> ro) ws'.
Proof.
  intros I Hi Hwi Hw Hno. split.
  - rewrite list_fmap_insert, list_insert_id; [apply I|]. by rewrite list_lookup_fmap, Hi.
  - intros n b [j Hj]%list_elem_of_lookup_1.
    apply list_lookup_insert_Some in Hj as [(_ & [= -> ->] & _)|[Hne Hj]]; [split; [lia|done]|].
    rewrite (i_upto _ _ _ I n b (list_elem_of_lookup_2 _ _ _ Hj)).
    assert (n <> turn); [|lia]. intros ->. apply Hne. apply (NoDup_lookup nums i j turn Hnd); rewrite <- (i_nums _ _ _ I).
    + by rewrite list_lookup_fmap, Hi.
    + by rewrite list_lookup_fmap, Hj.
  - pose proof (i_pos _ _ _ I). lia.
  - intros j cv Hj. by destruct (Hno j cv).
  - intros j cv Hj. by destruct (Hno j cv).
Qed.

Lemma inorder_thread_safe n i k : order_safe n i inorder_thread {| num := k; passed := false |} None.
Proof.
  unfold inorder_thread. go. intros g ro ws I Hi Hwi. simpl in Hi. held by (by eapply inv_ordered).
  apply safe_wait_while; [exact inv_ordered| | |by split_and!].
  - clear. intros g ro ws (I & Hi & Hwi) Hg. simpl in Hi, Hg. split; try apply I.
    + by eapply sleepers_sleep; [apply I|exact Hi|].
    + intros j cv [(-> & _ & _)|[_ Hj]]%list_lookup_insert_Some; [|by eapply (i_other _ _ _ I)].
      rewrite <- (i_nums _ _ _ I), list_lookup_fmap, Hi. simpl. intros [= ->]. lia.
  - clear g ro ws I Hi Hwi. intros m g ro ws Hm (I & Hi & Hwi) Hg. simpl in Hi, Hg. assert (g = k) as -> by lia.
    set (ws' := (fun a => if decide (a = Some 0%nat) then None else a) <$> ws).
    assert (I' : Inv (k + 1) (<[i := (k, true)]> ro) ws').
    { apply (inv_pass k ro ws); try done; [apply woken_all|]. intros j cv Hj.
      apply list_lookup_fmap_Some in Hj as (a & Ha & Hj). case_decide; [done|]. subst a.
      destruct (i_sleep _ _ _ I j cv Hj) as (r & _ & -> & _). done. }
    held by (by eapply inv_ordered). held by (by eapply inv_ordered). held by (by eapply inv_ordered).
    held by (by eapply inv_ordered). split; [exact I'|]. go. go. done.
Qed.

(** The threads pass in the order of their numbers, and all of them do. *)
Theorem inorder_passes w :
  reachable (inorder_main nums) w ->
  ub w = false /\ ordered (roles rl w) /\
  ((forall n, n ∈ nums <-> 1 <= n <= Z.of_nat (length nums)) -> stuck w -> finished w).
Proof.
  intros Hr. set (cl := (fun n => (inorder_thread, {| num := n; passed := false |})) <$> nums).
  assert (Hro : (fun c => rl c.2) <$> cl = (fun n => (n, false)) <$> nums) by (unfold cl; by rewrite <- list_fmap_compose).
  destruct (monitor_rule rl (fun g => g) Inv ordered (fun r => r.2 = true) inorder_woken 1 cl w) with (4 := Hr) as (H1 & Hlen & H2 & H3).
  - rewrite Hro. split.
    + rewrite <- list_fmap_compose. apply list_fmap_id.
    + intros n b (x & [= -> ->] & Hx)%list_elem_of_fmap. rewrite Forall_forall in Hpos. specialize (Hpos x Hx). simpl in Hpos. split; [done|lia].
    + lia.
    + intros j cv Hj. by apply list_lookup_fmap_Some in Hj as (? & ? & _).
    + intros j cv Hj. by apply list_lookup_fmap_Some in Hj as (? & ? & _).
  - rewrite Hro. exists 1. intros n b (x & [= -> ->] & Hx)%list_elem_of_fmap. rewrite Forall_forall in Hpos. specialize (Hpos x Hx). simpl in Hpos. split; [done|lia].
  - intros i c Hi n. apply list_lookup_fmap_Some in Hi as (x & -> & _). apply inorder_thread_safe.
  - split; [done|]. split; [done|]. intros Hall St. destruct (H3 St) as [I Hd]. intros t Ht. apply (Hd t Ht).
    destruct (sleeping t) as [cv|] eqn:Hs; [exfalso|done]. apply list_elem_of_lookup_1 in Ht as [j Hj].
    assert (Hwj : waits w !! j = Some (Some cv)) by (unfold waits; by rewrite list_lookup_fmap, Hj, <- Hs).
    destruct (i_sleep _ _ _ I j cv Hwj) as ([n b] & Hrj & _ & Hb). simpl in Hb. subst b.
    assert (Hnj : nums !! j = Some n) by (rewrite <- (i_nums _ _ _ I), list_lookup_fmap, Hrj; done).
    assert (Hne : n <> glob w) by (intros ->; by apply (i_other _ _ _ I j cv Hwj)).
    assert (Hge : ~ n < glob w) by (intros Hlt; by apply (i_upto _ _ _ I n false (list_elem_of_lookup_2 _ _ _ Hrj)) in Hlt).
    assert (Hin : glob w ∈ nums).
    { apply Hall. apply list_elem_of_lookup_2, Hall in Hnj. pose proof (i_pos _ _ _ I). lia. }
    apply list_elem_of_lookup_1 in Hin as [x Hx]. rewrite <- (i_nums _ _ _ I) in Hx.
    apply list_lookup_fmap_Some in Hx as ([d b] & Hdb & Hx). simpl in Hdb. subst d.
    assert (b = false) as -> by (destruct b; [|done]; pose proof (proj1 (i_upto _ _ _ I _ _ (list_elem_of_lookup_2 _ _ _ Hx)) eq_refl); lia).
    destruct (waits w !! x) as [[c|]|] eqn:Hwx.
    + apply (i_other _ _ _ I x c Hwx). by rewrite <- (i_nums _ _ _ I), list_lookup_fmap, Hx.
    + unfold waits in Hwx. apply list_lookup_fmap_Some in Hwx as (u & Hu & Hux).
      destruct (Hd u) as [_ Hp]; [by eapply list_elem_of_lookup_2|done|].
      unfold roles in Hx. rewrite list_lookup_fmap, Hux in Hx. injection Hx as _ Hx. simpl in Hp. congruence.
    + apply lookup_ge_None_1 in Hwx. apply lookup_lt_Some in Hx. unfold waits in Hwx. unfold roles in Hx. rewrite length_fmap in Hwx. rewrite length_fmap in Hx. lia.
Qed.
End in_order.
End InOrderThm.
