(* ===== verification/CondvarRuns.v ===== *)
(** More about the programs of [Condvar]: those that hold the mutex while they
    sleep and so never run two at a time, the requests of exam2/problem3.c,
    and runs that show what goes wrong in the others. *)

From S2P Require Import Prelude CInt Pthread PthreadThm Condvar CondvarThm.

(** ** What goes wrong *)

(** condvar_challenge/band.c.  Two drummers (0, 1), two singers (2, 3) and two
    guitarists (4, 5): the second drummer arrives when the first has stopped and
    the others still play, and plays on with them... *)
Definition band_run : list choice :=
  burst 5 0 ++ burst 5 2 ++ burst 11 4 ++ burst 7 0 ++ burst 7 2 ++ burst 5 3 ++ burst 5 5 ++
  burst 8 0 ++ burst 10 1.
Definition band_rest : list choice :=
  burst 8 2 ++ burst 8 4 ++ burst 9 1 ++ burst 3 3 ++ burst 3 5.

Example band_plays_on : exists w, reachable (Band.band_main 2 2 2) w /\
  out w = [(0, "%s arrived"); (2, "%s arrived"); (4, "%s arrived"); (4, "%s playing"); (0, "%s playing"); (2, "%s playing");
           (3, "%s arrived"); (5, "%s arrived"); (0, "%s finished playing"); (1, "%s arrived"); (1, "%s playing")]%nat.
Proof. apply (run_out _ band_run). vm_compute. reflexivity. Qed.

(** ... and then the second singer and guitarist wait for ever, although there
    are as many drummers. *)
Example band_stuck : exists w, reachable (Band.band_main 2 2 2) w /\ stuck w /\
  exists t cv, t ∈ ths w /\ sleeping t = Some cv.
Proof. apply (run_to_stuck (band_run ++ band_rest)). vm_compute. reflexivity. Qed.

(** condvar_challenge/priority.c: the last thread to leave reads [waiting[-1]]. *)
Example priority_reads_below : exists w, reachable (Priority.priority_main [2%nat]) w /\ ub w = true.
Proof. apply (run_to ub (burst 30 0)). vm_compute. reflexivity. Qed.

(** Thread 2 arrives when 6 has been signalled and enters before it. *)
Example priority_barging : exists w, reachable (Priority.priority_main [1; 6; 2]%nat) w /\
  out w = [(0, "%d wants to enter the critical section"); (0, "%d has entered the critical section");
           (0, "%d is finished with the critical section"); (1, "%d wants to enter the critical section");
           (2, "%d wants to enter the critical section"); (2, "%d has entered the critical section")]%nat.
Proof.
  apply (run_out _ (burst 9 0 ++ burst 5 1 ++ burst 5 0 ++ [Run 0 1; Run 0 0] ++ burst 7 2)). vm_compute. reflexivity.
Qed.

(** sample_exams/exam2/shower.c: [wash] is raised after the mutex is given up,
    and two threads use the shower. *)
Example shower_shared : exists w, reachable (Shower.shower_main 2) w /\ (Shower.wash (glob w) =? 2) = true.
Proof. apply (run_to (fun w => Shower.wash (glob w) =? 2) (burst 7 0 ++ burst 8 1 ++ burst 1 0)). vm_compute. reflexivity. Qed.

(** sample_exams/exam2/stoplight.c: eastwest cars wait for the light of the
    northsouth cars. *)
Example stoplight_crossing : exists w, reachable (Stoplight.stoplight_main 1 1) w /\
  (Stoplight.nscar (glob w) =? 1) && (Stoplight.ewcar (glob w) =? 1) = true.
Proof.
  apply (run_to (fun w => (Stoplight.nscar (glob w) =? 1) && (Stoplight.ewcar (glob w) =? 1)) (burst 6 1 ++ burst 6 2)).
  vm_compute. reflexivity.
Qed.

(** exam2/problem2.c: two threads A (0, 1) raise [waitingA] together without
    the mutex and one increment is lost; then the second B (3) leaves without
    waking the A that still waits. *)
Definition types_run : list choice :=
  burst 10 2 ++ burst 2 0 ++ burst 2 1 ++ burst 4 0 ++ burst 4 1 ++ burst 9 2 ++ burst 16 0 ++
  burst 9 3 ++ burst 3 1 ++ burst 10 3.
Example types_stuck : exists w, reachable (ThreeTypes.types_main 2 2 0) w /\ stuck w /\
  exists t cv, t ∈ ths w /\ sleeping t = Some cv.
Proof. apply (run_to_stuck types_run). vm_compute. reflexivity. Qed.

(** ** One at a time *)

(** The programs that sleep with the mutex held. *)
Section serial.
Context {G : Type} (g0 : G).

Record Serial (g : G) (ro : list bool) (ws : list (option nat)) : Prop := {
  s_start : g = g0;
  s_out : forall r, r ∈ ro -> r = false;
  s_awake : forall cv, Some cv ∉ ws;
}.
Definition at_most_one (ro : list bool) : Prop := countb id ro <= 1.
Abbreviation serial_safe := (safe_n id (fun g : G => g) Serial at_most_one (fun _ => True)).

Lemma serial_woken g ro ws ws' : woken ws' ws -> Serial g ro ws -> Serial g ro ws'.
Proof. intros Hw [H1 H2 H3]. split; try done. intros cv H. by eapply H3, woken_elem. Qed.

Lemma one_in ro i b : (forall r, r ∈ ro -> r = false) -> ro !! i = Some false -> at_most_one (<[i := b]> ro).
Proof.
  intros Ho Hi. unfold at_most_one. rewrite (countb_insert _ _ _ false) by done.
  assert (Hz : countb id ro = 0); [|rewrite Hz; by destruct b].
  clear Hi. induction ro as [|r ro IH]; [done|]. simpl. rewrite (Ho r) by left. rewrite IH; [done|]. intros x Hx. apply Ho. by right.
Qed.

(** Nobody waits; when no thread can go on, all have finished. *)
Lemma serial_rule cl w :
  (forall c, c ∈ cl -> c.2 = false /\ forall n i, serial_safe n i c.1 false None) ->
  reachable (begin g0 cl) w ->
  ub w = false /\ at_most_one (roles id w) /\ (stuck w -> finished w /\ glob w = g0).
Proof.
  intros Hcl Hr.
  assert (Hout : forall r, r ∈ (fun c => id c.2) <$> cl -> r = false).
  { intros r (c & -> & Hc)%list_elem_of_fmap. by apply Hcl. }
  destruct (monitor_rule id (fun g => g) Serial at_most_one (fun _ => True) serial_woken g0 cl w) with (4 := Hr) as (H1 & _ & H2 & H3).
  - split; [done|exact Hout|]. by intros cv (c & Hc & _)%list_elem_of_fmap.
  - destruct ((fun c => id c.2) <$> cl) as [|r ro] eqn:E; [done|].
    rewrite <- (list_insert_id (r :: ro) 0 r) by done. apply one_in; [done|]. by rewrite (Hout r) by left.
  - intros i c Hc%list_elem_of_lookup_2 n. destruct (Hcl c Hc) as [-> Hs]. apply Hs.
  - split; [done|]. split; [done|]. intros St. destruct (H3 St) as [[I1 I2 I3] Hd]. split; [|done].
    intros t Ht. apply (Hd t Ht). destruct (sleeping t) as [cv|] eqn:Hs; [|done].
    destruct (I3 cv). apply list_elem_of_fmap. by exists t.
Qed.
End serial.

Lemma awake_all (ws : list (option nat)) c :
  (forall cv, Some cv ∉ ws) -> forall cv, Some cv ∉ ((fun a => if decide (a = Some c) then None else a) <$> ws).
Proof. intros H cv (a & Ha & Hin)%list_elem_of_fmap. case_decide; [done|]. subst a. by apply (H cv). Qed.

(** The mutex is taken where nobody sleeps and all are outside. *)
Lemma serial_lock {G} (g0 : G) n i k :
  (forall m ro ws, (m <= n)%nat -> ro !! i = Some false -> (forall r, r ∈ ro -> r = false) -> (forall cv, Some cv ∉ ws) ->
     (forall b, at_most_one (<[i := b]> ro)) ->
     safe_n id (fun g => g) (Serial g0) at_most_one (fun _ => True) m i k false (Some (g0, <[i := false]> ro, ws))) ->
  safe_n id (fun g => g) (Serial g0) at_most_one (fun _ => True) n i (Lock :: k) false None.
Proof.
  intros H. go. intros g ro ws [-> Ho Ha] Hi _. simpl in Hi. rewrite <- (list_insert_id ro i false) by done.
  apply H; [lia|done|done|done|]. intros b. by apply one_in.
Qed.

(** Statements up to the end of a section in which nobody sleeps. *)
Ltac serial HG Ha :=
  repeat (held by (rewrite ?list_insert_insert_eq; apply HG); rewrite ?list_insert_insert_eq;
    try (split; [intros _|by intros ? ?%list_elem_of_lookup_2%Ha])).
(** The mutex is given up as it was taken. *)
Ltac serial_end Hi Ho Ha :=
  split; [split; [reflexivity|by rewrite (list_insert_id _ _ _ Hi)|intros ?; repeat apply awake_all; apply Ha]|].

Lemma max_safe n i : safe_n id (fun g : Z => g) (Serial 0) at_most_one (fun _ => True) n i Max.max_thread false None.
Proof.
  apply serial_lock. intros m ro ws _ Hi Ho Ha HG. serial HG Ha. serial_end Hi Ho Ha. go. go. done.
Qed.

Lemma ewcar_safe n i : safe_n id (fun g => g) (Serial Tunnel.empty) at_most_one (fun _ => True) n i Tunnel.ewcar false None.
Proof.
  apply serial_lock. intros m ro ws _ Hi Ho Ha HG. serial HG Ha. serial_end Hi Ho Ha. go. go. done.
Qed.

Lemma wecar_safe n i : safe_n id (fun g => g) (Serial Tunnel.empty) at_most_one (fun _ => True) n i Tunnel.wecar false None.
Proof.
  apply serial_lock. intros m ro ws _ Hi Ho Ha HG. serial HG Ha. serial_end Hi Ho Ha. go. go. done.
Qed.

Lemma ambulance_safe n i : safe_n id (fun g => g) (Serial Tunnel.empty) at_most_one (fun _ => True) n i Tunnel.ambulance false None.
Proof.
  apply serial_lock. intros m ro ws _ Hi Ho Ha HG. serial HG Ha. serial_end Hi Ho Ha. go. done.
Qed.

Lemma customer_safe n i : safe_n id (fun g => g) (Serial Rooms.empty) at_most_one (fun _ => True) n i Rooms.customer false None.
Proof.
  apply serial_lock. intros m ro ws _ Hi Ho Ha HG. serial HG Ha. serial_end Hi Ho Ha. go. clear Hi Ho Ha HG ro ws.
  apply serial_lock. intros m2 ro ws _ Hi Ho Ha HG. serial HG Ha. serial_end Hi Ho Ha. go. go. done.
Qed.

(** condvar_basics: in max.c never two threads are in the critical section, in
    tunnel.c never two vehicles in the tunnel, and in rooms.c never two
    customers in the rooms, so that none leaves unhappy: each of them is there
    with the mutex held.  They never wait for one another otherwise. *)
Theorem max_serial n w :
  reachable (Max.max_main n) w -> ub w = false /\ at_most_one (roles id w) /\ (stuck w -> finished w /\ glob w = 0).
Proof. apply serial_rule. intros c ->%group_elem. split; [done|]. intros k i. apply max_safe. Qed.

Theorem tunnel_serial ew we am w :
  reachable (Tunnel.tunnel_main ew we am) w ->
  ub w = false /\ at_most_one (roles id w) /\ (stuck w -> finished w /\ glob w = Tunnel.empty).
Proof.
  apply serial_rule. intros c. rewrite !elem_of_app.
  intros [->%group_elem|[->%group_elem | ->%group_elem]]; (split; [done|]); intros n i; [apply ewcar_safe|apply wecar_safe|apply ambulance_safe].
Qed.

Theorem rooms_serial n w :
  reachable (Rooms.rooms_main n) w ->
  ub w = false /\ at_most_one (roles id w) /\ (stuck w -> finished w /\ Rooms.num_left_customers (glob w) = 0).
Proof.
  intros Hr. destruct (serial_rule Rooms.empty (group n Rooms.customer false) w) as (H1 & H2 & H3); [|exact Hr|].
  - intros c ->%group_elem. split; [done|]. intros k i. apply customer_safe.
  - split; [done|]. split; [done|]. intros St. destruct (H3 St) as [Hf ->]. done.
Qed.

(** ** Requests *)

Module RequestsThm.
Import Requests.
Definition at_most_two (ro : list bool) : Prop := countb id ro <= 2.
Definition Inv (g : G) (ro : list bool) (ws : list (option nat)) : Prop := prepo g = countb id ro /\ at_most_two ro.
Abbreviation request_safe := (safe_n id (fun g : G => g) Inv at_most_two (fun _ => True)).

Lemma inv_two g ro ws : Inv g ro ws -> at_most_two ro.
Proof. by intros [_ H]. Qed.

Lemma request_fn_safe n i : request_safe n i request_fn false None.
Proof.
  unfold request_fn. go. go. intros g ro ws I Hi Hwi. apply safe_wait_while; [exact inv_two|by intros ? ? ? (? & _)| |by split_and!].
  intros m. clear g ro ws I Hi Hwi. intros g ro ws _ ([Hc Ht] & Hi & Hwi) Hg. simpl in Hi, Hg.
  assert (Hn : countb id (<[i := true]> ro) = countb id ro + 1) by (rewrite (countb_insert _ _ _ false) by done; simpl; lia).
  assert (Ht' : at_most_two (<[i := true]> ro)) by (unfold at_most_two; lia).
  held by (exact Ht). held by (exact Ht'). split; [split; [simpl; lia|done]|]. go. go. go.
  clear g ro ws Hc Ht Hi Hwi Hg Hn Ht'. intros g ro ws [Hc Ht] Hi Hwi. simpl in Hi.
  assert (Hn : countb id (<[i := false]> ro) = countb id ro - 1) by (rewrite (countb_insert _ _ _ true) by done; simpl; lia).
  assert (Ht' : at_most_two (<[i := false]> ro)) by (unfold at_most_two in *; lia).
  held by (exact Ht). held by (exact Ht').
  assert (Hend : forall m ws, request_safe m i (drop 10 request_fn) false (Some (g.[prepo := prepo g - 1], <[i := false]> ro, ws))).
  { clear m ws Hwi. intros m ws. unfold request_fn. simpl. held by (exact Ht'). rewrite list_insert_insert_eq. held by (exact Ht'). held by (exact Ht').
    split; [split; [simpl; lia|done]|]. by go. }
  destruct (prepo g - 1 <? 2); simpl; [held by (exact Ht')|]; apply Hend.
Qed.

Lemma worker_fn_safe n i : request_safe n i worker_fn false None.
Proof.
  unfold worker_fn. go. revert n. set (loop := While _ _). set (rest := [Print _]).
  apply (safe_loop _ _ _ _ _ i (loop :: rest) (fun l h => l = false /\ h = None)); [|done].
  intros n IH l h [-> ->]. unfold loop at 1. go. intros g0. destruct (total g0 <? 10); simpl; fold loop; [|unfold rest; go; by go].
  go. intros g ro ws I Hi Hwi. apply safe_wait_while; [exact inv_two|by intros ? ? ? (? & _)| |by split_and!].
  intros m. clear g ro ws I Hi Hwi. intros g ro ws Hm ([Hc Ht] & Hi & Hwi) Hg. simpl in Hi.
  held by (exact Ht). rewrite list_insert_id by done. held by (exact Ht). split; [by split|]. go. go. go.
  clear g ro ws Hc Ht Hi Hwi Hg. intros g ro ws [Hc Ht] Hi Hwi. simpl in Hi.
  held by (exact Ht). rewrite list_insert_id by done. held by (exact Ht). split; [by split|]. apply IH; [lia|done].
Qed.

(** exam2/problem3.c: never more than two requests are preprocessed at once. *)
Theorem requests_at_most_two workers requests w :
  reachable (requests_main workers requests) w -> ub w = false /\ at_most_two (roles id w).
Proof.
  intros Hr. set (cl := group workers worker_fn false ++ group requests request_fn false).
  assert (Hz : countb id ((fun c => id c.2) <$> cl) = 0).
  { unfold cl. rewrite fmap_app. unfold group. rewrite !fmap_replicate. generalize workers requests. clear.
    intros a b. induction a as [|a IH]; simpl; [|exact IH]. by induction b. }
  destruct (monitor_rule id (fun g => g) Inv at_most_two (fun _ => True)
    (fun _ _ _ _ _ H => H) idle cl w) with (4 := Hr) as (H1 & _ & H2 & _).
  - split; [done|]. unfold at_most_two. by rewrite Hz.
  - unfold at_most_two. by rewrite Hz.
  - intros i c Hc%list_elem_of_lookup_2 n. apply elem_of_app in Hc as [->%group_elem | ->%group_elem]; [apply worker_fn_safe|apply request_fn_safe].
  - by split.
Qed.
End RequestsThm.
